(* ===== verification/_CoqProject ===== *)
-Q . S2P
Prelude.v
CString.v
Block.v
Bio.v
Log.v
MergeSort.v
Fs.v
FsFacts.v
FsMeta.v
Kalloc.v
Pipe.v
Proc.v
Server.v
ServerFacts.v
MfsFacts.v
Vm.v
VmFacts.v
VmSpace.v
Sh.v
ShFacts.v
File.v
FileFacts.v
Sysfile.v
SysfileFacts.v
Exec.v
ExecFacts.v
Grep.v
Console.v
Umalloc.v
Wish.v
MkImage.v
Spinlock.v
Kbd.v
Ata.v
Ide.v
Boot.v
Mp.v
Seg.v
Trap.v
Apic.v
User.v
UserFacts.v
