(* ===== verification/Prelude.v ===== *)
(** Verification of the os-projects repository.

    * The programs

    The repository holds four programs of an operating systems course.

    - [xv6/base]: the xv6 teaching kernel, with its user programs.  The kernel
      is a stack of components.  The memory disk ([memide.c]) is read and
      written by the buffer cache ([bio.c]), which the write-ahead log
      ([log.c]) uses to make groups of block writes atomic; the file system
      ([fs.c]) allocates blocks and inodes, reads and writes files and
      directories inside log transactions; open files and pipes ([file.c],
      [pipe.c]) are reached through the descriptors of a process by the system
      calls ([syscall.c], [sysfile.c], [sysproc.c]).  Physical pages
      ([kalloc.c]) are mapped into address spaces ([vm.c]); processes
      ([proc.c]) are created, scheduled and reaped on top.
    - [filesystem]: a file server over UDP ([server.c]) with its client library
      ([mfs.c]) and image builder ([mkfs.c]).
    - [parallel-sort]: a merge sort that splits its merges between threads.
    - [linux-shell]: a shell for Linux.

    * How they are modelled

    Shallowly, from the sources.  Integers are [Z], reduced where the C type
    wraps ([u8] .. [s32] below); memory is a function from addresses to bytes
    where code works with addresses, records and lists where it works with
    structures.  A routine of the kernel is a function that returns, panics or
    goes to sleep ([result]); routines that change a state are in the state
    monad [SR] over it.  A spinlock or [ptable.lock] makes what it protects
    one step, so a routine that holds a lock throughout is one transition; the
    interleavings the theorems quantify over are sequences of such steps.
    Pointers to table entries (buffers, inodes, files, processes) are indices,
    NULL is [None].

    * Files

    - [Prelude]: integers, results, the state monad, lists, memory.
    - [CString]: [string.c] and the copies in [ulib.c] ([memset], [memmove],
      [strncmp], [strncpy], [safestrcpy], ...), on memory.
    - [Block]: blocks as lists of 512 bytes and their little-endian fields.
    - [Spinlock]: [spinlock.c] on several processors.
    - [Bio]: [bio.c], [memide.c], [sleeplock.c]; state [bio] (buffers, list
      order, disk).  The classes [BufOps] and [BufLaws] are the interface that
      the log and the file system are verified against, with the cache as the
      instance.
    - [Ata], [Ide]: [ide.c] on a model of the disk controller; state [ide]
      (buffers, queue, controller).
    - [Boot]: [bootmain.c], on the same controller.
    - [Mp]: [mp.c] and [mp.h], the tables that describe the processors.
    - [Log]: [log.c]; state [logst] over any [BufOps].
    - [Fs], [FsFacts], [FsMeta]: [fs.c]; state [fs] (cache, log, superblock,
      inode cache, current directory).  [Fs] holds the routines, [FsFacts] the
      free map, the block map, [readi] and [writei], [FsMeta] the inode cache,
      the on-disk inode and path names.
    - [Kalloc]: [kalloc.c], the free list inside the free pages.
    - [Vm], [VmFacts], [VmSpace]: [vm.c], page tables in the memory of
      [Kalloc]; [VmSpace] views a directory as a user address space.
    - [Pipe]: the ring buffer of [pipe.c].
    - [Proc]: [proc.c] and [sysproc.c]; state [pst], over the interface
      [ProcEnv] to memory and files.
    - [Seg]: the segment and gate descriptors of [mmu.h], [seginit], [switchuvm]
      and [tvinit].
    - [Trap]: [trap.c]; state [kernel] (process table, drivers, console, ticks).
    - [Apic]: [lapic.c], [ioapic.c] and [picirq.c], and [mycpu].
    - [File], [FileFacts]: [file.c] with [pipealloc] and [pipeclose]; state
      [kst] (file system, page allocator, file table, pipes).
    - [Sysfile], [SysfileFacts]: [syscall.c] and [sysfile.c]; state [sst] adds
      the descriptors and the memory of the running process.
    - [Exec], [ExecFacts]: [exec.c]; state [est] (file system, page allocator,
      the fields of the process that [exec] replaces).
    - [Console]: [console.c] with the output to the screen and the serial port,
      [printf.c], [atoi].
    - [Kbd]: [kbd.c], [kbd.h] and [uart.c], the input of the console.
    - [Sh], [ShFacts]: the parser of the shell and [runcmd], [sh.c].
    - [Umalloc]: [umalloc.c], the allocator of the user library, in the memory
      of a process.
    - [Grep]: the matcher and the loops of [grep.c] and [wc.c].
    - [User], [UserFacts]: [cat.c], [echo.c], [kill.c], [ln.c], [ls.c],
      [mkdir.c], [rm.c], the mains of [grep.c], [wc.c] and [sh.c], over the
      interfaces [Unix] and [Procs] to the system calls.
    - [MkImage]: [mkfs.c] of xv6, which builds the first image of the disk.
    - [Wish]: [linux-shell/wish.c].
    - [MergeSort]: [parallel-sort/mergesort.c].
    - [Server], [ServerFacts], [MfsFacts]: [filesystem/server.c], [mfs.c] and
      [mkfs.c], the messages between them.

    * What the theorems show

    - Spin locks: every interleaving of the steps of the processors excludes,
      panics are calls by the wrong processor, interrupts are off while a lock
      is held and restored afterwards.  The other files rely on this where they
      take a routine that holds a lock as one step.
    - Log: a crash at any point of a commit leaves, after recovery, all or none
      of the transaction on the disk; a commit that finishes is durable;
      [log_write] keeps the logged blocks equal to the dirty buffers; the
      reservation of [begin_op] is enough for calls that keep to their share,
      and one block short of the log that [mkfs] lays out.
    - Disk: the driver serves requests in order for every interleaving of calls
      and interrupts, and a request does what [iderw] of the memory disk does,
      with which the cache is verified.
    - Cache: [bread] returns the current contents of the block asked for.
    - File system: block allocation, the round trip of [writei] and [readi]
      with nothing else changed, the on-disk inode, the inode cache, path
      elements.
    - Files: a write through a descriptor is cut into transactions that fit in
      the log, is on the disk when it returns, and is read back through other
      descriptors (the composition of files, file system, log and cache);
      reference counts and pipes are exact across every system call; arguments
      of system calls stay inside the process.
    - Memory: the free list, [mappages], [allocuvm] (all or nothing).
    - Programs: [exec] starts a program with the segments of its file and its
      arguments on the stack, or leaves everything as it was and loses no page
      (the composition of file system, page tables and allocator).
    - Boot: the loader puts the segments of the kernel file where their headers
      say and enters it; the search for processors reads the table it finds, and
      does not end when an entry is of an unknown type.
    - Processes: the invariant of the process table over every step of every
      routine, [exit] and [wait].
    - Traps: the way from user mode into the kernel; every trap keeps the process
      table consistent and never returns to user code of a killed process.
    - Interrupt controllers: which interrupt is let through, at which vector and
      to which processor, after [main]; the time read from the clock was shown
      by it.
    - Pipes: a FIFO queue for any interleaving of readers and writers.
    - Console: keyboard interrupts and readers act on the ring buffer as on two
      queues of characters; the keyboard driver reads scan codes as presses of
      keys under the modifiers; a line typed on the keyboard reaches the reader
      that waits for it; output stays on the screen; printed numbers are read
      back.
    - Shell: the parser stops on every line and returns words of the line; it
      reads back the text of every command; a command runs with the
      descriptors its text says.
    - User memory: [malloc] and [free] keep a tiling of the heap; blocks in use
      never overlap and keep their contents.
    - Grep: the matcher against a denotation of its expressions; the lines
      printed are the matching ones, for files of short lines.
    - User programs: what [cat], [wc], [grep], [ls] and [echo] print, against any
      system that keeps the laws of the calls; the shell runs the lines of its
      input in order.
    - Image: what [mkfs] writes is a file system as the kernel expects it,
      with the files it was given.
    - Linux shell: a line that spells a program or a conditional runs what it
      says; and lines on which the shell goes wrong.
    - Strings: the routines against their specifications, overlap included.
    - Merge sort: the serial sorts agree and sort; every schedule of the
      parallel merge gives the serial result; up to 32 elements the parallel
      sort sorts, with 33 it need not.
    - File server: a fresh image is well formed; reads return what was written
      within a block; the allocators never hand out a number twice; client and
      server agree over the messages; and counterexamples where the code loses
      data.

    Where the code does not do what it means to, the theorem states what it
    does, and the manifest records it as a finding.

    * Bounds and fuel

    Recursion that is not structural runs on fuel, computed from the input so
    that it is never used up: a turn of [readi] and [writei] takes at least a
    byte up to a block boundary ([io_fuel]); a turn of [mappages], [allocuvm]
    and [freerange] a page; [namex] an element of the path; a write a byte;
    the shell's parser at least one character every four calls.  The theorems
    show results, not the absence of them: a run that ran out would be a
    [Panic], [Sleeps] or [None] that the statement excludes.

    * Not modelled

    The order of the calls in [main.c], context switches and assembly
    ([bootasm.S], [trapasm.S], [swtch.S], the loads of registers in [vm.c] and
    [trap.c]).  [init.c], [zombie.c] and [stressfs.c] only start processes.
    Sockets ([udp.c]) are the channel between client and server.  Threads of
    [mergesort.c] are schedules of their writes.  Test and demonstration programs
    ([usertests.c], [test.c], [client-app.c], ...) are not part of the system. *)

From Stdlib Require Export ZArith Lia.
From stdpp Require Export base numbers list strings gmap option functions relations.

#[export] Set Default Goal Selector "!".

(** * Machine integers

    The programs run on 32-bit x86: [int] and [uint] are 32 bits wide,
    [short]/[ushort] 16 and [char]/[uchar] 8.  Every value is a [Z]; the
    functions below are the C conversions to each type (unsigned: reduction
    modulo 2^w, signed: two's complement). *)

Declare Scope c_scope.
Delimit Scope c_scope with c.
Open Scope Z_scope.

Definition u8 (z : Z) : Z := z mod 2 ^ 8.
Definition u16 (z : Z) : Z := z mod 2 ^ 16.
Definition u32 (z : Z) : Z := z mod 2 ^ 32.
Definition s8 (z : Z) : Z := (z + 2 ^ 7) mod 2 ^ 8 - 2 ^ 7.
Definition s16 (z : Z) : Z := (z + 2 ^ 15) mod 2 ^ 16 - 2 ^ 15.
Definition s32 (z : Z) : Z := (z + 2 ^ 31) mod 2 ^ 32 - 2 ^ 31.

Notation "a +u b" := (u32 (a + b)) (at level 50, left associativity) : c_scope.
Notation "a -u b" := (u32 (a - b)) (at level 50, left associativity) : c_scope.
Notation "a +s b" := (s32 (a + b)) (at level 50, left associativity) : c_scope.
Notation "a -s b" := (s32 (a - b)) (at level 50, left associativity) : c_scope.

(** A byte as it is stored in memory. *)
Definition is_byte (z : Z) : Prop := 0 <= z < 256.

#[export] Instance is_byte_dec z : Decision (is_byte z).
Proof. unfold is_byte. apply _. Defined.

(** [lia] extended with division and remainder by constants. *)
Ltac zlia := Z.div_mod_to_equations; lia.

Lemma u32_small z : 0 <= z < 2 ^ 32 -> u32 z = z.
Proof. apply Z.mod_small. Qed.

Lemma u32_range z : 0 <= u32 z < 2 ^ 32.
Proof. apply Z.mod_pos_bound. lia. Qed.

Lemma u8_range z : is_byte (u8 z).
Proof. apply (Z.mod_pos_bound z 256). lia. Qed.

Lemma u8_small z : is_byte z -> u8 z = z.
Proof. apply Z.mod_small. Qed.

Lemma s16_range z : - 2 ^ 15 <= s16 z < 2 ^ 15.
Proof. unfold s16. pose proof (Z.mod_pos_bound (z + 2 ^ 15) (2 ^ 16)). lia. Qed.

Lemma s32_range z : - 2 ^ 31 <= s32 z < 2 ^ 31.
Proof. unfold s32. pose proof (Z.mod_pos_bound (z + 2 ^ 31) (2 ^ 32)). lia. Qed.

Lemma s32_small z : - 2 ^ 31 <= z < 2 ^ 31 -> s32 z = z.
Proof. intros H. unfold s32. rewrite Z.mod_small; lia. Qed.

Lemma u32_add_l a b : u32 (u32 a + b) = u32 (a + b).
Proof. unfold u32. by rewrite Zplus_mod_idemp_l. Qed.

Lemma u32_add_r a b : u32 (a + u32 b) = u32 (a + b).
Proof. unfold u32. by rewrite Zplus_mod_idemp_r. Qed.

Lemma u32_sub_l a b : u32 (u32 a - b) = u32 (a - b).
Proof. unfold u32. by rewrite Zminus_mod_idemp_l. Qed.

Lemma u32_sub_r a b : u32 (a - u32 b) = u32 (a - b).
Proof. unfold u32. by rewrite Zminus_mod_idemp_r. Qed.

(** The automation of the arithmetic side conditions. *)
Create HintDb carith discriminated.
Create Rewrite HintDb cwrap.
#[export] Hint Resolve u32_range u8_range s32_range : carith.
#[export] Hint Rewrite u32_add_l u32_add_r u32_sub_l u32_sub_r : cwrap.

(** * Results: a kernel routine returns, panics, or goes to sleep

    [Sleeps ch] is the outcome of a routine that calls [sleep] on channel [ch]
    and so leaves the processor: only a wakeup by another process continues
    it. *)

Inductive result (A : Type) : Type :=
| Ok (a : A)
| Panic (msg : string)
| Sleeps (chan : string).
Arguments Ok {A} _.
Arguments Panic {A} _.
Arguments Sleeps {A} _.

#[export] Instance result_ret : MRet result := fun A a => Ok a.
#[export] Instance result_bind : MBind result := fun A B f m =>
  match m with
  | Ok a => f a
  | Panic msg => Panic msg
  | Sleeps chan => Sleeps chan
  end.

Lemma result_bind_ok {A B} (m : result A) (f : A -> result B) b :
  (m ≫= f) = Ok b <-> exists a, m = Ok a /\ f a = Ok b.
Proof.
  destruct m as [a | msg | ch]; cbn; split.
  - eauto.
  - intros (a' & Ha & Hf). by simplify_eq.
  - done.
  - by intros (a' & Ha & _).
  - done.
  - by intros (a' & Ha & _).
Qed.

(** * Stateful code: a routine that changes a state, or panics, or sleeps *)

Definition SR (S A : Type) : Type := S -> result (A * S).

#[export] Instance SR_ret S : MRet (SR S) := fun A a s => Ok (a, s).
#[export] Instance SR_bind S : MBind (SR S) := fun A B f m s =>
  match m s with
  | Ok (a, s') => f a s'
  | Panic msg => Panic msg
  | Sleeps chan => Sleeps chan
  end.

Definition sr_panic {S A} (msg : string) : SR S A := fun _ => Panic msg.
Definition sr_gets {S A} (f : S -> A) : SR S A := fun s => Ok (f s, s).
Definition sr_modify {S} (f : S -> S) : SR S unit := fun s => Ok (tt, f s).

Lemma sr_bind_run {S A B} (m : SR S A) (f : A -> SR S B) s a s' :
  m s = Ok (a, s') -> (m ≫= f) s = f a s'.
Proof. unfold mbind, SR_bind. by intros ->. Qed.

Lemma sr_bind_ok {S A B} (m : SR S A) (f : A -> SR S B) s b s2 :
  (m ≫= f) s = Ok (b, s2) <-> exists a s1, m s = Ok (a, s1) /\ f a s1 = Ok (b, s2).
Proof.
  unfold mbind, SR_bind. destruct (m s) as [[a s1]| |]; split; intros; naive_solver.
Qed.

(** A loop body run on each element of a list of indices, the way a C [for]
    whose body may panic runs. *)
Fixpoint for_each {A S} (body : A -> S -> result S) (idxs : list A) (s : S) : result S :=
  match idxs with
  | [] => Ok s
  | i :: idxs' => s' ← body i s; for_each body idxs' s'
  end.

Lemma for_each_app {A S} (body : A -> S -> result S) l1 l2 s :
  for_each body (l1 ++ l2) s = (for_each body l1 s ≫= for_each body l2).
Proof.
  revert s. induction l1 as [|i l1 IH]; intros s; [done|].
  cbn. destruct (body i s); cbn; [apply IH | done | done].
Qed.

(** The invariant rule of such a loop. *)
Lemma for_each_inv {A S} (body : A -> S -> result S) (I : S -> Prop) idxs s s' :
  (forall i s1 s2, I s1 -> body i s1 = Ok s2 -> I s2) ->
  I s -> for_each body idxs s = Ok s' -> I s'.
Proof.
  intros Hstep. revert s. induction idxs as [|i idxs IH]; intros s HI Hrun.
  - by simplify_eq/=.
  - cbn in Hrun. apply result_bind_ok in Hrun as (s1 & H1 & H2). eauto.
Qed.

(** [find_idx p l] is the index of the first element satisfying [p]: the
    scan [for(i = 0; i < n; i++) if(p(a[i])) ...] of the C code. *)
Fixpoint find_idx {A} (p : A -> bool) (l : list A) : option nat :=
  match l with
  | [] => None
  | x :: l' => if p x then Some O else S <$> find_idx p l'
  end.

Lemma find_idx_Some {A} (p : A -> bool) l i :
  find_idx p l = Some i <->
  (exists x, l !! i = Some x /\ p x = true) /\
  (forall j x, (j < i)%nat -> l !! j = Some x -> p x = false).
Proof.
  revert i. induction l as [|y l IH]; intros i; cbn.
  - split; [done|]. intros [(x & Hx & _) _]. by rewrite lookup_nil in Hx.
  - destruct (p y) eqn:Hy.
    + split.
      * intros [= <-]. split; [eauto|]. intros; lia.
      * intros [_ Hlt]. destruct i as [|i]; [done|].
        rewrite (Hlt O y) in Hy; [done | lia | done].
    + rewrite fmap_Some. split.
      * intros (k & Hk & ->). apply IH in Hk as [Hx Hlt]. split; [done|].
        intros [|j] x Hj Hlk; [cbn in Hlk; congruence | apply (Hlt j); [lia | done]].
      * intros [(x & Hx & Hp) Hlt]. destruct i as [|i]; [cbn in Hx; congruence|].
        exists i. split; [|done]. apply IH. split; [eauto|].
        intros j z Hj Hlk. apply (Hlt (S j)); [lia | done].
Qed.

Lemma find_idx_None {A} (p : A -> bool) l :
  find_idx p l = None <-> forall x, x ∈ l -> p x = false.
Proof.
  induction l as [|y l IH]; cbn.
  - split; [|done]. intros _ x Hx. by apply not_elem_of_nil in Hx.
  - destruct (p y) eqn:Hy; [split; [done|]|].
    + intros H. rewrite H in Hy; [done | apply list_elem_of_here].
    + rewrite fmap_None, IH. split.
      * intros H x Hx. apply elem_of_cons in Hx as [-> | Hx]; auto.
      * intros H x Hx. apply H. by apply list_elem_of_further.
Qed.

(** The sum of a list of integers. *)
Definition Zsum (l : list Z) : Z := foldr Z.add 0 l.

Lemma Zsum_app l1 l2 : Zsum (l1 ++ l2) = Zsum l1 + Zsum l2.
Proof. unfold Zsum. induction l1 as [|x l1 IH]; cbn; [done|]. lia. Qed.

Lemma Zsum_insert l i b x : l !! i = Some b -> Zsum (<[i := x]> l) = Zsum l - b + x.
Proof.
  revert i. induction l as [|y l IH]; intros [|i] Hi; try done.
  - injection Hi as ->. unfold Zsum. cbn. lia.
  - change (<[S i := x]> (y :: l)) with (y :: <[i := x]> l).
    specialize (IH i Hi). unfold Zsum in *. cbn [foldr]. lia.
Qed.

Lemma Zsum_delete l i b : l !! i = Some b -> Zsum (delete i l) = Zsum l - b.
Proof.
  revert i. induction l as [|y l IH]; intros [|i] Hi; try done.
  - injection Hi as ->. unfold Zsum. cbn. lia.
  - change (delete (S i) (y :: l)) with (y :: delete i l).
    specialize (IH i Hi). unfold Zsum in *. cbn [foldr]. lia.
Qed.

(** * C memory

    An address space seen from one routine: a byte for every address.  An
    address is a [Z]; the routines are only run on objects that do not wrap
    around the top of the address space (in C the pointer arithmetic would be
    undefined otherwise). *)

Definition mem := Z -> Z.

Definition mset (m : mem) (a v : Z) : mem := fun x => if Z.eqb x a then v else m x.

Definition mem_ok (m : mem) : Prop := forall a, is_byte (m a).

Lemma mset_eq m a v : mset m a v a = v.
Proof. unfold mset. by rewrite Z.eqb_refl. Qed.

Lemma mset_ne m a v x : x <> a -> mset m a v x = m x.
Proof. unfold mset. intros H. by destruct (Z.eqb_spec x a). Qed.

Ltac mset_simp :=
  repeat match goal with
  | |- context [mset _ ?a _ ?x] =>
      first [ rewrite (mset_eq _ a _) | rewrite (mset_ne _ a _ x) by lia ]
  end.

(** * The open modes of fcntl.h, shared by the kernel and the shell *)

Definition O_RDONLY : Z := 0x000.
Definition O_WRONLY : Z := 0x001.
Definition O_RDWR : Z := 0x002.
Definition O_CREATE : Z := 0x200.
