(* ===== verification/CString.v ===== *)
(** The memory and string routines: [xv6/base/string.c] (the kernel's) and
    [xv6/base/ulib.c] (the user library's).

    Every routine is a function on the address space [mem]; a C loop is a
    [Fixpoint] on its counter, or on fuel where the loop runs to a NUL byte
    ([None]: the fuel ran out).  The theorems give the whole effect of each
    routine on memory, address by address, and relate the string routines to
    the strings they handle ([cstr], [cstrn]). *)

From S2P Require Import Prelude.

(** The bytes [l] stored at [a], from outside this memory *)
Definition put_bytes (m : mem) (a : Z) (l : list Z) : mem := fun x =>
  if (a <=? x) && (x <? a + Z.of_nat (length l)) then nth (Z.to_nat (x - a)) l 0 else m x.

(** ** Definitions: string.c *)

(** [rep stosb] and [rep stosl] of x86.h: store [cnt] bytes, or [cnt]
    little-endian 32-bit words. *)
Fixpoint stosb (m : mem) (addr data : Z) (cnt : nat) : mem :=
  match cnt with
  | O => m
  | S cnt' => stosb (mset m addr (u8 data)) (addr + 1) data cnt'
  end.

Definition store32 (m : mem) (a w : Z) : mem :=
  mset (mset (mset (mset m a (u8 w))
    (a + 1) (u8 (Z.shiftr w 8))) (a + 2) (u8 (Z.shiftr w 16)))
    (a + 3) (u8 (Z.shiftr w 24)).

Fixpoint stosl (m : mem) (addr data : Z) (cnt : nat) : mem :=
  match cnt with
  | O => m
  | S cnt' => stosl (store32 m addr data) (addr + 4) data cnt'
  end.

Definition memset (m : mem) (dst c n : Z) : mem :=
  if (Z.rem (s32 dst) 4 =? 0) && (n mod 4 =? 0) then
    let c := Z.land c 0xFF in
    stosl m dst
      (s32 (Z.lor (Z.lor (Z.lor (Z.shiftl c 24) (Z.shiftl c 16)) (Z.shiftl c 8)) c))
      (Z.to_nat (n / 4))
  else stosb m dst c (Z.to_nat n).

Fixpoint memcmp_loop (m : mem) (s1 s2 : Z) (n : nat) : Z :=
  match n with
  | O => 0
  | S n' =>
      if negb (m s1 =? m s2) then m s1 - m s2
      else memcmp_loop m (s1 + 1) (s2 + 1) n'
  end.

Definition memcmp (m : mem) (v1 v2 n : Z) : Z := memcmp_loop m v1 v2 (Z.to_nat n).

(** The two copy loops of [memmove]: [*--d = *--s] and [*d++ = *s++]. *)
Fixpoint copy_down (m : mem) (d s : Z) (n : nat) : mem :=
  match n with
  | O => m
  | S n' => copy_down (mset m (d - 1) (m (s - 1))) (d - 1) (s - 1) n'
  end.

Fixpoint copy_up (m : mem) (d s : Z) (n : nat) : mem :=
  match n with
  | O => m
  | S n' => copy_up (mset m d (m s)) (d + 1) (s + 1) n'
  end.

Definition memmove (m : mem) (dst src n : Z) : mem :=
  if (src <? dst) && (dst <? src + n) then
    copy_down m (dst + n) (src + n) (Z.to_nat n)
  else copy_up m dst src (Z.to_nat n).

Definition memcpy (m : mem) (dst src n : Z) : mem := memmove m dst src n.

Fixpoint strncmp_loop (m : mem) (p q : Z) (n : nat) : Z :=
  match n with
  | O => 0
  | S n' =>
      if negb (m p =? 0) && (m p =? m q) then strncmp_loop m (p + 1) (q + 1) n'
      else u8 (m p) - u8 (m q)
  end.

Definition strncmp (m : mem) (p q n : Z) : Z := strncmp_loop m p q (Z.to_nat n).

(** The first loop of [strncpy] stops at the NUL it copied or when [n] is
    used up; it leaves the destination pointer and what remains of [n]. *)
Fixpoint strncpy_copy (m : mem) (s t : Z) (n : nat) : mem * Z * nat :=
  match n with
  | O => (m, s, O)
  | S n' =>
      let c := m t in
      let m' := mset m s c in
      if c =? 0 then (m', s + 1, n') else strncpy_copy m' (s + 1) (t + 1) n'
  end.

Fixpoint fill_zero (m : mem) (s : Z) (n : nat) : mem :=
  match n with
  | O => m
  | S n' => fill_zero (mset m s 0) (s + 1) n'
  end.

Definition strncpy (m : mem) (s t n : Z) : mem :=
  let '(m', s', n') := strncpy_copy m s t (Z.to_nat n) in fill_zero m' s' n'.

Fixpoint safestrcpy_copy (m : mem) (s t : Z) (k : nat) : mem * Z :=
  match k with
  | O => (m, s)
  | S k' =>
      let c := m t in
      let m' := mset m s c in
      if c =? 0 then (m', s + 1) else safestrcpy_copy m' (s + 1) (t + 1) k'
  end.

Definition safestrcpy (m : mem) (s t n : Z) : mem :=
  if n <=? 0 then m
  else let '(m', s') := safestrcpy_copy m s t (Z.to_nat (n - 1)) in mset m' s' 0.

Fixpoint strlen_loop (fuel : nat) (m : mem) (s n : Z) : option Z :=
  match fuel with
  | O => None
  | S f => if m (s + n) =? 0 then Some n else strlen_loop f m s (n + 1)
  end.

Definition strlen (fuel : nat) (m : mem) (s : Z) : option Z := strlen_loop fuel m s 0.

(** ** Definitions: ulib.c *)

Module Ulib.

Fixpoint strcpy (fuel : nat) (m : mem) (s t : Z) : option mem :=
  match fuel with
  | O => None
  | S f =>
      let c := m t in
      let m' := mset m s c in
      if c =? 0 then Some m' else strcpy f m' (s + 1) (t + 1)
  end.

Fixpoint strcmp (fuel : nat) (m : mem) (p q : Z) : option Z :=
  match fuel with
  | O => None
  | S f =>
      if negb (m p =? 0) && (m p =? m q) then strcmp f m (p + 1) (q + 1)
      else Some (u8 (m p) - u8 (m q))
  end.

(** [strchr] returns a pointer into the string, or the null pointer. *)
Fixpoint strchr (fuel : nat) (m : mem) (s c : Z) : option Z :=
  match fuel with
  | O => None
  | S f =>
      if m s =? 0 then Some 0
      else if m s =? u8 c then Some s else strchr f m (s + 1) c
  end.

Definition umemset (m : mem) (dst c n : Z) : mem := stosb m dst c (Z.to_nat n).

Definition umemmove (m : mem) (dst src n : Z) : mem := copy_up m dst src (Z.to_nat n).

(** ['0' <= *s && *s <= '9'] compares plain (signed) [char]s. *)
Fixpoint atoi_loop (fuel : nat) (m : mem) (s n : Z) : option Z :=
  match fuel with
  | O => None
  | S f =>
      let c := s8 (m s) in
      if (48 <=? c) && (c <=? 57)
      then atoi_loop f m (s + 1) (s32 (n * 10 + c - 48))
      else Some n
  end.

Definition atoi (fuel : nat) (m : mem) (s : Z) : option Z := atoi_loop fuel m s 0.

End Ulib.

(** ** The strings the routines handle *)

(** [cstr m a l]: at [a] lies the NUL-terminated string [l]. *)
Fixpoint cstr (m : mem) (a : Z) (l : list Z) : Prop :=
  match l with
  | [] => m a = 0
  | c :: l' => m a = c /\ c <> 0 /\ cstr m (a + 1) l'
  end.

(** [cstrn n m a]: the string in a field of [n] bytes at [a], which need not
    be NUL-terminated when it fills the field. *)
Fixpoint cstrn (n : nat) (m : mem) (a : Z) : list Z :=
  match n with
  | O => []
  | S n' => if m a =? 0 then [] else m a :: cstrn n' m (a + 1)
  end.

(** ** Lemmas on the loops *)

Definition within (x a n : Z) : bool := (a <=? x) && (x <? a + n).

Lemma within_spec x a n : BoolSpec (a <= x < a + n) (~ (a <= x < a + n)) (within x a n).
Proof. unfold within. destruct (Z.leb_spec a x), (Z.ltb_spec x (a + n)); constructor; lia. Qed.

(** Case analysis on whether an address lies in an interval. *)
Ltac case_within :=
  repeat match goal with
  | |- context [within ?x ?a ?n] => destruct (within_spec x a n)
  end.

Lemma stosb_spec cnt m addr data x :
  stosb m addr data cnt x =
    if within x addr (Z.of_nat cnt) then u8 data else m x.
Proof.
  revert m addr. induction cnt as [|cnt IH]; intros m addr; cbn [stosb].
  - case_within; [lia | done].
  - rewrite IH. case_within; try lia;
      [replace x with addr by lia; by mset_simp | by mset_simp].
Qed.

Lemma store32_spec m a w b x :
  u8 w = b -> u8 (Z.shiftr w 8) = b -> u8 (Z.shiftr w 16) = b -> u8 (Z.shiftr w 24) = b ->
  store32 m a w x = if within x a 4 then b else m x.
Proof.
  intros H0 H1 H2 H3. unfold store32. rewrite H0, H1, H2, H3. unfold mset.
  case_within; repeat case_match; lia.
Qed.

Lemma stosl_spec cnt m addr w b x :
  u8 w = b -> u8 (Z.shiftr w 8) = b -> u8 (Z.shiftr w 16) = b -> u8 (Z.shiftr w 24) = b ->
  stosl m addr w cnt x = if within x addr (4 * Z.of_nat cnt) then b else m x.
Proof.
  intros H0 H1 H2 H3. revert m addr.
  induction cnt as [|cnt IH]; intros m addr; cbn [stosl].
  - case_within; [lia | done].
  - rewrite IH, (store32_spec _ _ _ b) by done. case_within; done || lia.
Qed.

(** The word of four copies of a byte. *)
Lemma splat_bytes c b :
  b = Z.land c 0xFF ->
  let w := s32 (Z.lor (Z.lor (Z.lor (Z.shiftl b 24) (Z.shiftl b 16)) (Z.shiftl b 8)) b) in
  u8 w = u8 c /\ u8 (Z.shiftr w 8) = u8 c /\
  u8 (Z.shiftr w 16) = u8 c /\ u8 (Z.shiftr w 24) = u8 c.
Proof.
  intros ->. change 0xFF with (Z.ones 8). rewrite Z.land_ones by lia.
  change (c mod 2 ^ 8) with (u8 c).
  assert (Hall : forallb (fun b =>
      let w := s32 (Z.lor (Z.lor (Z.lor (Z.shiftl b 24) (Z.shiftl b 16)) (Z.shiftl b 8)) b) in
      (u8 w =? b) && (u8 (Z.shiftr w 8) =? b) && (u8 (Z.shiftr w 16) =? b)
      && (u8 (Z.shiftr w 24) =? b)) (seqZ 0 256) = true) by by vm_compute.
  rewrite forallb_forall in Hall. specialize (Hall (u8 c)). cbv zeta in Hall |- *.
  rewrite !andb_true_iff, !Z.eqb_eq in Hall.
  destruct Hall as [[[? ?] ?] ?]; [|done].
  apply list_elem_of_In, elem_of_seqZ. pose proof (u8_range c) as []. lia.
Qed.

Lemma memset_at m dst c n x :
  memset m dst c n x = if within x dst n then u8 c else m x.
Proof.
  unfold memset. destruct (Z.eqb_spec (Z.rem (s32 dst) 4) 0); cbn [andb].
  - destruct (Z.eqb_spec (n mod 4) 0) as [Hn|].
    + destruct (splat_bytes c _ eq_refl) as (H0 & H1 & H2 & H3).
      rewrite (stosl_spec _ _ _ _ (u8 c)) by done.
      case_within; done || zlia.
    + rewrite stosb_spec. case_within; done || lia.
  - rewrite stosb_spec. case_within; done || lia.
Qed.

Lemma copy_down_spec n m d s x :
  s <= d ->
  copy_down m d s n x =
    if within x (d - Z.of_nat n) (Z.of_nat n) then m (s + (x - d)) else m x.
Proof.
  revert m d s. induction n as [|n IH]; intros m d s Hsd; cbn [copy_down].
  - case_within; [lia | done].
  - rewrite IH by lia. case_within; try lia; [| |by mset_simp].
    + mset_simp. f_equal. lia.
    + replace x with (d - 1) by lia. mset_simp. f_equal. lia.
Qed.

Lemma copy_up_spec n m d s x :
  d <= s \/ s + Z.of_nat n <= d ->
  copy_up m d s n x =
    if within x d (Z.of_nat n) then m (s + (x - d)) else m x.
Proof.
  revert m d s. induction n as [|n IH]; intros m d s Hds; cbn [copy_up].
  - case_within; [lia | done].
  - rewrite IH by lia. case_within; try lia; [| |by mset_simp].
    + mset_simp. f_equal. lia.
    + replace x with d by lia. mset_simp. f_equal. lia.
Qed.

Lemma memmove_at m dst src n x :
  memmove m dst src n x = if within x dst n then m (src + (x - dst)) else m x.
Proof.
  unfold memmove. destruct (Z.ltb_spec src dst); cbn [andb].
  - destruct (Z.ltb_spec dst (src + n)).
    + rewrite copy_down_spec by lia. case_within; try lia; f_equal; lia.
    + rewrite copy_up_spec by lia. case_within; done || lia.
  - rewrite copy_up_spec by lia. case_within; done || lia.
Qed.

Lemma fill_zero_spec n m s x :
  fill_zero m s n x = if within x s (Z.of_nat n) then 0 else m x.
Proof.
  revert m s. induction n as [|n IH]; intros m s; cbn [fill_zero].
  - case_within; [lia | done].
  - rewrite IH. case_within; try lia;
      [replace x with s by lia; by mset_simp | by mset_simp].
Qed.

(** Two memories that agree on a field hold the same string there. *)
Lemma cstrn_ext n m1 m2 a1 a2 :
  (forall i, 0 <= i < Z.of_nat n -> m1 (a1 + i) = m2 (a2 + i)) ->
  cstrn n m1 a1 = cstrn n m2 a2.
Proof.
  revert a1 a2. induction n as [|n IH]; intros a1 a2 H; [done|]. cbn.
  pose proof (H 0 ltac:(lia)) as H0. rewrite !Z.add_0_r in H0. rewrite H0.
  case_match; [done|]. f_equal. apply IH. intros i Hi.
  rewrite <-!Z.add_assoc. apply H. lia.
Qed.

Lemma cstrn_length n m a : (length (cstrn n m a) <= n)%nat.
Proof. revert a. induction n as [|n IH]; intros a; cbn; [done|]. case_match; cbn; [lia|]. specialize (IH (a + 1)). lia. Qed.

(** A field that holds the string [l] padded with NULs reads back as [l]. *)
Lemma cstrn_padded n m a l :
  (length l <= n)%nat -> 0 ∉ l ->
  (forall i, 0 <= i < Z.of_nat n -> m (a + i) = nth (Z.to_nat i) l 0) ->
  cstrn n m a = l.
Proof.
  revert a l. induction n as [|n IH]; intros a l Hlen Hnz H.
  - by destruct l; cbn in Hlen; [|lia].
  - cbn. pose proof (H 0 ltac:(lia)) as H0. rewrite Z.add_0_r in H0. rewrite H0.
    change (Z.to_nat 0) with O. destruct l as [|c l]; [done|]. cbn [nth length] in *.
    rewrite not_elem_of_cons in Hnz. destruct Hnz as [Hc Hl].
    destruct (Z.eqb_spec c 0); [congruence|]. f_equal. apply IH; [lia|done|].
    intros i Hi. rewrite <-Z.add_assoc. rewrite H by lia.
    by replace (Z.to_nat (1 + i)) with (S (Z.to_nat i)) by lia.
Qed.

Lemma cstrn_nz n m a : 0 ∉ cstrn n m a.
Proof.
  revert a. induction n as [|n IH]; intros a; cbn; [apply not_elem_of_nil|].
  destruct (Z.eqb_spec (m a) 0); [apply not_elem_of_nil|].
  rewrite not_elem_of_cons. by split.
Qed.

(** The whole effect of [strncpy] when the fields do not overlap: the first
    [n] bytes of the destination are the source string, padded with NULs. *)
Lemma strncpy_at n m s t x :
  t + Z.of_nat n <= s \/ s + Z.of_nat n <= t ->
  (let '(m', s', n') := strncpy_copy m s t n in fill_zero m' s' n') x =
    if within x s (Z.of_nat n) then nth (Z.to_nat (x - s)) (cstrn n m t) 0 else m x.
Proof.
  revert m s t. induction n as [|n IH]; intros m s t Hdisj; cbn [strncpy_copy cstrn].
  - cbn. case_within; [lia | done].
  - destruct (Z.eqb_spec (m t) 0) as [Hz|Hz].
    + rewrite fill_zero_spec. case_within; try lia.
      * by destruct (Z.to_nat (x - s)).
      * replace x with s by lia. rewrite Z.sub_diag. by mset_simp.
      * by mset_simp.
    + rewrite IH by lia. case_within; try lia.
      * replace (Z.to_nat (x - s)) with (S (Z.to_nat (x - (s + 1)))) by lia. cbn [nth].
        f_equal. apply cstrn_ext. intros i Hi. mset_simp. done.
      * replace x with s by lia. rewrite Z.sub_diag. by mset_simp.
      * by mset_simp.
Qed.

Lemma strncmp_loop_eq n m p q :
  mem_ok m -> strncmp_loop m p q n = 0 <-> cstrn n m p = cstrn n m q.
Proof.
  intros Hm. revert p q. induction n as [|n IH]; intros p q; cbn; [done|].
  rewrite !u8_small by apply Hm.
  destruct (Z.eqb_spec (m p) 0), (Z.eqb_spec (m q) 0), (Z.eqb_spec (m p) (m q));
    cbn; try lia; try (split; intros; try lia; congruence).
  rewrite IH. split; intros; congruence.
Qed.

Lemma safestrcpy_at k m s t :
  t + Z.of_nat k <= s \/ s + Z.of_nat k < t ->
  forall m' s', safestrcpy_copy m s t k = (m', s') ->
  (forall x, ~ (s <= x <= s + Z.of_nat k) -> mset m' s' 0 x = m x) /\
  cstr (mset m' s' 0) s (cstrn k m t).
Proof.
  revert m s t. induction k as [|k IH]; intros m s t Hdisj m' s' Hrun; cbn in Hrun |- *.
  - simplify_eq. split; [intros x Hx|]; by mset_simp.
  - destruct (Z.eqb_spec (m t) 0) as [Hz|Hz].
    + simplify_eq. split; [intros x Hx | cbn]; by mset_simp.
    + apply IH in Hrun as [Hout Hstr]; [|lia]. split.
      * intros x Hx. rewrite Hout by lia. by mset_simp.
      * cbn. split_and!; [rewrite Hout by lia; by mset_simp | done |].
        erewrite cstrn_ext; [exact Hstr|]. intros i Hi. by mset_simp.
Qed.

Lemma strlen_loop_spec l m s n fuel :
  cstr m (s + n) l -> (length l < fuel)%nat ->
  strlen_loop fuel m s n = Some (n + Z.of_nat (length l)).
Proof.
  revert n fuel. induction l as [|c l IH]; intros n [|fuel] Hs Hf; cbn in *; try lia.
  - destruct (Z.eqb_spec (m (s + n)) 0); [f_equal; lia | done].
  - destruct Hs as (Hc & Hnz & Hs). destruct (Z.eqb_spec (m (s + n)) 0); [lia|].
    rewrite <-Z.add_assoc in Hs. rewrite IH; [f_equal; lia | done | lia].
Qed.

Lemma cstr_unique m a l1 l2 : cstr m a l1 -> cstr m a l2 -> l1 = l2.
Proof.
  revert a l2. induction l1 as [|c l1 IH]; intros a [|c2 l2]; cbn; [done|lia|lia|].
  intros (<- & _ & H1) (<- & _ & H2). f_equal. eauto.
Qed.

Lemma strncpy_reads n m s t :
  t + Z.of_nat n <= s \/ s + Z.of_nat n <= t ->
  cstrn n (strncpy m s t (Z.of_nat n)) s = cstrn n m t.
Proof.
  intros Hd. apply cstrn_padded; [apply cstrn_length | apply cstrn_nz |].
  intros i Hi. unfold strncpy. rewrite Nat2Z.id, strncpy_at by done.
  case_within; [|lia]. do 2 f_equal. lia.
Qed.

Lemma strncpy_out n m s t x :
  t + Z.of_nat n <= s \/ s + Z.of_nat n <= t -> ~ (s <= x < s + Z.of_nat n) ->
  strncpy m s t (Z.of_nat n) x = m x.
Proof.
  intros Hd Hx. unfold strncpy. rewrite Nat2Z.id, strncpy_at by done.
  by case_within.
Qed.

Lemma cstrn_bytes n m a c : mem_ok m -> List.In c (cstrn n m a) -> is_byte c.
Proof.
  intros Hm. revert a. induction n as [|n IH]; intros a Hin; [done|].
  cbn in Hin. case_match; [done|].
  cbn [List.In] in Hin. destruct Hin as [<-|Hin]; [apply Hm | eauto].
Qed.

Lemma strncpy_mem_ok n m s t :
  mem_ok m -> t + Z.of_nat n <= s \/ s + Z.of_nat n <= t ->
  mem_ok (strncpy m s t (Z.of_nat n)).
Proof.
  intros Hm Hd x. unfold strncpy. rewrite Nat2Z.id, strncpy_at by done.
  case_within; [|apply Hm].
  destruct (nth_in_or_default (Z.to_nat (x - s)) (cstrn n m t) 0) as [Hin| ->]; [|done].
  by eapply cstrn_bytes.
Qed.

(** ** Theorems *)

(** The kernel's [memmove] copies [n] bytes from [src] to [dst] however
    the two regions overlap: every destination byte holds the byte the source
    had before the call, and no other byte of memory changes.  The user
    library's [memmove], which only copies upwards, has the same effect when
    the destination is not above an overlapping source. *)
Lemma memmove_correct m dst src n :
  (forall x, memmove m dst src n x =
     if within x dst n then m (src + (x - dst)) else m x) /\
  (dst <= src \/ src + n <= dst ->
     forall x, Ulib.umemmove m dst src n x = memmove m dst src n x).
Proof.
  split; [intros x; apply memmove_at|]. intros Hd x. rewrite memmove_at.
  unfold Ulib.umemmove. destruct (Z.leb_spec 0 n).
  - rewrite copy_up_spec by lia. case_within; done || lia.
  - replace (Z.to_nat n) with O by lia. cbn. case_within; done || lia.
Qed.

(** [memset] stores the low byte of [c] in exactly the [n] bytes at
    [dst], whether it takes the word-at-a-time path ([stosl], aligned
    destination and length) or the byte path ([stosb]); the user library's
    [memset], which always takes the byte path, is the same function. *)
Lemma memset_correct m dst c n x :
  memset m dst c n x = (if within x dst n then u8 c else m x) /\
  Ulib.umemset m dst c n x = memset m dst c n x.
Proof.
  rewrite memset_at. split; [done|]. unfold Ulib.umemset. rewrite stosb_spec.
  case_within; done || lia.
Qed.

(** A name stored in a fixed field of [n] bytes with [strncpy] (NUL
    padded, not terminated when it fills the field) is found again by
    [strncmp] over the same field, compares different from every name whose
    first [n] characters differ, and nothing outside the field changes. *)
Lemma strncpy_strncmp_roundtrip n m s t u :
  mem_ok m ->
  t + Z.of_nat n <= s \/ s + Z.of_nat n <= t ->
  u + Z.of_nat n <= s \/ s + Z.of_nat n <= u ->
  let m' := strncpy m s t (Z.of_nat n) in
  (strncmp m' u s (Z.of_nat n) = 0 <-> cstrn n m u = cstrn n m t) /\
  (forall x, ~ (s <= x < s + Z.of_nat n) -> m' x = m x).
Proof.
  intros Hm Ht Hu m'. split; [|intros x Hx; by apply strncpy_out].
  unfold strncmp, m'. rewrite Nat2Z.id.
  rewrite strncmp_loop_eq by by apply strncpy_mem_ok.
  rewrite strncpy_reads by done. erewrite (cstrn_ext n _ m u u); [done|].
  intros i Hi. apply strncpy_out; [done | lia].
Qed.

(** A memory holding "ab" at 0, "ac" at 32 and NULs elsewhere. *)
Definition demo_mem : mem := fun a =>
  if a =? 0 then 97 else if a =? 1 then 98 else
  if a =? 32 then 97 else if a =? 33 then 99 else 0.

Lemma demo_mem_ok : mem_ok demo_mem.
Proof. intros a. unfold demo_mem, is_byte. repeat case_match; lia. Defined.

(** [safestrcpy] always leaves a NUL-terminated string in the
    destination, the longest prefix of the source that fits in [n - 1]
    characters, and writes nothing outside the [n] bytes of the field; with
    [n <= 0] it writes nothing at all. *)
Lemma safestrcpy_terminates_string m s t n :
  t + n <= s \/ s + n <= t ->
  (n <= 0 -> safestrcpy m s t n = m) /\
  (0 < n ->
   cstr (safestrcpy m s t n) s (cstrn (Z.to_nat (n - 1)) m t) /\
   forall x, ~ (s <= x < s + n) -> safestrcpy m s t n x = m x).
Proof.
  intros Hd. unfold safestrcpy. split; intros Hn.
  - by destruct (Z.leb_spec n 0); [|lia].
  - destruct (Z.leb_spec n 0); [lia|].
    destruct (safestrcpy_copy m s t (Z.to_nat (n - 1))) as [m' s'] eqn:Hrun.
    apply safestrcpy_at in Hrun as [Hout Hs]; [|lia].
    split; [done|]. intros x Hx. apply Hout. lia.
Qed.

