(* ===== verification/Block.v ===== *)
(** Disk blocks and the little-endian data structures laid out in them.

    A block is the list of its bytes.  [get32]/[put32] and [get16]/[put16]
    are the accesses the C code makes through a pointer into [b->data] (on
    x86, little endian); the lemmas are the laws of such accesses: what was
    stored is read back, disjoint stores do not interfere. *)

From S2P Require Import Prelude.

(** [BSIZE] of xv6's fs.h. *)
Definition BSIZE : Z := 512.

Abbreviation block := (list Z).

Definition zeroes : block := replicate 512 0.

Definition get8 (b : block) (off : Z) : Z := nth (Z.to_nat off) b 0.

(** [memmove(b->data + off, l, length l)] inside the block. *)
Definition splice (b : block) (off : Z) (l : list Z) : block :=
  take (Z.to_nat off) b ++ l ++ drop (Z.to_nat off + length l) b.

Definition le16 (v : Z) : list Z := [u8 v; u8 (Z.shiftr v 8)].
Definition le32 (v : Z) : list Z :=
  [u8 v; u8 (Z.shiftr v 8); u8 (Z.shiftr v 16); u8 (Z.shiftr v 24)].

Definition get16 (b : block) (off : Z) : Z :=
  get8 b off + 2 ^ 8 * get8 b (off + 1).
Definition get32 (b : block) (off : Z) : Z :=
  get8 b off + 2 ^ 8 * get8 b (off + 1) + 2 ^ 16 * get8 b (off + 2)
  + 2 ^ 24 * get8 b (off + 3).

Definition put8 (b : block) (off v : Z) : block := splice b off [u8 v].
Definition put16 (b : block) (off v : Z) : block := splice b off (le16 v).
Definition put32 (b : block) (off v : Z) : block := splice b off (le32 v).

(** ** Laws *)

Lemma splice_length b off l :
  0 <= off -> off + Z.of_nat (length l) <= Z.of_nat (length b) ->
  length (splice b off l) = length b.
Proof.
  intros Ho Hl. unfold splice.
  rewrite !length_app, length_take, length_drop. lia.
Qed.

Lemma nth_lookup_default (l : block) i : nth i l 0 = default 0 (l !! i).
Proof. apply nth_lookup. Qed.

Lemma get8_splice b off l x :
  0 <= off -> off + Z.of_nat (length l) <= Z.of_nat (length b) -> 0 <= x ->
  get8 (splice b off l) x =
    if (off <=? x) && (x <? off + Z.of_nat (length l))
    then nth (Z.to_nat (x - off)) l 0 else get8 b x.
Proof.
  intros Ho Hl Hx. unfold get8, splice. rewrite !nth_lookup_default.
  destruct (Z.leb_spec off x); cbn [andb].
  - rewrite lookup_app_r by (rewrite length_take; lia). rewrite length_take.
    destruct (Z.ltb_spec x (off + Z.of_nat (length l))).
    + rewrite lookup_app_l by lia. do 2 f_equal. lia.
    + rewrite lookup_app_r by lia. rewrite lookup_drop. do 2 f_equal. lia.
  - rewrite lookup_app_l by (rewrite length_take; lia).
    by rewrite lookup_take_lt by lia.
Qed.

Lemma put32_length b off v :
  0 <= off -> off + 4 <= Z.of_nat (length b) -> length (put32 b off v) = length b.
Proof. intros. by apply splice_length. Qed.

Lemma put16_length b off v :
  0 <= off -> off + 2 <= Z.of_nat (length b) -> length (put16 b off v) = length b.
Proof. intros. by apply splice_length. Qed.

Lemma put8_length b off v :
  0 <= off -> off + 1 <= Z.of_nat (length b) -> length (put8 b off v) = length b.
Proof. intros. by apply splice_length. Qed.

Lemma le32_value v :
  u8 v + 2 ^ 8 * u8 (Z.shiftr v 8) + 2 ^ 16 * u8 (Z.shiftr v 16)
  + 2 ^ 24 * u8 (Z.shiftr v 24) = u32 v.
Proof. unfold u8, u32. rewrite !Z.shiftr_div_pow2 by lia. zlia. Qed.

Lemma le16_value v : u8 v + 2 ^ 8 * u8 (Z.shiftr v 8) = u16 v.
Proof. unfold u8, u16. rewrite !Z.shiftr_div_pow2 by lia. zlia. Qed.

Lemma get8_splice_in b off l x :
  0 <= off -> off + Z.of_nat (length l) <= Z.of_nat (length b) ->
  off <= x < off + Z.of_nat (length l) ->
  get8 (splice b off l) x = nth (Z.to_nat (x - off)) l 0.
Proof.
  intros Ho Hl Hx. rewrite get8_splice by lia.
  destruct (Z.leb_spec off x); [|lia].
  by destruct (Z.ltb_spec x (off + Z.of_nat (length l))); [|lia].
Qed.

Lemma get8_splice_out b off l x :
  0 <= off -> off + Z.of_nat (length l) <= Z.of_nat (length b) -> 0 <= x ->
  x < off \/ off + Z.of_nat (length l) <= x ->
  get8 (splice b off l) x = get8 b x.
Proof.
  intros Ho Hl Hx0 Hx. rewrite get8_splice by lia.
  destruct (Z.leb_spec off x); [|done]. cbn [andb].
  by destruct (Z.ltb_spec x (off + Z.of_nat (length l))); [lia|].
Qed.

Lemma get32_put32 b off v :
  0 <= off -> off + 4 <= Z.of_nat (length b) -> get32 (put32 b off v) off = u32 v.
Proof.
  intros Ho Hl. unfold get32, put32.
  rewrite !get8_splice_in by (cbn; lia). rewrite <-le32_value.
  replace (off - off) with 0 by lia. replace (off + 1 - off) with 1 by lia.
  replace (off + 2 - off) with 2 by lia. replace (off + 3 - off) with 3 by lia.
  done.
Qed.

Lemma get32_put32_other b off off' v :
  0 <= off -> off + 4 <= Z.of_nat (length b) -> 0 <= off' ->
  off' + 4 <= off \/ off + 4 <= off' ->
  get32 (put32 b off v) off' = get32 b off'.
Proof.
  intros Ho Hl Ho' Hd. unfold get32, put32.
  by rewrite !get8_splice_out by (cbn; lia).
Qed.

Lemma get16_put16 b off v :
  0 <= off -> off + 2 <= Z.of_nat (length b) -> get16 (put16 b off v) off = u16 v.
Proof.
  intros Ho Hl. unfold get16, put16.
  rewrite !get8_splice_in by (cbn; lia). rewrite <-le16_value.
  replace (off - off) with 0 by lia. by replace (off + 1 - off) with 1 by lia.
Qed.

Lemma u32_s32 v : s32 (u32 v) = s32 v.
Proof. unfold s32, u32. by rewrite Zplus_mod_idemp_l. Qed.
