(* ===== verification/Bio.v ===== *)
(** The buffer cache, [xv6/base/bio.c], over the memory disk of
    [xv6/base/memide.c], with the sleep locks of [xv6/base/sleeplock.c].

    The doubly linked LRU list through [prev]/[next] is the list [lru] of
    buffer indices from [head.next] (most recently used) to [head.prev].
    [disk] maps a block number to its contents (a block never written holds
    zeroes), and [writes] is the trace of the disk writes performed, oldest
    first; a crash loses the cache and keeps a prefix of the trace.

    The routines run as one process, [pid]: an [acquiresleep] of a lock that
    is taken is the outcome [Sleeps].  The theorems show how the cache, the
    disk and the dirty bits represent one logical array of blocks ([rep]) and
    that each operation of the interface acts on that array as documented in
    bio.c. *)

From S2P Require Import Prelude Block.

(** ** Data *)

Definition NBUF : nat := 30.
Definition B_VALID : Z := 0x2.
Definition B_DIRTY : Z := 0x4.

Record sleeplock := mkSleeplock { sl_locked : bool; sl_pid : Z }.

Record buf := mkBuf {
  flags : Z;
  b_dev : Z;
  blockno : Z;
  b_lock : sleeplock;
  refcnt : Z;
  data : block
}.

Record bio := mkBio {
  bufs : list buf;
  lru : list nat;
  disk : gmap Z block;
  disksize : Z;
  writes : list (Z * block)
}.

Definition dread (d : gmap Z block) (n : Z) : block := default zeroes (d !! n).

(** Updates of one field. *)
Definition set_flags (f : Z) (b : buf) : buf :=
  mkBuf f (b_dev b) (blockno b) (b_lock b) (refcnt b) (data b).
Definition set_lock (l : sleeplock) (b : buf) : buf :=
  mkBuf (flags b) (b_dev b) (blockno b) l (refcnt b) (data b).
Definition set_refcnt (r : Z) (b : buf) : buf :=
  mkBuf (flags b) (b_dev b) (blockno b) (b_lock b) r (data b).
Definition set_data (x : block) (b : buf) : buf :=
  mkBuf (flags b) (b_dev b) (blockno b) (b_lock b) (refcnt b) x.
Definition set_bufs (l : list buf) (s : bio) : bio :=
  mkBio l (lru s) (disk s) (disksize s) (writes s).

Definition upd (i : nat) (f : buf -> buf) (s : bio) : bio :=
  set_bufs (alter f i (bufs s)) s.

Definition buf0 : buf := mkBuf 0 0 0 (mkSleeplock false 0) 0 zeroes.
Definition nth_buf (s : bio) (i : nat) : buf := default buf0 (bufs s !! i).

(** ** Sleep locks *)

Definition initsleeplock : sleeplock := mkSleeplock false 0.

Definition acquiresleep (pid : Z) (lk : sleeplock) : result sleeplock :=
  if sl_locked lk then Sleeps "sleeplock" else Ok (mkSleeplock true pid).

Definition releasesleep (lk : sleeplock) : sleeplock := mkSleeplock false 0.

Definition holdingsleep (pid : Z) (lk : sleeplock) : bool :=
  sl_locked lk && (sl_pid lk =? pid).

(** ** Operations *)

(** [binit] links every buffer at the head in turn; a buffer is zeroed
    static storage. *)
Definition binit (d : gmap Z block) (size : Z) : bio :=
  let link (order : list nat) (i : nat) := i :: order in
  mkBio (replicate NBUF (set_lock initsleeplock buf0))
    (foldl link [] (seq 0 NBUF)) d size [].

(** A walk along the list of buffers, in the given order. *)
Fixpoint scan (p : buf -> bool) (s : bio) (order : list nat) : option nat :=
  match order with
  | [] => None
  | i :: order' => if p (nth_buf s i) then Some i else scan p s order'
  end.

Section Ops.
Context (pid : Z).

Definition lock_buf (i : nat) (s : bio) : result (nat * bio) :=
  lk ← acquiresleep pid (b_lock (nth_buf s i)); Ok (i, upd i (set_lock lk) s).

Definition bget (dev bno : Z) (s : bio) : result (nat * bio) :=
  (* Is the block already cached? *)
  match scan (fun b => (b_dev b =? dev) && (blockno b =? bno)) s (lru s) with
  | Some i =>
      lock_buf i (upd i (fun b => set_refcnt (u32 (refcnt b + 1)) b) s)
  | None =>
      (* Not cached; recycle an unused buffer. *)
      match scan (fun b => (refcnt b =? 0) && (Z.land (flags b) B_DIRTY =? 0))
              s (rev (lru s)) with
      | Some i =>
          lock_buf i (upd i (fun b => mkBuf 0 dev bno (b_lock b) 1 (data b)) s)
      | None => Panic "bget: no buffers"
      end
  end.

Definition iderw (i : nat) (s : bio) : result bio :=
  let b := nth_buf s i in
  if negb (holdingsleep pid (b_lock b)) then Panic "iderw: buf not locked"
  else if Z.land (flags b) (Z.lor B_VALID B_DIRTY) =? B_VALID then Panic "iderw: nothing to do"
  else if negb (b_dev b =? 1) then Panic "iderw: request not for disk 1"
  else if disksize s <=? blockno b then Panic "iderw: block out of range"
  else if negb (Z.land (flags b) B_DIRTY =? 0) then
    let f := Z.land (flags b) (Z.lnot B_DIRTY) in
    let s1 := upd i (set_flags f) s in
    let s2 := mkBio (bufs s1) (lru s1) (<[blockno b := data b]> (disk s1))
                (disksize s1) (writes s1 ++ [(blockno b, data b)]) in
    Ok (upd i (set_flags (Z.lor f B_VALID)) s2)
  else
    let s1 := upd i (set_data (dread (disk s) (blockno b))) s in
    Ok (upd i (set_flags (Z.lor (flags b) B_VALID)) s1).

Definition bread (dev bno : Z) (s : bio) : result (nat * bio) :=
  '(i, s1) ← bget dev bno s;
  if Z.land (flags (nth_buf s1 i)) B_VALID =? 0
  then (s2 ← iderw i s1; Ok (i, s2))
  else Ok (i, s1).

Definition bwrite (i : nat) (s : bio) : result bio :=
  let b := nth_buf s i in
  if negb (holdingsleep pid (b_lock b)) then Panic "bwrite"
  else iderw i (upd i (set_flags (Z.lor (flags b) B_DIRTY)) s).

(** Unlink buffer [i] and link it again at the head. *)
Definition move_front (i : nat) (order : list nat) : list nat :=
  i :: filter (fun j => j <> i) order.

Definition brelse (i : nat) (s : bio) : result bio :=
  let b := nth_buf s i in
  if negb (holdingsleep pid (b_lock b)) then Panic "brelse"
  else
    let s1 := upd i (set_lock (releasesleep (b_lock b))) s in
    let r := u32 (refcnt b - 1) in
    let s2 := upd i (set_refcnt r) s1 in
    Ok (if r =? 0
        then mkBio (bufs s2) (move_front i (lru s2)) (disk s2) (disksize s2) (writes s2)
        else s2).

End Ops.

(** Accesses of a client to a buffer it holds: [b->data], an assignment to
    it, and [b->flags |= B_DIRTY]. *)
Definition bdata (s : bio) (i : nat) : block := data (nth_buf s i).
Definition bset (i : nat) (x : block) (s : bio) : bio := upd i (set_data x) s.
Definition bpin (i : nat) (s : bio) : bio :=
  upd i (fun b => set_flags (Z.lor (flags b) B_DIRTY) b) s.

(** ** The representation

    [rep pid s d v D T H]: the cache [s] over disk [d] represents the logical
    blocks [v]; [D] are the blocks whose buffer is dirty (pinned), [T] those
    modified by a holder and not yet written or pinned, and [H] the buffers
    held by process [pid] with their block. *)

Definition buf_ok (pid : Z) (d : gmap Z block) (v : Z -> block) (D T : gset Z)
    (h : option Z) (b : buf) : Prop :=
  match h with
  | Some n => b_dev b = 1 /\ blockno b = n /\ b_lock b = mkSleeplock true pid /\
              refcnt b = 1 /\ flags b <> 0
  | None => sl_locked (b_lock b) = false /\ refcnt b = 0
  end /\
  (flags b = 0 \/ flags b = 2 \/ flags b = 6) /\
  (flags b = 6 -> blockno b ∈ D) /\
  (flags b <> 0 -> b_dev b = 1 /\ data b = v (blockno b) /\
     (blockno b ∈ D ∪ T \/ data b = dread d (blockno b))).

Record rep (pid : Z) (s : bio) (d : gmap Z block) (v : Z -> block)
    (D T : gset Z) (H : gmap nat Z) : Prop := {
  rep_len : length (bufs s) = NBUF;
  rep_lru : lru s ≡ₚ seq 0 NBUF;
  rep_disk : disk s = d;
  rep_uniq : forall i j bi bj, bufs s !! i = Some bi -> bufs s !! j = Some bj ->
    b_dev bi = 1 -> b_dev bj = 1 -> blockno bi = blockno bj -> i = j;
  rep_buf : forall i b, bufs s !! i = Some b -> buf_ok pid d v D T (H !! i) b;
  rep_dirty : forall n, n ∈ D -> exists i b, bufs s !! i = Some b /\
    b_dev b = 1 /\ blockno b = n /\ flags b = 6;
  rep_tainted : forall n, n ∈ T -> exists i, H !! i = Some n;
  rep_view : forall n, (forall i b, bufs s !! i = Some b -> b_dev b = 1 ->
    blockno b = n -> flags b = 0) -> v n = dread d n;
  rep_held : forall i n, H !! i = Some n -> (i < NBUF)%nat;
  rep_wf : forall n, length (v n) = 512%nat /\ length (dread d n) = 512%nat
}.

(** ** Lemmas *)

Lemma nth_buf_lookup s i b : bufs s !! i = Some b -> nth_buf s i = b.
Proof. unfold nth_buf. by intros ->. Qed.

Lemma upd_eq s i b f : bufs s !! i = Some b -> upd i f s = set_bufs (<[i := f b]> (bufs s)) s.
Proof.
  intros Hb. unfold upd. f_equal. apply list_eq. intros j.
  destruct (decide (i = j)) as [<-|].
  - rewrite list_lookup_alter_eq, Hb, list_lookup_insert_eq; [done|].
    by eapply lookup_lt_Some.
  - by rewrite list_lookup_alter_ne, list_lookup_insert_ne.
Qed.

Lemma set_bufs_twice l1 l2 s : set_bufs l1 (set_bufs l2 s) = set_bufs l1 s.
Proof. done. Qed.

(** The effect of a chain of updates of one buffer. *)
Lemma upd_set s i b f :
  (i < length (bufs s))%nat ->
  upd i f (set_bufs (<[i := b]> (bufs s)) s) = set_bufs (<[i := f b]> (bufs s)) s.
Proof.
  intros Hi. erewrite upd_eq; [|cbn; by apply list_lookup_insert_eq].
  rewrite set_bufs_twice. cbn. by rewrite list_insert_insert_eq.
Qed.

Lemma nth_buf_set s i b :
  (i < length (bufs s))%nat -> nth_buf (set_bufs (<[i := b]> (bufs s)) s) i = b.
Proof. intros Hi. apply nth_buf_lookup. by apply list_lookup_insert_eq. Qed.

Lemma scan_Some p s order i :
  scan p s order = Some i -> i ∈ order /\ p (nth_buf s i) = true.
Proof.
  induction order as [|j order IH]; cbn; [done|].
  destruct (p (nth_buf s j)) eqn:Hp.
  - intros [= <-]. split; [apply list_elem_of_here | done].
  - intros Hs. apply IH in Hs as []. split; [by apply list_elem_of_further | done].
Qed.

Lemma scan_None p s order i :
  scan p s order = None -> i ∈ order -> p (nth_buf s i) = false.
Proof.
  induction order as [|j order IH]; cbn.
  - intros _ Hi. by apply not_elem_of_nil in Hi.
  - destruct (p (nth_buf s j)) eqn:Hp; [done|]. intros Hs Hi.
    apply elem_of_cons in Hi as [-> | Hi]; auto.
Qed.

Section Rep.
Context {pid : Z} {s : bio} {d : gmap Z block} {v : Z -> block} {D T : gset Z} {H : gmap nat Z}.
Hypothesis R : rep pid s d v D T H.

Lemma rep_lookup i : (i < NBUF)%nat -> exists b, bufs s !! i = Some b.
Proof. intros Hi. apply lookup_lt_is_Some_2. by rewrite (rep_len _ _ _ _ _ _ _ R). Qed.

Lemma rep_lt i b : bufs s !! i = Some b -> (i < NBUF)%nat.
Proof. intros Hb. apply lookup_lt_Some in Hb. by rewrite (rep_len _ _ _ _ _ _ _ R) in Hb. Qed.

Lemma rep_in_lru i : i ∈ lru s <-> (i < NBUF)%nat.
Proof. rewrite (rep_lru _ _ _ _ _ _ _ R), elem_of_seq. lia. Qed.

Lemma rep_held_buf i n : H !! i = Some n ->
  exists b, bufs s !! i = Some b /\ b_dev b = 1 /\ blockno b = n /\
    b_lock b = mkSleeplock true pid /\ refcnt b = 1 /\ (flags b = 2 \/ flags b = 6) /\
    data b = v n.
Proof.
  intros Hh. destruct (rep_lookup i) as [b Hb]; [by eapply rep_held|].
  pose proof (rep_buf _ _ _ _ _ _ _ R i b Hb) as Hok. unfold buf_ok in Hok. rewrite Hh in Hok.
  destruct Hok as ((Hd & Hn & Hl & Hr & Hf) & Hfl & _ & Hv).
  destruct (Hv Hf) as (_ & Hdat & _). subst n. exists b. split_and!; auto. tauto.
Qed.

(** The buffer of a dirty block is the dirty one. *)
Lemma rep_D_flags i b :
  bufs s !! i = Some b -> b_dev b = 1 -> blockno b ∈ D -> flags b = 6.
Proof.
  intros Hb Hd HD. destruct (rep_dirty _ _ _ _ _ _ _ R _ HD) as (j & bj & Hj & Hdj & Hnj & Hfj).
  assert (i = j) as -> by (eapply (rep_uniq _ _ _ _ _ _ _ R); eauto). congruence.
Qed.

Lemma rep_uncached_eq i b :
  bufs s !! i = Some b -> H !! i = None -> b_dev b = 1 -> flags b <> 6 ->
  v (blockno b) = dread d (blockno b).
Proof.
  intros Hb Hh Hd Hf.
  destruct (rep_buf _ _ _ _ _ _ _ R i b Hb) as (_ & Hfl & _ & Hv).
  destruct Hfl as [H0|[H2|]]; [| |done].
  - apply (rep_view _ _ _ _ _ _ _ R). intros j bj Hj Hdj Hnj.
    assert (i = j) as -> by (eapply (rep_uniq _ _ _ _ _ _ _ R); eauto). congruence.
  - destruct Hv as (_ & Hdat & [HDT|Hdk]); [lia| |congruence].
    apply elem_of_union in HDT as [HD|HT].
    + exfalso. apply Hf. by eapply rep_D_flags.
    + destruct (rep_tainted _ _ _ _ _ _ _ R _ HT) as [j Hj].
      destruct (rep_held_buf j _ Hj) as (bj & Hbj & Hdj & Hnj & _).
      assert (i = j) as -> by (eapply (rep_uniq _ _ _ _ _ _ _ R); eauto). congruence.
Qed.

(** Replacing an idle buffer by a held, valid buffer of block [n]. *)
Lemma rep_install i b n f :
  bufs s !! i = Some b -> H !! i = None ->
  (forall j bj, j <> i -> bufs s !! j = Some bj -> b_dev bj = 1 -> blockno bj <> n) ->
  (f = 2 /\ flags b <> 6 /\ v n = dread d n \/ f = 6 /\ n ∈ D /\ b_dev b = 1 /\ blockno b = n) ->
  rep pid (set_bufs (<[i := mkBuf f 1 n (mkSleeplock true pid) 1 (v n)]> (bufs s)) s)
    d v D T (<[i := n]> H).
Proof.
  intros Hb Hh Hothers Hf.
  assert (Hi : (i < NBUF)%nat) by by eapply rep_lt.
  set (b' := mkBuf f 1 n (mkSleeplock true pid) 1 (v n)).
  assert (Hlk : forall j bj, <[i := b']> (bufs s) !! j = Some bj ->
     j = i /\ bj = b' \/ j <> i /\ bufs s !! j = Some bj).
  { intros j bj [(<- & <- & _)|[]]%list_lookup_insert_Some; auto. }
  assert (Hlk' : forall j bj, j <> i -> bufs s !! j = Some bj ->
     <[i := b']> (bufs s) !! j = Some bj).
  { intros j bj Hne Hj. by rewrite list_lookup_insert_ne. }
  destruct R as [Rlen Rlru Rdisk Runiq Rbuf Rdirty Rtaint Rview Rheld Rwf].
  constructor; cbn [bufs lru disk set_bufs]; try done.
  - by rewrite length_insert.
  - intros j k bj bk Hj Hk Hdj Hdk Hn.
    apply Hlk in Hj as [[-> ->]|[Hnj Hj]]; apply Hlk in Hk as [[-> ->]|[Hnk Hk]]; [done| | |eauto].
    + cbn in Hn. by edestruct (Hothers k bk).
    + cbn in Hn. by edestruct (Hothers j bj).
  - intros j bj Hj. apply Hlk in Hj as [[-> ->]|[Hnj Hj]].
    + rewrite lookup_insert_eq. unfold buf_ok, b'; cbn.
      destruct Hf as [(-> & _ & Hvn)|(-> & HD & _)]; split_and!; auto; try done.
      intros _. split_and!; [done..|]. left. apply elem_of_union. by left.
    + rewrite lookup_insert_ne by done. auto.
  - intros m Hm. destruct (decide (m = n)) as [->|Hne].
    + destruct Hf as [(-> & Hf6 & Hvn)|(-> & _)].
      * destruct (Rdirty n Hm) as (k & bk & Hk & Hdk & Hnk & Hfk).
        destruct (decide (k = i)) as [->|]; [congruence|]. by edestruct (Hothers k bk).
      * exists i, b'. split_and!; [|done..]. apply list_lookup_insert_eq. by rewrite Rlen.
    + destruct (Rdirty m Hm) as (k & bk & Hk & Hdk & Hnk & Hfk).
      exists k, bk. split_and!; [|done..]. apply Hlk'; [|done].
      intros ->. destruct Hf as [(_ & ? & _)|(_ & _ & _ & ?)]; congruence.
  - intros m Hm. destruct (Rtaint m Hm) as [k Hk]. exists k.
    rewrite lookup_insert_ne; [done|]. congruence.
  - intros m Hm. destruct (decide (m = n)) as [->|Hne].
    { specialize (Hm i b'). cbn in Hm. rewrite list_lookup_insert_eq in Hm by by rewrite Rlen.
      exfalso. destruct Hf as [(-> & _)|(-> & _)]; specialize (Hm eq_refl eq_refl eq_refl); lia. }
    destruct (decide (b_dev b = 1 /\ blockno b = m)) as [[Hdb <-]|Hnb].
    + apply (rep_uncached_eq i); try done. destruct Hf as [(_ & ? & _)|(_ & _ & _ & ?)]; congruence.
    + apply Rview. intros j bj Hj Hdj Hnj. destruct (decide (j = i)) as [->|].
      * exfalso. apply Hnb. by simplify_eq.
      * by apply (Hm j bj); auto.
  - intros j m Hj. apply lookup_insert_Some in Hj as [[<- _]|[_ Hj]]; eauto.
Qed.

(** Changing a held buffer, its block on disk, and its status. *)
Lemma rep_replace i b' n d' v' D' T' H' l' w sz :
  H !! i = Some n -> b_dev b' = 1 -> blockno b' = n -> flags b' <> 0 ->
  buf_ok pid d' v' D' T' (H' !! i) b' ->
  (forall j, j <> i -> H' !! j = H !! j) ->
  (forall m, m <> n -> v' m = v m /\ dread d' m = dread d m /\
     (m ∈ D' <-> m ∈ D) /\ (m ∈ T' <-> m ∈ T)) ->
  (n ∈ D' -> flags b' = 6) -> (n ∈ T' -> H' !! i = Some n) ->
  length (v' n) = 512%nat -> length (dread d' n) = 512%nat -> l' ≡ₚ lru s ->
  rep pid (mkBio (<[i := b']> (bufs s)) l' d' sz w) d' v' D' T' H'.
Proof.
  intros Hh Hd' Hn' Hf' Hok HH Hm HD HT Hlv Hld Hl.
  destruct (rep_held_buf i n Hh) as (b & Hb & Hdb & Hnb & _).
  assert (Hi : (i < NBUF)%nat) by by eapply rep_lt.
  destruct R as [Rlen Rlru Rdisk Runiq Rbuf Rdirty Rtaint Rview Rheld Rwf].
  assert (Hlk : forall j bj, <[i := b']> (bufs s) !! j = Some bj ->
     j = i /\ bj = b' \/ j <> i /\ bufs s !! j = Some bj).
  { intros j bj [(<- & <- & _)|[]]%list_lookup_insert_Some; auto. }
  assert (Hne : forall j bj, j <> i -> bufs s !! j = Some bj -> b_dev bj = 1 -> blockno bj <> n).
  { intros j bj Hji Hj Hdj Heq. apply Hji. eapply Runiq; eauto. congruence. }
  constructor; cbn [bufs lru disk set_bufs]; try done.
  - by rewrite length_insert.
  - by rewrite Hl.
  - intros j k bj bk Hj Hk Hdj Hdk Hnn.
    apply Hlk in Hj as [[-> ->]|[Hnj Hj]]; apply Hlk in Hk as [[-> ->]|[Hnk Hk]]; [done| | |eauto].
    + by edestruct (Hne k bk); [..|congruence].
    + by edestruct (Hne j bj); [..|congruence].
  - intros j bj Hj. apply Hlk in Hj as [[-> ->]|[Hnj Hj]]; [done|].
    rewrite HH by done. destruct (Rbuf j bj Hj) as (Hst & Hfl & H6 & Hv). unfold buf_ok.
    split_and!; [done | done | |].
    + intros Hf6. destruct (Hv ltac:(lia)) as (Hdj & _).
      apply (Hm (blockno bj)); [by eapply Hne | auto].
    + intros Hf0. destruct (Hv Hf0) as (Hdj & Hdat & Hdk).
      destruct (Hm (blockno bj)) as (-> & -> & HDm & HTm); [by eapply Hne|].
      split_and!; [done..|]. rewrite elem_of_union in Hdk |- *. tauto.
  - intros m HmD. destruct (decide (m = n)) as [->|Hmn].
    + exists i, b'. split_and!; auto. apply list_lookup_insert_eq. by rewrite Rlen.
    + destruct (Rdirty m) as (k & bk & Hk & Hdk & Hnk & Hfk); [by apply Hm|].
      exists k, bk. split_and!; auto. rewrite list_lookup_insert_ne; [done|]. congruence.
  - intros m HmT. destruct (decide (m = n)) as [->|Hmn]; [eauto|].
    destruct (Rtaint m) as [k Hk]; [by apply Hm|]. exists k. rewrite HH; [done|]. congruence.
  - intros m Hall. destruct (decide (m = n)) as [->|Hmn].
    { exfalso. apply Hf', (Hall i); [|done..]. apply list_lookup_insert_eq. by rewrite Rlen. }
    destruct (Hm m Hmn) as (-> & -> & _). apply Rview. intros j bj Hj Hdj Hnj.
    apply (Hall j); [|done..]. rewrite list_lookup_insert_ne; [done|]. congruence.
  - intros j m Hj. destruct (decide (j = i)) as [->|]; [done|]. rewrite HH in Hj by done. eauto.
  - intros m. destruct (decide (m = n)) as [->|Hmn]; [done|].
    destruct (Hm m Hmn) as (-> & -> & _). auto.
Qed.

(** At most [size D + size H] buffers are in use. *)
Definition dirty_idx : list nat := filter (fun i => flags (nth_buf s i) = 6) (seq 0 NBUF).

Lemma dirty_idx_elem i : i ∈ dirty_idx ->
  exists b, bufs s !! i = Some b /\ nth_buf s i = b /\ b_dev b = 1 /\ blockno b ∈ D.
Proof.
  intros [Hf Hi]%list_elem_of_filter. rewrite elem_of_seq in Hi.
  destruct (rep_lookup i) as [b Hb]; [lia|].
  exists b. rewrite (nth_buf_lookup _ _ _ Hb) in *.
  destruct (rep_buf _ _ _ _ _ _ _ R i b Hb) as (_ & _ & H6 & Hv).
  split_and!; [done..| |auto]. apply Hv. lia.
Qed.

Lemma dirty_idx_length : (length dirty_idx <= size D)%nat.
Proof.
  rewrite <-(length_map (fun i => blockno (nth_buf s i))).
  change (size D) with (length (elements D)). apply NoDup_incl_length.
  - apply NoDup_ListNoDup, (NoDup_fmap_2_strong (fun i => blockno (nth_buf s i))).
    + intros i j Hi Hj Heq. apply dirty_idx_elem in Hi as (bi & Hbi & Hni & Hdi & _).
      apply dirty_idx_elem in Hj as (bj & Hbj & Hnj & Hdj & _).
      eapply (rep_uniq _ _ _ _ _ _ _ R); eauto. congruence.
    + apply list.NoDup_filter, NoDup_seq.
  - intros m Hm. apply list_elem_of_In, elem_of_elements.
    apply in_map_iff in Hm as (i & <- & Hi). apply list_elem_of_In in Hi.
    apply dirty_idx_elem in Hi as (b & _ & -> & _ & ?). done.
Qed.

Lemma rep_free_buffer :
  (size D + size H < NBUF)%nat ->
  exists i b, bufs s !! i = Some b /\ H !! i = None /\ flags b <> 6.
Proof.
  intros Hsz.
  destruct (decide (Forall (fun i => is_Some (H !! i) \/ flags (nth_buf s i) = 6) (seq 0 NBUF)))
    as [Hall|Hall].
  - exfalso. rewrite Forall_forall in Hall.
    assert (Hcov : (NBUF <= length (elements (dom H) ++ dirty_idx))%nat).
    { transitivity (length (seq 0 NBUF)); [by rewrite length_seq|]. apply NoDup_incl_length.
      - apply NoDup_ListNoDup, NoDup_seq.
      - intros i Hi. apply list_elem_of_In, elem_of_app.
        destruct (Hall i ltac:(by apply list_elem_of_In)) as [Hh|Hf].
        + left. by apply elem_of_elements, elem_of_dom.
        + right. apply list_elem_of_filter. by rewrite list_elem_of_In. }
    pose proof dirty_idx_length. rewrite length_app in Hcov.
    rewrite <-(size_dom (D := gset nat)) in Hsz.
    change (size (dom H)) with (length (elements (dom H))) in Hsz. lia.
  - apply not_Forall_Exists in Hall; [|apply _]. apply Exists_exists in Hall as (i & Hi & Hn).
    rewrite elem_of_seq in Hi. destruct (rep_lookup i) as [b Hb]; [lia|].
    unfold compose in Hn. rewrite (nth_buf_lookup _ _ _ Hb) in Hn. exists i, b. split_and!; [done| |tauto].
    apply eq_None_not_Some. tauto.
Qed.

End Rep.

(** ** Specifications of the operations *)

Section Specs.
Context {pid : Z} {d : gmap Z block} {v : Z -> block} {D T : gset Z} {H : gmap nat Z}.

(** The two effects of the disk driver on a locked buffer. *)
Lemma iderw_read s i b :
  bufs s !! i = Some b -> b_lock b = mkSleeplock true pid -> flags b = 0 -> b_dev b = 1 ->
  blockno b < disksize s ->
  iderw pid i s = Ok (set_bufs (<[i := mkBuf 2 1 (blockno b) (b_lock b) (refcnt b)
    (dread (disk s) (blockno b))]> (bufs s)) s).
Proof.
  intros Hb Hl Hf Hd Hn. unfold iderw.
  assert (Hi : (i < length (bufs s))%nat) by by eapply lookup_lt_Some.
  rewrite (nth_buf_lookup _ _ _ Hb). unfold holdingsleep. rewrite Hl, Hf, Hd.
  cbn [sl_locked sl_pid]. rewrite Z.eqb_refl.
  change (Z.land 0 (Z.lor B_VALID B_DIRTY) =? B_VALID) with false.
  change (Z.land 0 B_DIRTY =? 0) with true. change (1 =? 1) with true. cbn [negb andb].
  destruct (Z.leb_spec (disksize s) (blockno b)); [lia|].
  rewrite (upd_eq _ _ _ _ Hb), upd_set by done. unfold set_flags, set_data.
  cbn [flags b_dev blockno b_lock refcnt data]. by rewrite Hd, Hl.
Qed.

Lemma iderw_write s i b :
  bufs s !! i = Some b -> b_lock b = mkSleeplock true pid -> flags b = 6 -> b_dev b = 1 ->
  blockno b < disksize s ->
  iderw pid i s = Ok (mkBio (<[i := set_flags 2 b]> (bufs s)) (lru s)
    (<[blockno b := data b]> (disk s)) (disksize s) (writes s ++ [(blockno b, data b)])).
Proof.
  intros Hb Hl Hf Hd Hn. unfold iderw.
  assert (Hi : (i < length (bufs s))%nat) by by eapply lookup_lt_Some.
  rewrite (nth_buf_lookup _ _ _ Hb). unfold holdingsleep. rewrite Hl, Hf, Hd.
  cbn [sl_locked sl_pid]. rewrite Z.eqb_refl.
  change (Z.land 6 (Z.lor B_VALID B_DIRTY) =? B_VALID) with false.
  change (Z.land 6 B_DIRTY =? 0) with false. change (1 =? 1) with true. cbn [negb andb].
  destruct (Z.leb_spec (disksize s) (blockno b)); [lia|].
  rewrite (upd_eq _ _ _ _ Hb). erewrite upd_eq; [|cbn; by apply list_lookup_insert_eq].
  unfold set_bufs. cbn [bufs lru disk disksize writes].
  by rewrite list_insert_insert_eq.
Qed.

(** Locking an idle buffer and reading it in. *)
Lemma lock_and_read s i b n f :
  rep pid s d v D T H -> bufs s !! i = Some b -> H !! i = None -> n < disksize s ->
  (f = 0 /\ v n = dread d n \/ (f = 2 \/ f = 6) /\ data b = v n) ->
  ('(i', s1) ← lock_buf pid i (upd i (fun b => mkBuf f 1 n (b_lock b) 1 (data b)) s);
   if Z.land (flags (nth_buf s1 i')) B_VALID =? 0
   then (s2 ← iderw pid i' s1; Ok (i', s2)) else Ok (i', s1)) =
  Ok (i, set_bufs (<[i := mkBuf (if f =? 0 then 2 else f) 1 n (mkSleeplock true pid) 1 (v n)]>
            (bufs s)) s).
Proof.
  intros R Hb Hh Hn Hf.
  assert (Hi : (i < length (bufs s))%nat) by by eapply lookup_lt_Some.
  destruct (rep_buf _ _ _ _ _ _ _ R i b Hb) as (Hst & _). rewrite Hh in Hst.
  destruct Hst as [Hul _].
  unfold lock_buf, acquiresleep. rewrite (upd_eq _ _ _ _ Hb), nth_buf_set by done.
  cbn [b_lock]. rewrite Hul. cbn [mbind result_bind].
  rewrite upd_set by done. rewrite nth_buf_set by done. cbn [set_lock flags b_dev blockno refcnt data].
  destruct Hf as [[-> Hvn]|[Hf Hdat]].
  - change (Z.land 0 B_VALID =? 0) with true. cbn beta iota.
    erewrite iderw_read; [|by apply list_lookup_insert_eq|done..].
    cbn. rewrite list_insert_insert_eq. by rewrite (rep_disk _ _ _ _ _ _ _ R), <-Hvn.
  - destruct Hf as [-> | ->]; cbn; by rewrite Hdat.
Qed.

Lemma bread_hit s n i :
  rep pid s d v D T H -> n < disksize s -> (forall i, H !! i <> Some n) ->
  scan (fun b => (b_dev b =? 1) && (blockno b =? n)) s (lru s) = Some i ->
  exists i s', bread pid 1 n s = Ok (i, s') /\ rep pid s' d v D T (<[i := n]> H) /\
    H !! i = None /\ bdata s' i = v n /\ disksize s' = disksize s /\ writes s' = writes s.
Proof.
  intros R Hn Hnh Hscan. unfold bread, bget. rewrite Hscan.
  apply scan_Some in Hscan as [Hin Hp].
  apply (rep_in_lru R) in Hin. destruct (rep_lookup R i Hin) as [b Hb].
  rewrite (nth_buf_lookup _ _ _ Hb) in Hp. apply andb_prop in Hp as [Hdb Hnb].
  apply Z.eqb_eq in Hdb, Hnb.
  assert (Hh : H !! i = None).
  { destruct (H !! i) as [m|] eqn:Hm; [|done]. exfalso.
    destruct (rep_held_buf R i m Hm) as (b2 & Hb2 & _ & Hn2 & _).
    apply (Hnh i). congruence. }
  destruct (rep_buf _ _ _ _ _ _ _ R i b Hb) as (Hst & Hfl & H6 & Hv). rewrite Hh in Hst.
  destruct Hst as [Hul Hr].
  assert (Heq : upd i (fun b => set_refcnt (u32 (refcnt b + 1)) b) s =
                upd i (fun b0 => mkBuf (flags b) 1 n (b_lock b0) 1 (data b0)) s).
  { rewrite !(upd_eq _ _ _ _ Hb). unfold set_refcnt. by rewrite Hr, Hdb, Hnb. }
  rewrite Heq, (lock_and_read s i b n (flags b)); [|done..|].
  2: { destruct Hfl as [H0|Hfl]; [left|right].
       - split; [done|]. rewrite <-Hnb. apply (rep_uncached_eq R i); [done..|lia].
       - split; [done|]. destruct Hv as (_ & -> & _); [lia|]. by rewrite Hnb. }
  eexists i, _. split; [done|]. split; [|split_and!; [done| |done|done]].
  + eapply rep_install; [done..| |].
    * intros j bj Hj Hbj Hdj Hnj. apply Hj. eapply (rep_uniq _ _ _ _ _ _ _ R); eauto. congruence.
    * destruct (decide (flags b = 6)) as [Hf6|Hf6].
      -- right. rewrite Hf6. cbn. rewrite <-Hnb. auto.
      -- left. split_and!; [|done|].
         { by destruct Hfl as [-> | [-> | ]]. }
         rewrite <-Hnb. by apply (rep_uncached_eq R i).
  + unfold bdata. rewrite nth_buf_set; [done|]. by eapply lookup_lt_Some.
Qed.

Lemma bread_miss s n :
  rep pid s d v D T H -> n < disksize s ->
  n ∈ D \/ (size D + size H < NBUF)%nat ->
  scan (fun b => (b_dev b =? 1) && (blockno b =? n)) s (lru s) = None ->
  exists i s', bread pid 1 n s = Ok (i, s') /\ rep pid s' d v D T (<[i := n]> H) /\
    H !! i = None /\ bdata s' i = v n /\ disksize s' = disksize s /\ writes s' = writes s.
Proof.
  intros R Hn Hroom Hscan. unfold bread, bget. rewrite Hscan.
  assert (Hnc : forall j bj, bufs s !! j = Some bj -> b_dev bj = 1 -> blockno bj <> n).
  { intros j bj Hj Hdj Hnj. assert (Hin : j ∈ lru s) by (apply (rep_in_lru R); by eapply (rep_lt R)).
    pose proof (scan_None _ _ _ _ Hscan Hin) as Hp. rewrite (nth_buf_lookup _ _ _ Hj) in Hp.
    rewrite Hdj, Hnj, !Z.eqb_refl in Hp. done. }
  assert (HnD : n ∉ D).
  { intros HD. destruct (rep_dirty _ _ _ _ _ _ _ R n HD) as (j & bj & Hj & Hdj & Hnj & _).
    by eapply Hnc. }
  assert (Hvn : v n = dread d n).
  { apply (rep_view _ _ _ _ _ _ _ R). intros j bj Hj Hdj Hnj. exfalso. by eapply Hnc. }
  destruct Hroom as [?|Hroom]; [done|].
  destruct (scan _ s (rev (lru s))) as [i|] eqn:Hfree.
  2: { exfalso. destruct (rep_free_buffer R Hroom) as (i & b & Hb & Hh & Hf).
       assert (Hin : i ∈ rev (lru s)).
       { rewrite list_elem_of_In, <-in_rev, <-list_elem_of_In.
         apply (rep_in_lru R). by eapply (rep_lt R). }
       pose proof (scan_None _ _ _ _ Hfree Hin) as Hp. rewrite (nth_buf_lookup _ _ _ Hb) in Hp.
       destruct (rep_buf _ _ _ _ _ _ _ R i b Hb) as (Hst & Hfl & _). rewrite Hh in Hst.
       destruct Hst as [_ Hr0]. rewrite Hr0 in Hp.
       by destruct Hfl as [E|[E|E]]; rewrite E in Hp. }
  apply scan_Some in Hfree as [Hin Hp].
  rewrite list_elem_of_In, <-in_rev, <-list_elem_of_In in Hin.
  apply (rep_in_lru R) in Hin. destruct (rep_lookup R i Hin) as [b Hb].
  rewrite (nth_buf_lookup _ _ _ Hb) in Hp. apply andb_prop in Hp as [Hr Hf].
  apply Z.eqb_eq in Hr, Hf.
  assert (Hh : H !! i = None).
  { destruct (H !! i) as [m|] eqn:Hm; [|done]. exfalso.
    destruct (rep_held_buf R i m Hm) as (b2 & Hb2 & _ & _ & _ & Hr2 & _). simplify_eq. lia. }
  rewrite (lock_and_read s i b n 0); [|auto..].
  eexists i, _. split; [done|]. split; [|split_and!; [done| |done|done]].
  + eapply rep_install; [done..| |].
    * intros j bj _. apply Hnc.
    * left. split_and!; [done| |done]. intros E. rewrite E in Hf. done.
  + unfold bdata. rewrite nth_buf_set; [done|]. by eapply lookup_lt_Some.
Qed.

Lemma bread_ok s n :
  rep pid s d v D T H -> n < disksize s -> (forall i, H !! i <> Some n) ->
  n ∈ D \/ (size D + size H < NBUF)%nat ->
  exists i s', bread pid 1 n s = Ok (i, s') /\ rep pid s' d v D T (<[i := n]> H) /\
    H !! i = None /\ bdata s' i = v n /\ disksize s' = disksize s /\ writes s' = writes s.
Proof.
  intros R Hn Hnh Hroom.
  destruct (scan (fun b => (b_dev b =? 1) && (blockno b =? n)) s (lru s)) as [i|] eqn:Hscan;
    [by eapply bread_hit | by apply bread_miss].
Qed.

Lemma bset_ok s i n x :
  rep pid s d v D T H -> H !! i = Some n -> length x = 512%nat ->
  rep pid (bset i x s) d (<[n := x]> v) D (T ∪ {[n]}) H.
Proof.
  intros R Hh Hx. destruct (rep_held_buf R i n Hh) as (b & Hb & Hd & Hn & Hl & Hr & Hf & Hdat).
  unfold bset. rewrite (upd_eq _ _ _ _ Hb). unfold set_bufs. rewrite (rep_disk _ _ _ _ _ _ _ R).
  destruct (rep_buf _ _ _ _ _ _ _ R i b Hb) as (_ & Hfl & H6 & _).
  eapply (rep_replace R i _ n); cbn [b_dev blockno flags data set_data]; try done.
  - lia.
  - rewrite Hh. unfold buf_ok. cbn. split_and!; try done; [lia|].
    intros _. split_and!; [done | | left; set_solver].
    by rewrite Hn, fn_lookup_insert.
  - intros m Hm. rewrite fn_lookup_insert_ne by done. split_and!; [done..|]. set_solver.
  - intros HD. rewrite <-Hn in HD. by eapply (rep_D_flags R).
  - by rewrite fn_lookup_insert.
  - apply (rep_wf _ _ _ _ _ _ _ R).
Qed.

Lemma bpin_ok s i n :
  rep pid s d v D T H -> H !! i = Some n ->
  rep pid (bpin i s) d v (D ∪ {[n]}) (T ∖ {[n]}) H.
Proof.
  intros R Hh. destruct (rep_held_buf R i n Hh) as (b & Hb & Hd & Hn & Hl & Hr & Hf & Hdat).
  unfold bpin. rewrite (upd_eq _ _ _ _ Hb). unfold set_bufs. rewrite (rep_disk _ _ _ _ _ _ _ R).
  assert (E : Z.lor (flags b) B_DIRTY = 6) by by destruct Hf as [-> | ->].
  rewrite E.
  eapply (rep_replace R i _ n); cbn [b_dev blockno flags data set_flags]; try done.
  - rewrite Hh. unfold buf_ok. cbn. split_and!; try done; [auto|set_solver|].
    intros _. split_and!; [done | congruence | left; set_solver].
  - intros m Hm. split_and!; [done..| |]; set_solver.
  - apply (rep_wf _ _ _ _ _ _ _ R).
  - apply (rep_wf _ _ _ _ _ _ _ R).
Qed.

Lemma bwrite_ok s i n :
  rep pid s d v D T H -> H !! i = Some n -> n < disksize s ->
  exists s', bwrite pid i s = Ok s' /\
    rep pid s' (<[n := v n]> d) v (D ∖ {[n]}) (T ∖ {[n]}) H /\
    disksize s' = disksize s /\ writes s' = writes s ++ [(n, v n)].
Proof.
  intros R Hh Hsz. destruct (rep_held_buf R i n Hh) as (b & Hb & Hd & Hn & Hl & Hr & Hf & Hdat).
  assert (Hi : (i < length (bufs s))%nat) by by eapply lookup_lt_Some.
  unfold bwrite. rewrite (nth_buf_lookup _ _ _ Hb). unfold holdingsleep. rewrite Hl.
  cbn [sl_locked sl_pid]. rewrite Z.eqb_refl. cbn [negb andb].
  assert (E : Z.lor (flags b) B_DIRTY = 6) by by destruct Hf as [-> | ->].
  rewrite E, (upd_eq _ _ _ _ Hb).
  erewrite iderw_write; [|by apply list_lookup_insert_eq|try done..]; cbn; [|congruence].
  eexists. split; [done|]. rewrite Hdat, Hn.
  split_and!; [|done|done]. rewrite list_insert_insert_eq, (rep_disk _ _ _ _ _ _ _ R).
  unfold set_flags; cbn.
  assert (Hwf : length (v n) = 512%nat) by apply (rep_wf _ _ _ _ _ _ _ R).
  eapply (rep_replace R i _ n); cbn [b_dev blockno flags data]; try done.
  - rewrite Hh. unfold buf_ok. cbn. split_and!; try done; [auto|].
    intros _. split_and!; [done | congruence |]. right. unfold dread.
    by rewrite Hn, lookup_insert_eq.
  - intros m Hm. unfold dread. rewrite lookup_insert_ne by done. split_and!; [done..| |]; set_solver.
  - set_solver.
  - unfold dread. by rewrite lookup_insert_eq.
Qed.

Lemma move_front_perm i order : i ∈ order -> NoDup order -> move_front i order ≡ₚ order.
Proof.
  intros Hi Hnd. unfold move_front. apply NoDup_Permutation.
  - apply list.NoDup_cons. split; [|by apply list.NoDup_filter].
    rewrite list_elem_of_filter. tauto.
  - done.
  - intros j. rewrite elem_of_cons, list_elem_of_filter. destruct (decide (j = i)); naive_solver.
Qed.

Lemma brelse_ok s i n :
  rep pid s d v D T H -> H !! i = Some n -> n ∉ T ->
  exists s', brelse pid i s = Ok s' /\ rep pid s' d v D T (delete i H) /\
    disksize s' = disksize s /\ writes s' = writes s.
Proof.
  intros R Hh HT. destruct (rep_held_buf R i n Hh) as (b & Hb & Hd & Hn & Hl & Hr & Hf & Hdat).
  assert (Hi : (i < length (bufs s))%nat) by by eapply lookup_lt_Some.
  unfold brelse. rewrite (nth_buf_lookup _ _ _ Hb). unfold holdingsleep. rewrite Hl.
  cbn [sl_locked sl_pid]. rewrite Z.eqb_refl. cbn [negb andb].
  rewrite Hr. change (u32 (1 - 1)) with 0. cbn [Z.eqb].
  rewrite (upd_eq _ _ _ _ Hb), upd_set by done. cbn.
  eexists. split; [done|]. split_and!; [|done|done]. rewrite (rep_disk _ _ _ _ _ _ _ R).
  destruct (rep_buf _ _ _ _ _ _ _ R i b Hb) as (_ & Hfl & H6 & Hv).
  eapply (rep_replace R i _ n); cbn [b_dev blockno flags data set_refcnt set_lock]; try done.
  - lia.
  - rewrite lookup_delete_eq. unfold buf_ok. cbn. by split_and!.
  - intros j Hj. by rewrite lookup_delete_ne.
  - intros HD. rewrite <-Hn in HD. by eapply (rep_D_flags R).
  - apply (rep_wf _ _ _ _ _ _ _ R).
  - apply (rep_wf _ _ _ _ _ _ _ R).
  - apply move_front_perm.
    + apply (rep_in_lru R). by rewrite <-(rep_len _ _ _ _ _ _ _ R).
    + rewrite (rep_lru _ _ _ _ _ _ _ R). apply NoDup_seq.
Qed.

End Specs.

(** A freshly initialised cache represents the disk. *)
Lemma binit_rep pid d size :
  (forall n, length (dread d n) = 512%nat) ->
  rep pid (binit d size) d (dread d) ∅ ∅ ∅.
Proof.
  intros Hd. constructor; cbn [binit bufs lru disk].
  - done.
  - change (foldl _ _ _) with (rev (seq 0 NBUF)). symmetry. apply Permutation_rev.
  - done.
  - intros i j bi bj Hi Hj Hdi. exfalso.
    apply lookup_replicate in Hi as [-> _]. done.
  - intros i b [-> _]%lookup_replicate. rewrite lookup_empty. unfold buf_ok. cbn.
    split_and!; try done. auto.
  - intros n Hn. set_solver.
  - intros n Hn. set_solver.
  - done.
  - intros i n Hn. by rewrite lookup_empty in Hn.
  - auto.
Qed.

(** ** The interface of the cache

    What bio.c promises to the log and the file system: its operations, and
    the laws they satisfy on states that represent an array of blocks.  The
    clients are verified against these classes. *)

Class BufOps (S : Type) := {
  c_init : gmap Z block -> Z -> S;
  c_bread : Z -> Z -> S -> result (nat * S);
  c_data : S -> nat -> block;
  c_set : nat -> block -> S -> S;
  c_pin : nat -> S -> S;
  c_blockno : S -> nat -> Z;
  c_bwrite : nat -> S -> result S;
  c_brelse : nat -> S -> result S;
  c_size : S -> Z;
  c_disk : S -> gmap Z block;
  c_writes : S -> list (Z * block)
}.

Class BufLaws (S : Type) `{BufOps S} := {
  c_cap : nat;
  c_rep : S -> gmap Z block -> (Z -> block) -> gset Z -> gset Z -> gmap nat Z -> Prop;
  law_cap : c_cap = NBUF;
  law_init d size : (forall n, length (dread d n) = 512%nat) ->
    c_rep (c_init d size) d (dread d) ∅ ∅ ∅ /\ c_size (c_init d size) = size /\
    c_writes (c_init d size) = [];
  law_disk s d v D T H : c_rep s d v D T H -> c_disk s = d;
  law_wf s d v D T H n : c_rep s d v D T H ->
    length (v n) = 512%nat /\ length (dread d n) = 512%nat;
  law_data s d v D T H i n : c_rep s d v D T H -> H !! i = Some n ->
    c_data s i = v n /\ c_blockno s i = n;
  law_clean s d v D T n : c_rep s d v D T ∅ -> n ∉ D -> v n = dread d n;
  law_bread s d v D T H n : c_rep s d v D T H -> n < c_size s ->
    (forall i, H !! i <> Some n) -> n ∈ D \/ (size D + size H < c_cap)%nat ->
    exists i s', c_bread 1 n s = Ok (i, s') /\ c_rep s' d v D T (<[i := n]> H) /\
      H !! i = None /\ c_size s' = c_size s /\ c_writes s' = c_writes s;
  law_set s d v D T H i n x : c_rep s d v D T H -> H !! i = Some n -> length x = 512%nat ->
    c_rep (c_set i x s) d (<[n := x]> v) D (T ∪ {[n]}) H /\
    c_size (c_set i x s) = c_size s /\ c_writes (c_set i x s) = c_writes s;
  law_pin s d v D T H i n : c_rep s d v D T H -> H !! i = Some n ->
    c_rep (c_pin i s) d v (D ∪ {[n]}) (T ∖ {[n]}) H /\
    c_size (c_pin i s) = c_size s /\ c_writes (c_pin i s) = c_writes s;
  law_bwrite s d v D T H i n : c_rep s d v D T H -> H !! i = Some n -> n < c_size s ->
    exists s', c_bwrite i s = Ok s' /\
      c_rep s' (<[n := v n]> d) v (D ∖ {[n]}) (T ∖ {[n]}) H /\
      c_size s' = c_size s /\ c_writes s' = c_writes s ++ [(n, v n)];
  law_brelse s d v D T H i n : c_rep s d v D T H -> H !! i = Some n -> n ∉ T ->
    exists s', c_brelse i s = Ok s' /\ c_rep s' d v D T (delete i H) /\
      c_size s' = c_size s /\ c_writes s' = c_writes s
}.

(** bio.c, run by process [pid], implements the interface. *)
#[export] Instance bio_ops (pid : Z) : BufOps bio := {
  c_init := binit;
  c_bread := bread pid;
  c_data := bdata;
  c_set := bset;
  c_pin := bpin;
  c_blockno := fun s i => blockno (nth_buf s i);
  c_bwrite := bwrite pid;
  c_brelse := brelse pid;
  c_size := disksize;
  c_disk := disk;
  c_writes := writes
}.

Lemma rep_clean pid s d v D T n : rep pid s d v D T ∅ -> n ∉ D -> v n = dread d n.
Proof.
  intros R HD.
  destruct (scan (fun b => (b_dev b =? 1) && (blockno b =? n)) s (lru s)) as [i|] eqn:Hs.
  - apply scan_Some in Hs as [Hin Hp]. apply (rep_in_lru R) in Hin.
    destruct (rep_lookup R i Hin) as [b Hb]. rewrite (nth_buf_lookup _ _ _ Hb) in Hp.
    apply andb_prop in Hp as [Hd Hn]. apply Z.eqb_eq in Hd, Hn.
    rewrite <-Hn. apply (rep_uncached_eq R i); [done..|]. intros Hf.
    apply HD. rewrite <-Hn. by apply (rep_buf _ _ _ _ _ _ _ R i b Hb).
  - apply (rep_view _ _ _ _ _ _ _ R). intros i b Hb Hd Hn. exfalso.
    assert (Hin : i ∈ lru s) by (apply (rep_in_lru R); by eapply (rep_lt R)).
    pose proof (scan_None _ _ _ _ Hs Hin) as Hp. rewrite (nth_buf_lookup _ _ _ Hb) in Hp.
    by rewrite Hd, Hn, !Z.eqb_refl in Hp.
Qed.

#[export] Instance bio_laws (pid : Z) : @BufLaws bio (bio_ops pid).
Proof.
  refine {| c_cap := NBUF : nat; c_rep := rep pid |}; cbn.
  - done.
  - intros d size Hd. split_and!; [by apply binit_rep | done..].
  - intros s d v D T H R. apply (rep_disk _ _ _ _ _ _ _ R).
  - intros s d v D T H n R. apply (rep_wf _ _ _ _ _ _ _ R).
  - intros s d v D T H i n R Hh.
    destruct (rep_held_buf R i n Hh) as (b & Hb & _ & Hn & _ & _ & _ & Hd).
    unfold bdata. by rewrite (nth_buf_lookup _ _ _ Hb).
  - intros s d v D T n. apply rep_clean.
  - intros s d v D T H n R Hn Hh Hr.
    destruct (bread_ok s n R Hn Hh Hr) as (i & s' & ? & ? & ? & _ & ? & ?). eauto 10.
  - intros s d v D T H i n x R Hh Hx. split; [by apply bset_ok | done].
  - intros s d v D T H i n R Hh. split; [by apply bpin_ok | done].
  - intros s d v D T H i n R Hh Hn. by apply bwrite_ok.
  - intros s d v D T H i n R Hh HT. by eapply brelse_ok.
Defined.

(** ** Theorems *)

(** C6: [bread] on a consistent cache returns, without panicking, a buffer
    locked by the caller that holds the current logical contents of the block:
    the cached version when there is one (dirty or not), the disk's otherwise.
    It needs no free buffer when the block is pinned dirty, and one of the 30
    otherwise; it writes nothing to the disk and loses no dirty buffer. *)
Theorem bread_returns_current pid s d v D T H n :
  rep pid s d v D T H -> n < disksize s -> (forall i, H !! i <> Some n) ->
  n ∈ D \/ (size D + size H < NBUF)%nat ->
  exists i s', bread pid 1 n s = Ok (i, s') /\ rep pid s' d v D T (<[i := n]> H) /\
    H !! i = None /\ bdata s' i = v n /\
    holdingsleep pid (b_lock (nth_buf s' i)) = true /\ writes s' = writes s.
Proof.
  intros R Hn Hh Hr.
  destruct (bread_ok s n R Hn Hh Hr) as (i & s' & Hs & R' & Hi & Hd & _ & Hw).
  exists i, s'. split_and!; [done..| |done].
  destruct (rep_held_buf R' i n (lookup_insert_eq _ _ _)) as (b & Hb & _ & _ & Hl & _).
  rewrite (nth_buf_lookup _ _ _ Hb), Hl. cbn. by rewrite Z.eqb_refl.
Qed.

Definition demo_disk : gmap Z block := {[ 7 := replicate 512 42 ]}.

Lemma demo_disk_wf n : length (dread demo_disk n) = 512%nat.
Proof.
  unfold dread, demo_disk. destruct (decide (7 = n)) as [<-|].
  - by rewrite lookup_singleton_eq.
  - by rewrite lookup_singleton_ne.
Defined.

Lemma bread_returns_current_witness :
  exists i s', bread 5 1 7 (binit demo_disk 100) = Ok (i, s') /\
    bdata s' i = replicate 512 42.
Proof.
  destruct (bread_returns_current 5 (binit demo_disk 100) demo_disk (dread demo_disk) ∅ ∅ ∅ 7)
    as (i & s' & Hs & _ & _ & Hd & _).
  - apply binit_rep, demo_disk_wf.
  - done.
  - intros i. by rewrite lookup_empty.
  - right. vm_compute. lia.
  - exists i, s'. by rewrite Hd.
Defined.
