(* ===== verification/Log.v ===== *)
(** The write-ahead log, [xv6/base/log.c], over the buffer cache interface.

    The in-memory [struct log] is the record [logst]; the spinlock that
    protects it is not represented, each routine below is what runs between
    [acquire] and [release] (or, for [commit], while [committing] keeps the
    other system calls out).  [begin_op] is one turn of its loop: the outcome
    [Sleeps] is the call of [sleep], after which the loop tries again.
    A store outside an array, undefined in C, is the outcome
    [Panic "out of bounds"].

    The main theorem is crash atomicity: wherever a commit is cut by a crash,
    recovery leaves either every home block as it was before the transaction
    or every home block as the transaction left it. *)

From S2P Require Import Prelude Block Bio.

(** ** Data *)

Definition MAXOPBLOCKS : Z := 10.
Definition LOGSIZE : Z := MAXOPBLOCKS * 3.

Record superblock := mkSb {
  sb_size : Z; sb_nblocks : Z; sb_ninodes : Z; sb_nlog : Z;
  sb_logstart : Z; sb_inodestart : Z; sb_bmapstart : Z
}.

Record logst := mkLog {
  lg_start : Z;
  lg_size : Z;
  outstanding : Z;
  committing : bool;
  lg_dev : Z;
  lh_n : Z;
  lh_block : list Z   (* int block[LOGSIZE] *)
}.

Definition set_lh (n : Z) (bl : list Z) (l : logst) : logst :=
  mkLog (lg_start l) (lg_size l) (outstanding l) (committing l) (lg_dev l) n bl.
Definition set_outstanding (o : Z) (l : logst) : logst :=
  mkLog (lg_start l) (lg_size l) o (committing l) (lg_dev l) (lh_n l) (lh_block l).
Definition set_committing (c : bool) (l : logst) : logst :=
  mkLog (lg_start l) (lg_size l) (outstanding l) c (lg_dev l) (lh_n l) (lh_block l).

(** [log.lh.block[i]] *)
Definition blk (l : logst) (i : nat) : Z := nth i (lh_block l) 0.

(** The zeroed static [struct log]. *)
Definition log0 : logst := mkLog 0 0 0 false 0 0 (replicate (Z.to_nat LOGSIZE) 0).

(** The indices of the C loop [for (i = 0; i < n; i++)]. *)
Definition upto (n : Z) : list nat := seq 0 (Z.to_nat n).

(** ** Operations *)

Section Ops.
Context {C : Type} {ops : BufOps C}.

Definition readsb (dev : Z) (s : C) : result (superblock * C) :=
  '(i, s1) ← c_bread dev 1 s;
  let b := c_data s1 i in
  s2 ← c_brelse i s1;
  Ok (mkSb (get32 b 0) (get32 b 4) (get32 b 8) (get32 b 12) (get32 b 16) (get32 b 20)
        (get32 b 24), s2).

Definition install_step (l : logst) (tail : nat) (s : C) : result C :=
  '(lbuf, s1) ← c_bread (lg_dev l) (lg_start l + Z.of_nat tail + 1) s;
  '(dbuf, s2) ← c_bread (lg_dev l) (blk l tail) s1;
  s3 ← c_bwrite dbuf (c_set dbuf (c_data s2 lbuf) s2);
  s4 ← c_brelse lbuf s3;
  c_brelse dbuf s4.

Definition install_trans (l : logst) (s : C) : result C :=
  for_each (install_step l) (upto (lh_n l)) s.

Definition read_head_step (b : block) (i : nat) (bl : list Z) : result (list Z) :=
  if LOGSIZE <=? Z.of_nat i then Panic "out of bounds"
  else Ok (<[i := s32 (get32 b (4 + 4 * Z.of_nat i))]> bl).

Definition read_head (l : logst) (s : C) : result (logst * C) :=
  '(i, s1) ← c_bread (lg_dev l) (lg_start l) s;
  let b := c_data s1 i in
  let n := s32 (get32 b 0) in
  bl ← for_each (read_head_step b) (upto n) (lh_block l);
  s2 ← c_brelse i s1;
  Ok (set_lh n bl l, s2).

(** The stores of [write_head] into the header block. *)
Definition encode_head (l : logst) (b : block) : block :=
  foldl (fun b i => put32 b (4 + 4 * Z.of_nat i) (blk l i)) (put32 b 0 (lh_n l))
    (upto (lh_n l)).

Definition write_head (l : logst) (s : C) : result C :=
  '(i, s1) ← c_bread (lg_dev l) (lg_start l) s;
  s2 ← c_bwrite i (c_set i (encode_head l (c_data s1 i)) s1);
  c_brelse i s2.

Definition recover_from_log (l : logst) (s : C) : result (logst * C) :=
  '(l1, s1) ← read_head l s;
  s2 ← install_trans l1 s1;
  let l2 := set_lh 0 (lh_block l1) l1 in
  s3 ← write_head l2 s2;
  Ok (l2, s3).

Definition initlog (dev : Z) (l : logst) (s : C) : result (logst * C) :=
  if BSIZE <=? 4 + 4 * LOGSIZE then Panic "initlog: too big logheader"
  else
    '(sb, s1) ← readsb dev s;
    recover_from_log
      (mkLog (s32 (sb_logstart sb)) (s32 (sb_nlog sb)) (outstanding l) (committing l) dev
         (lh_n l) (lh_block l)) s1.

Definition begin_op (l : logst) : result logst :=
  if committing l then Sleeps "log"
  else if LOGSIZE <? lh_n l + (outstanding l + 1) * MAXOPBLOCKS then Sleeps "log"
  else Ok (set_outstanding (outstanding l + 1) l).

Definition write_log_step (l : logst) (tail : nat) (s : C) : result C :=
  '(to, s1) ← c_bread (lg_dev l) (lg_start l + Z.of_nat tail + 1) s;
  '(from, s2) ← c_bread (lg_dev l) (blk l tail) s1;
  s3 ← c_bwrite to (c_set to (c_data s2 from) s2);
  s4 ← c_brelse from s3;
  c_brelse to s4.

Definition write_log (l : logst) (s : C) : result C :=
  for_each (write_log_step l) (upto (lh_n l)) s.

Definition commit (l : logst) (s : C) : result (logst * C) :=
  if 0 <? lh_n l then
    s1 ← write_log l s;
    s2 ← write_head l s1;
    s3 ← install_trans l s2;
    let l1 := set_lh 0 (lh_block l) l in
    s4 ← write_head l1 s3;
    Ok (l1, s4)
  else Ok (l, s).

Definition end_op (l : logst) (s : C) : result (logst * C) :=
  let l1 := set_outstanding (outstanding l - 1) l in
  if committing l1 then Panic "log.committing"
  else if outstanding l1 =? 0 then
    '(l2, s2) ← commit (set_committing true l1) s;
    Ok (set_committing false l2, s2)
  else Ok (l1, s).

(** The scan for log absorption: the first [i < n] with
    [log.lh.block[i] == b->blockno] (an [int] compared with a [uint]), or [n]. *)
Fixpoint absorb (bl : list Z) (n : nat) (bno : Z) : nat :=
  match n, bl with
  | O, _ => O
  | S n', [] => n
  | S n', x :: bl' => if u32 x =? bno then O else S (absorb bl' n' bno)
  end.

(** What [log_write] does to the in-memory log. *)
Definition log_record (bno : Z) (l : logst) : result logst :=
  if (LOGSIZE <=? lh_n l) || (lg_size l - 1 <=? lh_n l) then Panic "too big a transaction"
  else if outstanding l <? 1 then Panic "log_write outside of trans"
  else
    let i := absorb (lh_block l) (Z.to_nat (lh_n l)) bno in
    let n := if Z.of_nat i =? lh_n l then lh_n l + 1 else lh_n l in
    Ok (set_lh n (<[i := s32 bno]> (lh_block l)) l).

Definition log_write (i : nat) (l : logst) (s : C) : result (logst * C) :=
  l' ← log_record (c_blockno s i) l; Ok (l', c_pin i s).

End Ops.

(** ** Lemmas on the in-memory log *)

Lemma absorb_le bl n bno : (absorb bl n bno <= n)%nat.
Proof.
  revert n. induction bl as [|x bl IH]; intros [|n]; cbn; try lia.
  case_match; [lia|]. specialize (IH n). lia.
Qed.

Lemma absorb_Some bl n bno :
  (absorb bl n bno < n)%nat -> (n <= length bl)%nat ->
  exists x, bl !! absorb bl n bno = Some x /\ u32 x = bno.
Proof.
  revert n. induction bl as [|x bl IH]; intros [|n]; cbn; try lia. intros Hlt Hlen.
  destruct (Z.eqb_spec (u32 x) bno) as [E|E]; [by exists x|].
  apply (IH n); lia.
Qed.

Lemma absorb_None bl n bno :
  (absorb bl n bno = n)%nat -> (n <= length bl)%nat ->
  forall x, x ∈ take n bl -> u32 x <> bno.
Proof.
  revert n. induction bl as [|y bl IH]; intros [|n] Ha Hlen x Hx; cbn in *; try lia;
    try (by apply not_elem_of_nil in Hx).
  destruct (Z.eqb_spec (u32 y) bno); [lia|].
  apply elem_of_cons in Hx as [->|Hx]; [done|]. apply (IH n); [lia|lia|done].
Qed.

(** ** Disks as traces of writes *)

Definition apply_writes (ws : list (Z * block)) (d : gmap Z block) : gmap Z block :=
  foldl (fun d w => <[w.1 := w.2]> d) d ws.

Definition apply_view (ws : list (Z * block)) (v : Z -> block) : Z -> block :=
  foldl (fun v w => <[w.1 := w.2]> v) v ws.

Lemma apply_writes_cons n x ws d :
  apply_writes ((n, x) :: ws) d = apply_writes ws (<[n := x]> d).
Proof. done. Qed.

Lemma apply_view_cons n x ws v :
  apply_view ((n, x) :: ws) v = apply_view ws (<[n := x]> v).
Proof. done. Qed.

Lemma apply_writes_app ws1 ws2 d :
  apply_writes (ws1 ++ ws2) d = apply_writes ws2 (apply_writes ws1 d).
Proof. apply foldl_app. Qed.

Lemma apply_view_app ws1 ws2 v :
  apply_view (ws1 ++ ws2) v = apply_view ws2 (apply_view ws1 v).
Proof. apply foldl_app. Qed.

Lemma dread_insert d n x m : dread (<[n := x]> d) m = if decide (n = m) then x else dread d m.
Proof. unfold dread. rewrite lookup_insert. by case_decide. Qed.

Lemma dread_apply_other ws d m : m ∉ ws.*1 -> dread (apply_writes ws d) m = dread d m.
Proof.
  revert d. induction ws as [|[n x] ws IH]; intros d Hm; [done|].
  rewrite fmap_cons, not_elem_of_cons in Hm. rewrite apply_writes_cons, IH by tauto. rewrite dread_insert.
  case_decide; [naive_solver | done].
Qed.

Lemma view_apply_other ws v m : m ∉ ws.*1 -> apply_view ws v m = v m.
Proof.
  revert v. induction ws as [|[n x] ws IH]; intros v Hm; [done|].
  rewrite fmap_cons, not_elem_of_cons in Hm. rewrite apply_view_cons, IH by tauto.
  rewrite fn_lookup_insert_ne; [done|naive_solver].
Qed.

(** When no block is written twice, each holds what was written to it. *)
Lemma dread_apply_elem ws d n x :
  NoDup ws.*1 -> (n, x) ∈ ws -> dread (apply_writes ws d) n = x.
Proof.
  revert d. induction ws as [|[m y] ws IH]; intros d Hnd Hin.
  - by apply not_elem_of_nil in Hin.
  - rewrite apply_writes_cons. apply list.NoDup_cons in Hnd as [Hm Hnd].
    apply elem_of_cons in Hin as [[= -> ->]|Hin].
    + rewrite dread_apply_other by done. rewrite dread_insert. by rewrite decide_True.
    + by apply IH.
Qed.

Lemma dread_apply_take_other k ws d m :
  m ∉ ws.*1 -> dread (apply_writes (take k ws) d) m = dread d m.
Proof.
  intros Hm. apply dread_apply_other. intros Hin. apply Hm.
  apply list_elem_of_fmap in Hin as (w & -> & Hw). apply list_elem_of_fmap.
  exists w. split; [done|]. apply elem_of_take in Hw as (i & Hi & _). by eapply list_elem_of_lookup_2.
Qed.

(** ** The log header on disk *)

Section Header.
Context (l : logst) (b : block).
Hypothesis Hb : length b = 512%nat.

Let enc (k : nat) : block :=
  foldl (fun b i => put32 b (4 + 4 * Z.of_nat i) (blk l i)) (put32 b 0 (lh_n l)) (seq 0 k).

Lemma enc_S k : enc (S k) = put32 (enc k) (4 + 4 * Z.of_nat k) (blk l k).
Proof. unfold enc. by rewrite seq_S, foldl_app. Qed.

Lemma enc_length k : (k <= 30)%nat -> length (enc k) = 512%nat.
Proof.
  induction k as [|k IH]; intros Hk.
  - unfold enc. cbn [seq foldl]. rewrite put32_length; lia.
  - rewrite enc_S, put32_length; rewrite ?IH; lia.
Qed.

Lemma enc_n k : (k <= 30)%nat -> get32 (enc k) 0 = u32 (lh_n l).
Proof.
  induction k as [|k IH]; intros Hk.
  - unfold enc. cbn [seq foldl]. apply get32_put32; lia.
  - rewrite enc_S, get32_put32_other; rewrite ?enc_length; lia.
Qed.

Lemma enc_block k i :
  (i < k)%nat -> (k <= 30)%nat -> get32 (enc k) (4 + 4 * Z.of_nat i) = u32 (blk l i).
Proof.
  intros Hi. induction k as [|k IH]; intros Hk; [lia|]. rewrite enc_S.
  destruct (decide (i = k)) as [->|].
  - apply get32_put32; rewrite ?enc_length; lia.
  - rewrite get32_put32_other; rewrite ?enc_length; lia.
Qed.

Lemma encode_head_length : lh_n l <= 30 -> length (encode_head l b) = 512%nat.
Proof. intros Hn. apply enc_length. lia. Qed.

Lemma encode_head_n : 0 <= lh_n l <= 30 -> s32 (get32 (encode_head l b) 0) = lh_n l.
Proof.
  intros Hn. change (encode_head l b) with (enc (Z.to_nat (lh_n l))).
  rewrite enc_n, u32_s32 by lia. apply s32_small. lia.
Qed.

Lemma encode_head_block i :
  0 <= lh_n l <= 30 -> (i < Z.to_nat (lh_n l))%nat ->
  s32 (get32 (encode_head l b) (4 + 4 * Z.of_nat i)) = s32 (blk l i).
Proof.
  intros Hn Hi. change (encode_head l b) with (enc (Z.to_nat (lh_n l))).
  rewrite enc_block, u32_s32 by lia. done.
Qed.

End Header.

(** ** The routines over the cache *)

Section Specs.
Context {C : Type} {ops : BufOps C} {laws : BufLaws C}.
Implicit Types (s : C) (d : gmap Z block) (v : Z -> block) (D : gset Z).

(** [idle s d v D]: no buffer is held. *)
Abbreviation idle s d v D := (c_rep s d v D ∅ ∅).

(** The common end of [install_step] and [write_log_step]: two buffers are
    held, the contents of the second are copied to the first, written to the
    disk, and both are released. *)
Lemma copy_finish s d v D i j n m (Hh : gmap nat Z) :
  c_rep s d v D ∅ Hh -> Hh !! i = Some n -> Hh !! j = Some m ->
  delete i (delete j Hh) = ∅ -> i <> j -> n <> m -> n < c_size s ->
  exists s', (s3 ← c_bwrite i (c_set i (c_data s j) s); s4 ← c_brelse j s3; c_brelse i s4) = Ok s' /\
    idle s' (<[n := v m]> d) (<[n := v m]> v) (D ∖ {[n]}) /\
    c_size s' = c_size s /\ c_writes s' = c_writes s ++ [(n, v m)].
Proof.
  intros R Hi Hj Hdel Hij Hnm Hsz.
  destruct (law_data _ _ _ _ _ _ j m R Hj) as [Hdat _]. rewrite Hdat.
  destruct (law_set s d v D ∅ Hh i n (v m) R Hi) as (R1 & Hs1 & Hw1); [by eapply law_wf|].
  destruct (law_bwrite _ _ _ _ _ _ i n R1 Hi) as (s2 & Hb & R2 & Hs2 & Hw2); [lia|].
  rewrite Hb. cbn [mbind result_bind]. rewrite fn_lookup_insert in R2, Hw2.
  replace ((∅ ∪ {[n]}) ∖ {[n]}) with (∅ : gset Z) in R2 by set_solver.
  destruct (law_brelse _ _ _ _ _ _ j m R2 Hj) as (s3 & Hb3 & R3 & Hs3 & Hw3); [set_solver|].
  rewrite Hb3. cbn [mbind result_bind].
  destruct (law_brelse _ _ _ _ _ _ i n R3) as (s4 & Hb4 & R4 & Hs4 & Hw4);
    [by rewrite lookup_delete_ne|set_solver|].
  rewrite Hdel in R4. exists s4. split_and!; [done | done | congruence | congruence].
Qed.

Lemma two_held (i j : nat) (n m : Z) :
  ({[ j := m ]} : gmap nat Z) !! i = None ->
  (<[i := n]> {[ j := m ]} : gmap nat Z) !! j = Some m /\ i <> j /\
  delete i (delete j (<[i := n]> {[ j := m ]} : gmap nat Z)) = ∅ /\
  delete j (delete i (<[i := n]> {[ j := m ]} : gmap nat Z)) = ∅.
Proof.
  intros Hi. assert (Hne : i <> j) by (intros ->; by rewrite lookup_singleton_eq in Hi).
  split_and!; [|done| |]; rewrite ?lookup_insert_ne, ?lookup_singleton_eq by done; try done.
  all: apply map_eq; intros k; rewrite lookup_empty; rewrite !lookup_delete;
    repeat case_decide; try done;
    rewrite lookup_insert_ne, lookup_singleton_ne by done; done.
Qed.

(** Reading two distinct blocks one after the other. *)
Lemma bread_two s d v D n m :
  idle s d v D -> n < c_size s -> m < c_size s -> n <> m ->
  (size D < NBUF)%nat -> m ∈ D \/ (size D + 1 < NBUF)%nat ->
  exists i j s1 s2, c_bread 1 n s = Ok (i, s1) /\ c_bread 1 m s1 = Ok (j, s2) /\
    c_rep s2 d v D ∅ (<[j := m]> {[ i := n ]}) /\ ({[ i := n ]} : gmap nat Z) !! j = None /\
    c_size s2 = c_size s /\ c_writes s2 = c_writes s.
Proof.
  intros R Hn Hm Hne Hroom Hroom2. pose proof law_cap as Hcap.
  destruct (law_bread s d v D ∅ ∅ n R Hn) as (i & s1 & Hb1 & R1 & _ & Hs1 & Hw1).
  { intros i. by rewrite lookup_empty. }
  { right. rewrite map_size_empty, Hcap. lia. }
  change (<[i := n]> ∅) with ({[ i := n ]} : gmap nat Z) in R1.
  destruct (law_bread s1 d v D ∅ _ m R1) as (j & s2 & Hb2 & R2 & Hj & Hs2 & Hw2).
  { lia. }
  { intros k Hk. apply lookup_singleton_Some in Hk as [_ ?]. congruence. }
  { destruct Hroom2; [by left|right]. rewrite map_size_singleton, Hcap. lia. }
  exists i, j, s1, s2. split_and!; try done; congruence.
Qed.

(** The geometry of the log: the header and the logged blocks fit in the log
    region, and the home blocks are disk blocks outside of it. *)
Definition in_log (l : logst) (x : Z) : Prop :=
  lg_start l <= x < lg_start l + lg_size l.

Record log_ok (l : logst) (sz : Z) : Prop := {
  lok_dev : lg_dev l = 1;
  lok_start : 0 <= lg_start l;
  lok_n : 0 <= lh_n l <= LOGSIZE;
  lok_size : lh_n l < lg_size l;
  lok_disk : lg_start l + lg_size l <= sz;
  lok_home : forall i, (i < Z.to_nat (lh_n l))%nat ->
    0 <= blk l i < sz /\ blk l i < 2 ^ 31 /\ ~ in_log l (blk l i)
}.

Definition log_slot (l : logst) (i : nat) : Z := lg_start l + Z.of_nat i + 1.

(** The writes of [write_log] and of [install_trans], up to index [k]. *)
Definition log_ws (l : logst) (v : Z -> block) (k : nat) : list (Z * block) :=
  map (fun i => (log_slot l i, v (blk l i))) (seq 0 k).
Definition inst_ws (l : logst) (v : Z -> block) (k : nat) : list (Z * block) :=
  map (fun i => (blk l i, v (log_slot l i))) (seq 0 k).

Lemma log_ws_S l v k : log_ws l v (S k) = log_ws l v k ++ [(log_slot l k, v (blk l k))].
Proof. unfold log_ws. by rewrite seq_S, map_app. Qed.

Lemma inst_ws_S l v k : inst_ws l v (S k) = inst_ws l v k ++ [(blk l k, v (log_slot l k))].
Proof. unfold inst_ws. by rewrite seq_S, map_app. Qed.

Lemma log_ws_keys l v k x :
  x ∈ (log_ws l v k).*1 <-> lg_start l + 1 <= x < lg_start l + 1 + Z.of_nat k.
Proof.
  unfold log_ws, log_slot. rewrite list_elem_of_fmap. split.
  - intros ([y z] & -> & Hin). apply list_elem_of_In, in_map_iff in Hin as (i & [= <- <-] & Hi).
    apply in_seq in Hi. cbn. lia.
  - intros Hx. exists (x, v (blk l (Z.to_nat (x - lg_start l - 1)))). split; [done|].
    apply list_elem_of_In, in_map_iff. exists (Z.to_nat (x - lg_start l - 1)).
    split; [f_equal; lia|]. apply in_seq. lia.
Qed.

Lemma inst_ws_keys l v k x :
  x ∈ (inst_ws l v k).*1 <-> exists i, (i < k)%nat /\ x = blk l i.
Proof.
  unfold inst_ws. rewrite list_elem_of_fmap. split.
  - intros ([y z] & -> & Hin). apply list_elem_of_In, in_map_iff in Hin as (i & [= <- <-] & Hi).
    apply in_seq in Hi. exists i. split; [lia | done].
  - intros (i & Hi & ->). exists (blk l i, v (log_slot l i)). split; [done|].
    apply list_elem_of_In, in_map_iff. exists i. split; [done|]. apply in_seq. lia.
Qed.

Lemma write_head_ok l s d v D :
  idle s d v D -> lg_dev l = 1 -> 0 <= lg_start l < c_size s -> lh_n l <= LOGSIZE ->
  (size D < NBUF)%nat -> lg_start l ∉ D ->
  let h := encode_head l (v (lg_start l)) in
  exists s', write_head l s = Ok s' /\
    idle s' (<[lg_start l := h]> d) (<[lg_start l := h]> v) D /\
    c_size s' = c_size s /\ c_writes s' = c_writes s ++ [(lg_start l, h)].
Proof.
  intros R Hdev Hst Hn HD HnD h. unfold write_head. rewrite Hdev. pose proof law_cap as Hcap.
  destruct (law_bread s d v D ∅ ∅ (lg_start l) R) as (i & s1 & Hb1 & R1 & _ & Hs1 & Hw1).
  { lia. } { intros i. by rewrite lookup_empty. } { right. rewrite map_size_empty, Hcap. lia. }
  rewrite Hb1. cbn [mbind result_bind].
  assert (Hi : (<[i := lg_start l]> ∅ : gmap nat Z) !! i = Some (lg_start l)) by apply lookup_insert_eq.
  destruct (law_data _ _ _ _ _ _ i _ R1 Hi) as [-> _]. fold h.
  destruct (law_set _ _ _ _ _ _ i _ h R1 Hi) as (R2 & Hs2 & Hw2).
  { apply encode_head_length; [by eapply law_wf | unfold LOGSIZE, MAXOPBLOCKS in *; lia]. }
  destruct (law_bwrite _ _ _ _ _ _ i _ R2 Hi) as (s3 & Hb3 & R3 & Hs3 & Hw3); [lia|].
  rewrite Hb3. cbn [mbind result_bind]. rewrite fn_lookup_insert in R3, Hw3.
  replace ((∅ ∪ {[lg_start l]}) ∖ {[lg_start l]}) with (∅ : gset Z) in R3 by set_solver.
  replace (D ∖ {[lg_start l]}) with D in R3 by set_solver.
  destruct (law_brelse _ _ _ _ _ _ i _ R3 Hi) as (s4 & Hb4 & R4 & Hs4 & Hw4); [set_solver|].
  exists s4. rewrite delete_insert_eq, delete_id in R4 by apply lookup_empty.
  split_and!; [done | done | congruence | congruence].
Qed.

(** One turn of [write_log]: the home block, dirty in the cache, is copied to
    its log slot. *)
Lemma write_log_step_ok l s d v D k :
  log_ok l (c_size s) -> (k < Z.to_nat (lh_n l))%nat -> idle s d v D ->
  blk l k ∈ D -> (forall x, x ∈ D -> ~ in_log l x) -> (size D < NBUF)%nat ->
  exists s', write_log_step l k s = Ok s' /\
    idle s' (<[log_slot l k := v (blk l k)]> d) (<[log_slot l k := v (blk l k)]> v) D /\
    c_size s' = c_size s /\ c_writes s' = c_writes s ++ [(log_slot l k, v (blk l k))].
Proof.
  intros [Hdev Hst Hn Hsz Hdk Hhome] Hk R HbD HDlog Hroom.
  destruct (Hhome k Hk) as (Hb1 & Hb2 & Hnl). unfold in_log in *. unfold log_slot.
  assert (Hne : lg_start l + Z.of_nat k + 1 <> blk l k) by lia.
  destruct (bread_two s d v D (lg_start l + Z.of_nat k + 1) (blk l k) R)
    as (i & j & s1 & s2 & Hr1 & Hr2 & R2 & Hj & Hs2 & Hw2); [lia|lia|done|done|by left|].
  unfold write_log_step. rewrite Hdev, Hr1. cbn [mbind result_bind].
  rewrite Hr2. cbn [mbind result_bind].
  destruct (two_held j i (blk l k) (lg_start l + Z.of_nat k + 1) Hj) as (Hi & Hij & Hd1 & Hd2).
  destruct (copy_finish s2 d v D i j (lg_start l + Z.of_nat k + 1) (blk l k) _ R2)
    as (s' & Hf & R' & Hs' & Hw'); [done|apply lookup_insert_eq|done|done|done|lia|].
  exists s'. split_and!; [done| |congruence|congruence].
  replace (D ∖ {[lg_start l + Z.of_nat k + 1]}) with D in R'; [done|].
  assert (lg_start l + Z.of_nat k + 1 ∉ D) by (intros HD; apply (HDlog _ HD); lia).
  set_solver.
Qed.

Lemma write_log_upto l s d v D k :
  log_ok l (c_size s) -> idle s d v D ->
  (forall i, (i < Z.to_nat (lh_n l))%nat -> blk l i ∈ D) ->
  (forall x, x ∈ D -> ~ in_log l x) -> (size D < NBUF)%nat ->
  (k <= Z.to_nat (lh_n l))%nat ->
  let ws := log_ws l v k in
  exists s', for_each (write_log_step l) (seq 0 k) s = Ok s' /\ idle s' (apply_writes ws d) (apply_view ws v) D /\
    c_size s' = c_size s /\ c_writes s' = c_writes s ++ ws.
Proof.
  intros Hok R HbD HDlog Hroom Hk. cbv zeta. revert Hk.
  induction k as [|k IH]; intros Hk.
  - exists s. split_and!; try done. cbn. by rewrite app_nil_r.
  - destruct IH as (s1 & Hs1 & R1 & Hsz1 & Hw1); [lia|].
    rewrite seq_S, for_each_app, Hs1. cbn [mbind result_bind for_each Nat.add].
    assert (Hbk : apply_view (log_ws l v k) v (blk l k) = v (blk l k)).
    { apply view_apply_other. rewrite log_ws_keys. intros Hin.
      destruct (lok_home _ _ Hok k) as (_ & _ & Hnl); [lia|]. apply Hnl.
      pose proof (lok_size _ _ Hok). pose proof (lok_n _ _ Hok). unfold in_log. lia. }
    destruct (write_log_step_ok l s1 (apply_writes (log_ws l v k) d)
                (apply_view (log_ws l v k) v) D k) as (s2 & Hs2 & R2 & Hsz2 & Hw2);
      [by rewrite Hsz1 | lia | done | apply HbD; lia | done | done |].
    rewrite Hs2. cbn [mbind result_bind]. exists s2. rewrite Hbk in R2, Hw2.
    rewrite log_ws_S, apply_writes_app, apply_view_app.
    split_and!; [done | done | congruence |]. by rewrite Hw2, Hw1, app_assoc.
Qed.

(** One turn of [install_trans]. *)
Lemma install_step_ok l s d v D k :
  log_ok l (c_size s) -> (k < Z.to_nat (lh_n l))%nat -> idle s d v D ->
  blk l k ∈ D \/ (size D + 1 < NBUF)%nat -> (size D < NBUF)%nat ->
  exists s', install_step l k s = Ok s' /\
    idle s' (<[blk l k := v (log_slot l k)]> d) (<[blk l k := v (log_slot l k)]> v)
      (D ∖ {[blk l k]}) /\
    c_size s' = c_size s /\ c_writes s' = c_writes s ++ [(blk l k, v (log_slot l k))].
Proof.
  intros [Hdev Hst Hn Hsz Hdk Hhome] Hk R HbD Hroom.
  destruct (Hhome k Hk) as (Hb1 & Hb2 & Hnl). unfold in_log in *. unfold log_slot.
  assert (Hne : lg_start l + Z.of_nat k + 1 <> blk l k) by lia.
  destruct (bread_two s d v D (lg_start l + Z.of_nat k + 1) (blk l k) R)
    as (i & j & s1 & s2 & Hr1 & Hr2 & R2 & Hj & Hs2 & Hw2); [lia|lia|done|done|done|].
  unfold install_step. rewrite Hdev, Hr1. cbn [mbind result_bind].
  rewrite Hr2. cbn [mbind result_bind].
  destruct (two_held j i (blk l k) (lg_start l + Z.of_nat k + 1) Hj) as (Hi & Hij & Hd1 & Hd2).
  destruct (copy_finish s2 d v D j i (blk l k) (lg_start l + Z.of_nat k + 1) _ R2)
    as (s' & Hf & R' & Hs' & Hw'); [apply lookup_insert_eq|done|done|done|done|lia|].
  exists s'. split_and!; [done|done|congruence|congruence].
Qed.

Definition homes (l : logst) (k : nat) : gset Z := list_to_set (map (blk l) (seq 0 k)).

Lemma homes_S l k : homes l (S k) = homes l k ∪ {[blk l k]}.
Proof. unfold homes. rewrite seq_S, map_app, list_to_set_app_L. cbn. set_solver. Qed.

(** The home blocks are distinct and dirty (a commit), or nothing is dirty
    (recovery). *)
Definition homes_pinned (l : logst) (D : gset Z) : Prop :=
  D = ∅ \/ NoDup (map (blk l) (seq 0 (Z.to_nat (lh_n l)))) /\
     forall i, (i < Z.to_nat (lh_n l))%nat -> blk l i ∈ D.

Lemma homes_pinned_room l D k :
  homes_pinned l D -> (k < Z.to_nat (lh_n l))%nat ->
  blk l k ∈ D ∖ homes l k \/ (size (D ∖ homes l k) + 1 < NBUF)%nat.
Proof.
  intros [->|[Hnd Hall]] Hk.
  - right. replace (∅ ∖ homes l k) with (∅ : gset Z) by set_solver.
    rewrite size_empty. unfold NBUF. lia.
  - left. apply elem_of_difference. split; [by apply Hall|]. unfold homes.
    rewrite elem_of_list_to_set. intros Hin.
    apply list_elem_of_In, in_map_iff in Hin as (i & Heq & Hi). apply in_seq in Hi.
    assert (Hlk : forall j, (j < Z.to_nat (lh_n l))%nat ->
      map (blk l) (seq 0 (Z.to_nat (lh_n l))) !! j = Some (blk l j)).
    { intros j Hj. change (map (blk l)) with (fmap (M := list) (blk l)).
      by rewrite list_lookup_fmap, lookup_seq_lt. }
    assert (i = k); [|lia].
    apply (NoDup_lookup _ i k (blk l k) Hnd); [|by apply Hlk].
    rewrite <-Heq. apply Hlk. lia.
Qed.

Lemma install_upto l s d v D k :
  log_ok l (c_size s) -> idle s d v D -> homes_pinned l D ->
  (size D < NBUF)%nat -> (k <= Z.to_nat (lh_n l))%nat ->
  let ws := inst_ws l v k in
  exists s', for_each (install_step l) (seq 0 k) s = Ok s' /\
    idle s' (apply_writes ws d) (apply_view ws v) (D ∖ homes l k) /\
    c_size s' = c_size s /\ c_writes s' = c_writes s ++ ws.
Proof.
  intros Hok R Hrm Hroom Hk. cbv zeta. revert Hk.
  induction k as [|k IH]; intros Hk.
  - exists s. change (homes l 0) with (∅ : gset Z). rewrite difference_empty_L.
    split_and!; try done. cbn. by rewrite app_nil_r.
  - destruct IH as (s1 & Hs1 & R1 & Hsz1 & Hw1); [lia|].
    rewrite seq_S, for_each_app, Hs1. cbn [mbind result_bind for_each Nat.add].
    assert (Hbk : apply_view (inst_ws l v k) v (log_slot l k) = v (log_slot l k)).
    { apply view_apply_other. rewrite inst_ws_keys. intros (i & Hi & Heq).
      destruct (lok_home _ _ Hok i) as (_ & _ & Hnl); [lia|]. apply Hnl.
      pose proof (lok_size _ _ Hok). pose proof (lok_n _ _ Hok).
      unfold in_log, log_slot in *. lia. }
    assert (HszD : (size (D ∖ homes l k) <= size D)%nat) by (apply subseteq_size; set_solver).
    destruct (install_step_ok l s1 (apply_writes (inst_ws l v k) d)
                (apply_view (inst_ws l v k) v) (D ∖ homes l k) k) as (s2 & Hs2 & R2 & Hsz2 & Hw2);
      [by rewrite Hsz1 | lia | done | by apply homes_pinned_room | lia |].
    rewrite Hs2. cbn [mbind result_bind]. exists s2. rewrite Hbk in R2, Hw2.
    rewrite inst_ws_S, apply_writes_app, apply_view_app, homes_S.
    replace (D ∖ (homes l k ∪ {[blk l k]})) with (D ∖ homes l k ∖ {[blk l k]}) by set_solver.
    split_and!; [done | done | congruence |]. by rewrite Hw2, Hw1, app_assoc.
Qed.

Lemma write_log_ok l s d v D :
  log_ok l (c_size s) -> idle s d v D ->
  (forall i, (i < Z.to_nat (lh_n l))%nat -> blk l i ∈ D) ->
  (forall x, x ∈ D -> ~ in_log l x) -> (size D < NBUF)%nat ->
  let ws := log_ws l v (Z.to_nat (lh_n l)) in
  exists s', write_log l s = Ok s' /\ idle s' (apply_writes ws d) (apply_view ws v) D /\
    c_size s' = c_size s /\ c_writes s' = c_writes s ++ ws.
Proof. intros. by apply write_log_upto. Qed.

Lemma install_trans_ok l s d v D :
  log_ok l (c_size s) -> idle s d v D -> homes_pinned l D -> (size D < NBUF)%nat ->
  let ws := inst_ws l v (Z.to_nat (lh_n l)) in
  exists s', install_trans l s = Ok s' /\
    idle s' (apply_writes ws d) (apply_view ws v) (D ∖ homes l (Z.to_nat (lh_n l))) /\
    c_size s' = c_size s /\ c_writes s' = c_writes s ++ ws.
Proof. intros. by apply install_upto. Qed.

(** What [read_head] makes of a header block [b]. *)
Definition head_n (b : block) : Z := s32 (get32 b 0).
Definition head_blk (b : block) (i : nat) : Z := s32 (get32 b (4 + 4 * Z.of_nat i)).
Definition head_log (b : block) (l : logst) : logst :=
  set_lh (head_n b)
    (map (head_blk b) (upto (head_n b)) ++ drop (Z.to_nat (head_n b)) (lh_block l)) l.

Lemma read_head_loop b (bl : list Z) k :
  Z.of_nat k <= LOGSIZE -> length bl = Z.to_nat LOGSIZE ->
  for_each (read_head_step b) (seq 0 k) bl = Ok (map (head_blk b) (seq 0 k) ++ drop k bl).
Proof.
  intros Hk Hlen. change (Z.to_nat LOGSIZE) with 30%nat in Hlen.
  change LOGSIZE with 30 in Hk. revert Hk. induction k as [|k IH]; intros Hk; [done|].
  rewrite seq_S, for_each_app, IH by lia. cbn [mbind result_bind for_each Nat.add].
  unfold read_head_step. change LOGSIZE with 30.
  destruct (Z.leb_spec 30 (Z.of_nat k)); [lia|]. cbn [mbind result_bind].
  f_equal. rewrite map_app, <-app_assoc.
  rewrite insert_app_r_alt by (rewrite length_map, length_seq; lia).
  rewrite length_map, length_seq, Nat.sub_diag. f_equal. cbn [map app].
  destruct (drop k bl) as [|x rest] eqn:E.
  { apply (f_equal length) in E. rewrite length_drop in E. cbn in E. lia. }
  cbn. f_equal. rewrite <-(Nat.add_1_r k), <-drop_drop, E. done.
Qed.

Lemma read_head_ok l s d v D :
  idle s d v D -> lg_dev l = 1 -> 0 <= lg_start l < c_size s -> (size D < NBUF)%nat ->
  0 <= head_n (v (lg_start l)) <= LOGSIZE -> length (lh_block l) = Z.to_nat LOGSIZE ->
  exists s', read_head l s = Ok (head_log (v (lg_start l)) l, s') /\ idle s' d v D /\
    c_size s' = c_size s /\ c_writes s' = c_writes s.
Proof.
  intros R Hdev Hst HD Hn Hlen. unfold read_head. rewrite Hdev. pose proof law_cap as Hcap.
  destruct (law_bread s d v D ∅ ∅ (lg_start l) R) as (i & s1 & Hb1 & R1 & _ & Hs1 & Hw1).
  { lia. } { intros i. by rewrite lookup_empty. } { right. rewrite map_size_empty, Hcap. lia. }
  rewrite Hb1. cbn [mbind result_bind].
  assert (Hi : (<[i := lg_start l]> ∅ : gmap nat Z) !! i = Some (lg_start l)) by apply lookup_insert_eq.
  destruct (law_data _ _ _ _ _ _ i _ R1 Hi) as [-> _].
  unfold upto. rewrite read_head_loop; [|unfold head_n in Hn; lia|done]. cbn [mbind result_bind].
  destruct (law_brelse _ _ _ _ _ _ i _ R1 Hi) as (s2 & Hb2 & R2 & Hs2 & Hw2); [set_solver|].
  rewrite Hb2. cbn [mbind result_bind]. exists s2.
  rewrite delete_insert_eq, delete_id in R2 by apply lookup_empty.
  split_and!; [done | done | congruence | congruence].
Qed.

Lemma readsb_ok s d v D :
  idle s d v D -> 1 < c_size s -> (size D < NBUF)%nat ->
  exists sb s', readsb 1 s = Ok (sb, s') /\ idle s' d v D /\
    c_size s' = c_size s /\ c_writes s' = c_writes s /\
    sb_logstart sb = get32 (v 1) 16 /\ sb_nlog sb = get32 (v 1) 12.
Proof.
  intros R Hsz HD. unfold readsb. pose proof law_cap as Hcap.
  destruct (law_bread s d v D ∅ ∅ 1 R Hsz) as (i & s1 & Hb1 & R1 & _ & Hs1 & Hw1).
  { intros i. by rewrite lookup_empty. } { right. rewrite map_size_empty, Hcap. lia. }
  rewrite Hb1. cbn [mbind result_bind].
  assert (Hi : (<[i := 1]> ∅ : gmap nat Z) !! i = Some 1) by apply lookup_insert_eq.
  destruct (law_data _ _ _ _ _ _ i _ R1 Hi) as [-> _].
  destruct (law_brelse _ _ _ _ _ _ i _ R1 Hi) as (s2 & Hb2 & R2 & Hs2 & Hw2); [set_solver|].
  rewrite Hb2. cbn [mbind result_bind]. eexists _, s2.
  rewrite delete_insert_eq, delete_id in R2 by apply lookup_empty.
  split_and!; try done; congruence.
Qed.

(** Recovery of a disk whose log header is well formed. *)
Lemma recover_ok l s d v :
  idle s d v ∅ -> length (lh_block l) = Z.to_nat LOGSIZE ->
  let l1 := head_log (v (lg_start l)) l in
  let l2 := set_lh 0 (lh_block l1) l1 in
  log_ok l1 (c_size s) ->
  let ws := inst_ws l1 v (Z.to_nat (lh_n l1)) in
  exists s' h, recover_from_log l s = Ok (l2, s') /\ idle s' (apply_writes (ws ++ [(lg_start l, h)]) d)
    (apply_view (ws ++ [(lg_start l, h)]) v) ∅ /\ c_size s' = c_size s /\ head_n h = 0.
Proof.
  intros R Hlen l1 l2 Hok ws. unfold recover_from_log.
  pose proof (lok_dev _ _ Hok) as Hdev. pose proof (lok_start _ _ Hok) as Hst.
  pose proof (lok_n _ _ Hok) as Hn. pose proof (lok_size _ _ Hok) as Hlsz.
  pose proof (lok_disk _ _ Hok) as Hldk.
  assert (HE : (size (∅ : gset Z) < NBUF)%nat) by (rewrite size_empty; unfold NBUF; lia).
  destruct (read_head_ok l s d v ∅) as (s1 & H1 & R1 & Hs1 & Hw1); [done|done| |done|done|done|].
  { cbn in Hst, Hlsz, Hldk, Hn. lia. }
  rewrite H1. cbn [mbind result_bind]. fold l1.
  destruct (install_trans_ok l1 s1 d v ∅) as (s2 & H2 & R2 & Hs2 & Hw2);
    [by rewrite Hs1 | done | by left | done |].
  rewrite H2. cbn [mbind result_bind]. fold l2.
  replace (∅ ∖ homes l1 (Z.to_nat (lh_n l1))) with (∅ : gset Z) in R2 by set_solver.
  edestruct (write_head_ok l2 s2) as (s3 & H3 & R3 & Hs3 & Hw3); [exact R2|done| | |done|set_solver|].
  { cbn in Hst, Hlsz, Hldk, Hn |- *. lia. }
  { cbn. unfold LOGSIZE, MAXOPBLOCKS. lia. }
  rewrite H3. cbn [mbind result_bind]. eexists s3, _. split; [done|].
  rewrite apply_writes_app, apply_view_app. split; [exact R3|]. split; [congruence|].
  apply encode_head_n; [by eapply law_wf | cbn; lia].
Qed.

(** ** The writes of a commit *)

Definition home_ws (l : logst) (v : Z -> block) (k : nat) : list (Z * block) :=
  map (fun i => (blk l i, v (blk l i))) (seq 0 k).

Definition commit_head (l : logst) (v : Z -> block) : block := encode_head l (v (lg_start l)).
Definition clear_head (l : logst) (v : Z -> block) : block :=
  encode_head (set_lh 0 (lh_block l) l) (commit_head l v).

Definition commit_ws (l : logst) (v : Z -> block) : list (Z * block) :=
  let n := Z.to_nat (lh_n l) in
  log_ws l v n ++ (lg_start l, commit_head l v) ::
  home_ws l v n ++ [(lg_start l, clear_head l v)].

Lemma home_ws_keys l v k : (home_ws l v k).*1 = map (blk l) (seq 0 k).
Proof. unfold home_ws. induction (seq 0 k); cbn; congruence. Qed.

Lemma log_ws_NoDup l v k : NoDup (log_ws l v k).*1.
Proof.
  replace (log_ws l v k).*1 with (log_slot l <$> seq 0 k).
  - apply NoDup_fmap_2_strong; [|apply NoDup_seq]. intros x y _ _. unfold log_slot. lia.
  - unfold log_ws. induction (seq 0 k); cbn; congruence.
Qed.

Lemma view_apply_elem ws v n x :
  NoDup ws.*1 -> (n, x) ∈ ws -> apply_view ws v n = x.
Proof.
  revert v. induction ws as [|[m y] ws IH]; intros v Hnd Hin.
  - by apply not_elem_of_nil in Hin.
  - rewrite apply_view_cons. apply list.NoDup_cons in Hnd as [Hm Hnd].
    apply elem_of_cons in Hin as [[= -> ->]|Hin].
    + rewrite view_apply_other by done. by rewrite fn_lookup_insert.
    + by apply IH.
Qed.

Lemma log_ws_elem l v k i : (i < k)%nat -> (log_slot l i, v (blk l i)) ∈ log_ws l v k.
Proof. intros Hi. apply list_elem_of_In, in_map_iff. exists i. split; [done|]. apply in_seq. lia. Qed.

Lemma home_ws_elem l v k i : (i < k)%nat -> (blk l i, v (blk l i)) ∈ home_ws l v k.
Proof. intros Hi. apply list_elem_of_In, in_map_iff. exists i. split; [done|]. apply in_seq. lia. Qed.

(** A transaction ready to commit: the dirty blocks are the logged ones. *)
Record ready (l : logst) (D : gset Z) (sz : Z) : Prop := {
  rdy_ok : log_ok l sz;
  rdy_len : length (lh_block l) = Z.to_nat LOGSIZE;
  rdy_n : 0 < lh_n l < LOGSIZE;
  rdy_nodup : NoDup (map (blk l) (seq 0 (Z.to_nat (lh_n l))));
  rdy_dirty : D = homes l (Z.to_nat (lh_n l))
}.

Lemma homes_elem l k x : x ∈ homes l k <-> exists i, (i < k)%nat /\ x = blk l i.
Proof.
  unfold homes. rewrite elem_of_list_to_set, list_elem_of_In, in_map_iff. split.
  - intros (i & <- & Hi). apply in_seq in Hi. exists i. split; [lia|done].
  - intros (i & Hi & ->). exists i. split; [done|]. apply in_seq. lia.
Qed.

Lemma homes_size l k : (size (homes l k) <= k)%nat.
Proof.
  induction k as [|k IH]; [done|]. rewrite homes_S.
  pose proof (size_union_alt (homes l k) {[blk l k]}) as Hu.
  assert ((size ({[blk l k]} ∖ homes l k) <= 1)%nat).
  { rewrite <-(size_singleton (C := gset Z) (blk l k)). apply subseteq_size. set_solver. }
  rewrite Hu. lia.
Qed.

Lemma homes_not_log l sz x :
  log_ok l sz -> x ∈ homes l (Z.to_nat (lh_n l)) -> ~ in_log l x.
Proof. intros Hok (i & Hi & ->)%homes_elem. by apply (lok_home _ _ Hok). Qed.

Lemma slot_in_log l sz i : log_ok l sz -> (i < Z.to_nat (lh_n l))%nat -> in_log l (log_slot l i).
Proof.
  intros Hok Hi. pose proof (lok_size _ _ Hok). pose proof (lok_n _ _ Hok).
  unfold in_log, log_slot. lia.
Qed.

Lemma start_in_log l sz : log_ok l sz -> in_log l (lg_start l).
Proof. intros Hok. pose proof (lok_size _ _ Hok). pose proof (lok_n _ _ Hok). unfold in_log. lia. Qed.

Lemma log_ws_in_log l sz v x :
  log_ok l sz -> x ∈ (log_ws l v (Z.to_nat (lh_n l))).*1 -> in_log l x /\ x <> lg_start l.
Proof.
  intros Hok Hx. apply log_ws_keys in Hx. pose proof (lok_size _ _ Hok).
  pose proof (lok_n _ _ Hok). unfold in_log. lia.
Qed.

Lemma home_ws_in_homes l v x :
  x ∈ (home_ws l v (Z.to_nat (lh_n l))).*1 <-> x ∈ homes l (Z.to_nat (lh_n l)).
Proof. rewrite home_ws_keys. unfold homes. by rewrite elem_of_list_to_set. Qed.

Lemma ready_facts l D sz :
  ready l D sz ->
  (size D < NBUF)%nat /\ (forall x, x ∈ D -> ~ in_log l x) /\ homes_pinned l D /\
  (forall i, (i < Z.to_nat (lh_n l))%nat -> blk l i ∈ D) /\ 0 <= lg_start l < sz.
Proof.
  intros [Hok Hlen Hn Hnd HD].
  assert (Hin : forall i, (i < Z.to_nat (lh_n l))%nat -> blk l i ∈ D).
  { intros i Hi. subst D. apply homes_elem. eauto. }
  pose proof (lok_start _ _ Hok).
  split_and!; [| |by right|done| |].
  - subst D. pose proof (homes_size l (Z.to_nat (lh_n l))).
    unfold LOGSIZE, MAXOPBLOCKS in Hn. unfold NBUF. lia.
  - subst D. intros x. by apply homes_not_log with sz.
  - done.
  - pose proof (lok_disk _ _ Hok). pose proof (lok_size _ _ Hok). lia.
Qed.

(** The first half of a commit: the log and its header reach the disk. *)
Lemma commit_log_phase l s d v D :
  ready l D (c_size s) -> idle s d v D ->
  let ws := log_ws l v (Z.to_nat (lh_n l)) ++ [(lg_start l, commit_head l v)] in
  exists s1 s2, write_log l s = Ok s1 /\ write_head l s1 = Ok s2 /\
    idle s2 (apply_writes ws d) (apply_view ws v) D /\
    c_size s2 = c_size s /\ c_writes s2 = c_writes s ++ ws.
Proof.
  intros Hr R ws. destruct (ready_facts _ _ _ Hr) as (HszD & HDl & Hpin & Hin & Hst).
  destruct Hr as [Hok Hlen Hn Hnd HD]. pose proof (start_in_log _ _ Hok) as Hstl.
  destruct (write_log_ok l s d v D) as (s1 & H1 & R1 & Hs1 & Hw1); [done..|].
  assert (Hv1 : apply_view (log_ws l v (Z.to_nat (lh_n l))) v (lg_start l) = v (lg_start l)).
  { apply view_apply_other. intros Hx. by apply (log_ws_in_log l (c_size s)) in Hx as []. }
  edestruct (write_head_ok l s1) as (s2 & H2 & R2 & Hs2 & Hw2);
    [exact R1|apply Hok|by rewrite Hs1|lia|done|intros Hx; by apply (HDl _ Hx)|].
  rewrite Hv1 in R2, Hw2. fold (commit_head l v) in R2, Hw2.
  exists s1, s2. unfold ws. rewrite apply_writes_app, apply_view_app.
  split_and!; [done..|congruence|]. by rewrite Hw2, Hw1, app_assoc.
Qed.

(** The second half: the blocks are installed and the header cleared. *)
Lemma commit_install_phase l s d v v0 D :
  ready l D (c_size s) -> idle s d v0 D -> v0 (lg_start l) = commit_head l v ->
  (forall i, (i < Z.to_nat (lh_n l))%nat -> v0 (log_slot l i) = v (blk l i)) ->
  let ws := home_ws l v (Z.to_nat (lh_n l)) ++ [(lg_start l, clear_head l v)] in
  let l1 := set_lh 0 (lh_block l) l in
  exists s1 s2, install_trans l s = Ok s1 /\ write_head l1 s1 = Ok s2 /\
    idle s2 (apply_writes ws d) (apply_view ws v0) ∅ /\
    c_size s2 = c_size s /\ c_writes s2 = c_writes s ++ ws.
Proof.
  intros Hr R Hhd Hslots ws l1. destruct (ready_facts _ _ _ Hr) as (HszD & HDl & Hpin & Hin & Hst).
  destruct Hr as [Hok Hlen Hn Hnd HD]. pose proof (start_in_log _ _ Hok) as Hstl.
  destruct (install_trans_ok l s d v0 D) as (s1 & H1 & R1 & Hs1 & Hw1); [done..|].
  assert (Hws : inst_ws l v0 (Z.to_nat (lh_n l)) = home_ws l v (Z.to_nat (lh_n l))).
  { apply map_ext_in. intros i Hi. apply in_seq in Hi. f_equal. apply Hslots. lia. }
  rewrite Hws in R1, Hw1.
  replace (D ∖ homes l (Z.to_nat (lh_n l))) with (∅ : gset Z) in R1 by set_solver.
  edestruct (write_head_ok l1 s1) as (s2 & H2 & R2 & Hs2 & Hw2);
    [exact R1|apply Hok|by rewrite Hs1|cbn; unfold LOGSIZE, MAXOPBLOCKS; lia
    |rewrite size_empty; unfold NBUF; lia|set_solver|].
  rewrite view_apply_other in R2, Hw2
    by (intros Hx; apply home_ws_in_homes in Hx; by apply (homes_not_log _ _ _ Hok) in Hx).
  cbn [lg_start l1 set_lh] in R2, Hw2. rewrite Hhd in R2, Hw2. fold (clear_head l v) in R2, Hw2.
  exists s1, s2. unfold ws. rewrite apply_writes_app, apply_view_app.
  split_and!; [done..|congruence|]. by rewrite Hw2, Hw1, app_assoc.
Qed.

Lemma commit_ok l s d v D :
  ready l D (c_size s) -> idle s d v D ->
  exists s', commit l s = Ok (set_lh 0 (lh_block l) l, s') /\
    idle s' (apply_writes (commit_ws l v) d) (apply_view (commit_ws l v) v) ∅ /\
    c_size s' = c_size s /\ c_writes s' = c_writes s ++ commit_ws l v.
Proof.
  intros Hr R. pose proof Hr as [Hok Hlen Hn Hnd HD].
  destruct (commit_log_phase l s d v D Hr R) as (s1 & s2 & H1 & H2 & R2 & Hs2 & Hw2).
  set (ws := log_ws l v _ ++ _) in R2, Hw2.
  destruct (commit_install_phase l s2 (apply_writes ws d) v (apply_view ws v) D)
    as (s3 & s4 & H3 & H4 & R4 & Hs4 & Hw4); [by rewrite Hs2|exact R2| | |].
  - unfold ws. rewrite apply_view_app. apply fn_lookup_insert.
  - intros i Hi. unfold ws. rewrite apply_view_app, apply_view_cons.
    change (apply_view [] ?f) with f. rewrite fn_lookup_insert_ne by (unfold log_slot; lia).
    apply view_apply_elem; [apply log_ws_NoDup | by apply log_ws_elem].
  - unfold commit. destruct (Z.ltb_spec 0 (lh_n l)) as [_|?]; [|lia].
    rewrite H1. cbn [mbind result_bind]. rewrite H2. cbn [mbind result_bind].
    rewrite H3. cbn [mbind result_bind]. rewrite H4. cbn [mbind result_bind].
    exists s4. rewrite <-apply_writes_app, <-apply_view_app in R4. split; [done|].
    unfold ws in R4, Hw2. rewrite <-app_assoc in R4.
    split_and!; [exact R4|congruence|]. by rewrite Hw4, Hw2, <-!app_assoc.
Qed.

(** ** Crashes *)

(** The disk of a crash after the first [k] writes of a commit. *)
Definition crash_disk (l : logst) (v : Z -> block) (d : gmap Z block) (k : nat) : gmap Z block :=
  apply_writes (take k (commit_ws l v)) d.

Definition wf_disk (d : gmap Z block) : Prop := forall n, length (dread d n) = 512%nat.

Lemma apply_writes_wf ws d :
  wf_disk d -> (forall w, w ∈ ws -> length w.2 = 512%nat) -> wf_disk (apply_writes ws d).
Proof.
  revert d. induction ws as [|[n x] ws IH]; intros d Hd Hws; [done|].
  rewrite apply_writes_cons. apply IH; [|intros w Hw; apply Hws; by apply list_elem_of_further].
  intros m. rewrite dread_insert. case_decide; [|apply Hd].
  apply (Hws (n, x)). apply list_elem_of_here.
Qed.

Lemma commit_ws_wf l v w :
  lh_n l <= LOGSIZE -> (forall n, length (v n) = 512%nat) ->
  w ∈ commit_ws l v -> length w.2 = 512%nat.
Proof.
  intros Hn Hv Hw. unfold LOGSIZE, MAXOPBLOCKS in Hn.
  assert (Hc : length (commit_head l v) = 512%nat) by by apply encode_head_length.
  unfold commit_ws in Hw. rewrite elem_of_app, elem_of_cons, elem_of_app in Hw.
  destruct Hw as [Hw|[->|[Hw|Hw]]]; [|done| |].
  - apply list_elem_of_In, in_map_iff in Hw as (i & <- & _). apply Hv.
  - apply list_elem_of_In, in_map_iff in Hw as (i & <- & _). apply Hv.
  - apply elem_of_cons in Hw as [->|Hw]; [|by apply not_elem_of_nil in Hw].
    by apply encode_head_length.
Qed.

(** Where the crash may fall. *)
Lemma take_commit_ws l v k :
  let n := Z.to_nat (lh_n l) in
  (exists j, take k (commit_ws l v) = take j (log_ws l v n)) \/
  (exists j, take k (commit_ws l v) =
     log_ws l v n ++ (lg_start l, commit_head l v) :: take j (home_ws l v n)) \/
  take k (commit_ws l v) = commit_ws l v.
Proof.
  cbv zeta. unfold commit_ws.
  set (w1 := log_ws l v _). set (w3 := home_ws l v _).
  destruct (Nat.le_gt_cases k (length w1)) as [Hk|Hk].
  { left. exists k. rewrite take_app. replace (k - length w1)%nat with O by lia.
    rewrite take_0. by rewrite app_nil_r. }
  right. rewrite take_app, (take_ge w1) by lia.
  destruct (k - length w1)%nat as [|j] eqn:E; [lia|]. rewrite firstn_cons || cbn [take].
  destruct (Nat.le_gt_cases j (length w3)) as [Hj|Hj].
  - left. exists j. rewrite take_app. replace (j - length w3)%nat with O by lia.
    rewrite take_0. by rewrite app_nil_r.
  - right. do 2 f_equal. apply take_ge. rewrite length_app. cbn. lia.
Qed.

(** The log record [initlog] starts recovery with. *)
Definition boot_log (start size : Z) : logst :=
  mkLog start size 0 false 1 0 (replicate (Z.to_nat LOGSIZE) 0).

Lemma boot_ok d start size sz :
  wf_disk d -> 1 < sz -> s32 (get32 (dread d 1) 16) = start -> s32 (get32 (dread d 1) 12) = size ->
  let l1 := head_log (dread d start) (boot_log start size) in
  log_ok l1 sz ->
  exists l' s' h, initlog 1 log0 (c_init d sz : C) = Ok (l', s') /\ head_n h = 0 /\
    c_disk s' = apply_writes (inst_ws l1 (dread d) (Z.to_nat (lh_n l1)) ++ [(start, h)]) d.
Proof.
  intros Hwf Hsz Hs1 Hs2 l1 Hok. destruct (law_init d sz Hwf) as (R0 & Hsz0 & _).
  unfold initlog. change (BSIZE <=? 4 + 4 * LOGSIZE) with false. cbn iota.
  destruct (readsb_ok _ d _ ∅ R0) as (sb & s1 & H1 & R1 & Hz1 & _ & Hl & Hn);
    [by rewrite Hsz0 | rewrite size_empty; unfold NBUF; lia |].
  rewrite H1. cbn [mbind result_bind]. rewrite Hl, Hn, Hs1, Hs2.
  change (mkLog start size (outstanding log0) (committing log0) 1 (lh_n log0) (lh_block log0))
    with (boot_log start size).
  destruct (recover_ok (boot_log start size) s1 d (dread d) R1) as (s' & h & H2 & R2 & _ & Hh);
    [done | by rewrite Hz1, Hsz0 |].
  rewrite H2. eexists _, s', h. split_and!; [done|done|]. by rewrite (law_disk _ _ _ _ _ _ R2).
Qed.

(** The head of a header block with no transaction. *)
Lemma head_log_clean b start size sz :
  head_n b = 0 -> 0 <= start -> 0 < size -> start + size <= sz ->
  log_ok (head_log b (boot_log start size)) sz /\ lh_n (head_log b (boot_log start size)) = 0.
Proof.
  intros Hb Hst Hsz Hd. unfold head_log. rewrite Hb. split; [|done].
  constructor; cbn; try done; lia || (unfold LOGSIZE, MAXOPBLOCKS; lia) || idtac.
Qed.

(** Recovery of a disk without a committed transaction changes nothing
    outside the log. *)
Lemma clean_recovery d start size sz :
  wf_disk d -> 1 < sz -> s32 (get32 (dread d 1) 16) = start -> s32 (get32 (dread d 1) 12) = size ->
  head_n (dread d start) = 0 -> 0 <= start -> 0 < size -> start + size <= sz ->
  exists l' s', initlog 1 log0 (c_init d sz : C) = Ok (l', s') /\
    head_n (dread (c_disk s') start) = 0 /\
    forall x, ~ (start <= x < start + size) -> dread (c_disk s') x = dread d x.
Proof.
  intros Hwf Hsz Hs1 Hs2 Hh Hst Hsize Hd.
  destruct (head_log_clean _ _ _ sz Hh Hst Hsize Hd) as [Hok Hn0].
  destruct (boot_ok d start size sz Hwf Hsz Hs1 Hs2 Hok) as (l' & s' & h & H1 & Hh0 & Hdk).
  rewrite Hn0 in Hdk.
  change (c_disk s' = <[start := h]> d) in Hdk. exists l', s'. split_and!; [done| |].
  - by rewrite Hdk, dread_insert, decide_True.
  - intros x Hx. rewrite Hdk, dread_insert, decide_False; [done|lia].
Qed.

Lemma head_log_commit l v sz :
  log_ok l sz -> (forall n, length (v n) = 512%nat) ->
  let l1 := head_log (commit_head l v) (boot_log (lg_start l) (lg_size l)) in
  lh_n l1 = lh_n l /\ (forall i, (i < Z.to_nat (lh_n l))%nat -> blk l1 i = blk l i) /\ log_ok l1 sz.
Proof.
  intros Hok Hv l1. pose proof (lok_n _ _ Hok) as Hn.
  assert (Hn30 : 0 <= lh_n l <= 30) by (unfold LOGSIZE, MAXOPBLOCKS in Hn; lia).
  assert (E1 : lh_n l1 = lh_n l) by by apply encode_head_n.
  assert (E2 : forall i, (i < Z.to_nat (lh_n l))%nat -> blk l1 i = blk l i).
  { intros i Hi. unfold blk. cbn [l1 head_log set_lh lh_block].
    change (head_n (commit_head l v)) with (lh_n l1). rewrite E1. unfold upto.
    rewrite app_nth1 by (rewrite length_map, length_seq; lia).
    rewrite (nth_indep _ 0 (head_blk (commit_head l v) O)) by (rewrite length_map, length_seq; lia).
    rewrite map_nth, seq_nth by lia. cbn [Nat.add]. unfold head_blk, commit_head.
    rewrite encode_head_block by done. destruct (lok_home _ _ Hok i Hi). apply s32_small.
    fold (blk l i). lia. }
  split_and!; [done..|].
  destruct Hok as [Hdev Hst _ Hlsz Hldk Hhome]. constructor; rewrite ?E1; try done.
  intros i Hi. rewrite E2 by done. by apply Hhome.
Qed.

(** Recovery of a disk with a committed transaction installs it. *)
Lemma committed_recovery d l v sz :
  wf_disk d -> 1 < sz -> s32 (get32 (dread d 1) 16) = lg_start l ->
  s32 (get32 (dread d 1) 12) = lg_size l ->
  log_ok l sz -> NoDup (map (blk l) (seq 0 (Z.to_nat (lh_n l)))) ->
  (forall n, length (v n) = 512%nat) ->
  dread d (lg_start l) = commit_head l v ->
  (forall i, (i < Z.to_nat (lh_n l))%nat -> dread d (log_slot l i) = v (blk l i)) ->
  exists l' s', initlog 1 log0 (c_init d sz : C) = Ok (l', s') /\
    head_n (dread (c_disk s') (lg_start l)) = 0 /\
    forall x, ~ in_log l x -> dread (c_disk s') x =
      if decide (x ∈ homes l (Z.to_nat (lh_n l))) then v x else dread d x.
Proof.
  intros Hwf Hsz Hs1 Hs2 Hok Hnd Hv Hhd Hslot.
  destruct (head_log_commit l v sz Hok Hv) as (E1 & E2 & Hok1).
  pose proof (boot_ok d (lg_start l) (lg_size l) sz Hwf Hsz Hs1 Hs2) as Hboot.
  rewrite Hhd in Hboot. destruct (Hboot Hok1) as (l' & s' & h & H1 & Hh0 & Hdk). clear Hboot.
  set (l1 := head_log (commit_head l v) (boot_log (lg_start l) (lg_size l))) in *.
  assert (Hws : inst_ws l1 (dread d) (Z.to_nat (lh_n l1)) = home_ws l v (Z.to_nat (lh_n l))).
  { rewrite E1. apply map_ext_in. intros i Hi. apply in_seq in Hi. rewrite E2 by lia. f_equal.
    apply Hslot. lia. }
  rewrite Hws, apply_writes_app, apply_writes_cons in Hdk.
  change (apply_writes [] ?d) with d in Hdk. exists l', s'.
  split_and!; [done|by rewrite Hdk, dread_insert, decide_True|].
  intros x Hx. rewrite Hdk, dread_insert, decide_False by (intros <-; apply Hx; by apply (start_in_log l sz)).
  case_decide as Hin.
  - apply homes_elem in Hin as (i & Hi & ->).
    apply dread_apply_elem; [by rewrite home_ws_keys | by apply home_ws_elem].
  - apply dread_apply_other. by rewrite home_ws_in_homes.
Qed.

(** ** Crash atomicity against the cache interface *)

Section Crash.
Context (l : logst) (s : C) (d : gmap Z block) (v : Z -> block) (D : gset Z).
Hypothesis Hr : ready l D (c_size s).
Hypothesis R : idle s d v D.
Hypothesis Hclean : head_n (dread d (lg_start l)) = 0.
Hypothesis Hs1 : s32 (get32 (dread d 1) 16) = lg_start l.
Hypothesis Hs2 : s32 (get32 (dread d 1) 12) = lg_size l.
Hypothesis H1D : 1 ∉ D.
Hypothesis H1l : ~ in_log l 1.
Hypothesis Hsz : 1 < c_size s.

Local Notation n := (Z.to_nat (lh_n l)).

Lemma crash_wf k : wf_disk (crash_disk l v d k).
Proof.
  apply apply_writes_wf; [intros m; by eapply law_wf|]. intros w Hw.
  apply (commit_ws_wf l v); [apply Hr | intros m; by eapply law_wf |].
  apply elem_of_take in Hw as (i & Hi & _). by eapply list_elem_of_lookup_2.
Qed.

Lemma not_log_key x : ~ in_log l x -> x ∉ (log_ws l v n).*1.
Proof. intros Hx Hin. by apply (log_ws_in_log l (c_size s) v x (rdy_ok _ _ _ Hr)) in Hin as []. Qed.

Lemma view_outside x : x ∉ homes l n -> v x = dread d x.
Proof. intros Hx. eapply law_clean; [done|]. by rewrite (rdy_dirty _ _ _ Hr). Qed.

Lemma log_home x : in_log l x -> x ∉ homes l n.
Proof. intros Hx Hin. by apply (homes_not_log l (c_size s) x (rdy_ok _ _ _ Hr)) in Hin. Qed.

(** The commit reaches the disk only through the header write: a disk that
    holds part of the log is recovered to the old state. *)
Lemma crash_before j dk :
  wf_disk dk -> dk = apply_writes (take j (log_ws l v n)) d ->
  exists l' s', initlog 1 log0 (c_init dk (c_size s) : C) = Ok (l', s') /\
    head_n (dread (c_disk s') (lg_start l)) = 0 /\
    forall x, ~ in_log l x -> dread (c_disk s') x = dread d x.
Proof.
  intros Hwf ->. destruct (ready_facts _ _ _ Hr) as (_ & _ & _ & _ & Hst).
  assert (Hx : forall x, ~ in_log l x -> dread (apply_writes (take j (log_ws l v n)) d) x = dread d x).
  { intros x Hx. by apply dread_apply_take_other, not_log_key. }
  destruct (clean_recovery (apply_writes (take j (log_ws l v n)) d) (lg_start l) (lg_size l)
              (c_size s)) as (l' & s' & H1 & Hh & Hd); rewrite ?Hx by done; try done.
  - rewrite dread_apply_take_other; [done|]. intros Hin.
    by apply (log_ws_in_log l (c_size s) v _ (rdy_ok _ _ _ Hr)) in Hin as [].
  - lia.
  - pose proof (lok_size _ _ (rdy_ok _ _ _ Hr)). pose proof (lok_n _ _ (rdy_ok _ _ _ Hr)). lia.
  - apply (rdy_ok _ _ _ Hr).
  - exists l', s'. split_and!; [done..|]. intros x Hnl. rewrite Hd by done. by apply Hx.
Qed.

(** With the header on disk and any part of the home blocks installed,
    recovery finishes the transaction. *)
Lemma crash_between j dk :
  wf_disk dk ->
  dk = apply_writes (log_ws l v n ++ (lg_start l, commit_head l v) :: take j (home_ws l v n)) d ->
  exists l' s', initlog 1 log0 (c_init dk (c_size s) : C) = Ok (l', s') /\
    head_n (dread (c_disk s') (lg_start l)) = 0 /\
    forall x, ~ in_log l x -> dread (c_disk s') x = v x.
Proof.
  intros Hwf Hdk. pose proof (rdy_ok _ _ _ Hr) as Hok. pose proof (start_in_log _ _ Hok) as Hstl.
  rewrite apply_writes_app, apply_writes_cons in Hdk.
  assert (Hother : forall x, x ∉ homes l n -> dread dk x =
    dread (<[lg_start l := commit_head l v]> (apply_writes (log_ws l v n) d)) x).
  { intros x Hx. rewrite Hdk. apply dread_apply_take_other. by rewrite home_ws_in_homes. }
  assert (H1 : dread dk 1 = dread d 1).
  { rewrite Hother by by rewrite <-(rdy_dirty _ _ _ Hr).
    rewrite dread_insert, decide_False by (intros E; by rewrite E in Hstl).
    by apply dread_apply_other, not_log_key. }
  destruct (committed_recovery dk l v (c_size s)) as (l' & s' & Hi & Hh & Hd);
    rewrite ?H1; try done; [apply Hr|intros m; by eapply law_wf| | |].
  - rewrite Hother by by apply log_home. by rewrite dread_insert, decide_True.
  - intros i Hi. rewrite Hother by by apply log_home, (slot_in_log l (c_size s)).
    rewrite dread_insert, decide_False by (unfold log_slot; lia).
    apply dread_apply_elem; [apply log_ws_NoDup | by apply log_ws_elem].
  - exists l', s'. split_and!; [done..|]. intros x Hx. rewrite Hd by done.
    case_decide as Hin; [done|]. rewrite Hother by done.
    rewrite dread_insert, decide_False by (intros E; by rewrite E in Hstl).
    rewrite view_outside by done. by apply dread_apply_other, not_log_key.
Qed.

(** The disk after the whole commit. *)
Lemma commit_disk x :
  ~ in_log l x -> dread (apply_writes (commit_ws l v) d) x = v x.
Proof.
  intros Hx. pose proof (rdy_ok _ _ _ Hr) as Hok. pose proof (start_in_log _ _ Hok) as Hstl.
  assert (Hne : lg_start l <> x) by congruence.
  unfold commit_ws. cbv zeta. rewrite apply_writes_app, apply_writes_cons, apply_writes_app.
  rewrite apply_writes_cons. change (apply_writes [] ?d) with d.
  rewrite dread_insert, decide_False by done.
  destruct (decide (x ∈ homes l n)) as [Hin|Hin].
  - apply homes_elem in Hin as (i & Hi & ->).
    apply dread_apply_elem; [rewrite home_ws_keys; apply Hr | by apply home_ws_elem].
  - rewrite dread_apply_other by by rewrite home_ws_in_homes.
    rewrite dread_insert, decide_False by done. rewrite view_outside by done.
    by apply dread_apply_other, not_log_key.
Qed.

Lemma commit_disk_head : head_n (dread (apply_writes (commit_ws l v) d) (lg_start l)) = 0.
Proof.
  unfold commit_ws. cbv zeta. rewrite apply_writes_app, apply_writes_cons, apply_writes_app.
  rewrite apply_writes_cons. change (apply_writes [] ?d) with d.
  rewrite dread_insert, decide_True by done. apply encode_head_n; [|done].
  apply encode_head_length; [by eapply law_wf|].
  pose proof (rdy_n _ _ _ Hr). unfold LOGSIZE, MAXOPBLOCKS in *. lia.
Qed.

Lemma crash_after dk :
  wf_disk dk -> dk = apply_writes (commit_ws l v) d ->
  exists l' s', initlog 1 log0 (c_init dk (c_size s) : C) = Ok (l', s') /\
    head_n (dread (c_disk s') (lg_start l)) = 0 /\
    forall x, ~ in_log l x -> dread (c_disk s') x = v x.
Proof.
  intros Hwf ->. destruct (ready_facts _ _ _ Hr) as (_ & _ & _ & _ & Hst).
  assert (H1 : dread (apply_writes (commit_ws l v) d) 1 = dread d 1).
  { rewrite commit_disk by done. apply view_outside. by rewrite <-(rdy_dirty _ _ _ Hr). }
  destruct (clean_recovery (apply_writes (commit_ws l v) d) (lg_start l) (lg_size l) (c_size s))
    as (l' & s' & Hi & Hh & Hd); rewrite ?H1; try done.
  - apply commit_disk_head.
  - lia.
  - pose proof (lok_size _ _ (rdy_ok _ _ _ Hr)). pose proof (lok_n _ _ (rdy_ok _ _ _ Hr)). lia.
  - apply (rdy_ok _ _ _ Hr).
  - exists l', s'. split_and!; [done..|]. intros x Hx. rewrite Hd by done. by apply commit_disk.
Qed.

Lemma crash_atomic k :
  exists l' s', initlog 1 log0 (c_init (crash_disk l v d k) (c_size s) : C) = Ok (l', s') /\
    head_n (dread (c_disk s') (lg_start l)) = 0 /\
    ((forall x, ~ in_log l x -> dread (c_disk s') x = dread d x) \/
     (forall x, ~ in_log l x -> dread (c_disk s') x = v x)).
Proof.
  pose proof (crash_wf k) as Hwf. unfold crash_disk in *.
  destruct (take_commit_ws l v k) as [(j & Hj)|[(j & Hj)|Hj]]; rewrite Hj in *.
  - destruct (crash_before j _ Hwf eq_refl) as (l' & s' & ? & ? & ?). eauto 10.
  - destruct (crash_between j _ Hwf eq_refl) as (l' & s' & ? & ? & ?). eauto 10.
  - destruct (crash_after _ Hwf eq_refl) as (l' & s' & ? & ? & ?). eauto 10.
Qed.
End Crash.
End Specs.

(** ** Transactions *)

Definition logged (l : logst) : list Z := map (blk l) (seq 0 (Z.to_nat (lh_n l))).

Lemma logged_take l :
  (Z.to_nat (lh_n l) <= length (lh_block l))%nat -> logged l = take (Z.to_nat (lh_n l)) (lh_block l).
Proof.
  unfold logged, blk. generalize (lh_block l) as bl. generalize (Z.to_nat (lh_n l)) as k.
  intros k bl. revert bl. induction k as [|k IH]; intros bl Hk; [done|].
  destruct bl as [|x bl]; cbn in Hk; [lia|]. cbn. f_equal.
  rewrite <-seq_shift, map_map. cbn. apply IH. lia.
Qed.

(** The invariant of an open transaction: the logged blocks are distinct home
    blocks, and they are exactly the dirty blocks of the cache. *)
Record tx_inv (l : logst) (D : gset Z) (sz : Z) : Prop := {
  tx_ok : log_ok l sz;
  tx_len : length (lh_block l) = Z.to_nat LOGSIZE;
  tx_nodup : NoDup (logged l);
  tx_dirty : D = list_to_set (logged l)
}.

Lemma tx_logged l D sz :
  tx_inv l D sz -> logged l = take (Z.to_nat (lh_n l)) (lh_block l) /\
  forall x, x ∈ logged l -> u32 x = x.
Proof.
  intros [Hok Hlen Hnd HD]. pose proof (lok_n _ _ Hok) as Hn. split.
  - apply logged_take. rewrite Hlen. lia.
  - intros x Hx. apply list_elem_of_In, in_map_iff in Hx as (i & <- & Hi). apply in_seq in Hi.
    destruct (lok_home _ _ Hok i) as (? & ? & _); [lia|]. apply u32_small. lia.
Qed.

(** Log absorption: a block already logged keeps its slot. *)
Lemma log_absorbed l D sz bno :
  let n := Z.to_nat (lh_n l) in
  let i := absorb (lh_block l) n bno in
  tx_inv l D sz -> (i < n)%nat ->
  bno ∈ logged l /\ <[i := bno]> (lh_block l) = lh_block l.
Proof.
  intros n i Htx Hlt. destruct (tx_logged _ _ _ Htx) as [Hlk Hu].
  destruct Htx as [Hok Hlen _ _]. pose proof (lok_n _ _ Hok) as Hn.
  destruct (absorb_Some (lh_block l) n bno Hlt) as (x & Hx & Hxu); [unfold n; lia|].
  assert (Hxin : x ∈ logged l) by (rewrite Hlk; apply elem_of_take; eauto).
  rewrite Hu in Hxu by done. subst x. split; [done|]. by apply list_insert_id.
Qed.

(** A block not yet logged takes the next slot. *)
Lemma log_appended l D sz bno :
  let n := Z.to_nat (lh_n l) in
  let l' := set_lh (lh_n l + 1) (<[n := bno]> (lh_block l)) l in
  tx_inv l D sz -> absorb (lh_block l) n bno = n ->
  0 <= bno < sz -> bno < 2 ^ 31 -> ~ in_log l bno -> lh_n l < LOGSIZE -> lh_n l < lg_size l - 1 ->
  bno ∉ logged l /\ logged l' = logged l ++ [bno] /\ tx_inv l' (D ∪ {[bno]}) sz.
Proof.
  intros n l' Htx Habs Hb Hb31 Hnl Hn Hsz. destruct (tx_logged _ _ _ Htx) as [Hlk Hu].
  destruct Htx as [Hok Hlen Hnd HD]. pose proof (lok_n _ _ Hok) as Hn0.
  assert (Hlt : (n < length (lh_block l))%nat) by (unfold n; lia). fold n in Hlk.
  assert (Hnin : bno ∉ logged l).
  { intros Hin. pose proof (Hu _ Hin) as Hub. rewrite Hlk in Hin.
    exact (absorb_None _ _ _ Habs ltac:(lia) bno Hin Hub). }
  assert (Hlg : logged l' = logged l ++ [bno]).
  { rewrite logged_take by (cbn; rewrite length_insert; lia). cbn.
    replace (Z.to_nat (lh_n l + 1)) with (S n) by lia.
    rewrite (take_S_r _ _ bno) by (by apply list_lookup_insert_eq).
    by rewrite take_insert_ge, <-Hlk by lia. }
  split_and!; [done..|]. constructor.
  - destruct Hok as [? ? ? ? ? Hhome]. constructor; try done; cbn -[LOGSIZE]; [lia|lia|].
    intros i Hi. change (blk l' i) with (nth i (<[n := bno]> (lh_block l)) 0).
    rewrite nth_lookup_default. destruct (decide (i = n)) as [->|].
    + by rewrite list_lookup_insert_eq.
    + rewrite list_lookup_insert_ne by done. rewrite <-nth_lookup_default. apply Hhome. lia.
  - cbn. by rewrite length_insert.
  - rewrite Hlg. apply list.NoDup_app. split_and!; [done|set_solver|apply NoDup_singleton].
  - rewrite Hlg, list_to_set_app_L, HD. cbn. set_solver.
Qed.

Lemma log_record_spec l D sz bno :
  tx_inv l D sz -> 0 <= bno < sz -> bno < 2 ^ 31 -> ~ in_log l bno ->
  lh_n l < LOGSIZE -> lh_n l < lg_size l - 1 -> 1 <= outstanding l ->
  exists l', log_record bno l = Ok l' /\
    logged l' = (if decide (bno ∈ logged l) then logged l else logged l ++ [bno]) /\
    tx_inv l' (D ∪ {[bno]}) sz /\ outstanding l' = outstanding l /\
    lh_n l <= lh_n l' <= lh_n l + 1.
Proof.
  intros Htx Hb Hb31 Hnl Hn Hsz Ho. pose proof (lok_n _ _ (tx_ok _ _ _ Htx)) as Hn0.
  unfold log_record. destruct (Z.leb_spec LOGSIZE (lh_n l)); [lia|].
  destruct (Z.leb_spec (lg_size l - 1) (lh_n l)); [lia|]. cbn [orb].
  destruct (Z.ltb_spec (outstanding l) 1); [lia|].
  rewrite (s32_small bno) by lia.
  pose proof (absorb_le (lh_block l) (Z.to_nat (lh_n l)) bno) as Hle.
  destruct (Z.eqb_spec (Z.of_nat (absorb (lh_block l) (Z.to_nat (lh_n l)) bno)) (lh_n l)).
  - assert (Habs : absorb (lh_block l) (Z.to_nat (lh_n l)) bno = Z.to_nat (lh_n l)) by lia.
    destruct (log_appended l D sz bno Htx Habs) as (Hnin & Hlg & Htx'); [done..|].
    rewrite Habs. eexists. split; [done|]. rewrite decide_False by done.
    split_and!; [done..|cbn; lia|cbn; lia].
  - destruct (log_absorbed l D sz bno Htx) as [Hin ->]; [lia|].
    assert (Heta : set_lh (lh_n l) (lh_block l) l = l) by by destruct l. rewrite Heta.
    exists l. rewrite decide_True by done. split_and!; [done..| |done|lia|lia].
    replace (D ∪ {[bno]}) with D; [done|]. rewrite (tx_dirty _ _ _ Htx).
    assert (bno ∈ (list_to_set (logged l) : gset Z)) by by apply elem_of_list_to_set. set_solver.
Qed.

Lemma tx_ready l D sz : tx_inv l D sz -> 0 < lh_n l < LOGSIZE -> ready l D sz.
Proof. intros [Hok Hlen Hnd HD] Hn. by constructor. Qed.

(** ** Reservation of log space

    The system calls that run inside transactions, seen from the log: [bs] is
    the list of the active system calls, each with the number of blocks it may
    still log out of the [MAXOPBLOCKS] it is assumed never to exceed. *)

Section Reserve.
Context {C : Type} {ops : BufOps C}.

Inductive res_step : logst * list Z -> logst * list Z -> Prop :=
| rs_begin l bs l' :
    begin_op l = Ok l' -> res_step (l, bs) (l', MAXOPBLOCKS :: bs)
| rs_write l bs i b bno l' :
    bs !! i = Some b -> 0 < b -> log_record bno l = Ok l' ->
    res_step (l, bs) (l', <[i := b - 1]> bs)
| rs_end l bs i l' (s s' : C) :
    is_Some (bs !! i) -> end_op l s = Ok (l', s') -> res_step (l, bs) (l', delete i bs).

Definition res_inv (size : Z) (st : logst * list Z) : Prop :=
  let '(l, bs) := st in
  lg_size l = size /\ committing l = false /\ outstanding l = Z.of_nat (length bs) /\
  Forall (fun b => 0 <= b <= MAXOPBLOCKS) bs /\ 0 <= lh_n l /\ lh_n l + Zsum bs <= LOGSIZE.

Lemma Zsum_bound bs :
  Forall (fun b => 0 <= b <= MAXOPBLOCKS) bs -> 0 <= Zsum bs <= Z.of_nat (length bs) * MAXOPBLOCKS.
Proof.
  unfold MAXOPBLOCKS, Zsum. induction 1 as [|b bs Hb _ IH]; cbn [foldr length]; lia.
Qed.

Lemma log_record_n bno l l' :
  log_record bno l = Ok l' ->
  lg_size l' = lg_size l /\ committing l' = committing l /\ outstanding l' = outstanding l /\
  (lh_n l' = lh_n l \/ lh_n l' = lh_n l + 1).
Proof.
  unfold log_record. do 2 (case_match; [done|]). intros [= <-]. cbn.
  split_and!; try done. case_match; auto.
Qed.

Lemma end_op_n l (s s' : C) l' :
  end_op l s = Ok (l', s') ->
  lg_size l' = lg_size l /\ committing l' = false /\ outstanding l' = outstanding l - 1 /\
  (lh_n l' = lh_n l \/ lh_n l' = 0).
Proof.
  unfold end_op. cbn -[commit]. destruct (committing l) eqn:Hc; [done|].
  case_match; [|intros [= <- <-]; cbn; auto].
  intros ([l2 s2] & Hcm & [= <- <-])%result_bind_ok. unfold commit in Hcm. cbn in Hcm.
  case_match.
  - apply result_bind_ok in Hcm as (s1 & _ & Hcm). apply result_bind_ok in Hcm as (s3 & _ & Hcm).
    apply result_bind_ok in Hcm as (s4 & _ & Hcm). apply result_bind_ok in Hcm as (s5 & _ & Hcm).
    simplify_eq. cbn. auto.
  - simplify_eq. cbn. auto.
Qed.

Lemma res_step_inv size st st' : res_inv size st -> res_step st st' -> res_inv size st'.
Proof.
  intros Hinv Hstep.
  destruct Hstep as [l bs l' Hb|l bs i b bno l' Hi Hpos Hw|l bs i l' s s' [b Hi] He];
    destruct Hinv as (Hsz & Hc & Ho & Hf & Hn & Hsum); pose proof (Zsum_bound _ Hf) as Hbd.
  - unfold begin_op in Hb. rewrite Hc in Hb.
    destruct (Z.ltb_spec LOGSIZE (lh_n l + (outstanding l + 1) * MAXOPBLOCKS)); [done|].
    injection Hb as <-. cbn. split_and!; try done; [lia| |].
    + constructor; [unfold MAXOPBLOCKS; lia|done].
    + unfold MAXOPBLOCKS in *. unfold Zsum in *. lia.
  - apply log_record_n in Hw as (Hsz' & Hc' & Ho' & Hn'). cbn.
    rewrite (Zsum_insert _ _ b) by done. rewrite length_insert.
    split_and!; try congruence; try lia.
    apply Forall_insert; [done|]. rewrite Forall_forall in Hf.
    assert (0 <= b <= MAXOPBLOCKS); [|lia].
    apply Hf. by eapply list_elem_of_lookup_2.
  - apply end_op_n in He as (Hsz' & Hc' & Ho' & Hn'). cbn.
    pose proof (lookup_lt_Some _ _ _ Hi). rewrite (Zsum_delete _ _ b) by done.
    rewrite length_delete by done.
    assert (0 <= b <= MAXOPBLOCKS).
    { rewrite Forall_forall in Hf. apply Hf. by eapply list_elem_of_lookup_2. }
    split_and!; try congruence; try lia. by apply Forall_delete.
Qed.

(** Scripts of begins and writes, to exhibit reachable states. *)
Inductive move := MBegin | MWrite (i : nat) (bno : Z).

Definition run_move (m : move) (st : logst * list Z) : option (logst * list Z) :=
  let '(l, bs) := st in
  match m with
  | MBegin => match begin_op l with Ok l' => Some (l', MAXOPBLOCKS :: bs) | _ => None end
  | MWrite i bno =>
      match bs !! i with
      | Some b =>
          if 0 <? b then
            match log_record bno l with Ok l' => Some (l', <[i := b - 1]> bs) | _ => None end
          else None
      | None => None
      end
  end.

Fixpoint run_moves (ms : list move) (st : logst * list Z) : option (logst * list Z) :=
  match ms with
  | [] => Some st
  | m :: ms' => st' ← run_move m st; run_moves ms' st'
  end.

Lemma run_moves_sound ms st st' : run_moves ms st = Some st' -> rtc res_step st st'.
Proof.
  revert st. induction ms as [|m ms IH]; intros st Hrun; cbn in Hrun.
  - by simplify_eq.
  - apply bind_Some in Hrun as (st1 & H1 & H2). eapply rtc_l; [|by apply IH].
    destruct st as [l bs], m as [|i bno]; cbn in H1.
    + destruct (begin_op l) eqn:E; simplify_eq. by constructor.
    + destruct (bs !! i) as [b|] eqn:Eb; [|done]. destruct (Z.ltb_spec 0 b); [|done].
      destruct (log_record bno l) eqn:E; simplify_eq. by eapply rs_write.
Qed.

End Reserve.

(** ** Theorems *)

(** C1: crash atomicity.  A transaction is ready to commit when the blocks
    recorded in the log are distinct home blocks outside the log and are
    exactly the dirty blocks of the cache.  Then [commit] succeeds, and
    whatever number [k] of the disk writes it performs a crash lets through,
    the boot-time recovery ([initlog]) of the resulting disk returns without
    panicking, clears the log, and leaves all blocks outside the log either as
    they were before the commit or as the transaction left them: never a
    mixture; after all of the writes it is the latter. *)
Theorem commit_crash_atomic pid l s d v D :
  ready l D (disksize s) -> rep pid s d v D ∅ ∅ ->
  head_n (dread d (lg_start l)) = 0 ->
  s32 (get32 (dread d 1) 16) = lg_start l -> s32 (get32 (dread d 1) 12) = lg_size l ->
  1 ∉ D -> ~ in_log l 1 -> 1 < disksize s ->
  exists l1 s1, commit (ops := bio_ops pid) l s = Ok (l1, s1) /\
    (forall x, ~ in_log l x -> dread (disk s1) x = v x) /\
    let ws := drop (length (writes s)) (writes s1) in
    disk s1 = apply_writes ws d /\
    forall k, exists l' s',
      initlog (ops := bio_ops pid) 1 log0 (binit (apply_writes (take k ws) d) (disksize s)) = Ok (l', s') /\
      head_n (dread (disk s') (lg_start l)) = 0 /\
      ((forall x, ~ in_log l x -> dread (disk s') x = dread d x) \/
       (forall x, ~ in_log l x -> dread (disk s') x = v x)).
Proof.
  intros Hr R Hclean Hs1 Hs2 H1D H1l Hsz.
  destruct (@commit_ok bio (bio_ops pid) (bio_laws pid) l s d v D Hr R) as (s' & Hc & R' & _ & Hw).
  pose proof (rep_disk _ _ _ _ _ _ _ R') as Hd. cbn in Hw.
  eexists _, s'. split; [exact Hc|]. rewrite Hd, Hw, drop_app_length. split; [|split; [done|]].
  - exact (@commit_disk bio (bio_ops pid) (bio_laws pid) l s d v D Hr R).
  - intros k. by apply (@crash_atomic bio (bio_ops pid) (bio_laws pid) l s d v D).
Qed.

(** C2: a commit always succeeds and is durable.  With at most 29 logged
    blocks [commit] never runs out of buffers and never panics; its disk
    writes are exactly the sequence "log blocks, header, home blocks, cleared
    header", after which every block outside the log holds its logical
    contents, no buffer is dirty and the log is empty. *)
Theorem commit_durable pid l s d v D :
  ready l D (disksize s) -> rep pid s d v D ∅ ∅ ->
  exists s', commit (ops := bio_ops pid) l s = Ok (set_lh 0 (lh_block l) l, s') /\
    writes s' = writes s ++ commit_ws l v /\
    rep pid s' (disk s') (apply_view (commit_ws l v) v) ∅ ∅ ∅ /\
    head_n (dread (disk s') (lg_start l)) = 0 /\
    forall x, ~ in_log l x -> dread (disk s') x = v x.
Proof.
  intros Hr R.
  destruct (@commit_ok bio (bio_ops pid) (bio_laws pid) l s d v D Hr R) as (s' & Hc & R' & _ & Hw).
  exists s'. pose proof (rep_disk _ _ _ _ _ _ _ R') as Hd. cbn in Hw. rewrite Hd.
  split_and!; [done..| |].
  - exact (@commit_disk_head bio (bio_ops pid) (bio_laws pid) l s d v D Hr R).
  - exact (@commit_disk bio (bio_ops pid) (bio_laws pid) l s d v D Hr R).
Qed.

(** C3: [log_write] keeps the transaction consistent.  It records the block
    of the buffer it is given (absorbing a block already recorded: the list
    of logged blocks has no duplicates and grows by at most that block) and
    pins the buffer, so that the logged blocks stay exactly the dirty blocks
    of the cache. *)
Theorem log_write_invariant pid l s d v D T H i n :
  tx_inv l D (disksize s) -> rep pid s d v D T H -> H !! i = Some n ->
  0 <= n < disksize s -> n < 2 ^ 31 -> ~ in_log l n ->
  lh_n l < LOGSIZE -> lh_n l < lg_size l - 1 -> 1 <= outstanding l ->
  exists l' s', log_write (ops := bio_ops pid) i l s = Ok (l', s') /\
    logged l' = (if decide (n ∈ logged l) then logged l else logged l ++ [n]) /\
    tx_inv l' (D ∪ {[n]}) (disksize s') /\ rep pid s' d v (D ∪ {[n]}) (T ∖ {[n]}) H.
Proof.
  intros Htx R Hh Hn Hn31 Hnl HnL Hsz Ho.
  destruct (log_record_spec l D (disksize s) n) as (l' & Hrec & Hlg & Htx' & _); [done..|].
  destruct (law_data (BufLaws := bio_laws pid) _ _ _ _ _ _ i n R Hh) as [_ Hbn].
  unfold log_write. rewrite Hbn, Hrec. cbn [mbind result_bind].
  eexists l', _. split_and!; [done..|]. by apply bpin_ok.
Qed.

(** C4: the reservation of [begin_op] is sufficient when the log region has
    more than [LOGSIZE] blocks: in every state reachable by system calls that
    each log at most [MAXOPBLOCKS] blocks, a system call that has not used up
    its blocks never makes [log_write] panic. *)
Theorem reservation_sufficient {C} {ops : BufOps C} l0 l bs i b bno :
  LOGSIZE < lg_size l0 -> committing l0 = false -> outstanding l0 = 0 -> lh_n l0 = 0 ->
  rtc (res_step (C := C)) (l0, []) (l, bs) -> bs !! i = Some b -> 0 < b ->
  exists l', log_record bno l = Ok l'.
Proof.
  intros Hsz Hc Ho Hn Hreach Hi Hb.
  assert (Hinv : res_inv (lg_size l0) (l, bs)).
  { eapply (rtc_ind_r (res_inv (lg_size l0)) (l0, [])); [| |done].
    - unfold res_inv. split_and!; try done; by rewrite Hn.
    - intros st1 st2 _ Hstep HI. by eapply res_step_inv. }
  destruct Hinv as (Hs & _ & Hout & Hf & Hn0 & Hsum).
  assert (Hle : b <= Zsum bs).
  { pose proof (Zsum_bound (delete i bs) ltac:(by apply Forall_delete)) as Hd.
    rewrite (Zsum_delete _ _ b) in Hd by done. lia. }
  pose proof (lookup_lt_Some _ _ _ Hi).
  unfold log_record. destruct (Z.leb_spec LOGSIZE (lh_n l)); [lia|].
  destruct (Z.leb_spec (lg_size l - 1) (lh_n l)); [lia|]. cbn [orb].
  destruct (Z.ltb_spec (outstanding l) 1); [lia|]. eauto.
Qed.

(** A log with a region of [size] blocks at block 2, as [mkfs] lays it out. *)
Definition demo_log (size : Z) : logst :=
  mkLog 2 size 0 false 1 0 (replicate (Z.to_nat LOGSIZE) 0).

Definition writes_of (i : nat) (bnos : list Z) : list move := map (MWrite i) bnos.

(** Three system calls that log 10, 10 and 9 distinct blocks. *)
Definition three_calls : list move :=
  [MBegin; MBegin; MBegin] ++ writes_of 0 (seqZ 100 10) ++ writes_of 1 (seqZ 200 10)
  ++ writes_of 2 (seqZ 300 9).

Lemma reservation_sufficient_witness :
  exists l bs l', run_moves three_calls (demo_log 31, []) = Some (l, bs) /\
    log_record 400 l = Ok l' /\ lh_n l = 29.
Proof.
  destruct (run_moves three_calls (demo_log 31, [])) as [[l bs]|] eqn:E; [|by vm_compute in E].
  assert (Hb : bs !! 2%nat = Some 1 /\ lh_n l = 29).
  { vm_compute in E. injection E as <- <-. done. }
  destruct Hb as [Hb Hn].
  destruct (reservation_sufficient (ops := bio_ops 1) (demo_log 31) l bs 2 1 400) as [l' Hl'];
    [vm_compute; reflexivity|reflexivity|reflexivity|reflexivity| |exact Hb|lia|].
  - apply (run_moves_sound three_calls). exact E.
  - exists l, bs, l'. split_and!; [reflexivity | exact Hl' | exact Hn].
Defined.

(** The reservation is NOT sufficient for the log that [mkfs] makes.
    [mkfs.c] reserves [nlog = LOGSIZE] blocks, header included, so that
    [log_write] refuses the 30th block ([log.lh.n >= log.size - 1]) although
    [begin_op] admitted three system calls of ten blocks each: there is a
    reachable state in which a system call that has logged only nine of its
    ten blocks makes the kernel panic. *)
Lemma reservation_overflow :
  exists l bs, rtc (res_step (ops := bio_ops 1)) (demo_log LOGSIZE, []) (l, bs) /\
    bs !! 2%nat = Some 1 /\ log_record 400 l = Panic "too big a transaction".
Proof.
  destruct (run_moves three_calls (demo_log LOGSIZE, [])) as [[l bs]|] eqn:E;
    [|by vm_compute in E].
  exists l, bs. split; [by apply (run_moves_sound three_calls)|].
  vm_compute in E. injection E as <- <-. done.
Qed.

(** ** A concrete transaction *)

(** A small disk: the super block says that the log is the 4 blocks from 2. *)
Definition boot_disk : gmap Z block :=
  {[ 1 := put32 (put32 zeroes 16 2) 12 4; 10 := replicate 512 1 ]}.

Lemma boot_disk_wf n : length (dread boot_disk n) = 512%nat.
Proof.
  unfold boot_disk. change ({[ 1 := ?a; 10 := ?b ]} : gmap Z block) with (<[1 := a]> ({[ 10 := b ]} : gmap Z block)).
  rewrite dread_insert. case_decide; [by vm_compute|].
  unfold dread. destruct (decide (10 = n)) as [<-|].
  - by rewrite lookup_singleton_eq.
  - by rewrite lookup_singleton_ne.
Defined.

Definition new_block : block := replicate 512 7.
Definition tx_view : Z -> block := <[10 := new_block]> (dread boot_disk).
Definition tx_log : logst := mkLog 2 4 1 false 1 1 (10 :: replicate 29 0).

Lemma boot_rep : rep 1 (binit boot_disk 20) boot_disk (dread boot_disk) ∅ ∅ ∅.
Proof. apply binit_rep, boot_disk_wf. Qed.

(** The cache after block 10 was modified, pinned and released. *)
Lemma tx_state : exists s, disksize s = 20 /\ rep 1 s boot_disk tx_view {[10]} ∅ ∅.
Proof.
  destruct (bread_ok (binit boot_disk 20) 10 boot_rep) as (i & s1 & _ & R1 & _ & _ & Hz1 & _).
  { done. } { intros i. by rewrite lookup_empty. } { right. vm_compute. lia. }
  assert (Hi : (<[i := 10]> ∅ : gmap nat Z) !! i = Some 10) by apply lookup_insert_eq.
  pose proof (bset_ok s1 i 10 new_block R1 Hi eq_refl) as R2.
  pose proof (bpin_ok _ i 10 R2 Hi) as R3.
  replace (∅ ∪ {[10]}) with ({[10]} : gset Z) in R3 by set_solver.
  replace ({[10]} ∖ {[10]}) with (∅ : gset Z) in R3 by set_solver.
  destruct (brelse_ok _ i 10 R3 Hi) as (s4 & _ & R4 & Hz4 & _); [set_solver|].
  rewrite delete_insert_eq, delete_id in R4 by apply lookup_empty.
  exists s4. split; [|exact R4]. by rewrite Hz4.
Qed.

Lemma tx_log_ok : log_ok tx_log 20.
Proof.
  constructor; cbn -[LOGSIZE Z.to_nat]; [done|lia|unfold LOGSIZE, MAXOPBLOCKS; lia|lia|lia|].
  intros [|i] Hi; [|lia]. unfold in_log. cbn. lia.
Qed.

Lemma tx_log_ready : ready tx_log {[10]} 20.
Proof.
  constructor; [apply tx_log_ok | done | cbn; unfold LOGSIZE, MAXOPBLOCKS; lia | apply NoDup_singleton |].
  by vm_compute.
Qed.

Lemma commit_crash_atomic_witness :
  exists s l1 s1 l' s', rep 1 s boot_disk tx_view {[10]} ∅ ∅ /\
    commit (ops := bio_ops 1) tx_log s = Ok (l1, s1) /\
    initlog (ops := bio_ops 1) 1 log0
      (binit (apply_writes (take 2 (drop (length (writes s)) (writes s1))) boot_disk) 20) = Ok (l', s') /\
    (dread (disk s') 10 = replicate 512 1 \/ dread (disk s') 10 = new_block).
Proof.
  destruct tx_state as (s & Hz & R). pose proof tx_log_ready as Hr. rewrite <-Hz in Hr.
  destruct (commit_crash_atomic 1 tx_log s boot_disk tx_view {[10]} Hr R)
    as (l1 & s1 & Hc & _ & _ & Hk);
    [vm_compute; reflexivity|vm_compute; reflexivity|vm_compute; reflexivity
    |by vm_compute|unfold in_log; cbn; lia|rewrite Hz; lia|].
  destruct (Hk 2%nat) as (l' & s' & Hi & _ & Hor).
  rewrite Hz in Hi. exists s, l1, s1, l', s'. split; [exact R|]. split; [exact Hc|]. split; [exact Hi|].
  destruct Hor as [Ho|Hn]; [left|right].
  - rewrite Ho by (unfold in_log; cbn; lia). reflexivity.
  - rewrite Hn by (unfold in_log; cbn; lia). reflexivity.
Defined.

Lemma commit_durable_witness :
  exists s s', rep 1 s boot_disk tx_view {[10]} ∅ ∅ /\
    commit (ops := bio_ops 1) tx_log s = Ok (set_lh 0 (lh_block tx_log) tx_log, s') /\
    dread (disk s') 10 = new_block.
Proof.
  destruct tx_state as (s & Hz & R). pose proof tx_log_ready as Hr. rewrite <-Hz in Hr.
  destruct (commit_durable 1 tx_log s boot_disk tx_view {[10]} Hr R)
    as (s' & Hc & _ & _ & _ & Hd).
  exists s, s'. split_and!; [exact R | exact Hc |].
  rewrite Hd by (unfold in_log; cbn; lia). reflexivity.
Defined.

Lemma log_write_invariant_witness :
  exists i s1 l' s', bread 1 1 10 (binit boot_disk 20) = Ok (i, s1) /\
    log_write (ops := bio_ops 1) i (set_outstanding 1 (demo_log 4)) s1 = Ok (l', s') /\
    logged l' = [10].
Proof.
  destruct (bread_ok (binit boot_disk 20) 10 boot_rep) as (i & s1 & Hb & R1 & _ & _ & Hz1 & _).
  { done. } { intros i. by rewrite lookup_empty. } { right. vm_compute. lia. }
  assert (Htx : tx_inv (set_outstanding 1 (demo_log 4)) ∅ (disksize s1)).
  { rewrite Hz1. constructor; [|done|apply NoDup_nil_2|done].
    constructor; cbn -[LOGSIZE Z.to_nat]; [done|lia|unfold LOGSIZE, MAXOPBLOCKS; lia|lia|lia|lia]. }
  destruct (log_write_invariant 1 (set_outstanding 1 (demo_log 4)) s1 boot_disk
              (dread boot_disk) ∅ ∅ (<[i := 10]> ∅) i 10 Htx R1)
    as (l' & s' & Hl & Hlg & _);
    [apply lookup_insert_eq | rewrite Hz1; cbn; lia | lia | unfold in_log; cbn; lia
    | cbn; unfold LOGSIZE, MAXOPBLOCKS; lia | cbn; lia | cbn; lia |].
  exists i, s1, l', s'. split_and!; [exact Hb | exact Hl |].
  rewrite Hlg. reflexivity.
Defined.
