(* ===== verification/MergeSort.v ===== *)
(** The sorting routines of [parallel-sort/mergesort.c].

    An [Elem] is its 100 bytes; the key is the [int] in the first four.  An
    array is a list of elements, indexed by the C indices ([Z]); a pointer
    [arr + l] is the list with the offset added to the indices.  A loop is a
    [Fixpoint] on fuel, started with at least as much fuel as the loop can
    turn; the fuel bound of the recursive routines is the length of the range.

    A routine that fills an array it does not read ([merge_serial_2],
    [merge_parallel_aux], the copies) is modelled by its trace of stores
    [(index, element)]; the array after the call is the trace applied to the
    array before it.  The threads of one call store to disjoint indices and
    read what nobody writes, so that every interleaving of their stores is a
    permutation of the trace; [merge_parallel_schedule] shows that the order
    is irrelevant.

    The theorems: under the assumption that the comparison does not overflow,
    the serial sorts all compute the one stable sort of their input; the
    parallel sort keeps the elements and is correct up to 32 elements, but not
    beyond, because [find_split_point] never returns the end of the range. *)

From Stdlib Require Import Sorted.
From S2P Require Import Prelude Block.

(** ** Data *)

Definition ELEM_MAX_LEN : Z := 100.
Definition MIN_THREAD_ELEM : Z := 16.

Abbreviation elem := (list Z) (only parsing).

Definition elem0 : elem := replicate 100 0.

Definition aget (a : list elem) (i : Z) : elem := nth (Z.to_nat i) a elem0.

(** ** Operations *)

Definition key (e : elem) : Z := s32 (get32 e 0).

(** [*((int * ) a) - *((int * ) b)], with the wrap-around of the hardware. *)
Definition compare_elem (a b : elem) : Z := s32 (key a - key b).

(** [copy_elem] copies all the bytes: the element itself. *)
Definition copy_elem (src : elem) : elem := src.

(** A trace of stores applied to an array. *)
Definition aset (a : list elem) (i : Z) (e : elem) : list elem :=
  if 0 <=? i then <[Z.to_nat i := e]> a else a.
Definition stores (t : list (Z * elem)) (a : list elem) : list elem :=
  foldl (fun a w => aset a w.1 w.2) a t.

(** *** Insertion sort *)

(** The inner loop: shift the elements greater than [temp] up by one. *)
Fixpoint ins_loop (fuel : nat) (arr : list elem) (base j : Z) (temp : elem) : list elem * Z :=
  match fuel with
  | O => (arr, j)
  | S f =>
      if (0 <=? j) && (0 <? compare_elem (aget arr (base + j)) temp)
      then ins_loop f (aset arr (base + (j + 1)) (copy_elem (aget arr (base + j)))) base (j - 1) temp
      else (arr, j)
  end.

Definition ins_step (base : Z) (arr : list elem) (i : nat) : list elem :=
  let temp := copy_elem (aget arr (base + Z.of_nat i)) in
  let '(arr1, j) := ins_loop (S i) arr base (Z.of_nat i - 1) temp in
  aset arr1 (base + (j + 1)) (copy_elem temp).

(** [insertion_sort(arr + base, n)] *)
Definition insertion_sort (arr : list elem) (base n : Z) : list elem :=
  foldl (ins_step base) arr (seq 1 (Z.to_nat (n - 1))).

(** *** Bubble sort *)

Definition bubble_step (arr : list elem) (i : nat) : list elem :=
  let i := Z.of_nat i in
  if 0 <? compare_elem (aget arr i) (aget arr (i + 1)) then
    let temp := copy_elem (aget arr i) in
    aset (aset arr i (copy_elem (aget arr (i + 1)))) (i + 1) (copy_elem temp)
  else arr.

Definition bubble_pass (n : Z) (arr : list elem) (j : nat) : list elem :=
  foldl bubble_step arr (seq 0 (Z.to_nat (n - Z.of_nat j - 1))).

Definition bubble_sort_elem (arr : list elem) (n : Z) : list elem :=
  foldl (bubble_pass n) arr (seq 0 (Z.to_nat (n - 1))).

(** *** Merging *)

(** The loop "copy the smaller element": [A1[o1 + i]] and [A2[o2 + j]] are
    compared, [k] is the index stored to.  Result: the stores, [i], [j], [k]. *)
Fixpoint merge_loop (fuel : nat) (A1 : list elem) (o1 n1 : Z) (A2 : list elem) (o2 n2 : Z)
    (i j k : Z) : list (Z * elem) * Z * Z * Z :=
  match fuel with
  | O => ([], i, j, k)
  | S f =>
      if (i <? n1) && (j <? n2) then
        let a := aget A1 (o1 + i) in
        let b := aget A2 (o2 + j) in
        if compare_elem a b <=? 0 then
          let '(t, i', j', k') := merge_loop f A1 o1 n1 A2 o2 n2 (i + 1) j (k + 1) in
          ((k, copy_elem a) :: t, i', j', k')
        else
          let '(t, i', j', k') := merge_loop f A1 o1 n1 A2 o2 n2 i (j + 1) (k + 1) in
          ((k, copy_elem b) :: t, i', j', k')
      else ([], i, j, k)
  end.

(** The loops "copy remaining". *)
Fixpoint rest_loop (fuel : nat) (A : list elem) (o n i k : Z) : list (Z * elem) * Z :=
  match fuel with
  | O => ([], k)
  | S f =>
      if i <? n then
        let '(t, k') := rest_loop f A o n (i + 1) (k + 1) in
        ((k, copy_elem (aget A (o + i))) :: t, k')
      else ([], k)
  end.

Definition merge_trace (A1 : list elem) (o1 n1 : Z) (A2 : list elem) (o2 n2 k0 : Z) : list (Z * elem) :=
  let '(t1, i, j, k) := merge_loop (Z.to_nat n1 + Z.to_nat n2) A1 o1 n1 A2 o2 n2 0 0 k0 in
  let '(t2, k2) := rest_loop (Z.to_nat n1) A1 o1 n1 i k in
  let '(t3, _) := rest_loop (Z.to_nat n2) A2 o2 n2 j k2 in
  t1 ++ t2 ++ t3.

(** [L = A[p..q]], [R = A[q+1..r]], merged back into [A]. *)
Definition merge_serial (arr : list elem) (p q r : Z) : list elem :=
  let n1 := q - p + 1 in
  let n2 := r - q in
  let L := map (fun i => copy_elem (aget arr (p + i))) (seqZ 0 n1) in
  let R := map (fun j => copy_elem (aget arr (q + 1 + j))) (seqZ 0 n2) in
  stores (merge_trace L 0 n1 R 0 n2 p) arr.

(** The stores of [merge_serial_2] into [B]. *)
Definition merge_serial_2 (arr : list elem) (l1 r1 l2 r2 start : Z) : list (Z * elem) :=
  merge_trace arr l1 (r1 - l1 + 1) arr l2 (r2 - l2 + 1) start.

(** *** Serial merge sort *)

Fixpoint merge_sort_serial (fuel : nat) (arr : list elem) (l r : Z) : list elem :=
  match fuel with
  | O => arr
  | S f =>
      if l <? r then
        let m := l + (r - l) / 2 in
        let a1 := merge_sort_serial f arr l m in
        let a2 := merge_sort_serial f a1 (m + 1) r in
        merge_serial a2 l m r
      else arr
  end.

(** *** Parallel merge sort *)

Fixpoint find_split_loop (fuel : nat) (arr : list elem) (low high : Z) (p : elem) : Z :=
  match fuel with
  | O => low
  | S f =>
      if low <? high then
        let mid := low + (high - low) / 2 in
        if compare_elem p (aget arr mid) <=? 0
        then find_split_loop f arr low mid p
        else find_split_loop f arr (mid + 1) high p
      else low
  end.

Definition find_split_point (arr : list elem) (l r : Z) (p : elem) : Z :=
  find_split_loop (Z.to_nat (r - l + 1)) arr l r p.

(** The stores of one [merge_parallel_aux] call and of the threads it spawns. *)
Fixpoint merge_parallel_aux (fuel : nat) (arr : list elem) (l1 r1 l2 r2 start : Z)
    : list (Z * elem) :=
  match fuel with
  | O => []
  | S f =>
      if r1 - l1 + 1 <=? MIN_THREAD_ELEM then merge_serial_2 arr l1 r1 l2 r2 start
      else if (r1 <? l1) && (r2 <? l2) then []
      else
        let swap := r2 - l2 <? r1 - l1 in
        let '(l1, r1, l2, r2) :=
          if swap then (l2, r2, l1, r1) else (l1, r1, l2, r2) in
        let pi := l2 + (r2 - l2) / 2 in
        let pivot := copy_elem (aget arr pi) in
        let s := find_split_point arr l1 r1 pivot in
        (start + (s - l1) + (pi - l2), copy_elem pivot) ::
        merge_parallel_aux f arr l1 (s - 1) l2 (pi - 1) start ++
        merge_parallel_aux f arr s r1 (pi + 1) r2 (start + (s - l1) + (pi - l2) + 1)
  end.

(** [copy_arr_serial] and [copy_arr_parallel] of [n] elements of [src] to
    [dst + d]: the stores of the [n_proc - 1] threads and of the caller. *)
Definition copy_arr_serial (src : list elem) (d o n : Z) : list (Z * elem) :=
  map (fun i => (d + o + i, copy_elem (aget src (o + i)))) (seqZ 0 n).

Definition copy_arr_parallel (n_proc : Z) (src : list elem) (d n : Z) : list (Z * elem) :=
  let chunk_size := n / n_proc in
  concat (map (fun i => copy_arr_serial src d (i * chunk_size) chunk_size) (seqZ 0 (n_proc - 1)))
  ++ copy_arr_serial src d ((n_proc - 1) * chunk_size) (n - chunk_size * (n_proc - 1)).

(** [B] is fresh memory of [r - l + 1] elements. *)
Definition merge_parallel (n_proc : Z) (arr : list elem) (l m r : Z) : list elem :=
  let n := r - l + 1 in
  let B := stores (merge_parallel_aux (Z.to_nat n) arr l m (m + 1) r 0)
             (replicate (Z.to_nat n) elem0) in
  stores (copy_arr_parallel n_proc B l n) arr.

Fixpoint merge_sort_threaded (fuel : nat) (n_proc : Z) (arr : list elem) (l r : Z) : list elem :=
  match fuel with
  | O => arr
  | S f =>
      if r - l + 1 <=? MIN_THREAD_ELEM then insertion_sort arr l (r - l + 1)
      else if l <? r then
        let m := l + (r - l) / 2 in
        (* the two halves are sorted by two threads *)
        let a1 := merge_sort_threaded f n_proc arr l m in
        let a2 := merge_sort_threaded f n_proc a1 (m + 1) r in
        merge_parallel n_proc a2 l m r
      else arr
  end.

Definition merge_sort_parallel (n_proc : Z) (arr : list elem) (l r : Z) : list elem :=
  merge_sort_threaded (Z.to_nat (r - l + 1)) n_proc arr l r.

(** ** Test data *)

(** An element with the given key and zero bytes after it. *)
Definition mk (k : Z) : elem := put32 elem0 0 k.

(** ** Specification: the stable sort *)

Definition kle (a b : elem) : Prop := key a <= key b.

(** The elements with a given key, in their order. *)
Definition with_key (k : Z) (l : list elem) : list elem := filter (fun e => key e = k) l.

(** [l'] is [l] sorted stably: the keys ascend and the elements of every key
    keep their order. *)
Definition sorts (l l' : list elem) : Prop :=
  StronglySorted kle l' /\ forall k, with_key k l = with_key k l'.

(** The keys for which the difference of [compare_elem] is exact. *)
Definition small_key (e : elem) : Prop := - 2 ^ 30 <= key e < 2 ^ 30.

#[export] Instance small_key_dec e : Decision (small_key e).
Proof. unfold small_key. apply _. Defined.

Lemma compare_exact a b : small_key a -> small_key b -> compare_elem a b = key a - key b.
Proof. unfold small_key, compare_elem. intros. apply s32_small. lia. Qed.

Lemma with_key_app k l1 l2 : with_key k (l1 ++ l2) = with_key k l1 ++ with_key k l2.
Proof. apply filter_app. Qed.

Lemma with_key_nil k l : Forall (fun e => key e <> k) l -> with_key k l = [].
Proof.
  induction 1 as [|e l He _ IH]; [done|]. unfold with_key in *.
  by rewrite filter_cons_False.
Qed.

Lemma with_key_elem l l' e : (forall k, with_key k l = with_key k l') -> e ∈ l -> e ∈ l'.
Proof.
  intros H He. assert (Hf : e ∈ with_key (key e) l) by (by apply list_elem_of_filter).
  rewrite H in Hf. by apply list_elem_of_filter in Hf as [_ ?].
Qed.

Lemma sorted_cons e l : StronglySorted kle (e :: l) <-> (forall x, x ∈ l -> key e <= key x) /\ StronglySorted kle l.
Proof.
  split.
  - intros H. apply StronglySorted_inv in H as [Hs Hf]. split; [|done].
    rewrite Forall_forall in Hf. done.
  - intros [Hf Hs]. constructor; [done|]. by rewrite Forall_forall.
Qed.

Lemma sorted_app l1 l2 :
  StronglySorted kle (l1 ++ l2) <->
  StronglySorted kle l1 /\ StronglySorted kle l2 /\ (forall x y, x ∈ l1 -> y ∈ l2 -> key x <= key y).
Proof.
  induction l1 as [|e l1 IH]; cbn [app].
  - split; [|naive_solver]. intros H. split; [constructor|]. split; [done|].
    intros x y Hx. by apply not_elem_of_nil in Hx.
  - rewrite !sorted_cons, IH. setoid_rewrite elem_of_app. setoid_rewrite elem_of_cons.
    split; [|naive_solver]. intros (H1 & H2 & H3 & H4). split_and!; naive_solver.
Qed.

(** There is one stable sort of a list. *)
Lemma sorted_with_key_unique l1 l2 :
  StronglySorted kle l1 -> StronglySorted kle l2 ->
  (forall k, with_key k l1 = with_key k l2) -> l1 = l2.
Proof.
  revert l2. induction l1 as [|a l1 IH]; intros l2 H1 H2 Hk.
  - destruct l2 as [|b l2]; [done|]. exfalso.
    assert (b ∈ @nil elem) as Hb; [|by apply not_elem_of_nil in Hb].
    apply (with_key_elem (b :: l2)); [done | apply list_elem_of_here].
  - destruct l2 as [|b l2].
    { exfalso. assert (a ∈ @nil elem) as Hb; [|by apply not_elem_of_nil in Hb].
      apply (with_key_elem (a :: l1)); [done | apply list_elem_of_here]. }
    assert (Hab : key a = key b).
    { pose proof (with_key_elem _ _ a Hk ltac:(apply list_elem_of_here)) as Ha.
      pose proof (with_key_elem _ _ b (fun k => eq_sym (Hk k)) ltac:(apply list_elem_of_here)) as Hb.
      apply sorted_cons in H1 as [H1 _], H2 as [H2 _].
      apply elem_of_cons in Ha as [-> | Ha]; [done|]. apply elem_of_cons in Hb as [-> | Hb]; [done|].
      apply H1 in Hb. apply H2 in Ha. lia. }
    assert (a = b) as ->.
    { specialize (Hk (key a)). unfold with_key in Hk.
      rewrite !filter_cons_True in Hk by done. by simplify_eq. }
    f_equal. apply IH.
    + by apply sorted_cons in H1 as [_ ?].
    + by apply sorted_cons in H2 as [_ ?].
    + intros k. specialize (Hk k). unfold with_key in *. rewrite !filter_cons in Hk.
      destruct (decide _); by simplify_eq.
Qed.

Lemma sorts_unique l l1 l2 : sorts l l1 -> sorts l l2 -> l1 = l2.
Proof.
  intros [H1 K1] [H2 K2]. apply sorted_with_key_unique; [done..|].
  intros k. by rewrite <- K1, K2.
Qed.

(** A stable sort is a permutation. *)
Lemma with_key_perm l l' : (forall k, with_key k l = with_key k l') -> l ≡ₚ l'.
Proof.
  revert l'. induction l as [|a l IH]; intros l' Hk.
  - destruct l' as [|b l']; [done|]. exfalso.
    assert (b ∈ @nil elem) as Hb; [|by apply not_elem_of_nil in Hb].
    apply (with_key_elem (b :: l')); [done | apply list_elem_of_here].
  - assert (Ha : with_key (key a) l' = a :: with_key (key a) l).
    { rewrite <- Hk. unfold with_key. by rewrite filter_cons_True. }
    assert (exists p q, l' = p ++ a :: q /\ Forall (fun e => key e <> key a) p) as (p & q & -> & Hp).
    { clear -Ha. induction l' as [|b l' IH]; [done|]. unfold with_key in Ha, IH.
      rewrite filter_cons in Ha. destruct (decide (key b = key a)) as [Hb|Hb].
      - simplify_eq. by exists [], l'.
      - destruct (IH Ha) as (p & q & -> & Hp). exists (b :: p), q. split; [done|]. by constructor. }
    rewrite <- Permutation_middle. constructor. apply IH. intros k.
    specialize (Hk k). rewrite with_key_app in Hk |- *. unfold with_key in *. rewrite !filter_cons in Hk.
    destruct (decide (key a = k)) as [<-|Hne]; [|done].
    fold (with_key (key a) p) in *. pose proof (with_key_nil _ p Hp) as E. rewrite E in *. by simplify_eq/=.
Qed.

Lemma sorts_perm l l' : sorts l l' -> l ≡ₚ l'.
Proof. intros [_ H]. by apply with_key_perm. Qed.

Lemma sorts_Forall (P : elem -> Prop) l l' : sorts l l' -> Forall P l -> Forall P l'.
Proof. intros H. by rewrite (sorts_perm _ _ H). Qed.

Lemma sorts_length l l' : sorts l l' -> length l' = length l.
Proof. intros H. by rewrite (sorts_perm _ _ H). Qed.

(** ** Array cells *)

Lemma aget_middle A x B i : i = Z.of_nat (length A) -> aget (A ++ x :: B) i = x.
Proof. intros ->. unfold aget. rewrite Nat2Z.id, app_nth2 by lia. by rewrite Nat.sub_diag. Qed.

Lemma aset_middle A x B i e : i = Z.of_nat (length A) -> aset (A ++ x :: B) i e = A ++ e :: B.
Proof.
  intros ->. unfold aset. rewrite (proj2 (Z.leb_le _ _)) by lia. rewrite Nat2Z.id.
  by rewrite insert_app_r_alt, Nat.sub_diag by lia.
Qed.

Lemma aset_length a i e : length (aset a i e) = length a.
Proof. unfold aset. destruct (0 <=? i); [apply length_insert | done]. Qed.

(** ** Insertion sort *)

Lemma with_key_swap k (t : elem) l : Forall (fun e => key t < key e) l -> with_key k (t :: l) = with_key k (l ++ [t]).
Proof.
  intros Hl. change (t :: l) with ([t] ++ l). rewrite !with_key_app.
  destruct (decide (key t = k)) as [<-|Hne].
  - rewrite (with_key_nil _ l); [by rewrite app_nil_r|].
    eapply Forall_impl; [exact Hl|]. cbn. lia.
  - rewrite (with_key_nil _ [t]); [by rewrite app_nil_r|]. by repeat constructor.
Qed.

Lemma ins_loop_spec A P h Q t fuel :
  (length P <= fuel)%nat -> small_key t -> Forall small_key P ->
  exists P1 P2 h', P = P1 ++ P2 /\
    ins_loop fuel (A ++ P ++ h :: Q) (Z.of_nat (length A)) (Z.of_nat (length P) - 1) t =
      (A ++ P1 ++ h' :: P2 ++ Q, Z.of_nat (length P1) - 1) /\
    Forall (fun e => key t < key e) P2 /\
    (forall P0 x, P1 = P0 ++ [x] -> key x <= key t).
Proof.
  intros Hf Ht. revert h Q fuel Hf. induction P as [|x P IH] using rev_ind; intros h Q fuel Hf HP.
  - exists [], [], h. split_and!; [done | | by constructor | ].
    + by destruct fuel.
    + intros P0 x H. by destruct P0.
  - apply Forall_app in HP as [HP Hx]. apply Forall_cons in Hx as [Hx _].
    rewrite length_app in Hf. cbn in Hf. destruct fuel as [|fuel]; [lia|].
    assert (Hj : Z.of_nat (length (P ++ [x])) - 1 = Z.of_nat (length P)).
    { rewrite length_app. cbn. lia. }
    cbn [ins_loop]. rewrite Hj. unfold copy_elem.
    rewrite (proj2 (Z.leb_le 0 _)) by lia. cbn [andb].
    replace (A ++ (P ++ [x]) ++ h :: Q) with ((A ++ P) ++ x :: h :: Q) by (by rewrite <- !app_assoc).
    rewrite (aget_middle (A ++ P)) by (rewrite length_app; lia).
    rewrite compare_exact by done.
    destruct (Z.ltb_spec 0 (key x - key t)) as [Hlt|Hge].
    + replace ((A ++ P) ++ x :: h :: Q) with ((A ++ P ++ [x]) ++ h :: Q) by (by rewrite <- !app_assoc).
      rewrite aset_middle by (rewrite !length_app; cbn; lia).
      replace ((A ++ P ++ [x]) ++ x :: Q) with (A ++ P ++ x :: x :: Q) by (by rewrite <- !app_assoc).
      destruct (IH x (x :: Q) fuel ltac:(lia) HP) as (P1 & P2 & h' & -> & Hrun & HP2 & HP1).
      exists P1, (P2 ++ [x]), h'. split_and!; [by rewrite app_assoc | | | done].
      * rewrite Hrun. by rewrite <- app_assoc.
      * apply Forall_app. split; [done|]. apply Forall_singleton. lia.
    + exists (P ++ [x]), [], h. split_and!; [by rewrite app_nil_r | | by constructor | ].
      * rewrite length_app. cbn. f_equal; [|lia]. by rewrite <- !app_assoc.
      * intros P0 y Hy. apply app_inj_tail in Hy as [_ <-]. lia.
Qed.

Lemma ins_step_spec A P x Q :
  StronglySorted kle P -> Forall small_key (P ++ [x]) ->
  exists P', ins_step (Z.of_nat (length A)) (A ++ P ++ x :: Q) (length P) = A ++ P' ++ Q /\
    sorts (P ++ [x]) P'.
Proof.
  intros Hs HP. apply Forall_app in HP as [HP Hx]. apply Forall_cons in Hx as [Hx _].
  unfold ins_step, copy_elem.
  replace (aget (A ++ P ++ x :: Q) (Z.of_nat (length A) + Z.of_nat (length P))) with x.
  2:{ rewrite app_assoc, aget_middle; [done|]. rewrite length_app. lia. }
  destruct (ins_loop_spec A P x Q x (S (length P))) as (P1 & P2 & h' & -> & Hrun & HP2 & HP1); [lia|done..|].
  rewrite Hrun.
  rewrite (app_assoc A P1), aset_middle by (rewrite length_app; lia).
  exists (P1 ++ x :: P2). split.
  - by rewrite <- !app_assoc.
  - split.
    + apply sorted_app in Hs as (Hs1 & Hs2 & Hs12). apply sorted_app. split_and!; [done| |].
      * apply sorted_cons. split; [|done]. intros y Hy. rewrite Forall_forall in HP2.
        specialize (HP2 y Hy). lia.
      * assert (Hle : forall y, y ∈ P1 -> key y <= key x).
        { intros y Hy. induction P1 as [|z P0 _] using rev_ind; [by apply not_elem_of_nil in Hy|].
          specialize (HP1 P0 z eq_refl). apply elem_of_app in Hy as [Hy|Hy].
          - apply sorted_app in Hs1 as (_ & _ & Hs1). specialize (Hs1 y z Hy ltac:(apply list_elem_of_here)). lia.
          - by apply list_elem_of_singleton in Hy as ->. }
        intros y z Hy Hz. apply elem_of_cons in Hz as [->|Hz]; auto.
    + intros k. rewrite <- app_assoc, with_key_app, (with_key_app k P1). by rewrite with_key_swap.
Qed.

Lemma sorts_trans l1 l2 l3 : (forall k, with_key k l1 = with_key k l2) -> sorts l2 l3 -> sorts l1 l3.
Proof. intros H [Hs Hk]. split; [done|]. intros k. by rewrite H. Qed.

Lemma with_key_app_l l l' Q : (forall k, with_key k l = with_key k l') ->
  forall k, with_key k (l ++ Q) = with_key k (l' ++ Q).
Proof. intros H k. rewrite !with_key_app. by rewrite H. Qed.

Lemma ins_steps_spec A P Q B :
  StronglySorted kle P -> Forall small_key (P ++ Q) ->
  exists P', foldl (ins_step (Z.of_nat (length A))) (A ++ P ++ Q ++ B) (seq (length P) (length Q))
    = A ++ P' ++ B /\ sorts (P ++ Q) P'.
Proof.
  revert P. induction Q as [|x Q IH]; intros P Hs HP.
  - exists P. rewrite app_nil_r. split; [done|]. by split.
  - cbn [seq foldl length app].
    replace (P ++ x :: Q) with ((P ++ [x]) ++ Q) in * by (by rewrite <- app_assoc).
    destruct (ins_step_spec A P x (Q ++ B) Hs) as (P1 & -> & HP1); [by apply Forall_app in HP as [? _]|].
    assert (Hl : S (length P) = length P1).
    { rewrite (sorts_length _ _ HP1), length_app. cbn. lia. }
    rewrite Hl. destruct (IH P1) as (P' & Hrun & HP').
    + apply HP1.
    + apply Forall_app in HP as [HP HQ]. apply Forall_app. split; [|done]. by apply (sorts_Forall _ _ _ HP1).
    + exists P'. split; [done|]. eapply sorts_trans; [|exact HP']. by apply with_key_app_l, HP1.
Qed.

Lemma insertion_sort_spec A X B :
  Forall small_key X ->
  exists X', insertion_sort (A ++ X ++ B) (Z.of_nat (length A)) (Z.of_nat (length X)) = A ++ X' ++ B /\
    sorts X X'.
Proof.
  intros HX. unfold insertion_sort. destruct X as [|x X].
  - exists []. split; [done|]. split; [constructor | done].
  - replace (Z.to_nat (Z.of_nat (length (x :: X)) - 1)) with (length X) by (cbn; lia).
    apply (ins_steps_spec A [x] X B); [|done]. by repeat constructor.
Qed.

(** ** Bubble sort *)

Lemma bubble_steps_spec P x Q B :
  Forall small_key (x :: Q) ->
  exists R y, foldl bubble_step (P ++ x :: Q ++ B) (seq (length P) (length Q)) = P ++ R ++ y :: B /\
    (forall k, with_key k (x :: Q) = with_key k (R ++ [y])) /\ (forall z, z ∈ R -> key z <= key y).
Proof.
  revert P x. induction Q as [|q Q IH]; intros P x HP.
  - exists [], x. split; [done|]. split; [done|]. intros z Hz. by apply not_elem_of_nil in Hz.
  - apply Forall_cons in HP as [Hx HP]. pose proof HP as HP'. apply Forall_cons in HP' as [Hq HQ].
    cbn [length seq foldl app].
    assert (Hi : bubble_step (P ++ x :: q :: Q ++ B) (length P) =
                 if 0 <? key x - key q then (P ++ [q]) ++ x :: Q ++ B else (P ++ [x]) ++ q :: Q ++ B).
    { unfold bubble_step, copy_elem. rewrite aget_middle by done.
      replace (P ++ x :: q :: Q ++ B) with ((P ++ [x]) ++ q :: Q ++ B) by (by rewrite <- app_assoc).
      rewrite (aget_middle (P ++ [x])) by (rewrite length_app; cbn; lia).
      rewrite compare_exact by done. destruct (0 <? key x - key q); [|done].
      rewrite <- app_assoc. cbn [app]. rewrite aset_middle by done.
      replace (P ++ q :: q :: Q ++ B) with ((P ++ [q]) ++ q :: Q ++ B) by (by rewrite <- app_assoc).
      by rewrite aset_middle by (rewrite length_app; cbn; lia). }
    rewrite Hi. destruct (Z.ltb_spec 0 (key x - key q)) as [Hlt|Hge].
    + destruct (IH (P ++ [q]) x) as (R & y & Hrun & Hk & Hm); [by constructor|].
      rewrite length_app in Hrun. cbn in Hrun. rewrite Nat.add_1_r in Hrun. rewrite Hrun.
      exists (q :: R), y. split_and!.
      * by rewrite <- app_assoc.
      * intros k. change (x :: q :: Q) with ([x; q] ++ Q). change ((q :: R) ++ [y]) with ([q] ++ (R ++ [y])).
        rewrite with_key_app, (with_key_app k [q]), <- Hk.
        change [x; q] with ([x] ++ [q]). rewrite <- (with_key_swap k q [x]) by (apply Forall_singleton; lia).
        change [q; x] with ([q] ++ [x]). change (x :: Q) with ([x] ++ Q).
        rewrite !with_key_app. by rewrite app_assoc.
      * assert (Hxy : key x <= key y).
        { assert (x ∈ R ++ [y]) as Hin by (apply (with_key_elem _ _ x Hk), list_elem_of_here).
          apply elem_of_app in Hin as [Hin|Hin]; [auto|]. by apply list_elem_of_singleton in Hin as ->. }
        intros z Hz. apply elem_of_cons in Hz as [->|Hz]; [lia | auto].
    + destruct (IH (P ++ [x]) q) as (R & y & Hrun & Hk & Hm); [by constructor|].
      rewrite length_app in Hrun. cbn in Hrun. rewrite Nat.add_1_r in Hrun. rewrite Hrun.
      exists (x :: R), y. split_and!.
      * by rewrite <- app_assoc.
      * intros k. change (x :: q :: Q) with ([x] ++ (q :: Q)). change ((x :: R) ++ [y]) with ([x] ++ (R ++ [y])).
        by rewrite with_key_app, (with_key_app k [x]), <- Hk.
      * assert (Hxy : key q <= key y).
        { assert (q ∈ R ++ [y]) as Hin by (apply (with_key_elem _ _ q Hk), list_elem_of_here).
          apply elem_of_app in Hin as [Hin|Hin]; [auto|]. by apply list_elem_of_singleton in Hin as ->. }
        intros z Hz. apply elem_of_cons in Hz as [->|Hz]; [lia | auto].
Qed.

(** After [j] passes the last [j] elements are the greatest, in order. *)
Lemma bubble_passes_spec n X T B :
  n = Z.of_nat (length X) + Z.of_nat (length T) -> Forall small_key X ->
  StronglySorted kle T -> (forall x y, x ∈ X -> y ∈ T -> key x <= key y) ->
  exists X', foldl (bubble_pass n) (X ++ T ++ B) (seq (length T) (length X - 1)) = X' ++ B /\
    sorts (X ++ T) X'.
Proof.
  intros Hn. remember (length X) as m eqn:Hm. revert X T Hm Hn.
  induction m as [|m IH]; intros X T Hm Hn HX HT HXT.
  - destruct X; [|done]. exists T. split; [done|]. by split.
  - destruct X as [|x X]; [done|]. injection Hm as Hm. destruct m as [|m].
    + destruct X; [|done]. exists (x :: T). split; [done|]. split; [|done].
      apply sorted_cons. split; [|done]. intros y Hy. apply HXT; [apply list_elem_of_here | done].
    + replace (S (S m) - 1)%nat with (S m) by lia. cbn [seq foldl].
      unfold bubble_pass at 2. replace (Z.to_nat (n - Z.of_nat (length T) - 1)) with (length X) by lia.
      destruct (bubble_steps_spec [] x X (T ++ B) HX) as (R & y & Hrun & Hk & Hle).
      cbn [app length] in Hrun |- *. rewrite Hrun.
      pose proof (with_key_perm _ _ Hk) as Hp.
      assert (HlR : length R = S m).
      { apply Permutation_length in Hp. rewrite length_app in Hp. cbn in Hp. lia. }
      destruct (IH R (y :: T)) as (X' & Hrun' & HX').
      * done.
      * cbn [length]. lia.
      * rewrite Hp in HX. by apply Forall_app in HX as [? _].
      * apply sorted_cons. split; [|done]. intros z Hz. apply HXT; [|done].
        rewrite Hp. apply elem_of_app. right. by apply list_elem_of_singleton.
      * intros z w Hz Hw. apply elem_of_cons in Hw as [->|Hw]; [auto|]. apply HXT; [|done].
        rewrite Hp. apply elem_of_app. by left.
      * cbn [length] in Hrun'. replace (S m - 1)%nat with m in Hrun' by lia.
        exists X'. split; [done|]. eapply sorts_trans; [|exact HX'].
        intros k. change (x :: X ++ T) with ((x :: X) ++ T). rewrite (with_key_app_l _ _ T Hk k).
        by rewrite <- app_assoc.
Qed.

Lemma bubble_sort_spec X B :
  Forall small_key X ->
  exists X', bubble_sort_elem (X ++ B) (Z.of_nat (length X)) = X' ++ B /\ sorts X X'.
Proof.
  intros HX. unfold bubble_sort_elem.
  destruct (bubble_passes_spec (Z.of_nat (length X)) X [] B) as (X' & Hrun & HX').
  - cbn. lia.
  - done.
  - constructor.
  - intros x y _ Hy. by apply not_elem_of_nil in Hy.
  - exists X'. rewrite app_nil_r in HX'. split; [|done].
    replace (Z.to_nat (Z.of_nat (length X) - 1)) with (length X - 1)%nat by lia. exact Hrun.
Qed.

(** ** Segments and traces *)

(** [A[o + i .. o + n - 1]], and the trace that stores a list from index [k]. *)
Definition suf (A : list elem) (o n i : Z) : list elem := map (fun x => aget A (o + x)) (seqZ i (n - i)).
Definition at_index (k : Z) (l : list elem) : list (Z * elem) := zip (seqZ k (Z.of_nat (length l))) l.

Lemma suf_nil A o n i : n <= i -> suf A o n i = [].
Proof. intros H. unfold suf. by rewrite seqZ_nil by lia. Qed.

Lemma suf_cons A o n i : i < n -> suf A o n i = aget A (o + i) :: suf A o n (i + 1).
Proof.
  intros H. unfold suf. rewrite seqZ_cons by lia. cbn [map]. f_equal.
  replace (Z.pred (n - i)) with (n - (i + 1)) by lia. done.
Qed.

Lemma suf_length A o n i : i <= n -> Z.of_nat (length (suf A o n i)) = n - i.
Proof. intros H. unfold suf. rewrite length_map, length_seqZ. lia. Qed.

Lemma suf_split A o n m : 0 <= n -> 0 <= m -> suf A o (n + m) 0 = suf A o n 0 ++ suf A (o + n) m 0.
Proof.
  intros Hn Hm. unfold suf. rewrite !Z.sub_0_r, seqZ_app, map_app by lia. f_equal.
  replace (0 + n) with (n + 0) by lia. rewrite <- (fmap_add_seqZ n 0 m).
  change (fmap (M := list)) with (@map Z Z). rewrite map_map. apply map_ext. intros x. f_equal. lia.
Qed.

Lemma suf_app A X B : suf (A ++ X ++ B) (Z.of_nat (length A)) (Z.of_nat (length X)) 0 = X.
Proof.
  revert A. induction X as [|x X IH]; intros A; [by apply suf_nil|].
  replace (Z.of_nat (length (x :: X))) with (1 + Z.of_nat (length X)) by (cbn; lia).
  rewrite suf_split by lia. rewrite suf_cons, (suf_nil _ _ _ (0 + 1)) by lia. cbn [app].
  rewrite aget_middle by lia. f_equal. specialize (IH (A ++ [x])).
  rewrite length_app, <- app_assoc in IH. cbn in IH. by rewrite Nat2Z.inj_add in IH.
Qed.

Lemma suf_whole X : suf X 0 (Z.of_nat (length X)) 0 = X.
Proof. pose proof (suf_app [] X []) as H. by rewrite app_nil_r in H. Qed.

Lemma at_index_cons k x l : at_index k (x :: l) = (k, x) :: at_index (k + 1) l.
Proof.
  unfold at_index. rewrite seqZ_cons by (cbn; lia). cbn [zip zip_with length]. f_equal. f_equal.
  f_equal; lia.
Qed.

Lemma at_index_app k l1 l2 :
  at_index k (l1 ++ l2) = at_index k l1 ++ at_index (k + Z.of_nat (length l1)) l2.
Proof.
  revert k. induction l1 as [|x l1 IH]; intros k.
  - cbn. by rewrite Z.add_0_r.
  - cbn [app]. rewrite !at_index_cons, IH. cbn [app]. f_equal. f_equal. f_equal. cbn [length]. lia.
Qed.

Lemma at_index_fst k l : (at_index k l).*1 = seqZ k (Z.of_nat (length l)).
Proof. unfold at_index. apply fst_zip. rewrite length_seqZ. lia. Qed.

Lemma at_index_snd k l : (at_index k l).*2 = l.
Proof. unfold at_index. apply snd_zip. rewrite length_seqZ. lia. Qed.

Lemma stores_at_index A X B l :
  length X = length l -> stores (at_index (Z.of_nat (length A)) l) (A ++ X ++ B) = A ++ l ++ B.
Proof.
  revert A X. induction l as [|y l IH]; intros A X Hl; destruct X as [|x X]; try done.
  rewrite at_index_cons. unfold stores in *. cbn [foldl fst snd app].
  rewrite aset_middle by done. specialize (IH (A ++ [y]) X ltac:(cbn in Hl; lia)).
  rewrite length_app in IH. cbn in IH. rewrite Nat2Z.inj_add in IH. cbn in IH.
  rewrite <- !app_assoc in IH. cbn in IH. exact IH.
Qed.

(** ** Merging *)

(** The merge of two lists, preferring the first. *)
Fixpoint lmerge (l1 : list elem) : list elem -> list elem :=
  fix go (l2 : list elem) : list elem :=
    match l1, l2 with
    | [], _ => l2
    | _, [] => l1
    | a :: l1', b :: l2' =>
        if compare_elem a b <=? 0 then a :: lmerge l1' l2 else b :: go l2'
    end.

Lemma lmerge_nil_r l : lmerge l [] = l.
Proof. by destruct l. Qed.

Lemma lmerge_nil_l l : lmerge [] l = l.
Proof. by destruct l. Qed.

Lemma lmerge_cons a l1 b l2 :
  lmerge (a :: l1) (b :: l2) =
  if compare_elem a b <=? 0 then a :: lmerge l1 (b :: l2) else b :: lmerge (a :: l1) l2.
Proof. done. Qed.

Lemma lmerge_perm l1 l2 : l1 ++ l2 ≡ₚ lmerge l1 l2.
Proof.
  revert l2. induction l1 as [|a l1 IH1]; intros l2; [by rewrite lmerge_nil_l|].
  induction l2 as [|b l2 IH2]; [by rewrite lmerge_nil_r, app_nil_r|].
  rewrite lmerge_cons. destruct (_ <=? 0).
  - cbn [app]. constructor. apply IH1.
  - rewrite <- IH2. symmetry. apply (Permutation_middle (a :: l1) l2 b).
Qed.

Lemma lmerge_elem x l1 l2 : x ∈ lmerge l1 l2 <-> x ∈ l1 \/ x ∈ l2.
Proof. rewrite <- lmerge_perm. apply elem_of_app. Qed.

Lemma lmerge_sorted l1 l2 :
  Forall small_key l1 -> Forall small_key l2 -> StronglySorted kle l1 -> StronglySorted kle l2 ->
  StronglySorted kle (lmerge l1 l2) /\ forall k, with_key k (l1 ++ l2) = with_key k (lmerge l1 l2).
Proof.
  intros HK1 HK2. revert l2 HK2. induction HK1 as [|a l1 Ha HK1 IH1]; intros l2 HK2 H1 H2;
    [by rewrite lmerge_nil_l|].
  induction HK2 as [|b l2 Hb HK2 IH2]; [by rewrite lmerge_nil_r, app_nil_r|].
  pose proof H1 as H1'. pose proof H2 as H2'.
  apply sorted_cons in H1' as [Hle1 Hs1], H2' as [Hle2 Hs2].
  rewrite lmerge_cons, compare_exact by done. destruct (Z.leb_spec (key a - key b) 0) as [Hc|Hc].
  - destruct (IH1 (b :: l2)) as [IHs IHk]; [by constructor | done | done |]. split.
    + apply sorted_cons. split; [|done]. intros x Hx. apply lmerge_elem in Hx as [Hx|Hx]; [auto|].
      apply elem_of_cons in Hx as [->|Hx]; [lia|]. specialize (Hle2 x Hx). lia.
    + intros k. change (with_key k ([a] ++ (l1 ++ b :: l2)) = with_key k ([a] ++ lmerge l1 (b :: l2))).
      by rewrite !(with_key_app k [a]), IHk.
  - destruct (IH2 Hs2) as [IHs IHk]. split.
    + apply sorted_cons. split; [|done]. intros x Hx. apply lmerge_elem in Hx as [Hx|Hx]; [|auto].
      apply elem_of_cons in Hx as [->|Hx]; [lia|]. specialize (Hle1 x Hx). lia.
    + intros k. change (b :: lmerge (a :: l1) l2) with ([b] ++ lmerge (a :: l1) l2).
      rewrite (with_key_app k [b]), <- IHk, <- with_key_app. 
      change ((a :: l1) ++ b :: l2) with ((a :: l1) ++ [b] ++ l2).
      rewrite !app_assoc. apply with_key_app_l. clear k. intros k. symmetry.
      apply (with_key_swap k b (a :: l1)). constructor; [lia|].
      apply Forall_forall. intros x Hx. specialize (Hle1 x Hx). lia.
Qed.

Lemma lmerge_sorts X Y X' Y' :
  Forall small_key X -> Forall small_key Y -> sorts X X' -> sorts Y Y' -> sorts (X ++ Y) (lmerge X' Y').
Proof.
  intros HX HY HX' HY'.
  destruct (lmerge_sorted X' Y') as [Hs Hk];
    [by apply (sorts_Forall _ X) | by apply (sorts_Forall _ Y) | apply HX' | apply HY' |].
  split; [done|]. intros k. rewrite <- Hk, !with_key_app. f_equal; [apply HX' | apply HY'].
Qed.

Section trace.
Context (A1 : list elem) (o1 n1 : Z) (A2 : list elem) (o2 n2 : Z).

Lemma rest_loop_spec A o n fuel i k :
  (Z.to_nat (n - i) <= fuel)%nat ->
  rest_loop fuel A o n i k = (at_index k (suf A o n i), k + Z.of_nat (length (suf A o n i))).
Proof.
  revert i k. induction fuel as [|f IH]; intros i k Hf.
  - rewrite suf_nil by lia. cbn. by rewrite Z.add_0_r.
  - cbn [rest_loop]. destruct (Z.ltb_spec i n) as [Hi|Hi].
    + rewrite (suf_cons _ _ _ i), at_index_cons, IH by lia. f_equal. cbn [length]. lia.
    + rewrite suf_nil by lia. cbn. by rewrite Z.add_0_r.
Qed.

(** The loop stops at the end of one of the ranges, having stored a prefix
    of the merge; what is left of the other range is the rest of it. *)
Lemma merge_loop_spec fuel i j k :
  (Z.to_nat (n1 - i) + Z.to_nat (n2 - j) <= fuel)%nat ->
  exists ms i' j', merge_loop fuel A1 o1 n1 A2 o2 n2 i j k =
      (at_index k ms, i', j', k + Z.of_nat (length ms)) /\
    lmerge (suf A1 o1 n1 i) (suf A2 o2 n2 j) = ms ++ suf A1 o1 n1 i' ++ suf A2 o2 n2 j' /\
    i <= i' /\ j <= j'.
Proof.
  revert i j k. induction fuel as [|f IH]; intros i j k Hf.
  - exists [], i, j. rewrite (suf_nil _ _ _ i), (suf_nil _ _ _ j) by lia.
    cbn. rewrite Z.add_0_r. split_and!; [done | done | lia | lia].
  - cbn [merge_loop]. destruct (Z.ltb_spec i n1) as [Hi|Hi]; [|clear IH; cbn [andb]].
    2:{ exists [], i, j. rewrite (suf_nil _ _ _ i), lmerge_nil_l by lia.
        cbn. rewrite Z.add_0_r. split_and!; [done | done | lia | lia]. }
    cbn [andb]. destruct (Z.ltb_spec j n2) as [Hj|Hj]; [|clear IH].
    2:{ exists [], i, j. rewrite (suf_nil _ _ _ j), lmerge_nil_r, app_nil_r by lia.
        cbn. rewrite Z.add_0_r. split_and!; [done | done | lia | lia]. }
    rewrite (suf_cons _ _ _ i), (suf_cons _ _ _ j), lmerge_cons by lia. unfold copy_elem.
    destruct (_ <=? 0).
    + destruct (IH (i + 1) j (k + 1)) as (ms & i' & j' & Hrun & Hm & Hi' & Hj'); [lia|].
      rewrite Hrun. exists (aget A1 (o1 + i) :: ms), i', j'. rewrite at_index_cons.
      split_and!; [f_equal; cbn [length]; lia | | lia | lia].
      rewrite <- (suf_cons _ _ _ j), Hm by lia. done.
    + destruct (IH i (j + 1) (k + 1)) as (ms & i' & j' & Hrun & Hm & Hi' & Hj'); [lia|].
      rewrite Hrun. exists (aget A2 (o2 + j) :: ms), i', j'. rewrite at_index_cons.
      split_and!; [f_equal; cbn [length]; lia | | lia | lia].
      rewrite <- (suf_cons _ _ _ i), Hm by lia. done.
Qed.

Lemma merge_trace_spec k0 :
  merge_trace A1 o1 n1 A2 o2 n2 k0 = at_index k0 (lmerge (suf A1 o1 n1 0) (suf A2 o2 n2 0)).
Proof.
  unfold merge_trace.
  destruct (merge_loop_spec (Z.to_nat n1 + Z.to_nat n2) 0 0 k0) as (ms & i & j & -> & -> & Hi & Hj); [lia|].
  rewrite !rest_loop_spec by lia. by rewrite !at_index_app.
Qed.
End trace.

Lemma merge_serial_spec A X Y B p q r :
  p = Z.of_nat (length A) -> q = p + Z.of_nat (length X) - 1 -> r = q + Z.of_nat (length Y) ->
  merge_serial (A ++ (X ++ Y) ++ B) p q r = A ++ lmerge X Y ++ B.
Proof.
  intros Hp Hq Hr. unfold merge_serial, copy_elem.
  assert (HL : map (fun i => aget (A ++ (X ++ Y) ++ B) (p + i)) (seqZ 0 (q - p + 1)) = X).
  { pose proof (suf_app A X (Y ++ B)) as H. unfold suf in H. rewrite Z.sub_0_r in H.
    rewrite <- app_assoc. etransitivity; [|exact H]. rewrite Hp. f_equal. f_equal. lia. }
  assert (HR : map (fun j => aget (A ++ (X ++ Y) ++ B) (q + 1 + j)) (seqZ 0 (r - q)) = Y).
  { pose proof (suf_app (A ++ X) Y B) as H. unfold suf in H. rewrite Z.sub_0_r in H.
    replace (A ++ (X ++ Y) ++ B) with ((A ++ X) ++ Y ++ B) by (by rewrite <- !app_assoc).
    etransitivity; [|exact H]. rewrite length_app, Nat2Z.inj_add.
    replace (q + 1) with (Z.of_nat (length A) + Z.of_nat (length X)) by lia. f_equal. f_equal. lia. }
  rewrite HL, HR, merge_trace_spec.
  replace (q - p + 1) with (Z.of_nat (length X)) by lia. replace (r - q) with (Z.of_nat (length Y)) by lia.
  rewrite !suf_whole, Hp. apply stores_at_index.
  by rewrite <- lmerge_perm.
Qed.

(** ** Serial merge sort *)

Lemma merge_sort_serial_spec fuel A X B l r :
  (length X <= fuel)%nat -> Forall small_key X ->
  l = Z.of_nat (length A) -> r = l + Z.of_nat (length X) - 1 ->
  exists X', merge_sort_serial fuel (A ++ X ++ B) l r = A ++ X' ++ B /\ sorts X X'.
Proof.
  revert A X B l r. induction fuel as [|f IH]; intros A X B l r Hf HX Hl Hr.
  - destruct X; [|cbn in Hf; lia]. exists []. split; [done|]. split; [constructor | done].
  - cbn [merge_sort_serial]. destruct (Z.ltb_spec l r) as [Hlr|Hlr].
    + set (m := l + (r - l) / 2). assert (Hm : l <= m < r) by (subst m; zlia).
      assert (Hn : exists X1 X2, X = X1 ++ X2 /\ Z.of_nat (length X1) = m - l + 1).
      { exists (take (Z.to_nat (m - l + 1)) X), (drop (Z.to_nat (m - l + 1)) X).
        rewrite take_drop, length_take. split; [done|]. lia. }
      destruct Hn as (X1 & X2 & -> & Hl1). rewrite length_app in Hf, Hr.
      apply Forall_app in HX as [HX1 HX2]. rewrite <- app_assoc.
      destruct (IH A X1 (X2 ++ B) l m) as (Y1 & -> & HY1); [lia | done | done | lia |].
      pose proof (sorts_length _ _ HY1) as HlY1.
      destruct (IH (A ++ Y1) X2 B (m + 1) r) as (Y2 & Hrun & HY2); [lia | done | rewrite length_app; lia | lia |].
      replace (A ++ Y1 ++ X2 ++ B) with ((A ++ Y1) ++ X2 ++ B) by (by rewrite <- app_assoc).
      rewrite Hrun. pose proof (sorts_length _ _ HY2) as HlY2.
      replace ((A ++ Y1) ++ Y2 ++ B) with (A ++ (Y1 ++ Y2) ++ B) by (by rewrite <- !app_assoc).
      exists (lmerge Y1 Y2). split; [apply merge_serial_spec; lia|]. by apply lmerge_sorts.
    + exists X. split; [done|]. split; [|done].
      destruct X as [|x [|y X]]; [constructor | repeat constructor | cbn in Hr; lia].
Qed.

(** ** Traces whose order does not matter *)

Lemma aset_comm a i j x y : i <> j -> aset (aset a i x) j y = aset (aset a j y) i x.
Proof.
  intros Hij. unfold aset. destruct (Z.leb_spec 0 i), (Z.leb_spec 0 j); try done.
  apply list_insert_insert_ne. lia.
Qed.

Lemma stores_schedule t t' a : t ≡ₚ t' -> NoDup t.*1 -> stores t a = stores t' a.
Proof.
  intros Hp. revert a. induction Hp as [|w t t' Hp IH|w1 w2 t|t1 t2 t3 Hp1 IH1 Hp2 IH2]; intros a Hnd.
  - done.
  - cbn [fmap list_fmap] in Hnd. apply list.NoDup_cons in Hnd as [_ Hnd].
    unfold stores in *. cbn [foldl]. by apply IH.
  - cbn [fmap list_fmap] in Hnd. apply list.NoDup_cons in Hnd as [Hn _]. unfold stores. cbn [foldl]. f_equal.
    apply aset_comm. intros E. apply Hn. rewrite E. apply list_elem_of_here.
  - rewrite IH1 by done. apply IH2. by rewrite <- Hp1.
Qed.

Lemma seqZ_NoDup k n : NoDup (seqZ k n).
Proof. apply NoDup_seqZ. Qed.

(** A trace that stores to every index of the array once. *)
Lemma stores_cover t a :
  t.*1 ≡ₚ seqZ 0 (Z.of_nat (length a)) -> exists l, stores t a = l /\ l ≡ₚ t.*2.
Proof.
  intros Hp. symmetry in Hp. apply Permutation_map_inv in Hp as (t' & Hfst & Hp).
  exists (t'.*2). split; [|by rewrite Hp].
  rewrite (stores_schedule t t') by (first [done | rewrite Hp; change (NoDup (map fst t')); rewrite <- Hfst; apply seqZ_NoDup]).
  assert (Hl : length a = length (t'.*2)).
  { assert (length (map fst t') = length a) as Hl by (rewrite <- Hfst, length_seqZ; lia).
    rewrite length_map in Hl. by rewrite length_fmap. }
  assert (Ht : t' = at_index 0 (t'.*2)).
  { unfold at_index. rewrite <- Hl, Hfst. change (map fst t') with (t'.*1). by rewrite zip_fst_snd. }
  rewrite Ht at 1. pose proof (stores_at_index [] a [] (t'.*2) Hl) as H.
  by rewrite !app_nil_r in H.
Qed.

(** ** Parallel merge *)

Lemma find_split_loop_range fuel arr low high p :
  low <= high -> low <= find_split_loop fuel arr low high p <= high.
Proof.
  revert low high. induction fuel as [|f IH]; intros low high Hlh; cbn [find_split_loop]; [lia|].
  destruct (Z.ltb_spec low high) as [Hlt|Hge]; [|lia].
  assert (low <= low + (high - low) / 2 < high) by zlia.
  destruct (_ <=? 0).
  - specialize (IH low (low + (high - low) / 2)). lia.
  - specialize (IH (low + (high - low) / 2 + 1) high). lia.
Qed.

Lemma find_split_point_range arr l r p :
  l <= r + 1 -> l <= find_split_point arr l r p <= r + 1.
Proof.
  intros Hlr. unfold find_split_point. destruct (Z.le_gt_cases l r) as [H|H].
  - pose proof (find_split_loop_range (Z.to_nat (r - l + 1)) arr l r p H). lia.
  - replace (r - l + 1) with 0 by lia. change (l <= l <= r + 1). lia.
Qed.

(** The index returned holds the first element not below the pivot, when
    there is one before the last index. *)
Lemma find_split_loop_first fuel arr low high p :
  (Z.to_nat (high - low) <= fuel)%nat -> low <= high ->
  small_key p -> (forall i, low <= i <= high -> small_key (aget arr i)) ->
  (forall i j, low <= i <= j -> j <= high -> key (aget arr i) <= key (aget arr j)) ->
  let s := find_split_loop fuel arr low high p in
  (forall i, low <= i < s -> key (aget arr i) < key p) /\
  (s < high -> key p <= key (aget arr s)).
Proof.
  intros Hf Hlh Hp. revert low high Hf Hlh. induction fuel as [|f IH]; intros low high Hf Hlh Hk Hs; cbn [find_split_loop].
  - split; intros; lia.
  - destruct (Z.ltb_spec low high) as [Hlt|Hge]; [|split; intros; lia].
    set (mid := low + (high - low) / 2). assert (Hmid : low <= mid < high) by (subst mid; zlia).
    rewrite compare_exact by (first [done | apply Hk; lia]).
    destruct (Z.leb_spec (key p - key (aget arr mid)) 0) as [Hc|Hc].
    + destruct (IH low mid) as [H1 H2]; [lia | lia | intros; apply Hk; lia | intros; apply Hs; lia |].
      split; [done|]. intros Hlt'.
      pose proof (find_split_loop_range f arr low mid p ltac:(lia)).
      destruct (decide (find_split_loop f arr low mid p = mid)) as [->|Hne]; [lia|]. apply H2. lia.
    + destruct (IH (mid + 1) high) as [H1 H2]; [lia | lia | intros; apply Hk; lia | intros; apply Hs; lia |].
      split; [|done]. intros i Hi. destruct (Z.le_gt_cases i mid) as [Hle|Hgt]; [|apply H1; lia].
      pose proof (Hs i mid ltac:(lia) ltac:(lia)). lia.
Qed.

Lemma seqZ_split3 a n m :
  0 <= n -> 0 <= m -> seqZ a (n + (1 + m)) = seqZ a n ++ (a + n) :: seqZ (a + n + 1) m.
Proof.
  intros Hn Hm. rewrite seqZ_app by lia. f_equal. rewrite seqZ_cons by lia. f_equal.
  f_equal; lia.
Qed.

(** Every call stores each of its elements once, to the indices it owns. *)
Lemma merge_parallel_aux_cover fuel arr l1 r1 l2 r2 start :
  (Z.to_nat ((r1 - l1 + 1) + (r2 - l2 + 1)) <= fuel)%nat -> l1 <= r1 + 1 -> l2 <= r2 + 1 ->
  let t := merge_parallel_aux fuel arr l1 r1 l2 r2 start in
  t.*1 ≡ₚ seqZ start ((r1 - l1 + 1) + (r2 - l2 + 1)) /\
  t.*2 ≡ₚ suf arr l1 (r1 - l1 + 1) 0 ++ suf arr l2 (r2 - l2 + 1) 0.
Proof.
  revert l1 r1 l2 r2 start. induction fuel as [|f IH]; intros l1 r1 l2 r2 start Hf H1 H2.
  { cbn. rewrite seqZ_nil, !suf_nil by lia. done. }
  cbn [merge_parallel_aux]. destruct (Z.leb_spec (r1 - l1 + 1) MIN_THREAD_ELEM) as [Hs|Hs].
  { unfold merge_serial_2. rewrite merge_trace_spec. cbn zeta. rewrite at_index_fst, at_index_snd.
    rewrite <- lmerge_perm, length_app, Nat2Z.inj_add, !suf_length by lia. by rewrite !Z.sub_0_r. }
  unfold MIN_THREAD_ELEM in Hs.
  rewrite (proj2 (Z.ltb_ge r1 l1)) by lia. cbn [andb]. cbn zeta.
  (* after the swap the second range is not empty *)
  enough (Hmain : forall l1 r1 l2 r2, l1 <= r1 + 1 -> l2 <= r2 ->
    (Z.to_nat ((r1 - l1 + 1) + (r2 - l2 + 1)) <= S f)%nat ->
    let pi := l2 + (r2 - l2) / 2 in
    let s := find_split_point arr l1 r1 (copy_elem (aget arr pi)) in
    let t := (start + (s - l1) + (pi - l2), copy_elem (copy_elem (aget arr pi))) ::
        merge_parallel_aux f arr l1 (s - 1) l2 (pi - 1) start ++
        merge_parallel_aux f arr s r1 (pi + 1) r2 (start + (s - l1) + (pi - l2) + 1) in
    t.*1 ≡ₚ seqZ start ((r1 - l1 + 1) + (r2 - l2 + 1)) /\
    t.*2 ≡ₚ suf arr l1 (r1 - l1 + 1) 0 ++ suf arr l2 (r2 - l2 + 1) 0).
  { destruct (Z.ltb_spec (r2 - l2) (r1 - l1)) as [Hsw|Hsw].
    - destruct (Hmain l2 r2 l1 r1) as [Hi He]; [lia..|]. split.
      + rewrite Hi. by rewrite Z.add_comm.
      + rewrite He. apply Permutation_app_comm.
    - apply Hmain; lia. }
  clear l1 r1 l2 r2 Hf H1 H2 Hs. intros l1 r1 l2 r2 H1 H2 Hf pi s.
  assert (Hpi : l2 <= pi <= r2) by (subst pi; zlia).
  assert (Hsr : l1 <= s <= r1 + 1) by (by apply find_split_point_range).
  clearbody pi s. cbn zeta. rewrite !fmap_cons, !fmap_app. unfold copy_elem. cbn [fst snd].
  destruct (IH l1 (s - 1) l2 (pi - 1) start) as [I1 E1]; [lia..|].
  destruct (IH s r1 (pi + 1) r2 (start + (s - l1) + (pi - l2) + 1)) as [I2 E2]; [lia..|].
  rewrite I1, I2, E1, E2. split.
  - rewrite Permutation_middle.
    replace (r1 - l1 + 1 + (r2 - l2 + 1)) with
      ((s - 1 - l1 + 1 + (pi - 1 - l2 + 1)) + (1 + (r1 - s + 1 + (r2 - (pi + 1) + 1)))) by lia.
    rewrite seqZ_split3 by lia.
    by replace (start + (s - 1 - l1 + 1 + (pi - 1 - l2 + 1))) with (start + (s - l1) + (pi - l2)) by lia.
  - replace (r1 - l1 + 1) with ((s - 1 - l1 + 1) + (r1 - s + 1)) by lia.
    replace (r2 - l2 + 1) with ((pi - 1 - l2 + 1) + (1 + (r2 - (pi + 1) + 1))) by lia.
    rewrite (suf_split arr l1 (s - 1 - l1 + 1) (r1 - s + 1)), (suf_split arr l2 (pi - 1 - l2 + 1) (1 + _)),
      (suf_split arr _ 1) by lia.
    rewrite (suf_cons _ _ 1 0), (suf_nil _ _ 1) by lia.
    replace (l1 + (s - 1 - l1 + 1)) with s by lia.
    replace (l2 + (pi - 1 - l2 + 1) + 0) with pi by lia.
    replace (l2 + (pi - 1 - l2 + 1) + 1) with (pi + 1) by lia.
    cbn [app]. solve_Permutation.
Qed.

Lemma copy_arr_serial_spec src d o n :
  0 <= n -> copy_arr_serial src d o n = at_index (d + o) (suf src o n 0).
Proof.
  intros Hn. unfold copy_arr_serial, at_index, copy_elem. rewrite suf_length, Z.sub_0_r by lia.
  unfold suf. rewrite Z.sub_0_r. replace (d + o) with (d + o + 0) by lia.
  rewrite <- (fmap_add_seqZ (d + o) 0 n). generalize (seqZ 0 n). intros l.
  induction l as [|i l IH]; [done|]. cbn. f_equal; [f_equal; lia|]. exact IH.
Qed.

Lemma copy_chunks_spec src d c m :
  0 <= c -> concat (map (fun i => copy_arr_serial src d (i * c) c) (seqZ 0 (Z.of_nat m))) =
  at_index d (suf src 0 (Z.of_nat m * c) 0).
Proof.
  intros Hc. induction m as [|m IH]; [by rewrite suf_nil by lia|].
  rewrite Nat2Z.inj_succ, <- Z.add_1_r, seqZ_app, map_app, concat_app, IH by lia.
  replace ((Z.of_nat m + 1) * c) with (Z.of_nat m * c + c) by lia.
  rewrite suf_split, at_index_app by lia. f_equal.
  rewrite suf_length, Z.sub_0_r, seqZ_cons, seqZ_nil by lia. cbn [map concat]. rewrite app_nil_r.
  apply copy_arr_serial_spec. lia.
Qed.

Lemma copy_arr_parallel_spec n_proc src d n :
  1 <= n_proc -> 0 <= n -> copy_arr_parallel n_proc src d n = at_index d (suf src 0 n 0).
Proof.
  intros Hp Hn. unfold copy_arr_parallel.
  assert (Hc : 0 <= n / n_proc) by (apply Z.div_pos; lia).
  pose proof (Z.mul_div_le n n_proc ltac:(lia)) as Hle.
  replace (n_proc - 1) with (Z.of_nat (Z.to_nat (n_proc - 1))) at 1 by lia.
  rewrite copy_chunks_spec, copy_arr_serial_spec by nia. rewrite Z2Nat.id by lia.
  set (c := n / n_proc) in *.
  replace n with ((n_proc - 1) * c + (n - c * (n_proc - 1))) at 2 by lia.
  rewrite suf_split, at_index_app, suf_length, Z.sub_0_r by nia. done.
Qed.

(** The array after the merge: the elements of both ranges, in some order;
    the merge itself when the first range has at most [MIN_THREAD_ELEM]. *)
Lemma merge_parallel_spec n_proc A X Y B l m r :
  1 <= n_proc ->
  l = Z.of_nat (length A) -> m = l + Z.of_nat (length X) - 1 -> r = m + Z.of_nat (length Y) ->
  exists Z', merge_parallel n_proc (A ++ (X ++ Y) ++ B) l m r = A ++ Z' ++ B /\ Z' ≡ₚ X ++ Y /\
    ((length X <= 16)%nat -> (1 <= length X)%nat -> Z' = lmerge X Y).
Proof.
  intros Hn Hl Hm Hr. unfold merge_parallel. set (arr := A ++ (X ++ Y) ++ B).
  assert (HX : suf arr l (m - l + 1) 0 = X).
  { replace (m - l + 1) with (Z.of_nat (length X)) by lia. rewrite Hl. subst arr.
    rewrite <- app_assoc. apply suf_app. }
  assert (HY : suf arr (m + 1) (r - (m + 1) + 1) 0 = Y).
  { pose proof (suf_app (A ++ X) Y B) as H. rewrite length_app, Nat2Z.inj_add in H.
    replace ((A ++ X) ++ Y ++ B) with arr in H by (subst arr; by rewrite <- !app_assoc).
    replace (m + 1) with (Z.of_nat (length A) + Z.of_nat (length X)) by lia.
    etransitivity; [|exact H]. f_equal. lia. }
  set (t := merge_parallel_aux _ _ _ _ _ _ _). set (F := replicate _ elem0).
  destruct (merge_parallel_aux_cover (Z.to_nat (r - l + 1)) arr l m (m + 1) r 0) as [Hfst Hsnd]; [lia..|].
  fold t in Hfst, Hsnd. rewrite HX, HY in Hsnd.
  destruct (stores_cover t F) as (Z' & Hst & HZ').
  { rewrite Hfst. subst F. rewrite length_replicate. f_equiv. lia. }
  exists Z'. rewrite Hst. rewrite copy_arr_parallel_spec by lia.
  assert (Hlen : Z.of_nat (length Z') = r - l + 1).
  { rewrite HZ', Hsnd, length_app. lia. }
  rewrite <- Hlen, suf_whole. split_and!.
  - rewrite Hl. subst arr. apply stores_at_index. rewrite HZ', Hsnd. done.
  - by rewrite HZ', Hsnd.
  - intros H16 H1. rewrite <- Hst. subst t.
    destruct (Z.to_nat (r - l + 1)) as [|f] eqn:Ef; [lia|]. cbn [merge_parallel_aux].
    rewrite (proj2 (Z.leb_le _ _)) by (unfold MIN_THREAD_ELEM; lia).
    unfold merge_serial_2. rewrite merge_trace_spec, HX, HY.
    pose proof (stores_at_index [] F [] (lmerge X Y)) as HS. rewrite !app_nil_r in HS. apply HS.
    rewrite <- lmerge_perm, length_app. subst F. rewrite length_replicate. lia.
Qed.

Lemma merge_sort_threaded_spec fuel n_proc A X B l r :
  1 <= n_proc -> (length X <= fuel)%nat -> Forall small_key X ->
  l = Z.of_nat (length A) -> r = l + Z.of_nat (length X) - 1 ->
  exists X', merge_sort_threaded fuel n_proc (A ++ X ++ B) l r = A ++ X' ++ B /\ X' ≡ₚ X /\
    ((length X <= 32)%nat -> sorts X X').
Proof.
  intros Hp. revert A X B l r. induction fuel as [|f IH]; intros A X B l r Hf HX Hl Hr.
  - destruct X; [|cbn in Hf; lia]. exists []. split_and!; [done..|]. by repeat constructor.
  - cbn [merge_sort_threaded]. destruct (Z.leb_spec (r - l + 1) MIN_THREAD_ELEM) as [Hs|Hs].
    { replace (r - l + 1) with (Z.of_nat (length X)) by lia. rewrite Hl.
      destruct (insertion_sort_spec A X B HX) as (X' & -> & HX'). exists X'.
      split_and!; [done | by rewrite (sorts_perm _ _ HX') | done]. }
    unfold MIN_THREAD_ELEM in Hs. rewrite (proj2 (Z.ltb_lt l r)) by lia.
    set (m := l + (r - l) / 2). assert (Hm : l + (r - l - 1) <= 2 * m - l <= r) by (subst m; zlia).
    assert (Hn : exists X1 X2, X = X1 ++ X2 /\ Z.of_nat (length X1) = m - l + 1).
    { exists (take (Z.to_nat (m - l + 1)) X), (drop (Z.to_nat (m - l + 1)) X).
      rewrite take_drop, length_take. split; [done|]. lia. }
    destruct Hn as (X1 & X2 & -> & Hl1). rewrite length_app in Hf, Hr.
    apply Forall_app in HX as [HX1 HX2]. rewrite <- app_assoc.
    destruct (IH A X1 (X2 ++ B) l m) as (Y1 & -> & HY1 & HS1); [lia | done | done | lia |].
    pose proof (Permutation_length HY1) as HlY1.
    destruct (IH (A ++ Y1) X2 B (m + 1) r) as (Y2 & Hrun & HY2 & HS2);
      [lia | done | rewrite length_app; lia | lia |].
    replace (A ++ Y1 ++ X2 ++ B) with ((A ++ Y1) ++ X2 ++ B) by (by rewrite <- app_assoc).
    rewrite Hrun. pose proof (Permutation_length HY2) as HlY2.
    replace ((A ++ Y1) ++ Y2 ++ B) with (A ++ (Y1 ++ Y2) ++ B) by (by rewrite <- !app_assoc).
    destruct (merge_parallel_spec n_proc A Y1 Y2 B l m r) as (Z' & -> & HZ & HM); [lia..|].
    exists Z'. split_and!; [done | by rewrite HZ, HY1, HY2 |].
    rewrite length_app. intros H32. rewrite HM by lia. apply lmerge_sorts; [done..| |].
    + apply HS1. lia.
    + apply HS2. lia.
Qed.

(** ** The properties *)

(** C39: the three serial routines agree: on [n] elements starting at index
    [l] of an array, insertion sort (called on [arr + l]), serial merge sort of
    [l .. l + n - 1] and, for [l = 0], bubble sort all leave the one stable
    sort of the range (ascending keys, equal keys in their original order) and
    touch nothing outside it, provided the keys lie in [-2^30 .. 2^30 - 1]. *)
Theorem serial_sorts_agree A X B :
  Forall small_key X ->
  let l := Z.of_nat (length A) in
  let n := Z.of_nat (length X) in
  exists X', sorts X X' /\ (forall X'', sorts X X'' -> X'' = X') /\
    merge_sort_serial (length X) (A ++ X ++ B) l (l + n - 1) = A ++ X' ++ B /\
    insertion_sort (A ++ X ++ B) l n = A ++ X' ++ B /\
    bubble_sort_elem (X ++ B) n = X' ++ B.
Proof.
  intros HX l n.
  destruct (merge_sort_serial_spec (length X) A X B l (l + n - 1)) as (X1 & E1 & S1); [lia | done | done | lia |].
  destruct (insertion_sort_spec A X B HX) as (X2 & E2 & S2).
  destruct (bubble_sort_spec X B HX) as (X3 & E3 & S3).
  exists X1. split_and!; [done | | done | |].
  - intros X'' S''. by apply (sorts_unique X).
  - rewrite (sorts_unique _ _ _ S1 S2). exact E2.
  - rewrite (sorts_unique _ _ _ S1 S3). exact E3.
Qed.

Lemma serial_sorts_agree_witness :
  let X := [mk 7; mk (2 ^ 32 - 3); mk 5; mk 7] in
  exists X', sorts X X' /\ merge_sort_serial 4 (mk 9 :: X) 1 4 = mk 9 :: X'.
Proof.
  intros X. destruct (serial_sorts_agree [mk 9] X []) as (X' & HX' & _ & E & _).
  - apply (bool_decide_unpack _). vm_compute. exact I.
  - exists X'. rewrite !app_nil_r in E. split; [exact HX' | exact E].
Defined.

(** C40: the parallel merge is independent of the schedule of its threads:
    in whatever order the stores of the merging threads to [B] and then those
    of the copying threads to the array happen, the array ends up the same,
    with the elements of the two ranges kept and the rest untouched. *)
Theorem merge_parallel_schedule n_proc A X Y B t t' :
  let l := Z.of_nat (length A) in
  let m := l + Z.of_nat (length X) - 1 in
  let r := m + Z.of_nat (length Y) in
  let arr := A ++ (X ++ Y) ++ B in
  1 <= n_proc ->
  t ≡ₚ merge_parallel_aux (Z.to_nat (r - l + 1)) arr l m (m + 1) r 0 ->
  let F := stores t (replicate (Z.to_nat (r - l + 1)) elem0) in
  t' ≡ₚ copy_arr_parallel n_proc F l (r - l + 1) ->
  stores t' arr = merge_parallel n_proc arr l m r /\
  exists Z', stores t' arr = A ++ Z' ++ B /\ Z' ≡ₚ X ++ Y.
Proof.
  intros l m r arr Hp Ht F Ht'.
  assert (HF : F = stores (merge_parallel_aux (Z.to_nat (r - l + 1)) arr l m (m + 1) r 0)
                     (replicate (Z.to_nat (r - l + 1)) elem0)).
  { apply stores_schedule; [done|]. rewrite Ht.
    destruct (merge_parallel_aux_cover (Z.to_nat (r - l + 1)) arr l m (m + 1) r 0) as [-> _]; [lia..|].
    apply seqZ_NoDup. }
  assert (E : stores t' arr = merge_parallel n_proc arr l m r).
  { unfold merge_parallel. rewrite <- HF. apply stores_schedule; [done|].
    rewrite Ht', copy_arr_parallel_spec, at_index_fst by lia. apply seqZ_NoDup. }
  split; [done|]. rewrite E.
  destruct (merge_parallel_spec n_proc A X Y B l m r) as (Z' & H1 & H2 & _); [done..|]. eauto.
Qed.

Lemma merge_parallel_schedule_witness :
  stores (reverse (copy_arr_parallel 2
      (stores (reverse (merge_parallel_aux 3 [mk 1; mk 3; mk 2] 0 1 2 2 0)) (replicate 3 elem0)) 0 3))
    [mk 1; mk 3; mk 2] = merge_parallel 2 [mk 1; mk 3; mk 2] 0 1 2.
Proof.
  refine (proj1 (merge_parallel_schedule 2 [] [mk 1; mk 3] [mk 2] [] _ _ ltac:(lia) _ _)).
  - apply reverse_Permutation.
  - apply reverse_Permutation.
Defined.

(** The parallel sort terminates, keeps the elements of its range for any
    input, touches nothing else, and computes the stable sort of ranges of at
    most 32 elements (two runs of [MIN_THREAD_ELEM]). *)
Lemma merge_sort_parallel_upto_32 n_proc A X B :
  1 <= n_proc -> Forall small_key X ->
  let l := Z.of_nat (length A) in
  exists X', merge_sort_parallel n_proc (A ++ X ++ B) l (l + Z.of_nat (length X) - 1) = A ++ X' ++ B /\
    X' ≡ₚ X /\ ((length X <= 32)%nat -> sorts X X').
Proof.
  intros Hp HX l. unfold merge_sort_parallel. apply merge_sort_threaded_spec; [done | lia | done | done | done].
Qed.

(** Beyond that the parallel sort is wrong: it does not sort the 33
    keys 32, 31, .., 0.  The split point of a pivot greater
    than every element of the other range is its last index instead of the
    index after it, because the search never returns [r + 1]. *)
Lemma merge_sort_parallel_33_unsorted :
  let a := map mk (reverse (seqZ 0 33)) in
  find_split_point [mk 1; mk 2] 0 1 (mk 3) = 1 /\
  map key (merge_sort_serial 33 a 0 32) = seqZ 0 33 /\
  map key (merge_sort_parallel 4 a 0 32) <> seqZ 0 33.
Proof.
  cbn zeta. split; [by vm_compute|]. split; [by vm_compute|].
  intros H. vm_compute in H. discriminate H.
Qed.

(** The comparison of keys more than [2^31 - 1] apart has the wrong sign,
    and the serial merge sort leaves such a pair in descending order. *)
Lemma compare_elem_overflow :
  let a := mk (2 ^ 31 - 1) in
  let b := mk (2 ^ 32 - 1) in
  key a = 2 ^ 31 - 1 /\ key b = - 1 /\ compare_elem a b < 0 /\
  map key (merge_sort_serial 2 [a; b] 0 1) = [2 ^ 31 - 1; - 1].
Proof. cbn zeta. split_and!; by vm_compute. Qed.
