(* ===== verification/Fs.v ===== *)
(** The file system, [xv6/base/fs.c], over the buffer cache interface and the
    log.

    The state [fs] holds the cache, the log, the superblock, the inode cache
    and the current directory of the running process; a routine is a state
    transformer that may panic or sleep ([SR]).  An inode pointer is the index
    of its entry in the inode cache, a NULL pointer is [None].  The spinlock
    of the inode cache is the atomicity of the routines.  A [char*] that a
    routine reads is a list of bytes, NUL-terminated by the end of the list.
    The device switch is a parameter.

    Loops run on fuel; [Panic "fuel"] is not an outcome of the C code, the
    theorems show that it does not arise. *)

From S2P Require Import Prelude CString Block Bio Log.

(** ** Data *)

Definition ROOTDEV : Z := 1.
Definition ROOTINO : Z := 1.
Definition NINODE : nat := 50.
Definition NDEV : Z := 10.
Definition NDIRECT : Z := 12.
Definition NINDIRECT : Z := BSIZE / 4.
Definition MAXFILE : Z := NDIRECT + NINDIRECT.
Definition DIRSIZ : Z := 14.
Definition IPB : Z := BSIZE / 64.
Definition BPB : Z := BSIZE * 8.
Definition T_DIR : Z := 1.
Definition T_FILE : Z := 2.
Definition T_DEV : Z := 3.

(** The constants, for arithmetic. *)
Ltac fs_consts :=
  change MAXFILE with 140 in *; change NDIRECT with 12 in *; change NINDIRECT with 128 in *;
  change BSIZE with 512 in *.

Record inode := mkInode {
  i_dev : Z; i_inum : Z; i_ref : Z; i_lock : sleeplock; i_valid : bool;
  i_type : Z; i_major : Z; i_minor : Z; i_nlink : Z; i_size : Z;
  i_addrs : list Z   (* NDIRECT + 1 of them *)
}.

Definition inode0 : inode := mkInode 0 0 0 initsleeplock false 0 0 0 0 0 (replicate 13 0).

Definition iset_id (dev inum : Z) (ip : inode) : inode :=
  mkInode dev inum 1 (i_lock ip) false (i_type ip) (i_major ip) (i_minor ip) (i_nlink ip)
    (i_size ip) (i_addrs ip).
Definition iset_ref (r : Z) (ip : inode) : inode :=
  mkInode (i_dev ip) (i_inum ip) r (i_lock ip) (i_valid ip) (i_type ip) (i_major ip) (i_minor ip)
    (i_nlink ip) (i_size ip) (i_addrs ip).
Definition iset_lock (k : sleeplock) (ip : inode) : inode :=
  mkInode (i_dev ip) (i_inum ip) (i_ref ip) k (i_valid ip) (i_type ip) (i_major ip) (i_minor ip)
    (i_nlink ip) (i_size ip) (i_addrs ip).
Definition iset_valid (b : bool) (ip : inode) : inode :=
  mkInode (i_dev ip) (i_inum ip) (i_ref ip) (i_lock ip) b (i_type ip) (i_major ip) (i_minor ip)
    (i_nlink ip) (i_size ip) (i_addrs ip).
Definition iset_meta (t ma mi nl sz : Z) (a : list Z) (ip : inode) : inode :=
  mkInode (i_dev ip) (i_inum ip) (i_ref ip) (i_lock ip) (i_valid ip) t ma mi nl sz a.
Definition iset_type (t : Z) (ip : inode) : inode :=
  iset_meta t (i_major ip) (i_minor ip) (i_nlink ip) (i_size ip) (i_addrs ip) ip.
Definition iset_major_minor (ma mi : Z) (ip : inode) : inode :=
  iset_meta (i_type ip) ma mi (i_nlink ip) (i_size ip) (i_addrs ip) ip.
Definition iset_nlink (n : Z) (ip : inode) : inode :=
  iset_meta (i_type ip) (i_major ip) (i_minor ip) n (i_size ip) (i_addrs ip) ip.
Definition iset_size (n : Z) (ip : inode) : inode :=
  iset_meta (i_type ip) (i_major ip) (i_minor ip) (i_nlink ip) n (i_addrs ip) ip.
Definition iset_addrs (a : list Z) (ip : inode) : inode :=
  iset_meta (i_type ip) (i_major ip) (i_minor ip) (i_nlink ip) (i_size ip) a ip.

(** [struct stat] *)
Record stat := mkStat { st_type : Z; st_dev : Z; st_ino : Z; st_nlink : Z; st_size : Z }.

Record fs (C : Type) := mkFs {
  fs_cache : C;
  fs_log : logst;
  fs_sb : superblock;
  icache : list inode;
  fs_cwd : nat
}.
Arguments mkFs {C} _ _ _ _ _.
Arguments fs_cache {C} _.
Arguments fs_log {C} _.
Arguments fs_sb {C} _.
Arguments icache {C} _.
Arguments fs_cwd {C} _.

(** Block containing inode [i], and block of the free map with the bit of [b]. *)
Definition IBLOCK (i : Z) (sb : superblock) : Z := u32 (i / IPB + sb_inodestart sb).
Definition BBLOCK (b : Z) (sb : superblock) : Z := u32 (b / BPB + sb_bmapstart sb).

(** The fields of the [struct dinode] at byte [o] of a block. *)
Definition dino (i : Z) : Z := i mod IPB * 64.
Definition d_type (b : block) (o : Z) : Z := s16 (get16 b o).
Definition d_addrs (b : block) (o : Z) : list Z := map (fun k => get32 b (o + 12 + 4 * Z.of_nat k)) (seq 0 13).

(** A C string (or a buffer) at address 0 of an otherwise empty memory, with a
    second one at 64: what [namecmp] and [strncpy] see. *)
Definition two_strings (s t : list Z) : mem := fun a =>
  if a <? 64 then nth (Z.to_nat a) s 0 else nth (Z.to_nat (a - 64)) t 0.

Section Fs.
Context {C : Type} {ops : BufOps C}.
(** The running process, and [devsw[major].read] and [.write]. *)
Context (pid : Z).
Context (dev_read : Z -> option (nat -> Z -> SR (fs C) (Z * list Z))).
Context (dev_write : Z -> option (nat -> list Z -> SR (fs C) Z)).

Abbreviation M := (SR (fs C)).

(** ** Access to the parts of the state *)

Definition fset_cache (c : C) (s : fs C) : fs C := mkFs c (fs_log s) (fs_sb s) (icache s) (fs_cwd s).
Definition fset_log (l : logst) (c : C) (s : fs C) : fs C := mkFs c l (fs_sb s) (icache s) (fs_cwd s).
Definition fset_icache (t : list inode) (s : fs C) : fs C :=
  mkFs (fs_cache s) (fs_log s) (fs_sb s) t (fs_cwd s).

Definition m_bread (dev bno : Z) : M nat := fun s =>
  '(i, c) ← c_bread dev bno (fs_cache s); Ok (i, fset_cache c s).
Definition m_brelse (i : nat) : M unit := fun s =>
  c ← c_brelse i (fs_cache s); Ok (tt, fset_cache c s).
Definition m_log_write (i : nat) : M unit := fun s =>
  '(l, c) ← log_write i (fs_log s) (fs_cache s); Ok (tt, fset_log l c s).
Definition m_data (i : nat) : M block := sr_gets (fun s => c_data (fs_cache s) i).
Definition m_set (i : nat) (b : block) : M unit :=
  sr_modify (fun s => fset_cache (c_set i b (fs_cache s)) s).
Definition m_sb : M superblock := sr_gets fs_sb.

Definition nth_ip (s : fs C) (ip : nat) : inode := default inode0 (icache s !! ip).
Definition m_ip (ip : nat) : M inode := sr_gets (fun s => nth_ip s ip).
Definition m_ip_set (ip : nat) (f : inode -> inode) : M unit :=
  sr_modify (fun s => fset_icache (alter f ip (icache s)) s).

(** ** Blocks *)

Definition bzero (dev bno : Z) : M unit :=
  bp ← m_bread dev bno;
  _ ← m_set bp (replicate (Z.to_nat BSIZE) 0);
  _ ← m_log_write bp;
  m_brelse bp.

(** The scan of one bitmap block for a free bit. *)
Fixpoint balloc_bit (fuel : nat) (d : block) (b bi size : Z) : option Z :=
  match fuel with
  | O => None
  | S f =>
      if (bi <? BPB) && (b + bi <? size) then
        let m := Z.shiftl 1 (bi mod 8) in
        if Z.land (get8 d (bi / 8)) m =? 0 then Some bi else balloc_bit f d b (bi + 1) size
      else None
  end.

Fixpoint balloc_loop (fuel : nat) (dev b : Z) : M Z :=
  match fuel with
  | O => sr_panic "fuel"
  | S f =>
      sb ← m_sb;
      if b <? sb_size sb then
        bp ← m_bread dev (BBLOCK b sb);
        d ← m_data bp;
        match balloc_bit (Z.to_nat BPB) d b 0 (sb_size sb) with
        | Some bi =>
            let m := Z.shiftl 1 (bi mod 8) in
            _ ← m_set bp (put8 d (bi / 8) (Z.lor (get8 d (bi / 8)) m));
            _ ← m_log_write bp;
            _ ← m_brelse bp;
            _ ← bzero dev (b + bi);
            mret (b + bi)
        | None =>
            _ ← m_brelse bp;
            balloc_loop f dev (b + BPB)
        end
      else sr_panic "balloc: out of blocks"
  end.

Definition balloc (dev : Z) : M Z :=
  sb ← m_sb; balloc_loop (S (Z.to_nat (sb_size sb / BPB + 1))) dev 0.

Definition bfree (dev b : Z) : M unit :=
  sb ← m_sb;
  bp ← m_bread dev (BBLOCK b sb);
  d ← m_data bp;
  let bi := b mod BPB in
  let m := Z.shiftl 1 (bi mod 8) in
  if Z.land (get8 d (bi / 8)) m =? 0 then sr_panic "freeing free block"
  else
    _ ← m_set bp (put8 d (bi / 8) (Z.land (get8 d (bi / 8)) (Z.lnot m)));
    _ ← m_log_write bp;
    m_brelse bp.

(** ** Inodes *)

Definition iinit (dev : Z) : M unit := fun s =>
  let s1 := fset_icache (map (iset_lock initsleeplock) (icache s)) s in
  '(sb, c) ← readsb dev (fs_cache s1);
  Ok (tt, mkFs c (fs_log s1) sb (icache s1) (fs_cwd s1)).

(** The scan of [iget]: the cached entry, or else the first empty slot. *)
Definition icached (dev inum : Z) (ip : inode) : bool :=
  (0 <? i_ref ip) && (i_dev ip =? dev) && (i_inum ip =? inum).

Definition iget (dev inum : Z) : M nat := fun s =>
  match find_idx (icached dev inum) (icache s) with
  | Some ip => Ok (ip, fset_icache (alter (fun x => iset_ref (i_ref x + 1) x) ip (icache s)) s)
  | None =>
      match find_idx (fun x => i_ref x =? 0) (icache s) with
      | None => Panic "iget: no inodes"
      | Some ip => Ok (ip, fset_icache (alter (iset_id dev inum) ip (icache s)) s)
      end
  end.

Fixpoint ialloc_loop (fuel : nat) (dev type inum : Z) : M nat :=
  match fuel with
  | O => sr_panic "fuel"
  | S f =>
      sb ← m_sb;
      if inum <? sb_ninodes sb then
        bp ← m_bread dev (IBLOCK inum sb);
        d ← m_data bp;
        if d_type d (dino inum) =? 0 then
          _ ← m_set bp (put16 (splice d (dino inum) (replicate 64 0)) (dino inum) type);
          _ ← m_log_write bp;
          _ ← m_brelse bp;
          iget dev inum
        else
          _ ← m_brelse bp;
          ialloc_loop f dev type (inum + 1)
      else sr_panic "ialloc: no inodes"
  end.

Definition ialloc (dev type : Z) : M nat :=
  sb ← m_sb; ialloc_loop (S (Z.to_nat (sb_ninodes sb))) dev type 1.

(** The stores of [iupdate] into the dinode at byte [o]. *)
Definition encode_dinode (x : inode) (o : Z) (d : block) : block :=
  let d := put16 d o (i_type x) in
  let d := put16 d (o + 2) (i_major x) in
  let d := put16 d (o + 4) (i_minor x) in
  let d := put16 d (o + 6) (i_nlink x) in
  let d := put32 d (o + 8) (i_size x) in
  foldl (fun d k => put32 d (o + 12 + 4 * Z.of_nat k) (nth k (i_addrs x) 0)) d (seq 0 13).

Definition iupdate (ip : nat) : M unit :=
  x ← m_ip ip;
  sb ← m_sb;
  bp ← m_bread (i_dev x) (IBLOCK (i_inum x) sb);
  d ← m_data bp;
  _ ← m_set bp (encode_dinode x (dino (i_inum x)) d);
  _ ← m_log_write bp;
  m_brelse bp.

Definition idup (ip : nat) : M nat :=
  _ ← m_ip_set ip (fun x => iset_ref (i_ref x + 1) x); mret ip.

Definition m_acquiresleep (ip : nat) : M unit := fun s =>
  k ← acquiresleep pid (i_lock (nth_ip s ip));
  Ok (tt, fset_icache (alter (iset_lock k) ip (icache s)) s).
Definition m_releasesleep (ip : nat) : M unit :=
  m_ip_set ip (fun x => iset_lock (releasesleep (i_lock x)) x).

(** The fields [ilock] copies from the dinode at byte [o]. *)
Definition decode_dinode (d : block) (o : Z) (x : inode) : inode :=
  iset_meta (s16 (get16 d o)) (s16 (get16 d (o + 2))) (s16 (get16 d (o + 4)))
    (s16 (get16 d (o + 6))) (get32 d (o + 8)) (d_addrs d o) x.

Definition ilock (ip : option nat) : M unit :=
  match ip with
  | None => sr_panic "ilock"
  | Some ip =>
      x ← m_ip ip;
      if i_ref x <? 1 then sr_panic "ilock"
      else
        _ ← m_acquiresleep ip;
        x ← m_ip ip;
        if i_valid x then mret tt
        else
          sb ← m_sb;
          bp ← m_bread (i_dev x) (IBLOCK (i_inum x) sb);
          d ← m_data bp;
          _ ← m_ip_set ip (decode_dinode d (dino (i_inum x)));
          _ ← m_brelse bp;
          _ ← m_ip_set ip (iset_valid true);
          y ← m_ip ip;
          if i_type y =? 0 then sr_panic "ilock: no type" else mret tt
  end.

Definition iunlock (ip : option nat) : M unit :=
  match ip with
  | None => sr_panic "iunlock"
  | Some ip =>
      x ← m_ip ip;
      if negb (holdingsleep pid (i_lock x)) || (i_ref x <? 1) then sr_panic "iunlock"
      else m_releasesleep ip
  end.

(** ** Inode content *)

Definition bmap (ip : nat) (bn : Z) : M Z :=
  x ← m_ip ip;
  if bn <? NDIRECT then
    let addr := nth (Z.to_nat bn) (i_addrs x) 0 in
    if addr =? 0 then
      addr ← balloc (i_dev x);
      _ ← m_ip_set ip (fun x => iset_addrs (<[Z.to_nat bn := addr]> (i_addrs x)) x);
      mret addr
    else mret addr
  else
    let bn := bn - NDIRECT in
    if bn <? NINDIRECT then
      let addr := nth (Z.to_nat NDIRECT) (i_addrs x) 0 in
      addr ← (if addr =? 0 then
                addr ← balloc (i_dev x);
                _ ← m_ip_set ip (fun x => iset_addrs (<[Z.to_nat NDIRECT := addr]> (i_addrs x)) x);
                mret addr
              else mret addr);
      bp ← m_bread (i_dev x) addr;
      d ← m_data bp;
      let addr := get32 d (4 * bn) in
      addr ← (if addr =? 0 then
                addr ← balloc (i_dev x);
                d' ← m_data bp;
                _ ← m_set bp (put32 d' (4 * bn) addr);
                _ ← m_log_write bp;
                mret addr
              else mret addr);
      _ ← m_brelse bp;
      mret addr
    else sr_panic "bmap: out of range".

(** A loop over a list of indices in the monad. *)
Fixpoint m_for {A} (body : A -> M unit) (l : list A) : M unit :=
  match l with
  | [] => mret tt
  | i :: l' => _ ← body i; m_for body l'
  end.

Definition itrunc_direct (ip i : nat) : M unit :=
  x ← m_ip ip;
  let a := nth i (i_addrs x) 0 in
  if a =? 0 then mret tt
  else
    _ ← bfree (i_dev x) a;
    m_ip_set ip (fun x => iset_addrs (<[i := 0]> (i_addrs x)) x).

Definition itrunc_indirect (ip bp j : nat) : M unit :=
  x ← m_ip ip;
  d ← m_data bp;
  let a := get32 d (4 * Z.of_nat j) in
  if a =? 0 then mret tt else bfree (i_dev x) a.

Definition itrunc (ip : nat) : M unit :=
  _ ← m_for (itrunc_direct ip) (seq 0 (Z.to_nat NDIRECT));
  x ← m_ip ip;
  let a := nth (Z.to_nat NDIRECT) (i_addrs x) 0 in
  _ ← (if a =? 0 then mret tt
       else
         bp ← m_bread (i_dev x) a;
         _ ← m_for (itrunc_indirect ip bp) (seq 0 (Z.to_nat NINDIRECT));
         _ ← m_brelse bp;
         _ ← bfree (i_dev x) a;
         m_ip_set ip (fun x => iset_addrs (<[Z.to_nat NDIRECT := 0]> (i_addrs x)) x));
  _ ← m_ip_set ip (iset_size 0);
  iupdate ip.

Definition iput (ip : nat) : M unit :=
  _ ← m_acquiresleep ip;
  x ← m_ip ip;
  _ ← (if i_valid x && (i_nlink x =? 0) then
         if i_ref x =? 1 then
           _ ← itrunc ip;
           _ ← m_ip_set ip (iset_type 0);
           _ ← iupdate ip;
           m_ip_set ip (iset_valid false)
         else mret tt
       else mret tt);
  _ ← m_releasesleep ip;
  m_ip_set ip (fun x => iset_ref (i_ref x - 1) x).

Definition iunlockput (ip : nat) : M unit :=
  _ ← iunlock (Some ip); iput ip.

Definition stati (ip : nat) : M stat :=
  x ← m_ip ip; mret (mkStat (i_type x) (i_dev x) (i_inum x) (i_nlink x) (i_size x)).

(** [tot] bytes are copied to [dst]; at every turn at least one more. *)
Fixpoint readi_loop (fuel : nat) (ip : nat) (dst : list Z) (off tot n : Z) : M (list Z) :=
  match fuel with
  | O => sr_panic "fuel"
  | S f =>
      if tot <? n then
        x ← m_ip ip;
        a ← bmap ip (off / BSIZE);
        bp ← m_bread (i_dev x) a;
        let m := Z.min (n - tot) (BSIZE - off mod BSIZE) in
        d ← m_data bp;
        _ ← m_brelse bp;
        readi_loop f ip (dst ++ take (Z.to_nat m) (drop (Z.to_nat (off mod BSIZE)) d))
          (off + m) (tot + m) n
      else mret dst
  end.

Definition io_fuel (n : Z) : nat := Z.to_nat (n / BSIZE + 3).

(** The returned count, and the bytes stored at [dst]. *)
Definition readi (ip : nat) (off n : Z) : M (Z * list Z) :=
  x ← m_ip ip;
  if i_type x =? T_DEV then
    if (i_major x <? 0) || (NDEV <=? i_major x) then mret (-1, [])
    else match dev_read (i_major x) with
         | None => mret (-1, [])
         | Some f => f ip n
         end
  else if (i_size x <? off) || (u32 (off + n) <? off) then mret (-1, [])
  else
    let n := if i_size x <? off + n then i_size x - off else n in
    dst ← readi_loop (io_fuel n) ip [] off 0 n;
    mret (n, dst).

Fixpoint writei_loop (fuel : nat) (ip : nat) (src : list Z) (off tot n : Z) : M Z :=
  match fuel with
  | O => sr_panic "fuel"
  | S f =>
      if tot <? n then
        x ← m_ip ip;
        a ← bmap ip (off / BSIZE);
        bp ← m_bread (i_dev x) a;
        let m := Z.min (n - tot) (BSIZE - off mod BSIZE) in
        d ← m_data bp;
        _ ← m_set bp (splice d (off mod BSIZE) (take (Z.to_nat m) src));
        _ ← m_log_write bp;
        _ ← m_brelse bp;
        writei_loop f ip (drop (Z.to_nat m) src) (off + m) (tot + m) n
      else mret off
  end.

(** [src] holds the [n] bytes to write. *)
Definition writei (ip : nat) (src : list Z) (off n : Z) : M Z :=
  x ← m_ip ip;
  if i_type x =? T_DEV then
    if (i_major x <? 0) || (NDEV <=? i_major x) then mret (-1)
    else match dev_write (i_major x) with
         | None => mret (-1)
         | Some f => f ip src
         end
  else if (i_size x <? off) || (u32 (off + n) <? off) then mret (-1)
  else if MAXFILE * BSIZE <? off + n then mret (-1)
  else
    off ← writei_loop (io_fuel n) ip src off 0 n;
    y ← m_ip ip;
    _ ← (if (0 <? n) && (i_size y <? off) then
           _ ← m_ip_set ip (iset_size off);
           iupdate ip
         else mret tt);
    mret n.

(** ** Directories *)

Definition namecmp (s t : list Z) : Z := strncmp (two_strings s t) 0 64 DIRSIZ.

(** [struct dirent]: a [ushort] and 14 bytes. *)
Definition de_inum (de : list Z) : Z := get16 de 0.
Definition de_name (de : list Z) : list Z := drop 2 de.
Definition mk_dirent (inum : Z) (name : list Z) : list Z :=
  let m := strncpy (two_strings name []) 64 0 DIRSIZ in
  le16 inum ++ map (fun i => m (64 + i)) (seqZ 0 DIRSIZ).

Fixpoint dirlookup_loop (fuel : nat) (dp : nat) (name : list Z) (off : Z) : M (option (nat * Z)) :=
  match fuel with
  | O => sr_panic "fuel"
  | S f =>
      x ← m_ip dp;
      if off <? i_size x then
        '(r, de) ← readi dp off 16;
        if negb (r =? 16) then sr_panic "dirlookup read"
        else if de_inum de =? 0 then dirlookup_loop f dp name (off + 16)
        else if namecmp name (de_name de) =? 0 then
          ip ← iget (i_dev x) (de_inum de);
          mret (Some (ip, off))
        else dirlookup_loop f dp name (off + 16)
      else mret None
  end.

(** The entry found and the offset stored in [*poff]. *)
Definition dirlookup (dp : nat) (name : list Z) : M (option (nat * Z)) :=
  x ← m_ip dp;
  if negb (i_type x =? T_DIR) then sr_panic "dirlookup not DIR"
  else dirlookup_loop (Z.to_nat (i_size x / 16 + 2)) dp name 0.

(** The loop "look for an empty dirent": the offset it stops at. *)
Fixpoint dirlink_loop (fuel : nat) (dp : nat) (off : Z) : M Z :=
  match fuel with
  | O => sr_panic "fuel"
  | S f =>
      x ← m_ip dp;
      if off <? i_size x then
        '(r, de) ← readi dp off 16;
        if negb (r =? 16) then sr_panic "dirlink read"
        else if de_inum de =? 0 then mret off
        else dirlink_loop f dp (off + 16)
      else mret off
  end.

Definition dirlink (dp : nat) (name : list Z) (inum : Z) : M Z :=
  o ← dirlookup dp name;
  match o with
  | Some (ip, _) => _ ← iput ip; mret (-1)
  | None =>
      x ← m_ip dp;
      off ← dirlink_loop (Z.to_nat (i_size x / 16 + 2)) dp 0;
      r ← writei dp (mk_dirent inum name) off 16;
      if negb (r =? 16) then sr_panic "dirlink" else mret 0
  end.

End Fs.

(** ** Paths *)

Definition slash : Z := 47.

Fixpoint skip_slashes (path : list Z) : list Z :=
  match path with
  | c :: path' => if c =? slash then skip_slashes path' else path
  | [] => []
  end.

(** The scan of one element: its bytes, and the path from there on. *)
Fixpoint scan_elem (path : list Z) : list Z * list Z :=
  match path with
  | c :: path' => if c =? slash then ([], path) else let '(e, r) := scan_elem path' in (c :: e, r)
  | [] => ([], [])
  end.

(** [name] is the buffer of [DIRSIZ] bytes before and after. *)
Definition skipelem (path name : list Z) : option (list Z * list Z) :=
  let path := skip_slashes path in
  match path with
  | [] => None
  | _ =>
      let '(s, path) := scan_elem path in
      let len := Z.of_nat (length s) in
      let name := if DIRSIZ <=? len then splice name 0 (take (Z.to_nat DIRSIZ) s)
                  else splice name 0 (s ++ [0]) in
      Some (skip_slashes path, name)
  end.

Section Names.
Context {C : Type} {ops : BufOps C}.
Context (pid : Z).
Context (dev_read : Z -> option (nat -> Z -> SR (fs C) (Z * list Z))).
Abbreviation M := (SR (fs C)).

Fixpoint namex_loop (fuel : nat) (ip : nat) (path : list Z) (nameiparent : bool) (name : list Z)
    : M (option nat * list Z) :=
  match fuel with
  | O => sr_panic "fuel"
  | S f =>
      match skipelem path name with
      | None =>
          if nameiparent then _ ← iput pid ip; mret (None, name)
          else mret (Some ip, name)
      | Some (path, name) =>
          _ ← ilock pid (Some ip);
          x ← m_ip ip;
          if negb (i_type x =? T_DIR) then
            _ ← iunlockput pid ip; mret (None, name)
          else if nameiparent && (match path with [] => true | _ => false end) then
            _ ← iunlock pid (Some ip); mret (Some ip, name)
          else
            next ← dirlookup dev_read ip name;
            match next with
            | None => _ ← iunlockput pid ip; mret (None, name)
            | Some (next, _) =>
                _ ← iunlockput pid ip;
                namex_loop f next path nameiparent name
            end
      end
  end.

Definition namex (path : list Z) (nameiparent : bool) (name : list Z) : M (option nat * list Z) :=
  ip ← (match path with
        | c :: _ => if c =? slash then iget ROOTDEV ROOTINO else cwd ← sr_gets fs_cwd; idup cwd
        | [] => cwd ← sr_gets fs_cwd; idup cwd
        end);
  namex_loop (S (length path)) ip path nameiparent name.

Definition namei (path : list Z) : M (option nat) :=
  '(ip, _) ← namex path false (replicate (Z.to_nat DIRSIZ) 0); mret ip.

Definition nameiparent (path name : list Z) : M (option nat * list Z) :=
  namex path true name.

End Names.
