(* ===== verification/FsFacts.v ===== *)
(** Correctness of the file system routines of [Fs.v] inside a transaction:
    block allocation, the block map of an inode, reading and writing files.

    The routines run over any buffer cache that satisfies the interface
    [BufLaws]; the state of a transaction is the logical contents [v] of the
    blocks and the set [D] of the blocks logged so far.  The only way these
    routines fail in a well-formed file system is the panic of [balloc] on a
    full disk. *)

From S2P Require Import Prelude Block Bio Log Fs.

(** ** Routines inside a transaction

    Between [begin_op] and [end_op] nothing is written to the disk: a routine
    changes the logical contents [v] of the blocks, and every block it changes
    joins the set [D] of logged blocks.  [H] maps the buffers the process
    holds to their block numbers. *)

Section Tx.
Context {C : Type} {ops : BufOps C} {laws : BufLaws C}.
Context (d : gmap Z block) (start lsize dsize : Z).
(** Is an operation running?  Only then blocks may be logged. *)
Context (tx : bool).
Abbreviation M := (SR (fs C)).
Implicit Types (s : fs C) (v : Z -> block) (D : gset Z) (Hh : gmap nat Z).

Record frep s v D Hh : Prop := {
  fr_rep : c_rep (fs_cache s) d v D ∅ Hh;
  fr_tx : tx_inv (fs_log s) D dsize;
  fr_out : tx = true -> 1 <= outstanding (fs_log s);
  fr_start : lg_start (fs_log s) = start;
  fr_lsize : lg_size (fs_log s) = lsize;
  fr_dsize : c_size (fs_cache s) = dsize
}.

(** A block that may be logged, and room for [k] more blocks in the log. *)
Definition home (n : Z) : Prop := 0 <= n < dsize /\ n < 2 ^ 31 /\ ~ (start <= n < start + lsize).
Definition room D (k : nat) : Prop := ((size D + k < 30)%nat /\ Z.of_nat (size D + k) < lsize) /\ tx = true.

(** What the block routines leave alone. *)
Definition same s s' : Prop :=
  fs_sb s' = fs_sb s /\ icache s' = icache s /\ fs_cwd s' = fs_cwd s.

Lemma same_refl s : same s s.
Proof. done. Qed.

Lemma same_trans s1 s2 s3 : same s1 s2 -> same s2 s3 -> same s1 s3.
Proof. unfold same. intros (-> & -> & ->) (-> & -> & ->). done. Qed.

Lemma logged_size l D sz : tx_inv l D sz -> Z.of_nat (size D) = lh_n l.
Proof.
  intros Htx. rewrite (tx_dirty _ _ _ Htx), size_list_to_set by apply Htx.
  unfold logged. rewrite length_map, length_seq. pose proof (lok_n _ _ (tx_ok _ _ _ Htx)). lia.
Qed.

Lemma room_le D k j : room D k -> (j <= k)%nat -> room D j.
Proof. unfold room. intros [H ?] Hj. split; [lia | done]. Qed.

Lemma room_add D n k : room D (S k) -> room (D ∪ {[n]}) k.
Proof.
  intros [H1 H2]. split; [|done]. assert (size (D ∪ {[n]}) <= size D + 1)%nat.
  { rewrite size_union_alt. pose proof (subseteq_size ({[n]} ∖ D) ({[n]} : gset Z) ltac:(set_solver)) as Hs.
    rewrite size_singleton in Hs. lia. }
  lia.
Qed.

Lemma m_bread_ok s v D Hh n :
  frep s v D Hh -> n < dsize -> (forall i, Hh !! i <> Some n) -> (size D + size Hh < 30)%nat ->
  exists i s', m_bread 1 n s = Ok (i, s') /\ frep s' v D (<[i := n]> Hh) /\ Hh !! i = None /\ same s s'.
Proof.
  intros [R Htx Ho Hst Hls Hds] Hn Hnh Hcap.
  destruct (law_bread _ _ _ _ _ _ n R) as (i & c & Hr & R' & Hi & Hsz & _);
    [lia | done | right; rewrite law_cap; unfold NBUF; lia |].
  exists i, (fset_cache c s). unfold m_bread. rewrite Hr. split_and!; [done | | done | done].
  constructor; cbn; try done. congruence.
Qed.

Lemma m_data_ok s v D Hh i n : frep s v D Hh -> Hh !! i = Some n -> m_data i s = Ok (v n, s).
Proof.
  intros [R _ _ _ _ _] Hi. destruct (law_data _ _ _ _ _ _ _ _ R Hi) as [Hd _].
  unfold m_data, sr_gets. by rewrite Hd.
Qed.

Lemma m_brelse_ok s v D Hh i n :
  frep s v D Hh -> Hh !! i = Some n ->
  exists s', m_brelse i s = Ok (tt, s') /\ frep s' v D (delete i Hh) /\ same s s'.
Proof.
  intros [R Htx Ho Hst Hls Hds] Hi.
  destruct (law_brelse _ _ _ _ _ _ _ _ R Hi) as (c & Hr & R' & Hsz & _); [set_solver|].
  exists (fset_cache c s). unfold m_brelse. rewrite Hr. split_and!; [done | | done].
  constructor; cbn; try done. congruence.
Qed.

Lemma log_record_keeps bno l l' :
  log_record bno l = Ok l' -> lg_start l' = lg_start l /\ lg_size l' = lg_size l.
Proof. unfold log_record. repeat case_match; intros; simplify_eq; done. Qed.

(** Changing a held block and logging it. *)
Lemma m_update_ok s v D Hh i n x :
  frep s v D Hh -> Hh !! i = Some n -> length x = 512%nat -> home n -> room D 1 ->
  exists s1 s2, m_set i x s = Ok (tt, s1) /\ m_log_write i s1 = Ok (tt, s2) /\
    frep s2 (<[n := x]> v) (D ∪ {[n]}) Hh /\ same s s2.
Proof.
  intros [R Htx Ho Hst Hls Hds] Hi Hx (Hn & Hn31 & Hnl) [[Hr1 Hr2] Ht].
  destruct (law_set _ _ _ _ _ _ _ _ _ R Hi Hx) as (R1 & Hz1 & _).
  destruct (law_data _ _ _ _ _ _ _ _ R1 Hi) as [_ Hbn].
  pose proof (logged_size _ _ _ Htx) as Hlen.
  destruct (log_record_spec (fs_log s) D dsize n Htx) as (l' & Hrec & _ & Htx' & Ho' & _);
    [done | done | unfold in_log; congruence | unfold LOGSIZE, MAXOPBLOCKS; lia | lia | by apply Ho |].
  destruct (law_pin _ _ _ _ _ _ _ _ R1 Hi) as (R2 & Hz2 & _).
  destruct (log_record_keeps _ _ _ Hrec) as [Hk1 Hk2].
  exists (fset_cache (c_set i x (fs_cache s)) s), (fset_log l' (c_pin i (c_set i x (fs_cache s))) s).
  split_and!; [done | | | done].
  - unfold m_log_write, log_write. cbn [fs_cache fs_log fset_cache]. rewrite Hbn, Hrec. done.
  - constructor; cbn; try congruence.
    2:{ intros _. rewrite Ho'. by apply Ho. }
    replace ((∅ ∪ {[n]}) ∖ {[n]}) with (∅ : gset Z) in R2 by set_solver. done.
Qed.

(** *** Zeroing a block *)

Lemma bzero_ok s v D Hh n :
  frep s v D Hh -> home n -> (forall i, Hh !! i <> Some n) -> room D 1 -> (size D + size Hh < 30)%nat ->
  exists s', bzero 1 n s = Ok (tt, s') /\ frep s' (<[n := zeroes]> v) (D ∪ {[n]}) Hh /\ same s s'.
Proof.
  intros F Hn Hnh Hr Hcap. unfold bzero.
  destruct (m_bread_ok s v D Hh n F) as (i & s1 & E1 & F1 & Hi & S1); [apply Hn | done | done |].
  rewrite (sr_bind_run _ _ _ _ _ E1).
  destruct (m_update_ok s1 v D _ i n zeroes F1) as (s2 & s3 & E2 & E3 & F3 & S3);
    [apply lookup_insert_eq | done | done | done |].
  rewrite (sr_bind_run _ _ _ _ _ E2), (sr_bind_run _ _ _ _ _ E3).
  destruct (m_brelse_ok s3 _ _ _ i n F3) as (s4 & E4 & F4 & S4); [apply lookup_insert_eq|].
  rewrite delete_insert_id in F4 by done. exists s4. split_and!; [done..|].
  eapply same_trans; [exact S1|]. by eapply same_trans.
Qed.


(** *** The free map *)

(** Is block [b] marked in use? *)
Definition used (sb : superblock) v (b : Z) : bool :=
  Z.testbit (get8 (v (BBLOCK b sb)) (b mod BPB / 8)) (b mod 8).

Definition is_bitmap (sb : superblock) (n : Z) : Prop := exists x, 0 <= x < sb_size sb /\ n = BBLOCK x sb.

(** The layout: the free map lies on the disk, outside the log. *)
Record geo (sb : superblock) : Prop := {
  g_size : 0 <= sb_size sb <= dsize;
  g_dsize : dsize <= 2 ^ 31;
  g_start : 0 <= sb_bmapstart sb;
  g_wrap : sb_bmapstart sb + sb_size sb / BPB < 2 ^ 31;
  g_home : forall n, is_bitmap sb n -> home n
}.

(** The boot block and the blocks of the metadata are marked in use. *)
Definition free_ok (sb : superblock) v : Prop :=
  forall b, 0 <= b < sb_size sb -> used sb v b = false -> 0 < b /\ home b /\ ~ is_bitmap sb b.

(** No held buffer is one of the free map or of a free block. *)
Definition held_ok (sb : superblock) v Hh : Prop :=
  forall i n, Hh !! i = Some n -> ~ is_bitmap sb n /\ (0 <= n < sb_size sb -> used sb v n = true).

Lemma land_bit x k : 0 <= k -> (Z.land x (Z.shiftl 1 k) =? 0) = negb (Z.testbit x k).
Proof.
  intros Hk. rewrite Z.shiftl_1_l. destruct (Z.testbit x k) eqn:E; cbn.
  - apply Z.eqb_neq. intros H. assert (Z.testbit (Z.land x (2 ^ k)) k = true) as H1.
    { by rewrite Z.land_spec, E, Z.pow2_bits_true by lia. }
    rewrite H, Z.testbit_0_l in H1. done.
  - apply Z.eqb_eq. apply Z.bits_inj'. intros j Hj. rewrite Z.land_spec, Z.testbit_0_l.
    destruct (decide (j = k)) as [->|Hne]; [by rewrite E|].
    rewrite Z.pow2_bits_false by lia. apply andb_false_r.
Qed.

Lemma balloc_bit_spec fuel dd b bi size :
  0 <= bi -> BPB - bi <= Z.of_nat fuel ->
  match balloc_bit fuel dd b bi size with
  | Some r => bi <= r < BPB /\ b + r < size /\ Z.testbit (get8 dd (r / 8)) (r mod 8) = false /\
      forall j, bi <= j < r -> Z.testbit (get8 dd (j / 8)) (j mod 8) = true
  | None => forall j, bi <= j < BPB -> b + j < size -> Z.testbit (get8 dd (j / 8)) (j mod 8) = true
  end.
Proof.
  revert bi. induction fuel as [|f IH]; intros bi Hbi Hf; cbn [balloc_bit].
  - intros j Hj. unfold BPB, BSIZE in *. lia.
  - destruct (Z.ltb_spec bi BPB) as [Hlt|Hge]; cbn [andb]; [|intros j Hj Hs; lia].
    destruct (Z.ltb_spec (b + bi) size) as [Hs|Hs]; [|intros j Hj Hs'; lia].
    rewrite land_bit by (apply Z.mod_pos_bound; lia).
    destruct (Z.testbit (get8 dd (bi / 8)) (bi mod 8)) eqn:E; cbn [negb].
    + specialize (IH (bi + 1) ltac:(lia) ltac:(lia)).
      destruct (balloc_bit f dd b (bi + 1) size) as [r|].
      * destruct IH as (H1 & H2 & H3 & H4). split_and!; [lia | lia | done | done |].
        intros j Hj. destruct (decide (j = bi)) as [->|]; [done|]. apply H4. lia.
      * intros j Hj Hj'. destruct (decide (j = bi)) as [->|]; [done|]. apply IH; lia.
    + split_and!; [lia | lia | done | done |]. intros; lia.
Qed.

Lemma get8_put8 dd o o' x : length dd = 512%nat -> 0 <= o < 512 -> 0 <= o' ->
  get8 (put8 dd o x) o' = if o' =? o then u8 x else get8 dd o'.
Proof.
  intros Hl Ho Ho'. unfold put8. destruct (Z.eqb_spec o' o) as [->|Hne].
  - rewrite get8_splice_in; [by rewrite Z.sub_diag | lia | cbn; lia | cbn; lia].
  - apply get8_splice_out; [lia | cbn; lia |  cbn; lia | cbn; lia].
Qed.

Lemma bit_index b : 0 <= b mod BPB / 8 < 512 /\ (b mod BPB) mod 8 = b mod 8.
Proof. unfold BPB, BSIZE. zlia. Qed.

(** The bit of [b] and nothing else is changed by storing into its byte. *)
Lemma used_put sb v b x y :
  geo sb -> 0 <= b < sb_size sb -> 0 <= x < sb_size sb -> length (v (BBLOCK b sb)) = 512%nat ->
  let o := b mod BPB / 8 in
  used sb (<[BBLOCK b sb := put8 (v (BBLOCK b sb)) o y]> v) x =
  if (x / 8 =? b / 8) then Z.testbit y (x mod 8) else used sb v x.
Proof.
  intros G Hb Hx Hl o. unfold used. pose proof (bit_index b) as [Ho _].
  assert (HBB : BBLOCK x sb = BBLOCK b sb <-> x / BPB = b / BPB).
  { destruct G. unfold BBLOCK. assert (forall z, 0 <= z < sb_size sb -> 0 <= z / BPB <= sb_size sb / BPB).
    { intros z Hz. unfold BPB, BSIZE in *. zlia. }
    rewrite !u32_small by (specialize (H x Hx) as H1; specialize (H b Hb) as H2; lia). lia. }
  destruct (decide (BBLOCK x sb = BBLOCK b sb)) as [E|E].
  - rewrite E, fn_lookup_insert. apply HBB in E.
    rewrite get8_put8 by (first [done | pose proof (bit_index x); lia]).
    replace (x mod BPB / 8 =? o) with (x / 8 =? b / 8).
    + destruct (x / 8 =? b / 8); [|done]. unfold u8. apply Z.mod_pow2_bits_low. zlia.
    + subst o. unfold BPB, BSIZE in *. apply eq_bool_prop_intro. rewrite !Is_true_true, !Z.eqb_eq. zlia.
  - rewrite fn_lookup_insert_ne by done. destruct (Z.eqb_spec (x / 8) (b / 8)) as [E8|]; [|done].
    exfalso. apply E, HBB. unfold BPB, BSIZE. zlia.
Qed.

Lemma used_set sb v b x :
  geo sb -> 0 <= b < sb_size sb -> 0 <= x < sb_size sb -> length (v (BBLOCK b sb)) = 512%nat ->
  let dd := v (BBLOCK b sb) in
  let o := b mod BPB / 8 in
  used sb (<[BBLOCK b sb := put8 dd o (Z.lor (get8 dd o) (Z.shiftl 1 (b mod 8)))]> v) x =
  (x =? b) || used sb v x.
Proof.
  intros G Hb Hx Hl dd o. subst dd o. rewrite used_put by done.
  destruct (Z.eqb_spec (x / 8) (b / 8)) as [E|E].
  - rewrite Z.lor_spec, Z.shiftl_1_l, Z.pow2_bits_eqb by zlia. rewrite orb_comm. f_equal.
    + apply eq_bool_prop_intro. rewrite !Is_true_true, !Z.eqb_eq. zlia.
    + unfold used. assert (x mod BPB / 8 = b mod BPB / 8) as -> by (unfold BPB, BSIZE; zlia).
      replace (BBLOCK x sb) with (BBLOCK b sb); [done|]. unfold BBLOCK. do 2 f_equal.
      unfold BPB, BSIZE. zlia.
  - destruct (Z.eqb_spec x b) as [->|]; [done|]. done.
Qed.

Lemma used_clear sb v b x :
  geo sb -> 0 <= b < sb_size sb -> 0 <= x < sb_size sb -> length (v (BBLOCK b sb)) = 512%nat ->
  let dd := v (BBLOCK b sb) in
  let o := b mod BPB / 8 in
  used sb (<[BBLOCK b sb := put8 dd o (Z.land (get8 dd o) (Z.lnot (Z.shiftl 1 (b mod 8))))]> v) x =
  negb (x =? b) && used sb v x.
Proof.
  intros G Hb Hx Hl dd o. subst dd o. rewrite used_put by done.
  destruct (Z.eqb_spec (x / 8) (b / 8)) as [E|E].
  - rewrite Z.land_spec, Z.lnot_spec, Z.shiftl_1_l, Z.pow2_bits_eqb by zlia. rewrite andb_comm. f_equal.
    + f_equal. apply eq_bool_prop_intro. rewrite !Is_true_true, !Z.eqb_eq. zlia.
    + unfold used. assert (x mod BPB / 8 = b mod BPB / 8) as -> by (unfold BPB, BSIZE; zlia).
      replace (BBLOCK x sb) with (BBLOCK b sb); [done|]. unfold BBLOCK. do 2 f_equal.
      unfold BPB, BSIZE. zlia.
  - destruct (Z.eqb_spec x b) as [->|]; [done|]. done.
Qed.

(** Writing a block that is not one of the free map changes no bit. *)
Lemma used_other sb v n x b : ~ is_bitmap sb n -> 0 <= b < sb_size sb -> used sb (<[n := x]> v) b = used sb v b.
Proof.
  intros Hn Hb. unfold used. rewrite fn_lookup_insert_ne; [done|]. intros ->. apply Hn. by exists b.
Qed.


(** What an allocation of block [b] does to the logical contents. *)
Record allocated (sb : superblock) v v' (b : Z) : Prop := {
  al_range : 0 <= b < sb_size sb;
  al_free : used sb v b = false;
  al_first : forall x, 0 <= x < b -> used sb v x = true;
  al_zero : v' b = zeroes;
  al_used : forall x, 0 <= x < sb_size sb -> used sb v' x = (x =? b) || used sb v x;
  al_other : forall n, n <> b -> n <> BBLOCK b sb -> v' n = v n
}.

Lemma frep_length s v D Hh n : frep s v D Hh -> length (v n) = 512%nat.
Proof. intros F. by destruct (law_wf _ _ _ _ _ _ n (fr_rep _ _ _ _ F)). Qed.

Lemma lookup_fresh (i j : nat) (n m : Z) Hh :
  Hh !! i = None -> (forall j, Hh !! j <> Some m) -> m <> n -> <[i := n]> Hh !! j <> Some m.
Proof.
  intros Hi Hm Hne. destruct (decide (i = j)) as [->|Hij].
  - rewrite lookup_insert_eq. congruence.
  - by rewrite lookup_insert_ne.
Qed.

(** One turn of the loop that finds a free bit. *)
Lemma balloc_take s v D Hh bp b :
  let sb := fs_sb s in
  let dd := v (BBLOCK b sb) in
  let o := b mod BPB / 8 in
  frep s v D (<[bp := BBLOCK b sb]> Hh) -> Hh !! bp = None -> geo sb -> free_ok sb v -> held_ok sb v Hh ->
  room D 2 -> (size D + size Hh + 1 < 30)%nat -> 0 <= b < sb_size sb -> used sb v b = false ->
  (forall x, 0 <= x < b -> used sb v x = true) ->
  exists s' v', (_ ← m_set bp (put8 dd o (Z.lor (get8 dd o) (Z.shiftl 1 (b mod 8))));
     _ ← m_log_write bp; _ ← m_brelse bp; _ ← bzero 1 b; mret b) s = Ok (b, s') /\
    frep s' v' (D ∪ {[BBLOCK b sb]} ∪ {[b]}) Hh /\ same s s' /\ allocated sb v v' b.
Proof.
  intros sb dd o F Hbp G Hfree Hheld Hroom Hcap Hb Hu Hfirst.
  assert (Hbm : is_bitmap sb (BBLOCK b sb)) by (by exists b).
  assert (Hl : length dd = 512%nat) by (by eapply frep_length).
  destruct (m_update_ok s v D _ bp (BBLOCK b sb) (put8 dd o (Z.lor (get8 dd o) (Z.shiftl 1 (b mod 8)))) F)
    as (s1 & s2 & E1 & E2 & F2 & S2).
  { apply lookup_insert_eq. }
  { rewrite put8_length; pose proof (bit_index b); lia. }
  { by apply G. }
  { eapply room_le; [done | lia]. }
  rewrite (sr_bind_run _ _ _ _ _ E1), (sr_bind_run _ _ _ _ _ E2).
  destruct (m_brelse_ok s2 _ _ _ bp (BBLOCK b sb) F2) as (s3 & E3 & F3 & S3); [apply lookup_insert_eq|].
  rewrite delete_insert_id in F3 by done. rewrite (sr_bind_run _ _ _ _ _ E3).
  destruct (Hfree b Hb Hu) as (_ & Hhome & Hnbm).
  pose proof (room_add D (BBLOCK b sb) 1 Hroom) as Hr1.
  destruct (bzero_ok s3 _ _ Hh b F3 Hhome) as (s4 & E4 & F4 & S4).
  { intros i Hi. destruct (Hheld i b Hi) as [_ Hused]. rewrite Hused in Hu by done. done. }
  { done. }
  { destruct Hr1 as [Hr1 _]. assert (size (D ∪ {[BBLOCK b sb]}) <= size D + 1)%nat; [|lia].
    rewrite size_union_alt.
    pose proof (subseteq_size ({[BBLOCK b sb]} ∖ D) ({[BBLOCK b sb]} : gset Z) ltac:(set_solver)) as Hs.
    rewrite size_singleton in Hs. lia. }
  rewrite (sr_bind_run _ _ _ _ _ E4). eexists s4, _. split_and!; [done | exact F4 | |].
  - eapply same_trans; [exact S2|]. by eapply same_trans.
  - constructor; [done..| | |].
    + by rewrite fn_lookup_insert.
    + intros x Hx. rewrite used_other by done. by apply used_set.
    + intros n Hn1 Hn2. by rewrite !fn_lookup_insert_ne.
Qed.

Lemma balloc_loop_ok fuel s v D Hh k :
  let sb := fs_sb s in
  frep s v D Hh -> geo sb -> free_ok sb v -> held_ok sb v Hh ->
  room D 2 -> (size D + size Hh + 1 < 30)%nat -> 0 <= k <= sb_size sb / BPB + 1 ->
  sb_size sb / BPB + 1 - k < Z.of_nat fuel ->
  (forall x, 0 <= x < k * BPB -> x < sb_size sb -> used sb v x = true) ->
  (exists b s' v', balloc_loop fuel 1 (k * BPB) s = Ok (b, s') /\
     frep s' v' (D ∪ {[BBLOCK b sb]} ∪ {[b]}) Hh /\ same s s' /\ allocated sb v v' b) \/
  ((forall x, 0 <= x < sb_size sb -> used sb v x = true) /\
     balloc_loop fuel 1 (k * BPB) s = Panic "balloc: out of blocks").
Proof.
  revert s k. induction fuel as [|f IH]; intros s k sb F G Hfree Hheld Hroom Hcap Hk Hf Hbelow.
  { lia. }
  cbn [balloc_loop]. rewrite (sr_bind_run m_sb _ s sb s) by done.
  destruct (Z.ltb_spec (k * BPB) (sb_size sb)) as [Hlt|Hge].
  2:{ right. split; [|done]. intros x Hx. apply Hbelow; lia. }
  assert (Hbm : is_bitmap sb (BBLOCK (k * BPB) sb)).
  { exists (k * BPB). split; [|done]. unfold BPB, BSIZE in *. lia. }
  destruct (m_bread_ok s v D Hh (BBLOCK (k * BPB) sb) F) as (bp & s1 & E1 & F1 & Hbp & S1).
  { by apply G. }
  { intros i Hi. by destruct (Hheld i _ Hi). }
  { lia. }
  rewrite (sr_bind_run _ _ _ _ _ E1).
  rewrite (sr_bind_run _ _ _ _ _ (m_data_ok _ _ _ _ bp _ F1 ltac:(apply lookup_insert_eq))).
  assert (Hsb1 : fs_sb s1 = sb) by apply S1.
  pose proof (balloc_bit_spec (Z.to_nat BPB) (v (BBLOCK (k * BPB) sb)) (k * BPB) 0 (sb_size sb)
    ltac:(lia) ltac:(unfold BPB, BSIZE; lia)) as Hspec.
  assert (Hbit : forall j, 0 <= j < BPB -> BBLOCK (k * BPB + j) sb = BBLOCK (k * BPB) sb /\
    used sb v (k * BPB + j) = Z.testbit (get8 (v (BBLOCK (k * BPB) sb)) (j / 8)) (j mod 8)).
  { intros j Hj. assert (HB : BBLOCK (k * BPB + j) sb = BBLOCK (k * BPB) sb).
    { unfold BBLOCK. do 2 f_equal. unfold BPB, BSIZE in *. zlia. }
    split; [done|]. unfold used. rewrite HB.
    assert ((k * BPB + j) mod BPB = j) as -> by (unfold BPB, BSIZE in *; zlia).
    by assert ((k * BPB + j) mod 8 = j mod 8) as -> by (unfold BPB, BSIZE in *; zlia). }
  destruct (balloc_bit (Z.to_nat BPB) (v (BBLOCK (k * BPB) sb)) (k * BPB) 0 (sb_size sb)) as [bi|].
  - left. destruct Hspec as (Hbi & Hbs & Hfreebit & Hprev). destruct (Hbit bi Hbi) as [HB HU].
    destruct (balloc_take s1 v D Hh bp (k * BPB + bi)) as (s' & v' & E & F' & S' & A);
      rewrite ?Hsb1, ?HB; try done.
    + unfold BPB, BSIZE in *. lia.
    + by rewrite HU.
    + intros x Hx. destruct (decide (x < k * BPB)) as [Hl|Hl]; [apply Hbelow; lia|].
      replace x with (k * BPB + (x - k * BPB)) by lia.
      rewrite (proj2 (Hbit (x - k * BPB) ltac:(lia))). apply Hprev. lia.
    + exists (k * BPB + bi), s', v'. rewrite Hsb1, HB in *. split_and!; [| done | | done].
      * assert ((k * BPB + bi) mod BPB / 8 = bi / 8) as Eo by (unfold BPB, BSIZE in *; zlia).
        assert ((k * BPB + bi) mod 8 = bi mod 8) as Em by (unfold BPB, BSIZE in *; zlia).
        rewrite Eo, Em in E. exact E.
      * by eapply same_trans.
  - destruct (m_brelse_ok s1 v D _ bp (BBLOCK (k * BPB) sb) F1) as (s2 & E2 & F2 & S2); [apply lookup_insert_eq|].
    rewrite delete_insert_id in F2 by done. rewrite (sr_bind_run _ _ _ _ _ E2).
    pose proof (same_trans _ _ _ S1 S2) as S12. assert (Hsb2 : fs_sb s2 = sb) by apply S12.
    replace (k * BPB + BPB) with ((k + 1) * BPB) by lia.
    destruct (IH s2 (k + 1)) as [(b & s' & v' & E & F' & S' & A) | [Hall E]]; rewrite ?Hsb2; try done.
    + unfold BPB, BSIZE in *. zlia.
    + lia.
    + intros x Hx Hxs. destruct (decide (x < k * BPB)) as [Hl|Hl]; [apply Hbelow; lia|].
      replace x with (k * BPB + (x - k * BPB)) by lia.
      rewrite (proj2 (Hbit (x - k * BPB) ltac:(lia))). apply Hspec; lia.
    + left. exists b, s', v'. rewrite Hsb2 in *. split_and!; [done..| by eapply same_trans | done].
    + right. rewrite Hsb2 in *. done.
Qed.


Lemma balloc_ok s v D Hh :
  let sb := fs_sb s in
  frep s v D Hh -> geo sb -> free_ok sb v -> held_ok sb v Hh ->
  room D 2 -> (size D + size Hh + 1 < 30)%nat ->
  (exists b s' v', balloc 1 s = Ok (b, s') /\
     frep s' v' (D ∪ {[BBLOCK b sb]} ∪ {[b]}) Hh /\ same s s' /\ allocated sb v v' b) \/
  ((forall x, 0 <= x < sb_size sb -> used sb v x = true) /\
     balloc 1 s = Panic "balloc: out of blocks").
Proof.
  intros sb F G Hfree Hheld Hroom Hcap. unfold balloc.
  rewrite (sr_bind_run m_sb _ s sb s) by done.
  pose proof (balloc_loop_ok (S (Z.to_nat (sb_size sb / BPB + 1))) s v D Hh 0) as L.
  cbv zeta in L. rewrite Z.mul_0_l in L.
  assert (0 <= sb_size sb / BPB) by (apply Z.div_pos; [apply G | done]).
  apply L; [done..| | | intros x Hx; lia]; fold sb; lia.
Qed.

(** Freeing a block in use clears its bit and changes nothing else. *)
Lemma bfree_ok s v D Hh b :
  let sb := fs_sb s in
  frep s v D Hh -> geo sb -> held_ok sb v Hh -> room D 1 -> (size D + size Hh < 30)%nat ->
  0 <= b < sb_size sb ->
  if used sb v b then
    exists s' v', bfree 1 b s = Ok (tt, s') /\ frep s' v' (D ∪ {[BBLOCK b sb]}) Hh /\ same s s' /\
      (forall x, 0 <= x < sb_size sb -> used sb v' x = negb (x =? b) && used sb v x) /\
      (forall n, n <> BBLOCK b sb -> v' n = v n)
  else bfree 1 b s = Panic "freeing free block".
Proof.
  intros sb F G Hheld Hroom Hcap Hb. unfold bfree.
  rewrite (sr_bind_run m_sb _ s sb s) by done.
  assert (Hbm : is_bitmap sb (BBLOCK b sb)) by (by exists b).
  destruct (m_bread_ok s v D Hh (BBLOCK b sb) F) as (bp & s1 & E1 & F1 & Hbp & S1).
  { by apply G. }
  { intros i Hi. by destruct (Hheld i _ Hi). }
  { done. }
  rewrite (sr_bind_run _ _ _ _ _ E1).
  rewrite (sr_bind_run _ _ _ _ _ (m_data_ok _ _ _ _ bp _ F1 ltac:(apply lookup_insert_eq))).
  pose proof (bit_index b) as [Ho Hm8].
  cbv zeta. rewrite land_bit by (apply Z.mod_pos_bound; lia). rewrite Hm8. fold (used sb v b).
  destruct (used sb v b) eqn:Hu; cbn [negb]; [|done].
  destruct (m_update_ok s1 v D _ bp (BBLOCK b sb)
    (put8 (v (BBLOCK b sb)) (b mod BPB / 8)
      (Z.land (get8 (v (BBLOCK b sb)) (b mod BPB / 8)) (Z.lnot (Z.shiftl 1 (b mod 8))))) F1)
    as (s2 & s3 & E2 & E3 & F3 & S3).
  { apply lookup_insert_eq. }
  { rewrite put8_length; [by eapply frep_length | lia |]. rewrite (frep_length _ _ _ _ _ F). lia. }
  { by apply G. }
  { done. }
  rewrite (sr_bind_run _ _ _ _ _ E2), (sr_bind_run _ _ _ _ _ E3).
  destruct (m_brelse_ok s3 _ _ _ bp (BBLOCK b sb) F3) as (s4 & E4 & F4 & S4); [apply lookup_insert_eq|].
  rewrite delete_insert_id in F4 by done.
  eexists s4, _. split_and!; [done | exact F4 | | |].
  - eapply same_trans; [exact S1|]. by eapply same_trans.
  - intros x Hx. apply used_clear; [done..|]. by eapply frep_length.
  - intros n Hn. by rewrite fn_lookup_insert_ne.
Qed.

(** *** The block map of an inode *)

(** Index [k] of the block map: 0 .. 139 are the data blocks, 140 is the
    indirect block; 0 is "not allocated". *)
Definition baddr (x : inode) v (k : Z) : Z :=
  if k <? NDIRECT then nth (Z.to_nat k) (i_addrs x) 0
  else
    let ind := nth (Z.to_nat NDIRECT) (i_addrs x) 0 in
    if k =? MAXFILE then ind
    else if ind =? 0 then 0 else get32 (v ind) (4 * (k - NDIRECT)).

Definition data_blk (sb : superblock) v (a : Z) : Prop :=
  0 < a < sb_size sb /\ used sb v a = true /\ home a /\ ~ is_bitmap sb a.

(** The blocks of a well-formed inode are data blocks in use, all different. *)
Record ino_wf (sb : superblock) v (x : inode) : Prop := {
  iw_dev : i_dev x = 1;
  iw_len : length (i_addrs x) = 13%nat;
  iw_data : forall k, 0 <= k <= MAXFILE -> baddr x v k <> 0 -> data_blk sb v (baddr x v k);
  iw_inj : forall j k, 0 <= j <= MAXFILE -> 0 <= k <= MAXFILE -> baddr x v j <> 0 ->
    baddr x v j = baddr x v k -> j = k
}.

(** *** Allocation and the block map *)

Lemma allocated_fresh sb v v' b a : allocated sb v v' b -> data_blk sb v a -> a <> b.
Proof. intros A (_ & Hu & _) ->. rewrite (al_free _ _ _ _ A) in Hu. done. Qed.

Lemma allocated_data sb v v' b : free_ok sb v -> allocated sb v v' b -> data_blk sb v' b.
Proof.
  intros Hf A. destruct (Hf b (al_range _ _ _ _ A) (al_free _ _ _ _ A)) as (H0 & Hh & Hb).
  pose proof (al_range _ _ _ _ A). split_and!; [lia..| |done|done].
  rewrite (al_used _ _ _ _ A) by lia. by rewrite Z.eqb_refl.
Qed.

Lemma allocated_keep_data sb v v' b a : allocated sb v v' b -> data_blk sb v a -> data_blk sb v' a /\ v' a = v a.
Proof.
  intros A Ha. pose proof (allocated_fresh _ _ _ _ _ A Ha) as Hne. destruct Ha as (Hr & Hu & Hh & Hb).
  split; [split_and!; [lia..| |done|done]|].
  - rewrite (al_used _ _ _ _ A), Hu by lia. apply orb_true_r.
  - apply (al_other _ _ _ _ A); [done|]. intros ->. apply Hb. exists b. split; [apply A | done].
Qed.

Lemma allocated_free_ok sb v v' b : free_ok sb v -> allocated sb v v' b -> free_ok sb v'.
Proof.
  intros Hf A x Hx Hu. rewrite (al_used _ _ _ _ A) in Hu by done.
  apply orb_false_elim in Hu as [_ Hu]. by apply Hf.
Qed.

Lemma allocated_baddr sb v v' b x k :
  allocated sb v v' b -> ino_wf sb v x -> 0 <= k <= MAXFILE -> baddr x v' k = baddr x v k.
Proof.
  intros A W Hk. unfold baddr. case_match; [done|]. case_match; [done|].
  destruct (Z.eqb_spec (nth (Z.to_nat NDIRECT) (i_addrs x) 0) 0) as [|Hne]; [done|].
  assert (Hi : data_blk sb v (baddr x v MAXFILE)).
  { apply (iw_data _ _ _ W); [done|]. exact Hne. }
  change (baddr x v MAXFILE) with (nth (Z.to_nat NDIRECT) (i_addrs x) 0) in Hi.
  destruct (allocated_keep_data _ _ _ _ _ A Hi) as [_ E]. by rewrite E.
Qed.

Lemma allocated_wf sb v v' b x : allocated sb v v' b -> ino_wf sb v x -> ino_wf sb v' x.
Proof.
  intros A W. constructor; [apply W | apply W | |].
  - intros k Hk. rewrite (allocated_baddr _ _ _ _ _ _ A W Hk). intros H0.
    by apply (allocated_keep_data _ _ _ _ _ A), (iw_data _ _ _ W).
  - intros j k Hj Hk. rewrite (allocated_baddr _ _ _ _ _ _ A W Hk), (allocated_baddr _ _ _ _ _ _ A W Hj).
    by apply (iw_inj _ _ _ W).
Qed.

(** Setting entry [k], empty before, to a block [b] the inode does not use. *)
Lemma set_entry_wf sb v v' x x' k b :
  ino_wf sb v x -> i_dev x' = i_dev x -> length (i_addrs x') = 13%nat -> 0 <= k <= MAXFILE ->
  baddr x' v' k = b -> (forall j, 0 <= j <= MAXFILE -> j <> k -> baddr x' v' j = baddr x v j) ->
  data_blk sb v' b -> (forall j, 0 <= j <= MAXFILE -> baddr x v j <> b) ->
  (forall a, data_blk sb v a -> data_blk sb v' a) -> ino_wf sb v' x'.
Proof.
  intros W Hd Hl Hk Hnew Hold Hb Hfresh Hkeep.
  constructor; [rewrite Hd; apply W | done | |].
  - intros j Hj. destruct (decide (j = k)) as [->|Hne]; [by rewrite Hnew|].
    rewrite Hold by done. intros H0. apply Hkeep. by apply (iw_data _ _ _ W).
  - intros i j Hi Hj. destruct (decide (i = k)) as [->|Hik], (decide (j = k)) as [->|Hjk]; [done| | |].
    + rewrite Hnew, (Hold j) by done. intros _ E. by destruct (Hfresh j Hj).
    + rewrite Hnew, (Hold i) by done. intros _ E. by destruct (Hfresh i Hi).
    + rewrite !Hold by done. by apply (iw_inj _ _ _ W).
Qed.

Lemma get32_zeroes o : get32 zeroes o = 0.
Proof.
  unfold get32, get8. assert (forall i, nth i zeroes 0 = 0) as H.
  { intros i. rewrite nth_lookup_default. unfold zeroes. destruct (decide (i < 512)%nat) as [Hi|Hi].
    - by rewrite lookup_replicate_2.
    - rewrite lookup_ge_None_2; [done|]. rewrite length_replicate. lia. }
  by rewrite !H.
Qed.

(** The entry [k] is in the inode itself: a direct block or the indirect block. *)
Definition slot (k : Z) : nat := Z.to_nat (if k =? MAXFILE then NDIRECT else k).

Lemma baddr_slot x v k : 0 <= k < NDIRECT \/ k = MAXFILE -> baddr x v k = nth (slot k) (i_addrs x) 0.
Proof.
  intros [Hk| ->]; [|done]. unfold baddr, slot. rewrite (proj2 (Z.ltb_lt _ _)) by lia.
  by rewrite (proj2 (Z.eqb_neq k MAXFILE)) by (fs_consts; lia).
Qed.

Lemma nth_insert_same (l : list Z) i a : (i < length l)%nat -> nth i (<[i := a]> l) 0 = a.
Proof. intros Hi. by rewrite nth_lookup_default, list_lookup_insert_eq. Qed.

Lemma nth_insert_other (l : list Z) i j a : i <> j -> nth j (<[i := a]> l) 0 = nth j l 0.
Proof. intros Hi. by rewrite !nth_lookup_default, list_lookup_insert_ne. Qed.

Lemma set_slot_baddr v x k b :
  length (i_addrs x) = 13%nat -> 0 <= k < NDIRECT \/ k = MAXFILE -> baddr x v k = 0 -> v b = zeroes ->
  let x' := iset_addrs (<[slot k := b]> (i_addrs x)) x in
  baddr x' v k = b /\ forall j, 0 <= j <= MAXFILE -> j <> k -> baddr x' v j = baddr x v j.
Proof.
  intros Hl Hk H0 Hz x'.
  assert (Hs : (slot k < 13)%nat).
  { unfold slot in *. fs_consts. case_match; lia. }
  split.
  - rewrite baddr_slot by done. cbn. apply nth_insert_same. lia.
  - intros j Hj Hjk. unfold baddr. destruct (Z.ltb_spec j NDIRECT) as [Hd|Hd].
    + cbn. apply nth_insert_other. unfold slot in *. fs_consts. case_match; lia.
    + destruct (Z.eqb_spec j MAXFILE) as [->|Hm].
      * cbn [i_addrs x' iset_addrs iset_meta]. apply nth_insert_other. unfold slot.
        rewrite (proj2 (Z.eqb_neq k MAXFILE)) by done. fs_consts. lia.
      * destruct (decide (k = MAXFILE)) as [->|Hkm].
        -- change (slot MAXFILE) with (Z.to_nat NDIRECT) in *. cbn [i_addrs x' iset_addrs iset_meta].
           rewrite nth_insert_same by lia.
           assert (nth (Z.to_nat NDIRECT) (i_addrs x) 0 = 0) as -> by exact H0.
           rewrite Z.eqb_refl. case_match; [done|]. by rewrite Hz, get32_zeroes.
        -- cbn [i_addrs x' iset_addrs iset_meta]. rewrite nth_insert_other; [done|].
           unfold slot. rewrite (proj2 (Z.eqb_neq k MAXFILE)) by done. fs_consts. lia.
Qed.

Lemma put32_entry_baddr v x k b :
  let ind := baddr x v MAXFILE in
  ind <> 0 -> length (v ind) = 512%nat -> NDIRECT <= k < MAXFILE -> 0 <= b < 2 ^ 32 ->
  let v' := <[ind := put32 (v ind) (4 * (k - NDIRECT)) b]> v in
  baddr x v' k = b /\ forall j, 0 <= j <= MAXFILE -> j <> k -> baddr x v' j = baddr x v j.
Proof.
  intros ind Hi Hl Hk Hb v'.
  change (baddr x v MAXFILE) with (nth (Z.to_nat NDIRECT) (i_addrs x) 0) in ind.
  assert (E : forall j, NDIRECT <= j < MAXFILE ->
    baddr x v' j = get32 (put32 (v ind) (4 * (k - NDIRECT)) b) (4 * (j - NDIRECT)) /\
    baddr x v j = get32 (v ind) (4 * (j - NDIRECT))).
  { intros j Hj. unfold baddr. rewrite (proj2 (Z.ltb_ge j NDIRECT)) by lia.
    rewrite (proj2 (Z.eqb_neq j MAXFILE)) by lia. fold ind.
    rewrite (proj2 (Z.eqb_neq ind 0)) by done. unfold v'. by rewrite fn_lookup_insert. }
  fs_consts. split.
  - rewrite (proj1 (E k Hk)), get32_put32 by lia. by apply u32_small.
  - intros j Hj Hjk. destruct (decide (12 <= j < 140)) as [Hj'|Hj'].
    + rewrite (proj1 (E j Hj')), (proj2 (E j Hj')). apply get32_put32_other; lia.
    + unfold baddr in *. fs_consts.
      destruct (Z.ltb_spec j 12); [done|]. by rewrite (proj2 (Z.eqb_eq j _)) by lia.
Qed.


(** The files grow: inode [x] with contents [v] becomes [x'] with [v'] by
    allocating entries of its block map.  New blocks were free and are zeroed;
    entries and every block in use other than the indirect block are kept. *)
Record grows (sb : superblock) v v' (x x' : inode) : Prop := {
  gr_meta : exists a, x' = iset_addrs a x;
  gr_wf : ino_wf sb v' x';
  gr_free : free_ok sb v';
  gr_old : forall j, 0 <= j <= MAXFILE -> baddr x v j <> 0 -> baddr x' v' j = baddr x v j;
  gr_new : forall j, 0 <= j <= MAXFILE -> baddr x v j = 0 -> baddr x' v' j <> 0 ->
    used sb v (baddr x' v' j) = false /\ (j < MAXFILE -> v' (baddr x' v' j) = zeroes);
  gr_keep : forall n, ~ is_bitmap sb n -> (0 <= n < sb_size sb -> used sb v n = true) ->
    n <> baddr x v MAXFILE -> v' n = v n;
  gr_used : forall a, 0 <= a < sb_size sb -> used sb v a = true -> used sb v' a = true
}.

Lemma iset_addrs_same x : iset_addrs (i_addrs x) x = x.
Proof. by destruct x. Qed.

Lemma grows_refl sb v x : ino_wf sb v x -> free_ok sb v -> grows sb v v x x.
Proof.
  intros W Hf. constructor; try done. exists (i_addrs x). by rewrite iset_addrs_same.
Qed.

Lemma grows_trans sb v1 v2 v3 x1 x2 x3 :
  grows sb v1 v2 x1 x2 -> grows sb v2 v3 x2 x3 -> grows sb v1 v3 x1 x3.
Proof.
  intros [[a1 M1] W1 F1 O1 N1 K1 U1] [[a2 M2] W2 F2 O2 N2 K2 U2].
  assert (Hd : forall j, 0 <= j <= MAXFILE -> baddr x2 v2 j <> 0 -> data_blk sb v2 (baddr x2 v2 j)) by apply W1.
  constructor; [exists a2; by subst | done | done | | | | auto].
  - intros j Hj H0. rewrite O2; [by apply O1 | done |]. by rewrite O1.
  - intros j Hj H0 H3. destruct (decide (baddr x2 v2 j = 0)) as [H2|H2].
    + destruct (N2 j Hj H2 H3) as [Hu Hz]. split; [|done].
      destruct (used sb v1 (baddr x3 v3 j)) eqn:E; [|done].
      destruct (iw_data _ _ _ W2 j Hj H3) as (Hr & _). rewrite U1 in Hu by (done || lia). done.
    + destruct (N1 j Hj H0 H2) as [Hu Hz]. rewrite (O2 j Hj H2). split; [done|]. intros Hlt.
      destruct (Hd j Hj H2) as (Hr & Hu2 & Hh2 & Hb2).
      rewrite K2; [by apply Hz | done | done |]. intros E.
      pose proof (iw_inj _ _ _ W1 j MAXFILE Hj ltac:(fs_consts; lia) H2 E). lia.
  - intros n Hb Hu Hn. rewrite K2; [by apply K1 | done | auto |]. intros ->.
    assert (Hm : 0 <= MAXFILE <= MAXFILE) by (fs_consts; lia).
    destruct (decide (baddr x1 v1 MAXFILE = 0)) as [H0|H0].
    + destruct (decide (baddr x2 v2 MAXFILE = 0)) as [H2|H2]; [congruence|].
      destruct (N1 _ Hm H0 H2) as [Hf _]. destruct (Hd _ Hm H2) as (Hr & _).
      rewrite Hu in Hf by lia. done.
    + by rewrite (O1 _ Hm H0) in Hn.
Qed.

Lemma alter_insert_Some {A} (f : A -> A) (i : nat) (l : list A) x : l !! i = Some x -> alter f i l = <[i := f x]> l.
Proof.
  intros Hx. apply list_eq. intros j. destruct (decide (i = j)) as [->|Hne].
  - rewrite list_lookup_alter_eq, Hx, list_lookup_insert_eq by (by eapply lookup_lt_Some). done.
  - by rewrite list_lookup_alter_ne, list_lookup_insert_ne.
Qed.

(** Changing the state of entry [ip] of the inode cache only. *)
Definition upd_ip s s' (ip : nat) (x : inode) : Prop :=
  fs_sb s' = fs_sb s /\ fs_cwd s' = fs_cwd s /\ icache s' = <[ip := x]> (icache s).

Lemma upd_ip_nth s s' ip x : upd_ip s s' ip x -> (ip < length (icache s))%nat ->
  nth_ip s' ip = x /\ length (icache s') = length (icache s).
Proof.
  intros (_ & _ & E) Hi. unfold nth_ip. rewrite E, list_lookup_insert_eq, length_insert by done. done.
Qed.

Lemma upd_ip_same s s' ip : (ip < length (icache s))%nat -> same s s' -> upd_ip s s' ip (nth_ip s ip).
Proof.
  intros Hi (E1 & E3 & E2). split_and!; [done..|]. rewrite E3. unfold nth_ip.
  destruct (lookup_lt_is_Some_2 _ _ Hi) as [x Hx]. rewrite Hx. cbn. by rewrite list_insert_id.
Qed.

Lemma upd_ip_trans s1 s2 s3 ip x y : upd_ip s1 s2 ip x -> upd_ip s2 s3 ip y -> upd_ip s1 s3 ip y.
Proof.
  intros (A1 & A2 & A3) (B1 & B2 & B3). split_and!; [congruence..|].
  by rewrite B3, A3, list_insert_insert_eq.
Qed.

Lemma m_ip_set_ok s ip f v D Hh :
  (ip < length (icache s))%nat -> frep s v D Hh ->
  exists s', m_ip_set ip f s = Ok (tt, s') /\ upd_ip s s' ip (f (nth_ip s ip)) /\ frep s' v D Hh.
Proof.
  intros Hi [? ? ? ? ? ?]. eexists. split_and!; [done | | by constructor].
  split_and!; [done..|]. cbn. destruct (lookup_lt_is_Some_2 _ _ Hi) as [x Hx].
  unfold nth_ip. rewrite Hx. cbn. by apply alter_insert_Some.
Qed.

Lemma size_add2 D a b : (size (D ∪ {[a]} ∪ {[b]}) <= size D + 2)%nat.
Proof.
  assert (H1 : forall (E : gset Z) n, (size (E ∪ {[n]}) <= size E + 1)%nat).
  { intros E n. rewrite size_union_alt.
    pose proof (subseteq_size ({[n]} ∖ E) ({[n]} : gset Z) ltac:(set_solver)) as Hs.
    rewrite size_singleton in Hs. lia. }
  pose proof (H1 D a). pose proof (H1 (D ∪ {[a]}) b). lia.
Qed.

(** Allocating an entry kept in the inode itself. *)
Lemma fill_slot_ok s v D ip k :
  let sb := fs_sb s in
  let x := nth_ip s ip in
  frep s v D ∅ -> geo sb -> free_ok sb v -> ino_wf sb v x -> (ip < length (icache s))%nat ->
  room D 2 -> 0 <= k < NDIRECT \/ k = MAXFILE -> baddr x v k = 0 ->
  let run := (addr ← balloc (i_dev x);
              _ ← m_ip_set ip (fun x => iset_addrs (<[slot k := addr]> (i_addrs x)) x); mret addr) s in
  run = Panic "balloc: out of blocks" \/
  exists b s' v' D' x', run = Ok (b, s') /\ frep s' v' D' ∅ /\ upd_ip s s' ip x' /\
    grows sb v v' x x' /\ baddr x' v' k = b /\ b <> 0 /\ (size D' <= size D + 2)%nat /\ D ⊆ D'.
Proof.
  intros sb x F G Hfree W Hi Hroom Hk H0 run. subst run. rewrite (iw_dev _ _ _ W).
  destruct (balloc_ok s v D ∅ F G Hfree) as [(b & s1 & v1 & E1 & F1 & S1 & A)|[_ E]].
  { intros i n Hn. by rewrite lookup_empty in Hn. }
  { done. }
  { destruct Hroom. rewrite map_size_empty. lia. }
  2:{ left. unfold mbind, SR_bind. by rewrite E. }
  right. rewrite (sr_bind_run _ _ _ _ _ E1).
  assert (Hi1 : (ip < length (icache s1))%nat) by (by rewrite (proj1 (proj2 S1))).
  destruct (m_ip_set_ok s1 ip (fun x => iset_addrs (<[slot k := b]> (i_addrs x)) x) _ _ _ Hi1 F1)
    as (s2 & E2 & U2 & F2).
  rewrite (sr_bind_run _ _ _ _ _ E2). assert (Hx1 : nth_ip s1 ip = x) by (unfold x, nth_ip; by rewrite (proj1 (proj2 S1))).
  rewrite Hx1 in U2. fold sb in F2, A.
  exists b, s2, v1, (D ∪ {[BBLOCK b sb]} ∪ {[b]}), (iset_addrs (<[slot k := b]> (i_addrs x)) x).
  pose proof (allocated_wf _ _ _ _ _ A W) as W1. pose proof (allocated_data _ _ _ _ Hfree A) as Hb.
  assert (Hkm : 0 <= k <= MAXFILE) by (fs_consts; lia).
  assert (H01 : baddr x v1 k = 0) by (by rewrite (allocated_baddr _ _ _ _ _ _ A W Hkm)).
  destruct (set_slot_baddr v1 x k b (iw_len _ _ _ W1) Hk H01 (al_zero _ _ _ _ A)) as [Hnew Hold].
  assert (Hb0 : b <> 0) by (destruct Hb; lia).
  split_and!; [done | done | | | done | done | apply size_add2 | set_solver].
  { eapply upd_ip_trans; [by apply upd_ip_same | exact U2]. }
  constructor.
  - by eexists.
  - eapply (set_entry_wf _ v1 v1 x _ k b W1); try done.
    + cbn. rewrite length_insert. apply W.
    + intros j Hj E. destruct (decide (baddr x v1 j = 0)) as [Hj0|Hj0]; [congruence|].
      assert (Hdj : data_blk sb v (baddr x v j)).
      { apply (iw_data _ _ _ W); [done|]. by rewrite <-(allocated_baddr _ _ _ _ _ _ A W Hj). }
      apply (allocated_fresh _ _ _ _ _ A Hdj). by rewrite <-(allocated_baddr _ _ _ _ _ _ A W Hj).
  - by eapply allocated_free_ok.
  - intros j Hj Hj0. rewrite Hold; [by eapply allocated_baddr | done |]. intros ->. done.
  - intros j Hj Hj0 Hj1. destruct (decide (j = k)) as [->|Hne].
    + rewrite Hnew. split; [apply A | intros _; apply A].
    + exfalso. apply Hj1. rewrite Hold by done. by rewrite (allocated_baddr _ _ _ _ _ _ A W Hj).
  - intros n Hnb Hnu Hni. apply (al_other _ _ _ _ A).
    + intros ->. rewrite (al_free _ _ _ _ A) in Hnu. specialize (Hnu (al_range _ _ _ _ A)). done.
    + intros ->. apply Hnb. exists b. split; [apply A | done].
  - intros a Ha Hu. rewrite (al_used _ _ _ _ A), Hu by done. apply orb_true_r.
Qed.


(** Storing the fresh block [b] in the indirect block. *)
Lemma entry_grows sb v v' x k b :
  let ind := baddr x v MAXFILE in
  (forall n, length (v' n) = 512%nat) ->
  geo sb -> free_ok sb v -> ino_wf sb v x -> ind <> 0 -> NDIRECT <= k < MAXFILE -> baddr x v k = 0 ->
  allocated sb v v' b ->
  let v'' := <[ind := put32 (v' ind) (4 * (k - NDIRECT)) b]> v' in
  grows sb v v'' x x /\ baddr x v'' k = b.
Proof.
  intros ind Hlen G Hfree W Hind Hk H0 A v''.
  assert (Hm : 0 <= MAXFILE <= MAXFILE) by (fs_consts; lia).
  assert (Hkm : 0 <= k <= MAXFILE) by (fs_consts; lia).
  pose proof (iw_data _ _ _ W MAXFILE Hm Hind) as Hdi. fold ind in Hdi.
  pose proof (allocated_wf _ _ _ _ _ A W) as W1. pose proof (allocated_data _ _ _ _ Hfree A) as Hb.
  assert (Ei : baddr x v' MAXFILE = ind) by (by apply (allocated_baddr sb v v' b x MAXFILE A W Hm)).
  destruct (put32_entry_baddr v' x k b) as [Hnew Hold]; rewrite ?Ei; try done.
  { destruct Hb as (? & _). pose proof (g_size _ G). pose proof (g_dsize _ G). lia. }
  rewrite Ei in Hnew, Hold. fold v'' in Hnew, Hold.
  assert (Hni : ~ is_bitmap sb ind) by apply Hdi.
  assert (Hu'' : forall a, 0 <= a < sb_size sb -> used sb v'' a = (a =? b) || used sb v a).
  { intros a Ha. unfold v''. rewrite used_other by done. by apply A. }
  assert (Hdb : forall a, data_blk sb v' a -> data_blk sb v'' a).
  { intros a (Hr & Hu & Hh & Hnb). split_and!; [lia..| |done|done]. unfold v''. by rewrite used_other by (done || lia). }
  split; [|done]. constructor.
  - exists (i_addrs x). by rewrite iset_addrs_same.
  - eapply (set_entry_wf _ v' v'' x x k b W1); try done; [apply W | by apply Hdb |].
    intros j Hj E. rewrite (allocated_baddr _ _ _ _ _ _ A W Hj) in E.
    assert (Hj0 : baddr x v j <> 0) by (rewrite E; destruct Hb; lia).
    by apply (allocated_fresh _ _ _ _ _ A (iw_data _ _ _ W j Hj Hj0)).
  - intros y Hy Hu. rewrite Hu'' in Hu by done. apply orb_false_elim in Hu as [_ Hu]. by apply Hfree.
  - intros j Hj Hj0. rewrite Hold; [by eapply allocated_baddr | done |]. intros ->. done.
  - intros j Hj Hj0 Hj1. destruct (decide (j = k)) as [->|Hne].
    + rewrite Hnew. split; [apply A|]. intros _. unfold v''. rewrite fn_lookup_insert_ne; [apply A|].
      by apply (allocated_fresh _ _ _ _ _ A).
    + exfalso. apply Hj1. rewrite Hold by done. by rewrite (allocated_baddr _ _ _ _ _ _ A W Hj).
  - intros n Hnb Hnu Hne. unfold v''. rewrite fn_lookup_insert_ne by done. apply (al_other _ _ _ _ A).
    + intros ->. rewrite (al_free _ _ _ _ A) in Hnu. specialize (Hnu (al_range _ _ _ _ A)). done.
    + intros ->. apply Hnb. exists b. split; [apply A | done].
  - intros a Ha Hu. rewrite Hu'', Hu by done. apply orb_true_r.
Qed.

(** The second half of [bmap]: the entry in the indirect block. *)
Lemma bmap_entry_ok s v D ip k :
  let sb := fs_sb s in
  let x := nth_ip s ip in
  let ind := baddr x v MAXFILE in
  frep s v D ∅ -> geo sb -> free_ok sb v -> ino_wf sb v x -> room D 3 ->
  NDIRECT <= k < MAXFILE -> ind <> 0 ->
  let run := (bp ← m_bread 1 ind;
      d ← m_data bp;
      let addr := get32 d (4 * (k - NDIRECT)) in
      addr ← (if addr =? 0 then
                addr ← balloc 1;
                d' ← m_data bp;
                _ ← m_set bp (put32 d' (4 * (k - NDIRECT)) addr);
                _ ← m_log_write bp;
                mret addr
              else mret addr);
      _ ← m_brelse bp;
      mret addr) s in
  run = Panic "balloc: out of blocks" \/
  exists b s' v' D', run = Ok (b, s') /\ frep s' v' D' ∅ /\ same s s' /\
    grows sb v v' x x /\ baddr x v' k = b /\ b <> 0 /\ (size D' <= size D + 3)%nat /\ D ⊆ D'.
Proof.
  intros sb x ind F G Hfree W Hroom Hk Hind run. subst run.
  assert (Hm : 0 <= MAXFILE <= MAXFILE) by (fs_consts; lia).
  pose proof (iw_data _ _ _ W MAXFILE Hm Hind) as Hdi. fold ind in Hdi. destruct Hdi as (Hir & Hiu & Hih & Hib).
  assert (Hcap : (size D + 3 < 30)%nat) by apply Hroom.
  destruct (m_bread_ok s v D ∅ ind F) as (bp & s1 & E1 & F1 & Hbp & S1).
  { pose proof (g_size _ G). lia. }
  { intros i Hi. by rewrite lookup_empty in Hi. }
  { rewrite map_size_empty. lia. }
  rewrite (sr_bind_run _ _ _ _ _ E1).
  assert (Hlk : <[bp := ind]> (∅ : gmap nat Z) !! bp = Some ind) by apply lookup_insert_eq.
  rewrite (sr_bind_run _ _ _ _ _ (m_data_ok _ _ _ _ bp _ F1 Hlk)). cbv zeta.
  assert (Ek : get32 (v ind) (4 * (k - NDIRECT)) = baddr x v k).
  { unfold baddr. rewrite (proj2 (Z.ltb_ge k NDIRECT)), (proj2 (Z.eqb_neq k MAXFILE)) by lia.
    change (nth (Z.to_nat NDIRECT) (i_addrs x) 0) with ind. by rewrite (proj2 (Z.eqb_neq ind 0)). }
  rewrite Ek. destruct (Z.eqb_spec (baddr x v k) 0) as [H0|H0].
  - assert (Hsb1 : fs_sb s1 = sb) by apply S1.
    destruct (balloc_ok s1 v D (<[bp := ind]> ∅) F1) as [(b & s2 & v2 & E2 & F2 & S2 & A)|[_ E]]; rewrite ?Hsb1; try done.
    { intros i n Hn. destruct (decide (bp = i)) as [->|Hne].
      - rewrite lookup_insert_eq in Hn. by simplify_eq.
      - by rewrite lookup_insert_ne, lookup_empty in Hn. }
    { eapply room_le; [done | lia]. }
    { rewrite map_size_insert_None, map_size_empty by done. lia. }
    2:{ left. unfold mbind at 1, SR_bind at 1. unfold mbind at 1, SR_bind at 1. by rewrite E. }
    right. rewrite Hsb1 in *.
    destruct (entry_grows sb v v2 x k b) as [Gr Hb]; try done.
    { intros n. by eapply frep_length. }
    fold ind in Gr, Hb. set (v3 := <[ind := _]> v2) in *.
    destruct (m_update_ok s2 v2 _ _ bp ind (put32 (v2 ind) (4 * (k - NDIRECT)) b) F2 Hlk) as (s3 & s4 & E3 & E4 & F4 & S4).
    { rewrite put32_length; rewrite ?(frep_length _ _ _ _ _ F2); fs_consts; lia. }
    { done. }
    { pose proof (room_add _ b 1 (room_add D (BBLOCK b sb) 2 Hroom)). done. }
    destruct (m_brelse_ok s4 _ _ _ bp ind F4 Hlk) as (s5 & E5 & F5 & S5).
    rewrite delete_insert_id in F5 by done.
    exists b, s5, v3, (D ∪ {[BBLOCK b sb]} ∪ {[b]} ∪ {[ind]}). split_and!; try done.
    + rewrite (sr_bind_run _ _ s1 b s4).
      2:{ rewrite (sr_bind_run _ _ _ _ _ E2), (sr_bind_run _ _ _ _ _ (m_data_ok _ _ _ _ bp _ F2 Hlk)).
          rewrite (sr_bind_run _ _ _ _ _ E3), (sr_bind_run _ _ _ _ _ E4). done. }
      by rewrite (sr_bind_run _ _ _ _ _ E5).
    + eapply same_trans; [exact S1|]. eapply same_trans; [exact S2|]. by eapply same_trans.
    + pose proof (iw_data _ _ _ (gr_wf _ _ _ _ _ Gr) k ltac:(fs_consts; lia)) as Hd. rewrite Hb in Hd.
      intros ->. destruct (Hfree 0 (al_range _ _ _ _ A) (al_free _ _ _ _ A)). lia.
    + rewrite size_union_alt.
      pose proof (size_add2 D (BBLOCK b sb) b).
      pose proof (subseteq_size ({[ind]} ∖ (D ∪ {[BBLOCK b sb]} ∪ {[b]})) ({[ind]} : gset Z) ltac:(set_solver)) as Hs.
      rewrite size_singleton in *. lia.
    + set_solver.
  - right. rewrite (sr_bind_run _ _ s1 (baddr x v k) s1) by done.
    destruct (m_brelse_ok s1 _ _ _ bp ind F1 Hlk) as (s2 & E2 & F2 & S2).
    rewrite delete_insert_id in F2 by done. rewrite (sr_bind_run _ _ _ _ _ E2).
    exists (baddr x v k), s2, v, D. split_and!; try done.
    + by eapply same_trans.
    + by apply grows_refl.
    + lia.
Qed.

(** [bmap] returns the address of block [k], allocating it (and the indirect
    block) when there is none. *)
Lemma bmap_ok s v D ip k :
  let sb := fs_sb s in
  let x := nth_ip s ip in
  frep s v D ∅ -> geo sb -> free_ok sb v -> ino_wf sb v x -> (ip < length (icache s))%nat ->
  room D 5 -> 0 <= k < MAXFILE ->
  bmap ip k s = Panic "balloc: out of blocks" \/
  exists b s' v' D' x', bmap ip k s = Ok (b, s') /\ frep s' v' D' ∅ /\ upd_ip s s' ip x' /\
    grows sb v v' x x' /\ baddr x' v' k = b /\ b <> 0 /\ (size D' <= size D + 5)%nat /\ D ⊆ D'.
Proof.
  intros sb x F G Hfree W Hi Hroom Hk. unfold bmap. rewrite (sr_bind_run (m_ip ip) _ s x s) by done.
  destruct (Z.ltb_spec k NDIRECT) as [Hd|Hd].
  - assert (Hs : 0 <= k < NDIRECT \/ k = MAXFILE) by lia.
    assert (Esl : slot k = Z.to_nat k).
    { unfold slot. by rewrite (proj2 (Z.eqb_neq k MAXFILE)) by (fs_consts; lia). }
    assert (Eb : baddr x v k = nth (Z.to_nat k) (i_addrs x) 0) by (rewrite baddr_slot, Esl by done; done).
    cbv zeta. rewrite <-Eb. destruct (Z.eqb_spec (baddr x v k) 0) as [H0|H0].
    + destruct (fill_slot_ok s v D ip k F G Hfree W Hi) as [E|(b & s' & v' & D' & x' & E & F' & U & Gr & Hb & Hb0 & Hsz & Hsub)];
        [by eapply room_le; [exact Hroom | lia] | done | done | left | right]; rewrite Esl in E; [done|].
      exists b, s', v', D', x'. split_and!; try done. lia.
    + right. exists (baddr x v k), s, v, D, x. split_and!; try done.
      * by apply upd_ip_same.
      * by apply grows_refl.
      * lia.
  - cbv zeta. rewrite (proj2 (Z.ltb_lt (k - NDIRECT) NINDIRECT)) by (fs_consts; lia).
    (* the indirect block first *)
    set (first := (if nth (Z.to_nat NDIRECT) (i_addrs x) 0 =? 0 then _ else _ : M Z)).
    assert (Hfirst : first s = Panic "balloc: out of blocks" \/
      exists b s' v' D' x', first s = Ok (b, s') /\ frep s' v' D' ∅ /\ upd_ip s s' ip x' /\
        grows sb v v' x x' /\ baddr x' v' MAXFILE = b /\ b <> 0 /\ (size D' <= size D + 2)%nat /\ D ⊆ D').
    { unfold first. destruct (Z.eqb_spec (nth (Z.to_nat NDIRECT) (i_addrs x) 0) 0) as [H0|H0].
      - apply (fill_slot_ok s v D ip MAXFILE F G Hfree W Hi); [|by right|done].
        by eapply room_le; [exact Hroom | lia].
      - right. exists (nth (Z.to_nat NDIRECT) (i_addrs x) 0), s, v, D, x. split_and!; try done.
        + by apply upd_ip_same.
        + by apply grows_refl.
        + lia. }
    clearbody first.
    destruct Hfirst as [E|(a & s1 & v1 & D1 & x1 & E1 & F1 & U1 & Gr1 & Ha & Ha0 & Hsz1 & Hsub1)].
    { left. unfold mbind at 1, SR_bind at 1. by rewrite E. }
    rewrite (sr_bind_run _ _ _ _ _ E1). destruct (upd_ip_nth _ _ _ _ U1 Hi) as [Hx1 Hl1].
    assert (Hsb1 : fs_sb s1 = sb) by apply U1. rewrite (iw_dev _ _ _ W). subst a.
    assert (Hr1 : room D1 3).
    { destruct Hroom. split; [lia | done]. }
    destruct (bmap_entry_ok s1 v1 D1 ip k) as [E|(b & s2 & v2 & D2 & E2 & F2 & S2 & Gr2 & Hb & Hb0 & Hsz2 & Hsub2)];
      rewrite ?Hx1, ?Hsb1; try done; try apply Gr1; try lia.
    { left. rewrite Hx1 in E. exact E. }
    right. rewrite Hx1, Hsb1 in *. exists b, s2, v2, D2, x1. split_and!; try done.
    + eapply upd_ip_trans; [exact U1|]. rewrite <-Hx1. apply upd_ip_same; [lia | done].
    + by eapply grows_trans.
    + lia.
    + set_solver.
Qed.


(** *** Reading *)

(** Byte [o] of a file, and the [n] bytes from [off]. *)
Definition fbyte (x : inode) v (o : Z) : Z := get8 (v (baddr x v (o / BSIZE))) (o mod BSIZE).
Definition contents (x : inode) v (off n : Z) : list Z := map (fbyte x v) (seqZ off n).

(** The blocks of the bytes [off .. off + n - 1] exist. *)
Definition covered (x : inode) v (off n : Z) : Prop :=
  forall o, off <= o < off + n -> baddr x v (o / BSIZE) <> 0.

(** The number of blocks the bytes [off .. off + n - 1] touch. *)
Definition blocks_of (off n : Z) : Z :=
  if n <=? 0 then 0 else (off mod BSIZE + n + BSIZE - 1) / BSIZE.

Lemma blocks_of_pos off n : 0 <= blocks_of off n.
Proof. unfold blocks_of. fs_consts. case_match; zlia. Qed.

Lemma io_fuel_enough off n : 0 <= n -> blocks_of off n < Z.of_nat (io_fuel n).
Proof.
  intros Hn. unfold io_fuel, blocks_of. fs_consts. rewrite Z2Nat.id by zlia.
  destruct (Z.leb_spec n 0); zlia.
Qed.

Lemma blocks_of_step off n m :
  0 < m <= n -> (m = n \/ (off + m) mod BSIZE = 0 /\ (off + m) / BSIZE = off / BSIZE + 1) ->
  blocks_of (off + m) (n - m) + 1 <= blocks_of off n.
Proof.
  intros Hm Hc. unfold blocks_of. fs_consts. rewrite (proj2 (Z.leb_gt n 0)) by lia.
  destruct (Z.leb_spec (n - m) 0) as [H0|H0].
  - zlia.
  - destruct Hc as [->|[H1 H2]]; [lia|]. zlia.
Qed.

Lemma bmap_hit s v D ip k :
  let sb := fs_sb s in
  let x := nth_ip s ip in
  frep s v D ∅ -> geo sb -> ino_wf sb v x -> (size D < 30)%nat -> 0 <= k < MAXFILE -> baddr x v k <> 0 ->
  exists s', bmap ip k s = Ok (baddr x v k, s') /\ frep s' v D ∅ /\ same s s'.
Proof.
  intros sb x F G W Hcap Hk Hb. unfold bmap. rewrite (sr_bind_run (m_ip ip) _ s x s) by done.
  destruct (Z.ltb_spec k NDIRECT) as [Hd|Hd]; cbv zeta.
  - assert (Eb : baddr x v k = nth (Z.to_nat k) (i_addrs x) 0).
    { unfold baddr. by rewrite (proj2 (Z.ltb_lt _ _)). }
    rewrite <-Eb, (proj2 (Z.eqb_neq _ _)) by done. by exists s.
  - rewrite (proj2 (Z.ltb_lt (k - NDIRECT) NINDIRECT)) by (fs_consts; lia).
    set (ind := nth (Z.to_nat NDIRECT) (i_addrs x) 0).
    assert (Eb : ind <> 0 /\ baddr x v k = get32 (v ind) (4 * (k - NDIRECT))).
    { unfold baddr in *. rewrite (proj2 (Z.ltb_ge k NDIRECT)), (proj2 (Z.eqb_neq k MAXFILE)) in * by lia.
      fold ind in Hb |- *. by destruct (Z.eqb_spec ind 0). }
    destruct Eb as [Hi Eb]. rewrite (proj2 (Z.eqb_neq ind 0)) by done.
    rewrite (sr_bind_run _ _ s ind s) by done. rewrite (iw_dev _ _ _ W).
    assert (Hm : 0 <= MAXFILE <= MAXFILE) by (fs_consts; lia).
    destruct (iw_data _ _ _ W MAXFILE Hm Hi) as (Hir & Hiu & Hih & Hib).
    change (baddr x v MAXFILE) with ind in *.
    destruct (m_bread_ok s v D ∅ ind F) as (bp & s1 & E1 & F1 & Hbp & S1).
    { pose proof (g_size _ G). lia. }
    { intros i Hi'. by rewrite lookup_empty in Hi'. }
    { rewrite map_size_empty. lia. }
    rewrite (sr_bind_run _ _ _ _ _ E1).
    assert (Hlk : <[bp := ind]> (∅ : gmap nat Z) !! bp = Some ind) by apply lookup_insert_eq.
    rewrite (sr_bind_run _ _ _ _ _ (m_data_ok _ _ _ _ bp _ F1 Hlk)).
    rewrite <-Eb, (proj2 (Z.eqb_neq _ _)) by done. rewrite (sr_bind_run _ _ s1 (baddr x v k) s1) by done.
    destruct (m_brelse_ok s1 _ _ _ bp ind F1 Hlk) as (s2 & E2 & F2 & S2).
    rewrite delete_insert_id in F2 by done. rewrite (sr_bind_run _ _ _ _ _ E2).
    exists s2. split_and!; [done..|]. by eapply same_trans.
Qed.

Lemma nth_ip_same s s' ip : same s s' -> nth_ip s' ip = nth_ip s ip.
Proof. intros (_ & E & _). unfold nth_ip. by rewrite E. Qed.

(** The bytes of one block. *)
Lemma contents_block x v off m :
  0 <= off -> 0 <= m -> off mod BSIZE + m <= BSIZE ->
  length (v (baddr x v (off / BSIZE))) = 512%nat ->
  take (Z.to_nat m) (drop (Z.to_nat (off mod BSIZE)) (v (baddr x v (off / BSIZE)))) = contents x v off m.
Proof.
  intros Ho Hm Hb Hl. fs_consts. unfold contents. apply list_eq. intros i.
  destruct (decide (i < Z.to_nat m)%nat) as [Hi|Hi].
  - rewrite lookup_take_lt, lookup_drop by done. rewrite list_lookup_fmap, lookup_seqZ_lt by lia.
    cbn. unfold fbyte. fs_consts.
    replace ((off + Z.of_nat i) / 512) with (off / 512) by zlia.
    replace ((off + Z.of_nat i) mod 512) with (off mod 512 + Z.of_nat i) by zlia.
    unfold get8. rewrite nth_lookup_default.
    replace (Z.to_nat (off mod 512 + Z.of_nat i)) with (Z.to_nat (off mod 512) + i)%nat by zlia.
    destruct (lookup_lt_is_Some_2 (v (baddr x v (off / 512))) (Z.to_nat (off mod 512) + i)) as [y Hy]; [zlia|].
    by rewrite Hy.
  - rewrite lookup_take_ge by lia. rewrite list_lookup_fmap, lookup_ge_None_2; [done|].
    rewrite length_seqZ. lia.
Qed.

Lemma contents_app x v off n m :
  0 <= n -> 0 <= m -> contents x v off (n + m) = contents x v off n ++ contents x v (off + n) m.
Proof. intros Hn Hm. unfold contents. by rewrite seqZ_app, map_app. Qed.

Lemma readi_loop_ok fuel s v D ip dst off tot n :
  let sb := fs_sb s in
  let x := nth_ip s ip in
  frep s v D ∅ -> geo sb -> ino_wf sb v x -> (size D < 30)%nat ->
  0 <= off -> 0 <= tot <= n -> off + (n - tot) <= MAXFILE * BSIZE -> covered x v off (n - tot) ->
  blocks_of off (n - tot) < Z.of_nat fuel ->
  exists s', readi_loop fuel ip dst off tot n s = Ok (dst ++ contents x v off (n - tot), s') /\
    frep s' v D ∅ /\ same s s'.
Proof.
  revert s dst off tot. induction fuel as [|f IH]; intros s dst off tot sb x F G W Hcap Ho Ht Hmax Hcov Hf.
  { pose proof (blocks_of_pos off (n - tot)). lia. }
  cbn [readi_loop]. destruct (Z.ltb_spec tot n) as [Hlt|Hge].
  2:{ exists s. replace (n - tot) with 0 by lia. cbn. rewrite app_nil_r. done. }
  rewrite (sr_bind_run (m_ip ip) _ s x s) by done.
  assert (Hk : 0 <= off / BSIZE < MAXFILE) by (fs_consts; zlia).
  assert (Hb : baddr x v (off / BSIZE) <> 0) by (apply Hcov; lia).
  destruct (bmap_hit s v D ip (off / BSIZE) F G W Hcap Hk Hb) as (s1 & E1 & F1 & S1).
  fold x in E1. rewrite (sr_bind_run _ _ _ _ _ E1), (iw_dev _ _ _ W).
  destruct (iw_data _ _ _ W (off / BSIZE) ltac:(lia) Hb) as (Hr & _ & _ & _).
  destruct (m_bread_ok s1 v D ∅ (baddr x v (off / BSIZE)) F1) as (bp & s2 & E2 & F2 & Hbp & S2).
  { pose proof (g_size _ G). lia. }
  { intros i Hi. by rewrite lookup_empty in Hi. }
  { rewrite map_size_empty. lia. }
  rewrite (sr_bind_run _ _ _ _ _ E2). cbv zeta.
  set (m := Z.min (n - tot) (BSIZE - off mod BSIZE)).
  assert (Hm : 0 < m /\ off mod BSIZE + m <= BSIZE /\ m <= n - tot /\
     (m = n - tot \/ (off + m) mod BSIZE = 0 /\ (off + m) / BSIZE = off / BSIZE + 1)).
  { subst m. fs_consts. zlia. }
  clearbody m. destruct Hm as (Hm0 & Hm1 & Hm2 & Hm3).
  assert (Hlk : <[bp := baddr x v (off / BSIZE)]> (∅ : gmap nat Z) !! bp = Some (baddr x v (off / BSIZE)))
    by apply lookup_insert_eq.
  rewrite (sr_bind_run _ _ _ _ _ (m_data_ok _ _ _ _ bp _ F2 Hlk)).
  destruct (m_brelse_ok s2 _ _ _ bp _ F2 Hlk) as (s3 & E3 & F3 & S3).
  rewrite delete_insert_id in F3 by done. rewrite (sr_bind_run _ _ _ _ _ E3).
  pose proof (same_trans _ _ _ S1 (same_trans _ _ _ S2 S3)) as S13.
  rewrite contents_block by (first [lia | by eapply frep_length]).
  destruct (IH s3 (dst ++ contents x v off m) (off + m) (tot + m)) as (s4 & E4 & F4 & S4);
    rewrite ?(nth_ip_same _ _ _ S13), ?(proj1 S13); try done; try lia.
  { intros o Hoo. apply Hcov. lia. }
  { pose proof (blocks_of_step off (n - tot) m ltac:(lia) Hm3) as Hst.
    replace (n - (tot + m)) with (n - tot - m) by lia. lia. }
  exists s4. rewrite (nth_ip_same _ _ _ S13) in E4. split_and!; [| done | by eapply same_trans].
  rewrite E4. do 2 f_equal. fold x. rewrite <-app_assoc. f_equal.
  rewrite <-contents_app by lia. f_equal. lia.
Qed.


(** *** Writing *)

(** The effect of storing the bytes [src] at offset [off] of a file: the
    blocks of the range exist and hold the bytes, the other bytes of the file
    and all other blocks in use are as before. *)
Record written (sb : superblock) v v' (x x' : inode) (off : Z) (src : list Z) : Prop := {
  wr_meta : exists a, x' = iset_addrs a x;
  wr_wf : ino_wf sb v' x';
  wr_free : free_ok sb v';
  wr_old : forall j, 0 <= j <= MAXFILE -> baddr x v j <> 0 -> baddr x' v' j = baddr x v j;
  wr_new : forall j, 0 <= j <= MAXFILE -> baddr x v j = 0 -> baddr x' v' j <> 0 ->
    used sb v (baddr x' v' j) = false;
  wr_cov : covered x' v' off (Z.of_nat (length src));
  wr_bytes : contents x' v' off (Z.of_nat (length src)) = src;
  wr_outside : forall o, 0 <= o < MAXFILE * BSIZE -> ~ (off <= o < off + Z.of_nat (length src)) ->
    baddr x v (o / BSIZE) <> 0 -> fbyte x' v' o = fbyte x v o;
  wr_keep : forall n, ~ is_bitmap sb n -> (0 <= n < sb_size sb -> used sb v n = true) ->
    (forall j, 0 <= j <= MAXFILE -> n <> baddr x v j) -> v' n = v n;
  wr_used : forall a, 0 <= a < sb_size sb -> used sb v a = true -> used sb v' a = true
}.

Lemma written_nil sb v x off : ino_wf sb v x -> free_ok sb v -> written sb v v x x off [].
Proof.
  intros W Hf. constructor; try done.
  - exists (i_addrs x). by rewrite iset_addrs_same.
  - intros o Ho. cbn in Ho. lia.
Qed.

(** The part of the composition that concerns the bytes. *)
Lemma written_bytes_app sb v1 v2 x1 x2 off l1 l2 :
  0 <= off -> off + Z.of_nat (length l1) <= MAXFILE * BSIZE ->
  covered x1 v1 off (Z.of_nat (length l1)) -> contents x1 v1 off (Z.of_nat (length l1)) = l1 ->
  written sb v1 v2 x1 x2 (off + Z.of_nat (length l1)) l2 ->
  covered x2 v2 off (Z.of_nat (length (l1 ++ l2))) /\
  contents x2 v2 off (Z.of_nat (length (l1 ++ l2))) = l1 ++ l2.
Proof.
  intros Ho Hmax C1 B1 W2. rewrite length_app, Nat2Z.inj_add. split.
  - intros o Hoo. destruct (decide (o < off + Z.of_nat (length l1))) as [Hlt|Hge].
    + rewrite (wr_old _ _ _ _ _ _ _ W2); [apply C1; lia | fs_consts; zlia | apply C1; lia].
    + apply (wr_cov _ _ _ _ _ _ _ W2). lia.
  - rewrite contents_app by lia. f_equal; [|apply W2].
    rewrite <-B1 at 2. unfold contents. apply map_ext_in. intros o Hin.
    apply list_elem_of_In, elem_of_seqZ in Hin.
    apply (wr_outside _ _ _ _ _ _ _ W2); [lia | lia |]. apply C1. lia.
Qed.

Lemma written_app sb v1 v2 v3 x1 x2 x3 off l1 l2 :
  0 <= off -> off + Z.of_nat (length l1) <= MAXFILE * BSIZE ->
  written sb v1 v2 x1 x2 off l1 -> written sb v2 v3 x2 x3 (off + Z.of_nat (length l1)) l2 ->
  written sb v1 v3 x1 x3 off (l1 ++ l2).
Proof.
  intros Ho Hmax W1 W2.
  destruct (written_bytes_app sb v2 v3 x2 x3 off l1 l2) as [Hc Hb]; [done | done | apply W1 | apply W1 | done |].
  destruct W1 as [[a1 M1] I1 F1 O1 N1 _ _ Out1 K1 U1], W2 as [[a2 M2] I2 F2 O2 N2 _ _ Out2 K2 U2].
  assert (Hnew : forall j, 0 <= j <= MAXFILE -> baddr x1 v1 j = 0 -> baddr x3 v3 j <> 0 ->
    used sb v1 (baddr x3 v3 j) = false).
  { intros j Hj H0 H3. destruct (decide (baddr x2 v2 j = 0)) as [H2|H2].
    - destruct (used sb v1 (baddr x3 v3 j)) eqn:E; [|done].
      destruct (iw_data _ _ _ I2 j Hj H3) as (Hr & _). pose proof (N2 j Hj H2 H3) as Hu.
      rewrite U1 in Hu by (done || lia). done.
    - rewrite (O2 j Hj H2). by apply N1. }
  constructor; [exists a2; by subst | done | done | | done | done | done | | | auto].
  - intros j Hj H0. rewrite O2; [by apply O1 | done |]. by rewrite O1.
  - intros o Hoo Hout H0. rewrite length_app, Nat2Z.inj_add in Hout.
    rewrite Out2; [apply Out1; [done | lia | done] | done | lia |].
    rewrite O1; [done | fs_consts; zlia | done].
  - intros n Hnb Hnu Hnj. rewrite K2; [by apply K1 | done | auto |]. intros j Hj ->.
    destruct (decide (baddr x1 v1 j = 0)) as [H0|H0].
    + destruct (decide (baddr x2 v2 j = 0)) as [H2|H2].
      * apply (Hnj j Hj). congruence.
      * pose proof (N1 j Hj H0 H2) as Hf. destruct (iw_data _ _ _ I1 j Hj H2) as (Hr & _).
        rewrite Hnu in Hf by lia. done.
    + apply (Hnj j Hj). by apply O1.
Qed.

(** A store into data block [k] of a file. *)
Lemma block_store sb v x k y :
  ino_wf sb v x -> free_ok sb v -> 0 <= k < MAXFILE -> baddr x v k <> 0 ->
  let v' := <[baddr x v k := y]> v in
  (forall j, 0 <= j <= MAXFILE -> baddr x v' j = baddr x v j) /\
  (forall a, 0 <= a < sb_size sb -> used sb v' a = used sb v a) /\ ino_wf sb v' x /\ free_ok sb v'.
Proof.
  intros W Hf Hk Hb v'.
  destruct (iw_data _ _ _ W k ltac:(lia) Hb) as (Hr & Hu & Hh & Hnb).
  assert (Hba : forall j, 0 <= j <= MAXFILE -> baddr x v' j = baddr x v j).
  { intros j Hj. unfold baddr. case_match; [done|]. case_match; [done|].
    destruct (Z.eqb_spec (nth (Z.to_nat NDIRECT) (i_addrs x) 0) 0) as [|Hne]; [done|].
    unfold v'. rewrite fn_lookup_insert_ne; [done|]. intros E.
    assert (k = MAXFILE); [|lia]. apply (iw_inj _ _ _ W); [lia | fs_consts; lia | done | exact E]. }
  assert (Hus : forall a, 0 <= a < sb_size sb -> used sb v' a = used sb v a).
  { intros a Ha. by apply used_other. }
  split_and!; [done | done | |].
  - constructor; [apply W | apply W | |].
    + intros j Hj. rewrite Hba by done. intros H0.
      destruct (iw_data _ _ _ W j Hj H0) as (Hrj & Huj & Hhj & Hbj). split_and!; [lia..| |done|done].
      by rewrite Hus by lia.
    + intros i j Hi Hj. rewrite !Hba by done. by apply (iw_inj _ _ _ W).
  - intros b Hbr Hbu. rewrite Hus in Hbu by done. by apply Hf.
Qed.

(** One turn of the loop of [writei]. *)
Lemma written_turn sb v v1 x x1 off src :
  let k := off / BSIZE in
  let b := baddr x1 v1 k in
  let y := splice (v1 b) (off mod BSIZE) src in
  grows sb v v1 x x1 -> ino_wf sb v x -> b <> 0 -> length (v1 b) = 512%nat -> 0 <= off -> 0 <= k < MAXFILE ->
  off mod BSIZE + Z.of_nat (length src) <= BSIZE ->
  written sb v (<[b := y]> v1) x x1 off src.
Proof.
  intros k b y Gr Wx Hb Hl Ho Hk Hlen. pose proof (gr_wf _ _ _ _ _ Gr) as W1.
  destruct (block_store sb v1 x1 k y W1 (gr_free _ _ _ _ _ Gr) Hk Hb) as (Hba & Hus & W2 & Hf2).
  fold b in Hba, Hus, W2, Hf2. set (v2 := <[b := y]> v1) in *.
  assert (Hin : forall o, off <= o < off + Z.of_nat (length src) -> o / BSIZE = k /\ o mod BSIZE = off mod BSIZE + (o - off)).
  { intros o Hoo. subst k. fs_consts. zlia. }
  assert (Hold : forall j, 0 <= j < MAXFILE -> baddr x v j <> 0 -> v1 (baddr x v j) = v (baddr x v j)).
  { intros j Hj H0. destruct (iw_data _ _ _ Wx j ltac:(lia) H0) as (Hr & Hu & _ & Hnb).
    apply (gr_keep _ _ _ _ _ Gr); [done | done |]. intros E.
    pose proof (iw_inj _ _ _ Wx j MAXFILE ltac:(lia) ltac:(fs_consts; lia) H0 E). lia. }
  assert (Hfb : forall o, 0 <= o < MAXFILE * BSIZE -> fbyte x1 v2 o =
     if o / BSIZE =? k then get8 y (o mod BSIZE) else get8 (v1 (baddr x1 v1 (o / BSIZE))) (o mod BSIZE)).
  { intros o Hoo. unfold fbyte. rewrite Hba by (fs_consts; zlia).
    destruct (Z.eqb_spec (o / BSIZE) k) as [->|Hne]; [fold b; unfold v2; by rewrite fn_lookup_insert|].
    unfold v2. destruct (decide (baddr x1 v1 (o / BSIZE) = b)) as [E|E]; [|by rewrite fn_lookup_insert_ne].
    exfalso. apply Hne. apply (iw_inj _ _ _ W1); [fs_consts; zlia | lia | congruence | done]. }
  constructor; [apply Gr | done | done | | | | | | |].
  - intros j Hj H0. rewrite Hba by done. by apply (gr_old _ _ _ _ _ Gr).
  - intros j Hj H0. rewrite Hba by done. intros H1. by apply (gr_new _ _ _ _ _ Gr).
  - intros o Hoo. destruct (Hin o Hoo) as [-> _]. by rewrite Hba by lia.
  - apply list_eq. intros i. unfold contents. rewrite list_lookup_fmap.
    destruct (decide (i < length src)%nat) as [Hi|Hi].
    + rewrite lookup_seqZ_lt by lia. destruct (Hin (off + Z.of_nat i) ltac:(lia)) as [E1 E2].
      cbn. rewrite Hfb by (subst k; fs_consts; zlia). rewrite E1, Z.eqb_refl, E2. unfold y.
      rewrite get8_splice_in by (fs_consts; zlia). rewrite nth_lookup_default.
      destruct (lookup_lt_is_Some_2 src i Hi) as [z Hz].
      replace (Z.to_nat (off mod BSIZE + (off + Z.of_nat i - off) - off mod BSIZE)) with i by lia. by rewrite Hz.
    + rewrite lookup_ge_None_2, (lookup_ge_None_2 src) by (rewrite ?length_seqZ; lia). done.
  - intros o Hoo Hout H0. rewrite Hfb by done. destruct (Z.eqb_spec (o / BSIZE) k) as [E|E].
    + unfold y. rewrite get8_splice_out by (subst k; fs_consts; zlia). unfold fbyte. rewrite E.
      rewrite E in H0. unfold b. rewrite (gr_old _ _ _ _ _ Gr) by (first [done | lia]). rewrite Hold by done. done.
    + unfold fbyte. rewrite (gr_old _ _ _ _ _ Gr) by (first [done | fs_consts; zlia]).
      rewrite Hold by (first [done | fs_consts; zlia]). done.
  - intros n Hnb Hnu Hnj. unfold v2. rewrite fn_lookup_insert_ne.
    + apply (gr_keep _ _ _ _ _ Gr); [done | done |]. apply Hnj. fs_consts. lia.
    + intros E. destruct (decide (baddr x v k = 0)) as [H0|H0].
      * destruct (gr_new _ _ _ _ _ Gr k ltac:(lia) H0 Hb) as [Hu _]. fold b in Hu.
        destruct (iw_data _ _ _ W1 k ltac:(lia) Hb) as (Hr & _). fold b in Hr.
        rewrite <-E in Hnu. rewrite Hnu in Hu by lia. done.
      * apply (Hnj k ltac:(lia)). rewrite <-E. apply (gr_old _ _ _ _ _ Gr); [lia | done].
  - intros a Ha Hu. rewrite Hus by done. by apply (gr_used _ _ _ _ _ Gr).
Qed.


Lemma writei_loop_ok fuel s v D ip src off tot n :
  let sb := fs_sb s in
  let x := nth_ip s ip in
  frep s v D ∅ -> geo sb -> free_ok sb v -> ino_wf sb v x -> (ip < length (icache s))%nat ->
  0 <= off -> 0 <= tot <= n -> Z.of_nat (length src) = n - tot -> off + (n - tot) <= MAXFILE * BSIZE ->
  blocks_of off (n - tot) < Z.of_nat fuel -> room D (S (6 * Z.to_nat (blocks_of off (n - tot)))) ->
  writei_loop fuel ip src off tot n s = Panic "balloc: out of blocks" \/
  exists s' v' D' x', writei_loop fuel ip src off tot n s = Ok (off + (n - tot), s') /\
    frep s' v' D' ∅ /\ upd_ip s s' ip x' /\ written sb v v' x x' off src /\ room D' 1.
Proof.
  revert s v D src off tot. induction fuel as [|f IH];
    intros s v D src off tot sb x F G Hfree W Hi Ho Ht Hlen Hmax Hf Hroom.
  { pose proof (blocks_of_pos off (n - tot)). lia. }
  cbn [writei_loop]. destruct (Z.ltb_spec tot n) as [Hlt|Hge].
  2:{ right. exists s, v, D, x. replace (n - tot) with 0 in * by lia. rewrite Z.add_0_r.
      destruct src; [|cbn in Hlen; lia]. split_and!; [done | done | by apply upd_ip_same | by apply written_nil |].
      eapply room_le; [exact Hroom | lia]. }
  rewrite (sr_bind_run (m_ip ip) _ s x s) by done.
  assert (Hk : 0 <= off / BSIZE < MAXFILE) by (fs_consts; zlia).
  set (m := Z.min (n - tot) (BSIZE - off mod BSIZE)).
  assert (Hm : 0 < m /\ off mod BSIZE + m <= BSIZE /\ m <= n - tot /\
     (m = n - tot \/ (off + m) mod BSIZE = 0 /\ (off + m) / BSIZE = off / BSIZE + 1)).
  { subst m. fs_consts. zlia. }
  clearbody m. destruct Hm as (Hm0 & Hm1 & Hm2 & Hm3).
  pose proof (blocks_of_step off (n - tot) m ltac:(lia) Hm3) as Hst.
  pose proof (blocks_of_pos (off + m) (n - tot - m)) as Hpos.
  destruct (bmap_ok s v D ip (off / BSIZE) F G Hfree W Hi) as
    [E|(b & s1 & v1 & D1 & x1 & E1 & F1 & U1 & Gr & Hb & Hb0 & Hsz1 & Hsub1)].
  { eapply room_le; [exact Hroom | lia]. }
  { done. }
  { left. unfold mbind at 1, SR_bind at 1. by rewrite E. }
  rewrite (sr_bind_run _ _ _ _ _ E1), (iw_dev _ _ _ W). subst b.
  set (b := baddr x1 v1 (off / BSIZE)) in *.
  destruct (iw_data _ _ _ (gr_wf _ _ _ _ _ Gr) (off / BSIZE) ltac:(lia) Hb0) as (Hr & _ & Hh & _). fold b in Hr, Hh.
  assert (Hcap : (size D1 + 1 < 30)%nat) by (destruct Hroom; lia).
  destruct (m_bread_ok s1 v1 D1 ∅ b F1) as (bp & s2 & E2 & F2 & Hbp & S2).
  { apply Hh. }
  { intros i Hi'. by rewrite lookup_empty in Hi'. }
  { rewrite map_size_empty. lia. }
  rewrite (sr_bind_run _ _ _ _ _ E2). cbv zeta.
  assert (Hlk : <[bp := b]> (∅ : gmap nat Z) !! bp = Some b) by apply lookup_insert_eq.
  rewrite (sr_bind_run _ _ _ _ _ (m_data_ok _ _ _ _ bp _ F2 Hlk)).
  set (l1 := take (Z.to_nat m) src).
  assert (Hl1 : Z.of_nat (length l1) = m) by (subst l1; rewrite length_take; lia).
  pose proof (frep_length _ _ _ _ b F1) as Hlb.
  destruct (m_update_ok s2 v1 D1 _ bp b (splice (v1 b) (off mod BSIZE) l1) F2 Hlk) as (s3 & s4 & E3 & E4 & F4 & S4).
  { rewrite splice_length; fs_consts; zlia. }
  { done. }
  { destruct Hroom. split; [lia | done]. }
  rewrite (sr_bind_run _ _ _ _ _ E3), (sr_bind_run _ _ _ _ _ E4).
  destruct (m_brelse_ok s4 _ _ _ bp b F4 Hlk) as (s5 & E5 & F5 & S5).
  rewrite delete_insert_id in F5 by done. rewrite (sr_bind_run _ _ _ _ _ E5).
  assert (W5 : written sb v (<[b := splice (v1 b) (off mod BSIZE) l1]> v1) x x1 off l1).
  { apply written_turn; try done. lia. }
  set (v5 := <[b := _]> v1) in *.
  assert (U5 : upd_ip s s5 ip x1).
  { destruct (upd_ip_nth _ _ _ _ U1 Hi) as [Hx1 Hl]. eapply upd_ip_trans; [exact U1|]. rewrite <-Hx1.
    apply upd_ip_same; [lia|]. eapply same_trans; [exact S2|]. by eapply same_trans. }
  destruct (upd_ip_nth _ _ _ _ U5 Hi) as [Hx5 Hl5]. assert (Hsb5 : fs_sb s5 = sb) by apply U5.
  assert (Hroom5 : room (D1 ∪ {[b]}) (S (6 * Z.to_nat (blocks_of (off + m) (n - tot - m))))).
  { apply room_add. destruct Hroom. split; [lia | done]. }
  destruct (IH s5 v5 (D1 ∪ {[b]}) (drop (Z.to_nat m) src) (off + m) (tot + m)) as
    [E|(s6 & v6 & D6 & x6 & E6 & F6 & U6 & W6 & R6)];
    rewrite ?Hx5, ?Hsb5, ?Hl5; try done; try exact (wr_wf _ _ _ _ _ _ _ W5); try exact (wr_free _ _ _ _ _ _ _ W5); try lia.
  { rewrite length_drop. lia. }
  { replace (n - (tot + m)) with (n - tot - m) by lia. lia. }
  { by replace (n - (tot + m)) with (n - tot - m) by lia. }
  { by left. }
  right. exists s6, v6, D6, x6. rewrite Hx5, Hsb5 in W6. split_and!; [| done | by eapply upd_ip_trans | | done].
  - rewrite E6. do 2 f_equal. lia.
  - rewrite <-(take_drop (Z.to_nat m) src). fold l1. eapply written_app; [done | lia | exact W5 |].
    by rewrite Hl1.
Qed.

(** *** Inodes on disk *)

(** The block of an inode: logged like a home block, in use, not in the free
    map. *)
Definition iblock_ok (sb : superblock) v (i : Z) : Prop :=
  0 <= i /\ home (IBLOCK i sb) /\ ~ is_bitmap sb (IBLOCK i sb) /\
  (0 <= IBLOCK i sb < sb_size sb -> used sb v (IBLOCK i sb) = true).

Lemma encode_addrs_length a o dd k :
  0 <= o -> o + 64 <= Z.of_nat (length dd) -> (k <= 13)%nat ->
  length (foldl (fun d k => put32 d (o + 12 + 4 * Z.of_nat k) (nth k a 0)) dd (seq 0 k)) = length dd.
Proof.
  intros Ho Hl. induction k as [|k IH]; intros Hk; [done|].
  rewrite seq_S, foldl_app. cbn. rewrite put32_length; rewrite ?IH; lia.
Qed.

Lemma dino_range i : 0 <= dino i /\ dino i + 64 <= 512.
Proof. unfold dino, IPB. fs_consts. change (512 / 64) with 8. zlia. Qed.

Lemma put16_512 dd o x : length dd = 512%nat -> 0 <= o -> o + 2 <= 512 -> length (put16 dd o x) = 512%nat.
Proof. intros. rewrite put16_length; lia. Qed.

Lemma put32_512 dd o x : length dd = 512%nat -> 0 <= o -> o + 4 <= 512 -> length (put32 dd o x) = 512%nat.
Proof. intros. rewrite put32_length; lia. Qed.

(** The stores of [iupdate] before the block addresses. *)
Definition encode_meta (x : inode) (o : Z) (dd : block) : block :=
  put32 (put16 (put16 (put16 (put16 dd o (i_type x)) (o + 2) (i_major x)) (o + 4) (i_minor x)) (o + 6) (i_nlink x))
    (o + 8) (i_size x).

Lemma encode_meta_length x o dd : 0 <= o -> o + 64 <= 512 -> length dd = 512%nat -> length (encode_meta x o dd) = 512%nat.
Proof.
  intros Ho Ho' Hl. unfold encode_meta. apply put32_512; [|lia..].
  by do 4 (apply put16_512; [|lia..]).
Qed.

Lemma encode_dinode_length x i dd : length dd = 512%nat -> length (encode_dinode x (dino i) dd) = 512%nat.
Proof.
  intros Hl. destruct (dino_range i) as [H1 H2].
  pose proof (encode_meta_length x _ dd H1 H2 Hl) as Hm.
  change (encode_dinode x (dino i) dd) with
    (foldl (fun d k => put32 d (dino i + 12 + 4 * Z.of_nat k) (nth k (i_addrs x) 0))
       (encode_meta x (dino i) dd) (seq 0 13)).
  rewrite encode_addrs_length; lia.
Qed.

Lemma iupdate_ok s v D ip :
  let sb := fs_sb s in
  let x := nth_ip s ip in
  let n := IBLOCK (i_inum x) sb in
  frep s v D ∅ -> i_dev x = 1 -> home n -> room D 1 ->
  exists s', iupdate ip s = Ok (tt, s') /\ same s s' /\
    frep s' (<[n := encode_dinode x (dino (i_inum x)) (v n)]> v) (D ∪ {[n]}) ∅.
Proof.
  intros sb x n F Hdev Hn Hroom. unfold iupdate.
  rewrite (sr_bind_run (m_ip ip) _ s x s), (sr_bind_run m_sb _ s sb s), Hdev by done. fold n.
  destruct (m_bread_ok s v D ∅ n F) as (bp & s1 & E1 & F1 & Hbp & S1).
  { apply Hn. }
  { intros i Hi'. by rewrite lookup_empty in Hi'. }
  { rewrite map_size_empty. destruct Hroom. lia. }
  rewrite (sr_bind_run _ _ _ _ _ E1).
  assert (Hlk : <[bp := n]> (∅ : gmap nat Z) !! bp = Some n) by apply lookup_insert_eq.
  rewrite (sr_bind_run _ _ _ _ _ (m_data_ok _ _ _ _ bp _ F1 Hlk)).
  destruct (m_update_ok s1 v D _ bp n (encode_dinode x (dino (i_inum x)) (v n)) F1 Hlk) as (s2 & s3 & E2 & E3 & F3 & S3).
  { apply encode_dinode_length. by eapply frep_length. }
  { done. }
  { done. }
  rewrite (sr_bind_run _ _ _ _ _ E2), (sr_bind_run _ _ _ _ _ E3).
  destruct (m_brelse_ok s3 _ _ _ bp n F3 Hlk) as (s4 & E4 & F4 & S4).
  rewrite delete_insert_id in F4 by done. exists s4. split_and!; [done | | done].
  eapply same_trans; [exact S1|]. by eapply same_trans.
Qed.


(** A store into a block that is none of the file's. *)
Lemma foreign_store sb v x n y :
  ~ is_bitmap sb n -> (forall j, 0 <= j <= MAXFILE -> n <> baddr x v j) ->
  let v' := <[n := y]> v in
  (forall j, 0 <= j <= MAXFILE -> baddr x v' j = baddr x v j) /\
  (forall o, 0 <= o < MAXFILE * BSIZE -> fbyte x v' o = fbyte x v o) /\
  (ino_wf sb v x -> ino_wf sb v' x) /\ (free_ok sb v -> free_ok sb v').
Proof.
  intros Hnb Hn v'.
  assert (Hba : forall j, 0 <= j <= MAXFILE -> baddr x v' j = baddr x v j).
  { intros j Hj. unfold baddr. case_match; [done|]. case_match; [done|]. case_match; [done|].
    unfold v'. rewrite fn_lookup_insert_ne; [done|]. apply (Hn MAXFILE). fs_consts. lia. }
  assert (Hus : forall a, 0 <= a < sb_size sb -> used sb v' a = used sb v a) by (intros; by apply used_other).
  split_and!; [done | | |].
  - intros o Ho. unfold fbyte. rewrite Hba by (fs_consts; zlia). unfold v'.
    rewrite fn_lookup_insert_ne; [done|]. apply Hn. fs_consts. zlia.
  - intros W. constructor; [apply W | apply W | |].
    + intros j Hj. rewrite Hba by done. intros H0.
      destruct (iw_data _ _ _ W j Hj H0) as (Hrj & Huj & Hhj & Hbj). split_and!; [lia..| |done|done].
      by rewrite Hus by lia.
    + intros i j Hi Hj. rewrite !Hba by done. by apply (iw_inj _ _ _ W).
  - intros Hf b Hbr Hbu. rewrite Hus in Hbu by done. by apply Hf.
Qed.

(** Nothing about the blocks of an inode depends on its size. *)
Lemma iset_size_facts sb v x z :
  (forall j, baddr (iset_size z x) v j = baddr x v j) /\ (forall o, fbyte (iset_size z x) v o = fbyte x v o) /\
  (ino_wf sb v x -> ino_wf sb v (iset_size z x)).
Proof. split_and!; [done | done |]. intros [? ? ? ?]. by constructor. Qed.

(** The end of [writei]: the size grows and the inode is written through. *)
Lemma writei_finish s v D ip n off :
  let sb := fs_sb s in
  let x := nth_ip s ip in
  let ib := IBLOCK (i_inum x) sb in
  frep s v D ∅ -> free_ok sb v -> ino_wf sb v x -> (ip < length (icache s))%nat -> room D 1 ->
  home ib -> ~ is_bitmap sb ib -> (forall j, 0 <= j <= MAXFILE -> ib <> baddr x v j) ->
  exists s' v' D' x', (y ← m_ip ip;
    _ ← (if (0 <? n) && (i_size y <? off) then _ ← m_ip_set ip (iset_size off); iupdate ip else mret tt);
    mret n) s = Ok (n, s') /\
    frep s' v' D' ∅ /\ upd_ip s s' ip x' /\ free_ok sb v' /\ ino_wf sb v' x' /\
    x' = iset_size (if (0 <? n) && (i_size x <? off) then off else i_size x) x /\
    (forall j, 0 <= j <= MAXFILE -> baddr x' v' j = baddr x v j) /\
    (forall o, 0 <= o < MAXFILE * BSIZE -> fbyte x' v' o = fbyte x v o) /\
    (forall a, a <> ib -> v' a = v a) /\ (size D' < 30)%nat.
Proof.
  intros sb x ib F Hfree W Hi Hroom Hh Hnb Hnj. rewrite (sr_bind_run (m_ip ip) _ s x s) by done.
  destruct ((0 <? n) && (i_size x <? off)).
  - destruct (m_ip_set_ok s ip (iset_size off) _ _ _ Hi F) as (s1 & E1 & U1 & F1). fold x in U1.
    destruct (upd_ip_nth _ _ _ _ U1 Hi) as [Hx1 Hl1].
    destruct (iupdate_ok s1 v D ip F1) as (s2 & E2 & S2 & F2); rewrite ?Hx1, ?(proj1 U1); try done; [apply W|].
    rewrite (sr_bind_run _ _ s tt s2) by (by rewrite (sr_bind_run _ _ _ _ _ E1)).
    rewrite Hx1, (proj1 U1) in F2. cbn [i_inum iset_size iset_meta] in F2. fold sb ib in F2.
    set (y := encode_dinode _ _ _) in F2.
    destruct (foreign_store sb v x ib y Hnb Hnj) as (B1 & B2 & B3 & B4).
    destruct (iset_size_facts sb (<[ib := y]> v) x off) as (C1 & C2 & C3).
    eexists s2, _, _, (iset_size off x). split_and!; [done | exact F2 | | auto | auto | done | | | |].
    + eapply upd_ip_trans; [exact U1|]. rewrite <-Hx1. apply upd_ip_same; [lia | done].
    + intros j Hj. rewrite C1. by apply B1.
    + intros o Ho. rewrite C2. by apply B2.
    + intros a Ha. by rewrite fn_lookup_insert_ne.
    + pose proof (room_add _ ib 0 Hroom) as [[Hr _] _]. lia.
  - rewrite (sr_bind_run _ _ s tt s) by done. exists s, v, D, x. split_and!; try done.
    + by apply upd_ip_same.
    + unfold x. by destruct (nth_ip s ip).
    + destruct Hroom. lia.
Qed.

(** The file after a write: the bytes of [src] from [off], the old ones elsewhere. *)
Definition overlay (x : inode) v (off : Z) (src : list Z) (o : Z) : Z :=
  if (off <=? o) && (o <? off + Z.of_nat (length src)) then nth (Z.to_nat (o - off)) src 0 else fbyte x v o.

Lemma written_overlay sb v v' x x' off src o :
  written sb v v' x x' off src -> 0 <= o < MAXFILE * BSIZE -> covered x v 0 (i_size x) -> 0 <= off ->
  o < Z.max (i_size x) (off + Z.of_nat (length src)) -> off <= i_size x ->
  fbyte x' v' o = overlay x v off src o /\ baddr x' v' (o / BSIZE) <> 0.
Proof.
  intros W Ho Hc Hoff Hsz Hle. unfold overlay.
  destruct (decide (off <= o < off + Z.of_nat (length src))) as [Hin|Hout].
  - rewrite (proj2 (Z.leb_le off o)), (proj2 (Z.ltb_lt o _)) by lia. cbn [andb].
    split; [|by apply (wr_cov _ _ _ _ _ _ _ W)].
    pose proof (wr_bytes _ _ _ _ _ _ _ W) as Hb.
    assert (Hlk : contents x' v' off (Z.of_nat (length src)) !! Z.to_nat (o - off) = Some (fbyte x' v' o)).
    { unfold contents. rewrite list_lookup_fmap, lookup_seqZ_lt by lia. cbn. do 2 f_equal. lia. }
    rewrite Hb in Hlk. by rewrite nth_lookup_default, Hlk.
  - assert (Hb : baddr x v (o / BSIZE) <> 0) by (apply Hc; lia).
    replace ((off <=? o) && (o <? off + Z.of_nat (length src))) with false.
    2:{ symmetry. apply andb_false_iff. destruct (Z.leb_spec off o); [right|by left]. apply Z.ltb_ge. lia. }
    split; [by apply (wr_outside _ _ _ _ _ _ _ W)|].
    rewrite (wr_old _ _ _ _ _ _ _ W); [done | fs_consts; zlia | done].
Qed.

Lemma readi_ok dev_read s v D ip off n :
  let sb := fs_sb s in
  let x := nth_ip s ip in
  frep s v D ∅ -> geo sb -> ino_wf sb v x -> (size D < 30)%nat ->
  i_type x <> T_DEV -> covered x v 0 (i_size x) -> i_size x <= MAXFILE * BSIZE ->
  0 <= off <= i_size x -> 0 <= n < 2 ^ 31 ->
  let m := Z.min n (i_size x - off) in
  exists s', readi dev_read ip off n s = Ok ((m, contents x v off m), s') /\ frep s' v D ∅ /\ same s s'.
Proof.
  intros sb x F G W Hcap Hty Hcov Hmax Hoff Hn m. unfold readi.
  rewrite (sr_bind_run (m_ip ip) _ s x s) by done. rewrite (proj2 (Z.eqb_neq _ _)) by done.
  rewrite (proj2 (Z.ltb_ge (i_size x) off)) by lia. cbn [orb].
  assert (Hmx : MAXFILE * BSIZE = 71680) by done.
  rewrite u32_small, (proj2 (Z.ltb_ge (off + n) off)) by lia. cbv zeta.
  assert (Em : (if i_size x <? off + n then i_size x - off else n) = m).
  { subst m. destruct (Z.ltb_spec (i_size x) (off + n)); lia. }
  rewrite Em. assert (Hm : 0 <= m /\ off + m <= i_size x) by lia.
  destruct (readi_loop_ok (io_fuel m) s v D ip [] off 0 m F G W Hcap) as (s' & E & F' & S'); rewrite ?Z.sub_0_r; try lia.
  { intros o Ho. apply Hcov. lia. }
  { apply io_fuel_enough. lia. }
  fold x in E. rewrite Z.sub_0_r in E. rewrite (sr_bind_run _ _ _ _ _ E). by exists s'.
Qed.

(** What [writei] does to a regular file or directory. *)
Lemma writei_ok dev_write s v D ip src off :
  let sb := fs_sb s in
  let x := nth_ip s ip in
  let n := Z.of_nat (length src) in
  let ib := IBLOCK (i_inum x) sb in
  frep s v D ∅ -> geo sb -> free_ok sb v -> ino_wf sb v x -> (ip < length (icache s))%nat ->
  i_type x <> T_DEV -> iblock_ok sb v (i_inum x) -> (forall j, 0 <= j <= MAXFILE -> ib <> baddr x v j) ->
  0 <= off <= i_size x -> off + n <= MAXFILE * BSIZE -> i_size x <= MAXFILE * BSIZE ->
  covered x v 0 (i_size x) -> room D (S (6 * Z.to_nat (blocks_of off n))) ->
  writei dev_write ip src off n s = Panic "balloc: out of blocks" \/
  exists s' v' D' x', writei dev_write ip src off n s = Ok (n, s') /\
    frep s' v' D' ∅ /\ upd_ip s s' ip x' /\ free_ok sb v' /\ ino_wf sb v' x' /\
    i_type x' = i_type x /\ i_size x' = Z.max (i_size x) (off + n) /\
    (forall o, 0 <= o < i_size x' -> fbyte x' v' o = overlay x v off src o /\ baddr x' v' (o / BSIZE) <> 0) /\
    (forall a, ~ is_bitmap sb a -> (0 <= a < sb_size sb -> used sb v a = true) -> a <> ib ->
       (forall j, 0 <= j <= MAXFILE -> a <> baddr x v j) -> v' a = v a) /\ (size D' < 30)%nat /\
    (forall a, 0 <= a < sb_size sb -> used sb v a = true -> used sb v' a = true) /\
    (forall j, 0 <= j <= MAXFILE -> ib <> baddr x' v' j) /\ (exists a z, x' = iset_size z (iset_addrs a x)).
Proof.
  intros sb x n ib F G Hfree W Hi Hty (Hib0 & Hibh & Hibb & Hibu) Hibj Hoff Hmax Hsize Hcov Hroom. unfold writei.
  rewrite (sr_bind_run (m_ip ip) _ s x s) by done. rewrite (proj2 (Z.eqb_neq _ _)) by done.
  rewrite (proj2 (Z.ltb_ge (i_size x) off)) by lia. cbn [orb].
  assert (Hmx : MAXFILE * BSIZE = 71680) by done.
  rewrite u32_small, (proj2 (Z.ltb_ge (off + n) off)) by lia.
  rewrite (proj2 (Z.ltb_ge _ (off + n))) by done.
  destruct (writei_loop_ok (io_fuel n) s v D ip src off 0 n F G Hfree W Hi) as
    [E|(s1 & v1 & D1 & x1 & E1 & F1 & U1 & W1 & R1)]; rewrite ?Z.sub_0_r; try done; try lia.
  { apply io_fuel_enough. lia. }
  { left. unfold mbind at 1, SR_bind at 1. by rewrite E. }
  right. rewrite Z.sub_0_r in E1. rewrite (sr_bind_run _ _ _ _ _ E1).
  destruct (upd_ip_nth _ _ _ _ U1 Hi) as [Hx1 Hl1]. assert (Hsb1 : fs_sb s1 = sb) by apply U1. fold sb x in W1.
  assert (Hmeta : i_inum x1 = i_inum x /\ i_size x1 = i_size x /\ i_type x1 = i_type x).
  { destruct (wr_meta _ _ _ _ _ _ _ W1) as [a ->]. done. }
  destruct Hmeta as (Hinum & Hsz & Htyp).
  assert (Hibj1 : forall j, 0 <= j <= MAXFILE -> ib <> baddr x1 v1 j).
  { intros j Hj E. destruct (decide (baddr x v j = 0)) as [H0|H0].
    - destruct (decide (baddr x1 v1 j = 0)) as [H1|H1]; [apply (Hibj j Hj); congruence|].
      pose proof (wr_new _ _ _ _ _ _ _ W1 j Hj H0 H1) as Hu.
      destruct (iw_data _ _ _ (wr_wf _ _ _ _ _ _ _ W1) j Hj H1) as (Hr & _).
      rewrite <-E in Hu, Hr. fold ib in Hibu. rewrite Hibu in Hu by lia. done.
    - apply (Hibj j Hj). rewrite E. by apply (wr_old _ _ _ _ _ _ _ W1). }
  destruct (writei_finish s1 v1 D1 ip n (off + n)) as (s2 & v2 & D2 & x2 & E2 & F2 & U2 & Hf2 & Wf2 & Ex2 & Hba2 & Hfb2 & Hk2 & Hcap2);
    rewrite ?Hx1, ?Hsb1, ?Hinum, ?Hl1; try done; try apply W1.
  rewrite Hx1, Hsb1, ?Hinum in *. fold ib in Hk2. rewrite Hsz in Ex2.
  exists s2, v2, D2, x2. rewrite E2.
  assert (Es2 : i_size x2 = Z.max (i_size x) (off + n)).
  { rewrite Ex2. cbn. destruct (Z.ltb_spec 0 n); cbn [andb]; [|lia].
    destruct (Z.ltb_spec (i_size x) (off + n)); lia. }
  split_and!; try done.
  - by eapply upd_ip_trans.
  - by rewrite Ex2.
  - intros o Ho. rewrite Es2 in Ho. rewrite Hfb2, Hba2 by (fs_consts; zlia).
    apply (written_overlay sb v v1 x x1); try done; lia.
  - intros a Ha1 Ha2 Ha3 Ha4. rewrite Hk2 by done. by apply (wr_keep _ _ _ _ _ _ _ W1).
  - intros a Ha Hu. rewrite <-(wr_used _ _ _ _ _ _ _ W1 a Ha Hu). unfold used. rewrite Hk2; [done|].
    intros Eb. apply Hibb. by exists a.
  - intros j Hj. rewrite Hba2 by done. by apply Hibj1.
  - destruct (wr_meta _ _ _ _ _ _ _ W1) as [a Ea]. rewrite Ea in Ex2. eauto.
Qed.

End Tx.

(** ** Properties *)

Section Props.
Context {C : Type} {ops : BufOps C} {laws : BufLaws C}.
Context (d : gmap Z block) (start lsize dsize : Z).
Context (dev_read : Z -> option (nat -> Z -> SR (fs C) (Z * list Z))).
Context (dev_write : Z -> option (nat -> list Z -> SR (fs C) Z)).
Abbreviation rep := (frep d start lsize dsize true).

(** C13: block allocation.  [balloc] either returns the first block that was
    free, marks exactly that block in use and zeroes it, changing no other
    block, or finds every block in use and panics; [bfree] then clears exactly
    that bit, and freeing a free block panics. *)
Theorem balloc_bfree_correct (s : fs C) v D Hh :
  let sb := fs_sb s in
  rep s v D Hh -> geo start lsize dsize sb -> free_ok start lsize dsize sb v -> held_ok sb v Hh ->
  room lsize true D 3 -> (size D + size Hh + 3 < 30)%nat ->
  ((exists b s' v', balloc 1 s = Ok (b, s') /\ allocated sb v v' b /\
      rep s' v' (D ∪ {[BBLOCK b sb]} ∪ {[b]}) Hh /\
      exists s'' v'', bfree 1 b s' = Ok (tt, s'') /\
        rep s'' v'' (D ∪ {[BBLOCK b sb]} ∪ {[b]} ∪ {[BBLOCK b sb]}) Hh /\
        (forall x, 0 <= x < sb_size sb -> used sb v'' x = used sb v x)) \/
   ((forall x, 0 <= x < sb_size sb -> used sb v x = true) /\
      balloc 1 s = Panic "balloc: out of blocks")) /\
  forall b, 0 <= b < sb_size sb -> used sb v b = false -> bfree 1 b s = Panic "freeing free block".
Proof.
  intros sb F G Hfree Hheld Hroom Hcap. split.
  - destruct (balloc_ok d start lsize dsize true s v D Hh F G Hfree Hheld) as
      [(b & s' & v' & E & F' & S' & A)|H]; [eapply room_le; [exact Hroom | lia] | lia | left | by right].
    fold sb in F', A. exists b, s', v'. split_and!; [done..|]. pose proof (al_range _ _ _ _ A) as Hb.
    assert (Hsb : fs_sb s' = sb) by apply S'.
    pose proof (bfree_ok d start lsize dsize true s' v' _ Hh b F') as Hbf. rewrite Hsb in Hbf.
    assert (Hu : used sb v' b = true) by (rewrite (al_used _ _ _ _ A), Z.eqb_refl by done; done).
    pose proof (size_add2 D (BBLOCK b sb) b) as Hsz. rewrite Hu in Hbf.
    destruct Hbf as (s'' & v'' & E2 & F2 & S2 & U2 & _); [done | | | lia | done |].
    { intros i n Hn. destruct (Hheld i n Hn) as [H1 H2]. split; [done|]. intros Hr.
      rewrite (al_used _ _ _ _ A), H2 by done. apply orb_true_r. }
    { apply (room_add lsize true (D ∪ {[BBLOCK b sb]}) b 1), (room_add lsize true D (BBLOCK b sb) 2), Hroom. }
    exists s'', v''. split_and!; [done | done |]. intros x Hx.
    rewrite U2, (al_used _ _ _ _ A) by (rewrite ?Hsb; done).
    destruct (Z.eqb_spec x b) as [->|]; [by rewrite (al_free _ _ _ _ A) | done].
  - intros b Hb Hu. pose proof (bfree_ok d start lsize dsize true s v D Hh b F G Hheld) as Hbf.
    fold sb in Hbf. rewrite Hu in Hbf. apply Hbf; [eapply room_le; [exact Hroom | lia] | lia | done].
Qed.

End Props.

#[export] Instance home_dec start lsize dsize n : Decision (home start lsize dsize n).
Proof. unfold home. apply _. Defined.
#[export] Instance room_dec lsize tx (D : gset Z) k : Decision (room lsize tx D k).
Proof. unfold room. apply _. Defined.

(** *** A small file system: blocks 0 .. 13 in use, block 13 the free map,
    the log in blocks 2 .. 11, inodes in block 12, an empty file at entry 0 of
    the inode cache, inside a transaction. *)

Definition demo_bitmap : block := 255 :: 63 :: replicate 510 0.
Definition demo_fsdisk : gmap Z block := {[ 13 := demo_bitmap ]}.
Definition demo_sb : superblock := mkSb 20 6 8 10 2 12 13.
Definition demo_file : inode := mkInode 1 3 1 initsleeplock true T_FILE 0 0 1 0 (replicate 13 0).
Definition demo_fs : fs bio :=
  mkFs (binit demo_fsdisk 20) (mkLog 2 10 1 false 1 0 (replicate 30 0)) demo_sb
    (demo_file :: replicate 49 inode0) 0.

Lemma demo_fsdisk_wf n : length (dread demo_fsdisk n) = 512%nat.
Proof.
  unfold dread, demo_fsdisk. destruct (decide (n = 13)) as [->|Hne].
  - by rewrite lookup_singleton_eq.
  - by rewrite lookup_singleton_ne.
Defined.

Lemma demo_frep : frep (laws := bio_laws 1) demo_fsdisk 2 10 20 true demo_fs (dread demo_fsdisk) ∅ ∅.
Proof.
  constructor; try done.
  - apply binit_rep, demo_fsdisk_wf.
  - constructor; [|done | constructor | done]. constructor; try done. cbn. intros i Hi. lia.
Defined.

Lemma demo_bitmap_block n : is_bitmap demo_sb n -> n = 13.
Proof.
  intros (x & Hx & ->). unfold BBLOCK, demo_sb in *. cbn [sb_size sb_bmapstart] in *.
  replace (x / BPB) with 0; [done|]. symmetry. apply Z.div_small. unfold BPB, BSIZE. lia.
Defined.

Lemma demo_geo : geo 2 10 20 demo_sb.
Proof.
  constructor; try done. intros n ->%demo_bitmap_block. split_and!; lia.
Defined.

Lemma demo_free_ok : free_ok 2 10 20 demo_sb (dread demo_fsdisk).
Proof.
  intros b Hb Hu. cbn in Hb.
  assert (Hall : forallb (fun b => used demo_sb (dread demo_fsdisk) b || (14 <=? b)) (seqZ 0 20) = true)
    by (vm_compute; reflexivity).
  rewrite forallb_forall in Hall.
  assert (Hin : In b (seqZ 0 20)) by (apply list_elem_of_In, elem_of_seqZ; lia).
  apply Hall in Hin. rewrite Hu in Hin. cbn [orb] in Hin. apply Z.leb_le in Hin.
  split_and!; [lia | split_and!; lia |]. intros E%demo_bitmap_block. lia.
Defined.

Lemma demo_baddr v k : baddr demo_file v k = 0.
Proof.
  unfold baddr. cbn [i_addrs demo_file]. rewrite !nth_lookup_default.
  assert (H : forall i, default 0 (replicate 13 0 !! i) = 0).
  { intros i. destruct (decide (i < 13)%nat); [by rewrite lookup_replicate_2|].
    rewrite lookup_ge_None_2; [done|]. cbn. lia. }
  rewrite !H. by repeat case_match.
Defined.

Lemma demo_ino_wf v : ino_wf 2 10 20 demo_sb v demo_file.
Proof.
  constructor; [done | done | |].
  - intros k _ Hk. by rewrite demo_baddr in Hk.
  - intros j k _ _ Hj. by rewrite demo_baddr in Hj.
Defined.

Lemma balloc_bfree_correct_witness :
  exists b s' v', balloc (ops := bio_ops 1) 1 demo_fs = Ok (b, s') /\
    allocated demo_sb (dread demo_fsdisk) v' b.
Proof.
  destruct (balloc_bfree_correct (laws := bio_laws 1) demo_fsdisk 2 10 20 demo_fs (dread demo_fsdisk) ∅ ∅)
    as [[(b & s' & v' & E & A & _)|[Hall _]] _].
  - exact demo_frep.
  - exact demo_geo.
  - exact demo_free_ok.
  - intros i n Hn. by rewrite lookup_empty in Hn.
  - apply (bool_decide_unpack _). vm_compute. exact I.
  - apply (bool_decide_unpack _). vm_compute. exact I.
  - by exists b, s', v'.
  - exfalso. specialize (Hall 14 ltac:(cbn; lia)). vm_compute in Hall. discriminate Hall.
Defined.

