(* ===== verification/FsMeta.v ===== *)
(** The parts of the file system around the block layer: the codec of on-disk
    inodes ([iupdate]/[ilock]), reference counts of the inode cache ([iget],
    [idup]), and path names ([skipelem]). *)

From S2P Require Import Prelude Block Bio Log Fs.

(** ** The on-disk inode *)

Lemma get16_splice_other b off l x :
  0 <= off -> off + Z.of_nat (length l) <= Z.of_nat (length b) -> 0 <= x ->
  x + 2 <= off \/ off + Z.of_nat (length l) <= x -> get16 (splice b off l) x = get16 b x.
Proof. intros. unfold get16. by rewrite !get8_splice_out by lia. Qed.

Lemma get32_splice_other b off l x :
  0 <= off -> off + Z.of_nat (length l) <= Z.of_nat (length b) -> 0 <= x ->
  x + 4 <= off \/ off + Z.of_nat (length l) <= x -> get32 (splice b off l) x = get32 b x.
Proof. intros. unfold get32. by rewrite !get8_splice_out by lia. Qed.

(** A block of 512 bytes stays one, and a store outside the field read does
    not change it. *)
Definition blk_ok (b : block) : Prop := length b = 512%nat.

Lemma put16_ok b o x : blk_ok b -> 0 <= o -> o + 2 <= 512 -> blk_ok (put16 b o x).
Proof. unfold blk_ok. intros. rewrite put16_length; lia. Qed.

Lemma put32_ok b o x : blk_ok b -> 0 <= o -> o + 4 <= 512 -> blk_ok (put32 b o x).
Proof. unfold blk_ok. intros. rewrite put32_length; lia. Qed.

(** The addresses, stored by a loop. *)
Definition put_addrs (a : list Z) (o : Z) (b : block) (k : nat) : block :=
  foldl (fun d k => put32 d (o + 12 + 4 * Z.of_nat k) (nth k a 0)) b (seq 0 k).

Lemma put_addrs_S a o b k : put_addrs a o b (S k) = put32 (put_addrs a o b k) (o + 12 + 4 * Z.of_nat k) (nth k a 0).
Proof. unfold put_addrs. by rewrite seq_S, foldl_app. Qed.

Lemma put_addrs_ok a o b k : blk_ok b -> 0 <= o -> o + 64 <= 512 -> (k <= 13)%nat -> blk_ok (put_addrs a o b k).
Proof.
  intros Hb Ho Ho'. induction k as [|k IH]; intros Hk; [done|]. rewrite put_addrs_S.
  apply put32_ok; [apply IH | |]; lia.
Qed.

Lemma put_addrs_get a o b k j :
  blk_ok b -> 0 <= o -> o + 64 <= 512 -> (k <= 13)%nat -> (j < k)%nat ->
  get32 (put_addrs a o b k) (o + 12 + 4 * Z.of_nat j) = u32 (nth j a 0).
Proof.
  intros Hb Ho Ho'. induction k as [|k IH]; intros Hk Hj; [lia|]. rewrite put_addrs_S.
  pose proof (put_addrs_ok a o b k Hb Ho Ho' ltac:(lia)) as Hl. unfold blk_ok in Hl.
  destruct (decide (j = k)) as [->|Hne].
  - apply get32_put32; lia.
  - rewrite get32_put32_other by lia. apply IH; lia.
Qed.

Lemma put_addrs_other (get : block -> Z -> Z) (w : Z) a o b k x :
  (forall b off l x, 0 <= off -> off + Z.of_nat (length l) <= Z.of_nat (length b) -> 0 <= x ->
     x + w <= off \/ off + Z.of_nat (length l) <= x -> get (splice b off l) x = get b x) ->
  blk_ok b -> 0 <= o -> o + 64 <= 512 -> (k <= 13)%nat -> 0 <= x -> x + w <= o + 12 \/ o + 64 <= x ->
  get (put_addrs a o b k) x = get b x.
Proof.
  intros Hget Hb Ho Ho'. induction k as [|k IH]; intros Hk Hx Hd; [done|]. rewrite put_addrs_S.
  pose proof (put_addrs_ok a o b k Hb Ho Ho' ltac:(lia)) as Hl. unfold blk_ok in Hl.
  unfold put32. rewrite Hget; [apply IH; lia | lia | cbn; lia | lia | cbn; lia].
Qed.

Lemma encode_addrs x o b : encode_dinode x o b =
  put_addrs (i_addrs x) o
    (put32 (put16 (put16 (put16 (put16 b o (i_type x)) (o + 2) (i_major x)) (o + 4) (i_minor x))
       (o + 6) (i_nlink x)) (o + 8) (i_size x)) 13.
Proof. done. Qed.

(** The stores before the addresses, and what they keep. *)
Ltac blk :=
  repeat first [ assumption | lia | apply put16_ok | apply put32_ok ].

Lemma u16_s16 z : s16 (u16 z) = s16 z.
Proof. unfold s16, u16. by rewrite Zplus_mod_idemp_l. Qed.

Lemma s16_small z : - 2 ^ 15 <= z < 2 ^ 15 -> s16 z = z.
Proof. intros H. unfold s16. rewrite Z.mod_small; lia. Qed.

Lemma dino_bounds i : 0 <= dino i /\ dino i + 64 <= 512.
Proof. unfold dino, IPB. change (BSIZE / 64) with 8. zlia. Qed.

(** Two inodes of a block do not overlap. *)
Lemma dino_disjoint i j : dino i <> dino j -> dino i + 64 <= dino j \/ dino j + 64 <= dino i.
Proof. unfold dino. generalize (i mod IPB), (j mod IPB). lia. Qed.

Section Codec.
Context (x : inode) (o : Z) (b : block).
Hypothesis (Hb : blk_ok b) (Ho : 0 <= o) (Ho' : o + 64 <= 512).

Lemma encode_ok : blk_ok (encode_dinode x o b).
Proof. rewrite encode_addrs. apply put_addrs_ok; blk. Qed.

(** Reading a 16-bit field at offset [f] of the dinode. *)
Lemma encode_get16 f v0 :
  (f, v0) ∈ [(0, i_type x); (2, i_major x); (4, i_minor x); (6, i_nlink x)] ->
  get16 (encode_dinode x o b) (o + f) = u16 v0.
Proof.
  intros Hf. rewrite encode_addrs.
  assert (Hr : 0 <= f <= 6).
  { rewrite !elem_of_cons in Hf. destruct Hf as [[= -> _]|[[= -> _]|[[= -> _]|[[= -> _]|Hf]]]]; try lia.
    by apply not_elem_of_nil in Hf. }
  rewrite (put_addrs_other get16 2) by (first [exact get16_splice_other | blk]).
  set (b1 := put16 b o (i_type x)). assert (H1 : blk_ok b1) by blk.
  set (b2 := put16 b1 (o + 2) (i_major x)). assert (H2 : blk_ok b2) by blk.
  set (b3 := put16 b2 (o + 4) (i_minor x)). assert (H3 : blk_ok b3) by blk.
  set (b4 := put16 b3 (o + 6) (i_nlink x)). assert (H4 : blk_ok b4) by blk.
  unfold blk_ok in *. unfold put32. rewrite get16_splice_other by (cbn; lia).
  rewrite !elem_of_cons in Hf. destruct Hf as [[= -> ->]|[[= -> ->]|[[= -> ->]|[[= -> ->]|Hf]]]].
  - unfold b4, put16. rewrite get16_splice_other by (cbn; lia).
    unfold b3, put16. rewrite get16_splice_other by (cbn; lia).
    unfold b2, put16. rewrite get16_splice_other by (cbn; lia).
    rewrite Z.add_0_r. apply get16_put16; lia.
  - unfold b4, put16. rewrite get16_splice_other by (cbn; lia).
    unfold b3, put16. rewrite get16_splice_other by (cbn; lia). apply get16_put16; lia.
  - unfold b4, put16. rewrite get16_splice_other by (cbn; lia). apply get16_put16; lia.
  - apply get16_put16; lia.
  - by apply not_elem_of_nil in Hf.
Qed.

Lemma encode_get_size : get32 (encode_dinode x o b) (o + 8) = u32 (i_size x).
Proof.
  rewrite encode_addrs. rewrite (put_addrs_other get32 4) by (first [exact get32_splice_other | blk]).
  set (b4 := put16 _ _ _). assert (H4 : blk_ok b4) by blk. unfold blk_ok in *. apply get32_put32; lia.
Qed.

(** Bytes outside the dinode are kept. *)
Lemma encode_other (get : block -> Z -> Z) (w : Z) y :
  0 <= w ->
  (forall b off l x, 0 <= off -> off + Z.of_nat (length l) <= Z.of_nat (length b) -> 0 <= x ->
     x + w <= off \/ off + Z.of_nat (length l) <= x -> get (splice b off l) x = get b x) ->
  0 <= y -> y + w <= o \/ o + 64 <= y -> get (encode_dinode x o b) y = get b y.
Proof.
  intros Hw Hget Hy Hd. rewrite encode_addrs.
  rewrite (put_addrs_other get w) by (first [exact Hget | blk]).
  set (b1 := put16 b o (i_type x)). assert (H1 : blk_ok b1) by blk.
  set (b2 := put16 b1 (o + 2) (i_major x)). assert (H2 : blk_ok b2) by blk.
  set (b3 := put16 b2 (o + 4) (i_minor x)). assert (H3 : blk_ok b3) by blk.
  set (b4 := put16 b3 (o + 6) (i_nlink x)). assert (H4 : blk_ok b4) by blk.
  unfold blk_ok in *. unfold put32. rewrite Hget by (cbn; lia).
  unfold b4, put16. rewrite Hget by (cbn; lia). unfold b3, put16. rewrite Hget by (cbn; lia).
  unfold b2, put16. rewrite Hget by (cbn; lia). unfold b1, put16. by rewrite Hget by (cbn; lia).
Qed.

Lemma encode_addrs_get : length (i_addrs x) = 13%nat -> Forall (fun a => 0 <= a < 2 ^ 32) (i_addrs x) ->
  d_addrs (encode_dinode x o b) o = i_addrs x.
Proof.
  intros Hl Ha. unfold d_addrs. apply list_eq. intros k. rewrite list_lookup_fmap.
  destruct (decide (k < 13)%nat) as [Hk|Hk].
  - rewrite lookup_seq_lt by done. cbn [fmap option_fmap option_map]. rewrite encode_addrs.
    rewrite put_addrs_get by blk. destruct (lookup_lt_is_Some_2 (i_addrs x) k) as [a Hak]; [lia|].
    rewrite nth_lookup_default, Nat.add_0_l, !Hak. cbn. f_equal. apply u32_small.
    by apply (Forall_lookup_1 _ _ _ _ Ha Hak).
  - rewrite lookup_ge_None_2, (lookup_ge_None_2 (i_addrs x)) by (rewrite ?length_seq; lia). done.
Qed.
End Codec.

(** The fields of an inode fit in the on-disk fields. *)
Definition ino_fits (x : inode) : Prop :=
  (- 2 ^ 15 <= i_type x < 2 ^ 15) /\ (- 2 ^ 15 <= i_major x < 2 ^ 15) /\
  (- 2 ^ 15 <= i_minor x < 2 ^ 15) /\ (- 2 ^ 15 <= i_nlink x < 2 ^ 15) /\
  0 <= i_size x < 2 ^ 32 /\ length (i_addrs x) = 13%nat /\ Forall (fun a => 0 <= a < 2 ^ 32) (i_addrs x).

(** The on-disk inode.  What [iupdate] stores for inode [i] is what
    [ilock] reads back, field by field, and the other inodes of the block are
    read as before. *)
Lemma dinode_roundtrip x y b i j :
  length b = 512%nat -> ino_fits x ->
  decode_dinode (encode_dinode x (dino i) b) (dino i) y =
    iset_meta (i_type x) (i_major x) (i_minor x) (i_nlink x) (i_size x) (i_addrs x) y /\
  (dino j <> dino i ->
   decode_dinode (encode_dinode x (dino i) b) (dino j) y = decode_dinode b (dino j) y).
Proof.
  intros Hb (H1 & H2 & H3 & H4 & H5 & H6 & H7). destruct (dino_bounds i) as [Ho Ho'].
  split.
  - unfold decode_dinode. rewrite encode_addrs_get, encode_get_size by done.
    rewrite <-(Z.add_0_r (dino i)) at 2.
    rewrite (encode_get16 x (dino i) b Hb Ho Ho' 0 (i_type x)) by (repeat constructor).
    rewrite (encode_get16 x (dino i) b Hb Ho Ho' 2 (i_major x)) by (repeat constructor).
    rewrite (encode_get16 x (dino i) b Hb Ho Ho' 4 (i_minor x)) by (repeat constructor).
    rewrite (encode_get16 x (dino i) b Hb Ho Ho' 6 (i_nlink x)) by (repeat constructor).
    by rewrite !u16_s16, !s16_small, u32_small by done.
  - intros Hne. destruct (dino_bounds j) as [Hj Hj']. pose proof (dino_disjoint _ _ Hne) as Hd.
    unfold decode_dinode, d_addrs.
    rewrite !(encode_other x (dino i) b Hb Ho Ho' get16 2) by (first [exact get16_splice_other | lia]).
    rewrite (encode_other x (dino i) b Hb Ho Ho' get32 4) by (first [exact get32_splice_other | lia]).
    f_equal. apply map_ext_in. intros k Hk. apply in_seq in Hk.
    apply (encode_other x (dino i) b Hb Ho Ho' get32 4); [lia | exact get32_splice_other | lia | lia].
Qed.

(** ** The inode cache *)

(** Entries in use describe different inodes. *)
Definition icache_ok (t : list inode) : Prop :=
  (forall i x, t !! i = Some x -> 0 <= i_ref x) /\
  (forall i j x y, t !! i = Some x -> t !! j = Some y -> 0 < i_ref x -> 0 < i_ref y ->
     i_dev x = i_dev y -> i_inum x = i_inum y -> i = j).

(** The references to inode [(dev, inum)]. *)
Definition refs (dev inum : Z) (t : list inode) : Z :=
  Zsum (map (fun x => if icached dev inum x then i_ref x else 0) t).

Lemma Zsum_map_insert (f : inode -> Z) t i x y :
  t !! i = Some x -> Zsum (map f (<[i := y]> t)) = Zsum (map f t) - f x + f y.
Proof.
  intros Hi. change (map f) with (fmap (M := list) f). rewrite list_fmap_insert.
  apply Zsum_insert. by rewrite list_lookup_fmap, Hi.
Qed.

Lemma alter_Some (f : inode -> inode) (t : list inode) i x : t !! i = Some x -> alter f i t = <[i := f x]> t.
Proof.
  intros Hx. apply list_eq. intros j. destruct (decide (i = j)) as [->|Hne].
  - rewrite list_lookup_alter_eq, Hx, list_lookup_insert_eq by (by eapply lookup_lt_Some). done.
  - by rewrite list_lookup_alter_ne, list_lookup_insert_ne.
Qed.

(** Replacing an entry keeps the invariant when the new one describes no
    inode that another entry describes. *)
Lemma icache_ok_insert t i y :
  icache_ok t -> 0 <= i_ref y ->
  (forall j z, t !! j = Some z -> j <> i -> 0 < i_ref z -> 0 < i_ref y ->
     i_dev z = i_dev y -> i_inum z = i_inum y -> False) ->
  icache_ok (<[i := y]> t).
Proof.
  intros [Hr Hu] Hy Hfresh. split.
  - intros j z Hj. apply list_lookup_insert_Some in Hj as [(-> & -> & _)|[_ Hj]]; eauto.
  - intros j k a b Hj Hk Ha Hb Hd Hn.
    apply list_lookup_insert_Some in Hj as [(-> & -> & _)|[Hij Hj]],
      Hk as [(-> & -> & _)|[Hik Hk]]; try done.
    + exfalso. by apply (Hfresh k b).
    + exfalso. by apply (Hfresh j a).
    + by apply (Hu j k a b).
Qed.

Lemma icached_spec dev inum x : icached dev inum x = true <-> 0 < i_ref x /\ i_dev x = dev /\ i_inum x = inum.
Proof. unfold icached. rewrite !andb_true_iff, Z.ltb_lt, !Z.eqb_eq. tauto. Qed.

Lemma icached_other dev inum x : ~ (0 < i_ref x /\ i_dev x = dev /\ i_inum x = inum) -> icached dev inum x = false.
Proof. rewrite <-icached_spec. apply not_true_is_false. Qed.

(** The entry [ip] takes one more reference to the inode [(dev, inum)]. *)
Lemma icache_add_ref t ip x y dev inum :
  icache_ok t -> t !! ip = Some x -> icached dev inum y = true ->
  i_ref y = (if icached dev inum x then i_ref x else 0) + 1 ->
  (icached dev inum x = true \/ i_ref x = 0) ->
  (forall j z, t !! j = Some z -> icached dev inum z = true -> ip = j) ->
  icache_ok (<[ip := y]> t) /\ <[ip := y]> t !! ip = Some y /\
  refs dev inum (<[ip := y]> t) = refs dev inum t + 1 /\
  (forall dev' inum', (dev', inum') <> (dev, inum) -> refs dev' inum' (<[ip := y]> t) = refs dev' inum' t) /\
  (forall j, j <> ip -> <[ip := y]> t !! j = t !! j).
Proof.
  intros Hok Hx Hy Hr Hc Hu. pose proof Hy as (Hy0 & Hyd & Hyn)%icached_spec. split_and!.
  - apply icache_ok_insert; [done | lia |]. intros j z Hj Hne Hz _ Hdz Hnz. apply Hne. symmetry. apply (Hu j z Hj).
    apply icached_spec. split; [done | split; congruence].
  - apply list_lookup_insert_eq. by eapply lookup_lt_Some.
  - unfold refs. rewrite (Zsum_map_insert _ _ _ x _ Hx), Hy. lia.
  - intros dev' inum' Hne. unfold refs. rewrite (Zsum_map_insert _ _ _ x _ Hx).
    rewrite (icached_other dev' inum' y) by (intros (_ & E1 & E2); apply Hne; congruence).
    rewrite icached_other; [lia|]. intros (H1 & H2 & H3).
    destruct Hc as [(_ & E1 & E2)%icached_spec|Hc]; [apply Hne; congruence | lia].
  - intros j Hne. by rewrite list_lookup_insert_ne.
Qed.

Section ICache.
Context {C : Type} {ops : BufOps C}.

(** C14: the inode cache has at most one entry per inode.  In a cache with that
    property [iget] returns an entry of the inode asked for, which had been
    there if the inode was cached; it adds exactly one reference to that inode
    and none to others, and keeps the property.  It panics only when the inode
    is not cached and every entry is in use. *)
Theorem iget_unique_entry (s : fs C) dev inum :
  icache_ok (icache s) ->
  (exists ip s' x, iget dev inum s = Ok (ip, s') /\ icache_ok (icache s') /\
     icache s' !! ip = Some x /\ i_dev x = dev /\ i_inum x = inum /\ 0 < i_ref x /\
     refs dev inum (icache s') = refs dev inum (icache s) + 1 /\
     (forall dev' inum', (dev', inum') <> (dev, inum) -> refs dev' inum' (icache s') = refs dev' inum' (icache s)) /\
     (forall j y, icache s !! j = Some y -> icached dev inum y = true -> ip = j) /\
     (forall j, j <> ip -> icache s' !! j = icache s !! j)) \/
  (iget dev inum s = Panic "iget: no inodes" /\
   forall j y, icache s !! j = Some y -> icached dev inum y = false /\ i_ref y <> 0).
Proof.
  intros Hok. pose proof Hok as [Hr Hu]. unfold iget.
  destruct (find_idx (icached dev inum) (icache s)) as [ip|] eqn:E1.
  - left. apply find_idx_Some in E1 as [(x & Hx & Hc) _]. pose proof Hc as (Hrx & Hd & Hn)%icached_spec.
    rewrite (alter_Some _ _ _ x Hx). set (y := iset_ref (i_ref x + 1) x).
    assert (Hone : forall j z, icache s !! j = Some z -> icached dev inum z = true -> ip = j).
    { intros j z Hj (Hrz & Hdz & Hnz)%icached_spec. apply (Hu ip j x z); congruence. }
    destruct (icache_add_ref (icache s) ip x y dev inum) as (K1 & K2 & K3 & K4 & K5); try done; [| by rewrite Hc | by left |].
    { apply icached_spec. cbn. split; [lia | done]. }
    exists ip, (fset_icache (<[ip := y]> (icache s)) s), y. cbn [icache fset_icache]. split_and!; try done. cbn. lia.
  - rewrite find_idx_None in E1.
    destruct (find_idx (fun x => i_ref x =? 0) (icache s)) as [ip|] eqn:E2.
    + left. apply find_idx_Some in E2 as [(x & Hx & Hz) _]. apply Z.eqb_eq in Hz.
      rewrite (alter_Some _ _ _ x Hx). set (y := iset_id dev inum x).
      assert (Hone : forall j z, icache s !! j = Some z -> icached dev inum z = true -> ip = j).
      { intros j z Hj Hc. rewrite E1 in Hc; [done|]. by eapply list_elem_of_lookup_2. }
      destruct (icache_add_ref (icache s) ip x y dev inum) as (K1 & K2 & K3 & K4 & K5); try done; [| | by right |].
      { by apply icached_spec. }
      { rewrite icached_other; [done | lia]. }
      exists ip, (fset_icache (<[ip := y]> (icache s)) s), y. cbn [icache fset_icache]. by split_and!.
    + right. split; [done|]. rewrite find_idx_None in E2. intros j y Hj.
      apply list_elem_of_lookup_2 in Hj. split; [by apply E1|]. apply Z.eqb_neq. by apply E2.
Qed.
End ICache.

Lemma iget_unique_entry_witness :
  let s := mkFs tt log0 (mkSb 0 0 0 0 0 0 0) (replicate NINODE inode0) 0 in
  exists ip s' x, iget 1 5 s = Ok (ip, s') /\ icache s' !! ip = Some x /\ i_inum x = 5.
Proof.
  intros s. destruct (iget_unique_entry s 1 5) as [(ip & s' & x & E & _ & Hx & _ & Hn & _)|[_ Hall]].
  - split.
    + intros i x Hi. apply lookup_replicate_1 in Hi as [-> _]. cbn. lia.
    + intros i j x y Hi _ Hx. apply lookup_replicate_1 in Hi as [-> _]. cbn in Hx. lia.
  - exists ip, s', x. split; [exact E|]. split; [exact Hx | exact Hn].
  - exfalso. destruct (Hall 0%nat inode0 eq_refl) as [_ H]. by apply H.
Defined.

(** ** Path names *)

(** The elements of a path: the maximal runs of bytes other than ['/']. *)
Fixpoint elements_aux (path cur : list Z) : list (list Z) :=
  match path with
  | [] => match cur with [] => [] | _ => [cur] end
  | c :: path' =>
      if c =? slash then match cur with [] => elements_aux path' [] | _ => cur :: elements_aux path' [] end
      else elements_aux path' (cur ++ [c])
  end.
Definition elements (path : list Z) : list (list Z) := elements_aux path [].

(** The name a field of [DIRSIZ] bytes holds: up to the first NUL. *)
Fixpoint until_nul (l : list Z) : list Z :=
  match l with
  | [] => []
  | c :: l' => if c =? 0 then [] else c :: until_nul l'
  end.
Definition field_of (name : list Z) : list Z := take (Z.to_nat DIRSIZ) (until_nul name).

Lemma until_nul_app l q : Forall (fun c => c <> 0) l -> until_nul (l ++ 0 :: q) = l.
Proof. induction 1 as [|a l Ha _ IH]; [done|]. cbn. rewrite (proj2 (Z.eqb_neq _ _)) by done. by rewrite IH. Qed.

Lemma until_nul_all l : Forall (fun c => c <> 0) l -> until_nul l = l.
Proof. induction 1 as [|a l Ha _ IH]; [done|]. cbn. rewrite (proj2 (Z.eqb_neq _ _)) by done. by rewrite IH. Qed.

Lemma elements_skip path : elements (skip_slashes path) = elements path.
Proof.
  unfold elements. induction path as [|c path IH]; [done|]. cbn.
  destruct (c =? slash) eqn:E; [done|]. cbn. by rewrite E.
Qed.

Lemma skip_slashes_head path c r : skip_slashes path = c :: r -> c <> slash.
Proof.
  induction path as [|x path IH]; [done|]. cbn. destruct (Z.eqb_spec x slash); [done|].
  intros [= <- _]. done.
Qed.

Lemma skip_slashes_length path : (length (skip_slashes path) <= length path)%nat.
Proof. induction path as [|x path IH]; [done|]. cbn. case_match; cbn; lia. Qed.

Lemma scan_elem_spec path e r :
  scan_elem path = (e, r) -> path = e ++ r /\ Forall (fun c => c <> slash) e /\
  (r = [] \/ exists r', r = slash :: r').
Proof.
  revert e r. induction path as [|c path IH]; intros e r; cbn.
  - intros [= <- <-]. split_and!; auto.
  - destruct (Z.eqb_spec c slash) as [->|Hc].
    + intros [= <- <-]. split_and!; eauto.
    + destruct (scan_elem path) as [e' r']. intros [= <- <-].
      destruct (IH e' r' eq_refl) as (-> & Hf & Hr). split_and!; [done | by constructor | done].
Qed.

Lemma elements_aux_run e path cur :
  Forall (fun c => c <> slash) e -> elements_aux (e ++ path) cur = elements_aux path (cur ++ e).
Proof.
  revert cur. induction e as [|c e IH]; intros cur He; [by rewrite app_nil_r|].
  apply Forall_cons in He as [Hc He]. cbn. rewrite (proj2 (Z.eqb_neq _ _)) by done.
  by rewrite IH, <-app_assoc by done.
Qed.

Lemma elements_cons e r : e <> [] -> Forall (fun c => c <> slash) e ->
  (r = [] \/ exists r', r = slash :: r') -> elements (e ++ r) = e :: elements r.
Proof.
  intros He Hf Hr. unfold elements. rewrite elements_aux_run by done. cbn [app].
  destruct e as [|c e]; [done|]. destruct Hr as [->|[r' ->]]; [done|]. cbn. done.
Qed.

(** Path elements.  [skipelem] returns NULL exactly when the path has no
    element left; otherwise it removes the first element and the slashes
    around it, so that the remaining path has the remaining elements and no
    leading slash and is strictly shorter (which is why the loop of [namex]
    ends), and leaves the element in the name field: its first 14 bytes, NUL
    terminated if it is shorter. *)
Lemma skipelem_correct path name :
  Forall (fun c => c <> 0) path -> length name = Z.to_nat DIRSIZ ->
  match skipelem path name with
  | None => elements path = []
  | Some (path', name') =>
      exists e, elements path = e :: elements path' /\ e <> [] /\
        length name' = Z.to_nat DIRSIZ /\ field_of name' = take (Z.to_nat DIRSIZ) e /\
        (length path' < length path)%nat /\ (forall c r, path' = c :: r -> c <> slash)
  end.
Proof.
  intros Hnz Hname. unfold skipelem. rewrite <-elements_skip.
  pose proof (skip_slashes_length path) as Hl. pose proof (skip_slashes_head path) as Hh.
  assert (Hnz' : Forall (fun c => c <> 0) (skip_slashes path)).
  { clear -Hnz. induction Hnz as [|c path Hc Hp IH]; [constructor|]. cbn. case_match; [done | by constructor]. }
  destruct (skip_slashes path) as [|c p] eqn:Ep; [done|].
  destruct (scan_elem (c :: p)) as [e r] eqn:Es. apply scan_elem_spec in Es as (Ecp & Hf & Hr).
  assert (He : e <> []).
  { intros ->. cbn in Ecp. destruct Hr as [->|[r' ->]]; [done|]. specialize (Hh c p eq_refl). by simplify_eq. }
  rewrite Ecp. exists e. rewrite elements_skip. rewrite Ecp in Hnz', Hl. apply Forall_app in Hnz' as [Hez _].
  rewrite length_app in Hl. destruct e as [|e0 e]; [done|].
  split_and!.
  - by apply elements_cons.
  - done.
  - destruct (Z.leb_spec DIRSIZ (Z.of_nat (length (e0 :: e)))) as [Hd|Hd].
    + rewrite splice_length; [done | lia |]. rewrite length_take. lia.
    + rewrite splice_length; [done | lia |]. rewrite length_app, Hname. cbn [length] in *. unfold DIRSIZ in *. lia.
  - unfold field_of. destruct (Z.leb_spec DIRSIZ (Z.of_nat (length (e0 :: e)))) as [Hd|Hd].
    + assert (Hlt : length (take (Z.to_nat DIRSIZ) (e0 :: e)) = Z.to_nat DIRSIZ).
      { rewrite length_take. lia. }
      unfold splice. change (Z.to_nat 0) with 0%nat. rewrite take_0, Hlt, drop_ge by lia. rewrite app_nil_r.
      cbn [app]. rewrite until_nul_all; [|by apply Forall_take]. by rewrite take_take, Nat.min_id.
    + unfold splice. change (Z.to_nat 0) with 0%nat. rewrite take_0. cbn [app].
      set (q := drop _ name). replace (e0 :: (e ++ [0]) ++ q) with ((e0 :: e) ++ 0 :: q).
      * by rewrite until_nul_app.
      * cbn. by rewrite <-app_assoc.
  - pose proof (skip_slashes_length r). cbn [length] in *. lia.
  - intros c' r' Hc'. by apply skip_slashes_head in Hc'.
Qed.

