(* ===== verification/Kalloc.v ===== *)
(** The physical page allocator, [xv6/base/kalloc.c].

    The free list is linked through the free pages themselves, so the state is
    the kernel's memory and the head of the list.  The kernel's end address is
    a parameter (a symbol of the linker script).  The theorems relate the
    linked list to an abstract list of free pages. *)

From S2P Require Import Prelude CString.

Definition PGSIZE : Z := 4096.
Definition KERNBASE : Z := 0x80000000.
Definition PHYSTOP : Z := 0xE000000.
Definition V2P (a : Z) : Z := u32 (a - KERNBASE).
Definition P2V (a : Z) : Z := u32 (a + KERNBASE).
Definition PGROUNDUP (sz : Z) : Z := Z.land (u32 (sz + PGSIZE - 1)) (u32 (Z.lnot (PGSIZE - 1))).
Definition PGROUNDDOWN (a : Z) : Z := Z.land a (u32 (Z.lnot (PGSIZE - 1))).

Record kmem := mkKmem {
  use_lock : bool;
  freelist : Z;     (* 0 is NULL *)
  k_mem : mem
}.

(** The word at [a] of memory. *)
Definition load32 (m : mem) (a : Z) : Z :=
  m a + 2 ^ 8 * m (a + 1) + 2 ^ 16 * m (a + 2) + 2 ^ 24 * m (a + 3).

Section Kalloc.
Context (kend : Z).

Definition kfree (v : Z) (k : kmem) : result kmem :=
  if negb (v mod PGSIZE =? 0) || (v <? kend) || (PHYSTOP <=? V2P v) then Panic "kfree"
  else
    let m := memset (k_mem k) v 1 PGSIZE in
    (* r->next = kmem.freelist *)
    let m := store32 m v (freelist k) in
    Ok (mkKmem (use_lock k) v m).

Definition kalloc (k : kmem) : Z * kmem :=
  let r := freelist k in
  if r =? 0 then (r, k)
  else (r, mkKmem (use_lock k) (load32 (k_mem k) r) (k_mem k)).

Fixpoint freerange_loop (fuel : nat) (p vend : Z) (k : kmem) : result kmem :=
  match fuel with
  | O => Ok k
  | S f =>
      if p + PGSIZE <=? vend then
        k1 ← kfree p k; freerange_loop f (p + PGSIZE) vend k1
      else Ok k
  end.

Definition freerange (vstart vend : Z) (k : kmem) : result kmem :=
  freerange_loop (Z.to_nat ((vend - PGROUNDUP vstart) / PGSIZE + 1)) (PGROUNDUP vstart) vend k.

Definition kinit1 (vstart vend : Z) (k : kmem) : result kmem :=
  freerange vstart vend (mkKmem false (freelist k) (k_mem k)).

Definition kinit2 (vstart vend : Z) (k : kmem) : result kmem :=
  k1 ← freerange vstart vend k; Ok (mkKmem true (freelist k1) (k_mem k1)).

(** ** The abstract free list *)

(** A page the allocator accepts. *)
Definition page_ok (v : Z) : Prop :=
  v mod PGSIZE = 0 /\ kend <= v /\ V2P v < PHYSTOP /\ 0 < v /\ v + PGSIZE <= 2 ^ 32.

(** The pages [l] are linked from [p]. *)
Fixpoint linked (m : mem) (p : Z) (l : list Z) : Prop :=
  match l with
  | [] => p = 0
  | v :: l' => p = v /\ linked m (load32 m v) l'
  end.

Record free_pages (k : kmem) (l : list Z) : Prop := {
  fp_linked : linked (k_mem k) (freelist k) l;
  fp_pages : Forall page_ok l;
  fp_nodup : NoDup l;
  fp_bytes : mem_ok (k_mem k)
}.

(** ** Lemmas *)

Lemma load32_ext m m' a : (forall x, a <= x < a + 4 -> m' x = m x) -> load32 m' a = load32 m a.
Proof. intros H. unfold load32. rewrite !H by lia. done. Qed.

Lemma linked_ext m m' p l :
  (forall v, v ∈ l -> load32 m' v = load32 m v) -> linked m p l -> linked m' p l.
Proof.
  revert p. induction l as [|v l IH]; intros p H; [done|]. cbn. intros [-> Hl].
  split; [done|]. rewrite H by apply list_elem_of_here. apply IH; [|done].
  intros w Hw. apply H. by apply list_elem_of_further.
Qed.

Lemma store32_out m a w x : x < a \/ a + 4 <= x -> store32 m a w x = m x.
Proof. intros Hx. unfold store32. mset_simp. done. Qed.

Lemma load32_store32 m a w : 0 <= w < 2 ^ 32 -> load32 (store32 m a w) a = w.
Proof.
  intros Hw. unfold load32, store32. mset_simp. unfold u8. rewrite !Z.shiftr_div_pow2 by lia. zlia.
Qed.

(** Two pages are equal or do not overlap. *)
Lemma pages_apart v w : page_ok v -> page_ok w -> v <> w -> v + PGSIZE <= w \/ w + PGSIZE <= v.
Proof. intros [Hv _] [Hw _] Hne. unfold PGSIZE in *. zlia. Qed.

(** A store outside the free pages leaves the free list alone. *)
Lemma free_pages_store k l m' :
  free_pages k l -> mem_ok m' ->
  (forall v x, v ∈ l -> v <= x < v + PGSIZE -> m' x = k_mem k x) ->
  free_pages (mkKmem (use_lock k) (freelist k) m') l.
Proof.
  intros [Hl Hp Hn Hb] Hm Hx. constructor; cbn; [|done..].
  eapply linked_ext; [|exact Hl]. intros v Hv. apply load32_ext. intros x Hvx. apply (Hx v); [done|].
  unfold PGSIZE. lia.
Qed.

Lemma kfree_ok k l v :
  free_pages k l -> page_ok v -> v ∉ l ->
  exists k', kfree v k = Ok k' /\ free_pages k' (v :: l) /\ use_lock k' = use_lock k /\
    (forall x, ~ (v <= x < v + PGSIZE) -> k_mem k' x = k_mem k x) /\
    (forall x, v + 4 <= x < v + PGSIZE -> k_mem k' x = 1).
Proof.
  intros [Hl Hp Hn Hb] Hv Hni. pose proof Hv as (Hv1 & Hv2 & Hv3 & Hv4 & Hv5). unfold kfree.
  rewrite (proj2 (Z.eqb_eq _ _) Hv1), (proj2 (Z.ltb_ge _ _) Hv2), (proj2 (Z.leb_gt _ _) Hv3). cbn [negb orb].
  assert (Hout : forall x, ~ (v <= x < v + PGSIZE) ->
    store32 (memset (k_mem k) v 1 PGSIZE) v (freelist k) x = k_mem k x).
  { intros x Hx. unfold PGSIZE in *. rewrite store32_out, memset_at by lia. case_within; done || lia. }
  assert (Hin : forall x, v + 4 <= x < v + PGSIZE ->
    store32 (memset (k_mem k) v 1 PGSIZE) v (freelist k) x = 1).
  { intros x Hx. unfold PGSIZE in *. rewrite store32_out, memset_at by lia. case_within; done || lia. }
  eexists. split; [done|]. split; [|done]. constructor; cbn [k_mem freelist].
  - cbn. split; [done|]. rewrite load32_store32.
    + eapply linked_ext; [|exact Hl]. intros w Hw. apply load32_ext. intros x Hx. apply Hout.
      rewrite Forall_forall in Hp. destruct (pages_apart v w Hv (Hp w Hw)); [by intros -> | |]; unfold PGSIZE in *; lia.
    + destruct l as [|w l]; cbn in Hl; [lia|]. destruct Hl as [-> _].
      apply Forall_cons in Hp as [Hw _]. destruct Hw as (_ & _ & _ & ? & ?). unfold PGSIZE in *. lia.
  - by constructor.
  - by apply list.NoDup_cons.
  - intros x. unfold store32, mset.
    repeat case_match; try apply u8_range. rewrite memset_at. case_match; [apply u8_range | apply Hb].
Qed.

Lemma kalloc_ok k l :
  free_pages k l ->
  match l with
  | [] => kalloc k = (0, k)
  | v :: l' => exists k', kalloc k = (v, k') /\ free_pages k' l' /\ k_mem k' = k_mem k /\ use_lock k' = use_lock k
  end.
Proof.
  intros [Hl Hp Hn Hb]. unfold kalloc. destruct l as [|v l]; cbn in Hl.
  - by rewrite Hl.
  - destruct Hl as [-> Hl]. apply Forall_cons in Hp as [Hv Hp]. apply list.NoDup_cons in Hn as [_ Hn].
    rewrite (proj2 (Z.eqb_neq v 0)) by (destruct Hv as (_ & _ & _ & ? & _); lia).
    eexists. split_and!; [done | by constructor | done | done].
Qed.

(** The whole pages of [p .. vend), [p] page aligned. *)
Definition pages_of (p vend : Z) : list Z :=
  map (fun i => p + i * PGSIZE) (seqZ 0 ((vend - p) / PGSIZE)).

Lemma pages_of_cons p vend : p + PGSIZE <= vend -> pages_of p vend = p :: pages_of (p + PGSIZE) vend.
Proof.
  intros H. unfold pages_of, PGSIZE in *.
  replace ((vend - (p + 4096)) / 4096) with (Z.pred ((vend - p) / 4096)) by zlia.
  rewrite seqZ_cons by zlia. cbn [map]. f_equal; [lia|].
  change (Z.succ 0) with (1 + 0). rewrite <-(fmap_add_seqZ 1 0). change (fmap (M := list)) with (@map Z Z). rewrite map_map.
  apply map_ext. intros i. lia.
Qed.

Lemma pages_of_nil p vend : vend < p + PGSIZE -> pages_of p vend = [].
Proof. intros H. unfold pages_of, PGSIZE in *. by rewrite seqZ_nil by zlia. Qed.

Lemma freerange_loop_ok fuel k l p vend :
  free_pages k l -> (vend - p) / PGSIZE < Z.of_nat fuel -> Forall page_ok (pages_of p vend) ->
  (forall v, v ∈ pages_of p vend -> v ∉ l) ->
  exists k', freerange_loop fuel p vend k = Ok k' /\ free_pages k' (reverse (pages_of p vend) ++ l) /\
    use_lock k' = use_lock k /\
    (forall x, x < p \/ vend <= x -> k_mem k' x = k_mem k x).
Proof.
  revert k l p. induction fuel as [|f IH]; intros k l p Hk Hf Hp Hd.
  - exists k. rewrite pages_of_nil by (unfold PGSIZE in *; zlia). done.
  - cbn [freerange_loop]. destruct (Z.leb_spec (p + PGSIZE) vend) as [Hle|Hgt].
    2:{ exists k. by rewrite pages_of_nil by done. }
    rewrite pages_of_cons in Hp, Hd |- * by done. apply Forall_cons in Hp as [Hpp Hp].
    destruct (kfree_ok k l p Hk Hpp (Hd p ltac:(apply list_elem_of_here))) as (k1 & E1 & F1 & U1 & O1 & _).
    rewrite E1. cbn [mbind result_bind].
    destruct (IH k1 (p :: l) (p + PGSIZE)) as (k2 & E2 & F2 & U2 & O2); [done | unfold PGSIZE in *; zlia | done | |].
    { intros v Hv Hin. apply elem_of_cons in Hin as [->|Hin].
      - unfold pages_of in Hv. apply list_elem_of_fmap in Hv as (i & Hi & Hv). apply elem_of_seqZ in Hv. unfold PGSIZE in *. lia.
      - apply (Hd v); [by apply list_elem_of_further | done]. }
    exists k2. rewrite reverse_cons, <-app_assoc. split_and!; [done | done | congruence |].
    intros x Hx. rewrite O2, O1; [done | unfold PGSIZE in *; lia | unfold PGSIZE in *; lia].
Qed.

(** C32: the page allocator implements a set of free pages.  Freeing a page
    that is not free adds it (and fills it with junk), allocating removes and
    returns a free page, or returns 0 when there is none, without touching any
    memory; the free list survives every store outside the free pages, and an
    address that is not a page of the allocator makes [kfree] panic. *)
Theorem kalloc_free_list k l :
  free_pages k l ->
  (forall v, page_ok v -> v ∉ l ->
     exists k', kfree v k = Ok k' /\ free_pages k' (v :: l) /\
       (forall x, ~ (v <= x < v + PGSIZE) -> k_mem k' x = k_mem k x) /\
       exists k'', kalloc k' = (v, k'') /\ free_pages k'' l) /\
  (forall v, ~ page_ok v -> 0 < v -> v + PGSIZE <= 2 ^ 32 -> kfree v k = Panic "kfree") /\
  (match kalloc k with
   | (r, k') => if r =? 0 then l = [] /\ k' = k
                else r ∈ l /\ page_ok r /\ (exists l', l ≡ₚ r :: l' /\ free_pages k' l') /\ k_mem k' = k_mem k
   end) /\
  (forall m', mem_ok m' -> (forall v x, v ∈ l -> v <= x < v + PGSIZE -> m' x = k_mem k x) ->
     free_pages (mkKmem (use_lock k) (freelist k) m') l).
Proof.
  intros Hk. split_and!.
  - intros v Hv Hni. destruct (kfree_ok k l v Hk Hv Hni) as (k' & E & F & _ & O & _).
    exists k'. split_and!; [done..|]. destruct (kalloc_ok k' (v :: l) F) as (k'' & E2 & F2 & _). eauto.
  - intros v Hv H0 H1. unfold kfree. case_match eqn:E; [done|]. exfalso. apply Hv.
    apply orb_false_elim in E as [E E3]. apply orb_false_elim in E as [E1 E2].
    apply negb_false_iff, Z.eqb_eq in E1. apply Z.ltb_ge in E2. apply Z.leb_gt in E3. by split_and!.
  - pose proof (kalloc_ok k l Hk) as H. destruct l as [|v l].
    + rewrite H. done.
    + destruct H as (k' & -> & F & Hm & _). pose proof (fp_pages _ _ Hk) as Hp. apply Forall_cons in Hp as [Hv _].
      rewrite (proj2 (Z.eqb_neq v 0)) by (destruct Hv as (_ & _ & _ & ? & _); lia).
      split_and!; [apply list_elem_of_here | done | by exists l | done].
  - intros m'. by apply free_pages_store.
Qed.

(** [freerange] puts exactly the whole pages of the range on the free
    list, in one pass that terminates, and changes no byte outside them. *)
Lemma freerange_frees_pages k l vstart vend :
  let p := PGROUNDUP vstart in
  free_pages k l -> Forall page_ok (pages_of p vend) -> (forall v, v ∈ pages_of p vend -> v ∉ l) ->
  exists k', freerange vstart vend k = Ok k' /\ free_pages k' (reverse (pages_of p vend) ++ l) /\
    (forall x, x < p \/ vend <= x -> k_mem k' x = k_mem k x).
Proof.
  intros p Hk Hp Hd. unfold freerange. fold p.
  destruct (freerange_loop_ok (Z.to_nat ((vend - p) / PGSIZE + 1)) k l p vend) as (k' & E & F & _ & O); [done | lia | done | done |].
  eauto.
Qed.
End Kalloc.

(** Three pages from 0x80400000, with the kernel ending just below. *)
Definition kmem0 : kmem := mkKmem false 0 (fun _ => 0).

Lemma kmem0_free kend : free_pages kend kmem0 [].
Proof. constructor; [done | constructor | constructor |]. intros a. unfold is_byte. cbn. lia. Defined.

Lemma kalloc_free_list_witness :
  exists k', kfree 0x803ff123 0x80400000 kmem0 = Ok k' /\ exists k'', kalloc k' = (0x80400000, k'').
Proof.
  destruct (kalloc_free_list 0x803ff123 kmem0 [] (kmem0_free _)) as [H _].
  destruct (H 0x80400000) as (k' & E & _ & _ & k'' & E2 & _).
  - split_and!; try reflexivity; vm_compute; congruence.
  - apply not_elem_of_nil.
  - exists k'. split; [exact E|]. exists k''. exact E2.
Defined.

