(* ===== verification/Pipe.v ===== *)
(** Pipes, [xv6/base/pipe.c]: a ring buffer with 32-bit counters.

    [pipewrite] and [piperead] hold the pipe's lock except while they sleep;
    [pipewrite_run] and [piperead_run] are what they do from one acquisition
    of the lock to the next release: they return, fail, or go to sleep with
    the rest of their work.  A process woken up runs again from there.  The
    pipe is shared, so any sequence of such runs by several writers and
    readers, of [pipeclose] and of kills is an execution.

    The theorem is that the pipe is a FIFO queue of at most 512 bytes, for any
    interleaving and across the wrap-around of the counters. *)

From S2P Require Import Prelude.

Definition PIPESIZE : Z := 512.

Record pipe := mkPipe {
  p_data : list Z;    (* char data[PIPESIZE] *)
  nread : Z;          (* uint *)
  nwrite : Z;         (* uint *)
  readopen : bool;
  writeopen : bool
}.

(** The fields [pipealloc] sets in a page with contents [junk]. *)
Definition pipe_init (junk : list Z) : pipe := mkPipe junk 0 0 true true.

(** The outcome of a run: [Done r] returns [r], [Asleep x] sleeps with the
    work [x] left. *)
Inductive outcome (A : Type) := Done (r : Z) | Asleep (rest : A).
Arguments Done {A} _.
Arguments Asleep {A} _.

Definition p_full (p : pipe) : bool := nwrite p =? u32 (nread p + PIPESIZE).

Definition p_put (c : Z) (p : pipe) : pipe :=
  mkPipe (<[Z.to_nat (nwrite p mod PIPESIZE) := c]> (p_data p)) (nread p) (u32 (nwrite p + 1))
    (readopen p) (writeopen p).

(** [n] is the third argument of [pipewrite], [addr] the bytes not yet stored. *)
Fixpoint pipewrite_run (killed : bool) (n : Z) (addr : list Z) (p : pipe) : outcome (list Z) * pipe :=
  match addr with
  | [] => (Done n, p)
  | c :: addr' =>
      if p_full p then
        if negb (readopen p) || killed then (Done (-1), p) else (Asleep addr, p)
      else pipewrite_run killed n addr' (p_put c p)
  end.

Definition pipewrite (killed : bool) (addr : list Z) (p : pipe) : outcome (list Z) * pipe :=
  pipewrite_run killed (Z.of_nat (length addr)) addr p.

Definition p_get (p : pipe) : Z * pipe :=
  (nth (Z.to_nat (nread p mod PIPESIZE)) (p_data p) 0,
   mkPipe (p_data p) (u32 (nread p + 1)) (nwrite p) (readopen p) (writeopen p)).

(** The copy loop of [piperead]: the bytes copied out. *)
Fixpoint piperead_copy (n : nat) (p : pipe) : list Z * pipe :=
  match n with
  | O => ([], p)
  | S n' =>
      if nread p =? nwrite p then ([], p)
      else let '(c, p1) := p_get p in
           let '(l, p2) := piperead_copy n' p1 in (c :: l, p2)
  end.

(** [piperead(p, addr, n)]: the result and the bytes stored at [addr]. *)
Definition piperead_run (killed : bool) (n : Z) (p : pipe) : outcome unit * list Z * pipe :=
  if (nread p =? nwrite p) && writeopen p then
    if killed then (Done (-1), [], p) else (Asleep tt, [], p)
  else
    let '(l, p') := piperead_copy (Z.to_nat n) p in
    (Done (Z.of_nat (length l)), l, p').

(** [pipeclose] up to the [kfree]: is the page to be freed? *)
Definition pipeclose (writable : bool) (p : pipe) : bool * pipe :=
  let p := if writable then mkPipe (p_data p) (nread p) (nwrite p) (readopen p) false
           else mkPipe (p_data p) (nread p) (nwrite p) false (writeopen p) in
  (negb (readopen p) && negb (writeopen p), p).

(** ** The abstract queue *)

Definition p_count (p : pipe) : Z := u32 (nwrite p - nread p).

(** The bytes in the pipe, oldest first. *)
Definition queue (p : pipe) : list Z :=
  map (fun i => nth (Z.to_nat ((nread p + i) mod PIPESIZE)) (p_data p) 0) (seqZ 0 (p_count p)).

Record pipe_ok (p : pipe) : Prop := {
  po_len : length (p_data p) = Z.to_nat PIPESIZE;
  po_r : 0 <= nread p < 2 ^ 32;
  po_w : 0 <= nwrite p < 2 ^ 32;
  po_count : p_count p <= PIPESIZE
}.

Lemma pipe_init_ok junk : length junk = Z.to_nat PIPESIZE -> pipe_ok (pipe_init junk) /\ queue (pipe_init junk) = [].
Proof. intros H. split; [|done]. constructor; cbn; try done; lia. Qed.

Lemma p_count_range p : 0 <= p_count p < 2 ^ 32.
Proof. apply u32_range. Qed.

Lemma queue_length p : Z.of_nat (length (queue p)) = p_count p.
Proof. unfold queue. rewrite length_map, length_seqZ. pose proof (p_count_range p). lia. Qed.

(** Full and empty, as the code tests them. *)
Lemma p_full_spec p : pipe_ok p -> p_full p = true <-> p_count p = PIPESIZE.
Proof.
  intros [_ Hr Hw _]. unfold p_full, p_count, u32, PIPESIZE in *. rewrite Z.eqb_eq. zlia.
Qed.

Lemma p_empty_spec p : pipe_ok p -> (nread p =? nwrite p) = true <-> p_count p = 0.
Proof. intros [_ Hr Hw _]. unfold p_count, u32 in *. rewrite Z.eqb_eq. zlia. Qed.

Lemma p_put_count p c : pipe_ok p -> p_full p = false -> p_count (p_put c p) = p_count p + 1.
Proof.
  intros Hok Hf. assert (p_count p <> PIPESIZE) by (rewrite <-p_full_spec by done; by rewrite Hf).
  destruct Hok as [_ Hr Hw Hc]. unfold p_count, u32, PIPESIZE in *. cbn [p_put nread nwrite]. unfold u32. zlia.
Qed.

Lemma p_put_ok p c : pipe_ok p -> p_full p = false -> pipe_ok (p_put c p) /\ queue (p_put c p) = queue p ++ [c].
Proof.
  intros Hok Hf. pose proof (p_put_count p c Hok Hf) as Hcnt.
  assert (Hne : p_count p <> PIPESIZE) by (rewrite <-p_full_spec by done; by rewrite Hf).
  pose proof Hok as [Hl Hr Hw Hc]. pose proof (p_count_range p) as Hc0.
  assert (Hpos : (nread p + p_count p) mod PIPESIZE = nwrite p mod PIPESIZE).
  { unfold p_count, u32, PIPESIZE in *. zlia. }
  split.
  - constructor; [cbn; by rewrite length_insert | done | apply u32_range | lia].
  - unfold queue. rewrite Hcnt, seqZ_app, map_app by lia. f_equal.
    + apply map_ext_in. intros i Hi. apply list_elem_of_In, elem_of_seqZ in Hi. cbn [p_put nread p_data].
      rewrite !nth_lookup. rewrite list_lookup_insert_ne; [done|]. intros E.
      assert ((nread p + i) mod PIPESIZE = nwrite p mod PIPESIZE) as E'.
      { unfold PIPESIZE in *. zlia. }
      rewrite <-Hpos in E'. unfold PIPESIZE in *. zlia.
    + rewrite seqZ_cons, seqZ_nil by lia. cbn [map p_put nread p_data]. f_equal.
      rewrite Z.add_0_l, Hpos, nth_lookup, list_lookup_insert_eq; [done|].
      rewrite Hl. unfold PIPESIZE. zlia.
Qed.

Lemma p_get_ok p : pipe_ok p -> (nread p =? nwrite p) = false ->
  let '(c, p') := p_get p in pipe_ok p' /\ queue p = c :: queue p' /\ (readopen p', writeopen p') = (readopen p, writeopen p).
Proof.
  intros Hok He. assert (Hne : p_count p <> 0) by (rewrite <-p_empty_spec by done; by rewrite He).
  pose proof Hok as [Hl Hr Hw Hc]. pose proof (p_count_range p) as Hc0. cbn [p_get].
  set (p' := mkPipe _ _ _ _ _).
  assert (Hcnt : p_count p' = p_count p - 1).
  { unfold p_count, u32 in *. cbn. unfold u32. zlia. }
  split_and!; [constructor; [done | apply u32_range | done | lia] | | done].
  unfold queue. rewrite Hcnt, (seqZ_cons 0 (p_count p)) by lia. cbn [map]. rewrite Z.add_0_r. f_equal.
  change (Z.succ 0) with (1 + 0). rewrite <-(fmap_add_seqZ 1 0). change (fmap (M := list)) with (@map Z Z).
  replace (Z.pred (p_count p)) with (p_count p - 1) by lia.
  rewrite map_map. apply map_ext. intros i. cbn [p' nread p_data]. f_equal. f_equal.
  unfold u32, PIPESIZE. zlia.
Qed.

Lemma pipewrite_run_ok killed n addr p :
  pipe_ok p ->
  let '(o, p') := pipewrite_run killed n addr p in
  pipe_ok p' /\ (readopen p', writeopen p') = (readopen p, writeopen p) /\
  exists done rest, addr = done ++ rest /\ queue p' = queue p ++ done /\
    (o = Done n /\ rest = [] \/
     p_count p' = PIPESIZE /\ rest <> [] /\
     (o = Asleep rest /\ readopen p = true /\ killed = false \/
      o = Done (-1) /\ (readopen p = false \/ killed = true))).
Proof.
  revert p. induction addr as [|c addr IH]; intros p Hok; cbn [pipewrite_run].
  - split_and!; [done..|]. exists [], []. split_and!; [done | by rewrite app_nil_r | by left].
  - destruct (p_full p) eqn:Hf.
    + destruct (negb (readopen p) || killed) eqn:Hk.
      * split_and!; [done..|]. exists [], (c :: addr). split_and!; [done | by rewrite app_nil_r | right].
        split_and!; [by apply p_full_spec | done | right]. split; [done|].
        destruct (readopen p), killed; auto.
      * split_and!; [done..|]. exists [], (c :: addr). split_and!; [done | by rewrite app_nil_r | right].
        split_and!; [by apply p_full_spec | done | left]. by destruct (readopen p), killed.
    + destruct (p_put_ok p c Hok Hf) as [Hok' Hq]. specialize (IH (p_put c p) Hok').
      destruct (pipewrite_run killed n addr (p_put c p)) as [o p'].
      destruct IH as (H1 & H2 & d & rest & -> & H4 & H5). split_and!; [done..|].
      exists (c :: d), rest. split_and!; [done | rewrite H4, Hq, <-app_assoc; done | done].
Qed.

Lemma piperead_copy_ok n p :
  pipe_ok p ->
  let '(l, p') := piperead_copy n p in
  pipe_ok p' /\ (readopen p', writeopen p') = (readopen p, writeopen p) /\
  queue p = l ++ queue p' /\ length l = min n (length (queue p)).
Proof.
  revert p. induction n as [|n IH]; intros p Hok; cbn [piperead_copy]; [done|].
  destruct (nread p =? nwrite p) eqn:He.
  - assert (Hq : queue p = []).
    { apply nil_length_inv. pose proof (queue_length p). apply p_empty_spec in He; [lia | done]. }
    rewrite Hq. done.
  - pose proof (p_get_ok p Hok He) as Hg. destruct (p_get p) as [c p1]. destruct Hg as (H1 & H2 & H3).
    specialize (IH p1 H1). destruct (piperead_copy n p1) as [l p2]. destruct IH as (I1 & I2 & I3 & I4).
    split_and!; [done | congruence | |].
    + rewrite H2, I3. done.
    + rewrite H2. cbn. by rewrite I4.
Qed.

(** ** Executions *)

(** The ghost state records the bytes accepted from writers and those given to
    readers.  A writer that sleeps continues with its remaining bytes at a
    later [ps_write]. *)
Record pstate := mkPstate { ps_pipe : pipe; sent : list Z; received : list Z }.

Inductive pstep : pstate -> pstate -> Prop :=
| ps_write killed n addr o p' p s r done rest :
    pipewrite_run killed n addr p = (o, p') -> addr = done ++ rest ->
    length (queue p') = (length (queue p) + length done)%nat ->
    pstep (mkPstate p s r) (mkPstate p' (s ++ done) r)
| ps_read killed n o l p' p s r :
    piperead_run killed n p = (o, l, p') ->
    pstep (mkPstate p s r) (mkPstate p' s (r ++ l))
| ps_close w b p' p s r :
    pipeclose w p = (b, p') -> pstep (mkPstate p s r) (mkPstate p' s r).

Definition fifo (st : pstate) : Prop :=
  pipe_ok (ps_pipe st) /\ sent st = received st ++ queue (ps_pipe st).

Lemma pstep_fifo st st' : fifo st -> pstep st st' -> fifo st'.
Proof.
  intros [Hok Hq] Hstep. unfold fifo.
  destruct Hstep as [killed n addr o p' p s r d rest E Ea El|killed n o l p' p s r E|w b p' p s r E];
    cbn [ps_pipe sent received] in *.
  - pose proof (pipewrite_run_ok killed n addr p Hok) as H. rewrite E in H.
    destruct H as (H1 & _ & d' & rest' & Ea' & H2 & _). split; [done|].
    assert (d' = d) as ->.
    { rewrite Ea in Ea'. apply app_inj_1 in Ea'; [by destruct Ea'|].
      rewrite H2, length_app in El. lia. }
    by rewrite H2, Hq, app_assoc.
  - unfold piperead_run in E. destruct ((nread p =? nwrite p) && writeopen p).
    + destruct killed; simplify_eq; by rewrite app_nil_r.
    + pose proof (piperead_copy_ok (Z.to_nat n) p Hok) as H.
      destruct (piperead_copy (Z.to_nat n) p) as [l' p1]. simplify_eq. destruct H as (H1 & _ & H2 & _).
      split; [done|]. by rewrite <-app_assoc, <-H2.
  - unfold pipeclose in E. destruct w; simplify_eq; (split; [|done]); destruct Hok; by constructor.
Qed.


(** The outcomes of a run.  [pipewrite] appends a prefix of its bytes; it
    returns [n] after all of them, sleeps only on a full pipe with an open
    reader, and fails only on a full pipe whose reader is gone or when killed.
    [piperead] returns at once with [min n available] bytes from the front
    unless the pipe is empty with an open writer; an empty pipe whose writer
    is gone gives 0. *)
Lemma pipe_run_outcomes p killed addr n :
  pipe_ok p ->
  (let '(o, p') := pipewrite killed addr p in
   pipe_ok p' /\ exists done rest, addr = done ++ rest /\ queue p' = queue p ++ done /\
    (o = Done (Z.of_nat (length addr)) /\ rest = [] \/
     p_count p' = PIPESIZE /\ rest <> [] /\
     (o = Asleep rest /\ readopen p = true /\ killed = false \/
      o = Done (-1) /\ (readopen p = false \/ killed = true)))) /\
  (let '(o, l, p') := piperead_run killed n p in
   pipe_ok p' /\ queue p = l ++ queue p' /\
   (o = Done (Z.of_nat (length l)) /\ length l = min (Z.to_nat n) (length (queue p)) /\
      (queue p <> [] \/ writeopen p = false) \/
    queue p = [] /\ l = [] /\ writeopen p = true /\ o = (if killed then Done (-1) else Asleep tt))).
Proof.
  intros Hok. split.
  - pose proof (pipewrite_run_ok killed (Z.of_nat (length addr)) addr p Hok) as H. unfold pipewrite.
    destruct (pipewrite_run killed (Z.of_nat (length addr)) addr p) as [o p'].
    destruct H as (H1 & _ & H2). by split.
  - unfold piperead_run. pose proof (queue_length p) as Hql.
    destruct ((nread p =? nwrite p) && writeopen p) eqn:E.
    + apply andb_prop in E as [E1 E2]. apply p_empty_spec in E1; [|done].
      assert (Hq : queue p = []) by (apply nil_length_inv; lia).
      destruct killed; split_and!; auto.
    + pose proof (piperead_copy_ok (Z.to_nat n) p Hok) as H.
      destruct (piperead_copy (Z.to_nat n) p) as [l p']. destruct H as (H1 & _ & H2 & H3).
      split_and!; [done..|]. left. split_and!; [done..|]. apply andb_false_iff in E as [E|E]; [left|by right].
      intros Hq. rewrite Hq in Hql. cbn in Hql. assert (p_count p = 0) as H0 by lia.
      apply p_empty_spec in H0; [congruence | done].
Qed.

(** A pipe whose counters are about to wrap around, with two bytes in it. *)
Definition demo_pipe : pipe := mkPipe (replicate 512 7) (2 ^ 32 - 1) 1 true true.

