(* ===== verification/Proc.v ===== *)
(** Processes, [xv6/base/proc.c] with the process system calls of
    [sysproc.c].

    The state is the process table, [nextpid], [initproc], what runs on each
    processor, and the state of the other components (memory, files), which
    this file only uses through the interface [ProcEnv].  Every routine below
    runs with [ptable.lock] held where it touches the table, so it is one
    atomic step; [sleep] and [sched] give up the processor, which ends the
    step: [Off] is that outcome.  The lock and interrupt-flag checks of
    [sched] are not represented. *)

From S2P Require Import Prelude.

(** ** Data *)

Definition NPROC : nat := 64.
Definition NOFILE : nat := 16.
Definition NCPU : nat := 8.
Definition KSTACKSIZE : Z := 4096.

Inductive procstate := UNUSED | EMBRYO | SLEEPING | RUNNABLE | RUNNING | ZOMBIE.

#[export] Instance procstate_eq_dec : EqDecision procstate.
Proof. solve_decision. Defined.

Definition state_eqb (a b : procstate) : bool := bool_decide (a = b).

(** The trap frame: the registers of the user program, [eax] singled out. *)
Record trapframe := mkTf { tf_eax : Z; tf_regs : list Z }.

(** A sleep channel: the address of a kernel object; [CProc i] is that of
    entry [i] of the table (the channel of [wait]), 0 is [COther 0]. *)
Inductive channel := COther (a : Z) | CProc (i : nat).

#[export] Instance channel_eq_dec : EqDecision channel.
Proof. solve_decision. Defined.

Record proc := mkProc {
  p_sz : Z;
  p_pgdir : Z;
  p_kstack : Z;
  p_state : procstate;
  p_pid : Z;
  p_parent : option nat;
  p_tf : trapframe;
  p_eip : Z;                    (* context->eip *)
  p_chan : channel;
  p_killed : bool;
  p_ofile : list (option nat);  (* NOFILE of them *)
  p_cwd : option nat;
  p_name : list Z
}.

Definition proc0 : proc :=
  mkProc 0 0 0 UNUSED 0 None (mkTf 0 []) 0 (COther 0) false (replicate NOFILE None) None [].

(** Field updates. *)
Definition pset_state (x : procstate) (p : proc) : proc :=
  mkProc (p_sz p) (p_pgdir p) (p_kstack p) x (p_pid p) (p_parent p) (p_tf p) (p_eip p) (p_chan p)
    (p_killed p) (p_ofile p) (p_cwd p) (p_name p).
Definition pset_pid (x : Z) (p : proc) : proc :=
  mkProc (p_sz p) (p_pgdir p) (p_kstack p) (p_state p) x (p_parent p) (p_tf p) (p_eip p) (p_chan p)
    (p_killed p) (p_ofile p) (p_cwd p) (p_name p).
Definition pset_kstack (x : Z) (p : proc) : proc :=
  mkProc (p_sz p) (p_pgdir p) x (p_state p) (p_pid p) (p_parent p) (p_tf p) (p_eip p) (p_chan p)
    (p_killed p) (p_ofile p) (p_cwd p) (p_name p).
Definition pset_mem (sz pgdir : Z) (p : proc) : proc :=
  mkProc sz pgdir (p_kstack p) (p_state p) (p_pid p) (p_parent p) (p_tf p) (p_eip p) (p_chan p)
    (p_killed p) (p_ofile p) (p_cwd p) (p_name p).
Definition pset_parent (x : option nat) (p : proc) : proc :=
  mkProc (p_sz p) (p_pgdir p) (p_kstack p) (p_state p) (p_pid p) x (p_tf p) (p_eip p) (p_chan p)
    (p_killed p) (p_ofile p) (p_cwd p) (p_name p).
Definition pset_tf (x : trapframe) (p : proc) : proc :=
  mkProc (p_sz p) (p_pgdir p) (p_kstack p) (p_state p) (p_pid p) (p_parent p) x (p_eip p) (p_chan p)
    (p_killed p) (p_ofile p) (p_cwd p) (p_name p).
Definition pset_eip (x : Z) (p : proc) : proc :=
  mkProc (p_sz p) (p_pgdir p) (p_kstack p) (p_state p) (p_pid p) (p_parent p) (p_tf p) x (p_chan p)
    (p_killed p) (p_ofile p) (p_cwd p) (p_name p).
Definition pset_chan (x : channel) (p : proc) : proc :=
  mkProc (p_sz p) (p_pgdir p) (p_kstack p) (p_state p) (p_pid p) (p_parent p) (p_tf p) (p_eip p) x
    (p_killed p) (p_ofile p) (p_cwd p) (p_name p).
Definition pset_killed (x : bool) (p : proc) : proc :=
  mkProc (p_sz p) (p_pgdir p) (p_kstack p) (p_state p) (p_pid p) (p_parent p) (p_tf p) (p_eip p) (p_chan p)
    x (p_ofile p) (p_cwd p) (p_name p).
Definition pset_files (f : list (option nat)) (c : option nat) (p : proc) : proc :=
  mkProc (p_sz p) (p_pgdir p) (p_kstack p) (p_state p) (p_pid p) (p_parent p) (p_tf p) (p_eip p) (p_chan p)
    (p_killed p) f c (p_name p).
Definition pset_name (x : list Z) (p : proc) : proc :=
  mkProc (p_sz p) (p_pgdir p) (p_kstack p) (p_state p) (p_pid p) (p_parent p) (p_tf p) (p_eip p) (p_chan p)
    (p_killed p) (p_ofile p) (p_cwd p) x.

(** ** What processes use of the other components *)

Class ProcEnv (E : Type) := {
  e_kalloc : E -> Z * E;
  e_kfree : Z -> E -> result E;
  e_setupkvm : E -> Z * E;
  e_inituvm : Z -> E -> result E;
  e_copyuvm : Z -> Z -> E -> Z * E;
  e_allocuvm : Z -> Z -> Z -> E -> Z * E;
  e_deallocuvm : Z -> Z -> Z -> E -> Z * E;
  e_freevm : Z -> E -> result E;
  e_filedup : nat -> E -> result E;
  e_fileclose : nat -> E -> result E;
  e_idup : nat -> E -> result E;
  e_iput : nat -> E -> result E;     (* begin_op(); iput(ip); end_op() *)
  e_namei_root : E -> option nat * E
}.

Record pst (E : Type) := mkPst {
  ptable : list proc;
  nextpid : Z;
  initproc : option nat;
  cpus : list (option nat);     (* c->proc *)
  env : E
}.
Arguments mkPst {E} _ _ _ _ _.
Arguments ptable {E} _.
Arguments nextpid {E} _.
Arguments initproc {E} _.
Arguments cpus {E} _.
Arguments env {E} _.

(** The outcome of a step that may give up the processor. *)
Inductive ran (A : Type) := On (a : A) | Off.
Arguments On {A} _.
Arguments Off {A}.

Section Proc.
Context {E : Type} {pe : ProcEnv E}.
(** [forkret], the address new kernel threads start at. *)
Context (forkret_addr : Z).
Abbreviation M := (SR (pst E)).

Definition pset_table (t : list proc) (s : pst E) : pst E :=
  mkPst t (nextpid s) (initproc s) (cpus s) (env s).
Definition nth_proc (s : pst E) (i : nat) : proc := default proc0 (ptable s !! i).

Definition m_proc (i : nat) : M proc := sr_gets (fun s => nth_proc s i).
Definition m_upd (i : nat) (f : proc -> proc) : M unit :=
  sr_modify (fun s => pset_table (alter f i (ptable s)) s).
Definition m_env {A} (f : E -> A * E) : M A := fun s =>
  let '(a, e) := f (env s) in Ok (a, mkPst (ptable s) (nextpid s) (initproc s) (cpus s) e).
Definition m_envr (f : E -> result E) : M unit := fun s =>
  e ← f (env s); Ok (tt, mkPst (ptable s) (nextpid s) (initproc s) (cpus s) e).

(** ** Operations *)

Definition allocproc : M (option nat) := fun s =>
  match find_idx (fun p => state_eqb (p_state p) UNUSED) (ptable s) with
  | None => Ok (None, s)
  | Some i =>
      let s := mkPst (alter (fun p => pset_pid (nextpid s) (pset_state EMBRYO p)) i (ptable s))
                 (s32 (nextpid s + 1)) (initproc s) (cpus s) (env s) in
      (k ← m_env e_kalloc;
       _ ← m_upd i (pset_kstack k);
       if k =? 0 then
         _ ← m_upd i (pset_state UNUSED); mret None
       else
         (* the trap frame and the context on the kernel stack *)
         _ ← m_upd i (pset_eip forkret_addr);
         mret (Some i)) s
  end.

Definition userinit : M unit :=
  o ← allocproc;
  match o with
  | None => sr_panic "null pointer"
  | Some i =>
      _ ← sr_modify (fun s => mkPst (ptable s) (nextpid s) (Some i) (cpus s) (env s));
      pgdir ← m_env e_setupkvm;
      if pgdir =? 0 then sr_panic "userinit: out of memory?"
      else
        _ ← m_envr (e_inituvm pgdir);
        _ ← m_upd i (pset_mem 4096 pgdir);
        _ ← m_upd i (pset_tf (mkTf 0 []));
        _ ← m_upd i (pset_name [105; 110; 105; 116; 99; 111; 100; 101]);
        cwd ← m_env e_namei_root;
        _ ← m_upd i (fun p => pset_files (p_ofile p) cwd p);
        m_upd i (pset_state RUNNABLE)
  end.

Definition growproc (cur : nat) (n : Z) : M Z :=
  p ← m_proc cur;
  let sz := p_sz p in
  r ← (if 0 <? n then m_env (e_allocuvm (p_pgdir p) sz (u32 (sz + n)))
       else if n <? 0 then m_env (e_deallocuvm (p_pgdir p) sz (u32 (sz + n)))
       else mret sz);
  if (negb (n =? 0)) && (r =? 0) then mret (-1)
  else
    _ ← m_upd cur (fun p => pset_mem r (p_pgdir p) p);
    mret 0.

(** The loop over the open files of the parent. *)
Fixpoint dup_files (np fd : nat) (files : list (option nat)) : M unit :=
  match files with
  | [] => mret tt
  | None :: files' => dup_files np (S fd) files'
  | Some f :: files' =>
      _ ← m_envr (e_filedup f);
      _ ← m_upd np (fun p => pset_files (<[fd := Some f]> (p_ofile p)) (p_cwd p) p);
      dup_files np (S fd) files'
  end.

Definition fork (cur : nat) : M Z :=
  o ← allocproc;
  match o with
  | None => mret (-1)
  | Some np =>
      c ← m_proc cur;
      pgdir ← m_env (e_copyuvm (p_pgdir c) (p_sz c));
      _ ← m_upd np (fun p => pset_mem (p_sz p) pgdir p);
      if pgdir =? 0 then
        p ← m_proc np;
        _ ← m_envr (e_kfree (p_kstack p));
        _ ← m_upd np (pset_kstack 0);
        _ ← m_upd np (pset_state UNUSED);
        mret (-1)
      else
        _ ← m_upd np (pset_mem (p_sz c) pgdir);
        _ ← m_upd np (pset_parent (Some cur));
        _ ← m_upd np (pset_tf (mkTf 0 (tf_regs (p_tf c))));
        _ ← dup_files np 0 (p_ofile c);
        _ ← (match p_cwd c with
             | Some ip =>
                 _ ← m_envr (e_idup ip);
                 m_upd np (fun p => pset_files (p_ofile p) (Some ip) p)
             | None => sr_panic "null pointer"
             end);
        _ ← m_upd np (pset_name (p_name c));
        p ← m_proc np;
        _ ← m_upd np (pset_state RUNNABLE);
        mret (p_pid p)
  end.

Definition wakeup1 (chan : channel) : M unit :=
  sr_modify (fun s => pset_table
    (map (fun p => if state_eqb (p_state p) SLEEPING && bool_decide (p_chan p = chan)
                   then pset_state RUNNABLE p else p) (ptable s)) s).

Definition wakeup (chan : channel) : M unit := wakeup1 chan.

(** [sched]: the process gives up processor [c]. *)
Definition sched (c cur : nat) : M (ran Z) :=
  p ← m_proc cur;
  if state_eqb (p_state p) RUNNING then sr_panic "sched running"
  else
    _ ← sr_modify (fun s => mkPst (ptable s) (nextpid s) (initproc s) (<[c := None]> (cpus s)) (env s));
    mret Off.

Definition yield (c cur : nat) : M (ran Z) :=
  _ ← m_upd cur (pset_state RUNNABLE); sched c cur.

(** [sleep(chan, lk)] up to [sched]; the caller continues with [p->chan = 0]
    when it is scheduled again ([awake]). *)
Definition sleep (c cur : nat) (chan : channel) : M (ran Z) :=
  _ ← m_upd cur (pset_chan chan);
  _ ← m_upd cur (pset_state SLEEPING);
  sched c cur.

Definition awake (cur : nat) : M unit := m_upd cur (pset_chan (COther 0)).

Fixpoint close_files (cur fd : nat) (files : list (option nat)) : M unit :=
  match files with
  | [] => mret tt
  | None :: files' => close_files cur (S fd) files'
  | Some f :: files' =>
      _ ← m_envr (e_fileclose f);
      _ ← m_upd cur (fun p => pset_files (<[fd := None]> (p_ofile p)) (p_cwd p) p);
      close_files cur (S fd) files'
  end.

(** "Pass abandoned children to init", entry by entry: a wakeup of init in
    the middle of the loop is seen by the later entries. *)
Definition reparent (cur : nat) (i : nat) : M unit :=
  p ← m_proc i;
  if bool_decide (p_parent p = Some cur) then
    ini ← sr_gets initproc;
    _ ← m_upd i (pset_parent ini);
    if state_eqb (p_state p) ZOMBIE then
      match ini with Some j => wakeup1 (CProc j) | None => wakeup1 (COther 0) end
    else mret tt
  else mret tt.

Fixpoint m_each (body : nat -> M unit) (l : list nat) : M unit :=
  match l with
  | [] => mret tt
  | i :: l' => _ ← body i; m_each body l'
  end.

Definition exit (c cur : nat) : M (ran Z) :=
  ini ← sr_gets initproc;
  if bool_decide (ini = Some cur) then sr_panic "init exiting"
  else
    p ← m_proc cur;
    _ ← close_files cur 0 (p_ofile p);
    _ ← (match p_cwd p with Some ip => m_envr (e_iput ip) | None => sr_panic "null pointer" end);
    _ ← m_upd cur (fun p => pset_files (p_ofile p) None p);
    _ ← (match p_parent p with Some j => wakeup1 (CProc j) | None => wakeup1 (COther 0) end);
    t ← sr_gets (fun s => length (ptable s));
    _ ← m_each (reparent cur) (seq 0 t);
    _ ← m_upd cur (pset_state ZOMBIE);
    sched c cur.

(** One turn of the loop of [wait]: the first zombie child, if any. *)
Definition is_child (cur : nat) (p : proc) : bool := bool_decide (p_parent p = Some cur).

Definition wait_turn (c cur : nat) : M (ran Z) :=
  t ← sr_gets ptable;
  match find_idx (fun p => is_child cur p && state_eqb (p_state p) ZOMBIE) t with
  | Some i =>
      p ← m_proc i;
      let pid := p_pid p in
      _ ← m_envr (e_kfree (p_kstack p));
      _ ← m_upd i (pset_kstack 0);
      _ ← m_envr (e_freevm (p_pgdir p));
      _ ← m_upd i (fun p => pset_killed false (pset_name [] (pset_parent None (pset_pid 0 p))));
      _ ← m_upd i (pset_state UNUSED);
      mret (On pid)
  | None =>
      p ← m_proc cur;
      if negb (existsb (is_child cur) t) || p_killed p then mret (On (-1))
      else sleep c cur (CProc cur)
  end.

(** One choice of [scheduler] on processor [c]: entry [i] runs. *)
Definition scheduler_pick (c i : nat) : M bool :=
  p ← m_proc i;
  if negb (state_eqb (p_state p) RUNNABLE) then mret false
  else
    _ ← sr_modify (fun s => mkPst (ptable s) (nextpid s) (initproc s) (<[c := Some i]> (cpus s)) (env s));
    _ ← m_upd i (pset_state RUNNING);
    mret true.

Definition kill (pid : Z) : M Z := fun s =>
  match find_idx (fun p => p_pid p =? pid) (ptable s) with
  | None => Ok (-1, s)
  | Some i =>
      (_ ← m_upd i (pset_killed true);
       p ← m_proc i;
       _ ← (if state_eqb (p_state p) SLEEPING then m_upd i (pset_state RUNNABLE) else mret tt);
       mret 0) s
  end.

(** ** sysproc.c: the system calls, with their integer argument *)

Definition sys_fork (cur : nat) : M Z := fork cur.
Definition sys_exit (c cur : nat) : M (ran Z) := exit c cur.
Definition sys_wait (c cur : nat) : M (ran Z) := wait_turn c cur.
Definition sys_kill (arg : option Z) : M Z :=
  match arg with None => mret (-1) | Some pid => kill pid end.
Definition sys_getpid (cur : nat) : M Z := p ← m_proc cur; mret (p_pid p).
Definition sys_sbrk (cur : nat) (arg : option Z) : M Z :=
  match arg with
  | None => mret (-1)
  | Some n =>
      p ← m_proc cur;
      let addr := p_sz p in
      r ← growproc cur n;
      if r <? 0 then mret (-1) else mret (s32 addr)
  end.
(** One turn of the loop of [sys_sleep]; [ticks - ticks0 < n] compares
    unsigned. *)
Definition sys_sleep_turn (c cur : nat) (ticks ticks0 n : Z) : M (ran Z) :=
  if u32 (ticks - ticks0) <? u32 n then
    p ← m_proc cur;
    if p_killed p then mret (On (-1)) else sleep c cur (COther 1)
  else mret (On 0).

End Proc.

(** ** The skeleton of the table: states and process ids *)

Abbreviation slot := (procstate * Z)%type.

Section Skeleton.
Context {E : Type} {pe : ProcEnv E} (forkret_addr : Z).
Abbreviation M := (SR (pst E)).
Implicit Types (s : pst E) (k : list (procstate * Z)).

Definition skel s : list slot := map (fun p => (p_state p, p_pid p)) (ptable s).

(** The invariant: processes have distinct positive ids below [nextpid], and
    the running processes are exactly those on a processor, each on one. *)
Record sk_ok k (cs : list (option nat)) (np : Z) : Prop := {
  sk_uniq : forall i j st1 st2 pid, k !! i = Some (st1, pid) -> k !! j = Some (st2, pid) ->
    st1 <> UNUSED -> st2 <> UNUSED -> i = j;
  sk_pid : forall i st pid, k !! i = Some (st, pid) -> st <> UNUSED -> 0 < pid < np;
  sk_next : 0 < np < 2 ^ 31;
  sk_cpu : forall c i, cs !! c = Some (Some i) -> exists pid, k !! i = Some (RUNNING, pid);
  sk_one : forall c c' i, cs !! c = Some (Some i) -> cs !! c' = Some (Some i) -> c = c';
  sk_run : forall i pid, k !! i = Some (RUNNING, pid) -> exists c, cs !! c = Some (Some i)
}.

Definition pinv s : Prop := sk_ok (skel s) (cpus s) (nextpid s).

(** Actions that leave the skeleton alone. *)
Definition keeps s s' : Prop := skel s' = skel s /\ cpus s' = cpus s /\ nextpid s' = nextpid s.
Definition Keeps {A} (m : M A) : Prop := forall s a s', m s = Ok (a, s') -> keeps s s'.

Lemma keeps_trans s1 s2 s3 : keeps s1 s2 -> keeps s2 s3 -> keeps s1 s3.
Proof. unfold keeps. intros (-> & -> & ->) (-> & -> & ->). done. Qed.

Lemma Keeps_bind {A B} (m : M A) (f : A -> M B) : Keeps m -> (forall a, Keeps (f a)) -> Keeps (m ≫= f).
Proof.
  intros Hm Hf s b s2 H. apply sr_bind_ok in H as (a & s1 & H1 & H2).
  eapply keeps_trans; [by eapply Hm | by eapply Hf].
Qed.

Lemma Keeps_ret {A} (a : A) : Keeps (mret a).
Proof. intros s b s' [= <- <-]. done. Qed.

Lemma Keeps_panic {A} msg : Keeps (sr_panic msg : M A).
Proof. intros s b s' [=]. Qed.

Lemma Keeps_gets {A} (f : pst E -> A) : Keeps (sr_gets f).
Proof. intros s b s' [= <- <-]. done. Qed.

Lemma Keeps_env {A} (f : E -> A * E) : Keeps (m_env f).
Proof. intros s b s'. unfold m_env. destruct (f (env s)). intros [= <- <-]. done. Qed.

Lemma Keeps_envr (f : E -> result E) : Keeps (m_envr f).
Proof. intros s b s'. unfold m_envr. destruct (f (env s)); intros [= <- <-]. done. Qed.

Definition sk_alter (f : slot -> slot) (i : nat) k : list slot := alter f i k.

Lemma map_alter_comm {A B} (g : A -> B) f h (i : nat) (l : list A) :
  (forall x, g (f x) = h (g x)) -> map g (alter f i l) = alter h i (map g l).
Proof.
  intros H. revert i. induction l as [|x l IH]; intros [|i]; cbn; try done.
  - by rewrite H.
  - f_equal. apply IH.
Qed.

Lemma alter_id_list {A} (h : A -> A) (i : nat) (l : list A) : (forall x, h x = x) -> alter h i l = l.
Proof. intros H. revert i. induction l as [|x l IH]; intros [|i]; cbn; f_equal; auto. Qed.

(** A field update that changes neither state nor id. *)
Lemma Keeps_upd i (f : proc -> proc) :
  (forall p, p_state (f p) = p_state p) -> (forall p, p_pid (f p) = p_pid p) -> Keeps (m_upd i f).
Proof.
  intros H1 H2 s b s' [= <- <-]. unfold keeps, skel. cbn. split; [|done].
  rewrite (map_alter_comm _ f (fun x => x)); [by apply alter_id_list|]. intros p. by rewrite H1, H2.
Qed.

Lemma skel_set_state s i x :
  skel (pset_table (alter (pset_state x) i (ptable s)) s) = alter (fun '(_, pid) => (x, pid)) i (skel s).
Proof. unfold skel. cbn. by apply map_alter_comm. Qed.

Lemma nth_proc_skel s i p : ptable s !! i = Some p -> skel s !! i = Some (p_state p, p_pid p).
Proof. intros H. unfold skel. by rewrite list_lookup_fmap, H. Qed.

Lemma skel_lookup s i x : skel s !! i = Some x -> exists p, ptable s !! i = Some p /\ x = (p_state p, p_pid p).
Proof.
  unfold skel. rewrite list_lookup_fmap.
  destruct (ptable s !! i) as [p|]; [|done]. intros [= <-]. eauto.
Qed.

(** Some sleepers become runnable. *)
Definition woken k k' : Prop :=
  Forall2 (fun a b => b.2 = a.2 /\ (b.1 = a.1 \/ a.1 = SLEEPING /\ b.1 = RUNNABLE)) k k'.

Lemma woken_refl k : woken k k.
Proof. apply Forall_Forall2_diag, Forall_true. auto. Qed.

Lemma woken_trans k1 k2 k3 : woken k1 k2 -> woken k2 k3 -> woken k1 k3.
Proof.
  intros H1. revert k3. induction H1 as [|[st1 p1] [st2 p2] k1 k2 Hab _ IH]; intros k3 H2.
  - apply Forall2_nil_inv_l in H2 as ->. constructor.
  - apply Forall2_cons_inv_l in H2 as ([st3 p3] & k3' & Hbc & H2 & ->). constructor; [|by apply IH].
    cbn in *. destruct Hab as [-> H1], Hbc as [-> H3]. split; [done|].
    destruct H1 as [->|[-> ->]], H3 as [->|[H3 ->]]; auto.
Qed.

Lemma woken_lookup k k' i st pid : woken k k' -> k' !! i = Some (st, pid) ->
  exists st0, k !! i = Some (st0, pid) /\ (st = st0 \/ st0 = SLEEPING /\ st = RUNNABLE).
Proof.
  intros H Hi. destruct (Forall2_lookup_r _ _ _ _ _ H Hi) as ([st0 pid0] & H0 & E1 & E2). cbn in *. subst. eauto.
Qed.

Lemma woken_lookup_l k k' i st pid : woken k k' -> k !! i = Some (st, pid) ->
  exists st', k' !! i = Some (st', pid) /\ (st' = st \/ st = SLEEPING /\ st' = RUNNABLE).
Proof.
  intros H Hi. destruct (Forall2_lookup_l _ _ _ _ _ H Hi) as ([st0 pid0] & H0 & E1 & E2). cbn in *. subst. eauto.
Qed.

Lemma woken_ok k k' cs np : woken k k' -> sk_ok k cs np -> sk_ok k' cs np.
Proof.
  intros Hw [U P N C O R].
  assert (Hst : forall st st0 : procstate, (st = st0 \/ st0 = SLEEPING /\ st = RUNNABLE) -> st <> UNUSED -> st0 <> UNUSED).
  { intros st st0 [->|[-> ->]]; done. }
  constructor; [| | done | | done |].
  - intros i j st1 st2 pid Hi Hj H1 H2.
    destruct (woken_lookup _ _ _ _ _ Hw Hi) as (a & Ha & Ea), (woken_lookup _ _ _ _ _ Hw Hj) as (b & Hb & Eb). eauto.
  - intros i st pid Hi H1. destruct (woken_lookup _ _ _ _ _ Hw Hi) as (a & Ha & Ea). eauto.
  - intros c i Hc. destruct (C c i Hc) as [pid Hi]. exists pid.
    destruct (woken_lookup_l _ _ _ _ _ Hw Hi) as (st & Hst' & [->|[? _]]); done.
  - intros i pid Hi. destruct (woken_lookup _ _ _ _ _ Hw Hi) as (a & Ha & [<-|[-> ?]]); [eauto | done].
Qed.

Definition Wakes {A} (m : M A) : Prop := forall s a s', m s = Ok (a, s') ->
  woken (skel s) (skel s') /\ cpus s' = cpus s /\ nextpid s' = nextpid s.

Lemma Keeps_Wakes {A} (m : M A) : Keeps m -> Wakes m.
Proof. intros H s a s' Hr. destruct (H s a s' Hr) as (-> & -> & ->). split_and!; [apply woken_refl | done..]. Qed.

Lemma Wakes_bind {A B} (m : M A) (f : A -> M B) : Wakes m -> (forall a, Wakes (f a)) -> Wakes (m ≫= f).
Proof.
  intros Hm Hf s b s2 H. apply sr_bind_ok in H as (a & s1 & H1 & H2).
  destruct (Hm _ _ _ H1) as (W1 & C1 & N1), (Hf _ _ _ _ H2) as (W2 & C2 & N2).
  split_and!; [by eapply woken_trans | congruence..].
Qed.

Lemma Wakes_wakeup1 chan : Wakes (wakeup1 chan : M unit).
Proof.
  intros s a s' [= <- <-]. split_and!; [|done..]. unfold skel. cbn. rewrite map_map.
  induction (ptable s) as [|p t IH]; constructor; [|done]. cbn.
  destruct (state_eqb (p_state p) SLEEPING) eqn:Es; cbn [andb]; [|auto].
  apply bool_decide_eq_true in Es. case_match; cbn; auto.
Qed.

(** A woken or untouched slot, from the point of view of one entry. *)
Lemma woken_set_state s i x :
  (forall st pid, skel s !! i = Some (st, pid) -> st = SLEEPING /\ x = RUNNABLE) ->
  woken (skel s) (alter (fun '(_, pid) => (x, pid)) i (skel s)).
Proof.
  intros H. apply Forall2_same_length_lookup_2; [by rewrite length_alter|].
  intros j a b Ha Hb. destruct (decide (i = j)) as [->|Hne].
  - rewrite list_lookup_alter_eq, Ha in Hb. destruct a as [st pid]. cbn in Hb. simplify_eq. cbn.
    split; [done|]. right. by eapply H.
  - rewrite list_lookup_alter_ne, Ha in Hb by done. simplify_eq. auto.
Qed.

(** ** Leaving and taking a processor *)

Lemma leave_cpu k cs np c i x :
  sk_ok k cs np -> cs !! c = Some (Some i) -> x <> RUNNING -> x <> UNUSED ->
  sk_ok (alter (fun '(_, pid) => (x, pid)) i k) (<[c := None]> cs) np.
Proof.
  intros [U P N C O R] Hc Hx Hx'. destruct (C c i Hc) as [pid0 Hi].
  assert (Hlk : forall j st pid, alter (fun '(_, pid) => (x, pid)) i k !! j = Some (st, pid) ->
    (j = i /\ st = x /\ pid = pid0) \/ (j <> i /\ k !! j = Some (st, pid))).
  { intros j st pid Hj. destruct (decide (i = j)) as [->|Hne].
    - rewrite list_lookup_alter_eq, Hi in Hj. cbn in Hj. simplify_eq. auto.
    - rewrite list_lookup_alter_ne in Hj by done. auto. }
  assert (Hlt : (c < length cs)%nat) by (by eapply lookup_lt_Some).
  constructor; [| | done | | |].
  - intros a b st1 st2 pid Ha Hb H1 H2.
    destruct (Hlk _ _ _ Ha) as [(-> & -> & ->)|[Hna Ha']], (Hlk _ _ _ Hb) as [(-> & -> & E2)|[Hnb Hb']]; try done.
    + symmetry. by eapply (U b i).
    + subst. by eapply (U a i).
    + by eapply U.
  - intros a st pid Ha H1. destruct (Hlk _ _ _ Ha) as [(-> & -> & ->)|[Hna Ha']]; [by eapply P | by eapply P].
  - intros c' a Ha. apply list_lookup_insert_Some in Ha as [(_ & ? & _)|[Hcc Ha]]; [done|].
    destruct (C c' a Ha) as [pid Ha']. exists pid. rewrite list_lookup_alter_ne; [done|].
    intros ->. apply Hcc. by eapply O.
  - intros c1 c2 a H1 H2. apply list_lookup_insert_Some in H1 as [(_ & ? & _)|[_ H1]]; [done|].
    apply list_lookup_insert_Some in H2 as [(_ & ? & _)|[_ H2]]; [done|]. by eapply O.
  - intros a pid Ha. destruct (Hlk _ _ _ Ha) as [(_ & <- & _)|[Hna Ha']]; [done|].
    destruct (R a pid Ha') as [c' Hc']. exists c'. rewrite list_lookup_insert_ne; [done|]. intros ->. congruence.
Qed.

Lemma take_cpu k cs np c i pid :
  sk_ok k cs np -> cs !! c = Some None -> k !! i = Some (RUNNABLE, pid) ->
  sk_ok (alter (fun '(_, pid) => (RUNNING, pid)) i k) (<[c := Some i]> cs) np.
Proof.
  intros [U P N C O R] Hc Hi.
  assert (Hlk : forall j st pid', alter (fun '(_, pid) => (RUNNING, pid)) i k !! j = Some (st, pid') ->
    (j = i /\ st = RUNNING /\ pid' = pid) \/ (j <> i /\ k !! j = Some (st, pid'))).
  { intros j st pid' Hj. destruct (decide (i = j)) as [->|Hne].
    - rewrite list_lookup_alter_eq, Hi in Hj. cbn in Hj. simplify_eq. auto.
    - rewrite list_lookup_alter_ne in Hj by done. auto. }
  assert (Hlt : (c < length cs)%nat) by (by eapply lookup_lt_Some).
  assert (Hno : forall c', cs !! c' <> Some (Some i)).
  { intros c' Hc'. destruct (C c' i Hc'). congruence. }
  constructor; [| | done | | |].
  - intros a b st1 st2 q Ha Hb H1 H2.
    destruct (Hlk _ _ _ Ha) as [(-> & -> & ->)|[Hna Ha']], (Hlk _ _ _ Hb) as [(-> & -> & E2)|[Hnb Hb']]; try done.
    + symmetry. by eapply (U b i).
    + subst. by eapply (U a i).
    + by eapply U.
  - intros a st q Ha H1. destruct (Hlk _ _ _ Ha) as [(-> & -> & ->)|[Hna Ha']]; [by eapply P | by eapply P].
  - intros c' a Ha. apply list_lookup_insert_Some in Ha as [(-> & [= ->] & _)|[Hcc Ha]].
    + exists pid. by rewrite list_lookup_alter_eq, Hi.
    + destruct (C c' a Ha) as [q Hq]. exists q. rewrite list_lookup_alter_ne; [done|]. intros ->. by apply (Hno c').
  - intros c1 c2 a H1 H2. apply list_lookup_insert_Some in H1 as [(-> & [= ->] & _)|[Hn1 H1]],
      H2 as [(-> & Ec & _)|[Hn2 H2]]; try done.
    + by destruct (Hno c2).
    + injection Ec as ->. by destruct (Hno c1).
    + by eapply O.
  - intros a q Ha. destruct (Hlk _ _ _ Ha) as [(-> & _ & _)|[Hna Ha']].
    + exists c. by rewrite list_lookup_insert_eq.
    + destruct (R a q Ha') as [c' Hc']. exists c'. rewrite list_lookup_insert_ne; [done|]. intros ->. congruence.
Qed.

(** A slot outside the run states is replaced. *)
Lemma replace_slot k cs np np' i st0 pid0 st pid :
  sk_ok k cs np -> k !! i = Some (st0, pid0) -> st0 <> RUNNING -> st <> RUNNING ->
  (st <> UNUSED -> 0 < pid < np' /\ (pid = pid0 /\ st0 <> UNUSED \/ np <= pid)) ->
  np <= np' < 2 ^ 31 -> sk_ok (<[i := (st, pid)]> k) cs np'.
Proof.
  intros [U P N C O R] Hi H0 H1 Hp Hn.
  assert (Hlk : forall j x, <[i := (st, pid)]> k !! j = Some x -> (j = i /\ x = (st, pid)) \/ (j <> i /\ k !! j = Some x)).
  { intros j x Hj. apply list_lookup_insert_Some in Hj as [(-> & -> & _)|[Hne Hj]]; auto. }
  constructor; [| | lia | | done |].
  - assert (Hone : forall j st2 q, k !! j = Some (st2, q) -> st2 <> UNUSED -> st <> UNUSED -> q = pid -> j = i).
    { intros j st2 q Hj Hs Hs' ->. destruct (Hp Hs') as [_ [[-> Hu]|Hge]]; [by eapply (U j i)|].
      pose proof (P j _ _ Hj Hs). lia. }
    intros a b st1 st2 q Ha Hb Hs1 Hs2.
    destruct (Hlk _ _ Ha) as [(-> & Ea)|[Hna Ha']], (Hlk _ _ Hb) as [(-> & Eb)|[Hnb Hb']]; try done; simplify_eq.
    + symmetry. by eapply Hone.
    + by eapply Hone.
    + by eapply U.
  - intros a s1 q Ha Hs. destruct (Hlk _ _ Ha) as [(-> & Ea)|[Hna Ha']]; simplify_eq; [by apply Hp|].
    pose proof (P a _ _ Ha' Hs). lia.
  - intros c a Hc. destruct (C c a Hc) as [q Hq]. exists q. rewrite list_lookup_insert_ne; [done|]. intros ->. congruence.
  - intros a q Ha. destruct (Hlk _ _ Ha) as [(-> & Ea)|[Hna Ha']]; [congruence | eauto].
Qed.

End Skeleton.

(** ** Executions of the kernel *)

Section Steps.
Context {E : Type} {pe : ProcEnv E} (forkret_addr : Z).
Implicit Types (s : pst E).

(** The steps of the processes on the processors and of the scheduler.  A
    process runs on processor [c]; [fork] is taken while ids are left. *)
Inductive kstep : pst E -> pst E -> Prop :=
| ks_fork c cur r s s' : cpus s !! c = Some (Some cur) -> nextpid s < 2 ^ 31 - 1 ->
    fork forkret_addr cur s = Ok (r, s') -> kstep s s'
| ks_exit c cur r s s' : cpus s !! c = Some (Some cur) -> exit c cur s = Ok (r, s') -> kstep s s'
| ks_wait c cur r s s' : cpus s !! c = Some (Some cur) -> wait_turn c cur s = Ok (r, s') -> kstep s s'
| ks_yield c cur r s s' : cpus s !! c = Some (Some cur) -> yield c cur s = Ok (r, s') -> kstep s s'
| ks_sleep c cur chan r s s' : cpus s !! c = Some (Some cur) -> sleep c cur chan s = Ok (r, s') -> kstep s s'
| ks_awake c cur r s s' : cpus s !! c = Some (Some cur) -> awake cur s = Ok (r, s') -> kstep s s'
| ks_sbrk c cur n r s s' : cpus s !! c = Some (Some cur) -> growproc cur n s = Ok (r, s') -> kstep s s'
| ks_kill pid r s s' : kill pid s = Ok (r, s') -> kstep s s'
| ks_wakeup chan r s s' : wakeup chan s = Ok (r, s') -> kstep s s'
| ks_pick c i r s s' : cpus s !! c = Some None -> (i < length (ptable s))%nat ->
    scheduler_pick c i s = Ok (r, s') -> kstep s s'.

(** The life of a process, as one step may change the state of a slot. *)
Definition life (a b : procstate) : Prop :=
  a = b \/ (a, b) ∈ [(UNUSED, RUNNABLE); (SLEEPING, RUNNABLE); (RUNNABLE, RUNNING);
    (RUNNING, RUNNABLE); (RUNNING, SLEEPING); (RUNNING, ZOMBIE); (ZOMBIE, UNUSED)].

Lemma life_edge a b : (a, b) ∈ [(UNUSED, RUNNABLE); (SLEEPING, RUNNABLE); (RUNNABLE, RUNNING);
    (RUNNING, RUNNABLE); (RUNNING, SLEEPING); (RUNNING, ZOMBIE); (ZOMBIE, UNUSED)] -> life a b.
Proof. by right. Qed.

Ltac edge := apply life_edge; repeat constructor.

(** Every slot changes its state along an edge of [life]. *)
Definition lives (k k' : list slot) : Prop :=
  length k' = length k /\ forall i a b, k !! i = Some a -> k' !! i = Some b -> life a.1 b.1.

Lemma lives_refl k : lives k k.
Proof. split; [done|]. intros i a b Ha Hb. simplify_eq. by left. Qed.

Lemma woken_lives k k' : woken k k' -> lives k k'.
Proof.
  intros H. split; [by rewrite (Forall2_length _ _ _ H)|]. intros i a b Ha Hb.
  pose proof (Forall2_lookup_lr _ _ _ _ _ _ H Ha Hb) as [_ [->|[-> ->]]]; [by left | edge].
Qed.

Lemma lives_insert k i a b : k !! i = Some a -> life a.1 b.1 -> lives k (<[i := b]> k).
Proof.
  intros Ha Hl. split; [by rewrite length_insert|]. intros j x y Hx Hy.
  apply list_lookup_insert_Some in Hy as [(-> & -> & _)|[_ Hy]]; simplify_eq; [done | by left].
Qed.

Lemma alter_slot (k : list slot) i x st pid : k !! i = Some (st, pid) ->
  alter (fun '(_, pid) => (x, pid)) i k = <[i := (x, pid)]> k.
Proof.
  intros Hi. apply list_eq. intros j. destruct (decide (i = j)) as [->|Hne].
  - rewrite list_lookup_alter_eq, Hi, list_lookup_insert_eq by (by eapply lookup_lt_Some). done.
  - by rewrite list_lookup_alter_ne, list_lookup_insert_ne.
Qed.

(** Composition of an action that keeps or wakes with a last change. *)
Definition step_ok s s' : Prop := pinv s' /\ lives (skel s) (skel s').

Lemma woken_step s s' : pinv s -> woken (skel s) (skel s') -> cpus s' = cpus s -> nextpid s' = nextpid s -> step_ok s s'.
Proof.
  intros Hp Hw Hc Hn. split; [|by apply woken_lives]. unfold pinv. rewrite Hc, Hn. by eapply woken_ok.
Qed.

Lemma Wakes_step {A} (m : SR (pst E) A) s a s' : Wakes m -> pinv s -> m s = Ok (a, s') -> step_ok s s'.
Proof. intros Hm Hp Hr. destruct (Hm _ _ _ Hr) as (Hw & Hc & Hn). by apply woken_step. Qed.

(** [m_upd cur (pset_state x)] followed by [sched], after waking others. *)
Lemma leave_step s s1 s' c cur x r :
  pinv s -> cpus s !! c = Some (Some cur) -> woken (skel s) (skel s1) -> cpus s1 = cpus s -> nextpid s1 = nextpid s ->
  x <> RUNNING -> x <> UNUSED -> life RUNNING x ->
  (_ ← m_upd cur (pset_state x); sched c cur) s1 = Ok (r, s') -> step_ok s s'.
Proof.
  intros Hp Hc Hw Hcp Hnp Hx Hx' Hl Hr. pose proof (woken_ok _ _ _ _ Hw Hp) as Hp1.
  apply sr_bind_ok in Hr as ([] & s2 & E2 & Hr). injection E2 as <-.
  unfold sched in Hr. apply sr_bind_ok in Hr as (p & s3 & E3 & Hr). injection E3 as <- <-.
  case_match; [done|]. apply sr_bind_ok in Hr as ([] & s4 & E4 & Hr). injection E4 as <-. injection Hr as <- <-.
  unfold step_ok, pinv. rewrite <-Hcp in Hc.
  change (skel (mkPst _ _ _ _ _)) with (skel (pset_table (alter (pset_state x) cur (ptable s1)) s1)).
  rewrite skel_set_state. cbn [cpus nextpid pset_table]. split.
  - apply leave_cpu; [rewrite Hcp, Hnp; exact Hp1 | done | done | done].
  - destruct (sk_cpu _ _ _ Hp c cur) as [pid Hi]; [congruence|].
    destruct (woken_lookup_l _ _ _ _ _ Hw Hi) as (st & Hi1 & [->|[? _]]); [|done].
    rewrite (alter_slot _ _ _ _ _ Hi1). split.
    + rewrite length_insert. by rewrite (Forall2_length _ _ _ Hw).
    + intros j a b Ha Hb. apply list_lookup_insert_Some in Hb as [(-> & <- & _)|[_ Hb]].
      * rewrite Hi in Ha. by simplify_eq.
      * pose proof (Forall2_lookup_lr _ _ _ _ _ _ Hw Ha Hb) as [_ [->|[-> ->]]]; [by left | edge].
Qed.

Lemma Keeps_dup_files np fd files : Keeps (dup_files np fd files : SR (pst E) unit).
Proof.
  revert fd. induction files as [|[f|] files IH]; intros fd; cbn.
  - apply Keeps_ret.
  - apply Keeps_bind; [apply Keeps_envr|]. intros _. apply Keeps_bind; [by apply Keeps_upd|]. intros _. apply IH.
  - apply IH.
Qed.

Lemma Keeps_close_files cur fd files : Keeps (close_files cur fd files : SR (pst E) unit).
Proof.
  revert fd. induction files as [|[f|] files IH]; intros fd; cbn.
  - apply Keeps_ret.
  - apply Keeps_bind; [apply Keeps_envr|]. intros _. apply Keeps_bind; [by apply Keeps_upd|]. intros _. apply IH.
  - apply IH.
Qed.

Lemma Wakes_reparent cur i : Wakes (reparent cur i : SR (pst E) unit).
Proof.
  unfold reparent. apply Wakes_bind; [apply Keeps_Wakes, Keeps_gets|]. intros p.
  case_match; [|apply Keeps_Wakes, Keeps_ret].
  apply Wakes_bind; [apply Keeps_Wakes, Keeps_gets|]. intros ini.
  apply Wakes_bind; [by apply Keeps_Wakes, Keeps_upd|]. intros _.
  case_match; [|apply Keeps_Wakes, Keeps_ret]. destruct ini; apply Wakes_wakeup1.
Qed.

Lemma Wakes_each (body : nat -> SR (pst E) unit) l : (forall i, Wakes (body i)) -> Wakes (m_each body l).
Proof.
  intros H. induction l as [|i l IH]; cbn; [apply Keeps_Wakes, Keeps_ret|].
  apply Wakes_bind; [apply H|]. intros _. apply IH.
Qed.

(** [allocproc] takes an unused slot, or fails leaving it unused. *)
Lemma allocproc_sk s o s' :
  nextpid s < 2 ^ 31 - 1 -> pinv s -> allocproc forkret_addr s = Ok (o, s') ->
  cpus s' = cpus s /\
  match o with
  | Some i => nextpid s' = nextpid s + 1 /\ exists pid, skel s !! i = Some (UNUSED, pid) /\
      skel s' = <[i := (EMBRYO, nextpid s)]> (skel s)
  | None => s' = s \/ nextpid s' = nextpid s + 1 /\ exists i pid, skel s !! i = Some (UNUSED, pid) /\
      skel s' = <[i := (UNUSED, nextpid s)]> (skel s)
  end.
Proof.
  intros Hn Hp H. pose proof (sk_next _ _ _ Hp) as Hnp. unfold allocproc in H.
  destruct (find_idx _ (ptable s)) as [i|] eqn:Ei; [|simplify_eq; auto].
  apply find_idx_Some in Ei as [(p & Hi & Hu) _]. apply bool_decide_eq_true in Hu.
  pose proof (nth_proc_skel s i p Hi) as Hsk. rewrite Hu in Hsk.
  set (s1 := mkPst _ _ _ _ _) in H.
  assert (Hs1 : skel s1 = <[i := (EMBRYO, nextpid s)]> (skel s)).
  { unfold skel, s1. cbn. rewrite (map_alter_comm _ _ (fun '(_, _) => (EMBRYO, nextpid s))) by done.
    apply list_eq. intros j. destruct (decide (i = j)) as [->|Hne].
    - change (map _ (ptable s)) with (skel s).
      rewrite list_lookup_alter_eq, Hsk, list_lookup_insert_eq by (by eapply lookup_lt_Some). done.
    - by rewrite list_lookup_alter_ne, list_lookup_insert_ne. }
  assert (Hs1' : cpus s1 = cpus s /\ nextpid s1 = nextpid s + 1).
  { split; [done|]. cbn. apply s32_small. lia. }
  clearbody s1.
  apply sr_bind_ok in H as (k & s2 & E2 & H). apply Keeps_env in E2.
  apply sr_bind_ok in H as ([] & s3 & E3 & H). apply Keeps_upd in E3; [|done..].
  pose proof (keeps_trans _ _ _ E2 E3) as (K1 & K2 & K3).
  destruct (k =? 0).
  - apply sr_bind_ok in H as ([] & s4 & E4 & H). injection E4 as <-. injection H as <- <-.
    change (nextpid (pset_table _ s3)) with (nextpid s3).
    split; [cbn; destruct Hs1'; congruence|]. right. split; [destruct Hs1'; congruence|]. exists i, (p_pid p).
    split; [done|]. rewrite skel_set_state, K1, Hs1.
    rewrite (alter_slot _ _ _ EMBRYO (nextpid s)), list_insert_insert_eq; [done|].
    by rewrite list_lookup_insert_eq by (by eapply lookup_lt_Some).
  - apply sr_bind_ok in H as ([] & s4 & E4 & H). apply Keeps_upd in E4; [|done..]. injection H as <- <-.
    destruct E4 as (L1 & L2 & L3), Hs1' as [J1 J2]. split; [congruence|]. split; [congruence|].
    exists (p_pid p). split; [done|]. congruence.
Qed.

Lemma fork_step s cur r s' :
  nextpid s < 2 ^ 31 - 1 -> pinv s -> fork forkret_addr cur s = Ok (r, s') -> step_ok s s'.
Proof.
  intros Hn Hp H. unfold fork in H. apply sr_bind_ok in H as (o & s1 & E1 & H).
  pose proof (sk_next _ _ _ Hp) as Hnp.
  destruct (allocproc_sk s o s1 Hn Hp E1) as [Hc Ho]. destruct o as [i|].
  2:{ injection H as <- <-. destruct Ho as [->|(Hn1 & i & pid & Hi & Hs)]; [split; [done | apply lives_refl]|].
      split; [|rewrite Hs; eapply lives_insert; [exact Hi | by left]].
      unfold pinv. rewrite Hc, Hn1, Hs. eapply replace_slot; [exact Hp | exact Hi | done | done | done | lia]. }
  destruct Ho as (Hn1 & pid & Hi & Hs).
  assert (Hfin : forall x s2, (x = UNUSED \/ x = RUNNABLE) -> keeps s1 s2 ->
    step_ok s (pset_table (alter (pset_state x) i (ptable s2)) s2)).
  { intros x s2 Hx (K1 & K2 & K3). unfold step_ok, pinv. rewrite skel_set_state, K1, Hs.
    rewrite (alter_slot _ _ _ EMBRYO (nextpid s)), list_insert_insert_eq
      by (by rewrite list_lookup_insert_eq by (by eapply lookup_lt_Some)).
    cbn [cpus nextpid pset_table]. rewrite K2, K3, Hc, Hn1. split.
    - eapply replace_slot; [exact Hp | exact Hi | done | destruct Hx; congruence | | lia].
      intros _. split; [lia|]. right. lia.
    - eapply lives_insert; [exact Hi|]. cbn. destruct Hx as [->| ->]; [by left | edge]. }
  apply sr_bind_ok in H as (c & s2 & E2 & H). injection E2 as <- <-.
  apply sr_bind_ok in H as (pg & s3 & E3 & H). apply Keeps_env in E3.
  apply sr_bind_ok in H as ([] & s4 & E4 & H). apply Keeps_upd in E4; [|done..].
  pose proof (keeps_trans _ _ _ E3 E4) as K4. destruct (pg =? 0).
  - apply sr_bind_ok in H as (p & s5 & E5 & H). injection E5 as <- <-.
    apply sr_bind_ok in H as ([] & s6 & E6 & H). apply Keeps_envr in E6.
    apply sr_bind_ok in H as ([] & s7 & E7 & H). apply Keeps_upd in E7; [|done..].
    apply sr_bind_ok in H as ([] & s8 & E8 & H). injection E8 as <-. injection H as <- <-.
    apply Hfin; [by left|]. eapply keeps_trans; [exact K4|]. by eapply keeps_trans.
  - apply sr_bind_ok in H as ([] & s5 & E5 & H). apply Keeps_upd in E5; [|done..].
    apply sr_bind_ok in H as ([] & s6 & E6 & H). apply Keeps_upd in E6; [|done..].
    apply sr_bind_ok in H as ([] & s7 & E7 & H). apply Keeps_upd in E7; [|done..].
    apply sr_bind_ok in H as ([] & s8 & E8 & H). apply Keeps_dup_files in E8.
    apply sr_bind_ok in H as ([] & s9 & E9 & H).
    assert (K9 : keeps s8 s9).
    { destruct (p_cwd (nth_proc s1 cur)); [|done]. eapply Keeps_bind; [apply Keeps_envr | | exact E9].
      intros []. by apply Keeps_upd. }
    apply sr_bind_ok in H as ([] & s10 & E10 & H). apply Keeps_upd in E10; [|done..].
    apply sr_bind_ok in H as (p & s11 & E11 & H). injection E11 as <- <-.
    apply sr_bind_ok in H as ([] & s12 & E12 & H). injection E12 as <-. injection H as <- <-.
    apply Hfin; [by right|]. repeat (eapply keeps_trans; [eassumption|]). done.
Qed.

Lemma exit_step s c cur r s' :
  pinv s -> cpus s !! c = Some (Some cur) -> exit c cur s = Ok (r, s') -> step_ok s s'.
Proof.
  intros Hp Hc H. unfold exit in H. apply sr_bind_ok in H as (ini & s1 & E1 & H). injection E1 as <- <-.
  case_match; [done|]. apply sr_bind_ok in H as (p & s1 & E1 & H). injection E1 as <- <-.
  apply sr_bind_ok in H as ([] & s2 & E2 & H). apply Keeps_close_files in E2 as (A1 & A2 & A3).
  apply sr_bind_ok in H as ([] & s3 & E3 & H).
  assert (keeps s2 s3) as (B1 & B2 & B3).
  { destruct (p_cwd (nth_proc s cur)); [|done]. by eapply Keeps_envr. }
  apply sr_bind_ok in H as ([] & s4 & E4 & H). apply Keeps_upd in E4 as (C1 & C2 & C3); [|done..].
  apply sr_bind_ok in H as ([] & s5 & E5 & H).
  assert (W5 : Wakes (match p_parent (nth_proc s cur) with Some j => wakeup1 (CProc j) | None => wakeup1 (COther 0) end : SR (pst E) unit))
    by (destruct (p_parent (nth_proc s cur)); apply Wakes_wakeup1).
  apply W5 in E5 as (D1 & D2 & D3).
  apply sr_bind_ok in H as (t & s6 & E6 & H). injection E6 as <- <-.
  apply sr_bind_ok in H as ([] & s7 & E7 & H).
  apply (Wakes_each (reparent cur)) in E7 as (F1 & F2 & F3); [|apply Wakes_reparent].
  eapply (leave_step s s7 s' c cur ZOMBIE); [done | done | | congruence | congruence | done | done | edge | exact H].
  rewrite <-A1, <-B1, <-C1. by eapply woken_trans.
Qed.

Lemma wait_step s c cur r s' :
  pinv s -> cpus s !! c = Some (Some cur) -> wait_turn c cur s = Ok (r, s') -> step_ok s s'.
Proof.
  intros Hp Hc H. unfold wait_turn in H. apply sr_bind_ok in H as (t & s1 & E1 & H). injection E1 as <- <-.
  destruct (find_idx _ (ptable s)) as [i|] eqn:Ei.
  - apply find_idx_Some in Ei as [(p & Hi & Hz) _]. apply andb_prop in Hz as [_ Hz]. apply bool_decide_eq_true in Hz.
    pose proof (nth_proc_skel s i p Hi) as Hsk. rewrite Hz in Hsk.
    apply sr_bind_ok in H as (q & s2 & E2 & H). injection E2 as <- <-.
    apply sr_bind_ok in H as ([] & s3 & E3 & H). apply Keeps_envr in E3.
    apply sr_bind_ok in H as ([] & s4 & E4 & H). apply Keeps_upd in E4; [|done..].
    apply sr_bind_ok in H as ([] & s5 & E5 & H). apply Keeps_envr in E5.
    assert (K : keeps s s5) by (eapply keeps_trans; [eassumption|]; by eapply keeps_trans).
    destruct K as (K1 & K2 & K3).
    apply sr_bind_ok in H as ([] & s6 & E6 & H). injection E6 as <-.
    apply sr_bind_ok in H as ([] & s7 & E7 & H). injection E7 as <-. injection H as <- <-.
    set (f := fun p => pset_killed false (pset_name [] (pset_parent None (pset_pid 0 p)))).
    assert (Hsk' : skel (pset_table (alter (pset_state UNUSED) i (alter f i (ptable s5))) s5) = <[i := (UNUSED, 0)]> (skel s)).
    { unfold skel. cbn [ptable pset_table].
      rewrite (map_alter_comm _ (pset_state UNUSED) (fun '(_, pid) => (UNUSED, pid))) by done.
      rewrite (map_alter_comm _ f (fun '(st, _) => (st, 0))) by done. fold (skel s5). rewrite K1.
      apply list_eq. intros j. destruct (decide (i = j)) as [->|Hne].
      - rewrite !list_lookup_alter_eq, Hsk, list_lookup_insert_eq by (by eapply lookup_lt_Some). done.
      - by rewrite !list_lookup_alter_ne, list_lookup_insert_ne. }
    split.
    + unfold pinv. change (skel _) with (skel (pset_table (alter (pset_state UNUSED) i (alter f i (ptable s5))) s5)).
      rewrite Hsk'. cbn [cpus nextpid pset_table]. rewrite K2, K3.
      eapply replace_slot; [exact Hp | exact Hsk | done | done | done |]. pose proof (sk_next _ _ _ Hp). lia.
    + change (skel (pset_table _ _)) with (skel (pset_table (alter (pset_state UNUSED) i (alter f i (ptable s5))) s5)).
      rewrite Hsk'. eapply lives_insert; [exact Hsk | edge].
  - apply sr_bind_ok in H as (p & s1 & E1 & H). injection E1 as <- <-. case_match.
    + injection H as <- <-. split; [done | apply lives_refl].
    + unfold sleep in H. apply sr_bind_ok in H as ([] & s2 & E2 & H). apply Keeps_upd in E2 as (A1 & A2 & A3); [|done..].
      eapply (leave_step s s2 s' c cur SLEEPING); try done; [rewrite A1; apply woken_refl | edge].
Qed.

Lemma kstep_ok s s' : pinv s -> kstep s s' -> step_ok s s'.
Proof.
  intros Hp Hst. destruct Hst as [c cur r s s' Hc Hn H|c cur r s s' Hc H|c cur r s s' Hc H|c cur r s s' Hc H
    |c cur chan r s s' Hc H|c cur r s s' Hc H|c cur n r s s' Hc H|pid r s s' H|chan r s s' H|c i r s s' Hc Hi H].
  - by eapply fork_step.
  - by eapply exit_step.
  - by eapply wait_step.
  - eapply (leave_step s s s' c cur RUNNABLE); try done; [apply woken_refl | edge].
  - unfold sleep in H. apply sr_bind_ok in H as ([] & s2 & E2 & H). apply Keeps_upd in E2 as (A1 & A2 & A3); [|done..].
    eapply (leave_step s s2 s' c cur SLEEPING); try done; [rewrite A1; apply woken_refl | edge].
  - eapply Wakes_step; [|done|exact H]. by apply Keeps_Wakes, Keeps_upd.
  - eapply Wakes_step; [|done|exact H]. apply Keeps_Wakes. unfold growproc.
    apply Keeps_bind; [apply Keeps_gets|]. intros p. apply Keeps_bind.
    + case_match; [apply Keeps_env|]. case_match; [apply Keeps_env | apply Keeps_ret].
    + intros a. case_match; [apply Keeps_ret|]. apply Keeps_bind; [by apply Keeps_upd|]. intros _. apply Keeps_ret.
  - unfold kill in H. destruct (find_idx _ (ptable s)) as [i|]; [|simplify_eq; split; [done | apply lives_refl]].
    apply sr_bind_ok in H as ([] & s1 & E1 & H). apply Keeps_upd in E1 as (A1 & A2 & A3); [|done..].
    apply sr_bind_ok in H as (p & s2 & E2 & H). injection E2 as <- <-.
    apply sr_bind_ok in H as ([] & s3 & E3 & H). injection H as <- <-.
    destruct (state_eqb _ SLEEPING) eqn:Es; injection E3 as <-.
    + apply woken_step; [done | | done..]. rewrite skel_set_state, <-A1. apply woken_set_state.
      intros st q Hq. apply skel_lookup in Hq as (p & Hpi & [= -> ->]). apply bool_decide_eq_true in Es.
      unfold nth_proc in Es. rewrite Hpi in Es. done.
    + apply woken_step; [done | rewrite A1; apply woken_refl | done..].
  - eapply Wakes_step; [apply Wakes_wakeup1 | done | exact H].
  - unfold scheduler_pick in H. apply sr_bind_ok in H as (p & s1 & E1 & H). injection E1 as <- <-.
    destruct (state_eqb _ RUNNABLE) eqn:Es; cbn [negb] in H.
    2:{ injection H as <- <-. split; [done | apply lives_refl]. }
    apply sr_bind_ok in H as ([] & s2 & E2 & H). injection E2 as <-.
    apply sr_bind_ok in H as ([] & s3 & E3 & H). injection E3 as <-. injection H as <- <-.
    destruct (lookup_lt_is_Some_2 _ _ Hi) as [p Hpi]. apply bool_decide_eq_true in Es.
    unfold nth_proc in Es. rewrite Hpi in Es. cbn in Es.
    pose proof (nth_proc_skel s i p Hpi) as Hsk. rewrite Es in Hsk.
    unfold step_ok, pinv. change (skel (pset_table _ _)) with
      (skel (pset_table (alter (pset_state RUNNING) i (ptable s)) s)).
    rewrite skel_set_state. cbn [cpus nextpid pset_table]. split.
    + by eapply take_cpu.
    + rewrite (alter_slot _ _ _ _ _ Hsk). eapply lives_insert; [exact Hsk | edge].
Qed.

End Steps.

(** ** The parents *)

Section Parents.
Context {E : Type} {pe : ProcEnv E}.
Implicit Types (s : pst E).

Definition parents s : list (option nat) := map p_parent (ptable s).

Definition SameParents {A} (m : SR (pst E) A) : Prop :=
  forall s a s', m s = Ok (a, s') -> parents s' = parents s /\ initproc s' = initproc s.

Lemma SP_bind {A B} (m : SR (pst E) A) (f : A -> SR (pst E) B) :
  SameParents m -> (forall a, SameParents (f a)) -> SameParents (m ≫= f).
Proof.
  intros Hm Hf s b s2 H. apply sr_bind_ok in H as (a & s1 & H1 & H2).
  destruct (Hm _ _ _ H1) as [-> ->] || destruct (Hm _ _ _ H1) as [E1 E2].
  destruct (Hf _ _ _ _ H2) as [E3 E4]. split; congruence.
Qed.

Lemma SP_ret {A} (a : A) : SameParents (mret a).
Proof. intros s b s' [= <- <-]. done. Qed.

Lemma SP_envr (f : E -> result E) : SameParents (m_envr f).
Proof. intros s b s'. unfold m_envr. destruct (f (env s)); intros [= <- <-]. done. Qed.

Lemma SP_upd i f : (forall p, p_parent (f p) = p_parent p) -> SameParents (m_upd i f : SR (pst E) unit).
Proof.
  intros H s b s' [= <- <-]. unfold parents. cbn. split; [|done].
  rewrite (map_alter_comm _ f (fun x => x)); [by apply alter_id_list|]. intros p. by rewrite H.
Qed.

Lemma SP_wakeup1 chan : SameParents (wakeup1 chan : SR (pst E) unit).
Proof.
  intros s a s' [= <- <-]. unfold parents. cbn. rewrite map_map. split; [|done].
  apply map_ext. intros p. by case_match.
Qed.

Lemma SP_close_files cur fd files : SameParents (close_files cur fd files : SR (pst E) unit).
Proof.
  revert fd. induction files as [|[f|] files IH]; intros fd; cbn.
  - apply SP_ret.
  - apply SP_bind; [apply SP_envr|]. intros _. apply SP_bind; [by apply SP_upd|]. intros _. apply IH.
  - apply IH.
Qed.

Lemma parents_lookup s i p : ptable s !! i = Some p -> parents s !! i = Some (p_parent p).
Proof. intros H. unfold parents. by rewrite list_lookup_fmap, H. Qed.

(** The loop of [exit] over the table. *)
Lemma reparent_parents cur i s a s' :
  (i < length (ptable s))%nat -> reparent cur i s = Ok (a, s') ->
  initproc s' = initproc s /\ length (ptable s') = length (ptable s) /\
  parents s' = alter (fun x => if bool_decide (x = Some cur) then initproc s else x) i (parents s).
Proof.
  intros Hi H. unfold reparent in H. apply sr_bind_ok in H as (p & s1 & E1 & H). injection E1 as <- <-.
  destruct (lookup_lt_is_Some_2 _ _ Hi) as [p Hp]. unfold nth_proc in H. rewrite Hp in H. cbn [default] in H.
  pose proof (parents_lookup _ _ _ Hp) as Hpp.
  set (g := fun x : option nat => if bool_decide (x = Some cur) then initproc s else x).
  assert (Hset : forall y, y = g (p_parent p) ->
    map p_parent (alter (pset_parent y) i (ptable s)) = alter g i (parents s)).
  { intros y ->. rewrite (map_alter_comm _ _ (fun _ => g (p_parent p))) by done. fold (parents s).
    apply list_eq. intros j. destruct (decide (i = j)) as [->|Hne].
    - by rewrite !list_lookup_alter_eq, Hpp.
    - by rewrite !list_lookup_alter_ne. }
  case_bool_decide as Hc.
  - apply sr_bind_ok in H as (ini & s2 & E2 & H). injection E2 as <- <-.
    apply sr_bind_ok in H as ([] & s3 & E3 & H). injection E3 as <-.
    assert (Hg : initproc s = g (p_parent p)) by (unfold g; by rewrite bool_decide_true).
    assert (Hlast : parents s' = map p_parent (alter (pset_parent (initproc s)) i (ptable s)) /\
      initproc s' = initproc s /\ length (ptable s') = length (ptable s)).
    { case_match.
      - destruct (initproc s) as [j|] eqn:Ej; pose proof (SP_wakeup1 _ _ _ _ H) as [E5 E6];
          injection H as _ <-; rewrite E5; cbn; rewrite ?length_map, ?length_alter; done.
      - injection H as _ <-. cbn. rewrite length_alter. done. }
    destruct Hlast as (L1 & L2 & L3). split_and!; [done..|]. rewrite L1. by apply Hset.
  - injection H as _ <-. split_and!; [done..|].
    apply list_eq. intros j. destruct (decide (i = j)) as [->|Hne].
    + rewrite list_lookup_alter_eq, Hpp. cbn. unfold g. by rewrite bool_decide_false.
    + by rewrite list_lookup_alter_ne.
Qed.

Lemma reparent_each cur l s a s' :
  NoDup l -> Forall (fun i => (i < length (ptable s))%nat) l -> m_each (reparent cur) l s = Ok (a, s') ->
  initproc s' = initproc s /\ length (ptable s') = length (ptable s) /\
  forall j, parents s' !! j = (fun x => if bool_decide (j ∈ l /\ x = Some cur) then initproc s else x) <$> parents s !! j.
Proof.
  revert s. induction l as [|i l IH]; intros s Hnd Hl H; cbn in H.
  - injection H as _ <-. split_and!; [done..|]. intros j. destruct (parents s !! j); [|done]. cbn.
    rewrite bool_decide_false; [done|]. intros [Hj _]. by apply not_elem_of_nil in Hj.
  - apply sr_bind_ok in H as ([] & s1 & E1 & H). apply list.NoDup_cons in Hnd as [Hni Hnd].
    apply Forall_cons in Hl as [Hi Hl].
    destruct (reparent_parents cur i s tt s1 Hi E1) as (I1 & I2 & I3).
    destruct (IH s1 Hnd) as (J1 & J2 & J3); [by rewrite I2 | done |].
    split_and!; [congruence..|]. intros j. rewrite J3, I1, I3. destruct (decide (i = j)) as [->|Hne].
    + rewrite list_lookup_alter_eq. destruct (parents s !! j) as [x|]; [|done]. cbn. f_equal.
      rewrite (bool_decide_false (j ∈ l /\ _)) by (by intros [? _]).
      do 2 case_bool_decide; try done; exfalso; set_solver.
    + rewrite list_lookup_alter_ne by done. destruct (parents s !! j) as [x|]; [|done]. cbn. f_equal.
      do 2 case_bool_decide; try done; exfalso; set_solver.
Qed.

End Parents.

(** ** Theorems *)

Section Theorems.
Context {E : Type} {pe : ProcEnv E} (forkret_addr : Z).
Implicit Types (s : pst E).


Definition SameAt {A} (j : nat) (m : SR (pst E) A) : Prop :=
  forall s a s', m s = Ok (a, s') -> ptable s' !! j = ptable s !! j.

Lemma SameAt_bind {A B} j (m : SR (pst E) A) (f : A -> SR (pst E) B) :
  SameAt j m -> (forall a, SameAt j (f a)) -> SameAt j (m ≫= f).
Proof.
  intros Hm Hf s b s2 H. apply sr_bind_ok in H as (a & s1 & H1 & H2).
  rewrite (Hf _ _ _ _ H2). by eapply Hm.
Qed.

Lemma SameAt_upd j i f : i <> j -> SameAt j (m_upd i f : SR (pst E) unit).
Proof. intros Hne s a s' [= <- <-]. cbn. by apply list_lookup_alter_ne. Qed.

Lemma SameAt_envr j f : SameAt j (m_envr f : SR (pst E) unit).
Proof. intros s b s'. unfold m_envr. destruct (f (env s)); intros [= <- <-]. done. Qed.

Lemma SameAt_close_files j cur fd files : cur <> j -> SameAt j (close_files cur fd files : SR (pst E) unit).
Proof.
  intros Hne. revert fd. induction files as [|[f|] files IH]; intros fd; cbn.
  - by intros s a s' [= <- <-].
  - apply SameAt_bind; [apply SameAt_envr|]. intros _. apply SameAt_bind; [by apply SameAt_upd|]. intros _. apply IH.
  - apply IH.
Qed.

(** [exit] up to the search for children: it closes the files, gives up the
    directory and wakes the parent if it sleeps in [wait]. *)
Lemma exit_parts s c cur r s' :
  exit c cur s = Ok (r, s') ->
  exists s5 s7, woken (skel s) (skel s5) /\ cpus s5 = cpus s /\ parents s5 = parents s /\ initproc s5 = initproc s /\
    (forall j p, p_parent (nth_proc s cur) = Some j -> ptable s !! j = Some p -> j <> cur ->
       p_state p = SLEEPING -> p_chan p = CProc j -> skel s5 !! j = Some (RUNNABLE, p_pid p)) /\
    m_each (reparent cur) (seq 0 (length (ptable s5))) s5 = Ok (tt, s7) /\
    sched c cur (pset_table (alter (pset_state ZOMBIE) cur (ptable s7)) s7) = Ok (r, s').
Proof.
  intros H. unfold exit in H. apply sr_bind_ok in H as (ini & s1 & E1 & H). injection E1 as <- <-.
  case_match; [done|]. apply sr_bind_ok in H as (p & s1 & E1 & H). injection E1 as <- <-.
  apply sr_bind_ok in H as ([] & s2 & E2 & H). pose proof (Keeps_close_files _ _ _ _ _ _ E2) as (A1 & A2 & A3).
  pose proof (SP_close_files _ _ _ _ _ _ E2) as [P2 I2].
  apply sr_bind_ok in H as ([] & s3 & E3 & H).
  assert ((keeps s2 s3) /\ ptable s3 = ptable s2 /\ initproc s3 = initproc s2) as ((B1 & B2 & B3) & B4 & B5).
  { destruct (p_cwd (nth_proc s cur)); [|done]. split; [by eapply Keeps_envr|].
    unfold m_envr in E3. destruct (e_iput n (env s2)); [|done|done]. cbn in E3. injection E3 as <-. done. }
  apply sr_bind_ok in H as ([] & s4 & E4 & H). pose proof E4 as E4'. pose proof E4 as E4''.
  apply Keeps_upd in E4 as (C1 & C2 & C3); [|done..]. apply SP_upd in E4' as [P4 I4]; [|done].
  apply sr_bind_ok in H as ([] & s5 & E5 & H).
  assert (Wakes (match p_parent (nth_proc s cur) with Some j => wakeup1 (CProc j) | None => wakeup1 (COther 0) end : SR (pst E) unit)
    /\ SameParents (match p_parent (nth_proc s cur) with Some j => wakeup1 (CProc j) | None => wakeup1 (COther 0) end : SR (pst E) unit))
    as [W5 SP5] by (destruct (p_parent (nth_proc s cur)); split; first [apply Wakes_wakeup1 | apply SP_wakeup1]).
  pose proof (W5 _ _ _ E5) as (D1 & D2 & D3). pose proof (SP5 _ _ _ E5) as [P5 I5].
  apply sr_bind_ok in H as (t & s6 & E6 & H). injection E6 as <- <-.
  apply sr_bind_ok in H as ([] & s7 & E7 & H).
  apply sr_bind_ok in H as ([] & s8 & E8 & H). injection E8 as <-. exists s5, s7. split_and!; try done; try congruence.
  - rewrite P5, P4. transitivity (parents s2); [unfold parents; by rewrite B4 | done].
  - intros j pj Hpar Hj Hne Hsl Hch. rewrite Hpar in E5.
    assert (Hj4 : ptable s4 !! j = Some pj).
    { rewrite (SameAt_upd j cur _ ltac:(congruence) _ _ _ E4''), B4.
      by rewrite (SameAt_close_files j cur _ _ ltac:(congruence) _ _ _ E2). }
    injection E5 as <-. unfold skel. cbn. rewrite map_map. rewrite list_lookup_fmap, Hj4. cbn.
    unfold state_eqb. rewrite bool_decide_true, bool_decide_true by done. done.
Qed.

(** C19: exiting.  [exit] of a process other than init leaves it a zombie off
    its processor; each of its children now has init as parent and the others
    keep theirs; and its parent, if it sleeps in [wait], is made runnable, so
    that the exit is not missed. *)
Theorem exit_hands_over s c cur r s' :
  pinv s -> cpus s !! c = Some (Some cur) -> exit c cur s = Ok (r, s') ->
  r = Off /\ (exists pid, skel s' !! cur = Some (ZOMBIE, pid)) /\ cpus s' !! c = Some None /\
  (forall j, parents s' !! j = (fun x => if bool_decide (x = Some cur) then initproc s else x) <$> parents s !! j) /\
  (forall j p, p_parent (nth_proc s cur) = Some j -> ptable s !! j = Some p -> j <> cur ->
     p_state p = SLEEPING -> p_chan p = CProc j -> exists pid, skel s' !! j = Some (RUNNABLE, pid)).
Proof.
  intros Hp Hc H. destruct (sk_cpu _ _ _ Hp c cur Hc) as [pid0 Hcur].
  destruct (exit_parts _ _ _ _ _ H) as (s5 & s7 & W5 & C5 & P5 & I5 & K5 & E7 & Hs). clear H.
  pose proof (Wakes_each (reparent cur) _ (Wakes_reparent cur) _ _ _ E7) as (F1 & F2 & F3).
  destruct (reparent_each cur (seq 0 (length (ptable s5))) s5 tt s7) as (G1 & G2 & G3);
    [apply NoDup_seq | apply Forall_forall; intros i Hi; apply elem_of_seq in Hi; lia | done |].
  unfold sched in Hs. apply sr_bind_ok in Hs as (q & s9 & E9 & H). injection E9 as <- <-.
  destruct (state_eqb _ RUNNING); [done|]. apply sr_bind_ok in H as ([] & s10 & E10 & H). injection E10 as <-. injection H as <- <-.
  change (skel (mkPst _ _ _ _ _)) with (skel (pset_table (alter (pset_state ZOMBIE) cur (ptable s7)) s7)).
  rewrite skel_set_state. split_and!; [done | | | |].
  - destruct (woken_lookup_l _ _ _ _ _ (woken_trans _ _ _ W5 F1) Hcur) as (st & Hst & _). exists pid0.
    by rewrite list_lookup_alter_eq, Hst.
  - cbn. rewrite list_lookup_insert_eq; [done|]. rewrite F2, C5. by eapply lookup_lt_Some.
  - intros j. unfold parents at 1. cbn [ptable pset_table].
    rewrite (map_alter_comm _ _ (fun x => x)), alter_id_list by done. fold (parents s7). rewrite G3, P5, I5.
    destruct (parents s !! j) as [x|] eqn:Ex; [|done]. cbn. f_equal.
    assert (Hin : j ∈ seq 0 (length (ptable s5))).
    { apply elem_of_seq. apply lookup_lt_Some in Ex. rewrite <-P5 in Ex. unfold parents in Ex. rewrite length_map in Ex. lia. }
    by rewrite (bool_decide_ext (j ∈ seq 0 (length (ptable s5)) /\ x = Some cur) (x = Some cur)) by tauto.
  - intros j pj Hpar Hj Hne Hsl Hch.
    destruct (woken_lookup_l _ _ _ _ _ F1 (K5 j pj Hpar Hj Hne Hsl Hch)) as (st & Hst & [->|[? _]]); [|done].
    exists (p_pid pj). by rewrite list_lookup_alter_ne by congruence.
Qed.

(** Waiting.  One turn of [wait] reaps the first zombie child, returning
    its id and making its slot unused, without touching another slot; it
    returns -1 when there is no child or the process is killed; otherwise the
    process sleeps on its own channel, where [exit] of a child wakes it. *)
Lemma wait_outcomes s c cur :
  (forall k e, exists e', e_kfree k e = Ok e') -> (forall k e, exists e', e_freevm k e = Ok e') ->
  (cur < length (ptable s))%nat ->
  exists r s', wait_turn c cur s = Ok (r, s') /\
  match find_idx (fun p => is_child cur p && state_eqb (p_state p) ZOMBIE) (ptable s) with
  | Some i => exists p, ptable s !! i = Some p /\ p_parent p = Some cur /\ p_state p = ZOMBIE /\ r = On (p_pid p) /\
      (exists p', ptable s' !! i = Some p' /\ p_state p' = UNUSED /\ p_pid p' = 0 /\ p_parent p' = None /\
         p_killed p' = false) /\
      (forall j, j <> i -> ptable s' !! j = ptable s !! j)
  | None =>
      if negb (existsb (is_child cur) (ptable s)) || p_killed (nth_proc s cur) then r = On (-1) /\ s' = s
      else r = Off /\ exists p', ptable s' !! cur = Some p' /\ p_state p' = SLEEPING /\ p_chan p' = CProc cur
  end.
Proof.
  intros Hkf Hfv Hlt. unfold wait_turn. rewrite (sr_bind_run (sr_gets ptable) _ s (ptable s) s) by done.
  destruct (find_idx _ (ptable s)) as [i|] eqn:Ei.
  - apply find_idx_Some in Ei as [(p & Hi & Hz) _]. apply andb_prop in Hz as [Hch Hz].
    apply bool_decide_eq_true in Hz, Hch.
    assert (Hmp : m_proc i s = Ok (p, s)) by (unfold m_proc, sr_gets, nth_proc; by rewrite Hi).
    rewrite (sr_bind_run _ _ _ _ _ Hmp). cbv zeta. destruct (Hkf (p_kstack p) (env s)) as [e1 He1].
    rewrite (sr_bind_run (m_envr (e_kfree (p_kstack p))) _ s tt (mkPst (ptable s) (nextpid s) (initproc s) (cpus s) e1))
      by (unfold m_envr; by rewrite He1).
    rewrite (sr_bind_run (m_upd i (pset_kstack 0)) _ _ tt _ eq_refl).
    set (s2 := pset_table _ _). destruct (Hfv (p_pgdir p) (env s2)) as [e2 He2].
    rewrite (sr_bind_run (m_envr (e_freevm (p_pgdir p))) _ s2 tt (mkPst (ptable s2) (nextpid s2) (initproc s2) (cpus s2) e2))
      by (unfold m_envr; by rewrite He2).
    eexists _, _. split; [reflexivity|]. exists p. split_and!; try done.
    + cbn. rewrite !list_lookup_alter_eq, Hi. cbn. eauto 10.
    + intros j Hne. cbn. by rewrite !list_lookup_alter_ne by congruence.
  - rewrite (sr_bind_run (m_proc cur) _ s (nth_proc s cur) s) by done. case_match; [by eexists _, _|].
    destruct (lookup_lt_is_Some_2 _ _ Hlt) as [p Hp].
    unfold sleep, sched, mbind, SR_bind, m_proc, sr_gets, m_upd, sr_modify, nth_proc. cbn.
    rewrite !list_lookup_alter_eq, Hp. cbn. eexists _, _. split; [done|]. split; [done|].
    cbn. rewrite !list_lookup_alter_eq, Hp. cbn. eauto.
Qed.

End Theorems.

(** ** A small kernel: memory and files that always succeed *)

#[export] Instance demo_env : ProcEnv nat := {
  e_kalloc e := (4096, e); e_kfree _ e := Ok e; e_setupkvm e := (8192, e); e_inituvm _ e := Ok e;
  e_copyuvm _ _ e := (8192, e); e_allocuvm _ _ n e := (n, e); e_deallocuvm _ _ n e := (n, e);
  e_freevm _ e := Ok e; e_filedup _ e := Ok (S e); e_fileclose _ e := Ok (pred e); e_idup _ e := Ok e;
  e_iput _ e := Ok e; e_namei_root e := (Some 0%nat, e)
}.

(** After [userinit] and the first choice of the scheduler. *)
Definition boot_table : pst nat := mkPst (replicate 4 proc0) 1 None [None; None] 0%nat.
Definition init_running : pst nat :=
  match (_ ← userinit 0; scheduler_pick 0 0) boot_table with Ok (_, s) => s | _ => boot_table end.
(** ... and after init has forked a child, which runs on the other processor. *)
Definition child_running : pst nat :=
  match (_ ← fork 0 0; scheduler_pick 1 1) init_running with Ok (_, s) => s | _ => boot_table end.

Lemma sk_ok_two pid1 pid2 n u v :
  0 < pid1 < n -> 0 < pid2 < n -> pid1 <> pid2 -> n < 2 ^ 31 ->
  sk_ok [(RUNNING, pid1); (RUNNING, pid2); (UNUSED, u); (UNUSED, v)] [Some 0%nat; Some 1%nat] n.
Proof.
  intros H1 H2 Hne Hn.
  assert (L : forall i st pid, [(RUNNING, pid1); (RUNNING, pid2); (UNUSED, u); (UNUSED, v)] !! i = Some (st, pid) ->
    st <> UNUSED -> st = RUNNING /\ (i = 0%nat /\ pid = pid1 \/ i = 1%nat /\ pid = pid2)).
  { intros i st pid Hi Hst. destruct i as [|[|[|[|i]]]]; cbn in Hi; simplify_eq; auto. }
  constructor; [| | lia | | |].
  - intros i j st1 st2 pid Hi Hj S1 S2. apply L in Hi as [_ Hi], Hj as [_ Hj]; [|done..]. lia.
  - intros i st pid Hi S1. apply L in Hi as [_ Hi]; [|done]. lia.
  - intros c i Hc. destruct c as [|[|c]]; cbn in Hc; simplify_eq; cbn; eauto.
  - intros c c' i Hc Hc'. destruct c as [|[|c]], c' as [|[|c']]; cbn in *; simplify_eq; done.
  - intros i pid Hi. apply L in Hi as [_ [[-> _]|[-> _]]]; [exists 0%nat; done | exists 1%nat; done | done].
Defined.

Lemma child_running_inv : pinv child_running.
Proof.
  unfold pinv.
  assert (skel child_running = [(RUNNING, 1); (RUNNING, 2); (UNUSED, 0); (UNUSED, 0)]) as -> by (vm_compute; reflexivity).
  assert (cpus child_running = [Some 0%nat; Some 1%nat]) as -> by (vm_compute; reflexivity).
  assert (nextpid child_running = 3) as -> by (vm_compute; reflexivity).
  apply sk_ok_two; lia.
Defined.


Lemma exit_hands_over_witness :
  exists s', exit 1 1 child_running = Ok (Off, s') /\ exists pid, skel s' !! 1%nat = Some (ZOMBIE, pid).
Proof.
  eexists. split; [vm_compute; reflexivity|].
  apply (exit_hands_over child_running 1 1 Off); [exact child_running_inv | reflexivity | vm_compute; reflexivity].
Defined.

(** [kill(0)] poisons a free slot.  It succeeds although no process has
    the id 0, because unused slots do; the mark is not cleared when the slot
    is taken, so that the next child is born killed. *)
Lemma kill_zero_poisons_next_child :
  exists s1 s2, kill 0 init_running = Ok (0, s1) /\ fork 0 0 s1 = Ok (2, s2) /\
    Forall (fun p => p_state p <> UNUSED -> p_pid p <> 0) (ptable init_running) /\
    exists p, ptable s2 !! 1%nat = Some p /\ p_pid p = 2 /\ p_state p = RUNNABLE /\ p_killed p = true.
Proof.
  eexists _, _. split; [vm_compute; reflexivity|]. split; [vm_compute; reflexivity|]. split.
  - apply (bool_decide_unpack _). vm_compute. exact I.
  - eexists. split; [vm_compute; reflexivity|]. done.
Qed.
