(* ===== verification/Server.v ===== *)
(** The file server of [filesystem/]: [server.c], the client library [mfs.c]
    and the image builder [mkfs.c], with the structures of [ufs.h] and
    [message.h].

    The image is the server's file, a byte for every offset below its length,
    accessed through one file descriptor with a position (a failed [lseek]
    leaves it, a short [read] leaves the rest of the buffer).  Memory that the
    code does not initialise ([malloc], stack objects) is a parameter: [junk k]
    is what the [k]-th such object holds.  An access outside an object of the
    program is a [Panic].  The host is a 64-bit Linux: [int] has 32 bits and
    [size_t] 64.

    What the theorems of [ServerFacts.v] show: writes and reads of a file
    agree, files do not interfere, the allocators never hand out a block or an
    inode twice while the server runs, and where the directory code and a
    restart lose files. *)

From S2P Require Import Prelude Block.

(** * Structures of ufs.h *)

Definition UFS_DIRECTORY : Z := 0.
Definition UFS_REGULAR_FILE : Z := 1.
Definition UFS_BLOCK_SIZE : Z := 4096.
Definition DIRECT_PTRS : Z := 30.

Record inode_t := mkInode {
  type : Z;
  size : Z;
  direct : list Z          (* direct[DIRECT_PTRS], unsigned *)
}.

Definition sizeof_inode : Z := 128.

(** The bytes of an inode, and the inode that 128 bytes are. *)
Definition inode_bytes (nd : inode_t) : list Z :=
  le32 (type nd) ++ le32 (size nd) ++ (direct nd ≫= le32).

Definition inode_of (b : list Z) : inode_t :=
  mkInode (s32 (get32 b 0)) (s32 (get32 b 4))
    ((fun i => get32 b (8 + 4 * i)) <$> seqZ 0 DIRECT_PTRS).

(** A directory entry is kept as its 32 bytes: 28 of name, 4 of inum. *)
Definition sizeof_dir_ent : Z := 32.
Definition entry_inum (de : list Z) : Z := s32 (get32 de 28).

Record super_t := mkSuper {
  inode_bitmap_addr : Z;
  inode_bitmap_len : Z;
  data_bitmap_addr : Z;
  data_bitmap_len : Z;
  inode_region_addr : Z;
  inode_region_len : Z;
  data_region_addr : Z;
  data_region_len : Z;
  num_inodes : Z;
  num_data : Z
}.

Definition sizeof_super : Z := 40.

Definition super_bytes (s : super_t) : list Z :=
  [inode_bitmap_addr s; inode_bitmap_len s; data_bitmap_addr s; data_bitmap_len s;
   inode_region_addr s; inode_region_len s; data_region_addr s; data_region_len s;
   num_inodes s; num_data s] ≫= le32.

Definition super_of (b : list Z) : super_t :=
  let f i := s32 (get32 b (4 * i)) in
  mkSuper (f 0) (f 1) (f 2) (f 3) (f 4) (f 5) (f 6) (f 7) (f 8) (f 9).

(** * The server's state *)

Record srv := mkSrv {
  img : mem;                 (* the bytes of the image file *)
  img_len : Z;
  pos : Z;                   (* the position of fd *)
  super : super_t;
  highest_inode : Z;         (* unsigned *)
  hghst_alloc_dblk : Z;      (* unsigned *)
  mallocs : nat              (* objects with indeterminate contents so far *)
}.

Definition set_img (m : mem) (n p : Z) (s : srv) : srv :=
  mkSrv m n p (super s) (highest_inode s) (hghst_alloc_dblk s) (mallocs s).
Definition set_pos (p : Z) (s : srv) : srv :=
  mkSrv (img s) (img_len s) p (super s) (highest_inode s) (hghst_alloc_dblk s) (mallocs s).
Definition set_super (sp : super_t) (s : srv) : srv :=
  mkSrv (img s) (img_len s) (pos s) sp (highest_inode s) (hghst_alloc_dblk s) (mallocs s).
Definition set_highest_inode (v : Z) (s : srv) : srv :=
  mkSrv (img s) (img_len s) (pos s) (super s) v (hghst_alloc_dblk s) (mallocs s).
Definition set_hghst_alloc_dblk (v : Z) (s : srv) : srv :=
  mkSrv (img s) (img_len s) (pos s) (super s) (highest_inode s) v (mallocs s).
Definition set_mallocs (v : nat) (s : srv) : srv :=
  mkSrv (img s) (img_len s) (pos s) (super s) (highest_inode s) (hghst_alloc_dblk s) v.

(** [n] bytes of memory from [a] on. *)
Definition bytes_at (m : mem) (a n : Z) : list Z := (fun k => m (a + k)) <$> seqZ 0 n.

(** The file after [write] of [l] at [p]: a gap past the end reads as zeros. *)
Definition write_at (m : mem) (len p : Z) (l : list Z) : mem := fun x =>
  if (p <=? x) && (x <? p + Z.of_nat (length l)) then nth (Z.to_nat (x - p)) l 0
  else if (len <=? x) && (x <? p) then 0 else m x.

Definition fsread (addr : Z) (ptr : list Z) (nbytes : Z) : SR srv (Z * list Z) := fun s =>
  (* lseek(fd, addr, SEEK_SET) fails on a negative offset *)
  let a := s32 addr in
  let p := if a <? 0 then pos s else a in
  let n := Z.max 0 (Z.min nbytes (img_len s - p)) in
  if Z.of_nat (length ptr) <? n then Panic "fsread: buffer overflow"
  else Ok ((n, bytes_at (img s) p n ++ drop (Z.to_nat n) ptr), set_pos (p + n) s).

Definition fswrite (addr : Z) (ptr : list Z) (nbytes : Z) : SR srv Z := fun s =>
  let p := u32 addr in
  if Z.of_nat (length ptr) <? nbytes then Panic "fswrite: read past the buffer"
  else
    let l := take (Z.to_nat nbytes) ptr in
    Ok (nbytes, set_img (write_at (img s) (img_len s) p l)
                        (Z.max (img_len s) (if nbytes =? 0 then 0 else p + nbytes)) (p + nbytes) s).

Definition mask (num : Z) : Z := u32 (Z.shiftl 1 (8 * 4 - num mod (8 * 4) - 1)).

Definition bmaddr (start inum : Z) : Z :=
  u32 (u32 (start * UFS_BLOCK_SIZE) + inum / (8 * 4) * 4).

Section Server.
Context (junk : nat -> mem).

(** An object of [n] bytes with indeterminate contents. *)
Definition uninit (n : Z) : SR srv (list Z) := fun s =>
  Ok (bytes_at (junk (mallocs s)) 0 n, set_mallocs (S (mallocs s)) s).

Definition inode_addr (s : srv) (inum : Z) : Z :=
  inode_region_addr (super s) * UFS_BLOCK_SIZE + inum * sizeof_inode.

(** [ind = NULL] only changes the parameter: the caller's object is returned
    as it was. *)
Definition read_inode (inum : Z) (ind : list Z) : SR srv (Z * list Z) :=
  w ← uninit 4;
  sp ← sr_gets super;
  r ← fsread (bmaddr (inode_bitmap_addr sp) (u32 inum)) w 4;
  let ibm := get32 r.2 0 in
  let valid := negb (ibm =? 0) && negb (mask (u32 inum) =? 0) in
  if negb valid then mret (-1, ind)
  else
    addr ← sr_gets (fun s => inode_addr s (u32 inum));
    r ← fsread addr ind sizeof_inode;
    mret (0, r.2).

(** [inode_t *nd = malloc(sizeof(inode_t)); read_inode(inum, nd);] *)
Definition get_inode (inum : Z) : SR srv inode_t :=
  nd ← uninit sizeof_inode;
  r ← read_inode inum nd;
  mret (inode_of r.2).

Definition write_inode (inum : Z) (inode : inode_t) : SR srv unit :=
  addr ← sr_gets (fun s => inode_addr s inum);
  _ ← fswrite addr (inode_bytes inode) sizeof_inode;
  mret tt.

(** [nd->direct[i]]. *)
Definition direct_get (nd : inode_t) (i : Z) : SR srv Z :=
  match direct nd !! Z.to_nat i with
  | Some d => mret d
  | None => sr_panic "direct[] out of bounds"
  end.

Definition direct_set (nd : inode_t) (i v : Z) : inode_t :=
  mkInode (type nd) (size nd) (<[Z.to_nat i := v]> (direct nd)).

Definition inode_dbg (inum : Z) : SR srv unit :=
  _ ← get_inode inum; mret tt.

(** [cnt] iterations of the loop of [dir_dbg]; each reads an entry. *)
Fixpoint dir_dbg_loop (cnt : nat) (d0 i : Z) : SR srv unit :=
  match cnt with
  | O => mret tt
  | S c =>
      de ← uninit sizeof_dir_ent;
      _ ← fsread (u32 (d0 * UFS_BLOCK_SIZE) + i * sizeof_dir_ent) de sizeof_dir_ent;
      dir_dbg_loop c d0 (i + 1)
  end.

(** [ind->size / sizeof(dir_ent_t)] is a division of [size_t]s. *)
Definition dir_dbg (inum : Z) : SR srv unit :=
  ind ← get_inode inum;
  d0 ← direct_get ind 0;
  dir_dbg_loop (Z.to_nat (size ind mod 2 ^ 64 / sizeof_dir_ent)) d0 0.

(** [strcmp(de->name, name) == 0]: the bytes from [de->name] on start with
    those of [name] and its terminator. *)
Definition name_eq (de name : list Z) : bool :=
  bool_decide (take (length name + 1) de = name ++ [0]).

Fixpoint lookup_entries (cnt : nat) (d j : Z) (name de : list Z) : SR srv (option (list Z * Z)) :=
  match cnt with
  | O => mret None
  | S c =>
      let deaddr := u32 (u32 (d * UFS_BLOCK_SIZE) + j * sizeof_dir_ent) in
      r ← fsread deaddr de sizeof_dir_ent;
      if name_eq r.2 name && negb (entry_inum r.2 =? -1) then mret (Some (r.2, deaddr))
      else lookup_entries c d (j + 1) name r.2
  end.

(** The loop over the direct blocks: past the 30th it leaves the inode, so the
    fuel of 31 that [lookup_file] gives is enough. *)
Fixpoint lookup_blocks (fuel : nat) (nd : inode_t) (i mxb : Z) (name : list Z) :
    SR srv (option (list Z * Z)) :=
  match fuel with
  | O => mret None
  | S f =>
      if i <? mxb then
        d ← direct_get nd i;
        de ← uninit sizeof_dir_ent;
        r ← lookup_entries (Z.to_nat (UFS_BLOCK_SIZE / sizeof_dir_ent)) d 0 name de;
        match r with
        | Some x => mret (Some x)
        | None => lookup_blocks f nd (i + 1) mxb name
        end
      else mret None
  end.

(** Returns the entry and its address. *)
Definition lookup_file (pinum : Z) (name : list Z) : SR srv (option (list Z * Z)) :=
  nd ← get_inode pinum;
  if negb (type nd =? UFS_DIRECTORY) then mret None
  else
    let mxb := u32 ((size nd + UFS_BLOCK_SIZE - 1) / UFS_BLOCK_SIZE) in
    lookup_blocks 31 nd 0 mxb name.

Definition alloc_dblk : SR srv Z :=
  sp ← sr_gets super;
  h ← sr_gets hghst_alloc_dblk;
  if h =? u32 (data_region_len sp - 1) then mret (-1)
  else
    let h := u32 (h + 1) in
    _ ← sr_modify (set_hghst_alloc_dblk h);
    let dbtaddr := bmaddr (data_bitmap_addr sp) h in
    w ← uninit 4;
    r ← fsread dbtaddr w 4;
    let bits := Z.lor (get32 r.2 0) (mask h) in
    _ ← fswrite dbtaddr (le32 bits) 4;
    mret (s32 (data_region_addr sp + h)).

Definition new_inode (ty : Z) : SR srv Z :=
  sp ← sr_gets super;
  h ← sr_gets highest_inode;
  if h =? u32 (num_inodes sp - 1) then mret (-1)
  else
    let h := u32 (h + 1) in
    _ ← sr_modify (set_highest_inode h);
    w ← uninit 4;
    r ← fsread (bmaddr (inode_bitmap_addr sp) h) w 4;
    let bits := Z.lor (get32 r.2 0) (mask h) in
    _ ← fswrite (bmaddr (inode_bitmap_addr sp) h) (le32 bits) 4;
    (* write in inode table *)
    let newnd := mkInode ty 0 (replicate 30 (u32 (-1))) in
    addr ← sr_gets (fun s => inode_addr s h);
    _ ← fswrite addr (inode_bytes newnd) sizeof_inode;
    mret (s32 h).

(** The loop that fills [direct[d]], [direct[d-1]], ... while they are unused;
    [None] is the [return -1]. *)
Fixpoint fill_direct (fuel : nat) (fnd : inode_t) (d : Z) : SR srv (option inode_t) :=
  match fuel with
  | O => mret (Some fnd)
  | S f =>
      if d <? 0 then mret (Some fnd)
      else
        v ← direct_get fnd d;
        if v =? u32 (-1) then
          ndb ← alloc_dblk;
          if u32 ndb =? u32 (-1) then mret None
          else fill_direct f (direct_set fnd d (u32 ndb)) (d - 1)
        else mret (Some fnd)
  end.

Definition write_file (inum : Z) (buf : list Z) (offset nbytes ty : Z) : SR srv Z :=
  fnd ← get_inode inum;
  if negb (type fnd =? ty) then mret (-1)
  else
    _ ← inode_dbg inum;
    let ofd := offset / UFS_BLOCK_SIZE in
    if DIRECT_PTRS - 1 <? ofd then mret (-1)
    else
      let ofr := offset mod UFS_BLOCK_SIZE in
      let offree := UFS_BLOCK_SIZE - ofr in
      filled ← fill_direct (Z.to_nat ofd + 1) fnd ofd;
      match filled with
      | None => mret (-1)
      | Some fnd =>
          _ ← write_inode inum fnd;
          written ←
            (if u32 nbytes <=? offree then
               d ← direct_get fnd ofd;
               _ ← fswrite (u32 (d * UFS_BLOCK_SIZE) + ofr) buf nbytes;
               mret (Some fnd)
             else if ofd =? DIRECT_PTRS - 1 then mret None
             else
               ndb ← alloc_dblk;
               if ndb =? -1 then mret None
               else
                 let fnd := direct_set fnd (ofd + 1) (u32 ndb) in
                 d ← direct_get fnd ofd;
                 _ ← fswrite (u32 (d * UFS_BLOCK_SIZE) + ofr) buf offree;
                 d1 ← direct_get fnd (ofd + 1);
                 _ ← fswrite (u32 (d1 * UFS_BLOCK_SIZE)) (drop (Z.to_nat offree) buf) (u32 (nbytes - offree));
                 mret (Some fnd));
          match written with
          | None => mret (-1)
          | Some fnd =>
              (* offset is unsigned: the comparison and the sum are *)
              let nsize := if u32 (size fnd) <? u32 (offset + nbytes) then u32 (offset + nbytes)
                           else u32 (size fnd) in
              _ ← write_inode inum (mkInode (type fnd) (s32 nsize) (direct fnd));
              _ ← inode_dbg inum;
              _ ← (if ty =? UFS_DIRECTORY then dir_dbg inum else mret tt);
              mret 0
          end
      end.

(** Returns the result and the contents of [buf]. *)
Definition read_file (inum : Z) (buf : list Z) (offset nbytes : Z) : SR srv (Z * list Z) :=
  fnd ← get_inode inum;
  _ ← inode_dbg inum;
  let rdb := u32 (offset / UFS_BLOCK_SIZE) in
  if DIRECT_PTRS - 1 <? rdb then mret (-1, buf)
  else
    let rds := u32 (Z.rem offset UFS_BLOCK_SIZE) in
    let rdf := u32 (UFS_BLOCK_SIZE - rds) in
    if u32 nbytes <=? rdf then
      d ← direct_get fnd rdb;
      if d =? u32 (-1) then mret (-1, buf)
      else
        r ← fsread (u32 (d * UFS_BLOCK_SIZE) + rds) buf nbytes;
        mret (0, r.2)
    else if rdb =? DIRECT_PTRS - 1 then mret (-1, buf)
    else
      d ← direct_get fnd rdb;
      d1 ← direct_get fnd (rdb + 1);
      if (d =? u32 (-1)) || (d1 =? u32 (-1)) then mret (-1, buf)
      else
        r ← fsread (u32 (d * UFS_BLOCK_SIZE) + rds) buf rdf;
        r1 ← fsread (u32 (d1 * UFS_BLOCK_SIZE)) (drop (Z.to_nat rdf) r.2) (u32 (nbytes - rdf));
        mret (0, take (Z.to_nat rdf) r.2 ++ r1.2).

(** [strcpy] of [name] to offset [off] of an object: past the object's end it
    would destroy the neighbouring ones. *)
Definition strcpy_into (obj : list Z) (off : Z) (name : list Z) : SR srv (list Z) :=
  if Z.of_nat (length obj) <? off + Z.of_nat (length name) + 1 then sr_panic "strcpy: overflow"
  else mret (splice obj off (name ++ [0])).

(** [for (i = 2; i < 128; i++) db.entries[i].inum = -1;], from [i] on. *)
Fixpoint unused_entries (cnt : nat) (i : Z) (db : list Z) : list Z :=
  match cnt with
  | O => db
  | S c => unused_entries c (i + 1) (put32 db (i * sizeof_dir_ent + 28) (-1))
  end.

(** The new directory's block: [.], [..] and 126 unused entries. *)
Definition new_dir_block (ninum pinum : Z) : SR srv (list Z) :=
  db ← uninit UFS_BLOCK_SIZE;
  db ← strcpy_into db 0 [46];
  let db := put32 db 28 ninum in
  db ← strcpy_into db sizeof_dir_ent [46; 46];
  let db := put32 db (sizeof_dir_ent + 28) pinum in
  mret (unused_entries 126 2 db).

Definition creat_file (pinum ty : Z) (name : list Z) : SR srv Z :=
  (* check if par is dir *)
  pnd ← get_inode pinum;
  if negb (type pnd =? UFS_DIRECTORY) then mret (-1)
  else
    (* check if name already exists *)
    lde ← lookup_file pinum name;
    match lde with
    | Some _ => mret 0
    | None =>
        ninum ← new_inode ty;
        if ninum =? -1 then mret (-1)
        else
          (* if new dir, add . and .. *)
          dir_ok ←
            (if ty =? UFS_DIRECTORY then
               nnd ← get_inode ninum;
               ndb ← alloc_dblk;
               if ndb =? -1 then mret false
               else
                 let nnd := direct_set nnd 0 (u32 ndb) in
                 db ← new_dir_block ninum pinum;
                 _ ← fswrite (s32 (ndb * UFS_BLOCK_SIZE)) db UFS_BLOCK_SIZE;
                 _ ← write_inode ninum (mkInode (type nnd) (2 * sizeof_dir_ent) (direct nnd));
                 mret true
             else mret true);
          if negb dir_ok then mret (-1)
          else
            (* write in parent data *)
            pind ← get_inode pinum;
            de ← uninit sizeof_dir_ent;
            let de := put32 de 28 ninum in
            de ← strcpy_into de 0 name;
            _ ← write_file pinum de (u32 (size pind)) sizeof_dir_ent UFS_DIRECTORY;
            mret 0
    end.

(** [for(i = 0; pnd->direct[i] != -1; i++) if (pnd->direct[i] = blk) break;]:
    the condition is an assignment.  Returns the inode and [i]; past the last
    pointer it leaves the array, so the 31 of [unlink_file] are enough. *)
Fixpoint unlink_scan (fuel : nat) (pnd : inode_t) (blk i : Z) : SR srv (inode_t * Z) :=
  match fuel with
  | O => mret (pnd, i)
  | S f =>
      d ← direct_get pnd i;
      if d =? u32 (-1) then mret (pnd, i)
      else
        let pnd := direct_set pnd i blk in
        if negb (blk =? 0) then mret (pnd, i) else unlink_scan f pnd blk (i + 1)
  end.

Definition unlink_file (pinum : Z) (name : list Z) : SR srv Z :=
  r ← lookup_file pinum name;
  match r with
  | None => mret (-1)
  | Some (de, addr) =>
      refused ←
        (if negb (entry_inum de =? -1) then
           ind ← get_inode (entry_inum de);
           _ ← inode_dbg (entry_inum de);
           if (type ind =? UFS_DIRECTORY) && (2 * sizeof_dir_ent <? size ind mod 2 ^ 64) then mret true
           else
             de ← strcpy_into de 0 [];
             let de := put32 de 28 (-1) in
             _ ← fswrite addr de sizeof_dir_ent;
             mret false
         else mret false);
      if (refused : bool) then mret (-1)
      else
        (* update size *)
        pnd ← get_inode pinum;
        x ← unlink_scan 31 pnd (addr / UFS_BLOCK_SIZE) 0;
        let (pnd, i) := (x : inode_t * Z) in
        let offset := u32 (i * UFS_BLOCK_SIZE + addr mod UFS_BLOCK_SIZE) in
        let nsize := if offset <? u32 (size pnd) then s32 offset else size pnd in
        _ ← write_inode pinum (mkInode (type pnd) nsize (direct pnd));
        _ ← inode_dbg pinum;
        mret 0
  end.

(** Start of the server on the image [m] of length [len]: the globals have
    their initial values, the super block is read. *)
Definition initialize_serv (m : mem) (len : Z) (mallocs : nat) : result (Z * srv) :=
  (sp ← fsread 0 (replicate 40 0) sizeof_super;
   _ ← sr_modify (set_super (super_of sp.2));
   _ ← inode_dbg 0;
   mret 0) (mkSrv m len 0 (mkSuper 0 0 0 0 0 0 0 0 0 0) 0 0 mallocs).

(** * Messages *)

Record message_t := mkMessage {
  m_buf : list Z;         (* buf[4096] *)
  m_name : list Z;        (* name[28] *)
  m_offset : Z;
  m_nbytes : Z;
  m_mtype : Z;
  m_node_num : Z;
  m_msg : Z;              (* enum MFS_OPS *)
  m_st_type : Z;
  m_st_size : Z
}.

Definition MFS_INIT : Z := 0.
Definition MFS_LOOKUP : Z := 1.
Definition MFS_STAT : Z := 2.
Definition MFS_WRITE : Z := 3.
Definition MFS_READ : Z := 4.
Definition MFS_CREAT : Z := 5.
Definition MFS_UNLINK : Z := 6.
Definition MFS_SHUTDOWN : Z := 7.
Definition MFS_FEEDBACK : Z := 8.

(** The bytes up to the first NUL. *)
Fixpoint cstring (l : list Z) : list Z :=
  match l with
  | [] => []
  | c :: l' => if c =? 0 then [] else c :: cstring l'
  end.

(** The string the server reads through [buf_pk.name]: without a NUL in the 28
    bytes it goes on into the fields that follow. *)
Definition name_of (pk : message_t) : list Z :=
  cstring (m_name pk ++ le32 (m_offset pk) ++ le32 (m_nbytes pk) ++ le32 (m_mtype pk)
           ++ le32 (m_node_num pk) ++ le32 (m_msg pk) ++ le32 (m_st_type pk) ++ le32 (m_st_size pk)).

Definition with_node_num (v : Z) (m : message_t) : message_t :=
  mkMessage (m_buf m) (m_name m) (m_offset m) (m_nbytes m) (m_mtype m) v (m_msg m) (m_st_type m) (m_st_size m).
Definition with_msg (v : Z) (m : message_t) : message_t :=
  mkMessage (m_buf m) (m_name m) (m_offset m) (m_nbytes m) (m_mtype m) (m_node_num m) v (m_st_type m) (m_st_size m).
Definition with_st (ty sz : Z) (m : message_t) : message_t :=
  mkMessage (m_buf m) (m_name m) (m_offset m) (m_nbytes m) (m_mtype m) (m_node_num m) (m_msg m) ty sz.
Definition with_buf (b : list Z) (m : message_t) : message_t :=
  mkMessage b (m_name m) (m_offset m) (m_nbytes m) (m_mtype m) (m_node_num m) (m_msg m) (m_st_type m) (m_st_size m).

(** What one iteration of the server's loop ends in; [rx_pk] keeps its other
    fields from one request to the next. *)
Inductive served :=
| Reply (rx : message_t)        (* the loop continues *)
| Exit (rx : message_t)         (* replied, then exit(0) *)
| Invalid.                      (* run_udp returns -1 *)

(** The body of [run_udp]'s loop for the packet [pk]. *)
Definition serve (pk rx : message_t) : SR srv served :=
  let feedback v rx := Reply (with_msg MFS_FEEDBACK (with_node_num v rx)) in
  if m_msg pk =? MFS_LOOKUP then
    de ← lookup_file (m_node_num pk) (name_of pk);
    mret (feedback (match de with Some (de, _) => entry_inum de | None => -1 end) rx)
  else if m_msg pk =? MFS_STAT then
    ind ← get_inode (m_node_num pk);
    mret (feedback 0 (with_st (type ind) (size ind) rx))
  else if m_msg pk =? MFS_WRITE then
    rc ← write_file (m_node_num pk) (m_buf pk) (u32 (m_offset pk)) (m_nbytes pk) UFS_REGULAR_FILE;
    mret (feedback rc rx)
  else if m_msg pk =? MFS_READ then
    r ← read_file (m_node_num pk) (m_buf rx) (m_offset pk) (m_nbytes pk);
    mret (feedback r.1 (with_buf r.2 rx))
  else if m_msg pk =? MFS_CREAT then
    rc ← creat_file (m_node_num pk) (m_mtype pk) (name_of pk);
    mret (feedback rc rx)
  else if m_msg pk =? MFS_UNLINK then
    rc ← unlink_file (m_node_num pk) (name_of pk);
    mret (feedback rc rx)
  else if m_msg pk =? MFS_SHUTDOWN then mret (Exit (with_msg MFS_FEEDBACK rx))
  else if m_msg pk =? MFS_FEEDBACK then mret (Reply (with_msg MFS_FEEDBACK rx))
  else mret Invalid.

(** [run_udp] on the packets that arrive ([None]: [UDP_Read] failed): the
    replies sent, and the result if the loop ended. *)
Fixpoint run_udp (pks : list (option message_t)) (rx : message_t) : SR srv (list message_t * option Z) :=
  match pks with
  | [] => mret ([], None)
  | None :: pks' => run_udp pks' rx
  | Some pk :: pks' =>
      o ← serve pk rx;
      match o with
      | Reply rx' => r ← run_udp pks' rx'; mret (rx' :: r.1, r.2)
      | Exit rx' => mret ([rx'], Some 0)
      | Invalid => mret ([], Some (-1))
      end
  end.

(** * The client library, mfs.c

    The network is the list of what happens to each attempt of
    [Server_To_Client]; the sockets' return codes [sd] and [rc] are
    parameters.  The loop never gives up: when the list of attempts is
    exhausted the client is still waiting. *)

Inductive attempt :=
| RequestLost        (* the server does not see it: select times out *)
| ReplyLost          (* served, but the answer does not arrive in time *)
| BadRead            (* served, select reports data, UDP_Read fails *)
| Delivered.         (* served and answered *)

(** Server and client together; the server's [rx_pk] is part of its state. *)
Record net := mkNet { n_srv : srv; n_rx : message_t; n_up : bool }.

(** The server handles one packet; once it has left its loop it handles none. *)
Definition deliver (pk : message_t) : SR net (option message_t) := fun n =>
  if negb (n_up n) then Ok (None, n)
  else
    match serve pk (n_rx n) (n_srv n) with
    | Ok (Reply rx, s) => Ok (Some rx, mkNet s rx true)
    | Ok (Exit rx, s) => Ok (Some rx, mkNet s rx false)
    | Ok (Invalid, s) => Ok (None, mkNet s (n_rx n) false)
    | Panic msg => Panic msg
    | Sleeps ch => Sleeps ch
    end.

Fixpoint send_loop (tries : list attempt) (send : message_t) : SR net message_t :=
  match tries with
  | [] => fun _ => Sleeps "select"
  | RequestLost :: tries' => send_loop tries' send
  | ReplyLost :: tries' | BadRead :: tries' => _ ← deliver send; send_loop tries' send
  | Delivered :: tries' =>
      r ← deliver send;
      match r with
      | Some m => mret m
      | None => send_loop tries' send
      end
  end.

(** [None] is the return value -1; the receive buffer is only written on
    success. *)
Definition Server_To_Client (sd rc : Z) (tries : list attempt) (send : message_t) : SR net (option message_t) :=
  if sd <? -1 then mret None
  else if rc <? 0 then mret None
  else m ← send_loop tries send; mret (Some m).

(** [strcpy(send.name, name)]: a name of 28 characters puts its NUL into the
    low byte of [offset]. *)
Definition msg_strcpy (name : list Z) (m : message_t) : SR net message_t :=
  if Z.of_nat (length name) <=? 27 then
    mret (mkMessage (m_buf m) (splice (m_name m) 0 (name ++ [0])) (m_offset m) (m_nbytes m) (m_mtype m)
            (m_node_num m) (m_msg m) (m_st_type m) (m_st_size m))
  else if Z.of_nat (length name) =? 28 then
    mret (mkMessage (m_buf m) name (s32 (Z.land (u32 (m_offset m)) (Z.lnot 255))) (m_nbytes m) (m_mtype m)
            (m_node_num m) (m_msg m) (m_st_type m) (m_st_size m))
  else sr_panic "strcpy: overflow".

Section Client.
(** [working] is set by [MFS_Init]; [junk_msg] is the uninitialised [send]. *)
Context (working : bool) (sd rc : Z) (junk_msg : message_t).

Definition MFS_Lookup (tries : list attempt) (pinum : Z) (name : list Z) : SR net Z :=
  if 28 <? Z.of_nat (length name) then mret (-1)
  else
    send ← msg_strcpy name (with_node_num pinum junk_msg);
    let send := with_msg MFS_LOOKUP send in
    if negb working then mret (-1)
    else
      r ← Server_To_Client sd rc tries send;
      mret (match r with Some m => m_node_num m | None => -1 end).

(** The result and the stat, when it is filled in. *)
Definition MFS_Stat (tries : list attempt) (inum : Z) : SR net (Z * option (Z * Z)) :=
  let send := with_node_num inum (with_msg MFS_STAT junk_msg) in
  if negb working then mret (-1, None)
  else
    r ← Server_To_Client sd rc tries send;
    mret (match r with
          | None => (-1, None)
          | Some m => if m_node_num m =? -1 then (-1, None) else (0, Some (m_st_type m, m_st_size m))
          end).

Definition MFS_Write (tries : list attempt) (inum : Z) (buffer : mem) (offset nbytes : Z) : SR net Z :=
  if (offset <? 0) || (4096 <? nbytes) then mret (-1)
  else
    let send := mkMessage (bytes_at buffer 0 4096) (m_name junk_msg) offset nbytes (m_mtype junk_msg)
                  inum MFS_WRITE (m_st_type junk_msg) (m_st_size junk_msg) in
    if negb working then mret (-1)
    else
      r ← Server_To_Client sd rc tries send;
      mret (match r with Some m => m_node_num m | None => -1 end).

(** Returns the result and the new contents of [buffer]. *)
Definition MFS_Read (tries : list attempt) (inum : Z) (buffer : mem) (offset nbytes : Z) : SR net (Z * mem) :=
  if (offset <? 0) || (4096 <? nbytes) then mret (-1, buffer)
  else
    let send := mkMessage (m_buf junk_msg) (m_name junk_msg) offset nbytes (m_mtype junk_msg)
                  inum MFS_READ (m_st_type junk_msg) (m_st_size junk_msg) in
    if negb working then mret (-1, buffer)
    else
      r ← Server_To_Client sd rc tries send;
      mret (match r with
            | None => (-1, buffer)
            | Some m =>
                (m_node_num m,
                 if m_node_num m =? 0
                 then fun x => if (0 <=? x) && (x <? nbytes) then nth (Z.to_nat x) (m_buf m) 0 else buffer x
                 else buffer)
            end).

Definition MFS_Creat (tries : list attempt) (pinum ty : Z) (name : list Z) : SR net Z :=
  if 28 <? Z.of_nat (length name) then mret (-1)
  else
    let send := mkMessage (m_buf junk_msg) (m_name junk_msg) (m_offset junk_msg) (m_nbytes junk_msg) ty
                  pinum MFS_CREAT (m_st_type junk_msg) (m_st_size junk_msg) in
    send ← msg_strcpy name send;
    if negb working then mret (-1)
    else
      r ← Server_To_Client sd rc tries send;
      mret (match r with Some m => m_node_num m | None => -1 end).

Definition MFS_Unlink (tries : list attempt) (pinum : Z) (name : list Z) : SR net Z :=
  if 28 <? Z.of_nat (length name) then mret (-1)
  else
    send ← msg_strcpy name (with_msg MFS_UNLINK junk_msg);
    let send := with_node_num pinum send in
    if negb working then mret (-1)
    else
      r ← Server_To_Client sd rc tries send;
      mret (match r with Some m => m_node_num m | None => -1 end).

Definition MFS_Shutdown (tries : list attempt) : SR net Z :=
  r ← Server_To_Client sd rc tries (with_msg MFS_SHUTDOWN junk_msg);
  mret (match r with Some _ => 0 | None => -1 end).

End Client.
End Server.

(** * mkfs.c *)

(** Blocks needed for [n] units, [per] to a block. *)
Definition blocks_for (n per : Z) : Z := n / per + (if n mod per =? 0 then 0 else 1).

Definition mkfs_super (num_inodes num_data : Z) : super_t :=
  let bits_per_block := 8 * UFS_BLOCK_SIZE in
  let ib_len := blocks_for num_inodes bits_per_block in
  let db_addr := 1 + ib_len in
  let db_len := blocks_for num_data bits_per_block in
  let ir_addr := db_addr + db_len in
  let ir_len := blocks_for (num_inodes * sizeof_inode) UFS_BLOCK_SIZE in
  mkSuper 1 ib_len db_addr db_len ir_addr ir_len (ir_addr + ir_len) num_data num_inodes num_data.

Definition total_blocks (s : super_t) : Z :=
  1 + inode_bitmap_len s + data_bitmap_len s + inode_region_len s + data_region_len s.

(** The file under construction: its bytes and its length. *)
Definition pwrite (f : mem * Z) (l : list Z) (off : Z) : mem * Z :=
  (write_at f.1 f.2 off l, Z.max f.2 (off + Z.of_nat (length l))).

(** [for (i = 1; i < total_blocks; i++) pwrite(zeroes)], from [i] on. *)
Fixpoint mkfs_zero (cnt : nat) (i : Z) (f : mem * Z) : mem * Z :=
  match cnt with
  | O => f
  | S c => mkfs_zero c (i + 1) (pwrite f (replicate 4096 0) (i * UFS_BLOCK_SIZE))
  end.

Definition mkfs_bitmap : list Z := le32 (Z.shiftl 1 31) ++ replicate 4092 0.

Definition mkfs_root (s : super_t) : inode_t :=
  mkInode UFS_DIRECTORY (2 * sizeof_dir_ent) (data_region_addr s :: replicate 29 (u32 (-1))).

(** [main] for [mkfs -i num_inodes -d num_data -f image]; [junk_itable] and
    [junk_block] are the uninitialised stack objects [itable] and [parent].
    [None]: an assertion fails. *)
Definition mkfs (junk_itable junk_block : mem) (num_inodes num_data : Z) : option (mem * Z) :=
  if (num_inodes <? 32) || (num_data <? 32) then None
  else
    let s := mkfs_super num_inodes num_data in
    let f := pwrite (fun _ => 0, 0) (super_bytes s) 0 in
    let f := mkfs_zero (Z.to_nat (total_blocks s - 1)) 1 f in
    let f := pwrite f mkfs_bitmap (inode_bitmap_addr s * UFS_BLOCK_SIZE) in
    let f := pwrite f mkfs_bitmap (data_bitmap_addr s * UFS_BLOCK_SIZE) in
    let itable := splice (bytes_at junk_itable 0 UFS_BLOCK_SIZE) 0 (inode_bytes (mkfs_root s)) in
    let f := pwrite f itable (inode_region_addr s * UFS_BLOCK_SIZE) in
    let parent := bytes_at junk_block 0 UFS_BLOCK_SIZE in
    let parent := splice parent 0 [46; 0] in
    let parent := put32 parent 28 0 in
    let parent := splice parent sizeof_dir_ent [46; 46; 0] in
    let parent := put32 parent (sizeof_dir_ent + 28) 0 in
    let parent := unused_entries 126 2 parent in
    Some (pwrite f parent (data_region_addr s * UFS_BLOCK_SIZE)).
