(* ===== verification/ServerFacts.v ===== *)
(** What the file server of [Server.v] promises.

    [wf] is the invariant of a running server: the regions of the image are
    disjoint and hold all inodes and blocks, each bitmap has exactly the bits
    of the inodes (blocks) handed out so far, and no block belongs to two
    files.  The allocators, [write_file] and [read_file] are proved against
    it. *)

From S2P Require Import Prelude Block Server.

(** * The view of an image *)

(** All of the state but the position of [fd] and the count of objects. *)
Definition core (s : srv) := (img s, img_len s, super s, highest_inode s, hghst_alloc_dblk s).
Definition same (s s' : srv) : Prop := core s' = core s.

Definition NONE : Z := 2 ^ 32 - 1.

Definition word_at (s : srv) (a : Z) : Z := get32 (bytes_at (img s) a 4) 0.
Definition inode_at (s : srv) (inum : Z) : inode_t :=
  inode_of (bytes_at (img s) (inode_addr s inum) sizeof_inode).

(** The layout: bitmaps, inode table and data one after the other. *)
Record geo (sp : super_t) (len : Z) : Prop := {
  g_ib : 1 <= inode_bitmap_addr sp;
  g_db : inode_bitmap_addr sp + inode_bitmap_len sp <= data_bitmap_addr sp;
  g_ir : data_bitmap_addr sp + data_bitmap_len sp <= inode_region_addr sp;
  g_dr : inode_region_addr sp + inode_region_len sp <= data_region_addr sp;
  g_len : (data_region_addr sp + data_region_len sp) * 4096 <= len;
  g_max : len < 2 ^ 31;
  g_ni : num_inodes sp <= inode_bitmap_len sp * 32768;
  g_nt : num_inodes sp * 128 <= inode_region_len sp * 4096;
  g_nd : data_region_len sp <= data_bitmap_len sp * 32768;
  g_dl : 0 <= data_bitmap_len sp;
  g_rl : 0 <= data_region_len sp
}.

(** The bitmap at block [start] has, of its first [n] bits, those up to [h]. *)
Definition bitmap_ok (s : srv) (start n h : Z) : Prop :=
  forall i, 0 <= i < n ->
    Z.testbit (word_at s (start * 4096 + i / 32 * 4)) (31 - i mod 32) = (i <=? h).

(** The block pointers of the files: unused, or a block handed out, and no two
    pointers to the same block. *)
Definition owns (ino : Z -> inode_t) (i k d : Z) : Prop :=
  0 <= k /\ direct (ino i) !! Z.to_nat k = Some d /\ d <> NONE.

Definition pointers_ok (sp : super_t) (hi hd : Z) (ino : Z -> inode_t) : Prop :=
  (forall i k d, 0 <= i <= hi -> owns ino i k d ->
     data_region_addr sp <= d <= data_region_addr sp + hd) /\
  (forall i i' k k' d, 0 <= i <= hi -> 0 <= i' <= hi ->
     owns ino i k d -> owns ino i' k' d -> i = i' /\ k = k').

Record wf (s : srv) : Prop := {
  wf_geo : geo (super s) (img_len s);
  wf_hi : 0 <= highest_inode s < num_inodes (super s);
  wf_hd : 0 <= hghst_alloc_dblk s < data_region_len (super s);
  wf_bytes : mem_ok (img s);
  wf_ibm : bitmap_ok s (inode_bitmap_addr (super s)) (num_inodes (super s)) (highest_inode s);
  wf_dbm : bitmap_ok s (data_bitmap_addr (super s)) (data_region_len (super s)) (hghst_alloc_dblk s);
  wf_ptr : pointers_ok (super s) (highest_inode s) (hghst_alloc_dblk s) (inode_at s)
}.

(** The address of byte [k] of a file, when its block is there, and the byte. *)
Definition place (nd : inode_t) (k : Z) : option Z :=
  match direct nd !! Z.to_nat (k / 4096) with
  | Some d => if d =? NONE then None else Some (d * 4096 + k mod 4096)
  | None => None
  end.

Definition content (s : srv) (inum k : Z) : option Z := img s <$> place (inode_at s inum) k.

(** * Bytes of memory *)

Lemma bytes_at_length m a n : 0 <= n -> length (bytes_at m a n) = Z.to_nat n.
Proof. intros Hn. unfold bytes_at. by rewrite length_fmap, length_seqZ. Qed.

Lemma bytes_at_lookup m a n k :
  0 <= k < n -> bytes_at m a n !! Z.to_nat k = Some (m (a + k)).
Proof.
  intros Hk. unfold bytes_at. rewrite list_lookup_fmap, lookup_seqZ_lt by lia.
  cbn. do 2 f_equal. lia.
Qed.

Lemma get8_bytes_at m a n k : 0 <= k < n -> get8 (bytes_at m a n) k = m (a + k).
Proof. intros Hk. unfold get8. by rewrite nth_lookup_default, bytes_at_lookup. Qed.

Lemma bytes_at_ext m m' a n :
  (forall x, a <= x < a + n -> m' x = m x) -> bytes_at m' a n = bytes_at m a n.
Proof.
  intros H. unfold bytes_at. apply list_fmap_ext. intros i k Hk.
  apply lookup_seqZ in Hk. apply H. lia.
Qed.

Lemma write_at_out m len p l x :
  x < p \/ p + Z.of_nat (length l) <= x -> x < len \/ p <= len -> write_at m len p l x = m x.
Proof.
  intros Ho Hl. unfold write_at.
  destruct (Z.leb_spec p x), (Z.ltb_spec x (p + Z.of_nat (length l))); cbn; try lia;
    destruct (Z.leb_spec len x), (Z.ltb_spec x p); cbn; try done; lia.
Qed.

Lemma write_at_in m len p l k :
  0 <= k < Z.of_nat (length l) -> write_at m len p l (p + k) = nth (Z.to_nat k) l 0.
Proof.
  intros Hk. unfold write_at.
  destruct (Z.leb_spec p (p + k)), (Z.ltb_spec (p + k) (p + Z.of_nat (length l))); cbn; try lia.
  do 2 f_equal. lia.
Qed.

Lemma bytes_at_write m len p l : bytes_at (write_at m len p l) p (Z.of_nat (length l)) = l.
Proof.
  apply list_eq. intros i. destruct (decide (i < length l)%nat) as [Hi|Hi].
  - rewrite <- (Nat2Z.id i), bytes_at_lookup by lia.
    rewrite write_at_in by lia. rewrite nth_lookup_default, !Nat2Z.id.
    by destruct (lookup_lt_is_Some_2 l i Hi) as [v ->].
  - rewrite !lookup_ge_None_2; [done | lia | rewrite bytes_at_length; lia].
Qed.

Lemma write_at_bytes m len p l : mem_ok m -> Forall is_byte l -> mem_ok (write_at m len p l).
Proof.
  intros Hm Hl x. unfold write_at.
  destruct ((p <=? x) && (x <? p + Z.of_nat (length l))).
  - rewrite nth_lookup_default. destruct (l !! _) as [v|] eqn:Hv; cbn; [|split; lia].
    by eapply (proj1 (Forall_lookup _ _)).
  - destruct ((len <=? x) && (x <? p)); [split; lia | apply Hm].
Qed.

(** ** Words *)

Lemma le32_length v : length (le32 v) = 4%nat.
Proof. done. Qed.

Lemma le32_bytes v : Forall is_byte (le32 v).
Proof. unfold le32. rewrite !Forall_cons. auto using u8_range. Qed.

Lemma get32_le32 v : get32 (le32 v) 0 = u32 v.
Proof. rewrite <-le32_value. done. Qed.

Lemma get32_range b off : (forall x, is_byte (get8 b x)) -> 0 <= get32 b off < 2 ^ 32.
Proof.
  intros H. unfold get32. pose proof (H off). pose proof (H (off + 1)).
  pose proof (H (off + 2)). pose proof (H (off + 3)). unfold is_byte in *. lia.
Qed.

(** The words of a list of words. *)
Lemma get32_words (pre : list Z) (ws : list Z) (post : list Z) i w :
  ws !! i = Some w ->
  get32 (pre ++ (ws ≫= le32) ++ post) (Z.of_nat (length pre) + 4 * Z.of_nat i) = u32 w.
Proof.
  revert pre i. induction ws as [|w0 ws IH]; intros pre i Hi; [done|].
  destruct i as [|i]; cbn in Hi.
  - injection Hi as ->. rewrite <-get32_le32.
    assert (forall k, 0 <= k < 4 ->
      get8 (pre ++ ((w :: ws) ≫= le32) ++ post) (Z.of_nat (length pre) + k) = get8 (le32 w) k) as Hg.
    { intros k Hk. unfold get8. rewrite !nth_lookup_default. rewrite lookup_app_r by lia.
      rewrite lookup_app_l; [|cbn; lia]. change ((w :: ws) ≫= le32) with (le32 w ++ (ws ≫= le32)).
      rewrite lookup_app_l; [|cbn; lia]. do 2 f_equal. lia. }
    unfold get32. rewrite Z.mul_0_r, Z.add_0_r.
    rewrite <- (Z.add_0_r (Z.of_nat (length pre))) at 1. rewrite !Hg by lia. done.
  - specialize (IH (pre ++ le32 w0) i Hi). rewrite length_app, le32_length in IH.
    change ((w0 :: ws) ≫= le32) with (le32 w0 ++ (ws ≫= le32)). rewrite <-!app_assoc in *.
    rewrite <-IH. f_equal. lia.
Qed.

(** ** Inodes in memory and on the image *)

Record inode_fits (nd : inode_t) : Prop := {
  if_type : - 2 ^ 31 <= type nd < 2 ^ 31;
  if_size : - 2 ^ 31 <= size nd < 2 ^ 31;
  if_len : length (direct nd) = 30%nat;
  if_dir : forall k d, direct nd !! k = Some d -> 0 <= d < 2 ^ 32
}.

Lemma inode_bytes_words nd : inode_bytes nd = (type nd :: size nd :: direct nd) ≫= le32.
Proof. done. Qed.

Lemma words_length (ws : list Z) : length (ws ≫= le32) = (4 * length ws)%nat.
Proof. induction ws as [|w ws IH]; [done|]. cbn in *. lia. Qed.

Lemma inode_bytes_length nd : length (direct nd) = 30%nat -> length (inode_bytes nd) = 128%nat.
Proof. intros H. rewrite inode_bytes_words, words_length. cbn. lia. Qed.

Lemma inode_bytes_bytes nd : Forall is_byte (inode_bytes nd).
Proof.
  rewrite inode_bytes_words. generalize (type nd :: size nd :: direct nd) as ws. intros ws.
  induction ws as [|w ws IH]; [constructor|]. change ((w :: ws) ≫= le32) with (le32 w ++ (ws ≫= le32)).
  apply Forall_app. split; [apply le32_bytes | done].
Qed.

Lemma inode_of_bytes nd : inode_fits nd -> inode_of (inode_bytes nd) = nd.
Proof.
  intros Hf. destruct Hf as [Ht Hs Hl Hd]. destruct nd as [t sz dir]. cbn [type size direct] in *.
  assert (forall i w, (t :: sz :: dir) !! i = Some w ->
    get32 (inode_bytes (mkInode t sz dir)) (4 * Z.of_nat i) = u32 w) as Hw.
  { intros i w Hi. pose proof (get32_words [] (t :: sz :: dir) [] i w Hi) as H.
    rewrite app_nil_r in H. exact H. }
  unfold inode_of. f_equal.
  - pose proof (Hw 0%nat t eq_refl) as E. change (4 * Z.of_nat 0) with 0 in E. rewrite E, u32_s32. by apply s32_small.
  - pose proof (Hw 1%nat sz eq_refl) as E. change (4 * Z.of_nat 1) with 4 in E. rewrite E, u32_s32. by apply s32_small.
  - apply list_eq. intros i. rewrite list_lookup_fmap.
    destruct (decide (i < 30)%nat) as [Hi|Hi].
    + rewrite lookup_seqZ_lt by (unfold DIRECT_PTRS; lia). cbn.
      destruct (lookup_lt_is_Some_2 dir i) as [d Hd']; [lia|]. rewrite Hd'.
      f_equal. etrans; [|apply u32_small; eauto].
      rewrite <- (Hw (S (S i)) d) by done. f_equal. lia.
    + rewrite lookup_seqZ_ge by (unfold DIRECT_PTRS; lia). cbn.
      symmetry. apply lookup_ge_None_2. lia.
Qed.

Lemma inode_at_fits s inum : mem_ok (img s) -> inode_fits (inode_at s inum).
Proof.
  intros Hm.
  assert (forall b off, (forall x, is_byte (get8 b x)) -> 0 <= get32 b off < 2 ^ 32) as Hr
    by apply get32_range.
  assert (forall x, is_byte (get8 (bytes_at (img s) (inode_addr s inum) sizeof_inode) x)) as Hb.
  { intros x. unfold get8. rewrite nth_lookup_default.
    destruct (bytes_at _ _ _ !! _) as [v|] eqn:Hv; [|split; cbn; lia].
    unfold bytes_at in Hv. rewrite list_lookup_fmap in Hv. apply fmap_Some in Hv as (k & _ & ->). apply Hm. }
  split.
  - apply s32_range.
  - apply s32_range.
  - cbn. rewrite length_fmap, length_seqZ. done.
  - intros k d Hk. cbn in Hk. rewrite list_lookup_fmap in Hk.
    apply fmap_Some in Hk as (i & _ & ->). apply Hr, Hb.
Qed.

Lemma inode_at_ext s s' i :
  super s' = super s ->
  (forall x, inode_addr s i <= x < inode_addr s i + 128 -> img s' x = img s x) ->
  inode_at s' i = inode_at s i.
Proof.
  intros Hs Hx. unfold inode_at, inode_addr in *. rewrite Hs. f_equal. by apply bytes_at_ext.
Qed.

Lemma word_at_ext s s' a :
  (forall x, a <= x < a + 4 -> img s' x = img s x) -> word_at s' a = word_at s a.
Proof. intros H. unfold word_at. f_equal. by apply bytes_at_ext. Qed.

(** * The state under the operations *)

Lemma srv_same_refl s : same s s.
Proof. done. Qed.

Lemma srv_same_trans s1 s2 s3 : same s1 s2 -> same s2 s3 -> same s1 s3.
Proof. unfold same. congruence. Qed.

Lemma same_wf s s' : same s s' -> wf s -> wf s'.
Proof.
  intros Hs [Hg Hhi Hhd Hb Hi Hd Hp]. unfold same, core in Hs. injection Hs as E1 E2 E3 E4 E5.
  split; unfold bitmap_ok, word_at, pointers_ok, owns, inode_at, inode_addr in *;
    rewrite ?E1, ?E2, ?E3, ?E4, ?E5; assumption.
Qed.

Lemma same_inode_at s s' i : same s s' -> inode_at s' i = inode_at s i.
Proof. unfold same, core, inode_at, inode_addr. intros [= -> _ -> _ _]. done. Qed.

Lemma same_globals s s' : same s s' -> super s' = super s /\ highest_inode s' = highest_inode s.
Proof. unfold same, core. by intros [= _ _ -> -> _]. Qed.

Create HintDb srv discriminated.
#[export] Hint Resolve srv_same_refl same_wf : srv.
#[export] Hint Extern 5 (same _ _) => (eapply srv_same_trans; eassumption) : srv.

(** Reading inside the image. *)
Lemma fsread_ok s a buf n :
  0 <= n <= Z.of_nat (length buf) -> 0 <= a -> a + n <= img_len s -> img_len s < 2 ^ 31 ->
  fsread a buf n s = Ok ((n, bytes_at (img s) a n ++ drop (Z.to_nat n) buf), set_pos (a + n) s).
Proof.
  intros Hn Ha Hl Hm. unfold fsread. rewrite (s32_small a) by lia.
  destruct (Z.ltb_spec a 0); [lia|]. rewrite (Z.min_l n) by lia. rewrite Z.max_r by lia.
  destruct (Z.ltb_spec (Z.of_nat (length buf)) n); [lia|]. done.
Qed.

(** Any read leaves the state but for the position. *)
Lemma fsread_quiet s a buf n :
  n <= Z.of_nat (length buf) ->
  exists r s', fsread a buf n s = Ok (r, s') /\ same s s' /\ (length r.2 = length buf).
Proof.
  intros Hn. unfold fsread. set (p := if _ <? 0 then _ else _).
  set (m := Z.max 0 (Z.min n (img_len s - p))).
  destruct (Z.ltb_spec (Z.of_nat (length buf)) m) as [Hb|Hb]; [lia|].
  do 2 eexists. split; [done|]. split; [done|]. cbn.
  rewrite length_app, bytes_at_length, length_drop by lia. lia.
Qed.

(** Writing all of [l] inside the image. *)
Lemma fswrite_ok s a l :
  0 <= a -> a + Z.of_nat (length l) <= img_len s -> img_len s < 2 ^ 31 ->
  exists s', fswrite a l (Z.of_nat (length l)) s = Ok (Z.of_nat (length l), s') /\
    core s' = (write_at (img s) (img_len s) a l, img_len s, super s, highest_inode s, hghst_alloc_dblk s).
Proof.
  intros Ha Hl Hm. unfold fswrite. rewrite (u32_small a) by lia.
  destruct (Z.ltb_spec (Z.of_nat (length l)) (Z.of_nat (length l))); [lia|].
  eexists. split; [done|]. rewrite Nat2Z.id, firstn_all. unfold core. cbn. repeat f_equal.
  destruct (Z.of_nat (length l) =? 0); lia.
Qed.


(** ** Bitmaps *)

Lemma bmaddr_eq start i :
  0 <= start -> 0 <= i -> start * 4096 + i / 32 * 4 < 2 ^ 32 ->
  bmaddr start i = start * 4096 + i / 32 * 4.
Proof.
  intros Hs Hi Hl. unfold bmaddr, UFS_BLOCK_SIZE. change (8 * 4) with 32.
  pose proof (Z.div_pos i 32). rewrite (u32_small (start * 4096)) by lia. apply u32_small. lia.
Qed.

Lemma mask_pow num : mask num = 2 ^ (31 - num mod 32).
Proof.
  unfold mask. change (8 * 4) with 32. pose proof (Z.mod_pos_bound num 32).
  rewrite Z.shiftl_1_l. replace (32 - num mod 32 - 1) with (31 - num mod 32) by lia.
  apply u32_small. split; [apply Z.pow_nonneg; lia | apply Z.pow_lt_mono_r; lia].
Qed.

Lemma lor_mask_range w num : 0 <= w < 2 ^ 32 -> 0 <= Z.lor w (mask num) < 2 ^ 32.
Proof.
  intros Hw. rewrite mask_pow. pose proof (Z.mod_pos_bound num 32).
  assert (0 <= Z.lor w (2 ^ (31 - num mod 32))) as H0.
  { apply Z.lor_nonneg. split; [lia | apply Z.pow_nonneg; lia]. }
  split; [done|]. destruct (decide (Z.lor w (2 ^ (31 - num mod 32)) = 0)) as [->|Hne]; [lia|].
  apply Z.log2_lt_pow2; [lia|]. rewrite Z.log2_lor by lia. rewrite Z.log2_pow2 by lia.
  destruct (decide (w = 0)) as [->|Hw0]; [cbn; lia|].
  assert (Z.log2 w < 32) by (apply Z.log2_lt_pow2; lia). lia.
Qed.

Lemma lor_mask_testbit w num i :
  Z.testbit (Z.lor w (mask num)) (31 - i mod 32) =
  Z.testbit w (31 - i mod 32) || (i mod 32 =? num mod 32).
Proof.
  pose proof (Z.mod_pos_bound num 32). pose proof (Z.mod_pos_bound i 32).
  rewrite mask_pow, Z.lor_spec. f_equal. rewrite Z.pow2_bits_eqb by lia.
  destruct (Z.eqb_spec (31 - num mod 32) (31 - i mod 32)), (Z.eqb_spec (i mod 32) (num mod 32)); lia.
Qed.

Lemma word_at_range s a : mem_ok (img s) -> 0 <= word_at s a < 2 ^ 32.
Proof.
  intros Hm. unfold word_at, get32.
  rewrite !get8_bytes_at by lia. pose proof (Hm (a + 0)). pose proof (Hm (a + (0 + 1))).
  pose proof (Hm (a + (0 + 2))). pose proof (Hm (a + (0 + 3))). unfold is_byte in *. lia.
Qed.

(** Setting bit [h + 1] of a bitmap that has the bits up to [h]. *)
Lemma bitmap_set s s' start n h :
  0 <= h + 1 < n -> bitmap_ok s start n h ->
  word_at s' (start * 4096 + (h + 1) / 32 * 4)
    = Z.lor (word_at s (start * 4096 + (h + 1) / 32 * 4)) (mask (h + 1)) ->
  (forall i, 0 <= i < n -> i / 32 <> (h + 1) / 32 ->
     word_at s' (start * 4096 + i / 32 * 4) = word_at s (start * 4096 + i / 32 * 4)) ->
  bitmap_ok s' start n (h + 1).
Proof.
  intros Hh Hb Hw Ho i Hi. specialize (Hb i Hi).
  destruct (decide (i / 32 = (h + 1) / 32)) as [E|E].
  - rewrite E, Hw, lor_mask_testbit, <-E. rewrite Hb.
    destruct (Z.leb_spec i h), (Z.eqb_spec (i mod 32) ((h + 1) mod 32)), (Z.leb_spec i (h + 1)); cbn; try done; zlia.
  - rewrite Ho by done. rewrite Hb. destruct (Z.leb_spec i h), (Z.leb_spec i (h + 1)); try done; try lia.
    replace i with (h + 1) in E by lia. done.
Qed.

(** ** Inodes *)

Section Facts.
Context (junk : nat -> mem).

Lemma uninit_run n s : exists s', uninit junk n s = Ok (bytes_at (junk (mallocs s)) 0 n, s') /\ same s s'.
Proof. eexists. split; done. Qed.

(** The place of an inode. *)
Lemma inode_addr_bounds s i :
  wf s -> 0 <= i < num_inodes (super s) ->
  (inode_bitmap_addr (super s) + inode_bitmap_len (super s)) * 4096 <= inode_addr s i /\
  (data_bitmap_addr (super s) + data_bitmap_len (super s)) * 4096 <= inode_addr s i /\
  0 <= inode_addr s i /\ inode_addr s i + 128 <= data_region_addr (super s) * 4096 /\
  inode_addr s i + 128 <= img_len s.
Proof.
  intros [[] Hhi Hhd _ _ _ _] Hi. unfold inode_addr, UFS_BLOCK_SIZE, sizeof_inode. lia.
Qed.

Lemma read_inode_run s inum ind :
  wf s -> 0 <= inum <= highest_inode s -> length ind = 128%nat ->
  exists s', read_inode junk inum ind s = Ok ((0, bytes_at (img s) (inode_addr s inum) 128), s') /\ same s s'.
Proof.
  intros Hw Hi Hl. destruct (wf_geo _ Hw) as [? ? ? ? ? ? ? ? ? ? ?].
  pose proof (wf_hi _ Hw). pose proof (inode_addr_bounds s inum Hw ltac:(lia)) as (Ha1 & _ & Ha2 & Ha3 & Ha4).
  unfold read_inode. destruct (uninit_run 4 s) as (s1 & E1 & S1).
  rewrite (sr_bind_run _ _ _ _ _ E1). unfold sr_gets at 1. rewrite (sr_bind_run _ _ _ (super s1) s1) by done.
  pose proof S1 as S1'. unfold same, core in S1'. injection S1' as F1 F2 F3 F4 F5. rewrite F3.
  rewrite (u32_small inum) by lia.
  assert (inum / 32 * 4 + 4 <= inode_bitmap_len (super s) * 4096) by zlia.
  pose proof (Z.div_pos inum 32).
  rewrite (bmaddr_eq _ inum) by lia.
  erewrite sr_bind_run; [|apply fsread_ok; [rewrite bytes_at_length; lia | lia | rewrite F2; lia | rewrite F2; lia]].
  cbn [snd]. rewrite drop_ge, app_nil_r by (rewrite bytes_at_length; lia). rewrite F1.
  change (get32 (bytes_at (img s) ?a 4) 0) with (word_at s a).
  destruct (Z.eqb_spec (word_at s (inode_bitmap_addr (super s) * 4096 + inum / 32 * 4)) 0) as [E|E].
  { pose proof (wf_ibm _ Hw inum ltac:(lia)) as Hb. rewrite E, Z.testbit_0_l in Hb.
    destruct (Z.leb_spec inum (highest_inode s)); [done | lia]. }
  destruct (Z.eqb_spec (mask inum) 0) as [E2|E2].
  { rewrite mask_pow in E2. pose proof (Z.mod_pos_bound inum 32).
    pose proof (Z.pow_pos_nonneg 2 (31 - inum mod 32)). lia. }
  cbn [negb andb]. erewrite sr_bind_run; [|reflexivity].
  erewrite sr_bind_run; [|apply fsread_ok; unfold inode_addr, set_pos, sizeof_inode in *; cbn; rewrite ?F3, ?F2; lia].
  eexists. split.
  - unfold mret, SR_ret. cbn [snd]. rewrite drop_ge, app_nil_r by (unfold sizeof_inode; lia).
    unfold inode_addr, set_pos. cbn. rewrite F1, F3. done.
  - unfold same, core. cbn. by rewrite F2, F4, F5.
Qed.

Lemma get_inode_ok s inum :
  wf s -> 0 <= inum <= highest_inode s ->
  exists s', get_inode junk inum s = Ok (inode_at s inum, s') /\ same s s'.
Proof.
  intros Hw Hi. unfold get_inode. destruct (uninit_run sizeof_inode s) as (s1 & E1 & S1).
  rewrite (sr_bind_run _ _ _ _ _ E1).
  assert (highest_inode s1 = highest_inode s) as Eh by (unfold same, core in S1; congruence).
  destruct (read_inode_run s1 inum (bytes_at (junk (mallocs s)) 0 sizeof_inode)) as (s2 & E2 & S2).
  - eauto with srv.
  - lia.
  - by rewrite bytes_at_length.
  - rewrite (sr_bind_run _ _ _ _ _ E2). exists s2. split; [|eauto with srv].
    unfold mret, SR_ret. cbn [snd]. rewrite <-(same_inode_at s s1 inum S1). done.
Qed.

Lemma inode_dbg_ok s inum :
  wf s -> 0 <= inum <= highest_inode s -> exists s', inode_dbg junk inum s = Ok (tt, s') /\ same s s'.
Proof.
  intros Hw Hi. unfold inode_dbg. destruct (get_inode_ok s inum Hw Hi) as (s1 & E1 & S1).
  rewrite (sr_bind_run _ _ _ _ _ E1). eauto.
Qed.

Lemma dir_dbg_loop_ok cnt d0 i s : exists s', dir_dbg_loop junk cnt d0 i s = Ok (tt, s') /\ same s s'.
Proof.
  revert i s. induction cnt as [|c IH]; intros i s; [by exists s|]. cbn [dir_dbg_loop].
  destruct (uninit_run sizeof_dir_ent s) as (s1 & E1 & S1). rewrite (sr_bind_run _ _ _ _ _ E1).
  destruct (fsread_quiet s1 (u32 (d0 * UFS_BLOCK_SIZE) + i * sizeof_dir_ent)
    (bytes_at (junk (mallocs s)) 0 sizeof_dir_ent) sizeof_dir_ent) as (r & s2 & E2 & S2 & _).
  { rewrite bytes_at_length; unfold sizeof_dir_ent; lia. }
  rewrite (sr_bind_run _ _ _ _ _ E2). destruct (IH (i + 1) s2) as (s3 & E3 & S3).
  exists s3. split; [done|]. eapply srv_same_trans; [|exact S3]. eauto with srv.
Qed.

Lemma direct_get_run s nd k d : direct nd !! Z.to_nat k = Some d -> direct_get nd k s = Ok (d, s).
Proof. unfold direct_get. by intros ->. Qed.

Lemma inode_direct_Some nd k : inode_fits nd -> 0 <= k < 30 -> exists d, direct nd !! Z.to_nat k = Some d /\ 0 <= d < 2 ^ 32.
Proof.
  intros Hf Hk. destruct (lookup_lt_is_Some_2 (direct nd) (Z.to_nat k)) as [d Hd].
  - rewrite (if_len _ Hf). lia.
  - exists d. split; [done|]. by eapply if_dir.
Qed.

Lemma dir_dbg_ok s inum :
  wf s -> 0 <= inum <= highest_inode s -> exists s', dir_dbg junk inum s = Ok (tt, s') /\ same s s'.
Proof.
  intros Hw Hi. unfold dir_dbg. destruct (get_inode_ok s inum Hw Hi) as (s1 & E1 & S1).
  rewrite (sr_bind_run _ _ _ _ _ E1).
  destruct (inode_direct_Some (inode_at s inum) 0) as (d & Hd & _); [apply inode_at_fits, wf_bytes, Hw | lia |].
  rewrite (sr_bind_run _ _ _ _ _ (direct_get_run s1 _ _ _ Hd)).
  destruct (dir_dbg_loop_ok (Z.to_nat (size (inode_at s inum) mod 2 ^ 64 / sizeof_dir_ent)) d 0 s1) as (s2 & E2 & S2).
  exists s2. split; [done | eauto with srv].
Qed.

(** ** Frames: what an operation may change *)

(** Only the data bitmap and the count of blocks handed out change. *)
Record alloc_frame (s s' : srv) : Prop := {
  af_super : super s' = super s;
  af_len : img_len s' = img_len s;
  af_hi : highest_inode s' = highest_inode s;
  af_hd : hghst_alloc_dblk s <= hghst_alloc_dblk s';
  af_img : forall x,
    x < data_bitmap_addr (super s) * 4096 \/ inode_region_addr (super s) * 4096 <= x -> img s' x = img s x
}.

Lemma alloc_frame_trans s1 s2 s3 : alloc_frame s1 s2 -> alloc_frame s2 s3 -> alloc_frame s1 s3.
Proof.
  intros [A1 A2 A3 A4 A5] [B1 B2 B3 B4 B5]. split; try congruence; [lia|].
  intros x Hx. rewrite B5 by (rewrite A1; lia). by apply A5.
Qed.

Lemma same_alloc_frame s s' : same s s' -> alloc_frame s s'.
Proof. unfold same, core. intros [= E1 E2 E3 E4 E5]. split; try done; [lia|]. by rewrite E1. Qed.

Lemma alloc_frame_inode s s' i :
  wf s -> alloc_frame s s' -> 0 <= i < num_inodes (super s) -> inode_at s' i = inode_at s i.
Proof.
  intros Hw Hf Hi. pose proof (wf_geo _ Hw) as []. pose proof (inode_addr_bounds s i Hw Hi).
  apply inode_at_ext; [apply Hf|]. intros x Hx. apply Hf. unfold inode_addr, UFS_BLOCK_SIZE, sizeof_inode in *. lia.
Qed.

(** A write of [l] at [a]. *)
Definition upd (s s' : srv) (a : Z) (l : list Z) : Prop :=
  core s' = (write_at (img s) (img_len s) a l, img_len s, super s, highest_inode s, hghst_alloc_dblk s).

Lemma upd_out s s' a l x :
  upd s s' a l -> a + Z.of_nat (length l) <= img_len s ->
  x < a \/ a + Z.of_nat (length l) <= x -> img s' x = img s x.
Proof. intros [= E1 _ _ _ _] Hl Hx. rewrite E1. apply write_at_out; lia. Qed.

Lemma upd_in s s' a l : upd s s' a l -> bytes_at (img s') a (Z.of_nat (length l)) = l.
Proof. intros [= -> _ _ _ _]. apply bytes_at_write. Qed.

Lemma pointers_ok_ext sp hi hd ino ino' :
  (forall i, 0 <= i <= hi -> ino' i = ino i) -> pointers_ok sp hi hd ino -> pointers_ok sp hi hd ino'.
Proof.
  intros He [H1 H2]. unfold pointers_ok, owns in *. split.
  - intros i k d Hi. rewrite He by done. by apply H1.
  - intros i i' k k' d Hi Hi'. rewrite !He by done. by apply H2.
Qed.

Lemma pointers_ok_grow sp hi hd hd' ino : hd <= hd' -> pointers_ok sp hi hd ino -> pointers_ok sp hi hd' ino.
Proof. intros Hle [H1 H2]. split; [|done]. intros i k d Hi Ho. specialize (H1 i k d Hi Ho). lia. Qed.

(** A write of bytes outside the bitmaps keeps the invariant when the block
    pointers stay right. *)
Lemma upd_wf s s' a l :
  wf s -> upd s s' a l -> Forall is_byte l ->
  inode_region_addr (super s) * 4096 <= a -> a + Z.of_nat (length l) <= img_len s ->
  pointers_ok (super s) (highest_inode s) (hghst_alloc_dblk s) (inode_at s') -> wf s'.
Proof.
  intros Hw Hu Hb Ha Hl Hp. pose proof (fun x => upd_out s s' a l x Hu Hl) as Ho.
  unfold upd, core in Hu. injection Hu as E1 E2 E3 E4 E5.
  destruct Hw as [Hg Hhi Hhd Hm Hi Hd _].
  assert (forall b, b + 4 <= a -> word_at s' b = word_at s b) as Hwd.
  { intros b Hab. apply word_at_ext. intros x Hx. apply Ho. lia. }
  destruct Hg. split; rewrite ?E2, ?E3, ?E4, ?E5; try done.
  - rewrite E1. by apply write_at_bytes.
  - intros i Hin. rewrite Hwd; [by apply Hi | zlia].
  - intros i Hin. rewrite Hwd; [by apply Hd | zlia].
Qed.

Lemma write_inode_ok s inum nd :
  wf s -> 0 <= inum <= highest_inode s -> inode_fits nd ->
  pointers_ok (super s) (highest_inode s) (hghst_alloc_dblk s) (<[inum := nd]> (inode_at s)) ->
  exists s', write_inode inum nd s = Ok (tt, s') /\ wf s' /\ upd s s' (inode_addr s inum) (inode_bytes nd) /\
    (forall i, 0 <= i < num_inodes (super s) -> inode_at s' i = <[inum := nd]> (inode_at s) i).
Proof.
  intros Hw Hi Hf Hp. pose proof (wf_hi _ Hw). pose proof (wf_geo _ Hw) as [].
  pose proof (inode_addr_bounds s inum Hw ltac:(lia)) as (_ & Ha & Ha0 & Ha1 & Ha2).
  pose proof (inode_bytes_length nd (if_len _ Hf)) as Hlen.
  unfold write_inode. unfold sr_gets. erewrite sr_bind_run by done.
  destruct (fswrite_ok s (inode_addr s inum) (inode_bytes nd)) as (s1 & E1 & U1); [lia..|].
  rewrite Hlen in E1. change (Z.of_nat 128) with sizeof_inode in E1.
  rewrite (sr_bind_run _ _ _ _ _ E1). exists s1.
  assert (forall i, 0 <= i < num_inodes (super s) -> inode_at s1 i = <[inum := nd]> (inode_at s) i) as Hin.
  { intros i Hin. pose proof U1 as U2. unfold core in U2. injection U2 as _ _ E3 _ _.
    destruct (decide (i = inum)) as [->|Hne].
    - rewrite fn_lookup_insert. unfold inode_at, inode_addr. rewrite E3.
      pose proof (upd_in s s1 _ _ U1) as Hin'. rewrite Hlen in Hin'.
      etrans; [|exact (inode_of_bytes nd Hf)]. f_equal. exact Hin'.
    - rewrite fn_lookup_insert_ne by done. apply inode_at_ext; [done|].
      intros x Hx. eapply upd_out; [exact U1 | lia |]. rewrite Hlen.
      unfold inode_addr, sizeof_inode in *. lia. }
  split; [done|]. split; [|split; [exact U1 | done]].
  eapply upd_wf; [done | exact U1 | apply inode_bytes_bytes | | lia |].
  - unfold inode_addr, UFS_BLOCK_SIZE, sizeof_inode. lia.
  - eapply pointers_ok_ext; [|exact Hp]. intros i Hin'. apply Hin. lia.
Qed.

(** A write inside the data region leaves every inode. *)
Lemma data_upd_inode s s' a l i :
  wf s -> upd s s' a l -> data_region_addr (super s) * 4096 <= a -> a + Z.of_nat (length l) <= img_len s ->
  0 <= i < num_inodes (super s) -> inode_at s' i = inode_at s i.
Proof.
  intros Hw Hu Ha Hl Hi. pose proof (inode_addr_bounds s i Hw Hi).
  pose proof Hu as [= _ _ E3 _ _]. apply inode_at_ext; [done|].
  intros x Hx. eapply upd_out; [exact Hu | done | lia].
Qed.

(** ** The allocators *)

(** Reading a word of the image, or'ing a bit into it and writing it back. *)
Lemma set_bit_run s a num {B} (f : Z -> SR srv B) :
  mem_ok (img s) -> 0 <= a -> a + 4 <= img_len s -> img_len s < 2 ^ 31 ->
  exists s', upd s s' a (le32 (Z.lor (word_at s a) (mask num))) /\
    (w ← uninit junk 4; r ← fsread a w 4; n ← fswrite a (le32 (Z.lor (get32 r.2 0) (mask num))) 4; f n) s
    = f 4 s'.
Proof.
  intros Hm Ha Hl Hx. destruct (uninit_run 4 s) as (s1 & E1 & S1).
  rewrite (sr_bind_run _ _ _ _ _ E1). unfold same, core in S1. injection S1 as F1 F2 F3 F4 F5.
  erewrite sr_bind_run; [|apply fsread_ok; [rewrite bytes_at_length; lia | lia | rewrite F2; lia | rewrite F2; lia]].
  cbn [snd]. rewrite drop_ge, app_nil_r by (rewrite bytes_at_length; lia). rewrite F1.
  change (get32 (bytes_at (img s) a 4) 0) with (word_at s a).
  destruct (fswrite_ok (set_pos (a + 4) s1) a (le32 (Z.lor (word_at s a) (mask num)))) as (s2 & E2 & U2);
    [lia | cbn; rewrite F2; lia | cbn; rewrite F2; lia |].
  rewrite (sr_bind_run _ _ _ _ _ E2). exists s2. split; [|done].
  unfold upd. rewrite U2. cbn. by rewrite F1, F2, F3, F4, F5.
Qed.

Lemma upd_word s s' a w : upd s s' a (le32 w) -> 0 <= w < 2 ^ 32 -> word_at s' a = w.
Proof.
  intros Hu Hw. unfold word_at. pose proof (upd_in _ _ _ _ Hu) as H. rewrite le32_length in H.
  change (Z.of_nat 4) with 4 in H. rewrite H, get32_le32. by apply u32_small.
Qed.

Lemma upd_word_out s s' a w b :
  upd s s' a (le32 w) -> a + 4 <= img_len s -> b + 4 <= a \/ a + 4 <= b -> word_at s' b = word_at s b.
Proof.
  intros Hu Hl Hb. apply word_at_ext. intros x Hx.
  eapply upd_out; [exact Hu | rewrite le32_length; lia | rewrite le32_length; lia].
Qed.

Lemma alloc_dblk_ok s :
  wf s ->
  exists r s', alloc_dblk junk s = Ok (r, s') /\ wf s' /\ alloc_frame s s' /\
    (r = -1 /\ s' = s /\ hghst_alloc_dblk s = data_region_len (super s) - 1 \/
     r = data_region_addr (super s) + hghst_alloc_dblk s + 1 /\
     hghst_alloc_dblk s' = hghst_alloc_dblk s + 1).
Proof.
  intros Hw. pose proof (wf_geo _ Hw) as []. pose proof (wf_hd _ Hw). pose proof (wf_hi _ Hw).
  unfold alloc_dblk, sr_gets. do 2 (erewrite sr_bind_run by done). rewrite (u32_small (_ - 1)) by lia.
  destruct (Z.eqb_spec (hghst_alloc_dblk s) (data_region_len (super s) - 1)) as [E|E].
  { exists (-1), s. split; [done|]. split; [done|]. split; [by apply same_alloc_frame | auto]. }
  rewrite (u32_small (_ + 1)) by lia. unfold sr_modify. erewrite sr_bind_run by done.
  set (h := hghst_alloc_dblk s) in *. set (s0 := set_hghst_alloc_dblk (h + 1) s).
  assert ((h + 1) / 32 * 4 + 4 <= data_bitmap_len (super s) * 4096) by zlia.
  pose proof (Z.div_pos (h + 1) 32). rewrite bmaddr_eq by lia.
  set (a := data_bitmap_addr (super s) * 4096 + (h + 1) / 32 * 4) in *.
  destruct (set_bit_run s0 a (h + 1) (fun _ => mret (s32 (data_region_addr (super s) + (h + 1)))))
    as (s1 & U1 & E1); [apply (wf_bytes _ Hw) | lia | cbn; lia | cbn; lia |].
  rewrite E1. exists (data_region_addr (super s) + h + 1), s1.
  assert (alloc_frame s s1) as Hf.
  { pose proof U1 as [= G1 G2 G3 G4 G5]. split; try done; [rewrite G5; cbn; lia|].
    intros x Hx. eapply (upd_out s0); [exact U1 | rewrite le32_length; cbn; lia | rewrite le32_length; lia]. }
  split; [unfold mret, SR_ret; rewrite s32_small by lia; do 2 f_equal; lia|].
  split; [|split; [done | right; split; [done | by pose proof U1 as [= _ _ _ _ ->]]]].
  pose proof U1 as [= G1 G2 G3 G4 G5]. cbn in G2, G3, G4, G5. split; rewrite ?G2, ?G3, ?G4, ?G5; try done.
  - lia.
  - rewrite G1. apply write_at_bytes; [apply (wf_bytes _ Hw) | apply le32_bytes].
  - intros i Hi. rewrite (upd_word_out s0 s1 a _ _ U1); [by apply (wf_ibm _ Hw) | cbn; lia | left; zlia].
  - eapply (bitmap_set s0); [lia | exact (wf_dbm _ Hw) | |].
    + apply (upd_word _ _ _ _ U1). apply lor_mask_range, word_at_range, (wf_bytes _ Hw).
    + intros i Hi Hne. apply (upd_word_out _ _ _ _ _ U1); [cbn; lia | unfold a; lia].
  - eapply pointers_ok_ext; [|eapply pointers_ok_grow; [|exact (wf_ptr _ Hw)]; lia].
    intros i Hi. apply alloc_frame_inode; [done | done | lia].
Qed.

(** Pointing slot [k] of a file to the block handed out next. *)
Lemma pointers_fresh sp hi hd ino inum nd k :
  0 <= data_region_addr sp -> 0 <= hd -> 0 <= k ->
  pointers_ok sp hi hd (<[inum := nd]> ino) ->
  pointers_ok sp hi (hd + 1) (<[inum := direct_set nd k (data_region_addr sp + hd + 1)]> ino).
Proof.
  intros Hdr Hhd Hk [H1 H2]. set (v := data_region_addr sp + hd + 1).
  assert (forall i j d, owns (<[inum := direct_set nd k v]> ino) i j d ->
    (i = inum /\ j = k /\ d = v) \/ owns (<[inum := nd]> ino) i j d) as Ho.
  { intros i j d (Hj & Hl & Hn). destruct (decide (i = inum)) as [->|Hne].
    - rewrite fn_lookup_insert in Hl. cbn in Hl. apply list_lookup_insert_Some in Hl as [(E1 & E2 & _)|(E1 & E2)].
      + left. split; [done|]. split; [lia | done].
      + right. split; [done|]. by rewrite fn_lookup_insert.
    - rewrite fn_lookup_insert_ne in Hl by done. right. split; [done|]. by rewrite fn_lookup_insert_ne. }
  split.
  - intros i j d Hi Hown. apply Ho in Hown as [(-> & -> & ->)|Hown]; [unfold v; lia|].
    specialize (H1 i j d Hi Hown). lia.
  - intros i i' j j' d Hi Hi' O1 O2. apply Ho in O1 as [(-> & -> & ->)|O1], O2 as [(-> & -> & E)|O2].
    + done.
    + specialize (H1 _ _ _ Hi' O2). unfold v in H1. lia.
    + subst d. specialize (H1 _ _ _ Hi O1). unfold v in H1. lia.
    + by eapply H2.
Qed.

Lemma direct_set_fits nd k v : inode_fits nd -> 0 <= v < 2 ^ 32 -> inode_fits (direct_set nd k v).
Proof.
  intros [Ht Hs Hl Hd] Hv. split; cbn; [done | done | by rewrite length_insert |].
  intros j d Hj. apply list_lookup_insert_Some in Hj as [(_ & <- & _)|(_ & Hj)]; [done | eauto].
Qed.

(** [nd'] is [nd] with some unused slots filled. *)
Definition extends (nd nd' : inode_t) : Prop :=
  type nd' = type nd /\ size nd' = size nd /\
  forall k d, direct nd !! k = Some d -> d <> NONE -> direct nd' !! k = Some d.

Lemma extends_refl nd : extends nd nd.
Proof. split; [done | split; done]. Qed.

Lemma extends_trans a b c : extends a b -> extends b c -> extends a c.
Proof. intros (A1 & A2 & A3) (B1 & B2 & B3). split; [congruence|]. split; [congruence | eauto]. Qed.

Lemma extends_set nd k v : direct nd !! Z.to_nat k = Some NONE -> extends nd (direct_set nd k v).
Proof.
  intros Hk. split; [done|]. split; [done|]. intros j d Hj Hn. cbn.
  rewrite list_lookup_insert_ne; [done | congruence].
Qed.

Lemma fill_direct_ok inum fuel s fnd d :
  wf s -> 0 <= inum <= highest_inode s -> inode_fits fnd ->
  pointers_ok (super s) (highest_inode s) (hghst_alloc_dblk s) (<[inum := fnd]> (inode_at s)) ->
  d < 30 -> d < Z.of_nat fuel ->
  exists r s', fill_direct junk fuel fnd d s = Ok (r, s') /\ wf s' /\ alloc_frame s s' /\
    match r with
    | None => True
    | Some nd' =>
        inode_fits nd' /\ extends fnd nd' /\
        pointers_ok (super s') (highest_inode s') (hghst_alloc_dblk s') (<[inum := nd']> (inode_at s')) /\
        (0 <= d -> exists v, direct nd' !! Z.to_nat d = Some v /\ v <> NONE)
    end.
Proof.
  revert s fnd d. induction fuel as [|fuel IH]; intros s fnd d Hw Hi Hf Hp Hd Hfuel.
  { exists (Some fnd), s. split; [done|]. split; [done|]. split; [by apply same_alloc_frame|].
    split; [done|]. split; [apply extends_refl|]. split; [done | lia]. }
  cbn [fill_direct]. destruct (Z.ltb_spec d 0) as [Hneg|Hneg].
  { exists (Some fnd), s. split; [done|]. split; [done|]. split; [by apply same_alloc_frame|].
    split; [done|]. split; [apply extends_refl|]. split; [done | lia]. }
  destruct (inode_direct_Some fnd d Hf) as (v & Hv & Hvr); [lia|].
  rewrite (sr_bind_run _ _ _ _ _ (direct_get_run s _ _ _ Hv)).
  change (u32 (-1)) with NONE. destruct (Z.eqb_spec v NONE) as [->|Hne].
  2: { exists (Some fnd), s. split; [done|]. split; [done|]. split; [by apply same_alloc_frame|].
       split; [done|]. split; [apply extends_refl|]. split; [done | eauto]. }
  destruct (alloc_dblk_ok s Hw) as (r & s1 & E1 & Hw1 & F1 & Hr).
  rewrite (sr_bind_run _ _ _ _ _ E1). pose proof (wf_geo _ Hw) as []. pose proof (wf_hi _ Hw). pose proof (wf_hd _ Hw).
  destruct Hr as [(-> & -> & _)|(-> & Eh)].
  { exists None, s. split; [done|]. split; [done|]. split; [by apply same_alloc_frame | done]. }
  pose proof (wf_hd _ Hw1) as Hd1. pose proof (af_super _ _ F1) as Es. pose proof (af_hi _ _ F1) as Ehi. rewrite Es, Eh in Hd1.
  rewrite u32_small by lia. destruct (Z.eqb_spec (data_region_addr (super s) + hghst_alloc_dblk s + 1) NONE); [unfold NONE in *; lia|].
  destruct (IH s1 (direct_set fnd d (data_region_addr (super s) + hghst_alloc_dblk s + 1)) (d - 1)) as (r2 & s2 & E2 & Hw2 & F2 & Hr2).
  - done.
  - lia.
  - apply direct_set_fits; [done | lia].
  - rewrite Es, Ehi, Eh. eapply pointers_ok_ext; [|apply (pointers_fresh _ _ _ (inode_at s) inum fnd d); [lia.. | exact Hp]].
    intros i Hi'. unfold insert, fn_insert. case_decide; [done|]. apply alloc_frame_inode; [done | done | lia].
  - lia.
  - lia.
  - exists r2, s2. split; [done|]. split; [done|]. split; [by eapply alloc_frame_trans|].
    destruct r2 as [nd'|]; [|done]. destruct Hr2 as (R1 & R2 & R3 & R4).
    split; [done|]. split; [eapply extends_trans; [by apply extends_set | done]|]. split; [done|].
    intros _. eexists. split; [|exact n]. apply R2; [|done]. cbn. apply list_lookup_insert_eq.
    rewrite (if_len _ Hf). lia.
Qed.

(** The inode [new_inode] writes. *)
Definition empty_inode (ty : Z) : inode_t := mkInode ty 0 (replicate 30 (u32 (-1))).

Lemma empty_inode_fits ty : - 2 ^ 31 <= ty < 2 ^ 31 -> inode_fits (empty_inode ty).
Proof.
  intros Ht. split; [done | cbn [size empty_inode]; lia | done |].
  intros k d Hk. unfold empty_inode in Hk. cbn [direct] in Hk.
  apply lookup_replicate in Hk as [-> _]. apply u32_range.
Qed.

Lemma pointers_new sp hi hd ino ty :
  pointers_ok sp hi hd ino -> pointers_ok sp (hi + 1) hd (<[hi + 1 := empty_inode ty]> ino).
Proof.
  intros [H1 H2].
  assert (forall i k d, 0 <= i <= hi + 1 -> owns (<[hi + 1 := empty_inode ty]> ino) i k d ->
    0 <= i <= hi /\ owns ino i k d) as Ho.
  { intros i k d Hi (Hk & Hl & Hn). destruct (decide (i = hi + 1)) as [->|Hne].
    - rewrite fn_lookup_insert in Hl. unfold empty_inode in Hl. cbn [direct] in Hl.
      apply lookup_replicate in Hl as [-> _]. done.
    - rewrite fn_lookup_insert_ne in Hl by done. split; [lia | split; done]. }
  split.
  - intros i k d Hi O. apply Ho in O as [Hi' O]; [eauto | done].
  - intros i i' k k' d Hi Hi' O1 O2. apply Ho in O1 as [? O1], O2 as [? O2]; eauto.
Qed.

(** Marking inode [h + 1] in the bitmap and writing its table entry. *)
Lemma new_inode_wf s s1 s2 ty :
  let h := highest_inode s in
  let a := inode_bitmap_addr (super s) * 4096 + (h + 1) / 32 * 4 in
  wf s -> h + 1 < num_inodes (super s) -> - 2 ^ 31 <= ty < 2 ^ 31 ->
  upd (set_highest_inode (h + 1) s) s1 a (le32 (Z.lor (word_at s a) (mask (h + 1)))) ->
  upd s1 s2 (inode_addr s (h + 1)) (inode_bytes (empty_inode ty)) ->
  wf s2 /\ (forall i, 0 <= i < num_inodes (super s) -> inode_at s2 i = <[h + 1 := empty_inode ty]> (inode_at s) i).
Proof.
  intros h a Hw Hh Ht U1 U2. pose proof (empty_inode_fits ty Ht) as Hf.
  pose proof (inode_bytes_length _ (if_len _ Hf)) as Hlen.
  pose proof (wf_geo _ Hw) as []. pose proof (wf_hi _ Hw). pose proof (wf_hd _ Hw). fold h in H.
  pose proof (inode_addr_bounds s (h + 1) Hw ltac:(lia)) as (B0 & B1 & B2 & B3 & B4).
  assert (a + 4 <= (inode_bitmap_addr (super s) + inode_bitmap_len (super s)) * 4096) by (unfold a; zlia).
  pose proof U1 as [= G1 G2 G3 G4 G5]. pose proof U2 as [= K1 K2 K3 K4 K5]. cbn in G2, G3, G4, G5.
  rewrite G2 in K2. rewrite G3 in K3. rewrite G4 in K4. rewrite G5 in K5.
  assert (forall x, x < inode_addr s (h + 1) \/ inode_addr s (h + 1) + 128 <= x -> img s2 x = img s1 x) as O2.
  { intros x Hx. eapply upd_out; [exact U2 | rewrite G2; lia | lia]. }
  assert (forall x, x < a \/ a + 4 <= x -> img s1 x = img s x) as O1.
  { intros x Hx. eapply (upd_out (set_highest_inode (h + 1) s)); [exact U1 | rewrite le32_length; cbn; lia | rewrite le32_length; lia]. }
  assert (forall i, 0 <= i < num_inodes (super s) -> inode_at s2 i = <[h + 1 := empty_inode ty]> (inode_at s) i) as Hin.
  { intros i Hi. destruct (decide (i = h + 1)) as [->|Hne].
    - rewrite fn_lookup_insert. pose proof (upd_in s1 s2 _ _ U2) as Hin'. rewrite Hlen in Hin'.
      etrans; [|exact (inode_of_bytes _ Hf)]. unfold inode_at. f_equal. unfold inode_addr in *. rewrite K3. exact Hin'.
    - rewrite fn_lookup_insert_ne by done. pose proof (inode_addr_bounds s i Hw Hi).
      apply inode_at_ext; [done|]. intros x Hx.
      rewrite O2, O1; [done | lia | unfold inode_addr, sizeof_inode in *; lia]. }
  split; [|done]. split; rewrite ?K2, ?K3, ?K4, ?K5; try done.
  - lia.
  - rewrite K1, G1. apply write_at_bytes; [apply write_at_bytes; [apply (wf_bytes _ Hw) | apply le32_bytes] | apply inode_bytes_bytes].
  - eapply (bitmap_set s); [lia | exact (wf_ibm _ Hw) | |].
    + fold a. rewrite (word_at_ext s1 s2) by (intros; apply O2; lia).
      apply (upd_word _ _ _ _ U1). apply lor_mask_range, word_at_range, (wf_bytes _ Hw).
    + intros i Hi Hne. apply word_at_ext. intros x Hx. rewrite O2, O1; [done | unfold a; lia | zlia].
  - intros i Hi. rewrite (word_at_ext s s2); [by apply (wf_dbm _ Hw)|].
    intros x Hx. rewrite O2, O1; [done | zlia | zlia].
  - eapply pointers_ok_ext; [|apply pointers_new, (wf_ptr _ Hw)]. intros i Hi. apply Hin. fold h in Hi. lia.
Qed.

Lemma new_inode_ok s ty :
  wf s -> - 2 ^ 31 <= ty < 2 ^ 31 ->
  exists r s', new_inode junk ty s = Ok (r, s') /\ wf s' /\ super s' = super s /\
    hghst_alloc_dblk s' = hghst_alloc_dblk s /\
    (forall x, data_region_addr (super s) * 4096 <= x -> img s' x = img s x) /\
    (r = -1 /\ s' = s /\ highest_inode s = num_inodes (super s) - 1 \/
     r = highest_inode s + 1 /\ highest_inode s' = r /\
     (forall i, 0 <= i < num_inodes (super s) -> inode_at s' i = <[r := empty_inode ty]> (inode_at s) i)).
Proof.
  intros Hw Ht. pose proof (wf_geo _ Hw) as []. pose proof (wf_hd _ Hw). pose proof (wf_hi _ Hw).
  unfold new_inode, sr_gets. do 2 (erewrite sr_bind_run by done). rewrite (u32_small (_ - 1)) by lia.
  destruct (Z.eqb_spec (highest_inode s) (num_inodes (super s) - 1)) as [E|E].
  { exists (-1), s. repeat (split; [done|]). left. done. }
  rewrite (u32_small (_ + 1)) by lia. unfold sr_modify. erewrite sr_bind_run by done.
  set (h := highest_inode s) in *. set (s0 := set_highest_inode (h + 1) s).
  assert ((h + 1) / 32 * 4 + 4 <= inode_bitmap_len (super s) * 4096) by zlia.
  pose proof (Z.div_pos (h + 1) 32). rewrite bmaddr_eq by lia.
  set (a := inode_bitmap_addr (super s) * 4096 + (h + 1) / 32 * 4) in *.
  pose proof (inode_addr_bounds s (h + 1) Hw ltac:(lia)) as (B0 & B1 & B2 & B3 & B4).
  match goal with |- context [fswrite a _ _ ≫= ?k] => pose (K := k) end.
  destruct (set_bit_run s0 a (h + 1) K) as (s1 & U1 & E1); [apply (wf_bytes _ Hw) | lia | cbn; lia | cbn; lia |].
  unfold K in E1. rewrite E1. erewrite sr_bind_run by done.
  pose proof U1 as [= G1 G2 G3 G4 G5]. cbn in G2, G3, G4, G5.
  assert (inode_addr s1 (h + 1) = inode_addr s (h + 1)) as Ea by (unfold inode_addr; by rewrite G3). rewrite Ea.
  pose proof (empty_inode_fits ty Ht) as Hf. pose proof (inode_bytes_length _ (if_len _ Hf)) as Hlen.
  destruct (fswrite_ok s1 (inode_addr s (h + 1)) (inode_bytes (empty_inode ty))) as (s2 & E2 & U2); [rewrite ?G2; lia..|].
  rewrite Hlen in E2. change (Z.of_nat 128) with sizeof_inode in E2. fold (empty_inode ty).
  rewrite (sr_bind_run _ _ _ _ _ E2). pose proof U2 as [= K1 K2 K3 K4 K5].
  destruct (new_inode_wf s s1 s2 ty Hw) as [Hw2 Hin]; [fold h; lia | done | exact U1 | exact U2 |].
  exists (h + 1), s2. split; [unfold mret, SR_ret; rewrite s32_small by lia; done|].
  split; [done|]. split; [congruence|]. split; [congruence|]. split.
  - intros x Hx. rewrite (upd_out _ _ _ _ _ U2), (upd_out _ _ _ _ _ U1); rewrite ?le32_length; cbn; lia.
  - right. split; [done|]. split; [congruence | exact Hin].
Qed.

(** ** Reading and writing files *)

(** The effect of a step of [write_file] on file [inum]: the other inodes are
    as they were, and of the data only the bytes in [dirty] change. *)
Record wframe (inum : Z) (dirty : Z -> Prop) (s s' : srv) : Prop := {
  wr_super : super s' = super s;
  wr_len : img_len s' = img_len s;
  wr_hi : highest_inode s' = highest_inode s;
  wr_ino : forall i, 0 <= i <= highest_inode s -> i <> inum -> inode_at s' i = inode_at s i;
  wr_data : forall x, data_region_addr (super s) * 4096 <= x -> ~ dirty x -> img s' x = img s x
}.

Lemma wframe_trans inum dirty s1 s2 s3 :
  wframe inum dirty s1 s2 -> wframe inum dirty s2 s3 -> wframe inum dirty s1 s3.
Proof.
  intros [A1 A2 A3 A4 A5] [B1 B2 B3 B4 B5]. split; try congruence.
  - intros i Hi Hne. rewrite B4 by (rewrite ?A3; done). by apply A4.
  - intros x Hx Hd. rewrite B5 by (rewrite ?A1; done). by apply A5.
Qed.

Lemma wframe_same inum dirty s s' : same s s' -> wframe inum dirty s s'.
Proof.
  intros Hs. pose proof Hs as [= E1 E2 E3 E4 E5]. split; try done.
  - intros i _ _. by apply same_inode_at.
  - by rewrite E1.
Qed.

Lemma wframe_alloc inum dirty s s' : wf s -> alloc_frame s s' -> wframe inum dirty s s'.
Proof.
  intros Hw Hf. pose proof (wf_hi _ Hw). pose proof (wf_geo _ Hw) as []. split; try apply Hf.
  - intros i Hi _. apply alloc_frame_inode; [done | done | lia].
  - intros x Hx _. apply Hf. lia.
Qed.

Lemma wframe_inode inum dirty s s' nd :
  wf s -> 0 <= inum <= highest_inode s -> inode_fits nd ->
  upd s s' (inode_addr s inum) (inode_bytes nd) ->
  (forall i, 0 <= i < num_inodes (super s) -> inode_at s' i = <[inum := nd]> (inode_at s) i) ->
  wframe inum dirty s s'.
Proof.
  intros Hw Hi Hf Hu Hin. pose proof (wf_hi _ Hw). pose proof (wf_geo _ Hw) as [].
  pose proof (inode_addr_bounds s inum Hw ltac:(lia)) as (_ & _ & _ & Ha1 & Ha2).
  pose proof (inode_bytes_length nd (if_len _ Hf)) as Hlen.
  pose proof Hu as [= _ E2 E3 E4 E5]. split; try done.
  - intros i Hi' Hne. rewrite Hin by lia. by rewrite fn_lookup_insert_ne.
  - intros x Hx _. eapply upd_out; [exact Hu | lia | lia].
Qed.

(** A block handed out lies in the data region. *)
Lemma block_bounds s d :
  wf s -> data_region_addr (super s) <= d <= data_region_addr (super s) + hghst_alloc_dblk s ->
  data_region_addr (super s) * 4096 <= d * 4096 /\ d * 4096 + 4096 <= img_len s /\ 0 <= d * 4096 < 2 ^ 31.
Proof.
  intros Hw Hd. pose proof (wf_geo _ Hw) as []. pose proof (wf_hd _ Hw). pose proof (wf_hi _ Hw). lia.
Qed.

(** Writing the first [n] bytes of [buf] into block [d] at offset [o]. *)
Lemma data_write_ok inum s d o n buf :
  wf s -> data_region_addr (super s) <= d <= data_region_addr (super s) + hghst_alloc_dblk s ->
  0 <= o -> 0 <= n -> o + n <= 4096 -> n <= Z.of_nat (length buf) -> Forall is_byte buf ->
  exists s', fswrite (u32 (d * UFS_BLOCK_SIZE) + o) buf n s = Ok (n, s') /\ wf s' /\
    hghst_alloc_dblk s' = hghst_alloc_dblk s /\
    wframe inum (fun x => d * 4096 + o <= x < d * 4096 + o + n) s s' /\
    (forall i, 0 <= i <= highest_inode s -> inode_at s' i = inode_at s i) /\
    (forall k, 0 <= k < n -> img s' (d * 4096 + o + k) = nth (Z.to_nat k) buf 0).
Proof.
  intros Hw Hd Ho Hn Hon Hnb Hb. pose proof (wf_hi _ Hw). pose proof (wf_geo _ Hw) as [].
  pose proof (block_bounds s d Hw Hd) as (B1 & B2 & B3). unfold UFS_BLOCK_SIZE.
  rewrite (u32_small (d * 4096)) by lia.
  assert (length (take (Z.to_nat n) buf) = Z.to_nat n) as Hlt by (rewrite length_take; lia).
  destruct (fswrite_ok s (d * 4096 + o) (take (Z.to_nat n) buf)) as (s1 & E1 & U1); [lia..|].
  rewrite Hlt, Z2Nat.id in E1 by lia. exists s1.
  assert (forall i, 0 <= i <= highest_inode s -> inode_at s1 i = inode_at s i) as Hin.
  { intros i Hi. eapply data_upd_inode; [done | exact U1 | lia | lia | lia]. }
  pose proof U1 as [= G1 G2 G3 G4 G5].
  split; [|split; [|split; [done | split; [|split; [done|]]]]].
  - revert E1. unfold fswrite. rewrite Hlt. destruct (Z.ltb_spec (Z.of_nat (Z.to_nat n)) n); [lia|].
    destruct (Z.ltb_spec (Z.of_nat (length buf)) n); [lia|]. by rewrite take_take, Nat.min_id.
  - eapply upd_wf; [done | exact U1 | by apply Forall_take | lia | lia |].
    eapply pointers_ok_ext; [|exact (wf_ptr _ Hw)]. intros i Hi. by apply Hin.
  - split; try done; [by intros; apply Hin|]. intros x Hx Hdx. eapply upd_out; [exact U1 | lia | lia].
  - intros k Hk. rewrite G1, write_at_in by lia.
    rewrite !nth_lookup_default. by rewrite lookup_take_lt by lia.
Qed.

(** The end of [write_file]. *)
Lemma write_tail_ok inum dirty ty s nd :
  wf s -> 0 <= inum <= highest_inode s -> inode_fits nd ->
  pointers_ok (super s) (highest_inode s) (hghst_alloc_dblk s) (<[inum := nd]> (inode_at s)) ->
  exists s', (_ ← write_inode inum nd;
     _ ← inode_dbg junk inum;
     _ ← (if ty =? UFS_DIRECTORY then dir_dbg junk inum else mret tt);
     mret 0) s = Ok (0, s') /\ wf s' /\ wframe inum dirty s s' /\ inode_at s' inum = nd /\
     (forall x, data_region_addr (super s) * 4096 <= x -> img s' x = img s x).
Proof.
  intros Hw Hi Hf Hp. pose proof (wf_hi _ Hw).
  destruct (write_inode_ok s inum nd Hw Hi Hf Hp) as (s1 & E1 & Hw1 & U1 & I1).
  rewrite (sr_bind_run _ _ _ _ _ E1).
  pose proof (fun P => wframe_inode inum P s s1 nd Hw Hi Hf U1 I1) as F1.
  assert (0 <= inum <= highest_inode s1) as Hi1 by (rewrite (wr_hi _ _ _ _ (F1 dirty)); done).
  destruct (inode_dbg_ok s1 inum Hw1 Hi1) as (s2 & E2 & S2). rewrite (sr_bind_run _ _ _ _ _ E2).
  assert (exists s3, (if ty =? UFS_DIRECTORY then dir_dbg junk inum else mret tt) s2 = Ok (tt, s3) /\ same s2 s3)
    as (s3 & E3 & S3).
  { destruct (ty =? UFS_DIRECTORY); [|by exists s2]. apply dir_dbg_ok; [eauto with srv|].
    by pose proof S2 as [= _ _ _ -> _]. }
  rewrite (sr_bind_run _ _ _ _ _ E3). assert (same s1 s3) as S13 by eauto with srv.
  exists s3. split; [done|]. split; [eauto with srv|].
  split; [eapply wframe_trans; [apply F1 | by apply wframe_same]|]. split.
  - rewrite (same_inode_at _ _ _ S13), I1 by lia. by rewrite fn_lookup_insert.
  - intros x Hx. pose proof S13 as [= -> _ _ _ _]. apply (wr_data _ _ _ _ (F1 (fun _ => False))); [done | tauto].
Qed.

Lemma wframe_mono inum (P Q : Z -> Prop) s s' :
  (forall x, P x -> Q x) -> wframe inum P s s' -> wframe inum Q s s'.
Proof. intros HPQ [A1 A2 A3 A4 A5]. split; try done. intros x Hx Hq. apply A5; [done|]. auto. Qed.

Lemma place_in nd q d o :
  0 <= q -> direct nd !! Z.to_nat q = Some d -> d <> NONE -> 0 <= o < 4096 ->
  place nd (q * 4096 + o) = Some (d * 4096 + o).
Proof.
  intros Hq Hd Hn Ho. unfold place. replace ((q * 4096 + o) / 4096) with q by zlia.
  replace ((q * 4096 + o) mod 4096) with o by zlia. rewrite Hd.
  by destruct (Z.eqb_spec d NONE).
Qed.

(** What [write_file] did when it returned 0. *)
Record wrote (inum offset n : Z) (buf : list Z) (s s' : srv) : Prop := {
  wo_frame : wframe inum
    (fun x => exists k, 0 <= k < n /\ place (inode_at s' inum) (offset + k) = Some x) s s';
  wo_data : forall k, 0 <= k < n -> content s' inum (offset + k) = Some (nth (Z.to_nat k) buf 0);
  wo_block : place (inode_at s' inum) offset <> None;
  wo_type : type (inode_at s' inum) = type (inode_at s inum);
  wo_size : size (inode_at s' inum) = Z.max (size (inode_at s inum)) (offset + n);
  wo_slots : forall j d, direct (inode_at s inum) !! j = Some d -> d <> NONE ->
    n <= 4096 - offset mod 4096 \/ Z.of_nat j <> offset / 4096 + 1 ->
    direct (inode_at s' inum) !! j = Some d
}.

(** The size kept by [write_file]. *)
Definition new_size (nd : inode_t) (e : Z) : Z :=
  s32 (if u32 (size nd) <? u32 e then u32 e else u32 (size nd)).

Lemma new_size_max nd e : 0 <= size nd < 2 ^ 31 -> 0 <= e < 2 ^ 31 -> new_size nd e = Z.max (size nd) e.
Proof.
  intros H1 H2. unfold new_size. rewrite !u32_small by lia.
  destruct (Z.ltb_spec (size nd) e); rewrite s32_small by lia; lia.
Qed.

Lemma pointers_resize sp hi hd ino ino' inum nd sz :
  (forall i, 0 <= i <= hi -> ino' i = ino i) ->
  pointers_ok sp hi hd (<[inum := nd]> ino) ->
  pointers_ok sp hi hd (<[inum := mkInode (type nd) sz (direct nd)]> ino').
Proof.
  intros He [P1 P2].
  assert (forall i j v, 0 <= i <= hi ->
    owns (<[inum := mkInode (type nd) sz (direct nd)]> ino') i j v -> owns (<[inum := nd]> ino) i j v) as Ho.
  { intros i j v Hi (O1 & O2 & O3). split; [done|]. split; [|done]. revert O2.
    unfold insert, fn_insert. case_decide; [done|]. by rewrite He. }
  split; [eauto|]. intros i i' j j' v R1 R2 O1 O2. eapply P2; eauto.
Qed.

Lemma resize_fits nd sz : inode_fits nd -> - 2 ^ 31 <= sz < 2 ^ 31 -> inode_fits (mkInode (type nd) sz (direct nd)).
Proof. intros [] Hs. by split. Qed.

(** The branch of [write_file] that stays in one block. *)
Lemma write_one_ok inum ty s nd q o n buf :
  wf s -> 0 <= inum <= highest_inode s -> inode_fits nd -> 0 <= size nd ->
  pointers_ok (super s) (highest_inode s) (hghst_alloc_dblk s) (<[inum := nd]> (inode_at s)) ->
  0 <= q < 30 -> 0 <= o -> 0 <= n -> o + n <= 4096 -> o < 4096 ->
  n <= Z.of_nat (length buf) -> Forall is_byte buf ->
  (exists d, direct nd !! Z.to_nat q = Some d /\ d <> NONE) ->
  exists s', (d ← direct_get nd q;
    _ ← fswrite (u32 (d * UFS_BLOCK_SIZE) + o) buf n;
    _ ← write_inode inum (mkInode (type nd) (new_size nd (q * 4096 + o + n)) (direct nd));
    _ ← inode_dbg junk inum;
    _ ← (if ty =? UFS_DIRECTORY then dir_dbg junk inum else mret tt);
    mret 0) s = Ok (0, s') /\ wf s' /\
  inode_at s' inum = mkInode (type nd) (Z.max (size nd) (q * 4096 + o + n)) (direct nd) /\
  wframe inum (fun x => exists k, 0 <= k < n /\ place nd (q * 4096 + o + k) = Some x) s s' /\
  (forall k, 0 <= k < n -> img s' <$> place nd (q * 4096 + o + k) = Some (nth (Z.to_nat k) buf 0)).
Proof.
  intros Hw Hi Hf Hsz Hp Hq Ho Hn Hon Ho' Hnb Hb (d & Hd & Hdn).
  pose proof (if_size _ Hf) as Hsr.
  rewrite (sr_bind_run _ _ _ _ _ (direct_get_run s _ _ _ Hd)).
  assert (data_region_addr (super s) <= d <= data_region_addr (super s) + hghst_alloc_dblk s) as Hdr.
  { apply (proj1 Hp inum q d Hi). split; [lia|]. by rewrite fn_lookup_insert. }
  destruct (data_write_ok inum s d o n buf) as (s1 & E1 & Hw1 & Hh1 & F1 & I1 & D1); [done..|].
  rewrite (sr_bind_run _ _ _ _ _ E1). pose proof (wr_super _ _ _ _ F1) as Es. pose proof (wr_hi _ _ _ _ F1) as Eh.
  rewrite new_size_max by lia.
  destruct (write_tail_ok inum (fun x => exists k, 0 <= k < n /\ place nd (q * 4096 + o + k) = Some x)
    ty s1 (mkInode (type nd) (Z.max (size nd) (q * 4096 + o + n)) (direct nd))) as (s2 & E2 & Hw2 & F2 & I2 & D2).
  - done.
  - by rewrite Eh.
  - apply resize_fits; [done | lia].
  - rewrite Es, Eh, Hh1. by eapply pointers_resize.
  - exists s2. split; [done|]. split; [done|]. split; [done|]. split.
    + eapply wframe_trans; [|exact F2]. eapply wframe_mono; [|exact F1]. cbn. intros x Hx.
      exists (x - d * 4096 - o). split; [lia|].
      rewrite <-Z.add_assoc, (place_in nd q d) by (done || lia). f_equal. lia.
    + intros k Hk. rewrite <-Z.add_assoc, (place_in nd q d) by (done || lia). cbn. f_equal.
      pose proof (block_bounds s d Hw Hdr). rewrite D2 by (rewrite Es; lia). rewrite <- (D1 k) by done. f_equal. lia.
Qed.

(** The two block writes of the branch that crosses into the next block, whose
    pointer was just set to the block [d1]. *)
Lemma write_two_ok inum ty s nd q o n buf d1 :
  wf s -> 0 <= inum <= highest_inode s -> inode_fits nd -> 0 <= size nd ->
  pointers_ok (super s) (highest_inode s) (hghst_alloc_dblk s) (<[inum := nd]> (inode_at s)) ->
  0 <= q < 29 -> 0 <= o < 4096 -> 4096 - o < n <= 4096 ->
  n <= Z.of_nat (length buf) -> Forall is_byte buf ->
  (exists d, direct nd !! Z.to_nat q = Some d /\ d <> NONE) ->
  direct nd !! Z.to_nat (q + 1) = Some d1 -> d1 <> NONE ->
  exists s', (d ← direct_get nd q;
    _ ← fswrite (u32 (d * UFS_BLOCK_SIZE) + o) buf (4096 - o);
    d1 ← direct_get nd (q + 1);
    _ ← fswrite (u32 (d1 * UFS_BLOCK_SIZE)) (drop (Z.to_nat (4096 - o)) buf) (u32 (n - (4096 - o)));
    _ ← write_inode inum (mkInode (type nd) (new_size nd (q * 4096 + o + n)) (direct nd));
    _ ← inode_dbg junk inum;
    _ ← (if ty =? UFS_DIRECTORY then dir_dbg junk inum else mret tt);
    mret 0) s = Ok (0, s') /\ wf s' /\
  inode_at s' inum = mkInode (type nd) (Z.max (size nd) (q * 4096 + o + n)) (direct nd) /\
  wframe inum (fun x => exists k, 0 <= k < n /\ place nd (q * 4096 + o + k) = Some x) s s' /\
  (forall k, 0 <= k < n -> img s' <$> place nd (q * 4096 + o + k) = Some (nth (Z.to_nat k) buf 0)).
Proof.
  intros Hw Hi Hf Hsz Hp Hq Ho Hn Hnb Hb (d & Hd & Hdn) Hd1 Hd1n.
  set (dirty := fun x => exists k, 0 <= k < n /\ place nd (q * 4096 + o + k) = Some x).
  assert (forall k, 0 <= k < 4096 - o -> place nd (q * 4096 + o + k) = Some (d * 4096 + o + k)) as Hpl.
  { intros k Hk. rewrite <-Z.add_assoc, (place_in nd q d) by (done || lia). f_equal. lia. }
  assert (forall k, 4096 - o <= k < n -> place nd (q * 4096 + o + k) = Some (d1 * 4096 + (k - (4096 - o)))) as Hpl1.
  { intros k Hk. replace (q * 4096 + o + k) with ((q + 1) * 4096 + (k - (4096 - o))) by lia.
    by rewrite (place_in nd (q + 1) d1) by (done || lia). }
  assert (data_region_addr (super s) <= d <= data_region_addr (super s) + hghst_alloc_dblk s) as Hr.
  { apply (proj1 Hp inum q d Hi). split; [lia|]. by rewrite fn_lookup_insert. }
  assert (data_region_addr (super s) <= d1 <= data_region_addr (super s) + hghst_alloc_dblk s) as Hr1.
  { apply (proj1 Hp inum (q + 1) d1 Hi). split; [lia|]. by rewrite fn_lookup_insert. }
  assert (d <> d1) as Hne.
  { intros <-. destruct (proj2 Hp inum inum q (q + 1) d Hi Hi) as [_ E]; [..|lia];
      (split; [lia|]; by rewrite fn_lookup_insert). }
  rewrite (sr_bind_run _ _ _ _ _ (direct_get_run s _ _ _ Hd)).
  destruct (data_write_ok inum s d o (4096 - o) buf) as (s1 & E1 & Hw1 & Hh1 & F1 & I1 & D1); [done || lia..|].
  rewrite (sr_bind_run _ _ _ _ _ E1). pose proof (wr_super _ _ _ _ F1) as Es. pose proof (wr_hi _ _ _ _ F1) as Eh.
  rewrite (sr_bind_run _ _ _ _ _ (direct_get_run s1 _ _ _ Hd1)). rewrite (u32_small (n - _)) by lia.
  destruct (data_write_ok inum s1 d1 0 (n - (4096 - o)) (drop (Z.to_nat (4096 - o)) buf))
    as (s2 & E2 & Hw2 & Hh2 & F2 & I2 & D2).
  { done. } { by rewrite Es, Hh1. } { lia. } { lia. } { lia. } { rewrite length_drop. lia. } { by apply Forall_drop. }
  rewrite Z.add_0_r in E2. rewrite (sr_bind_run _ _ _ _ _ E2).
  pose proof (wr_super _ _ _ _ F2) as Es2. pose proof (wr_hi _ _ _ _ F2) as Eh2. rewrite Es in Es2. rewrite Eh in Eh2.
  pose proof (if_size _ Hf). rewrite new_size_max by lia.
  destruct (write_tail_ok inum dirty ty s2 (mkInode (type nd) (Z.max (size nd) (q * 4096 + o + n)) (direct nd)))
    as (s3 & E3 & Hw3 & F3 & I3 & D3).
  - done.
  - by rewrite Eh2.
  - apply resize_fits; [done | lia].
  - rewrite Es2, Eh2, Hh2, Hh1. eapply pointers_resize; [|exact Hp].
    intros i Hi'. rewrite I2 by (rewrite Eh; done). by apply I1.
  - exists s3. split; [done|]. split; [done|]. split; [done|].
    pose proof (block_bounds s d Hw Hr). pose proof (block_bounds s d1 Hw Hr1). split.
    + eapply wframe_trans; [|eapply wframe_trans; [|exact F3]].
      * eapply wframe_mono; [|exact F1]. cbn beta. intros x Hx. exists (x - d * 4096 - o). split; [lia|].
        rewrite Hpl by lia. f_equal. lia.
      * eapply wframe_mono; [|exact F2]. cbn. intros x Hx. exists (x - d1 * 4096 + (4096 - o)). split; [lia|].
        rewrite Hpl1 by lia. f_equal. lia.
    + intros k Hk. destruct (decide (k < 4096 - o)).
      * rewrite Hpl by lia. cbn. f_equal. rewrite D3 by (rewrite Es2; lia).
        rewrite (wr_data _ _ _ _ F2) by (rewrite ?Es; lia). apply D1. lia.
      * rewrite Hpl1 by lia. cbn. f_equal. rewrite D3 by (rewrite Es2; lia).
        replace (d1 * 4096 + (k - (4096 - o))) with (d1 * 4096 + 0 + (k - (4096 - o))) by lia.
        rewrite D2 by lia. rewrite !nth_lookup_default, lookup_drop. do 2 f_equal. lia.
Qed.

(** How [write_file] can end. *)
Definition write_outcome (inum offset n : Z) (buf : list Z) (s : srv) (rc : Z) (s' : srv) : Prop :=
  wf s' /\
  (rc = -1 /\ wframe inum (fun _ => False) s s' /\ extends (inode_at s inum) (inode_at s' inum) \/
   rc = 0 /\ wrote inum offset n buf s s').

Lemma failed_outcome inum offset n buf s s' :
  wf s' -> wframe inum (fun _ => False) s s' -> extends (inode_at s inum) (inode_at s' inum) ->
  write_outcome inum offset n buf s (-1) s'.
Proof. intros. split; [done|]. left. done. Qed.

Lemma wrote_intro inum offset n buf s s0 s' nd (kept : nat -> Prop) :
  wframe inum (fun _ => False) s s0 ->
  (forall j d, direct (inode_at s inum) !! j = Some d -> d <> NONE -> kept j -> direct nd !! j = Some d) ->
  (forall j, n <= 4096 - offset mod 4096 \/ Z.of_nat j <> offset / 4096 + 1 -> kept j) ->
  type nd = type (inode_at s inum) -> size nd = size (inode_at s inum) -> 0 <= n -> 0 <= offset ->
  (exists d, direct nd !! Z.to_nat (offset / 4096) = Some d /\ d <> NONE) ->
  inode_at s' inum = mkInode (type nd) (Z.max (size nd) (offset + n)) (direct nd) ->
  wframe inum (fun x => exists k, 0 <= k < n /\ place nd (offset + k) = Some x) s0 s' ->
  (forall k, 0 <= k < n -> img s' <$> place nd (offset + k) = Some (nth (Z.to_nat k) buf 0)) ->
  wrote inum offset n buf s s'.
Proof.
  intros F0 Hk1 Hk2 Ht Hs Hn Hoff (d & Hd & Hdn) Hi F1 D1.
  assert (forall k, place (inode_at s' inum) k = place nd k) as Hpl by (intros k; by rewrite Hi).
  split.
  - eapply wframe_trans; [eapply wframe_mono; [|exact F0]; cbn; tauto|].
    eapply wframe_mono; [|exact F1]. cbn beta. intros x (k & Hk & Hx). exists k. by rewrite Hpl.
  - intros k Hk. unfold content. rewrite Hpl. by apply D1.
  - rewrite Hpl. unfold place. rewrite Hd. by destruct (Z.eqb_spec d NONE).
  - by rewrite Hi.
  - rewrite Hi. cbn. by rewrite Hs.
  - intros j v Hj Hv Hc. rewrite Hi. cbn. eauto.
Qed.

(** The block writes of [write_file] and its end, once the pointers up to
    [direct[offset / 4096]] are there and the inode [nd] is on the image. *)
Lemma write_blocks_ok inum ty offset n buf s0 s nd :
  wf s -> wframe inum (fun _ => False) s0 s -> inode_at s inum = nd -> extends (inode_at s0 inum) nd ->
  0 <= inum <= highest_inode s -> 0 <= size nd -> 0 <= offset -> offset / 4096 < 30 -> 0 <= n <= 4096 ->
  n <= Z.of_nat (length buf) -> Forall is_byte buf ->
  (exists d, direct nd !! Z.to_nat (offset / 4096) = Some d /\ d <> NONE) ->
  exists rc s',
    (written ←
       (if u32 n <=? 4096 - offset mod 4096 then
          d ← direct_get nd (offset / 4096);
          _ ← fswrite (u32 (d * UFS_BLOCK_SIZE) + offset mod 4096) buf n;
          mret (Some nd)
        else if offset / 4096 =? DIRECT_PTRS - 1 then mret None
        else
          ndb ← alloc_dblk junk;
          if ndb =? -1 then mret None
          else
            let fnd := direct_set nd (offset / 4096 + 1) (u32 ndb) in
            d ← direct_get fnd (offset / 4096);
            _ ← fswrite (u32 (d * UFS_BLOCK_SIZE) + offset mod 4096) buf (4096 - offset mod 4096);
            d1 ← direct_get fnd (offset / 4096 + 1);
            _ ← fswrite (u32 (d1 * UFS_BLOCK_SIZE)) (drop (Z.to_nat (4096 - offset mod 4096)) buf)
                  (u32 (n - (4096 - offset mod 4096)));
            mret (Some fnd));
     match written with
     | None => mret (-1)
     | Some fnd =>
         _ ← write_inode inum (mkInode (type fnd) (new_size fnd (offset + n)) (direct fnd));
         _ ← inode_dbg junk inum;
         _ ← (if ty =? UFS_DIRECTORY then dir_dbg junk inum else mret tt);
         mret 0
     end) s = Ok (rc, s') /\ write_outcome inum offset n buf s0 rc s'.
Proof.
  intros Hw F0 Hnd Hex Hi Hsz Hoff Hq Hn Hnb Hb Hdir.
  assert (inode_fits nd) as Hf by (rewrite <-Hnd; apply inode_at_fits, wf_bytes, Hw).
  assert (pointers_ok (super s) (highest_inode s) (hghst_alloc_dblk s) (<[inum := nd]> (inode_at s))) as Hp.
  { eapply pointers_ok_ext; [|exact (wf_ptr _ Hw)]. intros i _. unfold insert, fn_insert.
    case_decide; [by subst | done]. }
  pose proof (Z.mod_pos_bound offset 4096 ltac:(lia)). pose proof (Z.div_pos offset 4096 ltac:(lia) ltac:(lia)).
  pose proof (Z.div_mod offset 4096 ltac:(lia)) as Hdm. rewrite (u32_small n) by lia.
  assert (offset / 4096 * 4096 + offset mod 4096 = offset) as Hoe by lia.
  destruct Hex as (X1 & X2 & X3). destruct (Z.leb_spec n (4096 - offset mod 4096)) as [Hle|Hgt].
  - destruct (write_one_ok inum ty s nd (offset / 4096) (offset mod 4096) n buf)
      as (s' & E & Hw' & I' & F' & D'); [done || lia..|]. rewrite Hoe in *.
    exists 0, s'. split; [|split; [done | right; split; [done|]]].
    + revert E. unfold mbind, SR_bind, mret, SR_ret. repeat case_match; naive_solver.
    + eapply (wrote_intro inum offset n buf s0 s s' nd (fun _ => True)); eauto; lia.
  - destruct (Z.eqb_spec (offset / 4096) (DIRECT_PTRS - 1)) as [Hlast|Hlast].
    { exists (-1), s. split; [done|]. apply failed_outcome; [done | done | by rewrite Hnd]. }
    unfold DIRECT_PTRS in Hlast.
    destruct (alloc_dblk_ok s Hw) as (r & s1 & E1 & Hw1 & F1 & Hr).
    pose proof (wf_geo _ Hw) as []. pose proof (wf_hi _ Hw). pose proof (wf_hd _ Hw).
    destruct Hr as [(-> & -> & _)|(-> & Eh)].
    { exists (-1), s. split; [|apply failed_outcome; [done | done | by rewrite Hnd]].
      unfold mbind, SR_bind. by rewrite E1. }
    pose proof (wf_hd _ Hw1) as Hd1. pose proof (af_super _ _ F1) as Es. pose proof (af_hi _ _ F1) as Ehi.
    rewrite Es, Eh in Hd1. set (d1 := data_region_addr (super s) + hghst_alloc_dblk s + 1) in *.
    set (nd1 := direct_set nd (offset / 4096 + 1) d1) in *.
    assert (inode_fits nd1) as Hf1 by (apply direct_set_fits; [done | lia]).
    destruct (write_two_ok inum ty s1 nd1 (offset / 4096) (offset mod 4096) n buf d1)
      as (s' & E & Hw' & I' & F' & D'); [try (done || lia).. |].
    + rewrite Es, Ehi, Eh. eapply pointers_ok_ext; [|apply (pointers_fresh _ _ _ (inode_at s) inum nd (offset / 4096 + 1)); [lia.. | exact Hp]].
      intros i Hi'. unfold insert, fn_insert. case_decide; [done|]. apply alloc_frame_inode; [done | done | lia].
    + destruct Hdir as (d & Hd & Hdn). exists d. split; [|done]. cbn. rewrite list_lookup_insert_ne by lia. done.
    + cbn. apply list_lookup_insert_eq. rewrite (if_len _ Hf). lia.
    + unfold NONE, d1. lia.
    + rewrite Hoe in *. exists 0, s'. split; [|split; [done | right; split; [done|]]].
      * revert E. unfold mbind, SR_bind, mret, SR_ret. rewrite E1.
        destruct (Z.eqb_spec d1 (-1)); [lia|]. rewrite (u32_small d1) by lia. fold nd1. cbn zeta. repeat case_match; naive_solver.
      * eapply (wrote_intro inum offset n buf s0 s1 s' nd1 (fun j => Z.of_nat j <> offset / 4096 + 1)); eauto.
        -- eapply wframe_trans; [exact F0 | by apply wframe_alloc].
        -- intros j d Hj Hjn Hk. cbn. rewrite list_lookup_insert_ne by lia. eauto.
        -- intros j [Hj|Hj]; [lia | done].
        -- lia.
        -- destruct Hdir as (d & Hd & Hdn). exists d. split; [|done]. cbn. by rewrite list_lookup_insert_ne by lia.
Qed.

Lemma write_file_ok s inum buf offset n ty :
  wf s -> 0 <= inum <= highest_inode s -> type (inode_at s inum) = ty -> 0 <= size (inode_at s inum) ->
  0 <= offset < 2 ^ 32 -> 0 <= n <= 4096 -> n <= Z.of_nat (length buf) -> Forall is_byte buf ->
  exists rc s', write_file junk inum buf offset n ty s = Ok (rc, s') /\ write_outcome inum offset n buf s rc s' /\
    (offset / 4096 < 30 \/ rc = -1).
Proof.
  intros Hw Hi Hty Hsz Hoff Hn Hnb Hb. unfold write_file.
  destruct (get_inode_ok s inum Hw Hi) as (s1 & E1 & S1). rewrite (sr_bind_run _ _ _ _ _ E1).
  rewrite Hty, Z.eqb_refl. cbn [negb]. assert (wf s1) as Hw1 by eauto with srv.
  assert (highest_inode s1 = highest_inode s) as Eh1 by (unfold same, core in S1; congruence).
  destruct (inode_dbg_ok s1 inum Hw1 ltac:(lia)) as (s2 & E2 & S2). rewrite (sr_bind_run _ _ _ _ _ E2).
  assert (same s s2) as S02 by eauto with srv. assert (wf s2) as Hw2 by eauto with srv. clear S1 S2 E1 E2 Hw1 Eh1 s1.
  assert (highest_inode s2 = highest_inode s) as Eh2 by (unfold same, core in S02; congruence).
  unfold DIRECT_PTRS, UFS_BLOCK_SIZE. destruct (Z.ltb_spec (30 - 1) (offset / 4096)) as [Hbig|Hsmall].
  { exists (-1), s2. split; [done|]. split; [|by right]. apply failed_outcome; [done | by apply wframe_same |].
    rewrite (same_inode_at _ _ _ S02). apply extends_refl. }
  pose proof (same_inode_at _ _ inum S02) as Ei2. pose proof (inode_at_fits s inum (wf_bytes _ Hw)) as Hf.
  pose proof (Z.div_pos offset 4096 ltac:(lia) ltac:(lia)).
  destruct (fill_direct_ok inum (Z.to_nat (offset / 4096) + 1) s2 (inode_at s inum) (offset / 4096))
    as (r & s3 & E3 & Hw3 & F3 & Hr); [done | lia | done | | lia | lia |].
  { eapply pointers_ok_ext; [|exact (wf_ptr _ Hw2)]. intros i _. unfold insert, fn_insert. case_decide; congruence. }
  rewrite (sr_bind_run _ _ _ _ _ E3).
  assert (wframe inum (fun _ => False) s s3) as F03.
  { eapply wframe_trans; [by apply wframe_same | by apply wframe_alloc]. }
  pose proof (wf_hi _ Hw2). assert (0 <= inum <= highest_inode s3) as Hi3 by (rewrite (wr_hi _ _ _ _ F03); exact Hi).
  destruct r as [nd|].
  2: { exists (-1), s3. split; [done|]. split; [|left; lia]. apply failed_outcome; [done | done |].
       rewrite (alloc_frame_inode s2 s3) by (done || lia). rewrite Ei2. apply extends_refl. }
  destruct Hr as (Hf3 & Hex & Hp3 & Hd3).
  destruct (write_inode_ok s3 inum nd Hw3 Hi3 Hf3 Hp3) as (s4 & E4 & Hw4 & U4 & I4).
  rewrite (sr_bind_run _ _ _ _ _ E4). pose proof (wf_hi _ Hw3).
  pose proof (wframe_inode inum (fun _ => False) s3 s4 nd Hw3 Hi3 Hf3 U4 I4) as F4.
  assert (inode_at s4 inum = nd) as Hnd by (rewrite I4 by lia; apply fn_lookup_insert).
  destruct (write_blocks_ok inum ty offset n buf s s4 nd) as (rc & s5 & E5 & O5).
  - done.
  - by eapply wframe_trans.
  - done.
  - done.
  - rewrite (wr_hi _ _ _ _ F4). exact Hi3.
  - destruct Hex as (_ & -> & _). done.
  - lia.
  - lia.
  - done.
  - done.
  - done.
  - apply Hd3. lia.
  - exists rc, s5. split; [exact E5|]. split; [done | left; lia].
Qed.

(** How [read_file] can end. *)
Definition read_outcome (s : srv) (inum : Z) (buf : list Z) (offset n : Z) (r : Z * list Z) : Prop :=
  (r.1 = 0 /\ exists bs, r.2 = bs ++ drop (Z.to_nat n) buf /\ length bs = Z.to_nat n /\
     (forall k, 0 <= k < n -> content s inum (offset + k) = Some (nth (Z.to_nat k) bs 0))) \/
  (r = (-1, buf) /\
     (30 <= offset / 4096 \/ content s inum offset = None \/
      exists k, 0 <= k < n /\ content s inum (offset + k) = None)).

Lemma content_None s inum q o d :
  0 <= q -> 0 <= o < 4096 -> direct (inode_at s inum) !! Z.to_nat q = d ->
  (d = None \/ d = Some NONE) -> content s inum (q * 4096 + o) = None.
Proof.
  intros Hq Ho Hd Hn. unfold content, place. replace ((q * 4096 + o) / 4096) with q by zlia.
  rewrite Hd. by destruct Hn as [-> | ->].
Qed.

Lemma content_in s inum q o d :
  0 <= q -> 0 <= o < 4096 -> direct (inode_at s inum) !! Z.to_nat q = Some d -> d <> NONE ->
  content s inum (q * 4096 + o) = Some (img s (d * 4096 + o)).
Proof. intros Hq Ho Hd Hn. unfold content. by rewrite (place_in _ q d). Qed.

(** Reading [n] bytes of block [d] at offset [o]. *)
Lemma data_read_ok s0 s d o n buf :
  wf s0 -> same s0 s -> data_region_addr (super s0) <= d <= data_region_addr (super s0) + hghst_alloc_dblk s0 ->
  0 <= o -> 0 <= n -> o + n <= 4096 -> n <= Z.of_nat (length buf) ->
  exists s', fsread (u32 (d * UFS_BLOCK_SIZE) + o) buf n s
    = Ok ((n, bytes_at (img s0) (d * 4096 + o) n ++ drop (Z.to_nat n) buf), s') /\ same s0 s'.
Proof.
  intros Hw Hs Hd Ho Hn Hon Hb. pose proof (block_bounds s0 d Hw Hd) as (B1 & B2 & B3).
  pose proof (wf_geo _ Hw) as []. unfold UFS_BLOCK_SIZE. rewrite u32_small by lia.
  pose proof Hs as [= E1 E2 _ _ _]. rewrite fsread_ok by (rewrite ?E2; lia).
  eexists. split; [by rewrite E1|]. exact Hs.
Qed.

Lemma read_file_ok s inum buf offset n :
  wf s -> 0 <= inum <= highest_inode s -> 0 <= offset < 2 ^ 31 -> 0 <= n <= 4096 -> n <= Z.of_nat (length buf) ->
  exists r s', read_file junk inum buf offset n s = Ok (r, s') /\ same s s' /\ read_outcome s inum buf offset n r.
Proof.
  intros Hw Hi Hoff Hn Hnb. unfold read_file.
  destruct (get_inode_ok s inum Hw Hi) as (s1 & E1 & S1). rewrite (sr_bind_run _ _ _ _ _ E1).
  assert (wf s1) as Hw1 by eauto with srv.
  assert (highest_inode s1 = highest_inode s) as Eh1 by (unfold same, core in S1; congruence).
  destruct (inode_dbg_ok s1 inum Hw1 ltac:(lia)) as (s2 & E2 & S2). rewrite (sr_bind_run _ _ _ _ _ E2).
  assert (same s s2) as S02 by eauto with srv. clear S1 S2 E1 E2 Hw1 Eh1 s1.
  unfold DIRECT_PTRS. rewrite Z.rem_mod_nonneg by (unfold UFS_BLOCK_SIZE; lia). cbv zeta.
  change (offset / UFS_BLOCK_SIZE) with (offset / 4096). change (offset mod UFS_BLOCK_SIZE) with (offset mod 4096).
  change (UFS_BLOCK_SIZE - ?x) with (4096 - x).
  pose proof (Z.mod_pos_bound offset 4096 ltac:(lia)). pose proof (Z.div_pos offset 4096 ltac:(lia) ltac:(lia)).
  pose proof (Z.div_mod offset 4096 ltac:(lia)).
  assert (offset / 4096 < 2 ^ 31) by zlia. set (q := offset / 4096) in *. set (o := offset mod 4096) in *.
  rewrite (u32_small q), (u32_small o) by lia. assert (offset = q * 4096 + o) as Hqo by lia.
  rewrite (u32_small (4096 - o)) by lia. rewrite (u32_small n) by lia.
  destruct (Z.ltb_spec (30 - 1) q) as [Hbig|Hsmall].
  { exists (-1, buf), s2. split; [done|]. split; [done|]. right. split; [done|]. left. fold q. lia. }
  pose proof (inode_at_fits s inum (wf_bytes _ Hw)) as Hf. pose proof (wf_hi _ Hw).
  destruct (inode_direct_Some _ q Hf) as (d & Hd & Hdr); [lia|]. change (u32 (-1)) with NONE.
  pose proof (wf_ptr _ Hw) as [P1 P2].
  destruct (Z.leb_spec n (4096 - o)) as [Hle|Hgt].
  - rewrite (sr_bind_run _ _ _ _ _ (direct_get_run s2 _ _ _ Hd)).
    destruct (Z.eqb_spec d NONE) as [->|Hdn].
    { exists (-1, buf), s2. split; [done|]. split; [done|]. right. split; [done|]. right. left.
      rewrite Hqo. by eapply content_None; [lia | lia | exact Hd | right]. }
    destruct (data_read_ok s s2 d o n buf) as (s3 & E3 & S3); [done | done | apply (P1 inum q); [exact Hi | split; [lia | done]] | lia.. |].
    rewrite (sr_bind_run _ _ _ _ _ E3). eexists _, s3. split; [done|]. split; [done|]. left. split; [done|].
    eexists. split; [done|]. split; [apply bytes_at_length; lia|]. intros k Hk.
    rewrite Hqo, <-Z.add_assoc, (content_in s inum q (o + k) d) by (done || lia).
    rewrite nth_lookup_default, bytes_at_lookup by lia. cbn. do 2 f_equal. lia.
  - destruct (Z.eqb_spec q (30 - 1)) as [Hlast|Hlast].
    { exists (-1, buf), s2. split; [done|]. split; [done|]. right. split; [done|]. right. right.
      exists (4096 - o). split; [lia|]. replace (offset + (4096 - o)) with (30 * 4096 + 0) by lia.
      eapply content_None; [lia | lia | reflexivity |]. left. apply lookup_ge_None_2. rewrite (if_len _ Hf). lia. }
    destruct (inode_direct_Some _ (q + 1) Hf) as (d1 & Hd1 & Hdr1); [lia|].
    rewrite (sr_bind_run _ _ _ _ _ (direct_get_run s2 _ _ _ Hd)).
    rewrite (sr_bind_run _ _ _ _ _ (direct_get_run s2 _ _ _ Hd1)).
    destruct (Z.eqb_spec d NONE) as [->|Hdn]; cbn [orb].
    { exists (-1, buf), s2. split; [done|]. split; [done|]. right. split; [done|]. right. left.
      rewrite Hqo. by eapply content_None; [lia | lia | exact Hd | right]. }
    destruct (Z.eqb_spec d1 NONE) as [->|Hdn1].
    { exists (-1, buf), s2. split; [done|]. split; [done|]. right. split; [done|]. right. right.
      exists (4096 - o). split; [lia|]. replace (offset + (4096 - o)) with ((q + 1) * 4096 + 0) by lia.
      by eapply content_None; [lia | lia | exact Hd1 | right]. }
    destruct (data_read_ok s s2 d o (4096 - o) buf) as (s3 & E3 & S3); [done | done | apply (P1 inum q); [exact Hi | split; [lia | done]] | lia.. |].
    rewrite (sr_bind_run _ _ _ _ _ E3). cbn [snd]. rewrite (u32_small (n - _)) by lia.
    set (b1 := bytes_at (img s) (d * 4096 + o) (4096 - o)).
    assert (length b1 = Z.to_nat (4096 - o)) as Hb1 by (apply bytes_at_length; lia).
    rewrite drop_app_length', take_app_length' by done.
    destruct (data_read_ok s s3 d1 0 (n - (4096 - o)) (drop (Z.to_nat (4096 - o)) buf)) as (s4 & E4 & S4);
      [done | done | apply (P1 inum (q + 1)); [done | split; [lia | done]] | lia | lia | lia | rewrite length_drop; lia |].
    rewrite Z.add_0_r in E4. rewrite (sr_bind_run _ _ _ _ _ E4). eexists _, s4. split; [done|]. split; [done|].
    left. split; [done|]. cbn [snd]. set (b2 := bytes_at _ _ _).
    assert (length b2 = Z.to_nat (n - (4096 - o))) as Hb2 by (apply bytes_at_length; lia).
    exists (b1 ++ b2). split; [|split].
    + rewrite <-app_assoc, drop_drop. do 3 f_equal. lia.
    + rewrite length_app. lia.
    + intros k Hk. rewrite nth_lookup_default. destruct (decide (k < 4096 - o)).
      * rewrite lookup_app_l by lia. unfold b1. rewrite bytes_at_lookup by lia.
        rewrite Hqo, <-Z.add_assoc, (content_in s inum q (o + k) d) by (done || lia). cbn. do 2 f_equal. lia.
      * rewrite lookup_app_r by lia. rewrite Hb1. rewrite <-Z2Nat.inj_sub by lia. unfold b2. rewrite bytes_at_lookup by lia.
        replace (offset + k) with ((q + 1) * 4096 + (k - (4096 - o))) by lia.
        rewrite (content_in s inum (q + 1) _ d1) by (done || lia). cbn. do 2 f_equal. lia.
Qed.

End Facts.

(** * A fresh image *)

Section Mkfs.
Context (junk : nat -> mem) (junk_itable junk_block : mem).
Context (ni nd : Z).
Hypothesis Hjunk : mem_ok junk_itable /\ mem_ok junk_block.
Hypothesis Hni : 32 <= ni.
Hypothesis Hnd : 32 <= nd.
Hypothesis Hfit : total_blocks (mkfs_super ni nd) * 4096 < 2 ^ 31.

Let sp := mkfs_super ni nd.

Lemma blocks_for_bounds n per : 0 < n -> 0 < per -> 1 <= blocks_for n per /\ n <= blocks_for n per * per.
Proof. intros Hn Hp. unfold blocks_for. destruct (Z.eqb_spec (n mod per) 0); split; nia || (Z.div_mod_to_equations; nia). Qed.

Lemma mkfs_layout :
  inode_bitmap_addr sp = 1 /\ 1 <= inode_bitmap_len sp /\ 1 <= data_bitmap_len sp /\ 1 <= inode_region_len sp /\
  data_bitmap_addr sp = 1 + inode_bitmap_len sp /\ inode_region_addr sp = data_bitmap_addr sp + data_bitmap_len sp /\
  data_region_addr sp = inode_region_addr sp + inode_region_len sp /\ data_region_len sp = nd /\ num_inodes sp = ni /\
  num_data sp = nd /\
  total_blocks sp = data_region_addr sp + nd /\ ni <= inode_bitmap_len sp * 32768 /\
  nd <= data_bitmap_len sp * 32768 /\ ni * 128 <= inode_region_len sp * 4096.
Proof.
  unfold total_blocks, sp, mkfs_super. change (8 * UFS_BLOCK_SIZE) with 32768.
  change UFS_BLOCK_SIZE with 4096. change sizeof_inode with 128. cbn -[blocks_for Z.add Z.mul].
  pose proof (blocks_for_bounds ni 32768 ltac:(lia) ltac:(lia)).
  pose proof (blocks_for_bounds nd 32768 ltac:(lia) ltac:(lia)).
  pose proof (blocks_for_bounds (ni * 128) 4096 ltac:(lia) ltac:(lia)).
  repeat split; lia.
Qed.

Lemma mkfs_geo : geo sp (total_blocks sp * 4096).
Proof.
  pose proof mkfs_layout as (? & ? & ? & ? & ? & ? & ? & ? & ? & ? & ? & ? & ? & ?).
  change (total_blocks (mkfs_super ni nd)) with (total_blocks sp) in Hfit. split; lia.
Qed.

Lemma pwrite_out f l off x : off <= f.2 -> x < off \/ off + Z.of_nat (length l) <= x -> (pwrite f l off).1 x = f.1 x.
Proof. intros Ho Hx. unfold pwrite. cbn. apply write_at_out; lia. Qed.

Lemma pwrite_in f l off k : 0 <= k < Z.of_nat (length l) -> (pwrite f l off).1 (off + k) = nth (Z.to_nat k) l 0.
Proof. intros Hk. unfold pwrite. cbn. by apply write_at_in. Qed.

Lemma pwrite_len f l off : off + Z.of_nat (length l) <= f.2 -> (pwrite f l off).2 = f.2.
Proof. unfold pwrite. cbn. lia. Qed.

Lemma pwrite_bytes f l off : mem_ok f.1 -> Forall is_byte l -> mem_ok (pwrite f l off).1.
Proof. apply write_at_bytes. Qed.

(** The zeroing loop: the super block's bytes stay, the rest is zero. *)
Lemma mkfs_zero_spec cnt i f :
  1 <= i -> f.2 <= i * 4096 -> mem_ok f.1 -> (forall x, f.2 <= x -> f.1 x = 0) -> (0 < cnt)%nat ->
  (mkfs_zero cnt i f).2 = (i + Z.of_nat cnt) * 4096 /\
  (forall x, (mkfs_zero cnt i f).1 x = f.1 x) /\ mem_ok (mkfs_zero cnt i f).1.
Proof.
  revert i f. induction cnt as [|c IH]; intros i f Hi Hf Hm Hz Hc; [lia|]. cbn [mkfs_zero].
  set (g := pwrite f (replicate 4096 0) (i * UFS_BLOCK_SIZE)).
  assert (g.2 = (i + 1) * 4096) as Hg2.
  { unfold g, pwrite, UFS_BLOCK_SIZE. cbn [snd]. rewrite length_replicate. lia. }
  assert (forall x, g.1 x = f.1 x) as Hg1.
  { intros x. unfold g, pwrite, write_at, UFS_BLOCK_SIZE. cbn [fst]. rewrite length_replicate, nth_lookup_default.
    destruct (Z.leb_spec (i * 4096) x), (Z.ltb_spec x (i * 4096 + Z.of_nat 4096)); cbn [andb];
      [rewrite lookup_replicate_2 by lia; cbn; symmetry; apply Hz; lia|..];
      (destruct (Z.leb_spec f.2 x), (Z.ltb_spec x (i * 4096)); cbn [andb]; try done; symmetry; apply Hz; lia). }
  assert (mem_ok g.1) as Hgm by (intros x; rewrite Hg1; apply Hm).
  destruct c as [|c].
  - cbn [mkfs_zero]. split; [rewrite Hg2; lia|]. done.
  - destruct (IH (i + 1) g) as (A1 & A2 & A3).
    + lia.
    + lia.
    + done.
    + intros x Hx. rewrite Hg1. apply Hz. lia.
    + lia.
    + split; [rewrite A1; lia|]. split; [|done]. intros x. by rewrite A2, Hg1.
Qed.

Lemma words_bytes (ws : list Z) : Forall is_byte (ws ≫= le32).
Proof.
  induction ws as [|w ws IH]; [constructor|]. change ((w :: ws) ≫= le32) with (le32 w ++ (ws ≫= le32)).
  apply Forall_app. split; [apply le32_bytes | done].
Qed.

Lemma splice_bytes b off l : Forall is_byte b -> Forall is_byte l -> Forall is_byte (splice b off l).
Proof. intros Hb Hl. unfold splice. rewrite !Forall_app. auto using Forall_take, Forall_drop. Qed.

Lemma bytes_at_bytes m a n : mem_ok m -> Forall is_byte (bytes_at m a n).
Proof.
  intros Hm. apply Forall_lookup. intros i v Hv. unfold bytes_at in Hv.
  rewrite list_lookup_fmap in Hv. apply fmap_Some in Hv as (k & _ & ->). apply Hm.
Qed.

Lemma unused_entries_inv (P : list Z -> Prop) cnt i db :
  (forall j b, i <= j < i + Z.of_nat cnt -> P b -> P (put32 b (j * sizeof_dir_ent + 28) (-1))) -> P db -> P (unused_entries cnt i db).
Proof.
  revert i db. induction cnt as [|c IH]; intros i db Hstep Hdb; [done|]. cbn [unused_entries].
  apply IH; [intros j b Hj; apply Hstep; lia | apply Hstep; [lia | done]].
Qed.

Lemma mkfs_bitmap_nth k : 0 <= k < 4096 -> nth (Z.to_nat k) mkfs_bitmap 0 = if k =? 3 then 128 else 0.
Proof.
  intros Hk. unfold mkfs_bitmap. rewrite nth_lookup_default.
  destruct (decide (k < 4)) as [H4|H4].
  - assert (k = 0 \/ k = 1 \/ k = 2 \/ k = 3) as [-> | [-> | [-> | ->]]] by lia; done.
  - rewrite lookup_app_r by (rewrite le32_length; lia). rewrite lookup_replicate_2 by (rewrite le32_length; lia).
    cbn. by destruct (Z.eqb_spec k 3); [lia|].
Qed.

(** A bitmap region with only its first bit. *)
Lemma bitmap_first s start n :
  n <= 32768 * ((n + 32767) / 32768) ->
  (forall k, 0 <= k < 4096 * ((n + 32767) / 32768) -> img s (start * 4096 + k) = if k =? 3 then 128 else 0) ->
  bitmap_ok s start n 0.
Proof.
  intros Hn Hb i Hi. unfold word_at, get32. rewrite !get8_bytes_at by lia.
  pose proof (Z.mod_pos_bound i 32 ltac:(lia)).
  rewrite <-!Z.add_assoc, !Hb by zlia.
  destruct (decide (i / 32 = 0)) as [E|E].
  - match goal with |- Z.testbit ?w _ = _ => replace w with (2 ^ 31) by (by rewrite E) end.
    rewrite Z.pow2_bits_eqb by lia.
    destruct (Z.eqb_spec 31 (31 - i mod 32)), (Z.leb_spec i 0); try done; zlia.
  - assert (1 <= i / 32) by zlia.
    repeat match goal with |- context [?x =? 3] => destruct (Z.eqb_spec x 3); [lia|] end.
    cbn -[Z.testbit]. rewrite Z.testbit_0_l. destruct (Z.leb_spec i 0); [zlia | done].
Qed.

Lemma super_of_bytes (p : super_t) :
  Forall (fun v => - 2 ^ 31 <= v < 2 ^ 31)
    [inode_bitmap_addr p; inode_bitmap_len p; data_bitmap_addr p; data_bitmap_len p; inode_region_addr p;
     inode_region_len p; data_region_addr p; data_region_len p; num_inodes p; num_data p] ->
  super_of (super_bytes p) = p.
Proof.
  intros HF. unfold super_bytes. set (ws := [_; _; _; _; _; _; _; _; _; _]) in *.
  assert (forall i w, ws !! i = Some w -> s32 (get32 (ws ≫= le32) (4 * Z.of_nat i)) = w) as Hw.
  { intros i w Hi. pose proof (get32_words [] ws [] i w Hi) as H. rewrite app_nil_r in H.
    change (s32 (get32 ([] ++ (ws ≫= le32)) (0 + 4 * Z.of_nat i)) = w).
    change (Z.of_nat (length [])) with 0 in H. rewrite H, u32_s32. apply s32_small.
    by eapply (proj1 (Forall_lookup _ _) HF). }
  unfold super_of. destruct p. cbn in ws.
  f_equal; match goal with |- s32 (get32 _ (4 * ?i)) = _ => exact (Hw (Z.to_nat i) _ eq_refl) end.
Qed.

(** The steps of [mkfs]'s [main]. *)
Definition mk0 := pwrite (fun _ => 0, 0) (super_bytes sp) 0.
Definition mk1 := mkfs_zero (Z.to_nat (total_blocks sp - 1)) 1 mk0.
Definition mk2 := pwrite mk1 mkfs_bitmap (inode_bitmap_addr sp * UFS_BLOCK_SIZE).
Definition mk3 := pwrite mk2 mkfs_bitmap (data_bitmap_addr sp * UFS_BLOCK_SIZE).
Definition itable := splice (bytes_at junk_itable 0 UFS_BLOCK_SIZE) 0 (inode_bytes (mkfs_root sp)).
Definition mk4 := pwrite mk3 itable (inode_region_addr sp * UFS_BLOCK_SIZE).
Definition parent :=
  unused_entries 126 2 (put32 (splice (put32 (splice (bytes_at junk_block 0 UFS_BLOCK_SIZE) 0 [46; 0]) 28 0)
    sizeof_dir_ent [46; 46; 0]) (sizeof_dir_ent + 28) 0).
Definition mk5 := pwrite mk4 parent (data_region_addr sp * UFS_BLOCK_SIZE).

Lemma mkfs_mk5 : mkfs junk_itable junk_block ni nd = Some mk5.
Proof.
  unfold mkfs. destruct (Z.ltb_spec ni 32); [lia|]. destruct (Z.ltb_spec nd 32); [lia|].
  cbn [orb]. unfold mk5, parent, mk4, itable, mk3, mk2, mk1, mk0, sp. cbv zeta. reflexivity.
Qed.

Lemma parent_ok : length parent = 4096%nat /\ Forall is_byte parent.
Proof.
  unfold parent. assert (Forall is_byte [46; 0] /\ Forall is_byte [46; 46; 0]) as [B1 B2]
    by (rewrite !Forall_cons; unfold is_byte; repeat split; try lia; constructor).
  assert (length (bytes_at junk_block 0 UFS_BLOCK_SIZE) = 4096%nat) as L0 by by rewrite bytes_at_length.
  assert (forall b off l, length b = 4096%nat -> 0 <= off -> off + Z.of_nat (length l) <= 4096 ->
    length (splice b off l) = 4096%nat) as Ls by (intros; rewrite splice_length; lia).
  apply (unused_entries_inv (fun b => length b = 4096%nat /\ Forall is_byte b) 126 2).
  - intros j b Hj [Hb1 Hb2]. split; [|apply splice_bytes; [done | apply le32_bytes]].
    unfold put32, splice. rewrite !length_app, length_take, length_drop, le32_length.
    unfold sizeof_dir_ent. lia.
  - split.
    + unfold put32. rewrite !Ls; rewrite ?Ls; try done; cbn; lia.
    + unfold put32. repeat apply splice_bytes; try done; try apply le32_bytes. apply bytes_at_bytes, Hjunk.
Qed.

Lemma mk1_spec :
  mk1.2 = total_blocks sp * 4096 /\ mem_ok mk1.1 /\ bytes_at mk1.1 0 40 = super_bytes sp /\
  (forall x, 40 <= x -> mk1.1 x = 0).
Proof.
  pose proof mkfs_layout as (? & ? & ? & ? & ? & ? & ? & ? & ? & ? & ? & ? & ? & ?).
  assert (length (super_bytes sp) = 40%nat) as L0 by (unfold super_bytes; by rewrite words_length).
  assert (mem_ok mk0.1) as M0.
  { apply pwrite_bytes; [intros x; split; cbn; lia | apply words_bytes]. }
  assert (mk0.2 = 40) as E0 by (unfold mk0, pwrite; cbn [snd]; rewrite L0; done).
  assert (forall x, 40 <= x -> mk0.1 x = 0) as Z0.
  { intros x Hx. unfold mk0. rewrite pwrite_out; [done | cbn; lia | rewrite L0; lia]. }
  destruct (mkfs_zero_spec (Z.to_nat (total_blocks sp - 1)) 1 mk0) as (A1 & A2 & A3);
    [lia | lia | done | rewrite E0; done | lia |].
  split; [unfold mk1; rewrite A1; lia|]. split; [done|]. split.
  - rewrite (bytes_at_ext mk0.1) by (intros; apply A2).
    unfold mk0, pwrite. cbn [fst snd]. pose proof (bytes_at_write (fun _ => 0) 0 0 (super_bytes sp)) as Hb.
    rewrite L0 in Hb. exact Hb.
  - intros x Hx. unfold mk1. rewrite A2. by apply Z0.
Qed.

Lemma itable_ok : length itable = 4096%nat /\ Forall is_byte itable.
Proof.
  assert (length (inode_bytes (mkfs_root sp)) = 128%nat) as L by by apply inode_bytes_length.
  split.
  - unfold itable. rewrite splice_length; rewrite ?L, ?bytes_at_length; unfold UFS_BLOCK_SIZE; lia.
  - apply splice_bytes; [apply bytes_at_bytes, Hjunk | apply inode_bytes_bytes].
Qed.

(** The finished image. *)
Lemma mk5_spec :
  mk5.2 = total_blocks sp * 4096 /\ mem_ok mk5.1 /\ bytes_at mk5.1 0 40 = super_bytes sp /\
  (forall k, 0 <= k < inode_bitmap_len sp * 4096 ->
     mk5.1 (inode_bitmap_addr sp * 4096 + k) = if k =? 3 then 128 else 0) /\
  (forall k, 0 <= k < data_bitmap_len sp * 4096 ->
     mk5.1 (data_bitmap_addr sp * 4096 + k) = if k =? 3 then 128 else 0) /\
  bytes_at mk5.1 (inode_region_addr sp * 4096) 128 = inode_bytes (mkfs_root sp).
Proof.
  pose proof mkfs_layout as (? & ? & ? & ? & ? & ? & ? & ? & ? & ? & ? & ? & ? & ?).
  destruct mk1_spec as (L1 & M1 & S1 & Z1). destruct itable_ok as (Li & Bi). destruct parent_ok as (Lp & Bp).
  assert (length mkfs_bitmap = 4096%nat) as Lb by (unfold mkfs_bitmap; by rewrite length_app, length_replicate).
  assert (mk2.2 = total_blocks sp * 4096) as L2 by (unfold mk2; rewrite pwrite_len; rewrite ?Lb, ?L1; unfold UFS_BLOCK_SIZE; lia).
  assert (mk3.2 = total_blocks sp * 4096) as L3 by (unfold mk3; rewrite pwrite_len; rewrite ?Lb, ?L2; unfold UFS_BLOCK_SIZE; lia).
  assert (mk4.2 = total_blocks sp * 4096) as L4 by (unfold mk4; rewrite pwrite_len; rewrite ?Li, ?L3; unfold UFS_BLOCK_SIZE; lia).
  assert (Forall is_byte mkfs_bitmap) as Bb.
  { apply Forall_app. split; [apply le32_bytes|]. apply Forall_replicate. split; lia. }
  assert (forall x, x < data_region_addr sp * 4096 -> mk5.1 x = mk4.1 x) as O5.
  { intros x Hx. unfold mk5. apply pwrite_out; [rewrite L4|]; unfold UFS_BLOCK_SIZE; lia. }
  assert (forall x, x < inode_region_addr sp * 4096 -> mk4.1 x = mk3.1 x) as O4.
  { intros x Hx. unfold mk4. apply pwrite_out; [rewrite L3|]; unfold UFS_BLOCK_SIZE; lia. }
  assert (forall x, x < data_bitmap_addr sp * 4096 \/ data_bitmap_addr sp * 4096 + 4096 <= x -> mk3.1 x = mk2.1 x) as O3.
  { intros x Hx. unfold mk3. apply pwrite_out; [rewrite L2|rewrite Lb]; unfold UFS_BLOCK_SIZE; lia. }
  assert (forall x, x < inode_bitmap_addr sp * 4096 \/ inode_bitmap_addr sp * 4096 + 4096 <= x -> mk2.1 x = mk1.1 x) as O2.
  { intros x Hx. unfold mk2. apply pwrite_out; [rewrite L1|rewrite Lb]; unfold UFS_BLOCK_SIZE; lia. }
  split; [unfold mk5; rewrite pwrite_len; rewrite ?Lp, ?L4; unfold UFS_BLOCK_SIZE; lia|].
  split; [by repeat (apply pwrite_bytes; [|done])|]. split; [|split; [|split]].
  - rewrite <-S1. apply bytes_at_ext. intros x Hx. rewrite O5, O4, O3, O2 by lia. done.
  - intros k Hk. rewrite O5, O4, O3 by lia. destruct (decide (k < 4096)).
    + unfold mk2. change UFS_BLOCK_SIZE with 4096. rewrite pwrite_in by (rewrite Lb; lia). apply mkfs_bitmap_nth. lia.
    + rewrite O2, Z1 by lia. destruct (Z.eqb_spec k 3); [lia | done].
  - intros k Hk. rewrite O5, O4 by lia. destruct (decide (k < 4096)).
    + unfold mk3. change UFS_BLOCK_SIZE with 4096. rewrite pwrite_in by (rewrite Lb; lia). apply mkfs_bitmap_nth. lia.
    + rewrite O3, O2, Z1 by lia. destruct (Z.eqb_spec k 3); [lia | done].
  - rewrite (bytes_at_ext mk4.1) by (intros; apply O5; lia). unfold mk4, UFS_BLOCK_SIZE.
    assert (length (inode_bytes (mkfs_root sp)) = 128%nat) as L by by apply inode_bytes_length.
    apply list_eq. intros i. destruct (decide (i < 128)%nat) as [Hi|Hi].
    + rewrite <- (Nat2Z.id i), bytes_at_lookup by lia. rewrite pwrite_in by (rewrite Li; lia).
      rewrite Nat2Z.id, nth_lookup_default. unfold itable, splice. change (Z.to_nat 0) with 0%nat.
      rewrite take_0, app_nil_l, lookup_app_l by lia.
      by destruct (lookup_lt_is_Some_2 (inode_bytes (mkfs_root sp)) i ltac:(lia)) as [v ->].
    + rewrite !lookup_ge_None_2; [done | lia | rewrite bytes_at_length; lia].
Qed.

Lemma root_fits : inode_fits (mkfs_root sp).
Proof.
  pose proof mkfs_layout as (? & ? & ? & ? & ? & ? & ? & ? & ? & ? & ? & ? & ? & ?).
  change (total_blocks (mkfs_super ni nd)) with (total_blocks sp) in Hfit.
  split; [unfold mkfs_root, UFS_DIRECTORY; cbn [type]; lia | unfold mkfs_root, sizeof_dir_ent; cbn [size]; lia | done |].
  intros k d Hk. destruct k as [|k]; [change (Some (data_region_addr sp) = Some d) in Hk; apply (inj Some) in Hk as <-; lia|].
  change (replicate 29 (u32 (-1)) !! k = Some d) in Hk.
  apply lookup_replicate in Hk as [-> _]. apply u32_range.
Qed.

(** The server's state once it has read the super block of a fresh image. *)
Definition fresh : srv := mkSrv mk5.1 mk5.2 40 sp 0 0 0.

Lemma fresh_root : inode_at fresh 0 = mkfs_root sp.
Proof.
  destruct mk5_spec as (_ & _ & _ & _ & _ & R5). unfold inode_at, inode_addr. cbn [img super fresh].
  change UFS_BLOCK_SIZE with 4096. change (0 * sizeof_inode) with 0. rewrite Z.add_0_r.
  change sizeof_inode with 128. rewrite R5. apply inode_of_bytes, root_fits.
Qed.

Lemma fresh_wf : wf fresh.
Proof.
  pose proof mkfs_layout as (? & ? & ? & ? & ? & ? & ? & ? & ? & ? & ? & ? & ? & ?).
  destruct mk5_spec as (L5 & M5 & S5 & I5 & D5 & R5). split; cbn [img img_len super highest_inode hghst_alloc_dblk fresh].
  - rewrite L5. apply mkfs_geo.
  - lia.
  - lia.
  - done.
  - apply bitmap_first; [zlia|]. intros k Hk. apply I5. zlia.
  - apply bitmap_first; [zlia|]. intros k Hk. apply D5. zlia.
  - assert (forall i k d, 0 <= i <= 0 -> owns (inode_at fresh) i k d -> i = 0 /\ k = 0 /\ d = data_region_addr sp) as Ho.
    { intros i k d Hi (Hk & Hl & Hn). replace i with 0 in * by lia. rewrite fresh_root in Hl.
      unfold mkfs_root in Hl. cbn [direct] in Hl.
      destruct (Z.to_nat k) as [|k'] eqn:Ek.
      - cbn in Hl. injection Hl as <-. split; [done|]. split; [lia | done].
      - change (replicate 29 (u32 (-1)) !! k' = Some d) in Hl. apply lookup_replicate in Hl as [-> _]. done. }
    split.
    + intros i k d Hi O. apply Ho in O as (-> & -> & ->); [lia | done].
    + intros i i' k k' d Hi Hi' O1 O2. apply Ho in O1 as (-> & -> & ->), O2 as (-> & -> & _); done.
Qed.

Lemma initialize_fresh : exists s, initialize_serv junk mk5.1 mk5.2 0 = Ok (0, s) /\ same fresh s.
Proof.
  pose proof mkfs_layout as (? & ? & ? & ? & ? & ? & ? & ? & ? & ? & ? & ? & ? & ?).
  destruct mk5_spec as (L5 & M5 & S5 & I5 & D5 & R5).
  change (total_blocks (mkfs_super ni nd)) with (total_blocks sp) in Hfit.
  unfold initialize_serv. erewrite sr_bind_run; [|apply fsread_ok; rewrite ?length_replicate; cbn [img_len]; unfold sizeof_super; lia].
  cbn [snd img]. change sizeof_super with 40. rewrite S5.
  rewrite drop_ge, app_nil_r by (rewrite length_replicate; lia).
  unfold sr_modify. erewrite sr_bind_run by done. rewrite super_of_bytes.
  - destruct (inode_dbg_ok junk fresh 0 fresh_wf ltac:(cbn; lia)) as (s' & E & S').
    exists s'. split; [|done]. erewrite sr_bind_run; [reflexivity | exact E].
  - rewrite !Forall_cons. repeat split; try constructor; lia.
Qed.

End Mkfs.

(** C21: An image written by [mkfs] for any numbers of inodes and data blocks
    whose image stays below 2 GB starts a server that satisfies the invariant:
    the regions are disjoint and large enough, the bitmaps hold exactly the
    root inode and its block, and the root is an empty directory.  It does not
    matter what the uninitialised parts of [mkfs]'s structures hold. *)
Theorem fresh_server_wf junk junk_itable junk_block ni nd :
  mem_ok junk_itable -> mem_ok junk_block -> 32 <= ni -> 32 <= nd ->
  total_blocks (mkfs_super ni nd) * 4096 < 2 ^ 31 ->
  exists f s, mkfs junk_itable junk_block ni nd = Some f /\
    initialize_serv junk f.1 f.2 0 = Ok (0, s) /\ wf s /\
    highest_inode s = 0 /\ inode_at s 0 = mkfs_root (super s).
Proof.
  intros J1 J2 H1 H2 H3. pose proof (conj J1 J2) as J.
  destruct (initialize_fresh junk junk_itable junk_block ni nd J H1 H2 H3) as (s & E & S).
  exists (mk5 junk_itable junk_block ni nd), s. split; [by apply mkfs_mk5|]. split; [done|].
  split; [eapply same_wf; [exact S | by apply fresh_wf]|].
  destruct (same_globals _ _ S) as [-> ->]. split; [reflexivity|].
  rewrite (same_inode_at _ _ 0 S). exact (fresh_root junk_itable junk_block ni nd J H1 H2 H3).
Qed.

Lemma fresh_server_wf_witness :
  exists f s, mkfs (fun _ => 255) (fun a => Z.land a 255) 64 200 = Some f /\
    initialize_serv (fun _ _ => 7) f.1 f.2 0 = Ok (0, s) /\ wf s /\
    highest_inode s = 0 /\ inode_at s 0 = mkfs_root (super s).
Proof.
  apply (fresh_server_wf (fun _ _ => 7) (fun _ => 255) (fun a => Z.land a 255) 64 200).
  - intros a. split; lia.
  - intros a. unfold is_byte. change 255 with (Z.ones 8). rewrite Z.land_ones by lia.
    apply Z.mod_pos_bound. lia.
  - lia.
  - lia.
  - vm_compute. reflexivity.
Defined.

(** ** Consequences of the outcomes *)

Lemma place_Some nd k x :
  0 <= k -> place nd k = Some x ->
  exists d, owns (fun _ => nd) 0 (k / 4096) d /\ x = d * 4096 + k mod 4096.
Proof.
  intros Hk Hp. unfold place in Hp. destruct (direct nd !! _) as [d|] eqn:Hd; [|done].
  destruct (Z.eqb_spec d NONE); [done|]. injection Hp as <-. exists d. split; [|done].
  split; [apply Z.div_pos; lia | done].
Qed.

(** Places of two files never coincide, nor two places of one file. *)
Lemma place_inj s i i' k k' x :
  wf s -> 0 <= i <= highest_inode s -> 0 <= i' <= highest_inode s -> 0 <= k -> 0 <= k' ->
  place (inode_at s i) k = Some x -> place (inode_at s i') k' = Some x -> i = i' /\ k = k'.
Proof.
  intros Hw Hi Hi' Hk Hk' P P'. apply place_Some in P as (d & O & ->); [|done].
  apply place_Some in P' as (d' & O' & E); [|done].
  assert (d = d') as -> by zlia. destruct (wf_ptr _ Hw) as [_ Hinj].
  destruct (Hinj i i' (k / 4096) (k' / 4096) d' Hi Hi' O O') as [-> Eb]. split; [done|]. zlia.
Qed.

Lemma place_data s i k x :
  wf s -> 0 <= i <= highest_inode s -> 0 <= k -> place (inode_at s i) k = Some x ->
  data_region_addr (super s) * 4096 <= x.
Proof.
  intros Hw Hi Hk P. apply place_Some in P as (d & O & ->); [|done].
  pose proof (proj1 (wf_ptr _ Hw) i _ d Hi O). pose proof (Z.mod_pos_bound k 4096). lia.
Qed.

(** The other files: none of their bytes is dirty, as the places of the written
    file are not theirs. *)
Lemma frame_others inum dirty s s' i k :
  wf s' -> 0 <= inum <= highest_inode s -> 0 <= i <= highest_inode s -> i <> inum -> 0 <= k ->
  (forall x, dirty x -> exists j, 0 <= j /\ place (inode_at s' inum) j = Some x) ->
  wframe inum dirty s s' -> content s' i k = content s i k.
Proof.
  intros Hw' Hinum Hi Hne Hk Hdirty F. unfold content. rewrite (wr_ino _ _ _ _ F) by done.
  destruct (place (inode_at s i) k) as [x|] eqn:P; [|done]. cbn. f_equal.
  rewrite <- (wr_ino _ _ _ _ F) in P by done. pose proof (wr_hi _ _ _ _ F) as Eh.
  apply (wr_data _ _ _ _ F).
  - rewrite <- (wr_super _ _ _ _ F). eapply (place_data s' i k); [done | by rewrite Eh | done | done].
  - intros Hd. apply Hdirty in Hd as (j & Hj & Pj).
    destruct (place_inj s' i inum k j x) as [? _]; rewrite ?Eh; done.
Qed.

Lemma failed_keeps inum s s' k v :
  wf s -> 0 <= inum <= highest_inode s -> 0 <= k -> wframe inum (fun _ => False) s s' ->
  extends (inode_at s inum) (inode_at s' inum) -> content s inum k = Some v -> content s' inum k = Some v.
Proof.
  intros Hw Hi Hk F (_ & _ & X) Hc. unfold content in *. apply fmap_Some in Hc as (x & P & ->).
  pose proof (place_data s inum k x Hw Hi Hk P) as Hx.
  apply place_Some in P as (d & (Hq & Hd & Hn) & E); [|done].
  unfold place. rewrite (X _ _ Hd Hn). destruct (Z.eqb_spec d NONE); [done|]. rewrite <-E. cbn. f_equal.
  apply (wr_data _ _ _ _ F); [done | tauto].
Qed.

Lemma wrote_keeps inum offset n buf s s' k v :
  wf s -> wf s' -> 0 <= inum <= highest_inode s -> 0 <= k -> 0 <= offset -> wrote inum offset n buf s s' ->
  content s inum k = Some v -> ~ offset <= k < offset + n ->
  n <= 4096 - offset mod 4096 \/ k / 4096 <> offset / 4096 + 1 -> content s' inum k = Some v.
Proof.
  intros Hw Hw' Hi Hk Hoff W Hc Hout Hslot. unfold content in *. apply fmap_Some in Hc as (x & P & ->).
  pose proof (place_data s inum k x Hw Hi Hk P) as Hx.
  apply place_Some in P as (d & (Hq & Hd & Hn) & E); [|done].
  pose proof (wo_slots _ _ _ _ _ _ W _ _ Hd Hn) as Hd'. rewrite Z2Nat.id in Hd' by lia. specialize (Hd' Hslot).
  assert (place (inode_at s' inum) k = Some x) as P'.
  { unfold place. rewrite Hd'. destruct (Z.eqb_spec d NONE); [done | by rewrite E]. }
  rewrite P'. cbn. f_equal. pose proof (wo_frame _ _ _ _ _ _ W) as F.
  apply (wr_data _ _ _ _ F); [done|]. cbn beta. intros (j & Hj & Pj).
  destruct (place_inj s' inum inum k (offset + j) x) as [_ Ek]; rewrite ?(wr_hi _ _ _ _ F); lia || done.
Qed.

Lemma wrote_read_back junk inum offset n buf rbuf s s' :
  wf s' -> 0 <= inum <= highest_inode s -> 0 <= offset < 2 ^ 31 -> 0 <= n <= 4096 ->
  n <= Z.of_nat (length buf) -> n <= Z.of_nat (length rbuf) -> wrote inum offset n buf s s' ->
  exists s'', read_file junk inum rbuf offset n s'
    = Ok ((0, take (Z.to_nat n) buf ++ drop (Z.to_nat n) rbuf), s'').
Proof.
  intros Hw' Hi Hoff Hn Hnb Hnr W. pose proof (wr_hi _ _ _ _ (wo_frame _ _ _ _ _ _ W)) as Eh.
  destruct (read_file_ok junk s' inum rbuf offset n) as (r & s'' & E & _ & O); [done | by rewrite Eh | done..|].
  exists s''. rewrite E. do 2 f_equal. destruct O as [(E0 & bs & Eb & Lb & Db) | (_ & Obad)].
  - destruct r as [rc b]. cbn in E0, Eb. subst. f_equal. f_equal.
    apply list_eq. intros i. destruct (decide (i < Z.to_nat n)%nat) as [Hlt|Hge].
    + rewrite lookup_take_lt by done. pose proof (Db (Z.of_nat i) ltac:(lia)) as H1.
      rewrite (wo_data _ _ _ _ _ _ W) in H1 by lia. injection H1 as H1. rewrite !nth_lookup_default, Nat2Z.id in H1.
      destruct (lookup_lt_is_Some_2 bs i ltac:(lia)) as [v Ev], (lookup_lt_is_Some_2 buf i ltac:(lia)) as [w Ew].
      rewrite Ev, Ew in *. cbn in H1. by subst.
    + rewrite !lookup_ge_None_2; [done | rewrite length_take; lia | lia].
  - exfalso. destruct Obad as [Hbig | [Hnone | (k & Hk & Hnone)]].
    + pose proof (wo_block _ _ _ _ _ _ W) as Hblk. apply Hblk. unfold place.
      rewrite lookup_ge_None_2; [done|]. rewrite (if_len _ (inode_at_fits s' inum (wf_bytes _ Hw'))). lia.
    + apply (wo_block _ _ _ _ _ _ W). unfold content in Hnone. by apply fmap_None in Hnone.
    + by rewrite (wo_data _ _ _ _ _ _ W) in Hnone by done.
Qed.

(** * Properties *)

(** Write and read agree.  For an allocated file of the requested type and
    a request of at most a block, [write_file] terminates without leaving its
    objects and keeps the invariant.  If it returns 0, [read_file] at the same
    offset returns exactly the bytes written (one block or across two), and
    the file's size is the larger of the old one and the end of the write.
    Whatever it returns, every byte of every other file is unchanged; of the
    file itself a byte outside the range is unchanged, except when a successful
    write crosses a block boundary, for the bytes of the second block. *)
Lemma write_read_agree junk s inum buf rbuf offset n ty :
  wf s -> 0 <= inum <= highest_inode s -> type (inode_at s inum) = ty -> 0 <= size (inode_at s inum) ->
  0 <= offset < 2 ^ 31 -> 0 <= n <= 4096 -> n <= Z.of_nat (length buf) -> n <= Z.of_nat (length rbuf) ->
  Forall is_byte buf ->
  exists rc s', write_file junk inum buf offset n ty s = Ok (rc, s') /\ wf s' /\ (rc = 0 \/ rc = -1) /\
    (rc = 0 -> (exists s'', read_file junk inum rbuf offset n s'
                  = Ok ((0, take (Z.to_nat n) buf ++ drop (Z.to_nat n) rbuf), s'')) /\
               size (inode_at s' inum) = Z.max (size (inode_at s inum)) (offset + n)) /\
    (forall i k, 0 <= i <= highest_inode s -> i <> inum -> 0 <= k -> content s' i k = content s i k) /\
    (forall k v, 0 <= k -> content s inum k = Some v ->
       rc = -1 \/ ~ offset <= k < offset + n /\ (n <= 4096 - offset mod 4096 \/ k / 4096 <> offset / 4096 + 1) ->
       content s' inum k = Some v).
Proof.
  intros Hw Hi Hty Hsz Hoff Hn Hnb Hnr Hb.
  destruct (write_file_ok junk s inum buf offset n ty) as (rc & s' & E & (Hw' & Ho) & _); [done || lia..|].
  exists rc, s'. split; [done|]. split; [done|].
  destruct Ho as [(-> & F & Hex)|(-> & W)].
  - split; [by right|]. split; [done|]. split.
    { intros i k Hi' Hne Hk. eapply (frame_others inum (fun _ => False)); [done.. | tauto | done]. }
    intros k v Hk Hc _. exact (failed_keeps inum s s' k v Hw Hi Hk F Hex Hc).
  - split; [by left|]. split; [|split].
    + intros _. split; [by eapply (wrote_read_back junk inum offset n buf rbuf s) | apply W].
    + intros i k Hi' Hne Hk. eapply (frame_others inum); [done.. | | apply W].
      cbn beta. intros x (j & Hj & Pj). exists (offset + j). split; [lia | done].
    + intros k v Hk Hc [Hbad | [Hout Hslot]]; [done|]. exact (wrote_keeps inum offset n buf s s' k v Hw Hw' Hi Hk (proj1 Hoff) W Hc Hout Hslot).
Qed.

(** A fresh server of 64 inodes and 200 blocks. *)
Definition demo_srv : srv := fresh (fun _ => 0) (fun _ => 0) 64 200.

Lemma demo_srv_ok : wf demo_srv /\ inode_at demo_srv 0 = mkfs_root (mkfs_super 64 200).
Proof.
  assert (mem_ok (fun _ => 0) /\ mem_ok (fun _ => 0)) as J by (split; intros a; split; lia).
  assert (total_blocks (mkfs_super 64 200) * 4096 < 2 ^ 31) as Hfit by (vm_compute; reflexivity).
  split; [apply fresh_wf | apply fresh_root]; (done || lia).
Qed.

(** The allocators never hand out anything twice while the server runs.
    [alloc_dblk] fails only when all blocks are out, and otherwise returns a
    block of the data region that no pointer of any file refers to; [new_inode]
    fails only when all inodes are out, and otherwise returns an inode number
    above all the earlier ones, now with an empty inode of the given type.
    Both keep the invariant, every other inode and every file's bytes. *)
Lemma allocators_never_reuse junk s ty :
  wf s -> - 2 ^ 31 <= ty < 2 ^ 31 ->
  (exists r s', alloc_dblk junk s = Ok (r, s') /\ wf s' /\
     (r = -1 /\ s' = s /\ hghst_alloc_dblk s = data_region_len (super s) - 1 \/
      data_region_addr (super s) <= r < data_region_addr (super s) + data_region_len (super s) /\
      (forall i k, 0 <= i <= highest_inode s -> ~ owns (inode_at s) i k r) /\
      (forall i k, 0 <= i <= highest_inode s -> 0 <= k -> content s' i k = content s i k))) /\
  (exists r s', new_inode junk ty s = Ok (r, s') /\ wf s' /\
     (r = -1 /\ s' = s /\ highest_inode s = num_inodes (super s) - 1 \/
      highest_inode s < r < num_inodes (super s) /\ inode_at s' r = mkInode ty 0 (replicate 30 NONE) /\
      (forall i, 0 <= i <= highest_inode s -> inode_at s' i = inode_at s i) /\
      (forall i k, 0 <= i <= highest_inode s -> 0 <= k -> content s' i k = content s i k))).
Proof.
  intros Hw Ht. split.
  - destruct (alloc_dblk_ok junk s Hw) as (r & s' & E & Hw' & F & Hr). exists r, s'.
    split; [done|]. split; [done|]. destruct Hr as [?|(-> & Eh)]; [by left | right].
    pose proof (wf_hd _ Hw). pose proof (wf_hd _ Hw') as Hd'. rewrite Eh, (af_super _ _ F) in Hd'.
    split; [lia|]. split.
    + intros i k Hi O. pose proof (proj1 (wf_ptr _ Hw) _ _ _ Hi O). lia.
    + intros i k Hi Hk. pose proof (wf_hi _ Hw). pose proof (wf_geo _ Hw) as []. unfold content.
      rewrite (alloc_frame_inode s s') by (done || lia).
      destruct (place (inode_at s i) k) as [x|] eqn:P; [|done]. cbn. f_equal. apply F.
      pose proof (place_data s i k x Hw Hi Hk P). lia.
  - destruct (new_inode_ok junk s ty Hw Ht) as (r & s' & E & Hw' & Es & _ & D & Hr). exists r, s'.
    split; [done|]. split; [done|]. destruct Hr as [?|(-> & Eh & I)]; [by left | right].
    pose proof (wf_hi _ Hw). pose proof (wf_hi _ Hw') as Hi'. rewrite Eh, Es in Hi'.
    assert (forall i, 0 <= i <= highest_inode s -> inode_at s' i = inode_at s i) as Hsame.
    { intros i Hi. rewrite I by lia. rewrite fn_lookup_insert_ne by lia. done. }
    split; [lia|]. split; [rewrite I by lia; apply fn_lookup_insert|]. split; [done|].
    intros i k Hi Hk. unfold content. rewrite Hsame by done.
    destruct (place (inode_at s i) k) as [x|] eqn:P; [|done]. cbn. f_equal. apply D.
    exact (place_data s i k x Hw Hi Hk P).
Qed.

(** ** Where the server loses data *)

(** An image laid out as [mkfs -i 32 -d 32] does, with zeros for the
    uninitialised bytes, as one function: the super block, the first bit of each
    bitmap, the root inode and the root's entries. *)
Definition small_super : super_t := mkSuper 1 1 2 1 3 1 4 32 32 32.

Definition small_img : mem := fun x =>
  if x <? 40 then nth (Z.to_nat x) (super_bytes small_super) 0
  else if (x =? 4096 + 3) || (x =? 2 * 4096 + 3) then 128
  else if (3 * 4096 <=? x) && (x <? 3 * 4096 + 128) then nth (Z.to_nat (x - 3 * 4096)) (inode_bytes (mkfs_root small_super)) 0
  else if (4 * 4096 <=? x) && (x <? 5 * 4096) then
    if x <? 4 * 4096 + 64 then nth (Z.to_nat (x - 4 * 4096)) (46 :: replicate 31 0 ++ [46; 46]) 0
    else if 28 <=? x mod 32 then 255 else 0
  else 0.

Definition small_srv : srv := mkSrv small_img (36 * 4096) 0 small_super 0 0 0.

Definition zero_junk : nat -> mem := fun _ _ => 0.

Definition run_srv {A} (m : SR srv A) (s : srv) : option A :=
  match m s with Ok (a, _) => Some a | _ => None end.

(** A write that crosses into a block the file already has replaces that
    block by a fresh one: after writing 7 at offset 4098 and two bytes at 4095,
    both with success, offset 4098 reads as 0. *)
Lemma cross_block_write_loses_data :
  run_srv (_ ← new_inode zero_junk UFS_REGULAR_FILE;
           w1 ← write_file zero_junk 1 [7] 4098 1 UFS_REGULAR_FILE;
           r1 ← read_file zero_junk 1 [1] 4098 1;
           w2 ← write_file zero_junk 1 [8; 9] 4095 2 UFS_REGULAR_FILE;
           r2 ← read_file zero_junk 1 [1] 4098 1;
           mret (w1, r1, w2, r2)) small_srv
  = Some (0, (0, [7]), 0, (0, [0])).
Proof. vm_compute. reflexivity. Qed.

(** [unlink_file] truncates the directory at the removed entry, so later
    entries are overwritten: after creating a and b, removing a and creating c
    and d, all with success, b is not found any more. *)
Lemma unlink_loses_entries :
  run_srv (r1 ← creat_file zero_junk 0 UFS_REGULAR_FILE [97];
           r2 ← creat_file zero_junk 0 UFS_REGULAR_FILE [98];
           b1 ← lookup_file zero_junk 0 [98];
           r3 ← unlink_file zero_junk 0 [97];
           r4 ← creat_file zero_junk 0 UFS_REGULAR_FILE [99];
           r5 ← creat_file zero_junk 0 UFS_REGULAR_FILE [100];
           b2 ← lookup_file zero_junk 0 [98];
           mret ([r1; r2; r3; r4; r5], (fun p => entry_inum p.1) <$> b1, b2)) small_srv
  = Some ([0; 0; 0; 0; 0], Some 2, None).
Proof. vm_compute. reflexivity. Qed.

(** A restarted server forgets what was handed out: [initialize_serv]
    resets the counters, so the first file created after a restart gets the
    inode of an existing file, and both names then mean one file. *)
Lemma restart_reuses_inodes :
  match creat_file zero_junk 0 UFS_REGULAR_FILE [97] small_srv with
  | Ok (_, s) =>
      match initialize_serv zero_junk (img s) (img_len s) 0 with
      | Ok (_, s') =>
          run_srv (_ ← creat_file zero_junk 0 UFS_REGULAR_FILE [98];
                   a ← lookup_file zero_junk 0 [97];
                   b ← lookup_file zero_junk 0 [98];
                   mret ((fun p => entry_inum p.1) <$> a, (fun p => entry_inum p.1) <$> b)) s'
      | _ => None
      end
  | _ => None
  end = Some (Some 1, Some 1).
Proof. vm_compute. reflexivity. Qed.

(** A name of 28 characters, which the client accepts, is stored with its NUL
    in the low byte of the entry's inode number: the new name means the root
    directory. *)
Lemma long_name_links_root :
  run_srv (_ ← creat_file zero_junk 0 UFS_REGULAR_FILE (replicate 28 97);
           e ← lookup_file zero_junk 0 (replicate 28 97);
           mret ((fun p => entry_inum p.1) <$> e)) small_srv
  = Some (Some 0).
Proof. vm_compute. reflexivity. Qed.
