(* ===== verification/MfsFacts.v ===== *)
(** The client library [filesystem/mfs.c] against the server: retransmission
    over a network that loses requests and replies.

    A request may be served several times before its reply arrives.  The
    theorem shows that this at-least-once delivery is harmless for writes: a
    write that reports success is read back by a later read, whatever is lost in
    between. *)

From S2P Require Import Prelude Block Server ServerFacts.

Section Client.
Context (junk : nat -> mem) (sd rc : Z) (junk_msg : message_t).

(** The server is up and [inum] is one of its regular files. *)
Record up (inum : Z) (n : net) : Prop := {
  up_on : n_up n = true;
  up_wf : wf (n_srv n);
  up_inum : 0 <= inum <= highest_inode (n_srv n);
  up_type : type (inode_at (n_srv n) inum) = UFS_REGULAR_FILE;
  up_size : 0 <= size (inode_at (n_srv n) inum);
  up_rx : length (m_buf (n_rx n)) = 4096%nat
}.

(** [send_loop] when serving the request keeps [I] and answers with [Q]: the
    reply that arrives is that of some execution. *)
Lemma send_loop_ok (I : net -> Prop) (Q : message_t -> net -> Prop) send tries n :
  (forall n, I n -> exists m n', deliver junk send n = Ok (Some m, n') /\ I n' /\ Q m n') ->
  Delivered ∈ tries -> I n ->
  exists m n', send_loop junk tries send n = Ok (m, n') /\ I n' /\ Q m n'.
Proof.
  intros Hserve Hin. revert n. induction tries as [|t tries IH]; intros n Hn; [by apply not_elem_of_nil in Hin|].
  assert (t <> Delivered -> Delivered ∈ tries) as Htl.
  { intros Hne. apply elem_of_cons in Hin as [E|E]; [congruence | done]. }
  destruct (Hserve n Hn) as (m & n' & E & Hn' & Hq).
  destruct t; cbn [send_loop].
  - apply IH; [by apply Htl | done].
  - rewrite (sr_bind_run _ _ _ _ _ E). apply IH; [by apply Htl | done].
  - rewrite (sr_bind_run _ _ _ _ _ E). apply IH; [by apply Htl | done].
  - rewrite (sr_bind_run _ _ _ _ _ E). by exists m, n'.
Qed.

Lemma Server_To_Client_ok (I : net -> Prop) (Q : message_t -> net -> Prop) send tries n :
  -1 <= sd -> 0 <= rc ->
  (forall n, I n -> exists m n', deliver junk send n = Ok (Some m, n') /\ I n' /\ Q m n') ->
  Delivered ∈ tries -> I n ->
  exists m n', Server_To_Client junk sd rc tries send n = Ok (Some m, n') /\ I n' /\ Q m n'.
Proof.
  intros Hsd Hrc Hserve Hin Hn. destruct (send_loop_ok I Q send tries n Hserve Hin Hn) as (m & n' & E & H).
  exists m, n'. split; [|done]. unfold Server_To_Client.
  destruct (Z.ltb_spec sd (-1)); [lia|]. destruct (Z.ltb_spec rc 0); [lia|].
  by rewrite (sr_bind_run _ _ _ _ _ E).
Qed.

(** The bytes at [offset] of the file are those of [buffer]. *)
Definition holds (inum offset nbytes : Z) (buffer : mem) (n : net) : Prop :=
  place (inode_at (n_srv n) inum) offset <> None /\
  forall k, 0 <= k < nbytes -> content (n_srv n) inum (offset + k) = Some (buffer k).

Section Requests.
Context (inum offset nbytes : Z) (buffer : mem).
Hypothesis Hoff : 0 <= offset < 2 ^ 31.
Hypothesis Hnb : 0 <= nbytes <= 4096.
Hypothesis Hbuf : mem_ok buffer.

Definition write_msg : message_t :=
  mkMessage (bytes_at buffer 0 4096) (m_name junk_msg) offset nbytes (m_mtype junk_msg)
    inum MFS_WRITE (m_st_type junk_msg) (m_st_size junk_msg).

Definition read_msg : message_t :=
  mkMessage (m_buf junk_msg) (m_name junk_msg) offset nbytes (m_mtype junk_msg)
    inum MFS_READ (m_st_type junk_msg) (m_st_size junk_msg).

(** Serving the write once. *)
Lemma deliver_write n :
  up inum n ->
  exists m n', deliver junk write_msg n = Ok (Some m, n') /\ up inum n' /\
    (m_node_num m = 0 /\ holds inum offset nbytes buffer n' \/ m_node_num m = -1).
Proof.
  intros [On Hw Hi Ht Hs Hrx]. unfold deliver. rewrite On. cbn [negb].
  unfold serve. change (m_msg write_msg) with MFS_WRITE. cbn [Z.eqb Pos.eqb MFS_WRITE MFS_LOOKUP MFS_STAT].
  cbn [m_node_num m_buf m_offset m_nbytes write_msg]. rewrite (u32_small offset) by lia.
  assert (length (bytes_at buffer 0 4096) = 4096%nat) as Hl by by rewrite bytes_at_length.
  destruct (write_file_ok junk (n_srv n) inum (bytes_at buffer 0 4096) offset nbytes UFS_REGULAR_FILE)
    as (w & s' & E & (Hw' & Ho) & _); [done | done | done | done | lia | lia | lia | by apply bytes_at_bytes |].
  unfold mbind, SR_bind. rewrite E. cbn.
  eexists _, _. split; [done|].
  destruct Ho as [(-> & F & (X1 & X2 & _))|(-> & W)].
  - split; [|by right]. split; cbn [n_up n_srv n_rx m_buf with_msg with_node_num]; try done.
    + by rewrite (wr_hi _ _ _ _ F).
    + by rewrite X1.
    + by rewrite X2.
  - split.
    + split; cbn [n_up n_srv n_rx m_buf with_msg with_node_num]; try done.
      * by rewrite (wr_hi _ _ _ _ (wo_frame _ _ _ _ _ _ W)).
      * by rewrite (wo_type _ _ _ _ _ _ W).
      * rewrite (wo_size _ _ _ _ _ _ W). lia.
    + left. split; [done|]. split; [exact (wo_block _ _ _ _ _ _ W)|]. intros k Hk. cbn [n_srv].
      rewrite (wo_data _ _ _ _ _ _ W) by done. f_equal.
      rewrite nth_lookup_default, bytes_at_lookup by lia. done.
Qed.

(** Serving the read once. *)
Lemma deliver_read n :
  up inum n /\ holds inum offset nbytes buffer n ->
  exists m n', deliver junk read_msg n = Ok (Some m, n') /\ (up inum n' /\ holds inum offset nbytes buffer n') /\
    m_node_num m = 0 /\ (forall k, 0 <= k < nbytes -> nth (Z.to_nat k) (m_buf m) 0 = buffer k).
Proof.
  intros [[On Hw Hi Ht Hs Hrx] [Hb Hh]]. unfold deliver. rewrite On. cbn [negb].
  unfold serve. change (m_msg read_msg) with MFS_READ. cbn [Z.eqb Pos.eqb MFS_READ MFS_WRITE MFS_LOOKUP MFS_STAT].
  cbn [m_node_num m_offset m_nbytes read_msg].
  destruct (read_file_ok junk (n_srv n) inum (m_buf (n_rx n)) offset nbytes) as (r & s' & E & S & O);
    [done | done | done | done | lia |].
  unfold mbind, SR_bind. rewrite E. cbn. destruct (same_globals _ _ S) as [Es Eh].
  destruct O as [(E0 & bs & Eb & Lb & Db)|(-> & Hbad)].
  - destruct r as [r b]. cbn in E0, Eb |- *. subst r b. eexists _, _. split; [done|]. split; [split|split; [done|]].
    + split; cbn [n_up n_srv n_rx m_buf with_msg with_node_num with_buf]; rewrite ?Eh, ?(same_inode_at _ _ _ S); try done.
      * by eapply same_wf.
      * rewrite length_app, length_drop. lia.
    + unfold holds, content in *. cbn [n_srv]. rewrite (same_inode_at _ _ _ S). split; [done|].
      intros k Hk. rewrite <- (Hh k Hk). by pose proof S as [= -> _ _ _ _].
    + intros k Hk. cbn. rewrite app_nth1 by lia. pose proof (Hh k Hk) as H1. rewrite (Db k Hk) in H1.
      by injection H1.
  - exfalso. destruct Hbad as [Hbig | [Hnone | (k & Hk & Hnone)]].
    + apply Hb. unfold place. rewrite lookup_ge_None_2; [done|].
      rewrite (if_len _ (inode_at_fits _ inum (wf_bytes _ Hw))). lia.
    + apply Hb. unfold content in Hnone. by apply fmap_None in Hnone.
    + by rewrite (Hh k Hk) in Hnone.
Qed.

End Requests.

Lemma MFS_Write_ok tries inum offset nbytes buffer n :
  -1 <= sd -> 0 <= rc -> 0 <= offset < 2 ^ 31 -> 0 <= nbytes <= 4096 -> mem_ok buffer ->
  Delivered ∈ tries -> up inum n ->
  exists w n', MFS_Write junk true sd rc junk_msg tries inum buffer offset nbytes n = Ok (w, n') /\ up inum n' /\
    (w = 0 /\ holds inum offset nbytes buffer n' \/ w = -1).
Proof.
  intros Hsd Hrc Hoff Hnb Hbuf Hin Hup. unfold MFS_Write.
  destruct (Z.ltb_spec offset 0); [lia|]. destruct (Z.ltb_spec 4096 nbytes); [lia|]. cbn [orb negb].
  fold (write_msg inum offset nbytes buffer).
  destruct (Server_To_Client_ok (up inum)
    (fun m n' => m_node_num m = 0 /\ holds inum offset nbytes buffer n' \/ m_node_num m = -1)
    (write_msg inum offset nbytes buffer) tries n) as (m & n' & E & Hn' & Hq); try done.
  - intros n0 Hn0. by apply deliver_write.
  - rewrite (sr_bind_run _ _ _ _ _ E). exists (m_node_num m), n'. done.
Qed.

Lemma MFS_Read_ok tries inum offset nbytes buffer rb n :
  -1 <= sd -> 0 <= rc -> 0 <= offset < 2 ^ 31 -> 0 <= nbytes <= 4096 ->
  Delivered ∈ tries -> up inum n -> holds inum offset nbytes buffer n ->
  exists rb' n', MFS_Read junk true sd rc junk_msg tries inum rb offset nbytes n = Ok ((0, rb'), n') /\
    forall x, rb' x = if (0 <=? x) && (x <? nbytes) then buffer x else rb x.
Proof.
  intros Hsd Hrc Hoff Hnb Hin Hup Hh. unfold MFS_Read.
  destruct (Z.ltb_spec offset 0); [lia|]. destruct (Z.ltb_spec 4096 nbytes); [lia|]. cbn [orb negb].
  fold (read_msg inum offset nbytes).
  destruct (Server_To_Client_ok (fun n => up inum n /\ holds inum offset nbytes buffer n)
    (fun m _ => m_node_num m = 0 /\ (forall k, 0 <= k < nbytes -> nth (Z.to_nat k) (m_buf m) 0 = buffer k))
    (read_msg inum offset nbytes) tries n) as (m & n' & E & _ & Em & Hq); try done.
  - intros n0 Hn0. by apply deliver_read.
  - rewrite (sr_bind_run _ _ _ _ _ E). unfold mret, SR_ret. rewrite Em. cbn [Z.eqb].
    eexists _, _. split; [done|]. intros x. cbn beta.
    destruct (Z.leb_spec 0 x), (Z.ltb_spec x nbytes); cbn [andb]; try done. by apply Hq.
Qed.

End Client.

(** C20: End to end, over a network that may lose any number of requests and
    replies before one exchange succeeds, so that the server may serve each
    request many times: if [MFS_Write] on a regular file reports success, a
    following [MFS_Read] of the same range succeeds and fills the caller's
    buffer with exactly the bytes written, leaving the rest of it; and
    [MFS_Write] reports only 0 or -1. *)
Theorem mfs_write_then_read junk sd rc junk_msg wtries rtries inum offset nbytes buffer rb n :
  -1 <= sd -> 0 <= rc -> 0 <= offset < 2 ^ 31 -> 0 <= nbytes <= 4096 -> mem_ok buffer ->
  Delivered ∈ wtries -> Delivered ∈ rtries -> up inum n ->
  exists w n1, MFS_Write junk true sd rc junk_msg wtries inum buffer offset nbytes n = Ok (w, n1) /\
    (w = 0 \/ w = -1) /\
    (w = 0 -> exists rb' n2, MFS_Read junk true sd rc junk_msg rtries inum rb offset nbytes n1 = Ok ((0, rb'), n2) /\
       forall x, rb' x = if (0 <=? x) && (x <? nbytes) then buffer x else rb x).
Proof.
  intros Hsd Hrc Hoff Hnb Hbuf Hwt Hrt Hup.
  destruct (MFS_Write_ok junk sd rc junk_msg wtries inum offset nbytes buffer n) as (w & n1 & E & Hn1 & Ho); try done.
  exists w, n1. split; [done|]. destruct Ho as [(-> & Hh)| ->].
  - split; [by left|]. intros _. by apply MFS_Read_ok.
  - by split; [right|].
Qed.

(** A server with one empty regular file, inode 1. *)
Definition demo_file_srv : srv :=
  match new_inode zero_junk UFS_REGULAR_FILE demo_srv with Ok (_, s) => s | _ => demo_srv end.

Definition demo_msg : message_t := mkMessage (replicate 4096 0) (replicate 28 0) 0 0 0 0 0 0 0.
Definition demo_net : net := mkNet demo_file_srv demo_msg true.

Lemma demo_net_up : up 1 demo_net.
Proof.
  destruct demo_srv_ok as [Hw _].
  destruct (new_inode_ok zero_junk demo_srv UFS_REGULAR_FILE Hw ltac:(unfold UFS_REGULAR_FILE; lia))
    as (r & s & E & Hws & _ & _ & _ & Hr).
  assert (demo_file_srv = s) as Es by (unfold demo_file_srv; rewrite E; reflexivity).
  destruct Hr as [(_ & _ & Hfull)|(Hr & Hh & Hi)].
  - exfalso. change (0 = 64 - 1) in Hfull. lia.
  - change (highest_inode demo_srv) with 0 in Hr. change (0 + 1) with 1 in Hr. subst r.
    assert (inode_at s 1 = empty_inode UFS_REGULAR_FILE) as Hi1.
    { rewrite Hi; [apply fn_lookup_insert|]. change (0 <= 1 < 64). lia. }
    split; unfold demo_net; cbn [n_up n_srv n_rx]; rewrite ?Es, ?Hi1, ?Hh.
    + reflexivity.
    + exact Hws.
    + lia.
    + reflexivity.
    + reflexivity.
    + reflexivity.
Qed.

Lemma mfs_write_then_read_witness :
  exists w n1, MFS_Write zero_junk true 3 0 demo_msg [RequestLost; ReplyLost; BadRead; Delivered] 1 (fun _ => 65) 4090 10 demo_net
      = Ok (w, n1) /\ (w = 0 \/ w = -1) /\
    (w = 0 -> exists rb' n2, MFS_Read zero_junk true 3 0 demo_msg [ReplyLost; Delivered] 1 (fun _ => 0) 4090 10 n1 = Ok ((0, rb'), n2) /\
       forall x, rb' x = if (0 <=? x) && (x <? 10) then 65 else 0).
Proof.
  apply (mfs_write_then_read zero_junk 3 0 demo_msg [RequestLost; ReplyLost; BadRead; Delivered] [ReplyLost; Delivered]
           1 4090 10 (fun _ => 65) (fun _ => 0) demo_net); try lia.
  - intros a. split; lia.
  - do 3 apply list_elem_of_further. apply list_elem_of_here.
  - apply list_elem_of_further, list_elem_of_here.
  - exact demo_net_up.
Defined.
