(* ===== verification/Vm.v ===== *)
(** Page tables, [xv6/base/vm.c].

    The state is the kernel's memory with the page allocator ([Kalloc.v]): page
    directories and page tables are pages of that memory, entries are its
    words.  Kernel addresses are virtual; [P2V]/[V2P] convert.  The kernel's
    end and the start of its data are parameters (symbols of the linker
    script).  Loading the page table into the processor ([switchkvm],
    [switchuvm]) and the segment descriptors are not represented.

    The theorems, in [VmFacts.v], are about the translation that a directory
    defines. *)

From S2P Require Import Prelude CString Kalloc.

(** ** Constants of mmu.h and memlayout.h *)

Definition PTE_P : Z := 1.
Definition PTE_W : Z := 2.
Definition PTE_U : Z := 4.
Definition NPDENTRIES : Z := 1024.
Definition EXTMEM : Z := 0x100000.
Definition DEVSPACE : Z := 0xFE000000.
Definition KERNLINK : Z := KERNBASE + EXTMEM.

Definition PDX (va : Z) : Z := Z.land (Z.shiftr va 22) 0x3FF.
Definition PTX (va : Z) : Z := Z.land (Z.shiftr va 12) 0x3FF.
Definition PGADDR (d t o : Z) : Z := u32 (Z.lor (Z.lor (Z.shiftl d 22) (Z.shiftl t 12)) o).
Definition PTE_ADDR (pte : Z) : Z := Z.land pte (u32 (Z.lnot 0xFFF)).
Definition PTE_FLAGS (pte : Z) : Z := Z.land pte 0xFFF.

Abbreviation VM := (SR kmem).

Definition load (a : Z) : VM Z := sr_gets (fun k => load32 (k_mem k) a).
Definition set_mem (f : mem -> mem) : VM unit :=
  sr_modify (fun k => mkKmem (use_lock k) (freelist k) (f (k_mem k))).
Definition store (a w : Z) : VM unit := set_mem (fun m => store32 m a w).

Section Vm.
(** [data]: where the kernel's data begins. *)
Context (kend data : Z).

Definition kalloc_m : VM Z := fun k => Ok (kalloc k).
Definition kfree_m (v : Z) : VM unit := fun k =>
  match kfree kend v k with
  | Ok k' => Ok (tt, k')
  | Panic msg => Panic msg
  | Sleeps ch => Sleeps ch
  end.

(** The address of the page table entry, 0 for none. *)
Definition walkpgdir (pgdir va : Z) (alloc : bool) : VM Z :=
  let pde := pgdir + 4 * PDX va in
  e ← load pde;
  if negb (Z.land e PTE_P =? 0) then
    mret (P2V (PTE_ADDR e) + 4 * PTX va)
  else if negb alloc then mret 0
  else
    pgtab ← kalloc_m;
    if pgtab =? 0 then mret 0
    else
      (* make sure all those PTE_P bits are zero *)
      _ ← set_mem (fun m => memset m pgtab 0 PGSIZE);
      _ ← store pde (Z.lor (Z.lor (Z.lor (V2P pgtab) PTE_P) PTE_W) PTE_U);
      mret (pgtab + 4 * PTX va).

(** One iteration per page; the last is the one where [a == last].  [mappages]
    gives one unit of fuel per page from [a] to [last]. *)
Fixpoint mappages_loop (fuel : nat) (pgdir a last pa perm : Z) : VM Z :=
  match fuel with
  | O => fun _ => Sleeps "mappages: loops"
  | S f =>
      pte ← walkpgdir pgdir a true;
      if pte =? 0 then mret (-1)
      else
        e ← load pte;
        if negb (Z.land e PTE_P =? 0) then sr_panic "remap"
        else
          _ ← store pte (Z.lor (Z.lor pa perm) PTE_P);
          if a =? last then mret 0
          else mappages_loop f pgdir (u32 (a + PGSIZE)) last (u32 (pa + PGSIZE)) perm
  end.

Definition mappages (pgdir va size pa perm : Z) : VM Z :=
  let a := PGROUNDDOWN va in
  let last := PGROUNDDOWN (u32 (va + size - 1)) in
  mappages_loop (S (Z.to_nat (u32 (last - a) / PGSIZE))) pgdir a last pa perm.

(** [a] grows by at least a page in every iteration. *)
Fixpoint deallocuvm_loop (fuel : nat) (pgdir a oldsz : Z) : VM unit :=
  match fuel with
  | O => fun _ => Sleeps "deallocuvm: loops"
  | S f =>
      if a <? oldsz then
        pte ← walkpgdir pgdir a false;
        if pte =? 0 then
          let a := u32 (PGADDR (PDX a + 1) 0 0 - PGSIZE) in
          deallocuvm_loop f pgdir (u32 (a + PGSIZE)) oldsz
        else
          e ← load pte;
          _ ← (if negb (Z.land e PTE_P =? 0) then
                 let pa := PTE_ADDR e in
                 if pa =? 0 then sr_panic "kfree"
                 else
                   _ ← kfree_m (P2V pa);
                   store pte 0
               else mret tt);
          deallocuvm_loop f pgdir (u32 (a + PGSIZE)) oldsz
      else mret tt
  end.

Definition deallocuvm (pgdir oldsz newsz : Z) : VM Z :=
  if oldsz <=? newsz then mret (s32 oldsz)
  else
    let a := PGROUNDUP newsz in
    _ ← deallocuvm_loop (S (Z.to_nat ((oldsz - a) / PGSIZE + 1))) pgdir a oldsz;
    mret (s32 newsz).

(** [for(i = 0; i < NPDENTRIES; i++)], from [i] on. *)
Fixpoint freevm_tables (cnt : nat) (pgdir i : Z) : VM unit :=
  match cnt with
  | O => mret tt
  | S c =>
      e ← load (pgdir + 4 * i);
      _ ← (if negb (Z.land e PTE_P =? 0) then kfree_m (P2V (PTE_ADDR e)) else mret tt);
      freevm_tables c pgdir (i + 1)
  end.

Definition freevm (pgdir : Z) : VM unit :=
  if pgdir =? 0 then sr_panic "freevm: no pgdir"
  else
    _ ← deallocuvm pgdir KERNBASE 0;
    _ ← freevm_tables (Z.to_nat NPDENTRIES) pgdir 0;
    kfree_m pgdir.

Record kmap_entry := mkKmap { virt : Z; phys_start : Z; phys_end : Z; perm : Z }.

Definition kmap : list kmap_entry :=
  [mkKmap KERNBASE 0 EXTMEM PTE_W;                       (* I/O space *)
   mkKmap KERNLINK (V2P KERNLINK) (V2P data) 0;          (* kern text+rodata *)
   mkKmap data (V2P data) PHYSTOP PTE_W;                 (* kern data+memory *)
   mkKmap DEVSPACE DEVSPACE 0 PTE_W].                    (* more devices *)

(** The loop over [kmap]; the result is false where [mappages] fails. *)
Fixpoint setupkvm_loop (ks : list kmap_entry) (pgdir : Z) : VM bool :=
  match ks with
  | [] => mret true
  | e :: ks' =>
      r ← mappages pgdir (virt e) (u32 (phys_end e - phys_start e)) (phys_start e) (perm e);
      if r <? 0 then mret false else setupkvm_loop ks' pgdir
  end.

Definition setupkvm : VM Z :=
  pgdir ← kalloc_m;
  if pgdir =? 0 then mret 0
  else
    _ ← set_mem (fun m => memset m pgdir 0 PGSIZE);
    if DEVSPACE <? P2V PHYSTOP then sr_panic "PHYSTOP too high"
    else
      ok ← setupkvm_loop kmap pgdir;
      if (ok : bool) then mret pgdir
      else
        _ ← freevm pgdir;
        mret 0.

(** [init] is the address of the [sz] bytes of initcode. *)
Definition inituvm (pgdir init sz : Z) : VM unit :=
  if PGSIZE <=? sz then sr_panic "inituvm: more than a page"
  else
    pg ← kalloc_m;
    _ ← set_mem (fun m => memset m pg 0 PGSIZE);
    _ ← mappages pgdir 0 PGSIZE (V2P pg) (Z.lor PTE_W PTE_U);
    set_mem (fun m => memmove m pg init sz).

(** [loaduvm] runs in a state that holds the file system too: [vm] runs a
    routine on the memory, [readi off n] gives the bytes of the file. *)
Section Load.
Context {St : Type} (vm : forall A, VM A -> SR St A) (readi : Z -> Z -> SR St (Z * list Z)).

Fixpoint loaduvm_loop (fuel : nat) (pgdir addr offset sz i : Z) : SR St Z :=
  match fuel with
  | O => fun _ => Sleeps "loaduvm: loops"
  | S f =>
      if i <? sz then
        pte ← vm _ (walkpgdir pgdir (u32 (addr + i)) false);
        if pte =? 0 then sr_panic "loaduvm: address should exist"
        else
          e ← vm _ (load pte);
          let pa := PTE_ADDR e in
          let n := if sz - i <? PGSIZE then sz - i else PGSIZE in
          '(r, bytes) ← readi (u32 (offset + i)) n;
          _ ← vm _ (set_mem (fun m => put_bytes m (P2V pa) bytes));
          if negb (u32 r =? n) then mret (-1)
          else loaduvm_loop f pgdir addr offset sz (u32 (i + PGSIZE))
      else mret 0
  end.

Definition loaduvm (pgdir addr offset sz : Z) : SR St Z :=
  if negb (addr mod PGSIZE =? 0) then sr_panic "loaduvm: addr must be page aligned"
  else loaduvm_loop (S (Z.to_nat (sz / PGSIZE + 1))) pgdir addr offset sz 0.

End Load.

(** The loop of [allocuvm]: true when all pages are there, false where it
    returns 0. *)
Fixpoint allocuvm_loop (fuel : nat) (pgdir a oldsz newsz : Z) : VM bool :=
  match fuel with
  | O => fun _ => Sleeps "allocuvm: loops"
  | S f =>
      if a <? newsz then
        pg ← kalloc_m;
        if pg =? 0 then
          _ ← deallocuvm pgdir newsz oldsz; mret false
        else
          _ ← set_mem (fun m => memset m pg 0 PGSIZE);
          r ← mappages pgdir a PGSIZE (V2P pg) (Z.lor PTE_W PTE_U);
          if r <? 0 then
            _ ← deallocuvm pgdir newsz oldsz;
            _ ← kfree_m pg;
            mret false
          else allocuvm_loop f pgdir (u32 (a + PGSIZE)) oldsz newsz
      else mret true
  end.

Definition allocuvm (pgdir oldsz newsz : Z) : VM Z :=
  if KERNBASE <=? newsz then mret 0
  else if newsz <? oldsz then mret (s32 oldsz)
  else
    let a := PGROUNDUP oldsz in
    ok ← allocuvm_loop (S (Z.to_nat ((newsz - a) / PGSIZE + 1))) pgdir a oldsz newsz;
    mret (if (ok : bool) then newsz else 0).

Definition clearpteu (pgdir uva : Z) : VM unit :=
  pte ← walkpgdir pgdir uva false;
  if pte =? 0 then sr_panic "clearpteu"
  else
    e ← load pte;
    store pte (Z.land e (u32 (Z.lnot PTE_U))).

(** The loop of [copyuvm]: false is the [goto bad]. *)
Fixpoint copyuvm_loop (fuel : nat) (pgdir d sz i : Z) : VM bool :=
  match fuel with
  | O => fun _ => Sleeps "copyuvm: loops"
  | S f =>
      if i <? sz then
        pte ← walkpgdir pgdir i false;
        if pte =? 0 then sr_panic "copyuvm: pte should exist"
        else
          e ← load pte;
          if Z.land e PTE_P =? 0 then sr_panic "copyuvm: page not present"
          else
            let pa := PTE_ADDR e in
            let flags := PTE_FLAGS e in
            pg ← kalloc_m;
            if pg =? 0 then mret false
            else
              _ ← set_mem (fun m => memmove m pg (P2V pa) PGSIZE);
              r ← mappages d i PGSIZE (V2P pg) flags;
              if r <? 0 then _ ← kfree_m pg; mret false
              else copyuvm_loop f pgdir d sz (u32 (i + PGSIZE))
      else mret true
  end.

Definition copyuvm (pgdir sz : Z) : VM Z :=
  d ← setupkvm;
  if d =? 0 then mret 0
  else
    ok ← copyuvm_loop (S (Z.to_nat (sz / PGSIZE + 1))) pgdir d sz 0;
    if (ok : bool) then mret d
    else
      _ ← freevm d;
      mret 0.

(** [pte] is not compared with 0 before it is read. *)
Definition uva2ka (pgdir uva : Z) : VM Z :=
  pte ← walkpgdir pgdir uva false;
  e ← load pte;
  if Z.land e PTE_P =? 0 then mret 0
  else if Z.land e PTE_U =? 0 then mret 0
  else mret (P2V (PTE_ADDR e)).

(** The bytes [buf] come from outside the pages of [pgdir].  Each iteration
    after the first starts on a page boundary. *)
Fixpoint copyout_loop (fuel : nat) (pgdir va : Z) (buf : list Z) : VM Z :=
  match fuel with
  | O => fun _ => Sleeps "copyout: loops"
  | S f =>
      if 0 <? Z.of_nat (length buf) then
        let va0 := PGROUNDDOWN va in
        pa0 ← uva2ka pgdir va0;
        if pa0 =? 0 then mret (-1)
        else
          let n := PGSIZE - (va - va0) in
          let n := if Z.of_nat (length buf) <? n then Z.of_nat (length buf) else n in
          _ ← set_mem (fun m => put_bytes m (pa0 + (va - va0)) (take (Z.to_nat n) buf));
          copyout_loop f pgdir (u32 (va0 + PGSIZE)) (drop (Z.to_nat n) buf)
      else mret 0
  end.

Definition copyout (pgdir va : Z) (p : list Z) : VM Z :=
  copyout_loop (S (Z.to_nat (Z.of_nat (length p) / PGSIZE + 2))) pgdir va p.

End Vm.
