(* ===== verification/VmFacts.v ===== *)
(** What the page tables of [Vm.v] map.

    [tables] relates a page directory in memory to the tables it points to;
    [entry] is the translation: the page table entry of a virtual address, 0
    where there is none. *)

From S2P Require Import Prelude CString Kalloc Vm.

(** ** Bits of addresses *)

Lemma land_pgmask z : 0 <= z < 2 ^ 32 -> Z.land z (u32 (Z.lnot 0xFFF)) = z / 4096 * 4096.
Proof.
  intros Hz. change (u32 (Z.lnot 0xFFF)) with (Z.shiftl (Z.ones 20) 12).
  change 4096 with (2 ^ 12). rewrite <-Z.shiftr_div_pow2, <-Z.shiftl_mul_pow2 by lia.
  apply Z.bits_inj'. intros n Hn. rewrite Z.land_spec, !Z.shiftl_spec by lia.
  destruct (Z.ltb_spec n 12) as [Hlt|Hge].
  - rewrite !(Z.testbit_neg_r _ (n - 12)) by lia. by rewrite andb_false_r.
  - rewrite Z.shiftr_spec by lia. replace (n - 12 + 12) with n by lia.
    destruct (Z.ltb_spec n 32).
    + rewrite Z.ones_spec_low by lia. by rewrite andb_true_r.
    + rewrite (Z.bits_above_log2 z n), andb_false_l; [done | lia |].
      destruct (decide (z = 0)) as [->|]; [cbn; lia|]. apply Z.log2_lt_pow2; [lia|].
      apply (Z.lt_le_trans _ (2 ^ 32)); [lia | apply Z.pow_le_mono_r; lia].
Qed.

Lemma lor_page q f : 0 <= f < 4096 -> Z.lor (q * 4096) f = q * 4096 + f.
Proof.
  intros Hf. change 4096 with (2 ^ 12). rewrite <-Z.shiftl_mul_pow2 by lia.
  assert (Z.land (Z.shiftl q 12) f = 0) as Hl.
  { apply Z.bits_inj'. intros n Hn. rewrite Z.land_spec, Z.shiftl_spec, Z.bits_0 by lia.
    destruct (Z.ltb_spec n 12).
    - by rewrite Z.testbit_neg_r by lia.
    - rewrite (Z.bits_above_log2 f n), andb_false_r; [done | lia |].
      destruct (decide (f = 0)) as [->|]; [cbn; lia|].
      apply Z.log2_lt_pow2; [lia|]. apply (Z.lt_le_trans _ (2 ^ 12)); [lia | apply Z.pow_le_mono_r; lia]. }
  by rewrite <-Z.lxor_lor, <-Z.add_nocarry_lxor.
Qed.

Lemma land_1 z : Z.land z PTE_P = z mod 2.
Proof. unfold PTE_P. change 1 with (Z.ones 1). by rewrite Z.land_ones by lia. Qed.

Lemma PDX_eq va : 0 <= va < 2 ^ 32 -> PDX va = va / 2 ^ 22.
Proof.
  intros Hv. unfold PDX. change 0x3FF with (Z.ones 10). rewrite Z.land_ones, Z.shiftr_div_pow2 by lia.
  apply Z.mod_small. zlia.
Qed.

Lemma PTX_eq va : PTX va = va / 4096 mod 1024.
Proof. unfold PTX. change 0x3FF with (Z.ones 10). rewrite Z.land_ones, Z.shiftr_div_pow2 by lia. done. Qed.

Lemma PDX_range va : 0 <= PDX va < 1024.
Proof. unfold PDX. change 0x3FF with (Z.ones 10). rewrite Z.land_ones by lia. apply Z.mod_pos_bound. lia. Qed.

Lemma PTX_range va : 0 <= PTX va < 1024.
Proof. rewrite PTX_eq. apply Z.mod_pos_bound. lia. Qed.

(** Directory and table index together are the page number. *)
Lemma page_indices va va' :
  0 <= va < 2 ^ 32 -> 0 <= va' < 2 ^ 32 -> PDX va = PDX va' -> PTX va = PTX va' -> va / 4096 = va' / 4096.
Proof. intros H1 H2. rewrite !PDX_eq, !PTX_eq by done. zlia. Qed.

Lemma PGROUNDDOWN_eq a : 0 <= a < 2 ^ 32 -> PGROUNDDOWN a = a / 4096 * 4096.
Proof. apply land_pgmask. Qed.

Lemma PGROUNDUP_eq a : 0 <= a -> a + 4095 < 2 ^ 32 -> PGROUNDUP a = (a + 4095) / 4096 * 4096.
Proof.
  intros H1 H2. unfold PGROUNDUP, PGSIZE. rewrite (u32_small (a + 4096 - 1)) by lia.
  change (4096 - 1) with 0xFFF. rewrite land_pgmask by lia. f_equal. f_equal. lia.
Qed.

(** An entry made of a page address and flags. *)
Lemma pte_parts q f :
  0 <= q * 4096 -> q * 4096 + f < 2 ^ 32 -> 0 <= f < 4096 ->
  PTE_ADDR (q * 4096 + f) = q * 4096 /\ PTE_FLAGS (q * 4096 + f) = f.
Proof.
  intros Hq Hb Hf. unfold PTE_ADDR, PTE_FLAGS. rewrite land_pgmask by lia.
  change 0xFFF with (Z.ones 12). rewrite Z.land_ones by lia. change (2 ^ 12) with 4096.
  split; zlia.
Qed.

(** ** Page tables in memory *)

Section Tables.
Context (kend : Z).
Hypothesis Hkend : KERNBASE < kend.

Abbreviation page_ok := (page_ok kend).
Abbreviation free_pages := (free_pages kend).

Lemma page_phys t : page_ok t -> V2P t = t - KERNBASE /\ 0 <= V2P t < PHYSTOP /\ V2P t mod 4096 = 0 /\ P2V (V2P t) = t.
Proof.
  intros (Ha & Hk & Hp & _ & Hm). unfold V2P, P2V, KERNBASE, PGSIZE, PHYSTOP in *.
  rewrite (u32_small (t - _)) in * by lia. rewrite u32_small by lia. split; [done|]. split; [lia|]. split; zlia.
Qed.

(** The entry that refers to page [t] with flags [f]. *)
Definition refers (t f : Z) : Z := V2P t + f.

Lemma refers_parts t f :
  page_ok t -> 0 <= f < 4096 -> PTE_ADDR (refers t f) = V2P t /\ PTE_FLAGS (refers t f) = f /\ 0 <= refers t f < 2 ^ 32.
Proof.
  intros Ht Hf. destruct (page_phys t Ht) as (E & Hr & Hm & _). unfold refers, PHYSTOP in *.
  destruct (pte_parts (V2P t / 4096) f); [zlia.. |].
  replace (V2P t / 4096 * 4096) with (V2P t) in * by zlia. split; [done|]. split; [done | lia].
Qed.

(** [tab i] is the page table of directory entry [i]. *)
Record tables (m : mem) (pgdir : Z) (tab : Z -> option Z) : Prop := {
  tb_dir : page_ok pgdir;
  tb_none : forall i, 0 <= i < 1024 -> tab i = None -> Z.land (load32 m (pgdir + 4 * i)) PTE_P = 0;
  tb_some : forall i t, 0 <= i < 1024 -> tab i = Some t ->
    page_ok t /\ t <> pgdir /\ load32 m (pgdir + 4 * i) = refers t 7;
  tb_inj : forall i j t, 0 <= i < 1024 -> 0 <= j < 1024 -> tab i = Some t -> tab j = Some t -> i = j
}.

(** The pages of the directory are in use. *)
Definition in_use (l : list Z) (pgdir : Z) (tab : Z -> option Z) : Prop :=
  pgdir ∉ l /\ forall i t, 0 <= i < 1024 -> tab i = Some t -> t ∉ l.

(** The page table entry of [va]. *)
Definition pte_of (tab : Z -> option Z) (va : Z) : option Z :=
  (fun t => t + 4 * PTX va) <$> tab (PDX va).

Definition entry (m : mem) (tab : Z -> option Z) (va : Z) : Z :=
  match pte_of tab va with Some a => load32 m a | None => 0 end.

(** Byte [x] belongs to the directory or one of its tables. *)
Definition table_byte (pgdir : Z) (tab : Z -> option Z) (x : Z) : Prop :=
  pgdir <= x < pgdir + 4096 \/ exists i t, 0 <= i < 1024 /\ tab i = Some t /\ t <= x < t + 4096.

Lemma load32_range m a : mem_ok m -> 0 <= load32 m a < 2 ^ 32.
Proof.
  intros Hm. unfold load32. pose proof (Hm a). pose proof (Hm (a + 1)). pose proof (Hm (a + 2)).
  pose proof (Hm (a + 3)). unfold is_byte in *. lia.
Qed.

Lemma load32_store32_ne m a b w : b + 4 <= a \/ a + 4 <= b -> load32 (store32 m a w) b = load32 m b.
Proof. intros Hd. apply load32_ext. intros x Hx. apply store32_out. lia. Qed.

Lemma pages_disjoint v w : page_ok v -> page_ok w -> v <> w -> v + 4096 <= w \/ w + 4096 <= v.
Proof. apply pages_apart. Qed.

(** Two entries of one directory are the same word or do not overlap. *)
Lemma pte_apart m pgdir tab va va' a a' :
  tables m pgdir tab -> 0 <= va < 2 ^ 32 -> 0 <= va' < 2 ^ 32 ->
  pte_of tab va = Some a -> pte_of tab va' = Some a' -> va / 4096 <> va' / 4096 -> a + 4 <= a' \/ a' + 4 <= a.
Proof.
  intros Ht Hv Hv' Ha Ha' Hne. apply fmap_Some in Ha as (t & Et & ->). apply fmap_Some in Ha' as (t' & Et' & ->).
  pose proof (PTX_range va). pose proof (PTX_range va'). pose proof (PDX_range va). pose proof (PDX_range va').
  destruct (tb_some _ _ _ Ht _ _ (PDX_range va) Et) as (Hp & _ & _).
  destruct (tb_some _ _ _ Ht _ _ (PDX_range va') Et') as (Hp' & _ & _).
  destruct (decide (t = t')) as [<-|Htt].
  - assert (PDX va = PDX va') by eauto using tb_inj.
    assert (PTX va <> PTX va') by (intros E; by apply Hne, page_indices). lia.
  - destruct (pages_disjoint t t' Hp Hp' Htt); lia.
Qed.

(** An entry lies in its table. *)
Lemma pte_in_table m pgdir tab va a :
  tables m pgdir tab -> pte_of tab va = Some a ->
  exists t, tab (PDX va) = Some t /\ page_ok t /\ t <> pgdir /\ t <= a /\ a + 4 <= t + 4096.
Proof.
  intros Ht Ha. apply fmap_Some in Ha as (t & Et & ->).
  destruct (tb_some _ _ _ Ht _ _ (PDX_range va) Et) as (Hp & Hn & _). pose proof (PTX_range va).
  exists t. split; [done|]. split; [done|]. split; [done|]. lia.
Qed.

(** Storing an entry of [va] keeps the directory, and every other entry. *)
Lemma store_entry m pgdir tab va a w :
  tables m pgdir tab -> 0 <= va < 2 ^ 32 -> 0 <= w < 2 ^ 32 -> pte_of tab va = Some a ->
  tables (store32 m a w) pgdir tab /\ entry (store32 m a w) tab va = w /\
  (forall va', 0 <= va' < 2 ^ 32 -> va' / 4096 <> va / 4096 -> entry (store32 m a w) tab va' = entry m tab va') /\
  (forall x, ~ table_byte pgdir tab x -> store32 m a w x = m x).
Proof.
  intros Ht Hva Hw Ha. destruct (pte_in_table _ _ _ _ _ Ht Ha) as (t & Et & Hp & Hn & Ha1 & Ha2).
  assert (forall i, 0 <= i < 1024 -> load32 (store32 m a w) (pgdir + 4 * i) = load32 m (pgdir + 4 * i)) as Hdir.
  { intros i Hi. apply load32_store32_ne. destruct (pages_disjoint t pgdir Hp (tb_dir _ _ _ Ht) Hn); lia. }
  split; [|split; [|split]].
  - destruct Ht as [H1 H2 H3 H4]. split; [done | | | done].
    + intros i Hi E. rewrite Hdir by done. auto.
    + intros i u Hi E. rewrite Hdir by done. auto.
  - unfold entry. rewrite Ha. by apply load32_store32.
  - intros va' Hva' Hne. unfold entry. destruct (pte_of tab va') as [a'|] eqn:Ha'; [|done].
    apply load32_store32_ne. pose proof (pte_apart m pgdir tab va' va a' a Ht Hva' Hva Ha' Ha Hne). lia.
  - intros x Hx. apply store32_out. assert (~ t <= x < t + 4096); [|lia].
    intros Hin. apply Hx. right. exists (PDX va), t. split; [apply PDX_range | done].
Qed.
(** ** A directory under construction *)

Record vm (k : kmem) (l : list Z) (pgdir : Z) (tab : Z -> option Z) : Prop := {
  vm_free : free_pages k l;
  vm_tabs : tables (k_mem k) pgdir tab;
  vm_use : in_use l pgdir tab
}.

(** Tables may be added from the free pages; outside the directory and its
    tables no byte changes. *)
Record grows (pgdir : Z) (k : kmem) (l : list Z) (tab : Z -> option Z)
    (k' : kmem) (l' : list Z) (tab' : Z -> option Z) : Prop := {
  gr_used : exists used, l = used ++ l' /\
    (forall i t, 0 <= i < 1024 -> tab' i = Some t -> tab i = Some t \/ t ∈ used) /\
    (forall t, t ∈ used -> exists i, 0 <= i < 1024 /\ tab' i = Some t);
  gr_tab : forall i t, tab i = Some t -> tab' i = Some t;
  gr_mem : forall x, ~ table_byte pgdir tab' x -> k_mem k' x = k_mem k x
}.

Lemma vm_grows_refl pgdir k l tab : grows pgdir k l tab k l tab.
Proof. split; [exists []; split; [done|]; split; [auto|]; intros t H; by apply not_elem_of_nil in H | done | done]. Qed.

Lemma table_byte_mono pgdir tab tab' x :
  (forall i t, tab i = Some t -> tab' i = Some t) -> table_byte pgdir tab x -> table_byte pgdir tab' x.
Proof. intros H [Hd | (i & t & Hi & Et & Hx)]; [by left | right; eauto 10]. Qed.

Lemma vm_grows_trans pgdir k l tab k1 l1 tab1 k2 l2 tab2 :
  grows pgdir k l tab k1 l1 tab1 -> grows pgdir k1 l1 tab1 k2 l2 tab2 -> grows pgdir k l tab k2 l2 tab2.
Proof.
  intros [(u1 & E1 & U1 & V1) T1 M1] [(u2 & E2 & U2 & V2) T2 M2]. split.
  - exists (u1 ++ u2). split; [by rewrite E1, E2, app_assoc|]. split.
    + intros i t Hi Et. apply U2 in Et as [Et|Et]; [|right; apply elem_of_app; auto|done].
      apply U1 in Et as [Et|Et]; [by left | right; apply elem_of_app; auto | done].
    + intros t Ht. apply elem_of_app in Ht as [Ht|Ht]; [|auto].
      apply V1 in Ht as (i & Hi & Et). eauto.
  - eauto.
  - intros x Hx. rewrite M2 by done. apply M1. intros Hb. apply Hx. by eapply table_byte_mono.
Qed.

Lemma pte_of_nonzero m pgdir tab va a : tables m pgdir tab -> pte_of tab va = Some a -> 0 < a.
Proof.
  intros Ht Ha. destruct (pte_in_table _ _ _ _ _ Ht Ha) as (t & _ & (_ & _ & _ & Hp & _) & _ & H1 & _). lia.
Qed.

(** The walk where the table exists. *)
Lemma walk_present k l pgdir tab va a alloc :
  vm k l pgdir tab -> pte_of tab va = Some a -> walkpgdir pgdir va alloc k = Ok (a, k).
Proof.
  intros Hv Ha. apply fmap_Some in Ha as (t & Et & ->). pose proof (PTX_range va).
  destruct (tb_some _ _ _ (vm_tabs _ _ _ _ Hv) _ _ (PDX_range va) Et) as (Hp & _ & E).
  destruct (page_phys t Hp) as (_ & _ & Hm & Ep). destruct (refers_parts t 7 Hp ltac:(lia)) as (Ea & _ & _).
  unfold walkpgdir, load, sr_gets. erewrite sr_bind_run by done. rewrite E, land_1, Ea, Ep.
  destruct (Z.eqb_spec (refers t 7 mod 2) 0) as [E2|E2]; [unfold refers in E2; zlia | done].
Qed.

Lemma walk_absent k l pgdir tab va :
  vm k l pgdir tab -> pte_of tab va = None -> walkpgdir pgdir va false k = Ok (0, k).
Proof.
  intros Hv Ha. apply fmap_None in Ha.
  pose proof (tb_none _ _ _ (vm_tabs _ _ _ _ Hv) _ (PDX_range va) Ha) as E.
  unfold walkpgdir, load, sr_gets. erewrite sr_bind_run by done. rewrite E. done.
Qed.

(** A page of zeros as a new table. *)
Lemma new_table m pgdir tab t i :
  tables m pgdir tab -> page_ok t -> t <> pgdir -> 0 <= i < 1024 -> tab i = None ->
  (forall j u, 0 <= j < 1024 -> tab j = Some u -> u <> t) ->
  let m' := store32 (memset m t 0 PGSIZE) (pgdir + 4 * i) (refers t 7) in
  tables m' pgdir (<[i := Some t]> tab) /\
  (forall va, entry m' (<[i := Some t]> tab) va = entry m tab va) /\
  (forall x, ~ (t <= x < t + 4096) -> ~ (pgdir + 4 * i <= x < pgdir + 4 * i + 4) -> m' x = m x).
Proof.
  intros Ht Hp Hne Hi Hnone Hfresh m'. pose proof (tb_dir _ _ _ Ht) as Hd.
  destruct (refers_parts t 7 Hp ltac:(lia)) as (_ & _ & Hr). pose proof (pages_disjoint t pgdir Hp Hd Hne) as Hap.
  assert (forall x, ~ (t <= x < t + 4096) -> ~ (pgdir + 4 * i <= x < pgdir + 4 * i + 4) -> m' x = m x) as Hout.
  { intros x H1 H2. unfold m'. rewrite store32_out, memset_at by lia. unfold PGSIZE. case_within; done || lia. }
  assert (forall x, t <= x < t + 4096 -> m' x = 0) as Hin.
  { intros x H1. unfold m'. rewrite store32_out, memset_at by lia. unfold PGSIZE. case_within; done || lia. }
  assert (forall j, 0 <= j < 1024 -> j <> i -> load32 m' (pgdir + 4 * j) = load32 m (pgdir + 4 * j)) as Hdir.
  { intros j Hj Hji. apply load32_ext. intros x Hx. apply Hout; lia. }
  split; [|split; [|done]].
  - split; [done | | |].
    + intros j Hj E. destruct (decide (j = i)) as [->|Hji]; [by rewrite fn_lookup_insert in E|].
      rewrite fn_lookup_insert_ne in E by done. rewrite Hdir by done. by apply (tb_none _ _ _ Ht).
    + intros j u Hj E. destruct (decide (j = i)) as [->|Hji].
      * rewrite fn_lookup_insert in E. injection E as <-. split; [done|]. split; [done|]. by apply load32_store32.
      * rewrite fn_lookup_insert_ne in E by done. rewrite Hdir by done. by apply (tb_some _ _ _ Ht).
    + intros j1 j2 u H1 H2 E1 E2. destruct (decide (j1 = i)) as [->|N1], (decide (j2 = i)) as [->|N2]; [done|..].
      * rewrite fn_lookup_insert in E1. rewrite fn_lookup_insert_ne in E2 by done. injection E1 as <-.
        by destruct (Hfresh j2 t H2 E2).
      * rewrite fn_lookup_insert in E2. rewrite fn_lookup_insert_ne in E1 by done. injection E2 as <-.
        by destruct (Hfresh j1 t H1 E1).
      * rewrite fn_lookup_insert_ne in E1, E2 by done. by apply (tb_inj _ _ _ Ht j1 j2 u).
  - intros va. pose proof (PTX_range va). pose proof (PDX_range va). unfold entry, pte_of.
    destruct (decide (PDX va = i)) as [E|E].
    + rewrite E, fn_lookup_insert, Hnone. cbn. unfold load32. rewrite !Hin by lia. done.
    + rewrite fn_lookup_insert_ne by done. destruct (tab (PDX va)) as [u|] eqn:Eu; [|done]. cbn.
      destruct (tb_some _ _ _ Ht _ _ (PDX_range va) Eu) as (Hpu & Hnu & _).
      apply load32_ext. intros x Hx. pose proof (pages_disjoint u t Hpu Hp (Hfresh _ _ (PDX_range va) Eu)).
      pose proof (pages_disjoint u pgdir Hpu Hd Hnu). apply Hout; lia.
Qed.

Lemma memset_ok m dst c n : mem_ok m -> mem_ok (memset m dst c n).
Proof. intros Hm x. rewrite memset_at. case_match; [apply u8_range | apply Hm]. Qed.

Lemma store32_ok m a w : mem_ok m -> mem_ok (store32 m a w).
Proof. intros Hm x. unfold store32, mset. repeat case_match; try apply u8_range. apply Hm. Qed.

(** The entry of a fresh table, as the code computes it. *)
Lemma pde_refers t : page_ok t -> Z.lor (Z.lor (Z.lor (V2P t) PTE_P) PTE_W) PTE_U = refers t 7.
Proof.
  intros Hp. destruct (page_phys t Hp) as (_ & _ & Hm & _). rewrite <-!Z.lor_assoc.
  change (Z.lor PTE_P (Z.lor PTE_W PTE_U)) with 7. unfold refers.
  replace (V2P t) with (V2P t / 4096 * 4096) by zlia. apply lor_page. lia.
Qed.

(** The directory's pages are not free, so stores there keep the free list. *)
Lemma table_byte_not_free m pgdir tab l v x :
  tables m pgdir tab -> in_use l pgdir tab -> Forall page_ok l -> v ∈ l -> v <= x < v + 4096 -> ~ table_byte pgdir tab x.
Proof.
  intros Ht [Hd Hu] Hl Hv Hx. rewrite Forall_forall in Hl. specialize (Hl v Hv).
  intros [Hx' | (i & t & Hi & Et & Hx')].
  - destruct (pages_disjoint v pgdir Hl (tb_dir _ _ _ Ht)); [congruence | lia | lia].
  - destruct (tb_some _ _ _ Ht i t Hi Et) as (Hp & _ & _).
    destruct (pages_disjoint v t Hl Hp); [intros ->; by apply (Hu i t) | lia | lia].
Qed.

Lemma vm_store k l pgdir tab m' :
  vm k l pgdir tab -> mem_ok m' -> tables m' pgdir tab ->
  (forall x, ~ table_byte pgdir tab x -> m' x = k_mem k x) ->
  vm (mkKmem (use_lock k) (freelist k) m') l pgdir tab.
Proof.
  intros [Hf Ht Hu] Hm Ht' Hx. split; [|done | done].
  apply (free_pages_store kend k l m' Hf Hm). intros v x Hv Hvx. apply Hx.
  eapply table_byte_not_free; [exact Ht | exact Hu | apply Hf | exact Hv | exact Hvx].
Qed.

Lemma in_use_tail l pgdir tab t : in_use (t :: l) pgdir tab -> in_use l pgdir tab.
Proof.
  intros [Hd Hu]. split; [intros H; apply Hd; by apply list_elem_of_further|].
  intros i u Hi Eu H. apply (Hu i u Hi Eu). by apply list_elem_of_further.
Qed.

(** The walk that may add a table. *)
Lemma walk_alloc k l pgdir tab va :
  vm k l pgdir tab ->
  (l = [] /\ pte_of tab va = None /\ walkpgdir pgdir va true k = Ok (0, k)) \/
  (exists a k' l' tab', walkpgdir pgdir va true k = Ok (a, k') /\ pte_of tab' va = Some a /\
     vm k' l' pgdir tab' /\ grows pgdir k l tab k' l' tab' /\
     (forall va', entry (k_mem k') tab' va' = entry (k_mem k) tab va')).
Proof.
  intros Hv. destruct (pte_of tab va) as [a|] eqn:Ha.
  { right. exists a, k, l, tab. split; [by eapply walk_present|]. split; [done|]. split; [done|].
    split; [apply vm_grows_refl | done]. }
  pose proof Ha as Ht. apply fmap_None in Ht. destruct Hv as [Hf Htab Hu].
  pose proof (tb_none _ _ _ Htab _ (PDX_range va) Ht) as E0. pose proof (kalloc_ok kend k l Hf) as Hal.
  destruct l as [|t l].
  { left. split; [done|]. split; [done|]. unfold walkpgdir, load, sr_gets. erewrite sr_bind_run by done.
    rewrite E0. cbn [negb Z.eqb]. unfold kalloc_m. erewrite sr_bind_run by (rewrite Hal; done). done. }
  right. destruct Hal as (k1 & E1 & F1 & M1 & L1). pose proof (fp_pages _ _ _ Hf) as Hps. apply Forall_cons in Hps as [Hp _].
  assert (t <> pgdir) as Hne by (intros ->; apply (proj1 Hu), list_elem_of_here).
  assert (forall j u, 0 <= j < 1024 -> tab j = Some u -> u <> t) as Hfresh.
  { intros j u Hj Eu ->. apply (proj2 Hu j t Hj Eu), list_elem_of_here. }
  destruct (new_table (k_mem k) pgdir tab t (PDX va) Htab Hp Hne (PDX_range va) Ht Hfresh) as (T2 & En & Out).
  set (m2 := store32 (memset (k_mem k) t 0 PGSIZE) (pgdir + 4 * PDX va) (refers t 7)) in *.
  exists (t + 4 * PTX va), (mkKmem (use_lock k1) (freelist k1) m2), l, (<[PDX va := Some t]> tab).
  assert (in_use l pgdir (<[PDX va := Some t]> tab)) as Hu2.
  { pose proof (in_use_tail l pgdir tab t Hu) as [Hd' Hu']. split; [done|]. intros i u Hi Eu.
    destruct (decide (i = PDX va)) as [->|Hi'].
    - rewrite fn_lookup_insert in Eu. injection Eu as <-. pose proof (fp_nodup _ _ _ Hf) as Hn.
      by apply list.NoDup_cons in Hn as [Hn _].
    - rewrite fn_lookup_insert_ne in Eu by done. by apply (Hu' i u). }
  assert (forall x, ~ table_byte pgdir (<[PDX va := Some t]> tab) x -> m2 x = k_mem k x) as Hmem.
  { intros x Hx. pose proof (PDX_range va). apply Out; intros Hin; apply Hx.
    - right. exists (PDX va), t. split; [apply PDX_range|]. split; [apply fn_lookup_insert | done].
    - left. lia. }
  split; [|split; [|split; [|split]]].
  - unfold walkpgdir, load, sr_gets. erewrite sr_bind_run by done. rewrite E0. cbn [negb Z.eqb].
    unfold kalloc_m. erewrite sr_bind_run by (rewrite E1; done).
    destruct (Z.eqb_spec t 0) as [->|_]; [destruct Hp as (_ & _ & _ & ? & _); lia|].
    unfold set_mem, store, sr_modify. do 2 (erewrite sr_bind_run by done). cbn [use_lock freelist k_mem].
    rewrite pde_refers by done. by rewrite M1.
  - unfold pte_of. by rewrite fn_lookup_insert.
  - split; [|done | done]. apply (free_pages_store kend k1 l m2 F1).
    + apply store32_ok, memset_ok, Hf.
    + intros v x Hvl Hx. rewrite M1. apply Hmem.
      eapply (table_byte_not_free m2); [exact T2 | exact Hu2 | apply F1 | exact Hvl | exact Hx].
  - split.
    + exists [t]. split; [done|]. split.
      * intros i u Hi Eu. destruct (decide (i = PDX va)) as [->|Hi'].
        -- rewrite fn_lookup_insert in Eu. injection Eu as <-. right. apply list_elem_of_here.
        -- rewrite fn_lookup_insert_ne in Eu by done. by left.
      * intros u Hu'. apply list_elem_of_singleton in Hu' as ->. exists (PDX va).
        split; [apply PDX_range | apply fn_lookup_insert].
    + intros i u Eu. destruct (decide (i = PDX va)) as [->|Hi']; [congruence|]. by rewrite fn_lookup_insert_ne.
    + exact Hmem.
  - exact En.
Qed.

(** ** mappages *)

Lemma mapped_entry pa perm :
  0 <= pa -> pa mod 4096 = 0 -> pa + 4096 <= 2 ^ 32 -> 0 <= perm < 4096 -> 0 <= Z.lor (Z.lor pa perm) PTE_P < 2 ^ 32.
Proof.
  intros H1 H2 H3 H4. rewrite <-Z.lor_assoc. replace pa with (pa / 4096 * 4096) by zlia.
  assert (0 <= Z.lor perm PTE_P < 4096) as Hf.
  { split; [apply Z.lor_nonneg; unfold PTE_P; lia|]. change 4096 with (2 ^ 12).
    destruct (decide (Z.lor perm PTE_P = 0)) as [->|]; [lia|].
    assert (0 <= Z.lor perm PTE_P) by (apply Z.lor_nonneg; unfold PTE_P; lia).
    apply Z.log2_lt_pow2; [lia|]. rewrite Z.log2_lor by (unfold PTE_P; lia). change (Z.log2 PTE_P) with 0.
    destruct (decide (perm = 0)) as [->|]; [cbn; lia|]. apply Z.max_lub_lt; [|lia].
    apply Z.log2_lt_pow2; lia. }
  rewrite lor_page by done. zlia.
Qed.

(** One page of the loop of [mappages]. *)
Lemma map_one k l pgdir tab a pa perm :
  vm k l pgdir tab -> 0 <= a < 2 ^ 32 -> 0 <= pa -> pa mod 4096 = 0 -> pa + 4096 <= 2 ^ 32 -> 0 <= perm < 4096 ->
  entry (k_mem k) tab a mod 2 = 0 ->
  (l = [] /\ walkpgdir pgdir a true k = Ok (0, k)) \/
  (exists p k1 k' l' tab', walkpgdir pgdir a true k = Ok (p, k1) /\ p <> 0 /\
     load32 (k_mem k1) p mod 2 = 0 /\
     k' = mkKmem (use_lock k1) (freelist k1) (store32 (k_mem k1) p (Z.lor (Z.lor pa perm) PTE_P)) /\
     vm k' l' pgdir tab' /\ grows pgdir k l tab k' l' tab' /\
     entry (k_mem k') tab' a = Z.lor (Z.lor pa perm) PTE_P /\
     (forall va, 0 <= va < 2 ^ 32 -> va / 4096 <> a / 4096 -> entry (k_mem k') tab' va = entry (k_mem k) tab va)).
Proof.
  intros Hv Ha H1 H2 H3 H4 He. pose proof (mapped_entry pa perm H1 H2 H3 H4) as Hw.
  destruct (walk_alloc k l pgdir tab a Hv) as [(-> & _ & E)|(p & k1 & l1 & tab1 & E & Hp & Hv1 & Hg & Hen)]; [by left|].
  right. destruct (store_entry (k_mem k1) pgdir tab1 a p (Z.lor (Z.lor pa perm) PTE_P) (vm_tabs _ _ _ _ Hv1) Ha Hw Hp)
    as (T & E1 & E2 & M).
  eexists p, k1, _, l1, tab1. split; [done|]. split; [|split; [|split; [reflexivity|split; [|split; [|split]]]]].
  - pose proof (pte_of_nonzero _ _ _ _ _ (vm_tabs _ _ _ _ Hv1) Hp). lia.
  - specialize (Hen a). unfold entry in Hen at 1. rewrite Hp in Hen. by rewrite Hen.
  - apply vm_store; [done | apply store32_ok, (vm_free _ _ _ _ Hv1) | done | done].
  - eapply vm_grows_trans; [exact Hg|]. pose proof (vm_grows_refl pgdir k1 l1 tab1) as [G1 G2 _]. by split.
  - done.
  - intros va Hva Hne. cbn [k_mem]. rewrite E2 by done. apply Hen.
Qed.

(** The pages 0 to [n] from [a] on: all mapped, or the first [j] of them when
    the memory for a page table is missing. *)
Definition map_result (m : mem) (tab : Z -> option Z) (m' : mem) (tab' : Z -> option Z) (l' : list Z)
    (a pa perm n r : Z) : Prop :=
  exists j, 0 <= j <= n + 1 /\
    (forall i, 0 <= i < j -> entry m' tab' (a + i * 4096) = Z.lor (Z.lor (pa + i * 4096) perm) PTE_P) /\
    (forall i, j <= i <= n -> entry m' tab' (a + i * 4096) = entry m tab (a + i * 4096)) /\
    (r = 0 /\ j = n + 1 \/ r = -1 /\ j <= n /\ l' = []).

Lemma mappages_loop_ok n k l pgdir tab a pa perm :
  vm k l pgdir tab -> 0 <= a -> a mod 4096 = 0 -> a + (Z.of_nat n + 1) * 4096 <= 2 ^ 32 ->
  0 <= pa -> pa mod 4096 = 0 -> pa + (Z.of_nat n + 1) * 4096 <= 2 ^ 32 -> 0 <= perm < 4096 ->
  (forall i, 0 <= i <= Z.of_nat n -> entry (k_mem k) tab (a + i * 4096) mod 2 = 0) ->
  exists r k' l' tab', mappages_loop (S n) pgdir a (a + Z.of_nat n * 4096) pa perm k = Ok (r, k') /\
    vm k' l' pgdir tab' /\ grows pgdir k l tab k' l' tab' /\
    (forall va, 0 <= va < 2 ^ 32 -> ~ (a <= va < a + (Z.of_nat n + 1) * 4096) ->
       entry (k_mem k') tab' va = entry (k_mem k) tab va) /\
    map_result (k_mem k) tab (k_mem k') tab' l' a pa perm (Z.of_nat n) r.
Proof.
  revert k l tab a pa. induction n as [|n IH]; intros k l tab a pa Hv Ha Haa Hab Hp Hpa Hpb Hperm Hfree;
    cbn [mappages_loop];
    (destruct (map_one k l pgdir tab a pa perm) as
      [(-> & E)|(p & k1 & k' & l' & tab' & E & Hnz & Hlow & Ek & Hv' & Hg & He & Hother)];
      [done | lia | done | done | lia | done | specialize (Hfree 0 ltac:(lia)); by rewrite Z.add_0_r in Hfree
      | rewrite (sr_bind_run _ _ _ _ _ E); exists (-1), k, [], tab; split; [done|]; split; [done|];
        split; [apply vm_grows_refl|]; split; [done|]; exists 0;
        split; [lia|]; split; [intros; lia|]; split; [done | right; split; [done | split; [lia | done]]] |]);
    rewrite (sr_bind_run _ _ _ _ _ E);
    (destruct (Z.eqb_spec p 0) as [?|_]; [done|]);
    unfold load, store, set_mem, sr_gets, sr_modify; erewrite sr_bind_run by done;
    rewrite land_1, Hlow; cbn [negb Z.eqb]; erewrite sr_bind_run by done; rewrite <-Ek.
  - destruct (Z.eqb_spec a (a + Z.of_nat 0 * 4096)) as [_|?]; [|lia].
    exists 0, k', l', tab'. split; [done|]. split; [done|]. split; [done|]. split.
    + intros va Hva Hr. apply Hother; [done|]. zlia.
    + exists 1. split; [lia|]. split; [|split; [intros; lia | left; split; lia]].
      intros i Hi. replace i with 0 by lia. by rewrite Z.mul_0_l, !Z.add_0_r.
  - destruct (Z.eqb_spec a (a + Z.of_nat (S n) * 4096)) as [?|_]; [lia|].
    rewrite (u32_small (a + PGSIZE)), (u32_small (pa + PGSIZE)) by (unfold PGSIZE; lia).
    destruct (IH k' l' tab' (a + PGSIZE) (pa + PGSIZE)) as (r & k2 & l2 & tab2 & E2 & Hv2 & Hg2 & Ho2 & Hr2);
      [done | unfold PGSIZE in *; first [lia | zlia].. | done | |].
    { intros i Hi. unfold PGSIZE. replace (a + 4096 + i * 4096) with (a + (i + 1) * 4096) by lia.
      rewrite Hother; [apply Hfree; lia | lia | zlia]. }
    exists r, k2, l2, tab2. split; [|split; [done|split; [by eapply vm_grows_trans|split]]].
    + change (mappages_loop (S n) pgdir (a + PGSIZE) (a + Z.of_nat (S n) * 4096) (pa + PGSIZE) perm k' = Ok (r, k2)).
      rewrite <-E2. f_equal. unfold PGSIZE. lia.
    + intros va Hva Hr. rewrite Ho2 by (unfold PGSIZE in *; lia). apply Hother; [done | zlia].
    + destruct Hr2 as (j & Hj & Hm & Hu & Hr2). unfold PGSIZE in *.
      assert (forall i, a + 4096 + (i - 1) * 4096 = a + i * 4096 /\ pa + 4096 + (i - 1) * 4096 = pa + i * 4096) as Hsh by lia.
      exists (j + 1). split; [lia|]. split; [|split].
      * intros i Hi. destruct (decide (i = 0)) as [->|Hi0].
        -- rewrite Z.mul_0_l, !Z.add_0_r. rewrite Ho2; [done | lia | lia].
        -- specialize (Hm (i - 1) ltac:(lia)). destruct (Hsh i) as [E3 E4]. by rewrite E3, E4 in Hm.
      * intros i Hi. specialize (Hu (i - 1) ltac:(lia)). destruct (Hsh i) as [E3 _]. rewrite E3 in Hu.
        rewrite Hu. apply Hother; [lia | zlia].
      * destruct Hr2 as [(-> & ->)|(-> & Hj2 & ->)]; [left | right]; (split; [done|]); lia || (split; [lia | done]).
Qed.

Lemma mappages_ok n k l pgdir tab va pa perm :
  vm k l pgdir tab -> 0 <= va -> va mod 4096 = 0 -> va + (Z.of_nat n + 1) * 4096 <= 2 ^ 32 ->
  0 <= pa -> pa mod 4096 = 0 -> pa + (Z.of_nat n + 1) * 4096 <= 2 ^ 32 -> 0 <= perm < 4096 ->
  (forall i, 0 <= i <= Z.of_nat n -> entry (k_mem k) tab (va + i * 4096) mod 2 = 0) ->
  exists r k' l' tab', mappages pgdir va ((Z.of_nat n + 1) * 4096) pa perm k = Ok (r, k') /\
    vm k' l' pgdir tab' /\ grows pgdir k l tab k' l' tab' /\
    (forall va', 0 <= va' < 2 ^ 32 -> ~ (va <= va' < va + (Z.of_nat n + 1) * 4096) ->
       entry (k_mem k') tab' va' = entry (k_mem k) tab va') /\
    map_result (k_mem k) tab (k_mem k') tab' l' va pa perm (Z.of_nat n) r.
Proof.
  intros Hv Hva Hal Hvb Hpa Hpal Hpb Hperm Hfree. unfold mappages.
  rewrite !PGROUNDDOWN_eq, (u32_small (va + _ - 1)) by (rewrite ?u32_small; lia).
  replace (va / 4096 * 4096) with va by zlia.
  replace ((va + (Z.of_nat n + 1) * 4096 - 1) / 4096 * 4096) with (va + Z.of_nat n * 4096) by zlia.
  rewrite u32_small by lia. replace (Z.to_nat ((va + Z.of_nat n * 4096 - va) / PGSIZE)) with n by (unfold PGSIZE; zlia).
  by apply mappages_loop_ok.
Qed.

(** ** Freeing user memory *)

(** The user pages of the addresses from [lo] to [hi]: [pg a] is the page that
    the page-aligned [a] is mapped to. *)
Definition maps (m : mem) (tab : Z -> option Z) (pg : Z -> option Z) (lo hi : Z) : Prop :=
  forall a, lo <= a < hi -> a mod 4096 = 0 ->
    match pg a with
    | Some p => exists f, 0 <= f < 4096 /\ f mod 2 = 1 /\ entry m tab a = refers p f
    | None => entry m tab a mod 2 = 0
    end.

(** They are nobody else's. *)
Record private (l : list Z) (pgdir : Z) (tab pg : Z -> option Z) (lo hi : Z) : Prop := {
  pr_page : forall a p, lo <= a < hi -> a mod 4096 = 0 -> pg a = Some p ->
    page_ok p /\ p ∉ l /\ p <> pgdir /\ forall i t, 0 <= i < 1024 -> tab i = Some t -> t <> p;
  pr_inj : forall a b p, lo <= a < hi -> lo <= b < hi -> a mod 4096 = 0 -> b mod 4096 = 0 ->
    pg a = Some p -> pg b = Some p -> a = b
}.

Lemma entry_ext m m' pgdir tab va :
  tables m pgdir tab -> (forall x, table_byte pgdir tab x -> m' x = m x) -> entry m' tab va = entry m tab va.
Proof.
  intros Ht Hx. unfold entry. destruct (pte_of tab va) as [a|] eqn:Ha; [|done].
  destruct (pte_in_table _ _ _ _ _ Ht Ha) as (t & Et & Hp & Hn & H1 & H2).
  apply load32_ext. intros x Hin. apply Hx. right. exists (PDX va), t. split; [apply PDX_range|]. split; [done | lia].
Qed.

Lemma tables_ext m m' pgdir tab :
  tables m pgdir tab -> (forall x, table_byte pgdir tab x -> m' x = m x) -> tables m' pgdir tab.
Proof.
  intros [H1 H2 H3 H4] Hx.
  assert (forall i, 0 <= i < 1024 -> load32 m' (pgdir + 4 * i) = load32 m (pgdir + 4 * i)) as Hd.
  { intros i Hi. apply load32_ext. intros x Hin. apply Hx. left. lia. }
  split; [done | | | done].
  - intros i Hi E. rewrite Hd by done. auto.
  - intros i t Hi E. rewrite Hd by done. auto.
Qed.

(** A page that is not of the directory shares no byte with it. *)
Lemma page_not_table m pgdir tab p x :
  tables m pgdir tab -> page_ok p -> p <> pgdir -> (forall i t, 0 <= i < 1024 -> tab i = Some t -> t <> p) ->
  p <= x < p + 4096 -> ~ table_byte pgdir tab x.
Proof.
  intros Ht Hp Hd Hn Hx [Hx'|(i & t & Hi & Et & Hx')].
  - destruct (pages_disjoint p pgdir Hp (tb_dir _ _ _ Ht) Hd); lia.
  - destruct (tb_some _ _ _ Ht i t Hi Et) as (Hpt & _ & _).
    destruct (pages_disjoint p t Hp Hpt); [intros ->; by apply (Hn i t) | lia | lia].
Qed.

Lemma in_use_cons l pgdir tab p :
  in_use l pgdir tab -> p <> pgdir -> (forall i t, 0 <= i < 1024 -> tab i = Some t -> t <> p) -> in_use (p :: l) pgdir tab.
Proof.
  intros [H1 H2] Hp Hn. split.
  - intros H. apply elem_of_cons in H as [->|H]; [done | by apply H1].
  - intros i t Hi Et H. apply elem_of_cons in H as [->|H]; [by apply (Hn i p) | by apply (H2 i t)].
Qed.

(** Freeing the page of [a] and clearing its entry. *)
Lemma free_one k l pgdir tab a pa p f :
  vm k l pgdir tab -> 0 <= a < 2 ^ 32 -> pte_of tab a = Some pa -> entry (k_mem k) tab a = refers p f ->
  page_ok p -> p ∉ l -> p <> pgdir -> (forall i t, 0 <= i < 1024 -> tab i = Some t -> t <> p) ->
  exists k1 k2, kfree_m kend p k = Ok (tt, k1) /\ store pa 0 k1 = Ok (tt, k2) /\ vm k2 (p :: l) pgdir tab /\
    entry (k_mem k2) tab a = 0 /\
    (forall va, 0 <= va < 2 ^ 32 -> va / 4096 <> a / 4096 -> entry (k_mem k2) tab va = entry (k_mem k) tab va) /\
    (forall x, ~ table_byte pgdir tab x -> ~ (p <= x < p + 4096) -> k_mem k2 x = k_mem k x).
Proof.
  intros [Hf Ht Hu] Ha Hpa He Hp Hpl Hpd Hpt.
  destruct (kfree_ok kend k l p Hf Hp Hpl) as (k1 & E1 & F1 & L1 & O1 & _).
  assert (forall x, table_byte pgdir tab x -> k_mem k1 x = k_mem k x) as Htb.
  { intros x Hx. apply O1. intros Hin. by apply (page_not_table _ _ _ p x Ht Hp Hpd Hpt Hin). }
  pose proof (tables_ext _ (k_mem k1) _ _ Ht Htb) as Ht1.
  destruct (store_entry (k_mem k1) pgdir tab a pa 0 Ht1 Ha ltac:(lia) Hpa) as (T2 & E2 & Eo & M2).
  assert (vm k1 (p :: l) pgdir tab) as Hv1 by (split; [done | done | by apply in_use_cons]).
  exists k1. eexists. split; [unfold kfree_m; by rewrite E1|]. split; [reflexivity|]. split; [|split; [|split]].
  - apply vm_store; [done | apply store32_ok, F1 | done | done].
  - done.
  - intros va Hva Hne. cbn [k_mem]. rewrite Eo by done. by apply (entry_ext _ _ pgdir).
  - intros x Hx Hxp. cbn [k_mem]. rewrite M2 by done. by apply O1.
Qed.

(** The entries of an absent table, up to the next multiple of 4 MB. *)
Lemma absent_skip m tab a b :
  0 <= a < 2 ^ 31 -> a mod 4096 = 0 -> pte_of tab a = None -> PGADDR (PDX a + 1) 0 0 = b ->
  a + 4096 <= b /\ b <= 2 ^ 31 /\ b mod 4096 = 0 /\ forall va, a <= va < b -> entry m tab va = 0.
Proof.
  intros Ha Hal Hn Hb. rewrite PDX_eq in Hb by lia. unfold PGADDR in Hb.
  rewrite Z.shiftl_0_l, !Z.lor_0_r, Z.shiftl_mul_pow2 in Hb by lia.
  rewrite u32_small in Hb by zlia. subst b. split; [zlia|]. split; [zlia|]. split; [zlia|].
  intros va Hva. unfold entry, pte_of in *. rewrite (PDX_eq va) by zlia. rewrite PDX_eq in Hn by lia.
  replace (va / 2 ^ 22) with (a / 2 ^ 22) by zlia. by rewrite (proj1 (fmap_None _ _) Hn).
Qed.

Lemma maps_weaken m m' tab pg lo hi lo' :
  (forall va, lo' <= va < hi -> entry m' tab va = entry m tab va) -> lo <= lo' ->
  maps m tab pg lo hi -> maps m' tab pg lo' hi.
Proof. intros He Hle Hm a Ha Hal. rewrite He by done. apply Hm; [lia | done]. Qed.

Lemma private_weaken l l' pgdir tab pg lo hi lo' :
  (forall a p, lo' <= a < hi -> a mod 4096 = 0 -> pg a = Some p -> p ∈ l' -> p ∈ l) -> lo <= lo' ->
  private l pgdir tab pg lo hi -> private l' pgdir tab pg lo' hi.
Proof.
  intros Hl Hle [H1 H2]. split.
  - intros a p Ha Hal E. destruct (H1 a p ltac:(lia) Hal E) as (P1 & P3 & P4 & P5).
    split; [done|]. split; [|done]. eauto.
  - intros a b p Ha Hb. apply H2; lia.
Qed.

(** What deallocation from [a] to [hi] achieves. *)
Definition deallocated (pgdir : Z) (tab pg : Z -> option Z) (a hi : Z) (k : kmem) (l : list Z) (k' : kmem) (l' : list Z) : Prop :=
  vm k' l' pgdir tab /\
  (forall va, a <= va < hi -> va mod 4096 = 0 -> entry (k_mem k') tab va mod 2 = 0) /\
  (forall va, 0 <= va < 2 ^ 32 -> ~ (a <= va / 4096 * 4096 < hi) -> entry (k_mem k') tab va = entry (k_mem k) tab va) /\
  (exists freed, l' = freed ++ l /\
     forall p, p ∈ freed <-> exists b, a <= b < hi /\ b mod 4096 = 0 /\ pg b = Some p) /\
  (forall x, ~ table_byte pgdir tab x ->
     (forall b p, a <= b < hi -> b mod 4096 = 0 -> pg b = Some p -> ~ (p <= x < p + 4096)) -> k_mem k' x = k_mem k x).

Lemma deallocated_none pgdir tab pg a hi k l : vm k l pgdir tab -> hi <= a -> deallocated pgdir tab pg a hi k l k l.
Proof.
  intros Hv Hle. split; [done|]. split; [intros; lia|]. split; [done|]. split; [|done].
  exists []. split; [done|]. intros p. split; [intros H; by apply not_elem_of_nil in H | intros (b & Hb & _); lia].
Qed.

(** Nothing of [a .. b) is mapped. *)
Lemma deallocated_skip pgdir tab pg a b hi k l k' l' :
  a <= b ->
  (forall va, a <= va < b -> va < hi -> va mod 4096 = 0 -> entry (k_mem k) tab va mod 2 = 0 /\ pg va = None) ->
  a mod 4096 = 0 -> b mod 4096 = 0 -> 0 <= a -> hi <= 2 ^ 31 ->
  deallocated pgdir tab pg b hi k l k' l' -> deallocated pgdir tab pg a hi k l k' l'.
Proof.
  intros Hab Hn Ha Hb H0 Hhi (Hv & He & Ho & (freed & El & Hf) & Hm). split; [done|]. split; [|split; [|split]].
  - intros va Hva Hal. destruct (decide (b <= va)); [by apply He; [lia|]|].
    rewrite Ho by zlia. apply Hn; [lia | lia | done].
  - intros va Hva Hr. apply Ho; [done | lia].
  - exists freed. split; [done|]. intros p. rewrite Hf. split; intros (c & Hc & Hcal & Hp).
    + exists c. split; [lia | done].
    + exists c. split; [|done]. destruct (decide (b <= c)); [lia|].
      destruct (Hn c ltac:(lia) ltac:(lia) Hcal) as [_ E]. congruence.
  - intros x Hx Hp. apply Hm; [done|]. intros c p Hc. apply Hp. lia.
Qed.

(** The page [p] of [a] was freed, the rest after it. *)
Lemma deallocated_step pgdir tab pg a hi k l k1 p k' l' :
  a < hi -> a mod 4096 = 0 -> 0 <= a -> hi <= 2 ^ 31 -> pg a = Some p ->
  entry (k_mem k1) tab a = 0 ->
  (forall va, 0 <= va < 2 ^ 32 -> va / 4096 <> a / 4096 -> entry (k_mem k1) tab va = entry (k_mem k) tab va) ->
  (forall x, ~ table_byte pgdir tab x -> ~ (p <= x < p + 4096) -> k_mem k1 x = k_mem k x) ->
  deallocated pgdir tab pg (a + 4096) hi k1 (p :: l) k' l' -> deallocated pgdir tab pg a hi k l k' l'.
Proof.
  intros Hah Hal H0 Hhi Hp E0 E1 Hm1 (Hv & He & Ho & (freed & El & Hf) & Hm). split; [done|]. split; [|split; [|split]].
  - intros va Hva Hval. destruct (decide (va = a)) as [->|]; [|apply He; [zlia | done]].
    rewrite Ho by zlia. by rewrite E0.
  - intros va Hva Hr. rewrite Ho by zlia. apply E1; [done | zlia].
  - exists (freed ++ [p]). split; [by rewrite El, <-app_assoc|]. intros q. rewrite elem_of_app, list_elem_of_singleton, Hf.
    split.
    + intros [(b & Hb & Hbal & Hq)| ->]; [exists b; split; [lia | done] | exists a; split; [lia | done]].
    + intros (b & Hb & Hbal & Hq). destruct (decide (b = a)) as [->|]; [right; congruence | left].
      exists b. split; [zlia | done].
  - intros x Hx Hnp. rewrite Hm; [apply Hm1; [done|]; apply (Hnp a p); [lia | done | done] | done |].
    intros b q Hb. apply Hnp. lia.
Qed.

Lemma deallocuvm_loop_ok pgdir tab pg hi fuel k l a :
  vm k l pgdir tab -> 0 <= a <= 2 ^ 31 -> a mod 4096 = 0 -> hi <= 2 ^ 31 ->
  maps (k_mem k) tab pg a hi -> private l pgdir tab pg a hi ->
  hi - a <= Z.of_nat fuel * 4096 ->
  exists k' l', deallocuvm_loop kend (S fuel) pgdir a hi k = Ok (tt, k') /\ deallocated pgdir tab pg a hi k l k' l'.
Proof.
  revert k l a. induction fuel as [|fuel IH]; intros k l a Hv Ha Hal Hhi Hmap Hpr Hf; cbn [deallocuvm_loop];
    (destruct (Z.ltb_spec a hi) as [Hlt|Hge]; [|exists k, l; split; [done | by apply deallocated_none]]); [lia|].
  destruct (pte_of tab a) as [pa|] eqn:Hpa.
  2: { rewrite (sr_bind_run _ _ _ _ _ (walk_absent k l pgdir tab a Hv Hpa)). cbn [Z.eqb].
    destruct (absent_skip (k_mem k) tab a _ ltac:(lia) Hal Hpa eq_refl) as (B1 & B2 & B3 & B4).
    set (b := PGADDR (PDX a + 1) 0 0) in *. rewrite (u32_small (b - PGSIZE)) by (unfold PGSIZE; lia).
    replace (b - PGSIZE + PGSIZE) with b by lia. rewrite u32_small by lia.
    destruct (IH k l b) as (k' & l' & E & D); [done | lia | done | done | | | lia |].
    - eapply maps_weaken; [|shelve|exact Hmap]; done.
    - eapply private_weaken; [|shelve|exact Hpr]; done.
    - exists k', l'. split; [done|]. apply (deallocated_skip pgdir tab pg a b); try (done || lia).
      intros va Hva Hvh Hval. specialize (Hmap va ltac:(lia) Hval). rewrite (B4 va Hva) in *.
      destruct (pg va) as [p|] eqn:Ep; [|done]. destruct Hmap as (f & Hf1 & Hf2 & Er).
      destruct (pr_page _ _ _ _ _ _ Hpr va p ltac:(lia) Hval Ep) as (Hp & _).
      pose proof (page_phys p Hp) as (_ & Hr & _ & _). unfold refers in Er. exfalso.
      destruct (decide (f = 0)) as [->|]; [done | lia].
    Unshelve. all: lia. }
  rewrite (sr_bind_run _ _ _ _ _ (walk_present k l pgdir tab a pa false Hv Hpa)).
  destruct (Z.eqb_spec pa 0) as [->|_]; [pose proof (pte_of_nonzero _ _ _ _ _ (vm_tabs _ _ _ _ Hv) Hpa); lia|].
  unfold load, sr_gets. erewrite sr_bind_run by done.
  assert (load32 (k_mem k) pa = entry (k_mem k) tab a) as -> by (unfold entry; by rewrite Hpa).
  rewrite (u32_small (a + PGSIZE)) by (unfold PGSIZE; lia).
  pose proof (Hmap a ltac:(lia) Hal) as Ha'. destruct (pg a) as [p|] eqn:Ep.
  - destruct Ha' as (f & Hf1 & Hf2 & Er). rewrite Er.
    destruct (pr_page _ _ _ _ _ _ Hpr a p ltac:(lia) Hal Ep) as (Hp & Hpl & Hpd & Hpt).
    destruct (refers_parts p f Hp Hf1) as (Ead & _ & _). destruct (page_phys p Hp) as (Ev & Hr & Hm & Epv).
    rewrite land_1, Ead. destruct (Z.eqb_spec (refers p f mod 2) 0) as [E2|_]; [unfold refers in E2; zlia|].
    cbn [negb].
    destruct (Z.eqb_spec (V2P p) 0) as [E0|_]; [destruct Hp as (_ & ? & _); unfold KERNBASE in *; lia|]. rewrite Epv.
    destruct (free_one k l pgdir tab a pa p f Hv ltac:(lia) Hpa Er Hp Hpl Hpd Hpt) as (k1 & k2 & E1 & E2 & Hv2 & Z2 & O2 & M2).
    erewrite sr_bind_run by (rewrite (sr_bind_run _ _ _ _ _ E1); exact E2).
    destruct (IH k2 (p :: l) (a + PGSIZE)) as (k' & l' & E & D);
      [done | unfold PGSIZE in *; zlia | unfold PGSIZE; zlia | done | | | unfold PGSIZE; lia |].
    + eapply maps_weaken; [|shelve|exact Hmap]. intros va Hva. apply O2; unfold PGSIZE in *; [lia | zlia].
    + eapply private_weaken; [|shelve|exact Hpr]. intros b q Hb Hbal Eq Hq.
      apply elem_of_cons in Hq as [->|Hq]; [|done]. exfalso. unfold PGSIZE in Hb.
      assert (b = a); [|lia]. apply (pr_inj _ _ _ _ _ _ Hpr b a p); (done || lia).
    + exists k', l'. split; [done|]. by apply (deallocated_step pgdir tab pg a hi k l k2 p); try lia.
    Unshelve. all: unfold PGSIZE; lia.
  - rewrite land_1, Ha'. cbn [negb Z.eqb]. erewrite sr_bind_run by done.
    destruct (IH k l (a + PGSIZE)) as (k' & l' & E & D);
      [done | unfold PGSIZE in *; zlia | unfold PGSIZE; zlia | done | | | unfold PGSIZE; lia |].
    + eapply maps_weaken; [|shelve|exact Hmap]. done.
    + eapply private_weaken; [|shelve|exact Hpr]. done.
    + exists k', l'. split; [done|]. apply (deallocated_skip pgdir tab pg a (a + PGSIZE)); unfold PGSIZE in *; try (done || lia).
      * intros va Hva Hvh Hval. replace va with a by zlia. done.
      * zlia.
    Unshelve. all: unfold PGSIZE; lia.
Qed.

(** ** Growing user memory *)

Lemma kalloc_run k p k1 : kalloc k = (p, k1) -> kalloc_m k = Ok (p, k1).
Proof. unfold kalloc_m. by intros ->. Qed.

(** A free page taken and cleared. *)
Lemma take_page k p l pgdir tab :
  vm k (p :: l) pgdir tab ->
  exists k1, kalloc k = (p, k1) /\ p <> 0 /\ page_ok p /\ p ∉ l /\ p <> pgdir /\
    (forall i t, 0 <= i < 1024 -> tab i = Some t -> t <> p) /\
    let kz := mkKmem (use_lock k1) (freelist k1) (memset (k_mem k1) p 0 PGSIZE) in
    vm kz l pgdir tab /\ (forall va, entry (k_mem kz) tab va = entry (k_mem k) tab va) /\
    (forall x, p <= x < p + 4096 -> k_mem kz x = 0) /\
    (forall x, ~ (p <= x < p + 4096) -> k_mem kz x = k_mem k x).
Proof.
  intros [Hf Ht Hu]. destruct (kalloc_ok kend k (p :: l) Hf) as (k1 & E1 & F1 & M1 & L1).
  pose proof (fp_pages _ _ _ Hf) as Hps. apply Forall_cons in Hps as [Hp _].
  pose proof (fp_nodup _ _ _ Hf) as Hn. apply list.NoDup_cons in Hn as [Hpl _].
  assert (p <> pgdir) as Hpd by (intros ->; apply (proj1 Hu), list_elem_of_here).
  assert (forall i t, 0 <= i < 1024 -> tab i = Some t -> t <> p) as Hpt.
  { intros i t Hi Et ->. apply (proj2 Hu i p Hi Et), list_elem_of_here. }
  exists k1. split; [done|]. split; [destruct Hp as (_ & _ & _ & ? & _); lia|].
  do 4 (split; [done|]). cbn [k_mem].
  assert (forall x, memset (k_mem k1) p 0 PGSIZE x = if within x p 4096 then 0 else k_mem k x) as Hm.
  { intros x. rewrite memset_at, M1. done. }
  assert (forall x, table_byte pgdir tab x -> memset (k_mem k1) p 0 PGSIZE x = k_mem k x) as Htb.
  { intros x Hx. rewrite Hm. case_within; [|done]. by destruct (page_not_table _ _ _ p x Ht Hp Hpd Hpt). }
  split; [|split; [|split]].
  - split; [|by eapply tables_ext | by eapply in_use_tail].
    apply (free_pages_store kend k1 l); [done | apply memset_ok, F1 |].
    intros v x Hv Hx. rewrite Hm, M1. case_within; [|done]. exfalso.
    pose proof (fp_pages _ _ _ F1) as Hl. rewrite Forall_forall in Hl. unfold PGSIZE in *.
    destruct (pages_disjoint v p (Hl v Hv) Hp); [intros ->; done | lia | lia].
  - intros va. by apply (entry_ext _ _ pgdir).
  - intros x Hx. rewrite Hm. case_within; done || lia.
  - intros x Hx. rewrite Hm. case_within; done || lia.
Qed.

Section Grow.
(** The state before: directory [pgdir] with [tab0] in [k0], free pages [l0];
    the pages from [a0] to [top] are not mapped. *)
Context (pgdir a0 top : Z) (k0 : kmem) (l0 : list Z) (tab0 : Z -> option Z).
Hypothesis Ha0 : 0 <= a0 /\ a0 mod 4096 = 0.
Hypothesis Htop : top < 2 ^ 31.
Hypothesis Hclear : forall a, a0 <= a < top -> a mod 4096 = 0 -> entry (k_mem k0) tab0 a mod 2 = 0.

(** The pages from [a0] up to [a] are mapped to the fresh, cleared pages [pg];
    the pages [out] are taken but not mapped. *)
Record grown (a : Z) (out : list Z) (k : kmem) (l : list Z) (tab pg : Z -> option Z) : Prop := {
  gw_vm : vm k l pgdir tab;
  gw_used : exists u, l0 = u ++ l /\
    (forall i t, 0 <= i < 1024 -> tab i = Some t -> tab0 i = Some t \/ t ∈ u) /\
    (forall b p, pg b = Some p -> p ∈ u) /\
    (forall q, q ∈ u -> (exists i, 0 <= i < 1024 /\ tab i = Some q) \/ (exists b, pg b = Some q) \/ q ∈ out);
  gw_tab : forall i t, tab0 i = Some t -> tab i = Some t;
  gw_map : forall b, a0 <= b < a -> b mod 4096 = 0 ->
    exists p, pg b = Some p /\ entry (k_mem k) tab b = refers p 7 /\ forall x, p <= x < p + 4096 -> k_mem k x = 0;
  gw_rest : forall b, ~ (a0 <= b < a /\ b mod 4096 = 0) -> pg b = None;
  gw_entry : forall va, 0 <= va < 2 ^ 32 -> ~ (a0 <= va / 4096 * 4096 < a) ->
    entry (k_mem k) tab va = entry (k_mem k0) tab0 va;
  gw_priv : private l pgdir tab pg a0 a;
  gw_mem : forall x, ~ table_byte pgdir tab x -> (forall p, p ∈ l0 -> ~ (p <= x < p + 4096)) -> k_mem k x = k_mem k0 x
}.

Lemma grown_start : vm k0 l0 pgdir tab0 -> grown a0 [] k0 l0 tab0 (fun _ => None).
Proof.
  intros Hv. split; [done | | done | intros; lia | done | done | split; done || (intros; lia) | done].
  exists []. split; [done|]. split; [auto|]. split; [done|]. intros q H. by apply not_elem_of_nil in H.
Qed.

(** From a grown state [k] the page [p] was taken and cleared, which gave [kz],
    and a mapping of page [a] was tried, which gave [k2]: nothing else changed. *)
Record tried (a : Z) (k : kmem) (p : Z) (l : list Z) (tab pg : Z -> option Z) (kz k2 : kmem) (l2 : list Z) (tab2 : Z -> option Z) : Prop := {
  tr_old : grown a [] k (p :: l) tab pg;
  tr_page : page_ok p /\ p ∉ l /\ p <> pgdir /\ forall i t, 0 <= i < 1024 -> tab i = Some t -> t <> p;
  tr_entry : forall va, entry (k_mem kz) tab va = entry (k_mem k) tab va;
  tr_mem : forall x, ~ (p <= x < p + 4096) -> k_mem kz x = k_mem k x;
  tr_vm : vm k2 l2 pgdir tab2;
  tr_grows : grows pgdir kz l tab k2 l2 tab2;
  tr_other : forall va, 0 <= va < 2 ^ 32 -> va / 4096 <> a / 4096 -> entry (k_mem k2) tab2 va = entry (k_mem kz) tab va
}.

Section Tried.
Context (a : Z) (k : kmem) (p : Z) (l : list Z) (tab pg : Z -> option Z) (kz k2 : kmem) (l2 : list Z) (tab2 : Z -> option Z).
Hypothesis Ha : a mod 4096 = 0 /\ a0 <= a < top.
Hypothesis Htr : tried a k p l tab pg kz k2 l2 tab2.

(** Tables are never [p] nor a page outside the free list. *)
Lemma tried_tables q :
  q ∉ l -> (forall i t, 0 <= i < 1024 -> tab i = Some t -> t <> q) ->
  q ∉ l2 /\ forall i t, 0 <= i < 1024 -> tab2 i = Some t -> t <> q.
Proof.
  intros Hq Ht. destruct (gr_used _ _ _ _ _ _ _ (tr_grows _ _ _ _ _ _ _ _ _ _ Htr)) as (u & E & Hu & _). subst l. split.
  - intros H. apply Hq, elem_of_app. by right.
  - intros i t Hi Et ->. apply Hu in Et as [Et|Et]; [by apply (Ht i q) | | done].
    apply Hq, elem_of_app. by left.
Qed.

(** The pages mapped before are as they were. *)
Lemma tried_page b q :
  a0 <= b < a -> b mod 4096 = 0 -> pg b = Some q ->
  page_ok q /\ q <> p /\ q <> pgdir /\ q ∉ l2 /\ (forall i t, 0 <= i < 1024 -> tab2 i = Some t -> t <> q) /\
  (forall x, q <= x < q + 4096 -> k_mem k2 x = k_mem k x) /\
  entry (k_mem k2) tab2 b = entry (k_mem k) tab b.
Proof.
  intros Hb Hbal Eq. destruct Htr as [Hg (Hp & _ & _ & _) He Hm Hv2 Hgr Ho].
  destruct (pr_page _ _ _ _ _ _ (gw_priv _ _ _ _ _ _ Hg) b q Hb Hbal Eq) as (Q1 & Q3 & Q4 & Q5).
  assert (q <> p) as Hqp by (intros ->; apply Q3, list_elem_of_here).
  assert (q ∉ l) as Hql by (intros H; apply Q3; by apply list_elem_of_further).
  destruct (tried_tables q Hql Q5) as [T1 T2].
  do 5 (split; [done|]). split.
  - intros x Hx. rewrite (gr_mem _ _ _ _ _ _ _ Hgr).
    + apply Hm. destruct (pages_disjoint q p Q1 Hp Hqp); lia.
    + eapply (page_not_table _ _ _ q); [exact (vm_tabs _ _ _ _ Hv2) | done..].
  - rewrite Ho by zlia. apply He.
Qed.

Lemma tried_private : private l2 pgdir tab2 pg a0 a.
Proof.
  split.
  - intros b q Hb Hbal Eq. destruct (tried_page b q Hb Hbal Eq) as (Q1 & _ & Q3 & Q4 & Q5 & _). done.
  - apply (pr_inj _ _ _ _ _ _ (gw_priv _ _ _ _ _ _ (tr_old _ _ _ _ _ _ _ _ _ _ Htr))).
Qed.

Lemma tried_used : exists u, l0 = u ++ l2 /\ p ∈ u /\
  (forall i t, 0 <= i < 1024 -> tab2 i = Some t -> tab0 i = Some t \/ t ∈ u) /\
  (forall b q, pg b = Some q -> q ∈ u) /\
  (forall q, q ∈ u -> q = p \/ (exists i, 0 <= i < 1024 /\ tab2 i = Some q) \/ (exists b, pg b = Some q)).
Proof.
  destruct (gw_used _ _ _ _ _ _ (tr_old _ _ _ _ _ _ _ _ _ _ Htr)) as (u & E & U1 & U2 & U3).
  destruct (gr_used _ _ _ _ _ _ _ (tr_grows _ _ _ _ _ _ _ _ _ _ Htr)) as (v & Ev & V1 & V2).
  pose proof (gr_tab _ _ _ _ _ _ _ (tr_grows _ _ _ _ _ _ _ _ _ _ Htr)) as V3.
  exists (u ++ p :: v). split; [by rewrite E, Ev, <-app_assoc|].
  split; [apply elem_of_app; right; apply list_elem_of_here|]. split; [|split].
  - intros i t Hi Et. apply V1 in Et as [Et|Et]; [|right; apply elem_of_app; right; by apply list_elem_of_further | done].
    apply U1 in Et as [Et|Et]; [by left | right; apply elem_of_app; by left | done].
  - intros b q Eq. apply elem_of_app. left. eauto.
  - intros q Hq. apply elem_of_app in Hq as [Hq|Hq].
    + apply U3 in Hq as [(i & Hi & Et)|[Hq|Hq]]; [right; left; eauto | by right; right | by apply not_elem_of_nil in Hq].
    + apply elem_of_cons in Hq as [->|Hq]; [by left | right; left; auto].
Qed.

Lemma tried_mem x :
  ~ table_byte pgdir tab2 x -> (forall q, q ∈ l0 -> ~ (q <= x < q + 4096)) -> k_mem k2 x = k_mem k0 x.
Proof.
  intros Hx Hq. destruct Htr as [Hg _ _ Hm _ Hgr _]. rewrite (gr_mem _ _ _ _ _ _ _ Hgr) by done.
  destruct tried_used as (u & E & Hpu & _). rewrite Hm by (apply Hq; rewrite E; apply elem_of_app; by left).
  apply (gw_mem _ _ _ _ _ _ Hg); [|done]. intros Hb. apply Hx. eapply table_byte_mono; [|exact Hb]. apply Hgr.
Qed.

Lemma tried_entry va :
  0 <= va < 2 ^ 32 -> va / 4096 <> a / 4096 -> ~ (a0 <= va / 4096 * 4096 < a) ->
  entry (k_mem k2) tab2 va = entry (k_mem k0) tab0 va.
Proof.
  intros Hva Hne Hr. destruct Htr as [Hg _ He _ _ _ Ho]. rewrite Ho, He by done. by apply (gw_entry _ _ _ _ _ _ Hg).
Qed.

(** The mapping failed: the state is as grown as before. *)
Lemma grown_keep : entry (k_mem k2) tab2 a = entry (k_mem kz) tab a -> grown a [p] k2 l2 tab2 pg.
Proof.
  intros Ea. pose proof (tr_old _ _ _ _ _ _ _ _ _ _ Htr) as Hg. split.
  - apply Htr.
  - destruct tried_used as (u & E & _ & U1 & U2 & U3). exists u. do 3 (split; [done|]).
    intros q Hq. apply U3 in Hq as [->|[Hq|Hq]]; [right; right; apply list_elem_of_here | by left | by right; left].
  - intros i t Et. apply Htr. by apply (gw_tab _ _ _ _ _ _ Hg).
  - intros b Hb Hbal. destruct (gw_map _ _ _ _ _ _ Hg b Hb Hbal) as (q & Eq & En & Hz).
    destruct (tried_page b q Hb Hbal Eq) as (_ & _ & _ & _ & _ & Qm & Qe).
    exists q. split; [done|]. rewrite Qe. split; [done|]. intros x Hx. rewrite Qm by done. auto.
  - apply Hg.
  - intros va Hva Hr. destruct (decide (va / 4096 = a / 4096)) as [E|E]; [|by apply tried_entry].
    assert (pte_of tab2 va = pte_of tab2 a /\ pte_of tab0 va = pte_of tab0 a) as [P1 P2].
    { unfold pte_of. rewrite !PDX_eq, !PTX_eq, E by lia. by replace (va / 2 ^ 22) with (a / 2 ^ 22) by zlia. }
    unfold entry. rewrite P1, P2. change (entry (k_mem k2) tab2 a = entry (k_mem k0) tab0 a).
    rewrite Ea, (tr_entry _ _ _ _ _ _ _ _ _ _ Htr). apply (gw_entry _ _ _ _ _ _ Hg); [lia | zlia].
  - apply tried_private.
  - apply tried_mem.
Qed.

(** The mapping succeeded: one page more. *)
Lemma grown_step :
  entry (k_mem k2) tab2 a = refers p 7 -> (forall x, p <= x < p + 4096 -> k_mem kz x = 0) ->
  grown (a + 4096) [] k2 l2 tab2 (<[a := Some p]> pg).
Proof.
  intros Ea Hz. pose proof (tr_old _ _ _ _ _ _ _ _ _ _ Htr) as Hg.
  destruct (tr_page _ _ _ _ _ _ _ _ _ _ Htr) as (Hp & Hpl & Hpd & Hpt).
  destruct (tried_tables p Hpl Hpt) as [T1 T2].
  assert (forall b, b mod 4096 = 0 -> a0 <= b < a + 4096 -> b = a \/ a0 <= b < a) as Hcase by (intros; zlia).
  split.
  - apply Htr.
  - destruct tried_used as (u & E & Hpu & U1 & U2 & U3). exists u. split; [done|]. split; [done|]. split.
    + intros b q Eq. destruct (decide (b = a)) as [->|Hb].
      * rewrite fn_lookup_insert in Eq. by injection Eq as <-.
      * rewrite fn_lookup_insert_ne in Eq by done. eauto.
    + intros q Hq. apply U3 in Hq as [->|[Hq|(b & Eb)]]; [right; left; exists a; apply fn_lookup_insert | by left|].
      right. left. exists b. rewrite fn_lookup_insert_ne; [done|]. intros <-.
      rewrite (gw_rest _ _ _ _ _ _ Hg) in Eb by lia. done.
  - intros i t Et. apply Htr. by apply (gw_tab _ _ _ _ _ _ Hg).
  - intros b Hb Hbal. destruct (Hcase b Hbal Hb) as [->|Hb'].
    + exists p. rewrite fn_lookup_insert. split; [done|]. split; [done|]. intros x Hx.
      rewrite (gr_mem _ _ _ _ _ _ _ (tr_grows _ _ _ _ _ _ _ _ _ _ Htr)); [auto|].
      eapply (page_not_table _ _ _ p); [exact (vm_tabs _ _ _ _ (tr_vm _ _ _ _ _ _ _ _ _ _ Htr)) | done..].
    + destruct (gw_map _ _ _ _ _ _ Hg b Hb' Hbal) as (q & Eq & En & Hq).
      destruct (tried_page b q Hb' Hbal Eq) as (_ & _ & _ & _ & _ & Qm & Qe).
      exists q. rewrite fn_lookup_insert_ne by lia. split; [done|]. rewrite Qe. split; [done|].
      intros x Hx. rewrite Qm by done. auto.
  - intros b Hb. rewrite fn_lookup_insert_ne by (intros <-; apply Hb; lia). apply (gw_rest _ _ _ _ _ _ Hg). lia.
  - intros va Hva Hr. apply tried_entry; [done | zlia | lia].
  - split.
    + intros b q Hb Hbal Eq. destruct (Hcase b Hbal Hb) as [->|Hb'].
      * rewrite fn_lookup_insert in Eq. injection Eq as <-. done.
      * rewrite fn_lookup_insert_ne in Eq by lia. destruct (tried_page b q Hb' Hbal Eq) as (Q1 & _ & Q3 & Q4 & Q5 & _). done.
    + intros b c q Hb Hc Hbal Hcal Eb Ec.
      destruct (Hcase b Hbal Hb) as [->|Hb'], (Hcase c Hcal Hc) as [->|Hc']; [done|..].
      * rewrite fn_lookup_insert in Eb. rewrite fn_lookup_insert_ne in Ec by lia. injection Eb as <-.
        by destruct (tried_page c p Hc' Hcal Ec) as (_ & ? & _).
      * rewrite fn_lookup_insert in Ec. rewrite fn_lookup_insert_ne in Eb by lia. injection Ec as <-.
        by destruct (tried_page b p Hb' Hbal Eb) as (_ & ? & _).
      * rewrite fn_lookup_insert_ne in Eb, Ec by lia. by apply (pr_inj _ _ _ _ _ _ (gw_priv _ _ _ _ _ _ Hg) b c q).
  - apply tried_mem.
Qed.
End Tried.

Lemma omap_length_le {A B} (f : A -> option B) (l : list A) : (length (omap f l) <= length l)%nat.
Proof. induction l as [|a l IH]; cbn; [done|]. case_match; cbn; lia. Qed.

(** Undoing a grown state: all its pages are given back. *)
Definition undone (out : list Z) (tab : Z -> option Z) (k' : kmem) (l' : list Z) : Prop :=
  vm k' l' pgdir tab /\ (forall i t, tab0 i = Some t -> tab i = Some t) /\
  (forall va, a0 <= va < top -> va mod 4096 = 0 -> entry (k_mem k') tab va mod 2 = 0) /\
  (forall va, 0 <= va < 2 ^ 32 -> ~ (a0 <= va / 4096 * 4096 < top) ->
     entry (k_mem k') tab va = entry (k_mem k0) tab0 va) /\
  (forall q, q ∈ l0 -> q ∈ l' \/ (exists i, 0 <= i < 1024 /\ tab i = Some q) \/ q ∈ out) /\
  (forall q, q ∈ out -> q ∉ l') /\
  (forall x, ~ table_byte pgdir tab x -> (forall p, p ∈ l0 -> ~ (p <= x < p + 4096)) -> k_mem k' x = k_mem k0 x) /\
  (forall i t, 0 <= i < 1024 -> tab i = Some t -> tab0 i = Some t \/ t ∈ l0) /\ (forall q, q ∈ l' -> q ∈ l0).

(** When no page is left, they all are tables, mapped, or taken. *)
Lemma grown_count a out k tab pg :
  NoDup l0 -> a0 <= a -> grown a out k [] tab pg -> Z.of_nat (length l0) <= 1024 + (a - a0 + 4095) / 4096 + Z.of_nat (length out).
Proof.
  intros Hn Ha Hg. destruct (gw_used _ _ _ _ _ _ Hg) as (u & E & _ & _ & U). rewrite app_nil_r in E.
  set (n := (a - a0 + 4095) / 4096).
  assert (l0 ⊆+ omap tab (seqZ 0 1024) ++ omap (fun i => pg (a0 + 4096 * i)) (seqZ 0 n) ++ out) as Hs.
  { apply NoDup_submseteq; [done|]. intros q Hq. rewrite E in Hq. apply elem_of_app. rewrite elem_of_app, !list_elem_of_omap.
    apply U in Hq as [(i & Hi & Et)|[(b & Eb)|Hq]]; [left; exists i; by rewrite elem_of_seqZ | right; left | by right; right].
    destruct (decide (a0 <= b < a /\ b mod 4096 = 0)) as [[Hb Hbal]|Hb]; [|by rewrite (gw_rest _ _ _ _ _ _ Hg) in Eb].
    exists ((b - a0) / 4096). rewrite elem_of_seqZ. split; [unfold n; zlia|]. by replace (a0 + 4096 * ((b - a0) / 4096)) with b by zlia. }
  apply submseteq_length in Hs. rewrite !length_app in Hs.
  pose proof (omap_length_le tab (seqZ 0 1024)) as H1. pose proof (omap_length_le (fun i => pg (a0 + 4096 * i)) (seqZ 0 n)) as H2.
  rewrite length_seqZ in H1, H2. assert (0 <= n) by (unfold n; zlia). lia.
Qed.

Lemma grown_undo a out k l tab pg oldsz :
  a0 <= a < top -> a mod 4096 = 0 -> PGROUNDUP oldsz = a0 -> oldsz < top ->
  (forall q, q ∈ out -> q ∉ l /\ forall b, pg b <> Some q) ->
  grown a out k l tab pg ->
  exists k' l', deallocuvm kend pgdir top oldsz k = Ok (s32 oldsz, k') /\ undone out tab k' l'.
Proof.
  intros Ha Hal Hup Hold Hout Hg. pose proof Hg as [Hv (u & Eu & U1 & U2 & U3) Ht Hmap Hrest Hen Hpr Hmem].
  unfold deallocuvm. destruct (Z.leb_spec top oldsz); [lia|]. rewrite Hup.
  destruct (deallocuvm_loop_ok pgdir tab pg top (Z.to_nat ((top - a0) / PGSIZE + 1)) k l a0) as (k' & l' & E & D).
  - done.
  - lia.
  - apply Ha0.
  - lia.
  - intros b Hb Hbal. destruct (decide (b < a)) as [Hlt|Hge].
    + destruct (Hmap b ltac:(lia) Hbal) as (q & -> & Eq & _). exists 7. split; [lia|]. split; [done | done].
    + rewrite (Hrest b) by lia. rewrite Hen by zlia. by apply Hclear.
  - destruct Hpr as [P1 P2]. split.
    + intros b q Hb Hbal Eq. destruct (decide (b < a)); [apply (P1 b q); [lia | done | done]|].
      rewrite Hrest in Eq by lia. done.
    + intros b c q Hb Hc Hbal Hcal Eb Ec. apply (P2 b c q); try done.
      * destruct (decide (b < a)); [lia|]. rewrite Hrest in Eb by lia. done.
      * destruct (decide (c < a)); [lia|]. rewrite Hrest in Ec by lia. done.
  - unfold PGSIZE. zlia.
  - exists k', l'. split; [by rewrite (sr_bind_run _ _ _ _ _ E)|].
    destruct D as (D1 & D2 & D3 & (freed & El & D4) & D5). split; [done|]. split; [done|]. split; [done|].
    split; [|split; [|split]].
    + intros va Hva Hr. rewrite D3 by done. apply Hen; [done | lia].
    + intros q Hq. rewrite Eu in Hq. apply elem_of_app in Hq as [Hq|Hq].
      * apply U3 in Hq as [Hq|[(b & Eb)|Hq]]; [by right; left | left | by right; right].
        rewrite El. apply elem_of_app. left. apply D4. exists b.
        destruct (decide (a0 <= b < a /\ b mod 4096 = 0)) as [[Hb Hbal]|Hb]; [|by rewrite Hrest in Eb].
        split; [lia | done].
      * left. rewrite El. apply elem_of_app. by right.
    + intros q Hq Hin. destruct (Hout q Hq) as [O1 O2]. rewrite El in Hin. apply elem_of_app in Hin as [Hin|Hin]; [|done].
      apply D4 in Hin as (b & _ & _ & Eb). by apply (O2 b).
    + split; [|split].
      * intros x Hx Hp. rewrite D5; [by apply Hmem | done |].
        intros b q Hb Hbal Eq. apply Hp. rewrite Eu. apply elem_of_app. left. eauto.
      * intros i t Hi Et. apply U1 in Et as [Et|Et]; [by left | right; rewrite Eu; apply elem_of_app; by left | done].
      * intros q Hq. rewrite El in Hq. rewrite Eu. apply elem_of_app. apply elem_of_app in Hq as [Hq|Hq]; [left | by right].
        apply D4 in Hq as (b & _ & _ & Eb). eauto.
Qed.

(** Giving back the page that could not be mapped. *)
Lemma undone_free p tab k l :
  page_ok p -> p <> pgdir -> (forall i t, 0 <= i < 1024 -> tab i = Some t -> t <> p) -> p ∈ l0 ->
  undone [p] tab k l -> exists k', kfree_m kend p k = Ok (tt, k') /\ undone [] tab k' (p :: l).
Proof.
  intros Hp Hpd Hpt Hpl (Hv & H2 & H3 & H4 & H5 & H6 & H7 & H8 & H9). destruct Hv as [Hf Ht Hu].
  destruct (kfree_ok kend k l p Hf Hp) as (k' & E & F & _ & O & _); [apply H6, list_elem_of_here|].
  assert (forall x, table_byte pgdir tab x -> k_mem k' x = k_mem k x) as Htb.
  { intros x Hx. apply O. intros Hin. by apply (page_not_table _ _ _ p x Ht Hp Hpd Hpt Hin). }
  assert (forall va, entry (k_mem k') tab va = entry (k_mem k) tab va) as He by (intros; by apply (entry_ext _ _ pgdir)).
  exists k'. split; [unfold kfree_m; by rewrite E|]. split; [|split; [done|split; [|split; [|split; [|split]]]]].
  - split; [done | by eapply tables_ext | by apply in_use_cons].
  - intros va Hva Hal. rewrite He. auto.
  - intros va Hva Hr. rewrite He. auto.
  - intros q Hq. apply H5 in Hq as [Hq|[Hq|Hq]]; [left; by apply list_elem_of_further | by right; left |].
    apply list_elem_of_singleton in Hq as ->. left. apply list_elem_of_here.
  - intros q Hq. by apply not_elem_of_nil in Hq.
  - split; [|split; [done|]].
    + intros x Hx Hq. rewrite O by (apply Hq; done). by apply H7.
    + intros q Hq. apply elem_of_cons in Hq as [->|Hq]; [done | by apply H9].
Qed.

Lemma mapped_user p : page_ok p -> Z.lor (Z.lor (V2P p) (Z.lor PTE_W PTE_U)) PTE_P = refers p 7.
Proof.
  intros Hp. rewrite <-(pde_refers p Hp). rewrite <-!Z.lor_assoc. f_equal.
Qed.

Lemma allocuvm_loop_ok oldsz fuel a k l tab pg :
  NoDup l0 -> a0 <= a -> a mod 4096 = 0 -> a <= top + 4095 -> PGROUNDUP oldsz = a0 -> oldsz <= a0 ->
  top - a <= Z.of_nat fuel * 4096 -> grown a [] k l tab pg ->
  exists b k' l' tab', allocuvm_loop kend (S fuel) pgdir a oldsz top k = Ok (b, k') /\
    (b = true /\ (exists a' pg', top <= a' <= top + 4095 /\ a' mod 4096 = 0 /\ grown a' [] k' l' tab' pg') \/
     b = false /\ undone [] tab' k' l' /\ Z.of_nat (length l0) <= 1026 + (top - a0) / 4096).
Proof.
  intros Hnd. revert a k l tab pg. induction fuel as [|fuel IH]; intros a k l tab pg Ha Hal Hat Hup Hold Hf Hg;
    cbn [allocuvm_loop];
    (destruct (Z.ltb_spec a top) as [Hlt|Hge]; [|exists true, k, l, tab; split; [done|]; left; split; [done | eauto 10]]); [lia|].
  pose proof (gw_vm _ _ _ _ _ _ Hg) as Hv. destruct l as [|p l].
  - pose proof (kalloc_ok kend k [] (vm_free _ _ _ _ Hv)) as E.
    rewrite (sr_bind_run _ _ _ _ _ (kalloc_run k 0 k E)). cbn [Z.eqb].
    destruct (grown_undo a [] k [] tab pg oldsz) as (k' & l' & Ed & Hu); try done; try lia.
    { intros q Hq. by apply not_elem_of_nil in Hq. }
    rewrite (sr_bind_run _ _ _ _ _ Ed). exists false, k', l', tab. split; [done|]. right. split; [done|]. split; [done|].
    pose proof (grown_count a [] k tab pg Hnd Ha Hg) as Hc. cbn [length] in Hc. zlia.
  - destruct (take_page k p l pgdir tab Hv) as (k1 & E1 & Hp0 & Hp & Hpl & Hpd & Hpt & Hvz & Hez & Hzz & Hmz).
    rewrite (sr_bind_run _ _ _ _ _ (kalloc_run k p k1 E1)).
    destruct (Z.eqb_spec p 0) as [?|_]; [done|]. unfold set_mem at 1, sr_modify at 1. erewrite sr_bind_run by done.
    set (kz := mkKmem _ _ _) in *. destruct (page_phys p Hp) as (_ & Hr & Hm & _). unfold PHYSTOP in Hr.
    destruct (mappages_ok 0 kz l pgdir tab a (V2P p) (Z.lor PTE_W PTE_U)) as (r & k2 & l2 & tab2 & E2 & Hv2 & Hg2 & Ho2 & Hr2);
      [done | lia | done | lia | lia | done | lia | done | |].
    { intros i Hi. replace i with 0 by lia. rewrite Z.mul_0_l, Z.add_0_r, Hez.
      rewrite (gw_entry _ _ _ _ _ _ Hg) by zlia. apply Hclear; lia. }
    change ((Z.of_nat 0 + 1) * 4096) with PGSIZE in E2. rewrite (sr_bind_run _ _ _ _ _ E2).
    assert (tried a k p l tab pg kz k2 l2 tab2) as Htr.
    { split; try done. intros va Hva Hne. apply Ho2; [done | zlia]. }
    assert (a mod 4096 = 0 /\ a0 <= a < top) as Har by lia.
    destruct Hr2 as (j & Hj & Hm2 & Hu2 & Hr2). destruct Hr2 as [(-> & ->)|(-> & Hj2 & ->)]; cbn [Z.ltb Z.compare].
    + assert (entry (k_mem k2) tab2 a = refers p 7) as Ea.
      { specialize (Hm2 0 ltac:(lia)). rewrite Z.mul_0_l, !Z.add_0_r in Hm2. rewrite Hm2. by apply mapped_user. }
      pose proof (grown_step a k p l tab pg kz k2 l2 tab2 Har Htr Ea Hzz) as Hg'.
      rewrite (u32_small (a + PGSIZE)) by (unfold PGSIZE; lia). unfold PGSIZE.
      apply (IH (a + 4096) k2 l2 tab2 (<[a := Some p]> pg)); try done; zlia.
    + assert (entry (k_mem k2) tab2 a = entry (k_mem kz) tab a) as Ea.
      { specialize (Hu2 0 ltac:(lia)). by rewrite Z.mul_0_l, !Z.add_0_r in Hu2. }
      pose proof (grown_keep a k p l tab pg kz k2 [] tab2 Har Htr Ea) as Hg'.
      destruct (tried_tables a k p l tab pg kz k2 [] tab2 Htr p Hpl Hpt) as [T1 T2].
      destruct (grown_undo a [p] k2 [] tab2 pg oldsz) as (k3 & l3 & Ed & Hu3); try done; try lia.
      { intros q Hq. apply list_elem_of_singleton in Hq as ->. split; [apply not_elem_of_nil|]. intros b Eb.
        destruct (decide (a0 <= b < a /\ b mod 4096 = 0)) as [[Hb Hbal]|Hb]; [|by rewrite (gw_rest _ _ _ _ _ _ Hg) in Eb].
        by destruct (tried_page a k p l tab pg kz k2 [] tab2 Har Htr b p Hb Hbal Eb) as (_ & ? & _). }
      rewrite (sr_bind_run _ _ _ _ _ Ed).
      destruct (undone_free p tab2 k3 l3 Hp Hpd T2) as (k4 & E4 & Hu4); [|done|].
      { destruct (gw_used _ _ _ _ _ _ Hg) as (u & -> & _). apply elem_of_app. right. apply list_elem_of_here. }
      rewrite (sr_bind_run _ _ _ _ _ E4). exists false, k4, (p :: l3), tab2. split; [done|]. right. split; [done|]. split; [done|].
      pose proof (grown_count a [p] k2 tab2 pg Hnd Ha Hg') as Hc. cbn [length] in Hc. zlia.
Qed.

End Grow.

(** [mappages] maps exactly the pages it is asked to.  On a well-formed
    directory whose pages from [va] on are unmapped it terminates without the
    remap panic, keeps the directory well formed and the free list exact (tables
    are taken from the front of it), changes no entry outside the range and no
    byte outside the directory's own pages.  It returns 0 with page [i] of the
    range mapped to [pa + i * 4096] with the given permissions, or -1 exactly
    when a page table was needed and no free page was left, with a prefix of the
    range mapped and the rest as before. *)
Lemma mappages_correct n k l pgdir tab va pa perm :
  vm k l pgdir tab -> 0 <= va -> va mod 4096 = 0 -> va + (Z.of_nat n + 1) * 4096 <= 2 ^ 32 ->
  0 <= pa -> pa mod 4096 = 0 -> pa + (Z.of_nat n + 1) * 4096 <= 2 ^ 32 -> 0 <= perm < 4096 ->
  (forall i, 0 <= i <= Z.of_nat n -> entry (k_mem k) tab (va + i * 4096) mod 2 = 0) ->
  exists r k' l' tab', mappages pgdir va ((Z.of_nat n + 1) * 4096) pa perm k = Ok (r, k') /\
    vm k' l' pgdir tab' /\ grows pgdir k l tab k' l' tab' /\
    (forall va', 0 <= va' < 2 ^ 32 -> ~ (va <= va' < va + (Z.of_nat n + 1) * 4096) ->
       entry (k_mem k') tab' va' = entry (k_mem k) tab va') /\
    (exists j, 0 <= j <= Z.of_nat n + 1 /\
       (forall i, 0 <= i < j -> entry (k_mem k') tab' (va + i * 4096) = Z.lor (Z.lor (pa + i * 4096) perm) PTE_P) /\
       (forall i, j <= i <= Z.of_nat n -> entry (k_mem k') tab' (va + i * 4096) = entry (k_mem k) tab (va + i * 4096)) /\
       (r = 0 /\ j = Z.of_nat n + 1 \/ r = -1 /\ j <= Z.of_nat n /\ l' = [])).
Proof. exact (mappages_ok n k l pgdir tab va pa perm). Qed.

End Tables.

(** ** An instance *)

(** The kernel ends below 0x80400000, where the directory is; three pages above
    it are free, the rest of the memory is zero. *)
Definition demo_kend : Z := 0x803ff000.
Definition demo_dir : Z := 0x80400000.

Lemma demo_page v : v ∈ [0x80400000; 0x80401000; 0x80402000; 0x80403000] -> page_ok demo_kend v.
Proof.
  intros Hv. repeat (apply elem_of_cons in Hv as [->|Hv]; [split_and!; try reflexivity; vm_compute; congruence|]).
  by apply not_elem_of_nil in Hv.
Qed.

Lemma demo_vm : exists k, vm demo_kend k [0x80403000; 0x80402000; 0x80401000] demo_dir (fun _ => None).
Proof.
  destruct (freerange_loop_ok demo_kend 4 kmem0 [] 0x80401000 0x80404000 (kmem0_free _)) as (k & _ & F & _ & O).
  - vm_compute. reflexivity.
  - change (pages_of 0x80401000 0x80404000) with [0x80401000; 0x80402000; 0x80403000].
    repeat constructor; try reflexivity; vm_compute; congruence.
  - intros v _. apply not_elem_of_nil.
  - exists k. split.
    + exact F.
    + split; [apply demo_page, list_elem_of_here | | done | done].
      intros i Hi _. rewrite land_1. unfold load32, demo_dir in *.
      rewrite !O by lia. reflexivity.
    + split; [|done]. apply (bool_decide_unpack _). vm_compute. exact I.
Qed.

