(* ===== verification/VmSpace.v ===== *)
(** User address spaces: what the routines of [xv6/base/vm.c] do to a page
    directory seen as a map from user addresses to bytes.

    [space] is a directory whose pages below [top] are mapped to pages of their
    own and nothing above, up to the kernel; [built] is a space made out of
    free pages of an earlier state, with the bytes [u].  The lemmas are one
    step of [exec] each: [setupkvm], [allocuvm], [loaduvm], [clearpteu],
    [copyout] and [freevm]. *)

From S2P Require Import Prelude CString Kalloc Vm VmFacts.

(** The byte at user address [va], where [pg] maps the pages. *)
Definition ubyte (m : mem) (pg : Z -> option Z) (va : Z) : Z :=
  match pg (va / 4096 * 4096) with Some p => m (p + va mod 4096) | None => 0 end.

(** The flags of a page: present, writable and, but for the guard, user. *)
Definition uflags (guard : option Z) (a : Z) : Z := if decide (guard = Some a) then 3 else 7.

(** The pages of a directory. *)
Definition owned (pgdir : Z) (tab pg : Z -> option Z) (q : Z) : Prop :=
  q = pgdir \/ (exists i, 0 <= i < 1024 /\ tab i = Some q) \/ exists a, pg a = Some q.

Section Space.
Context (kend : Z).
Hypothesis Hkend : KERNBASE < kend.
Abbreviation page_ok := (page_ok kend).
Abbreviation free_pages := (free_pages kend).
Abbreviation vm := (vm kend).
Abbreviation tables := (tables kend).

Record space (k : kmem) (l : list Z) (pgdir : Z) (tab pg : Z -> option Z) (guard : option Z) (top : Z) : Prop := {
  sp_vm : vm k l pgdir tab;
  sp_top : 0 <= top <= KERNBASE /\ top mod 4096 = 0;
  sp_map : forall a, 0 <= a < top -> a mod 4096 = 0 -> exists p, pg a = Some p /\ entry (k_mem k) tab a = refers p (uflags guard a);
  sp_none : forall a, ~ (0 <= a < top /\ a mod 4096 = 0) -> pg a = None;
  sp_clear : forall a, top <= a < KERNBASE -> a mod 4096 = 0 -> entry (k_mem k) tab a mod 2 = 0;
  sp_priv : private kend l pgdir tab pg 0 KERNBASE
}.

(** A space made out of the free pages [L0] of [k0]: they are free still or of
    the directory, and memory outside them is as it was. *)
Record built (k0 : kmem) (L0 : list Z) (k : kmem) (l : list Z) (pgdir : Z) (tab pg : Z -> option Z) (guard : option Z) (top : Z) (u : mem) : Prop := {
  bu_space : space k l pgdir tab pg guard top;
  bu_pages : forall q, q ∈ L0 <-> q ∈ l \/ owned pgdir tab pg q;
  bu_mem : forall x, (forall q, q ∈ L0 -> ~ (q <= x < q + 4096)) -> k_mem k x = k_mem k0 x;
  bu_user : forall va, 0 <= va < top -> ubyte (k_mem k) pg va = u va
}.

Lemma uflags_range guard a : (uflags guard a = 3 \/ uflags guard a = 7) /\ 0 <= uflags guard a < 4096 /\ uflags guard a mod 2 = 1.
Proof. unfold uflags. case_decide; (split; [auto | split; [lia | done]]). Qed.

Lemma space_page k l pgdir tab pg guard top a p :
  space k l pgdir tab pg guard top -> pg a = Some p ->
  0 <= a < top /\ a mod 4096 = 0 /\ page_ok p /\ p ∉ l /\ p <> pgdir /\ forall i t, 0 <= i < 1024 -> tab i = Some t -> t <> p.
Proof.
  intros Hs Ep. destruct (decide (0 <= a < top /\ a mod 4096 = 0)) as [[H1 H2]|Hn]; [|by rewrite (sp_none _ _ _ _ _ _ _ Hs) in Ep].
  pose proof (sp_top _ _ _ _ _ _ _ Hs). split; [done|]. split; [done|]. apply (pr_page _ _ _ _ _ _ _ (sp_priv _ _ _ _ _ _ _ Hs) a p); [lia | done..].
Qed.

Lemma owned_page k l pgdir tab pg guard top q : space k l pgdir tab pg guard top -> owned pgdir tab pg q -> page_ok q /\ q ∉ l.
Proof.
  intros Hs Ho. destruct (sp_vm _ _ _ _ _ _ _ Hs) as [_ Ht [U1 U2]]. destruct Ho as [->|[(i & Hi & E)|(a & E)]].
  - split; [apply Ht | done].
  - split; [by apply (tb_some _ _ _ _ Ht i q) | by apply (U2 i q)].
  - by destruct (space_page _ _ _ _ _ _ _ _ _ Hs E) as (_ & _ & ? & ? & _).
Qed.

(** A byte of the tables is in an owned page. *)
Lemma table_byte_owned pgdir tab pg x : table_byte pgdir tab x -> exists q, owned pgdir tab pg q /\ q <= x < q + 4096.
Proof.
  intros [Hx|(i & t & Hi & Et & Hx)].
  - exists pgdir. split; [by left | done].
  - exists t. split; [right; left; eauto | done].
Qed.

(** A space only depends on its own pages, and its mapping on the tables. *)
Lemma space_tables k l k' l' pgdir tab pg guard top :
  space k l pgdir tab pg guard top -> free_pages k' l' -> (forall q, owned pgdir tab pg q -> q ∉ l') ->
  (forall x, table_byte pgdir tab x -> k_mem k' x = k_mem k x) -> space k' l' pgdir tab pg guard top.
Proof.
  intros Hs Hf Hl Htb. pose proof (sp_vm _ _ _ _ _ _ _ Hs) as [_ Ht _].
  assert (forall va, entry (k_mem k') tab va = entry (k_mem k) tab va) as He by (intros; by apply (entry_ext kend _ _ pgdir)).
  constructor.
  - split; [done | by eapply tables_ext|]. split; [apply Hl; by left|]. intros i t Hi Et. apply Hl. right; left; eauto.
  - apply Hs.
  - intros a Ha Hal. rewrite He. by apply Hs.
  - apply Hs.
  - intros a Ha Hal. rewrite He. by apply Hs.
  - destruct (sp_priv _ _ _ _ _ _ _ Hs) as [P1 P2]. split; [|done]. intros a p Ha Hal Ep.
    destruct (P1 a p Ha Hal Ep) as (Q1 & _ & Q3 & Q4). split; [done|]. split; [|done]. apply Hl. right; right; eauto.
Qed.

Lemma space_ext k l k' l' pgdir tab pg guard top :
  space k l pgdir tab pg guard top -> free_pages k' l' -> (forall q, owned pgdir tab pg q -> q ∉ l') ->
  (forall q x, owned pgdir tab pg q -> q <= x < q + 4096 -> k_mem k' x = k_mem k x) ->
  space k' l' pgdir tab pg guard top /\ forall va, 0 <= va < top -> ubyte (k_mem k') pg va = ubyte (k_mem k) pg va.
Proof.
  intros Hs Hf Hl Hx. split.
  - apply (space_tables k l); try done. intros x (q & Ho & Hq)%(table_byte_owned _ _ pg). by apply (Hx q).
  - intros va Hva. unfold ubyte. destruct (pg _) as [p|] eqn:Ep; [|done]. apply (Hx p); [right; right; eauto | zlia].
Qed.

Lemma built_vm k0 L0 k l pgdir tab pg guard top u : built k0 L0 k l pgdir tab pg guard top u -> vm k l pgdir tab.
Proof. intros Hb. apply (sp_vm _ _ _ _ _ _ _ (bu_space _ _ _ _ _ _ _ _ _ _ Hb)). Qed.

(** ** Freeing a directory *)

(** The directory entries from [i] on refer to the tables [tab], none of them free. *)
Record dir_from (m : mem) (l : list Z) (pgdir : Z) (tab : Z -> option Z) (i : Z) : Prop := {
  df_dir : page_ok pgdir /\ pgdir ∉ l;
  df_none : forall j, i <= j < 1024 -> tab j = None -> Z.land (load32 m (pgdir + 4 * j)) PTE_P = 0;
  df_some : forall j t, i <= j < 1024 -> tab j = Some t -> page_ok t /\ t <> pgdir /\ t ∉ l /\ load32 m (pgdir + 4 * j) = refers t 7;
  df_inj : forall j j' t, i <= j < 1024 -> i <= j' < 1024 -> tab j = Some t -> tab j' = Some t -> j = j'
}.

Lemma freevm_tables_ok cnt k l pgdir tab i :
  0 <= i -> i + Z.of_nat cnt = 1024 -> free_pages k l -> dir_from (k_mem k) l pgdir tab i ->
  exists k' l', freevm_tables kend cnt pgdir i k = Ok (tt, k') /\ free_pages k' l' /\
    (forall q, q ∈ l' <-> q ∈ l \/ exists j, i <= j < 1024 /\ tab j = Some q) /\
    (forall x, (forall j t, i <= j < 1024 -> tab j = Some t -> ~ (t <= x < t + 4096)) -> k_mem k' x = k_mem k x).
Proof.
  revert k l i. induction cnt as [|c IH]; intros k l i Hi Hc Hf Hd; cbn [freevm_tables].
  { exists k, l. split; [done|]. split; [done|]. split; [|done]. intros q. split; [by left | intros [?|(j & Hj & _)]; [done | lia]]. }
  unfold load, sr_gets. erewrite sr_bind_run by done. destruct (df_dir _ _ _ _ _ Hd) as [Hpd Hpl].
  destruct (tab i) as [t|] eqn:Et.
  - destruct (df_some _ _ _ _ _ Hd i t ltac:(lia) Et) as (Ht & Htd & Htl & El). rewrite El, land_1.
    destruct (refers_parts kend Hkend t 7 Ht ltac:(lia)) as (Ead & _ & _). destruct (page_phys kend Hkend t Ht) as (_ & _ & Hm & Epv).
    destruct (Z.eqb_spec (refers t 7 mod 2) 0) as [E2|_]; [unfold refers in E2; zlia|]. cbn [negb]. rewrite Ead, Epv.
    destruct (kfree_ok kend k l t Hf Ht Htl) as (k1 & E1 & F1 & _ & O1 & _). change PGSIZE with 4096 in O1.
    erewrite sr_bind_run by (unfold kfree_m; by rewrite E1).
    destruct (IH k1 (t :: l) (i + 1)) as (k' & l' & E & F & Hin & Hm'); [lia | lia | done | |].
    { assert (forall j, 0 <= j < 1024 -> load32 (k_mem k1) (pgdir + 4 * j) = load32 (k_mem k) (pgdir + 4 * j)) as Hld.
      { intros j Hj. apply load32_ext. intros x Hx. apply O1. destruct (pages_disjoint kend pgdir t Hpd Ht (not_eq_sym Htd)); lia. }
      constructor.
      - split; [done|]. intros H. apply elem_of_cons in H as [->|H]; done.
      - intros j Hj Ej. rewrite Hld by lia. apply Hd; [lia | done].
      - intros j u Hj Ej. rewrite Hld by lia. destruct (df_some _ _ _ _ _ Hd j u ltac:(lia) Ej) as (H1 & H2 & H3 & H4). split_and!; try done.
        intros H. apply elem_of_cons in H as [->|H]; [|done]. assert (i = j) by (apply (df_inj _ _ _ _ _ Hd i j t); (done || lia)). lia.
      - intros j j' u Hj Hj'. apply Hd; lia. }
    exists k', l'. split; [done|]. split; [done|]. split.
    + intros q. rewrite Hin, elem_of_cons. split.
      * intros [[->|Hq]|(j & Hj & Ej)]; [right; exists i; split; [lia | done] | by left | right; exists j; split; [lia | done]].
      * intros [Hq|(j & Hj & Ej)]; [by left; right|]. destruct (decide (j = i)) as [->|]; [left; left; congruence | right; exists j; split; [lia | done]].
    + intros x Hx. rewrite Hm', O1; [done | apply (Hx i t); [lia | done] |]. intros j u Hj. apply Hx. lia.
  - rewrite (df_none _ _ _ _ _ Hd i ltac:(lia) Et). cbn [Z.eqb negb]. erewrite sr_bind_run by done.
    destruct (IH k l (i + 1)) as (k' & l' & E & F & Hin & Hm'); [lia | lia | done | |].
    { destruct Hd as [D1 D2 D3 D4]. constructor; [done | | |]; intros; [apply D2 | apply D3 | eapply D4]; try done; lia. }
    exists k', l'. split; [done|]. split; [done|]. split.
    + intros q. rewrite Hin. split; (intros [Hq|(j & Hj & Ej)]; [by left | right; exists j; split; [|done]]); [lia|].
      destruct (decide (j = i)) as [->|]; [congruence | lia].
    + intros x Hx. apply Hm'. intros j u Hj. apply Hx. lia.
Qed.

(** [freevm] gives back every page of the directory, and changes no other. *)
Lemma freevm_ok k l pgdir tab pg guard top :
  space k l pgdir tab pg guard top ->
  exists k' l', freevm kend pgdir k = Ok (tt, k') /\ free_pages k' l' /\
    (forall q, q ∈ l' <-> q ∈ l \/ owned pgdir tab pg q) /\
    (forall x, (forall q, owned pgdir tab pg q -> ~ (q <= x < q + 4096)) -> k_mem k' x = k_mem k x).
Proof.
  intros Hs. pose proof (sp_vm _ _ _ _ _ _ _ Hs) as Hv. pose proof (sp_top _ _ _ _ _ _ _ Hs) as Htop. unfold KERNBASE in Htop.
  assert (page_ok pgdir /\ pgdir <> 0) as [Hpd Hp0] by (pose proof (tb_dir _ _ _ _ (vm_tabs _ _ _ _ _ Hv)) as H; split; [done|]; destruct H as (_ & _ & _ & ? & _); lia).
  unfold freevm. rewrite (proj2 (Z.eqb_neq _ _) Hp0). unfold deallocuvm, KERNBASE. cbn [Z.leb Z.compare].
  change (PGROUNDUP 0) with 0.
  destruct (deallocuvm_loop_ok kend Hkend pgdir tab pg 0x80000000 (Z.to_nat ((0x80000000 - 0) / PGSIZE + 1)) k l 0) as (k1 & l1 & E1 & D); [done | lia | done | lia | | apply Hs | unfold PGSIZE; zlia |].
  { intros a Ha Hal. destruct (decide (a < top)) as [Hlt|Hge].
    - destruct (sp_map _ _ _ _ _ _ _ Hs a ltac:(lia) Hal) as (p & -> & E). exists (uflags guard a). destruct (uflags_range guard a) as (_ & H1 & H2). by split.
    - rewrite (sp_none _ _ _ _ _ _ _ Hs) by lia. apply Hs; [unfold KERNBASE; lia | done]. }
  rewrite (sr_bind_run _ _ _ (s32 0) k1) by (by rewrite (sr_bind_run _ _ _ _ _ E1)).
  destruct D as (Hv1 & _ & _ & (freed & El & Hfr) & Hm1). pose proof Hv1 as [Hf1 Ht1 [U1 U2]].
  destruct (freevm_tables_ok (Z.to_nat NPDENTRIES) k1 l1 pgdir tab 0) as (k2 & l2 & E2 & Hf2 & Hin2 & Hm2); [lia | done | done | |].
  { constructor; [done | | | apply Ht1].
    - apply Ht1.
    - intros j t Hj Ej. destruct (tb_some _ _ _ _ Ht1 j t Hj Ej) as (H1 & H2 & H3). split_and!; try done. by apply (U2 j t). }
  rewrite (sr_bind_run _ _ _ _ _ E2).
  assert (pgdir ∉ l2) as Hpl2.
  { intros H. apply Hin2 in H as [H|(j & Hj & Ej)]; [done|]. by destruct (tb_some _ _ _ _ Ht1 j pgdir Hj Ej) as (_ & ? & _). }
  destruct (kfree_ok kend k2 l2 pgdir Hf2 Hpd Hpl2) as (k3 & E3 & F3 & _ & O3 & _). change PGSIZE with 4096 in O3.
  exists k3, (pgdir :: l2). split; [unfold kfree_m; by rewrite E3|]. split; [done|]. split.
  - intros q. rewrite elem_of_cons, Hin2, El, elem_of_app, Hfr. unfold owned. split.
    + intros [->|[[(b & _ & _ & Eb)|Hq]|(j & Hj & Ej)]]; [by right; left | right; right; right; eauto | by left | right; right; left; eauto].
    + intros [Hq|[->|[(j & Hj & Ej)|(a & Ea)]]]; [auto | auto | right; right; eauto |]. right. left. left. exists a.
      destruct (space_page _ _ _ _ _ _ _ _ _ Hs Ea) as (H1 & H2 & _). split; [lia | done].
  - intros x Hx. rewrite O3 by (apply Hx; by left). rewrite Hm2 by (intros j t Hj Ej; apply Hx; right; left; eauto).
    apply Hm1.
    + intros (q & Ho & Hq)%(table_byte_owned _ _ pg). by apply (Hx q).
    + intros b p Hb Hbal Eb. apply Hx. right; right; eauto.
Qed.

(** ** The kernel's part of a directory *)

(** More tables for the same pages. *)
Lemma built_grows k0 L0 k l pgdir tab pg guard top u k' l' tab' :
  built k0 L0 k l pgdir tab pg guard top u -> vm k' l' pgdir tab' -> grows pgdir k l tab k' l' tab' ->
  (forall va, 0 <= va < KERNBASE -> entry (k_mem k') tab' va = entry (k_mem k) tab va) ->
  built k0 L0 k' l' pgdir tab' pg guard top u.
Proof.
  intros [Hs Hp Hm Hu] Hv [(new & El & N1 & N2) T M] He. pose proof (sp_top _ _ _ _ _ _ _ Hs) as Htop.
  assert (forall a p, pg a = Some p -> p ∉ l' /\ forall i t, 0 <= i < 1024 -> tab' i = Some t -> t <> p) as Hpg.
  { intros a p Ea. destruct (space_page _ _ _ _ _ _ _ _ _ Hs Ea) as (_ & _ & _ & Hl & _ & Ht). rewrite El in Hl. split.
    - intros H. apply Hl, elem_of_app. by right.
    - intros i t Hi Et ->. apply N1 in Et as [Et|Et]; [by apply (Ht i p) | apply Hl, elem_of_app; by left | done]. }
  constructor.
  - constructor; [done | done | | apply Hs | |].
    + intros a Ha Hal. rewrite He by lia. by apply Hs.
    + intros a Ha Hal. rewrite He by lia. by apply Hs.
    + destruct (sp_priv _ _ _ _ _ _ _ Hs) as [P1 P2]. split; [|done]. intros a p Ha Hal Ea.
      destruct (P1 a p Ha Hal Ea) as (Q1 & _ & Q3 & _), (Hpg a p Ea) as (Q2 & Q4). done.
  - intros q. rewrite Hp, El, elem_of_app. unfold owned. split.
    + intros [[Hq|Hq]|[->|[(i & Hi & Et)|Hq]]]; [|by left | by right; left | right; right; left; eauto | by right; right; right].
      right; right; left. by apply N2.
    + intros [Hq|[->|[(i & Hi & Et)|Hq]]]; [auto | auto | | by right; right; right].
      apply N1 in Et as [Et|Et]; [right; right; left; eauto | auto | done].
  - intros x Hx. rewrite M; [by apply Hm|]. intros (q & Ho & Hq)%(table_byte_owned _ _ pg). apply (Hx q); [|done]. apply Hp.
    destruct Ho as [->|[(i & Hi & Et)|Ho]]; [by right; left | | by right; right; right].
    apply N1 in Et as [Et|Et]; [right; right; left; eauto | left; rewrite El; apply elem_of_app; by left | done].
  - intros va Hva. rewrite <-Hu by done. unfold ubyte. destruct (pg _) as [p|] eqn:Ep; [|done]. apply M.
    destruct (space_page _ _ _ _ _ _ _ _ _ Hs Ep) as (_ & _ & Hpok & _ & Hpd & _), (Hpg _ p Ep) as [_ Ht].
    apply (page_not_table kend _ _ _ p (p + va mod 4096) (vm_tabs _ _ _ _ _ Hv) Hpok Hpd Ht). zlia.
Qed.

(** Entries of [kmap]: whole pages, in order of their addresses. *)
Fixpoint kmap_ok (lim : Z) (es : list kmap_entry) : Prop :=
  match es with
  | [] => True
  | e :: es' =>
      let size := u32 (phys_end e - phys_start e) in
      KERNBASE <= lim <= virt e /\ virt e mod 4096 = 0 /\ phys_start e mod 4096 = 0 /\ 0 <= phys_start e /\
      size mod 4096 = 0 /\ 0 < size /\ virt e + size <= 2 ^ 32 /\ phys_start e + size <= 2 ^ 32 /\ 0 <= perm e < 4096 /\
      kmap_ok (virt e + size) es'
  end.

Lemma setupkvm_loop_ok es lim k0 L0 k l pgdir tab :
  let none := fun _ : Z => @None Z in
  kmap_ok lim es -> built k0 L0 k l pgdir tab none None 0 (fun _ => 0) ->
  (forall a, lim <= a < 2 ^ 32 -> a mod 4096 = 0 -> entry (k_mem k) tab a mod 2 = 0) ->
  exists ok k' l' tab', setupkvm_loop es pgdir k = Ok (ok, k') /\ built k0 L0 k' l' pgdir tab' none None 0 (fun _ => 0) /\
    (ok = true \/ ok = false /\ l' = []).
Proof.
  intros none. revert lim k l tab. induction es as [|e es IH]; intros lim k l tab Hok Hb Hclr; cbn [setupkvm_loop].
  { exists true, k, l, tab. split; [done|]. split; [done | by left]. }
  cbn [kmap_ok] in Hok. set (size := u32 (phys_end e - phys_start e)) in *. destruct Hok as (O1 & O2 & O3 & O4 & O5 & O6 & O7 & O8 & O9 & O10).
  unfold KERNBASE in O1. assert (exists n, (Z.of_nat n + 1) * 4096 = size) as (n & En) by (exists (Z.to_nat (size / 4096 - 1)); zlia).
  destruct (mappages_ok kend Hkend n k l pgdir tab (virt e) (phys_start e) (perm e)) as (r & k1 & l1 & tab1 & E1 & Hv1 & G1 & He1 & R1);
    [exact (built_vm _ _ _ _ _ _ _ _ _ _ Hb) | lia | done | lia | lia | done | lia | done | intros i Hi; apply Hclr; zlia |].
  rewrite En in E1, He1. rewrite (sr_bind_run _ _ _ _ _ E1).
  assert (built k0 L0 k1 l1 pgdir tab1 none None 0 (fun _ => 0)) as Hb1.
  { apply (built_grows _ _ k l _ tab); try done. intros va Hva. unfold KERNBASE in Hva. apply He1; lia. }
  destruct R1 as (j & Hj & _ & _ & [(-> & _)|(-> & _ & ->)]); cbn [Z.ltb Z.compare].
  - apply (IH (virt e + size) k1 l1 tab1); [done | done |]. intros a Ha Hal. rewrite He1 by lia. apply Hclr; [lia | done].
  - exists false, k1, [], tab1. split; [done|]. split; [done | by right].
Qed.

(** An empty directory in the free page [p]. *)
Lemma empty_dir k l p :
  free_pages k (p :: l) ->
  exists k1, kalloc k = (p, k1) /\ p <> 0 /\
    let kz := mkKmem (use_lock k1) (freelist k1) (memset (k_mem k1) p 0 PGSIZE) in
    built k (p :: l) kz l p (fun _ => None) (fun _ => None) None 0 (fun _ => 0) /\ (forall a, entry (k_mem kz) (fun _ => None) a mod 2 = 0).
Proof.
  intros Hf. destruct (kalloc_ok kend k (p :: l) Hf) as (k1 & E1 & F1 & M1 & L1).
  pose proof (fp_pages _ _ _ Hf) as Hps. apply Forall_cons in Hps as [Hp Hps].
  pose proof (fp_nodup _ _ _ Hf) as Hn. apply list.NoDup_cons in Hn as [Hpl _].
  exists k1. split; [done|]. split; [destruct Hp as (_ & _ & _ & ? & _); lia|]. cbn [k_mem]. set (m := memset _ _ _ _).
  assert (forall x, m x = if within x p 4096 then 0 else k_mem k x) as Hm by (intros x; unfold m; rewrite memset_at, M1; done).
  split; [|done]. constructor.
  - constructor; try done; cbn [k_mem].
    + split; cbn [k_mem].
      * apply (free_pages_store kend k1 l); [done | apply memset_ok, F1|]. intros v x Hv Hx. change (memset (k_mem k1) p 0 PGSIZE x) with (m x).
        rewrite Hm, M1. case_within; [|done]. exfalso. rewrite Forall_forall in Hps. unfold PGSIZE in *.
        destruct (pages_disjoint kend v p (Hps v Hv) Hp); [intros ->; done | lia | lia].
      * constructor; try done. intros i Hi _. rewrite land_1. unfold load32. rewrite !Hm. case_within; done || lia.
      * done.
    + intros a Ha. unfold KERNBASE in *. lia.
  - intros q. rewrite elem_of_cons. unfold owned. split; [intros [->|Hq]; auto | intros [Hq|[->|[(i & _ & [=])|(a & [=])]]]; auto].
  - intros x Hx. cbn [k_mem]. rewrite Hm. case_within; [|done]. exfalso. by apply (Hx p); [apply list_elem_of_here|].
  - intros va Hva. lia.
Qed.

(** Directories have at most 1024 tables. *)
Lemma built_count k0 L0 k l pgdir tab pg guard top u :
  NoDup L0 -> built k0 L0 k l pgdir tab pg guard top u -> Z.of_nat (length L0) <= Z.of_nat (length l) + 1025 + top / 4096.
Proof.
  intros Hn [Hs Hp _ _]. pose proof (sp_top _ _ _ _ _ _ _ Hs) as Htop.
  assert (L0 ⊆+ l ++ pgdir :: omap tab (seqZ 0 1024) ++ omap (fun i => pg (4096 * i)) (seqZ 0 (top / 4096))) as Hsub.
  { apply NoDup_submseteq; [done|]. intros q Hq. apply Hp in Hq. rewrite !elem_of_app, elem_of_cons, !elem_of_app, !list_elem_of_omap.
    destruct Hq as [Hq|[->|[(i & Hi & Et)|(a & Ea)]]]; [by left | by right; left | right; right; left; exists i; by rewrite elem_of_seqZ |].
    destruct (space_page _ _ _ _ _ _ _ _ _ Hs Ea) as (H1 & H2 & _). right; right; right. exists (a / 4096). rewrite elem_of_seqZ.
    split; [zlia|]. by replace (4096 * (a / 4096)) with a by zlia. }
  apply submseteq_length in Hsub. rewrite !length_app in Hsub. cbn [length] in Hsub. rewrite !length_app in Hsub.
  pose proof (omap_length_le tab (seqZ 0 1024)) as H1. pose proof (omap_length_le (fun i => pg (4096 * i)) (seqZ 0 (top / 4096))) as H2.
  rewrite length_seqZ in H1, H2. assert (0 <= top / 4096) by zlia. lia.
Qed.

Section Kernel.
(** The kernel's data begins on a page between its text and the end of memory. *)
Context (data : Z).
Hypothesis Hdata : KERNLINK < data < KERNBASE + PHYSTOP.
Hypothesis Hdata_page : data mod 4096 = 0.

Lemma kmap_is_ok : kmap_ok KERNBASE (kmap data).
Proof.
  assert (V2P data = data - KERNBASE) as Ed by (unfold V2P, KERNLINK, EXTMEM, KERNBASE, PHYSTOP in *; rewrite u32_small; lia).
  unfold kmap, kmap_ok. cbn [virt phys_start phys_end perm]. change (V2P KERNLINK) with 0x100000. rewrite Ed.
  unfold KERNLINK, EXTMEM, DEVSPACE, KERNBASE, PHYSTOP in *.
  rewrite (u32_small (0x100000 - 0)), (u32_small (data - 0x80000000 - 0x100000)), (u32_small (0xE000000 - (data - 0x80000000))) by lia.
  change (u32 (0 - 0xFE000000)) with 0x2000000. unfold PTE_W. zlia.
Qed.

(** [setupkvm] makes a directory without user pages, or changes nothing but the
    order of the free pages: that happens only with 1024 of them or fewer. *)
Lemma setupkvm_ok k0 L0 :
  free_pages k0 L0 ->
  (exists k' l', setupkvm kend data k0 = Ok (0, k') /\ free_pages k' l' /\ (forall q, q ∈ l' <-> q ∈ L0) /\
     (forall x, (forall q, q ∈ L0 -> ~ (q <= x < q + 4096)) -> k_mem k' x = k_mem k0 x) /\ (length L0 <= 1025)%nat) \/
  (exists pgdir k' l' tab, setupkvm kend data k0 = Ok (pgdir, k') /\ pgdir <> 0 /\
     built k0 L0 k' l' pgdir tab (fun _ => None) None 0 (fun _ => 0)).
Proof.
  intros Hf. unfold setupkvm. destruct L0 as [|p l].
  { pose proof (kalloc_ok kend k0 [] Hf) as E. rewrite (sr_bind_run _ _ _ _ _ (kalloc_run k0 0 k0 E)). cbn [Z.eqb]. left.
    exists k0, []. split; [done|]. split; [done|]. split; [done|]. split; [done | cbn; lia]. }
  destruct (empty_dir k0 l p Hf) as (k1 & E1 & Hp0 & Hb & Hclr). set (kz := mkKmem _ _ _) in *.
  rewrite (sr_bind_run _ _ _ _ _ (kalloc_run k0 p k1 E1)). rewrite (proj2 (Z.eqb_neq _ _) Hp0).
  rewrite (sr_bind_run _ _ _ tt kz) by done. change (DEVSPACE <? P2V PHYSTOP) with false. cbv iota.
  destruct (setupkvm_loop_ok (kmap data) KERNBASE k0 (p :: l) kz l p (fun _ => None) kmap_is_ok Hb) as (ok & k2 & l2 & tab & E2 & Hb2 & Hok).
  { intros a _ _. apply Hclr. }
  rewrite (sr_bind_run _ _ _ _ _ E2). destruct Hok as [->|(-> & ->)].
  - right. exists p, k2, l2, tab. done.
  - left. destruct (freevm_ok k2 [] p tab _ _ _ (bu_space _ _ _ _ _ _ _ _ _ _ Hb2)) as (k3 & l3 & E3 & F3 & Hin & Hm).
    rewrite (sr_bind_run _ _ _ _ _ E3). exists k3, l3. split; [done|]. split; [done|]. split; [|split].
    + intros q. rewrite Hin. symmetry. apply Hb2.
    + intros x Hx. rewrite Hm; [by apply Hb2|]. intros q Ho. apply Hx. apply Hb2. by right.
    + pose proof (built_count _ _ _ _ _ _ _ _ _ _ (fp_nodup _ _ _ Hf) Hb2) as Hc. cbn [length] in Hc |- *. change (0 / 4096) with 0 in Hc. lia.
Qed.

End Kernel.

(** ** Growing a space *)

(** The pages of a space lie apart from the free ones. *)
Lemma page_not_free k l pgdir tab pg guard top q x p :
  space k l pgdir tab pg guard top -> owned pgdir tab pg q -> q <= x < q + 4096 -> p ∈ l -> ~ (p <= x < p + 4096).
Proof.
  intros Hs Ho Hx Hp Hx'. destruct (owned_page _ _ _ _ _ _ _ _ Hs Ho) as [Hq Hql].
  pose proof (fp_pages _ _ _ (vm_free _ _ _ _ _ (sp_vm _ _ _ _ _ _ _ Hs))) as Hl. rewrite Forall_forall in Hl.
  destruct (pages_disjoint kend q p Hq (Hl p Hp)); [intros ->; done | lia | lia].
Qed.

Section Grow.
Context (k0 : kmem) (L0 : list Z) (k : kmem) (l : list Z) (pgdir : Z) (tab pg : Z -> option Z) (top newsz : Z) (u : mem).
Hypothesis Hb : built k0 L0 k l pgdir tab pg None top u.

(** What stays of the space when tables and pages are taken from the free list. *)
Lemma old_page k' l' tab' a p :
  vm k' l' pgdir tab' -> (forall i t, 0 <= i < 1024 -> tab' i = Some t -> tab i = Some t \/ t ∈ l) -> (forall q, q ∈ l' -> q ∈ l) ->
  (forall x, ~ table_byte pgdir tab' x -> (forall p, p ∈ l -> ~ (p <= x < p + 4096)) -> k_mem k' x = k_mem k x) ->
  pg a = Some p -> page_ok p /\ p ∉ l' /\ p <> pgdir /\ (forall i t, 0 <= i < 1024 -> tab' i = Some t -> t <> p) /\
    forall x, p <= x < p + 4096 -> k_mem k' x = k_mem k x.
Proof.
  intros Hv Htab Hl Hm Ea. pose proof (bu_space _ _ _ _ _ _ _ _ _ _ Hb) as Hs.
  destruct (space_page _ _ _ _ _ _ _ _ _ Hs Ea) as (_ & _ & Hok & Hpl & Hpd & Hpt).
  assert (forall i t, 0 <= i < 1024 -> tab' i = Some t -> t <> p) as Ht'.
  { intros i t Hi Et ->. apply Htab in Et as [Et|Et]; [by apply (Hpt i p) | done | done]. }
  split; [done|]. split; [intros H; by apply Hpl, Hl|]. split; [done|]. split; [done|]. intros x Hx. apply Hm.
  - by apply (page_not_table kend _ _ _ p x (vm_tabs _ _ _ _ _ Hv) Hok Hpd Ht').
  - intros q Hq. apply (page_not_free _ _ _ _ _ _ _ p x q Hs); [right; right; eauto | done | done].
Qed.

Lemma built_undone k' l' tab' :
  top <= newsz + 4095 -> newsz < KERNBASE ->
  undone kend pgdir top newsz k l tab [] tab' k' l' -> built k0 L0 k' l' pgdir tab' pg None top u.
Proof.
  intros Hle Hmax (Hv & Ht & Hc & He & Hin & _ & Hm & Htab & Hl). pose proof (fun a p => old_page k' l' tab' a p Hv Htab Hl Hm) as Hold.
  destruct Hb as [Hs Hp Hm0 Hu]. pose proof (sp_top _ _ _ _ _ _ _ Hs) as Htop. unfold KERNBASE in *. constructor.
  - constructor; [done | done | | apply Hs | |].
    + intros a Ha Hal. rewrite He; [by apply Hs | lia | zlia].
    + intros a Ha Hal. destruct (decide (a < newsz)); [apply Hc; [lia | done]|]. rewrite He; [by apply Hs | unfold KERNBASE in *; lia | zlia].
    + split; [|apply (sp_priv _ _ _ _ _ _ _ Hs)]. intros a p Ha Hal Ea. destruct (Hold a p Ea) as (H1 & H2 & H3 & H4 & _). done.
  - intros q. rewrite Hp. unfold owned. split.
    + intros [Hq|[->|[(i & Hi & Et)|Hq]]]; [|by right; left | right; right; left; eauto | by right; right; right].
      apply Hin in Hq as [Hq|[Hq|Hq]]; [by left | by right; right; left | by apply not_elem_of_nil in Hq].
    + intros [Hq|[->|[(i & Hi & Et)|Hq]]]; [left; auto | by right; left | | by right; right; right].
      apply Htab in Et as [Et|Et]; [right; right; left; eauto | by left | done].
  - intros x Hx. rewrite Hm; [by apply Hm0 | | intros p Hpl; apply Hx, Hp; by left].
    intros (q & Ho & Hq)%(table_byte_owned _ _ (fun _ => None)). apply (Hx q); [|done]. apply Hp.
    destruct Ho as [->|[(i & Hi & Et)|(a & [=])]]; [by right; left|]. apply Htab in Et as [Et|Et]; [right; right; left; eauto | by left | done].
  - intros va Hva. rewrite <-Hu by done. unfold ubyte. destruct (pg _) as [p|] eqn:Ep; [|done]. apply (Hold _ p Ep). zlia.
Qed.

Lemma built_grown a' k' l' tab' pg' :
  top <= a' <= KERNBASE -> a' mod 4096 = 0 -> (forall va, top <= va -> u va = 0) ->
  grown kend pgdir top k l tab a' [] k' l' tab' pg' ->
  built k0 L0 k' l' pgdir tab' (fun a => if decide (a < top) then pg a else pg' a) None a' u.
Proof.
  intros Ha Hal Hu0 [Hv (new & El & U1 & U2 & U3) Ht Hmap Hrest He Hpr Hm].
  assert (forall i t, 0 <= i < 1024 -> tab' i = Some t -> tab i = Some t \/ t ∈ l) as Htab.
  { intros i t Hi Et. apply U1 in Et as [?|Et]; [by left | right; rewrite El; apply elem_of_app; by left | done]. }
  assert (forall q, q ∈ l' -> q ∈ l) as Hl by (intros q Hq; rewrite El; apply elem_of_app; by right).
  assert (forall b p, pg' b = Some p -> p ∈ l) as Hnew by (intros b p Eb; rewrite El; apply elem_of_app; left; eauto).
  pose proof (fun a p => old_page k' l' tab' a p Hv Htab Hl Hm) as Hold. destruct Hb as [Hs Hp Hm0 Hu].
  pose proof (sp_top _ _ _ _ _ _ _ Hs) as Htop. unfold KERNBASE in *.
  assert (forall a p, (if decide (a < top) then pg a else pg' a) = Some p <-> pg a = Some p \/ pg' a = Some p) as Hpg.
  { intros a p. case_decide.
    - rewrite (Hrest a) by lia. split; [by left | intros [?|?]; done].
    - rewrite (sp_none _ _ _ _ _ _ _ Hs a) by lia. split; [by right | intros [?|?]; done]. }
  constructor.
  - constructor; [done | unfold KERNBASE; lia | | | |].
    + intros a Ha' Hal'. case_decide.
      * destruct (sp_map _ _ _ _ _ _ _ Hs a ltac:(lia) Hal') as (p & Ep & En). exists p. split; [done|]. rewrite He by zlia. done.
      * destruct (Hmap a ltac:(lia) Hal') as (p & Ep & En & _). exists p. done.
    + intros a Ha'. case_decide; [apply Hs; lia | apply Hrest; lia].
    + intros a Ha' Hal'. rewrite He by (unfold KERNBASE in *; zlia). apply Hs; [unfold KERNBASE in *; lia | done].
    + split.
      * intros a p Ha' Hal' [Ep|Ep]%Hpg; [by destruct (Hold a p Ep) as (H1 & H2 & H3 & H4 & _)|].
        apply (pr_page _ _ _ _ _ _ _ Hpr a p); [|done..]. destruct (decide (top <= a < a')); [done|]. rewrite Hrest in Ep by lia. done.
      * intros a b p Ha' Hb' Hal' Hbl' Ea Eb. apply Hpg in Ea as [Ea|Ea], Eb as [Eb|Eb] .
        -- apply (pr_inj _ _ _ _ _ _ _ (sp_priv _ _ _ _ _ _ _ Hs) a b p); (done || unfold KERNBASE; lia).
        -- destruct (space_page _ _ _ _ _ _ _ _ _ Hs Ea) as (_ & _ & _ & H & _). destruct H. eauto.
        -- destruct (space_page _ _ _ _ _ _ _ _ _ Hs Eb) as (_ & _ & _ & H & _). destruct H. eauto.
        -- destruct (decide (top <= a < a')); [|rewrite Hrest in Ea by lia; done]. destruct (decide (top <= b < a')); [|rewrite Hrest in Eb by lia; done].
           by apply (pr_inj _ _ _ _ _ _ _ Hpr a b p).
  - intros q. rewrite Hp. unfold owned. setoid_rewrite Hpg. split.
    + intros [Hq|[->|[(i & Hi & Et)|(a & Ea)]]]; [|by right; left | right; right; left; eauto | right; right; right; eauto].
      rewrite El in Hq. apply elem_of_app in Hq as [Hq|Hq]; [|by left].
      apply U3 in Hq as [Hq|[(b & Eb)|Hq]]; [by right; right; left | right; right; right; eauto | by apply not_elem_of_nil in Hq].
    + intros [Hq|[->|[(i & Hi & Et)|(a & [Ea|Ea])]]]; [left; auto | by right; left | | right; right; right; eauto | left; eauto].
      apply Htab in Et as [Et|Et]; [right; right; left; eauto | by left | done].
  - intros x Hx. rewrite Hm; [by apply Hm0 | | intros p Hpl; apply Hx, Hp; by left].
    intros (q & Ho & Hq)%(table_byte_owned _ _ (fun _ => None)). apply (Hx q); [|done]. apply Hp.
    destruct Ho as [->|[(i & Hi & Et)|(a & [=])]]; [by right; left|]. apply Htab in Et as [Et|Et]; [right; right; left; eauto | by left | done].
  - intros va Hva. unfold ubyte. case_decide as Hd.
    + rewrite <-Hu by zlia. unfold ubyte. destruct (pg _) as [p|] eqn:Ep; [|done]. apply (Hold _ p Ep). zlia.
    + rewrite Hu0 by zlia. destruct (Hmap (va / 4096 * 4096) ltac:(zlia) ltac:(zlia)) as (p & -> & _ & Hz). apply Hz. zlia.
Qed.

End Grow.

(** [allocuvm] adds cleared pages, or none at all: only when few were free. *)
Lemma alloc_built k0 L0 k l pgdir tab pg oldsz newsz u :
  let top := PGROUNDUP oldsz in
  built k0 L0 k l pgdir tab pg None top u -> 0 <= oldsz <= newsz -> newsz < KERNBASE ->
  (forall va, top <= va -> u va = 0) ->
  exists r k' l' tab' pg', allocuvm kend pgdir oldsz newsz k = Ok (r, k') /\
    (r = newsz /\ built k0 L0 k' l' pgdir tab' pg' None (PGROUNDUP newsz) u \/
     r = 0 /\ built k0 L0 k' l' pgdir tab' pg None top u /\ Z.of_nat (length l) <= 1027 + newsz / 4096).
Proof.
  intros top Hb Hsz Hmax Hu0. pose proof (built_vm _ _ _ _ _ _ _ _ _ _ Hb) as Hv. pose proof (bu_space _ _ _ _ _ _ _ _ _ _ Hb) as Hs.
  assert (top = (oldsz + 4095) / 4096 * 4096) as Et by (unfold KERNBASE in Hmax; apply PGROUNDUP_eq; lia).
  assert (0 <= top /\ top mod 4096 = 0) as Ht0 by (rewrite Et; zlia). assert (oldsz <= top <= newsz + 4095) as Hb0 by (rewrite Et; zlia).
  destruct (allocuvm_loop_ok kend Hkend pgdir top newsz k l tab Ht0 ltac:(unfold KERNBASE in Hmax; lia)) with (oldsz := oldsz) (fuel := Z.to_nat ((newsz - top) / PGSIZE + 1)) (a := top) (k := k) (l := l) (tab := tab) (pg := fun _ : Z => @None Z)
    as (b & k' & l' & tab' & E & Hr); [| apply Hv | lia | apply Ht0 | lia | done | lia | unfold PGSIZE; zlia | by apply grown_start |].
  { intros a Ha Hal. apply Hs; [lia | done]. }
  assert (allocuvm kend pgdir oldsz newsz k = Ok (if b then newsz else 0, k')) as Ealloc.
  { unfold allocuvm. destruct (Z.leb_spec KERNBASE newsz); [lia|]. destruct (Z.ltb_spec newsz oldsz); [lia|].
    fold top. by rewrite (sr_bind_run _ _ _ _ _ E). }
  destruct Hr as [(-> & a' & pg' & Ha' & Hal' & Hg)|(-> & Hu' & Hc)].
  - exists newsz, k', l', tab', (fun a => if decide (a < top) then pg a else pg' a). split; [done|]. left. split; [done|].
    assert (PGROUNDUP newsz = a') as ->. { unfold KERNBASE in Hmax. rewrite PGROUNDUP_eq by lia. zlia. }
    apply (built_grown k0 L0 k l pgdir tab pg top u Hb a'); [|done..]. unfold KERNBASE in *. rewrite Et in *. zlia.
  - exists 0, k', l', tab', pg. split; [done|]. right. split; [done|]. split; [|zlia]. apply (built_undone k0 L0 k l pgdir tab pg top newsz); [done | lia | done | done].
Qed.

(** ** Access to user memory *)

Lemma put_bytes_at m a bs x : put_bytes m a bs x = if within x a (Z.of_nat (length bs)) then nth (Z.to_nat (x - a)) bs 0 else m x.
Proof. done. Qed.

Lemma put_bytes_ok m a bs : mem_ok m -> Forall is_byte bs -> mem_ok (put_bytes m a bs).
Proof.
  intros Hm Hb x. rewrite put_bytes_at. case_within; [|apply Hm]. rewrite Forall_forall in Hb. apply Hb, list_elem_of_In, nth_In. lia.
Qed.

(** A store into a user page is one into user memory. *)
Lemma built_put k0 L0 k l pgdir tab pg guard top u a p o bs :
  built k0 L0 k l pgdir tab pg guard top u -> pg a = Some p -> 0 <= o -> o + Z.of_nat (length bs) <= 4096 -> Forall is_byte bs ->
  built k0 L0 (mkKmem (use_lock k) (freelist k) (put_bytes (k_mem k) (p + o) bs)) l pgdir tab pg guard top (put_bytes u (a + o) bs).
Proof.
  intros [Hs Hp Hm Hu] Ea Ho Hlen Hbs. destruct (space_page _ _ _ _ _ _ _ _ _ Hs Ea) as (Ha & Hal & Hok & Hpl & Hpd & Hpt).
  assert (owned pgdir tab pg p) as Hown by (right; right; eauto). pose proof (sp_vm _ _ _ _ _ _ _ Hs) as Hv. pose proof (vm_free _ _ _ _ _ Hv) as Hf.
  assert (forall x, ~ (p <= x < p + 4096) -> put_bytes (k_mem k) (p + o) bs x = k_mem k x) as Hout by (intros x Hx; rewrite put_bytes_at; case_within; [lia | done]).
  constructor; cbn [k_mem].
  - apply (space_tables k l); [done | | intros q Hq; apply (owned_page _ _ _ _ _ _ _ _ Hs Hq) |].
    + apply free_pages_store; [done | apply put_bytes_ok; [apply Hf | done] |]. intros v x Hvl Hx. apply Hout.
      intros Hx'. by apply (page_not_free _ _ _ _ _ _ _ p x v Hs Hown Hx' Hvl).
    + intros x Hx. cbn [k_mem]. apply Hout. intros Hx'. by apply (page_not_table kend _ _ _ p x (vm_tabs _ _ _ _ _ Hv) Hok Hpd Hpt Hx').
  - done.
  - intros x Hx. rewrite Hout; [by apply Hm|]. apply Hx, Hp. by right.
  - intros va Hva. specialize (Hu va Hva). unfold ubyte in *. destruct (pg (va / 4096 * 4096)) as [q|] eqn:Eq.
    + destruct (decide (va / 4096 * 4096 = a)) as [E|E].
      * assert (q = p) as -> by congruence. rewrite !put_bytes_at. case_within; [f_equal; zlia | zlia | zlia | done].
      * rewrite Hout; [rewrite put_bytes_at; case_within; [zlia | done]|]. intros Hx.
        destruct (space_page _ _ _ _ _ _ _ _ _ Hs Eq) as (_ & _ & Hokq & _). pose proof (sp_top _ _ _ _ _ _ _ Hs).
        assert (q <> p) by (intros ->; apply E, (pr_inj _ _ _ _ _ _ _ (sp_priv _ _ _ _ _ _ _ Hs) _ _ p); (done || zlia)).
        destruct (pages_disjoint kend q p Hokq Hok); [done | zlia | zlia].
    + destruct (sp_map _ _ _ _ _ _ _ Hs (va / 4096 * 4096)) as (q & Eq' & _); [zlia | zlia | congruence].
Qed.

(** The entry of a user page. *)
Lemma space_walk k l pgdir tab pg guard top a p alloc :
  space k l pgdir tab pg guard top -> pg a = Some p ->
  exists pte, walkpgdir pgdir a alloc k = Ok (pte, k) /\ pte <> 0 /\ pte_of tab a = Some pte /\ load32 (k_mem k) pte = refers p (uflags guard a).
Proof.
  intros Hs Ea. pose proof (sp_vm _ _ _ _ _ _ _ Hs) as Hv. destruct (space_page _ _ _ _ _ _ _ _ _ Hs Ea) as (Ha & Hal & Hok & _).
  destruct (sp_map _ _ _ _ _ _ _ Hs a Ha Hal) as (p' & Ea' & En). assert (p' = p) as -> by congruence.
  unfold entry in En. destruct (pte_of tab a) as [pte|] eqn:Ep.
  - exists pte. split; [by apply (walk_present kend Hkend k l pgdir tab)|]. split; [|done]. pose proof (pte_of_nonzero _ _ _ _ _ _ (vm_tabs _ _ _ _ _ Hv) Ep). lia.
  - destruct (page_phys kend Hkend p Hok) as (_ & Hr & _). pose proof (uflags_range guard a) as (_ & H1 & H2). unfold refers in En.
    exfalso. assert (uflags guard a = 0) as E0 by lia. rewrite E0 in H2. done.
Qed.

Lemma refers_user guard a p : page_ok p ->
  let e := refers p (uflags guard a) in
  PTE_ADDR e = V2P p /\ P2V (PTE_ADDR e) = p /\ Z.land e PTE_P <> 0 /\ (Z.land e PTE_U = 0 <-> guard = Some a).
Proof.
  intros Hp e. destruct (uflags_range guard a) as (Hc & H1 & H2). destruct (refers_parts kend Hkend p (uflags guard a) Hp H1) as (E1 & E2 & _).
  destruct (page_phys kend Hkend p Hp) as (_ & Hr & Hm & Epv). split; [done|]. split; [unfold e; by rewrite E1|]. split.
  - rewrite land_1. unfold e, refers. zlia.
  - assert (Z.land e PTE_U = Z.land (PTE_FLAGS e) PTE_U) as ->.
    { unfold PTE_FLAGS. rewrite <-Z.land_assoc. done. }
    unfold e. rewrite E2. unfold uflags. by case_decide.
Qed.

Lemma uva2ka_ok k l pgdir tab pg guard top a p :
  space k l pgdir tab pg guard top -> pg a = Some p ->
  uva2ka pgdir a k = Ok (if decide (guard = Some a) then 0 else p, k).
Proof.
  intros Hs Ea. destruct (space_walk k l pgdir tab pg guard top a p false Hs Ea) as (pte & E & _ & _ & El).
  destruct (space_page _ _ _ _ _ _ _ _ _ Hs Ea) as (_ & _ & Hok & _). destruct (refers_user guard a p Hok) as (_ & R2 & R3 & R4).
  unfold uva2ka. rewrite (sr_bind_run _ _ _ _ _ E). unfold load, sr_gets. erewrite sr_bind_run by done. rewrite El, (proj2 (Z.eqb_neq _ _) R3).
  case_decide as Hd.
  - by rewrite (proj2 R4 Hd).
  - rewrite (proj2 (Z.eqb_neq _ _)) by (rewrite R4; done). by rewrite R2.
Qed.

(** [copyout] within a page, and into the guard page. *)
Lemma copyout_in k0 L0 k l pgdir tab pg guard top u va bs :
  let a := va / 4096 * 4096 in
  built k0 L0 k l pgdir tab pg guard top u -> 0 <= va < top -> guard <> Some a -> bs <> [] -> va + Z.of_nat (length bs) <= a + 4096 -> Forall is_byte bs ->
  exists k', copyout pgdir va bs k = Ok (0, k') /\ built k0 L0 k' l pgdir tab pg guard top (put_bytes u va bs).
Proof.
  intros a Hb Hva Hg Hbs Hlen Hok. pose proof (bu_space _ _ _ _ _ _ _ _ _ _ Hb) as Hs. pose proof (sp_top _ _ _ _ _ _ _ Hs) as Htop. unfold KERNBASE in Htop.
  destruct (sp_map _ _ _ _ _ _ _ Hs a) as (p & Ea & _); [unfold a; zlia | unfold a; zlia |].
  assert (0 < Z.of_nat (length bs)) as Hl0 by (destruct bs; [done | cbn; lia]).
  pose proof (uva2ka_ok _ _ _ _ _ _ _ _ _ Hs Ea) as E. rewrite decide_False in E by done.
  destruct (space_page _ _ _ _ _ _ _ _ _ Hs Ea) as (_ & _ & Hp & _). assert (p <> 0) as Hp0 by (destruct Hp as (_ & _ & _ & ? & _); lia).
  unfold copyout. replace (Z.to_nat (Z.of_nat (length bs) / PGSIZE + 2)) with (S (S (Z.to_nat (Z.of_nat (length bs) / PGSIZE)))) by (unfold PGSIZE; zlia).
  cbn [copyout_loop]. rewrite (proj2 (Z.ltb_lt _ _) Hl0). rewrite PGROUNDDOWN_eq by lia. fold a. rewrite (sr_bind_run _ _ _ _ _ E), (proj2 (Z.eqb_neq _ _) Hp0).
  set (n := if Z.of_nat (length bs) <? _ then _ else _). assert (n = Z.of_nat (length bs)) as -> by (unfold n, PGSIZE; case_match; lia).
  rewrite Nat2Z.id, firstn_all, drop_all. unfold set_mem, sr_modify. erewrite sr_bind_run by done. cbn [length Z.of_nat Z.ltb Z.compare].
  eexists. split; [done|]. pose proof (built_put _ _ _ _ _ _ _ _ _ _ a p (va - a) bs Hb Ea ltac:(unfold a; zlia) ltac:(lia) Hok) as Hput.
  by replace (a + (va - a)) with va in Hput by lia.
Qed.

Lemma copyout_guard k l pgdir tab pg top va bs :
  let a := va / 4096 * 4096 in
  space k l pgdir tab pg (Some a) top -> 0 <= va < top -> bs <> [] -> copyout pgdir va bs k = Ok (-1, k).
Proof.
  intros a Hs Hva Hbs. pose proof (sp_top _ _ _ _ _ _ _ Hs) as Htop. unfold KERNBASE in Htop.
  destruct (sp_map _ _ _ _ _ _ _ Hs a) as (p & Ea & _); [unfold a; zlia | unfold a; zlia |].
  assert (0 < Z.of_nat (length bs)) as Hl0 by (destruct bs; [done | cbn; lia]).
  pose proof (uva2ka_ok _ _ _ _ _ _ _ _ _ Hs Ea) as E. rewrite decide_True in E by done.
  unfold copyout. cbn [copyout_loop]. rewrite (proj2 (Z.ltb_lt _ _) Hl0). rewrite PGROUNDDOWN_eq by lia. fold a. by rewrite (sr_bind_run _ _ _ _ _ E).
Qed.

(** [clearpteu] makes a page the guard. *)
Lemma clear_bit2 e : 0 <= e < 2 ^ 32 -> e mod 8 = 7 -> Z.land e (u32 (Z.lnot PTE_U)) = e - 4.
Proof.
  intros He Hm. assert (Z.ldiff 4 e = 0) as Hd.
  { apply Z.bits_inj'. intros n Hn. rewrite Z.ldiff_spec, Z.testbit_0_l. change 4 with (2 ^ 2).
    destruct (decide (n = 2)) as [->|Hne]; [|by rewrite Z.pow2_bits_false by lia].
    rewrite Z.pow2_bits_true, (Z.testbit_odd e), Z.shiftr_div_pow2 by lia. pose proof (Zmod_odd (e / 2 ^ 2)) as Ho. destruct (Z.odd _); [done | zlia]. }
  rewrite (Z.sub_nocarry_ldiff e 4 Hd), Z.ldiff_land. change (u32 (Z.lnot PTE_U)) with (Z.land (Z.lnot 4) (Z.ones 32)).
  rewrite Z.land_assoc, (Z.land_comm (Z.land _ _)), Z.land_assoc. f_equal. rewrite Z.land_comm, Z.land_ones by lia. apply Z.mod_small. lia.
Qed.

Lemma clear_built k0 L0 k l pgdir tab pg top u g :
  built k0 L0 k l pgdir tab pg None top u -> 0 <= g < top -> g mod 4096 = 0 ->
  exists k', clearpteu pgdir g k = Ok (tt, k') /\ built k0 L0 k' l pgdir tab pg (Some g) top u.
Proof.
  intros Hb Hg Hgal. pose proof (bu_space _ _ _ _ _ _ _ _ _ _ Hb) as Hs. pose proof (sp_top _ _ _ _ _ _ _ Hs) as Htop. unfold KERNBASE in Htop.
  destruct (sp_map _ _ _ _ _ _ _ Hs g Hg Hgal) as (p & Eg & _). destruct (space_page _ _ _ _ _ _ _ _ _ Hs Eg) as (_ & _ & Hp & _).
  destruct (space_walk k l pgdir tab pg None top g p false Hs Eg) as (pte & E & Hp0 & Ept & El). change (uflags None g) with 7 in El.
  destruct (page_phys kend Hkend p Hp) as (_ & Hr & Hm & _). destruct (refers_parts kend Hkend p 7 Hp ltac:(lia)) as (_ & _ & He).
  assert (Z.land (load32 (k_mem k) pte) (u32 (Z.lnot PTE_U)) = refers p 3) as Ew.
  { rewrite El, clear_bit2; [unfold refers; lia | done | unfold refers; zlia]. }
  pose proof (sp_vm _ _ _ _ _ _ _ Hs) as Hv. pose proof (vm_free _ _ _ _ _ Hv) as Hf.
  destruct (store_entry kend (k_mem k) pgdir tab g pte (refers p 3) (vm_tabs _ _ _ _ _ Hv) ltac:(lia)) as (S1 & S2 & S3 & S4); [unfold refers, PHYSTOP in *; lia | done |].
  eexists. split.
  { unfold clearpteu. rewrite (sr_bind_run _ _ _ _ _ E), (proj2 (Z.eqb_neq _ _) Hp0). unfold load, sr_gets. erewrite sr_bind_run by done. rewrite Ew. reflexivity. }
  destruct Hb as [_ Hpg Hm0 Hu].
  assert (forall a, 0 <= a < KERNBASE -> a mod 4096 = 0 -> entry (store32 (k_mem k) pte (refers p 3)) tab a = if decide (a = g) then refers p 3 else entry (k_mem k) tab a) as He'.
  { intros a Ha Hal. unfold KERNBASE in Ha. case_decide as Hd; [by subst|]. apply S3; [lia | zlia]. }
  constructor; cbn [k_mem].
  - constructor; cbn [k_mem].
    + apply vm_store; [done | apply store32_ok, Hf | done | done].
    + apply Hs.
    + intros a Ha Hal. destruct (sp_map _ _ _ _ _ _ _ Hs a Ha Hal) as (q & Eq & En). exists q. split; [done|]. rewrite He' by (unfold KERNBASE; lia || done).
      unfold uflags in *. destruct (decide (a = g)) as [->|Hd].
      * rewrite decide_True by done. congruence.
      * by rewrite decide_False by congruence.
    + apply Hs.
    + intros a Ha Hal. rewrite He' by (done || lia). rewrite decide_False by lia. by apply Hs.
    + apply Hs.
  - done.
  - intros x Hx. rewrite S4; [by apply Hm0|]. intros (q & Ho & Hq)%(table_byte_owned _ _ pg). apply (Hx q); [|done]. apply Hpg. by right.
  - intros va Hva. rewrite <-Hu by done. unfold ubyte. destruct (pg (va / 4096 * 4096)) as [q|] eqn:Eq; [|done].
    destruct (space_page _ _ _ _ _ _ _ _ _ Hs Eq) as (_ & _ & Hq & _ & Hqd & Hqt). apply S4.
    apply (page_not_table kend _ _ _ q _ (vm_tabs _ _ _ _ _ Hv) Hq Hqd Hqt). zlia.
Qed.

End Space.
