(* ===== verification/Sh.v ===== *)
(** The command parser of the xv6 shell, [xv6/base/sh.c].

    A pointer into the command line is the suffix of the line it points to:
    [*s] is its head (0 at the end, where the NUL is), [s++] its tail, [s < es]
    that it is not empty, and its offset is what it lacks of the whole line.
    The recursive descent functions take the suffix and return the command and
    the suffix where they stopped; [panic] ends the child process.  [malloc] is
    taken to succeed, as the code does.

    The recursion is by fuel; [parsecmd] gives four units per character and
    four more, which is proved to be enough for every line. *)

From S2P Require Import Prelude.

Abbreviation ptr := (list Z).

Definition whitespace : list Z := [32; 9; 13; 10; 11].
Definition symbols : list Z := [60; 124; 62; 38; 59; 40; 41].   (* <|>&;() *)

Definition MAXARGS : nat := 10.

(** [struct cmd] and its five kinds; a token is a pair of pointers. *)
Inductive cmd :=
| EXEC (argv : list (ptr * ptr))
| REDIR (c : cmd) (file efile : ptr) (mode fd : Z)
| PIPE (left right : cmd)
| LIST (left right : cmd)
| BACK (c : cmd).

(** The constructors; [malloc] is taken to succeed. *)
Definition execcmd : cmd := EXEC [].
Definition redircmd (subcmd : cmd) (file efile : ptr) (mode fd : Z) : cmd := REDIR subcmd file efile mode fd.
Definition pipecmd (left right : cmd) : cmd := PIPE left right.
Definition listcmd (left right : cmd) : cmd := LIST left right.
Definition backcmd (subcmd : cmd) : cmd := BACK subcmd.

(** [*s] *)
Definition deref (s : ptr) : Z := hd 0 s.

(** [strchr(l, c) != 0] for a string [l]. *)
Definition strchr_in (l : list Z) (c : Z) : bool := bool_decide (c ∈ l).

(** [while(s < es && strchr(whitespace, *s)) s++;] *)
Fixpoint skip_ws (s : ptr) : ptr :=
  match s with
  | [] => []
  | c :: s' => if strchr_in whitespace c then skip_ws s' else s
  end.

(** [while(s < es && !strchr(whitespace, *s) && !strchr(symbols, *s)) s++;] *)
Fixpoint skip_word (s : ptr) : ptr :=
  match s with
  | [] => []
  | c :: s' => if negb (strchr_in whitespace c) && negb (strchr_in symbols c) then skip_word s' else s
  end.

(** Returns the token, [q], [eq] and the new [*ps]. *)
Definition gettoken (s : ptr) : Z * ptr * ptr * ptr :=
  let q := skip_ws s in
  let c := deref q in
  let '(ret, eq) :=
    if c =? 0 then (c, q)
    else if (c =? 124) || (c =? 40) || (c =? 41) || (c =? 59) || (c =? 38) || (c =? 60) then (c, tl q)
    else if c =? 62 then
      if deref (tl q) =? 62 then (43, tl (tl q)) else (c, tl q)
    else (97, skip_word q) in
  (ret, q, eq, skip_ws eq).

(** The value and the new [*ps]. *)
Definition peek (s : ptr) (toks : list Z) : bool * ptr :=
  let s := skip_ws s in
  (negb (deref s =? 0) && strchr_in toks (deref s), s).

(** The while loop of [parseredirs]: a redirection takes at least two
    characters, so the length of the rest bounds the loop. *)
Fixpoint parseredirs_loop (fuel : nat) (c : cmd) (s : ptr) : result (cmd * ptr) :=
  match fuel with
  | O => Sleeps "parseredirs"
  | S f =>
      let '(b, s) := peek s [60; 62] in
      if negb b then Ok (c, s)
      else
        let '(tok, _, _, s) := gettoken s in
        let '(t, q, eq, s) := gettoken s in
        if negb (t =? 97) then Panic "missing file for redirection"
        else
          let c :=
            if tok =? 60 then redircmd c q eq O_RDONLY 0
            else if tok =? 62 then redircmd c q eq (Z.lor O_WRONLY O_CREATE) 1
            else if tok =? 43 then redircmd c q eq (Z.lor O_WRONLY O_CREATE) 1   (* >> *)
            else c in
          parseredirs_loop f c s
  end.

Definition parseredirs (c : cmd) (s : ptr) : result (cmd * ptr) :=
  parseredirs_loop (S (length s)) c s.

(** The stores to the [execcmd] that [ret] wraps. *)
Fixpoint set_argv (argv : list (ptr * ptr)) (ret : cmd) : cmd :=
  match ret with
  | EXEC _ => EXEC argv
  | REDIR c q eq mode fd => REDIR (set_argv argv c) q eq mode fd
  | c => c
  end.

(** The argument loop of [parseexec]; [argv] are the arguments so far. *)
Fixpoint parseexec_loop (fuel : nat) (argv : list (ptr * ptr)) (ret : cmd) (s : ptr) : result (cmd * ptr) :=
  match fuel with
  | O => Sleeps "parseexec"
  | S f =>
      let '(b, s) := peek s [124; 41; 38; 59] in
      if b then Ok (set_argv argv ret, s)
      else
        let '(tok, q, eq, s) := gettoken s in
        if tok =? 0 then Ok (set_argv argv ret, s)
        else if negb (tok =? 97) then Panic "syntax"
        else
          let argv := argv ++ [(q, eq)] in
          if (MAXARGS <=? length argv)%nat then Panic "too many args"
          else
            r ← parseredirs ret s;
            let '(ret, s) := (r : cmd * ptr) in
            parseexec_loop f argv ret s
  end.

(** [while(peek(ps, es, "&")){ gettoken; cmd = backcmd(cmd); }] *)
Fixpoint parseback_loop (fuel : nat) (c : cmd) (s : ptr) : result (cmd * ptr) :=
  match fuel with
  | O => Sleeps "parseline"
  | S f =>
      let '(b, s) := peek s [38] in
      if negb b then Ok (c, s)
      else
        let '(_, _, _, s) := gettoken s in
        parseback_loop f (backcmd c) s
  end.

Fixpoint parseline (fuel : nat) (s : ptr) : result (cmd * ptr) :=
  match fuel with
  | O => Sleeps "parse"
  | S f =>
      r ← parsepipe f s;
      let '(c, s) := (r : cmd * ptr) in
      r ← parseback_loop (S (length s)) c s;
      let '(c, s) := (r : cmd * ptr) in
      let '(b, s) := peek s [59] in
      if b then
        let '(_, _, _, s) := gettoken s in
        r ← parseline f s;
        let '(c', s) := (r : cmd * ptr) in
        Ok (listcmd c c', s)
      else Ok (c, s)
  end
with parsepipe (fuel : nat) (s : ptr) : result (cmd * ptr) :=
  match fuel with
  | O => Sleeps "parse"
  | S f =>
      r ← parseexec f s;
      let '(c, s) := (r : cmd * ptr) in
      let '(b, s) := peek s [124] in
      if b then
        let '(_, _, _, s) := gettoken s in
        r ← parsepipe f s;
        let '(c', s) := (r : cmd * ptr) in
        Ok (pipecmd c c', s)
      else Ok (c, s)
  end
with parseblock (fuel : nat) (s : ptr) : result (cmd * ptr) :=
  match fuel with
  | O => Sleeps "parse"
  | S f =>
      let '(b, s) := peek s [40] in
      if negb b then Panic "parseblock"
      else
        let '(_, _, _, s) := gettoken s in
        r ← parseline f s;
        let '(c, s) := (r : cmd * ptr) in
        let '(b, s) := peek s [41] in
        if negb b then Panic "syntax - missing )"
        else
          let '(_, _, _, s) := gettoken s in
          parseredirs c s
  end
with parseexec (fuel : nat) (s : ptr) : result (cmd * ptr) :=
  match fuel with
  | O => Sleeps "parse"
  | S f =>
      let '(b, s) := peek s [40] in
      if b then parseblock f s
      else
        r ← parseredirs execcmd s;
        let '(ret, s) := (r : cmd * ptr) in
        parseexec_loop (S (length s)) [] ret s
  end.

(** The line's buffer, with its final NUL: [*eq = 0] for each token. *)
Definition nul_at (line : list Z) (p : ptr) (buf : list Z) : list Z :=
  <[(length line - length p)%nat := 0]> buf.

Fixpoint nulterminate (line : list Z) (c : cmd) (buf : list Z) : list Z :=
  match c with
  | EXEC argv => foldl (fun b a => nul_at line a.2 b) buf argv
  | REDIR c _ efile _ _ => nul_at line efile (nulterminate line c buf)
  | PIPE l r => nulterminate line r (nulterminate line l buf)
  | LIST l r => nulterminate line r (nulterminate line l buf)
  | BACK c => nulterminate line c buf
  end.

(** The command and the contents of the buffer. *)
Definition parsecmd (line : list Z) : result (cmd * list Z) :=
  r ← parseline (4 * length line + 4) line;
  let '(c, s) := (r : cmd * ptr) in
  let s := (peek s []).2 in
  if negb (bool_decide (s = [])) then Panic "syntax"
  else Ok (c, nulterminate line c (line ++ [0])).

(** The string that starts at [p] in the buffer. *)
Fixpoint cstr_of (l : list Z) : list Z :=
  match l with
  | [] => []
  | c :: l' => if c =? 0 then [] else c :: cstr_of l'
  end.

Definition string_at (line buf : list Z) (p : ptr) : list Z :=
  cstr_of (drop (length line - length p) buf).

(** ** Running a command

    What [runcmd] does to the file descriptors.  The kernel's part is that of
    [sysfile.c]: [open], [dup] and [pipe] take the lowest free descriptors,
    [fork] copies them.  A child runs to its [exec] or [exit] when it is
    forked; the events are the programs started, each with its descriptors,
    and the messages printed.  [fork] is taken to succeed; which files can be
    opened and which programs exist are parameters, and [str] is the string at
    a pointer into the line. *)

(** What a descriptor refers to: one of the shell's own files, a file opened
    by path and mode, or an end of pipe [n]. *)
Inductive fobj := OShell (n : nat) | OFile (path : list Z) (mode : Z) | OPipeR (n : nat) | OPipeW (n : nat).

Abbreviation fdtab := (list (option fobj)).

Inductive event :=
| EExec (argv : list (list Z)) (fds : fdtab)
| EFail (what : string) (name : list Z).

Section Run.
Context (can_open : list Z -> Z -> bool) (can_exec : list Z -> bool) (str : ptr -> list Z).

Definition fd_close (fd : nat) (t : fdtab) : fdtab := <[fd := None]> t.

(** The lowest free descriptor is set to [x]. *)
Definition fd_new (x : fobj) (t : fdtab) : option (nat * fdtab) :=
  match find_idx (fun o : option fobj => match o with None => true | Some _ => false end) t with
  | Some fd => Some (fd, <[fd := Some x]> t)
  | None => None
  end.

Definition fd_dup (fd : nat) (t : fdtab) : fdtab :=
  match t !! fd with
  | Some (Some x) => match fd_new x t with Some (_, t') => t' | None => t end
  | _ => t
  end.

(** [pipe(p)], with the number of the new pipe. *)
Definition fd_pipe (n : nat) (t : fdtab) : option (nat * nat * fdtab) :=
  match fd_new (OPipeR n) t with
  | None => None
  | Some (p0, t) => match fd_new (OPipeW n) t with None => None | Some (p1, t) => Some (p0, p1, t) end
  end.

(** The events, and the number of the next pipe. *)
Fixpoint runcmd (c : cmd) (t : fdtab) (n : nat) : list event * nat :=
  match c with
  | EXEC argv =>
      match argv with
      | [] => ([], n)
      | a :: _ =>
          if can_exec (str a.1) then ([EExec ((fun a => str a.1) <$> argv) t], n)
          else ([EFail "exec" (str a.1)], n)
      end
  | REDIR c file _ mode fd =>
      let t := fd_close (Z.to_nat fd) t in
      if can_open (str file) mode then
        match fd_new (OFile (str file) mode) t with
        | Some (_, t) => runcmd c t n
        | None => ([EFail "open" (str file)], n)
        end
      else ([EFail "open" (str file)], n)
  | LIST l r =>
      let '(e1, n) := runcmd l t n in
      let '(e2, n) := runcmd r t n in
      (e1 ++ e2, n)
  | PIPE l r =>
      match fd_pipe n t with
      | None => ([EFail "pipe" []], n)
      | Some (p0, p1, t) =>
          let '(e1, n1) := runcmd l (fd_close p1 (fd_close p0 (fd_dup p1 (fd_close 1 t)))) (S n) in
          let '(e2, n2) := runcmd r (fd_close p1 (fd_close p0 (fd_dup p0 (fd_close 0 t)))) n1 in
          (e1 ++ e2, n2)
      end
  | BACK c => runcmd c t n
  end.

End Run.
