(* ===== verification/ShFacts.v ===== *)
(** The shell's parser: it always stops, and its arguments are words of the
    line; what the printer of commands writes, it reads back. *)

From S2P Require Import Prelude Sh.

(** ** Characters *)

Definition wordchar (c : Z) : bool := negb (c =? 0) && negb (strchr_in whitespace c) && negb (strchr_in symbols c).

(** A C string: no NUL inside. *)
Definition no_nul (s : list Z) : Prop := Forall (fun c => c <> 0) s.

Lemma no_nul_suffix s s' : s' `suffix_of` s -> no_nul s -> no_nul s'.
Proof. intros [k ->] H. unfold no_nul in *. by apply Forall_app in H as [_ H]. Qed.

Lemma strchr_in_spec l c : reflect (c ∈ l) (strchr_in l c).
Proof. unfold strchr_in. apply bool_decide_reflect. Qed.

(** Each symbol character is not a word character. *)
Lemma wordchar_not_symbol c : wordchar c = true -> c ∉ symbols /\ c ∉ whitespace /\ c <> 0.
Proof.
  unfold wordchar. intros H. apply andb_prop in H as [H H3]. apply andb_prop in H as [H1 H2].
  destruct (Z.eqb_spec c 0); [done|]. destruct (strchr_in_spec whitespace c); [done|].
  by destruct (strchr_in_spec symbols c).
Qed.

(** ** The scanner *)

Lemma skip_ws_suffix s : skip_ws s `suffix_of` s.
Proof.
  induction s as [|c s IH]; [done|]. cbn. destruct (strchr_in whitespace c); [|done].
  by apply suffix_cons_r.
Qed.

Lemma skip_ws_head s : strchr_in whitespace (deref (skip_ws s)) = false.
Proof. induction s as [|c s IH]; [done|]. cbn. by destruct (strchr_in whitespace c) eqn:E. Qed.

Lemma skip_ws_id s : strchr_in whitespace (deref s) = false -> skip_ws s = s.
Proof. destruct s as [|c s]; [done|]. cbn. by intros ->. Qed.

Lemma skip_ws_idem s : skip_ws (skip_ws s) = skip_ws s.
Proof. apply skip_ws_id, skip_ws_head. Qed.

(** A word is what [skip_word] passes. *)
Lemma skip_word_split s :
  no_nul s -> exists w, s = w ++ skip_word s /\ Forall (fun c => wordchar c = true) w /\ wordchar (deref (skip_word s)) = false.
Proof.
  induction s as [|c s IH]; intros Hs; [by exists []|]. apply Forall_cons in Hs as [Hc Hs]. cbn [skip_word].
  destruct (negb (strchr_in whitespace c) && negb (strchr_in symbols c)) eqn:E.
  - destruct (IH Hs) as (w & Ew & Fw & Hd). exists (c :: w). split; [cbn; by rewrite <-Ew|]. split; [|done].
    apply Forall_cons. split; [|done]. unfold wordchar. apply andb_prop in E as [-> ->].
    by destruct (Z.eqb_spec c 0).
  - exists []. split; [done|]. split; [constructor|]. cbn. unfold wordchar.
    by rewrite <-andb_assoc, E, andb_false_r.
Qed.

(** A token of the line: the word from [q] to [eq], as long as possible. *)
Definition token_ok (line : list Z) (t : ptr * ptr) : Prop :=
  exists w, t.1 = w ++ t.2 /\ w <> [] /\ Forall (fun c => wordchar c = true) w /\
    wordchar (deref t.2) = false /\ t.1 `suffix_of` line.

Lemma token_ok_suffix line s t : s `suffix_of` line -> token_ok s t -> token_ok line t.
Proof. intros Hs (w & H1 & H2 & H3 & H4 & H5). exists w. do 4 (split; [done|]). by etrans. Qed.

Lemma suffix_shorter (s s' : list Z) : s' `suffix_of` s -> (length s' <= length s)%nat.
Proof. intros [k ->]. rewrite length_app. lia. Qed.

Lemma tl_suffix (s : list Z) : tl s `suffix_of` s.
Proof. destruct s as [|c s]; [done|]. by apply suffix_cons_r. Qed.

(** What [gettoken] returns. *)
Lemma gettoken_spec s tok q eq s' :
  no_nul s -> gettoken s = (tok, q, eq, s') ->
  s' `suffix_of` s /\
  (tok = 0 /\ skip_ws s = [] /\ s' = [] \/
   tok <> 0 /\ (length s' < length (skip_ws s))%nat /\ (tok = 97 -> token_ok s (q, eq))).
Proof.
  intros Hs E. unfold gettoken in E. pose proof (skip_ws_suffix s) as Hq. pose proof (skip_ws_head s) as Hh.
  assert (forall t, t `suffix_of` skip_ws s -> skip_ws t `suffix_of` s) as Hsuf.
  { intros t Ht. etrans; [apply skip_ws_suffix|]. by etrans. }
  assert (no_nul (skip_ws s)) as Hqn by (by eapply no_nul_suffix).
  destruct (skip_ws s) as [|c q0] eqn:Eq; cbn in E.
  { injection E as <- <- <- <-. split; [apply (suffix_nil s)|]. by left. }
  apply Forall_cons in Hqn as [Hc Hq0]. cbn in Hh.
  assert (skip_ws q0 `suffix_of` s /\ (length (skip_ws q0) <= length q0)%nat) as [H1 H1'].
  { split; [apply Hsuf; by apply suffix_cons_r | apply suffix_shorter, skip_ws_suffix]. }
  destruct (Z.eqb_spec c 0); [done|].
  destruct ((c =? 124) || (c =? 40) || (c =? 41) || (c =? 59) || (c =? 38) || (c =? 60)) eqn:Esym.
  { injection E as <- <- <- <-. split; [done|]. right. split; [done|]. split; [cbn; lia|].
    intros ->. cbn in Esym. discriminate. }
  destruct (Z.eqb_spec c 62) as [->|H62].
  { destruct (deref q0 =? 62) eqn:E2; injection E as <- <- <- <-.
    - assert (tl q0 `suffix_of` q0) as Ht by apply tl_suffix. split; [apply Hsuf; etrans; [exact Ht | by apply suffix_cons_r]|].
      right. split; [done|]. split; [|done]. pose proof (suffix_shorter _ _ (skip_ws_suffix (tl q0))).
      pose proof (suffix_shorter _ _ Ht). cbn. lia.
    - split; [done|]. right. split; [done|]. split; [cbn; lia | done]. }
  injection E as <- <- <- <-. assert (no_nul (c :: q0)) as Hn by (by apply Forall_cons).
  assert (negb (strchr_in whitespace c) && negb (strchr_in symbols c) = true) as Hcw.
  { rewrite Hh. cbn [negb andb]. destruct (strchr_in_spec symbols c) as [Hin|]; [|done]. exfalso.
    unfold symbols in Hin. rewrite !elem_of_cons, elem_of_nil in Hin.
    destruct Hin as [->|[->|[->|[->|[->|[->|[->|[]]]]]]]]; done. }
  destruct (skip_word_split (c :: q0) Hn) as (w & Ew & Fw & Hd).
  cbn [skip_word] in *. rewrite Hcw in *.
  assert (skip_word q0 `suffix_of` q0) as Hsw.
  { destruct (skip_word_split q0 Hq0) as (w' & E' & _). exists w'. done. }
  split; [apply Hsuf; etrans; [exact Hsw | by apply suffix_cons_r]|]. right. split; [done|]. split.
  - pose proof (suffix_shorter _ _ Hsw). pose proof (suffix_shorter _ _ (skip_ws_suffix (skip_word q0))). cbn. lia.
  - intros _. exists w. split; [exact Ew|]. split; [|split; [done | split; [done | exact Hq]]].
    intros ->. cbn in Ew. pose proof (suffix_shorter _ _ Hsw) as Hl. rewrite <-Ew in Hl. cbn in Hl. lia.
Qed.

Lemma peek_spec s toks b s' :
  peek s toks = (b, s') -> s' = skip_ws s /\ s' `suffix_of` s /\
  (b = true -> s' <> [] /\ deref s' ∈ toks) /\ (b = false -> deref s' = 0 \/ deref s' ∉ toks).
Proof.
  unfold peek. intros [= <- <-]. split; [done|]. split; [apply skip_ws_suffix|]. split.
  - intros H. apply andb_prop in H as [H1 H2]. destruct (strchr_in_spec toks (deref (skip_ws s))); [|done].
    split; [|done]. intros E. by rewrite E in H1.
  - destruct (Z.eqb_spec (deref (skip_ws s)) 0); [by left|]. cbn.
    destruct (strchr_in_spec toks (deref (skip_ws s))); [done | by right].
Qed.

(** Chains of suffixes. *)
Ltac suffixes :=
  first [ done
        | match goal with H : ?a `suffix_of` ?b |- ?a `suffix_of` _ => etrans; [exact H|]; suffixes end ].

(** ** The parser always stops *)

(** The tokens of a command. *)
Fixpoint tokens (c : cmd) : list (ptr * ptr) :=
  match c with
  | EXEC argv => argv
  | REDIR c q eq _ _ => tokens c ++ [(q, eq)]
  | PIPE l r => tokens l ++ tokens r
  | LIST l r => tokens l ++ tokens r
  | BACK c => tokens c
  end.

(** Abstract commands, and the one that a parsed command denotes. *)

Inductive acmd :=
| AExec (args : list (list Z))
| ARedir (c : acmd) (file : list Z) (out : bool)      (* < or > *)
| APipe (l r : acmd)
| AList (l r : acmd)
| ABack (c : acmd).

Definition word_of (q eq : ptr) : list Z := take (length q - length eq) q.

Fixpoint denote (c : cmd) : option acmd :=
  match c with
  | EXEC argv => Some (AExec ((fun t => word_of t.1 t.2) <$> argv))
  | REDIR c q eq mode fd =>
      a ← denote c;
      if bool_decide (mode = O_RDONLY /\ fd = 0) then Some (ARedir a (word_of q eq) false)
      else if bool_decide (mode = Z.lor O_WRONLY O_CREATE /\ fd = 1) then Some (ARedir a (word_of q eq) true)
      else None
  | PIPE l r => a ← denote l; b ← denote r; Some (APipe a b)
  | LIST l r => a ← denote l; b ← denote r; Some (AList a b)
  | BACK c => a ← denote c; Some (ABack a)
  end.

Definition syntax_errors : list string :=
  ["missing file for redirection"; "syntax"; "too many args"; "syntax - missing )"]%string.

Section Line.
Context (line : list Z).
Hypothesis Hline : no_nul line.

(** The tokens are words of the line, the redirections those of the grammar. *)
Definition cmd_ok (c : cmd) : Prop := Forall (token_ok line) (tokens c) /\ is_Some (denote c).

Lemma cmd_ok_exec argv : Forall (token_ok line) argv -> cmd_ok (EXEC argv).
Proof. intros H. split; [done | by eexists]. Qed.

Lemma cmd_ok_redir c q eq (out : bool) : cmd_ok c -> token_ok line (q, eq) ->
  cmd_ok (if out then REDIR c q eq (Z.lor O_WRONLY O_CREATE) 1 else REDIR c q eq O_RDONLY 0).
Proof.
  intros [H1 [a Ha]] Ht. split; destruct out; cbn; rewrite ?Forall_app, ?Forall_singleton, ?Ha; try done; by eexists.
Qed.

Lemma cmd_ok_two l r : cmd_ok l -> cmd_ok r -> cmd_ok (PIPE l r) /\ cmd_ok (LIST l r).
Proof.
  intros [H1 [a Ha]] [H2 [b Hb]]. split; (split; cbn; [by apply Forall_app | rewrite Ha, Hb; by eexists]).
Qed.

Lemma cmd_ok_back c : cmd_ok c -> cmd_ok (BACK c).
Proof. intros [H1 [a Ha]]. split; [done|]. cbn. rewrite Ha. by eexists. Qed.

(** A parser that stops, in a suffix, with tokens of the line. *)
Definition parsed (s : ptr) (r : result (cmd * ptr)) : Prop :=
  match r with
  | Ok (c, s') => s' `suffix_of` s /\ cmd_ok c
  | Panic m => m ∈ syntax_errors
  | Sleeps _ => False
  end.

Lemma parsed_suffix s s0 r : s `suffix_of` s0 -> parsed s r -> parsed s0 r.
Proof. intros Hs. destruct r as [[c s']| |]; [|done|done]. intros [H1 H2]. split; [suffixes | done]. Qed.

Lemma parsed_bind s0 s r (f : cmd * ptr -> result (cmd * ptr)) :
  s `suffix_of` s0 -> parsed s r ->
  (forall c s', s' `suffix_of` s -> cmd_ok c -> parsed s0 (f (c, s'))) ->
  parsed s0 (r ≫= f).
Proof. intros Hs Hr Hf. destruct r as [[c s']| |]; [|done|done]. destruct Hr as [H1 H2]. by apply Hf. Qed.

Lemma line_no_nul s : s `suffix_of` line -> no_nul s.
Proof. intros H. by eapply no_nul_suffix. Qed.

Lemma skip_ws_shorter s : (length (skip_ws s) <= length s)%nat.
Proof. apply suffix_shorter, skip_ws_suffix. Qed.

(** After a successful [peek] the next token takes at least a character. *)
Lemma peek_token s toks s1 tok q eq s2 :
  s `suffix_of` line -> peek s toks = (true, s1) -> gettoken s1 = (tok, q, eq, s2) ->
  s2 `suffix_of` s /\ (length s2 < length s)%nat /\ s2 `suffix_of` line.
Proof.
  intros Hs P G. destruct (peek_spec _ _ _ _ P) as (E1 & Hs1 & Ht & _). destruct (Ht eq_refl) as [Hne _].
  destruct (gettoken_spec _ _ _ _ _ (line_no_nul s1 ltac:(suffixes)) G) as [Hs2 [(_ & E & _)|(_ & Hl & _)]].
  - exfalso. apply Hne. rewrite <-E, E1. symmetry. apply skip_ws_idem.
  - pose proof (skip_ws_shorter s1). pose proof (suffix_shorter _ _ Hs1).
    split; [suffixes|]. split; [lia|]. suffixes.
Qed.

Lemma parseredirs_loop_parsed fuel c s :
  s `suffix_of` line -> (length s < fuel)%nat -> cmd_ok c ->
  parsed s (parseredirs_loop fuel c s).
Proof.
  revert c s. induction fuel as [|f IH]; intros c s Hs Hf Hc; [lia|]. cbn [parseredirs_loop].
  destruct (peek s [60; 62]) as [b s1] eqn:P. destruct b; cbn [negb].
  2: { destruct (peek_spec _ _ _ _ P) as (_ & Hs1 & _). done. }
  destruct (gettoken s1) as [[[tok q0] eq0] s2] eqn:G1.
  destruct (peek_token _ _ _ _ _ _ _ Hs P G1) as (Hs2 & Hl2 & Hline2).
  destruct (gettoken s2) as [[[t q] eq] s3] eqn:G2.
  destruct (gettoken_spec _ _ _ _ _ (line_no_nul s2 Hline2) G2) as [Hs3 Ht].
  destruct (Z.eqb_spec t 97) as [->|]; cbn [negb]; [|apply list_elem_of_here].
  destruct Ht as [(Ht & _)|(_ & Hl3 & Htok)]; [done|]. specialize (Htok eq_refl).
  apply (token_ok_suffix line) in Htok; [|done]. pose proof (skip_ws_shorter s2).
  apply (parsed_suffix s3); [suffixes|]. apply IH; [suffixes | lia |].
  destruct (tok =? 60); [by apply (cmd_ok_redir c q eq false)|].
  destruct (tok =? 62); [by apply (cmd_ok_redir c q eq true)|]. destruct (tok =? 43); [by apply (cmd_ok_redir c q eq true) | done].
Qed.

Lemma parseredirs_parsed c s :
  s `suffix_of` line -> cmd_ok c -> parsed s (parseredirs c s).
Proof. intros Hs Hc. apply parseredirs_loop_parsed; [done | lia | done]. Qed.

Lemma set_argv_tokens argv ret :
  cmd_ok ret -> Forall (token_ok line) argv -> cmd_ok (set_argv argv ret).
Proof.
  intros Hr Ha. induction ret as [argv0|c IH q eq m fd|l _ r _|l _ r _|c _]; cbn [set_argv]; [by apply cmd_ok_exec | | done | done | done].
  destruct Hr as [Hr [a Hd]]. cbn in Hr, Hd. apply bind_Some in Hd as (b & Hb & Hd). apply Forall_app in Hr as [Hr Hq].
  destruct IH as [H1 [b' Hb']]; [split; [done | by eexists]|]. split; [cbn; by apply Forall_app|]. cbn. rewrite Hb'. cbn.
  repeat case_bool_decide; try done; by eexists.
Qed.

Lemma parseexec_loop_parsed fuel argv ret s :
  s `suffix_of` line -> (length s < fuel)%nat -> cmd_ok ret -> Forall (token_ok line) argv ->
  parsed s (parseexec_loop fuel argv ret s).
Proof.
  revert argv ret s. induction fuel as [|f IH]; intros argv ret s Hs Hf Hr Ha; [lia|]. cbn [parseexec_loop].
  destruct (peek s [124; 41; 38; 59]) as [b s1] eqn:P. destruct (peek_spec _ _ _ _ P) as (E1 & Hs1 & _).
  destruct b; [split; [done | by apply set_argv_tokens]|].
  destruct (gettoken s1) as [[[tok q] eq] s2] eqn:G.
  assert (s1 `suffix_of` line) as Hl1 by (suffixes).
  destruct (gettoken_spec _ _ _ _ _ (line_no_nul s1 Hl1) G) as [Hs2 Ht].
  destruct (Z.eqb_spec tok 0) as [->|Hn].
  { split; [suffixes | by apply set_argv_tokens]. }
  destruct (Z.eqb_spec tok 97) as [->|]; cbn [negb]; [|apply list_elem_of_further, list_elem_of_here].
  destruct Ht as [(Ht & _)|(_ & Hl2 & Htok)]; [done|]. specialize (Htok eq_refl). apply (token_ok_suffix line) in Htok; [|done].
  case_match; [apply list_elem_of_further, list_elem_of_further, list_elem_of_here|].
  assert (s2 `suffix_of` line) as Hline2 by (suffixes).
  apply (parsed_bind s s2); [suffixes | by apply parseredirs_parsed |]. intros c s3 Hs3 Hc.
  pose proof (skip_ws_shorter s1). pose proof (suffix_shorter _ _ Hs1). pose proof (suffix_shorter _ _ Hs3).
  apply (parsed_suffix s3); [suffixes|].
  apply IH; [suffixes | lia | done | apply Forall_app; rewrite Forall_singleton; done].
Qed.

Lemma parseback_loop_parsed fuel c s :
  s `suffix_of` line -> (length s < fuel)%nat -> cmd_ok c -> parsed s (parseback_loop fuel c s).
Proof.
  revert c s. induction fuel as [|f IH]; intros c s Hs Hf Hc; [lia|]. cbn [parseback_loop].
  destruct (peek s [38]) as [b s1] eqn:P. destruct b; cbn [negb].
  2: { destruct (peek_spec _ _ _ _ P) as (_ & Hs1 & _). done. }
  destruct (gettoken s1) as [[[tok q] eq] s2] eqn:G.
  destruct (peek_token _ _ _ _ _ _ _ Hs P G) as (Hs2 & Hl2 & Hline2).
  apply (parsed_suffix s2); [done|]. apply IH; [done | lia | by apply cmd_ok_back].
Qed.

(** The four functions together, with the fuel each needs. *)
Lemma parse_parsed fuel :
  (forall s, s `suffix_of` line -> (4 * length s + 4 <= fuel)%nat -> parsed s (parseline fuel s)) /\
  (forall s, s `suffix_of` line -> (4 * length s + 3 <= fuel)%nat -> parsed s (parsepipe fuel s)) /\
  (forall s, s `suffix_of` line -> (peek s [40]).1 = true -> (4 * length s + 1 <= fuel)%nat -> parsed s (parseblock fuel s)) /\
  (forall s, s `suffix_of` line -> (4 * length s + 2 <= fuel)%nat -> parsed s (parseexec fuel s)).
Proof.
  induction fuel as [|f (IHl & IHp & IHb & IHe)]; [split_and!; intros; lia|]. split_and!; intros s Hs.
  - intros Hf. cbn [parseline]. apply (parsed_bind s s); [done | apply IHp; [done | lia] |]. intros c s1 Hs1 Hc.
    assert (s1 `suffix_of` line) as Hl1 by (suffixes).
    apply (parsed_bind s s1); [done | apply parseback_loop_parsed; [done | lia | done] |]. intros c1 s2 Hs2 Hc1.
    assert (s2 `suffix_of` line) as Hl2 by (suffixes).
    destruct (peek s2 [59]) as [b s3] eqn:P. destruct b.
    2: { destruct (peek_spec _ _ _ _ P) as (_ & Hs3 & _). split; [suffixes | done]. }
    destruct (gettoken s3) as [[[tok q] eq] s4] eqn:G. destruct (peek_token _ _ _ _ _ _ _ Hl2 P G) as (Hs4 & Hlen4 & Hl4).
    pose proof (suffix_shorter _ _ Hs2). pose proof (suffix_shorter _ _ Hs1).
    apply (parsed_bind s s4); [suffixes | apply IHl; [done | lia] |].
    intros c2 s5 Hs5 Hc2. split; [|by apply cmd_ok_two].
    suffixes.
  - intros Hf. cbn [parsepipe]. apply (parsed_bind s s); [done | apply IHe; [done | lia] |]. intros c s1 Hs1 Hc.
    assert (s1 `suffix_of` line) as Hl1 by (suffixes).
    destruct (peek s1 [124]) as [b s3] eqn:P. destruct b.
    2: { destruct (peek_spec _ _ _ _ P) as (_ & Hs3 & _). split; [suffixes | done]. }
    destruct (gettoken s3) as [[[tok q] eq] s4] eqn:G. destruct (peek_token _ _ _ _ _ _ _ Hl1 P G) as (Hs4 & Hlen4 & Hl4).
    pose proof (suffix_shorter _ _ Hs1).
    apply (parsed_bind s s4); [suffixes | apply IHp; [done | lia] |].
    intros c2 s5 Hs5 Hc2. split; [|by apply cmd_ok_two]. suffixes.
  - intros Hp Hf. cbn [parseblock]. destruct (peek s [40]) as [b s1] eqn:P. cbn in Hp. subst b. cbn [negb].
    destruct (gettoken s1) as [[[tok q] eq] s2] eqn:G. destruct (peek_token _ _ _ _ _ _ _ Hs P G) as (Hs2 & Hlen2 & Hl2).
    apply (parsed_bind s s2); [done | apply IHl; [done | lia] |]. intros c s3 Hs3 Hc.
    assert (s3 `suffix_of` line) as Hl3 by (suffixes).
    destruct (peek s3 [41]) as [b s4] eqn:P2. destruct b; cbn [negb]; [|by do 3 apply list_elem_of_further; apply list_elem_of_here].
    destruct (gettoken s4) as [[[tok2 q2] eq2] s5] eqn:G2. destruct (peek_token _ _ _ _ _ _ _ Hl3 P2 G2) as (Hs5 & Hlen5 & Hl5).
    apply (parsed_suffix s5); [suffixes | by apply parseredirs_parsed].
  - intros Hf. cbn [parseexec]. destruct (peek s [40]) as [b s1] eqn:P. destruct (peek_spec _ _ _ _ P) as (E1 & Hs1 & _).
    assert (s1 `suffix_of` line) as Hl1 by (suffixes). pose proof (suffix_shorter _ _ Hs1). destruct b.
    + apply (parsed_suffix s1); [done|]. apply IHb; [done | | lia].
      unfold peek in P |- *. injection P as <- <-. by rewrite skip_ws_idem.
    + apply (parsed_bind s s1); [done | apply parseredirs_parsed; [done | apply cmd_ok_exec; constructor] |]. intros c s2 Hs2 Hc.
      apply (parsed_suffix s2); [suffixes|]. apply parseexec_loop_parsed; [suffixes | lia | done | constructor].
Qed.

End Line.

(** ** Terminating the words *)

(** The store of one token's NUL. *)
Definition nul_token (line buf : list Z) (t : ptr * ptr) : list Z := nul_at line t.2 buf.

Lemma nulterminate_fold line c buf :
  nulterminate line c buf = foldl (nul_token line) buf (tokens c).
Proof.
  revert buf. induction c as [argv|c IH q eq m fd|l IHl r IHr|l IHl r IHr|c IH]; intros buf; cbn; [done|..].
  - by rewrite foldl_app, IH.
  - by rewrite foldl_app, IHl, IHr.
  - by rewrite foldl_app, IHl, IHr.
  - by rewrite IH.
Qed.

(** Where the NUL of a token goes. *)
Definition nul_pos (line : list Z) (t : ptr * ptr) : nat := (length line - length t.2)%nat.

Lemma nul_fold_length line ts buf : length (foldl (nul_token line) buf ts) = length buf.
Proof. revert buf. induction ts as [|t ts IH]; intros buf; [done|]. cbn. rewrite IH. unfold nul_token, nul_at. apply length_insert. Qed.

Lemma nul_fold_other line ts buf i :
  i ∉ nul_pos line <$> ts -> foldl (nul_token line) buf ts !! i = buf !! i.
Proof.
  revert buf. induction ts as [|t ts IH]; intros buf Hi; [done|]. cbn in Hi |- *.
  apply not_elem_of_cons in Hi as [H1 H2]. rewrite IH by done. unfold nul_token, nul_at.
  by rewrite list_lookup_insert_ne by (intros E; apply H1; unfold nul_pos; lia).
Qed.

Lemma nul_fold_in line ts buf t :
  t ∈ ts -> (nul_pos line t < length buf)%nat -> foldl (nul_token line) buf ts !! nul_pos line t = Some 0.
Proof.
  revert buf t. induction ts as [|t0 ts IH]; intros buf t Ht Hl; [by apply not_elem_of_nil in Ht|]. cbn.
  destruct (decide (nul_pos line t ∈ nul_pos line <$> ts)) as [Hin|Hout].
  - apply list_elem_of_fmap in Hin as (t' & E & Hin). rewrite E in *. apply IH; [done|]. unfold nul_token, nul_at. by rewrite length_insert.
  - rewrite nul_fold_other by done. apply elem_of_cons in Ht as [->|Ht].
    + apply list_lookup_insert_eq. exact Hl.
    + exfalso. apply Hout, list_elem_of_fmap. eauto.
Qed.

Lemma cstr_of_word w rest : no_nul w -> cstr_of (w ++ 0 :: rest) = w.
Proof.
  induction w as [|c w IH]; intros Hw; [done|]. apply Forall_cons in Hw as [Hc Hw]. cbn.
  destruct (Z.eqb_spec c 0); [done|]. by rewrite IH.
Qed.

(** Word characters are never overwritten: a NUL replaces the character after a
    word, which is none. *)
Lemma nul_pos_not_word line t i c :
  token_ok line t -> (line ++ [0]) !! i = Some c -> wordchar c = true -> i <> nul_pos line t.
Proof.
  intros (w & E & _ & _ & Hd & [k Hk]) Hi Hc ->. unfold nul_pos in Hi.
  rewrite Hk, E in Hi. rewrite !length_app in Hi.
  replace (length k + (length w + length t.2) - length t.2)%nat with (length (k ++ w)) in Hi by (rewrite length_app; lia).
  rewrite (app_assoc k w), <-app_assoc in Hi. rewrite lookup_app_r in Hi by lia. rewrite Nat.sub_diag in Hi.
  destruct t as [q [|e eq]]; cbn in *; injection Hi as <-; [done|]. congruence.
Qed.

Lemma string_at_token line ts t :
  Forall (token_ok line) ts -> t ∈ ts ->
  exists w, t.1 = w ++ t.2 /\ w <> [] /\ Forall (fun c => wordchar c = true) w /\
    string_at line (foldl (nul_token line) (line ++ [0]) ts) t.1 = w.
Proof.
  intros Hts Ht. pose proof (proj1 (Forall_forall _ _) Hts t Ht) as (w & E & Hne & Hw & Hd & [k Hk]).
  exists w. do 3 (split; [done|]). unfold string_at. set (buf := foldl _ _ ts).
  assert (length buf = length (line ++ [0])) as Hlen by apply nul_fold_length.
  assert (length line = (length k + length w + length t.2)%nat) as Hll by (rewrite Hk, E, !length_app; lia).
  assert (forall i, (i < length w)%nat -> buf !! (length k + i)%nat = w !! i) as Hin.
  { intros i Hi. assert ((line ++ [0]) !! (length k + i)%nat = w !! i) as El.
    { rewrite Hk, E, <-!app_assoc, lookup_app_r by lia. replace (length k + i - length k)%nat with i by lia.
      by rewrite lookup_app_l. }
    destruct (lookup_lt_is_Some_2 w i Hi) as [c Ec]. rewrite <-El. apply nul_fold_other.
    intros Hp. apply list_elem_of_fmap in Hp as (t' & Ep & Ht').
    eapply (nul_pos_not_word line t'); [by apply (proj1 (Forall_forall _ _) Hts) | rewrite El; exact Ec | | exact Ep].
    by eapply (proj1 (Forall_lookup _ _) Hw). }
  assert (buf !! (length k + length w)%nat = Some 0) as Hend.
  { replace (length k + length w)%nat with (nul_pos line t) by (unfold nul_pos; lia).
    apply nul_fold_in; [done|]. unfold nul_pos. rewrite length_app. cbn. lia. }
  replace (length line - length t.1)%nat with (length k) by (rewrite E, length_app; lia).
  assert (drop (length k) buf = w ++ 0 :: drop (length k + length w + 1) buf) as ->.
  { apply list_eq. intros i. rewrite lookup_drop. destruct (decide (i < length w)%nat) as [Hi|Hi].
    - by rewrite Hin, lookup_app_l.
    - rewrite lookup_app_r by lia. destruct (i - length w)%nat as [|j] eqn:Ej; cbn [lookup list_lookup].
      + by replace (length k + i)%nat with (length k + length w)%nat by lia.
      + etrans; [|symmetry; apply lookup_drop]. f_equal. lia. }
  apply cstr_of_word. eapply Forall_impl; [exact Hw|]. intros c Hc. by apply wordchar_not_symbol.
Qed.

(** C27: The shell's parser stops on every line, with one of its four syntax
    errors or a command.  It never reaches the check that ends in panic
    parseblock.  Every argument and file name of the command is a maximal
    non-empty word of the line (no blanks, no symbols), and after
    [nulterminate] the C string that starts at its pointer is exactly that
    word. *)
Theorem parsecmd_total line :
  no_nul line ->
  match parsecmd line with
  | Ok (c, buf) =>
      length buf = S (length line) /\
      forall t, t ∈ tokens c ->
        exists w, t.1 = w ++ t.2 /\ t.1 `suffix_of` line /\ w <> [] /\ Forall (fun c => wordchar c = true) w /\
          wordchar (deref t.2) = false /\ string_at line buf t.1 = w
  | Panic m => m ∈ syntax_errors
  | Sleeps _ => False
  end.
Proof.
  intros Hline. destruct (parse_parsed line Hline (4 * length line + 4)) as (Hp & _).
  specialize (Hp line ltac:(done) ltac:(lia)). unfold parsecmd.
  destruct (parseline (4 * length line + 4) line) as [[c s]| |]; cbn [mbind result_bind]; [|done|done].
  destruct Hp as [_ [Hts _]]. destruct (negb _); [apply list_elem_of_further, list_elem_of_here|].
  rewrite nulterminate_fold. split; [rewrite nul_fold_length, length_app; cbn; lia|].
  intros t Ht. destruct (string_at_token line (tokens c) t Hts Ht) as (w & E & Hne & Hw & Hs).
  destruct (proj1 (Forall_forall _ _) Hts t Ht) as (w' & _ & _ & _ & Hd & Hsuf).
  exists w. done.
Qed.

Definition chars (s : string) : list Z := (fun a => Z.of_N (Ascii.N_of_ascii a)) <$> String.list_ascii_of_string s.

Lemma parsecmd_total_witness :
  exists c buf, parsecmd (chars "ls -l | (wc; cat >> out) &") = Ok (c, buf) /\ length buf = 27%nat.
Proof.
  assert (no_nul (chars "ls -l | (wc; cat >> out) &")) as Hn.
  { unfold no_nul. apply (bool_decide_unpack _). vm_compute. exact I. }
  pose proof (parsecmd_total (chars "ls -l | (wc; cat >> out) &") Hn) as H.
  destruct (parsecmd (chars "ls -l | (wc; cat >> out) &")) as [[c buf]|m|ch] eqn:E.
  - exists c, buf. split; [reflexivity|]. exact (proj1 H).
  - exfalso. vm_compute in E. discriminate E.
  - destruct H.
Defined.

(** ** Round trip *)

(** Texts end in a blank, so that they can be put one after the other. *)
Definition show_words (ws : list (list Z)) : list Z := ws ≫= fun w => w ++ [32].
Definition show_redir (f : list Z) (out : bool) : list Z := (if out then 62 else 60) :: 32 :: f ++ [32].
Definition paren (b : bool) (t : list Z) : list Z := if b then 40 :: 32 :: t ++ [41; 32] else t.

(** The level says which function has to read the text: 0 [parseline], 1 a
    pipeline with its ampersands, 2 [parsepipe], 3 [parseexec]; a command of a
    lower level is put in parentheses. *)
Fixpoint show (lv : nat) (c : acmd) : list Z :=
  match c with
  | AExec args => show_words args
  | ARedir c f out => show 3 c ++ show_redir f out
  | APipe l r => paren (2 <? lv)%nat (show 3 l ++ 124 :: 32 :: show 2 r)
  | AList l r => paren (0 <? lv)%nat (show 1 l ++ 59 :: 32 :: show 0 r)
  | ABack c => paren (1 <? lv)%nat (show 1 c ++ [38; 32])
  end.

Definition is_word (w : list Z) : Prop := w <> [] /\ Forall (fun c => wordchar c = true) w.

Fixpoint printable (c : acmd) : Prop :=
  match c with
  | AExec args => (length args < MAXARGS)%nat /\ Forall is_word args
  | ARedir c f _ => printable c /\ is_word f
  | APipe l r => printable l /\ printable r
  | AList l r => printable l /\ printable r
  | ABack c => printable c
  end.

(** Case analysis on membership in a list of constants. *)
Ltac elems :=
  repeat match goal with
  | H : _ ∈ _ :: _ |- _ => apply elem_of_cons in H as [H|H]
  | H : _ ∈ [] |- _ => by apply not_elem_of_nil in H
  end.

(** *** Scanning the text *)

Lemma skip_ws_blank s : skip_ws (32 :: s) = skip_ws s.
Proof. done. Qed.

Lemma word_head w s : is_word w -> exists c w', w = c :: w' /\ wordchar c = true /\ skip_ws (w ++ s) = w ++ s.
Proof.
  intros [Hne Hw]. destruct w as [|c w']; [done|]. exists c, w'. apply Forall_cons in Hw as [Hc _].
  split; [done|]. split; [done|]. apply skip_ws_id. cbn. destruct (wordchar_not_symbol c Hc) as (_ & H & _).
  by destruct (strchr_in_spec whitespace c).
Qed.

Lemma skip_word_word w s : Forall (fun c => wordchar c = true) w -> skip_word (w ++ 32 :: s) = 32 :: s.
Proof.
  induction w as [|c w IH]; intros Hw; [done|]. apply Forall_cons in Hw as [Hc Hw]. cbn.
  unfold wordchar in Hc. apply andb_prop in Hc as [Hc H3]. apply andb_prop in Hc as [_ H2]. rewrite H2, H3. by apply IH.
Qed.

Lemma word_of_word w s : word_of (w ++ s) s = w.
Proof. unfold word_of. rewrite length_app. by rewrite take_app_length' by lia. Qed.

Lemma gettoken_word w s s0 :
  is_word w -> skip_ws s0 = w ++ 32 :: s -> gettoken s0 = (97, w ++ 32 :: s, 32 :: s, skip_ws s).
Proof.
  intros Hw E. destruct (word_head w (32 :: s) Hw) as (c & w' & -> & Hc & _). unfold gettoken. rewrite E. cbn [app deref hd tl].
  destruct (wordchar_not_symbol c Hc) as (H1 & _ & H3).
  assert (forall x, x ∈ symbols -> (c =? x) = false) as Hx by (intros x Hx; destruct (Z.eqb_spec c x); [by subst | done]).
  destruct (Z.eqb_spec c 0); [done|]. rewrite !Hx by (apply (bool_decide_unpack _); vm_compute; exact I). cbn [orb].
  pose proof (skip_word_word (c :: w') s (proj2 Hw)) as Es. cbn [app] in Es. rewrite Es. done.
Qed.

Lemma gettoken_symbol c s s0 :
  c ∈ [124; 40; 41; 59; 38; 60] -> skip_ws s0 = c :: s -> gettoken s0 = (c, c :: s, s, skip_ws s).
Proof.
  intros Hc E. unfold gettoken. rewrite E. cbn [deref hd tl].
  rewrite !elem_of_cons, elem_of_nil in Hc. by destruct Hc as [->|[->|[->|[->|[->|[->|[]]]]]]].
Qed.

Lemma gettoken_gt s s0 : skip_ws s0 = 62 :: 32 :: s -> gettoken s0 = (62, 62 :: 32 :: s, 32 :: s, skip_ws s).
Proof. intros E. unfold gettoken. by rewrite E. Qed.

Lemma peek_at s toks c t : skip_ws s = c :: t -> c <> 0 -> peek s toks = (strchr_in toks c, c :: t).
Proof. intros E Hc. unfold peek. rewrite E. cbn. by destruct (Z.eqb_spec c 0). Qed.

(** The next token is one of [l] (0: the end). *)
Definition next_in (l : list Z) (s : ptr) : Prop := deref (skip_ws s) ∈ l.

Lemma peek_none s toks l : next_in l s -> (forall c, c ∈ l -> c <> 0 -> c ∉ toks) -> peek s toks = (false, skip_ws s).
Proof.
  intros Hn Hd. unfold peek. destruct (Z.eqb_spec (deref (skip_ws s)) 0) as [E|E]; [done|]. cbn. f_equal.
  destruct (strchr_in_spec toks (deref (skip_ws s))); [|done]. by destruct (Hd _ Hn E).
Qed.

Lemma skip_ws_app s t : skip_ws s <> [] -> skip_ws (s ++ t) = skip_ws s ++ t.
Proof. induction s as [|c s IH]; [done|]. cbn. by destruct (strchr_in whitespace c). Qed.

Lemma skip_ws_app_len u s : (length (skip_ws s) <= length (skip_ws (u ++ s)))%nat.
Proof.
  induction u as [|c u IH]; [done|]. cbn. destruct (strchr_in whitespace c); [done|].
  pose proof (suffix_shorter _ _ (skip_ws_suffix s)). cbn. rewrite length_app. lia.
Qed.

(** *** Redirections *)

Definition show_redirs (rs : list (list Z * bool)) : list Z := rs ≫= fun r => show_redir r.1 r.2.
Definition awrap (rs : list (list Z * bool)) (c : acmd) : acmd := foldl (fun c r => ARedir c r.1 r.2) c rs.

Definition redir_cmd (c : cmd) (t : ptr * ptr * bool) : cmd :=
  let '(q, eq, out) := t in
  if (out : bool) then REDIR c q eq (Z.lor O_WRONLY O_CREATE) 1 else REDIR c q eq O_RDONLY 0.
Definition cwrap (ts : list (ptr * ptr * bool)) (c : cmd) : cmd := foldl redir_cmd c ts.
Definition redir_word (t : ptr * ptr * bool) : list Z * bool := (word_of t.1.1 t.1.2, t.2).

Lemma denote_cwrap ts c a : denote c = Some a -> denote (cwrap ts c) = Some (awrap (redir_word <$> ts) a).
Proof.
  revert c a. induction ts as [|[[q eq] out] ts IH]; intros c a Ha; [done|].
  change (cwrap ((q, eq, out) :: ts) c) with (cwrap ts (redir_cmd c (q, eq, out))).
  rewrite (IH _ (ARedir a (word_of q eq) out)); [done|]. unfold redir_cmd. destruct out; cbn; rewrite Ha; done.
Qed.

Lemma set_argv_cwrap argv a0 ts : set_argv argv (cwrap ts (EXEC a0)) = cwrap ts (EXEC argv).
Proof.
  assert (forall c, set_argv argv (cwrap ts c) = cwrap ts (set_argv argv c)) as H; [|by rewrite H].
  induction ts as [|[[q eq] out] ts IH]; intros c; [done|].
  change (cwrap ((q, eq, out) :: ts) ?x) with (cwrap ts (redir_cmd x (q, eq, out))). rewrite IH. by destruct out.
Qed.

Lemma parseredirs_text fuel rs rest c s :
  skip_ws s = skip_ws (show_redirs rs ++ rest) -> Forall (fun r => is_word r.1) rs ->
  deref (skip_ws rest) ∉ [60; 62] -> (length s < fuel)%nat ->
  exists ts, parseredirs_loop fuel c s = Ok (cwrap ts c, skip_ws rest) /\ redir_word <$> ts = rs.
Proof.
  revert rs c s. induction fuel as [|f IH]; intros rs c s Hs Hrs Hrest Hf; [lia|]. cbn [parseredirs_loop].
  destruct rs as [|[w out] rs].
  - cbn in Hs. exists []. split; [|done]. unfold peek. rewrite Hs.
    destruct (strchr_in_spec [60; 62] (deref (skip_ws rest))); [done|]. by rewrite andb_false_r.
  - apply Forall_cons in Hrs as [Hw Hrs]. cbn [fst] in Hw.
    change (show_redirs ((w, out) :: rs)) with (show_redir w out ++ show_redirs rs) in Hs.
    unfold show_redir in Hs. cbn [fst snd] in Hs. rewrite <-!app_assoc in Hs.
    set (c0 := if out then 62 else 60) in *. cbn [app] in Hs.
    assert (c0 ∈ [60; 62]) as Hc0 by (unfold c0; destruct out; set_solver).
    assert (skip_ws s = c0 :: 32 :: w ++ 32 :: show_redirs rs ++ rest) as Es.
    { rewrite Hs, <-app_assoc. apply skip_ws_id. unfold c0. by destruct out. }
    rewrite (peek_at s _ _ _ Es) by (unfold c0; by destruct out).
    destruct (strchr_in_spec [60; 62] c0); [|done]. cbn [negb].
    set (t := c0 :: 32 :: w ++ 32 :: show_redirs rs ++ rest) in *.
    assert (gettoken t = (c0, t, 32 :: w ++ 32 :: show_redirs rs ++ rest, w ++ 32 :: show_redirs rs ++ rest)) as ->.
    { destruct (word_head w (32 :: show_redirs rs ++ rest) Hw) as (x & w' & _ & _ & Ew).
      assert (skip_ws t = t) as Et by (apply skip_ws_id; unfold t, c0; by destruct out).
      unfold t, c0 in *. destruct out.
      - rewrite (gettoken_gt (w ++ 32 :: show_redirs rs ++ rest)) by done. by rewrite Ew.
      - rewrite (gettoken_symbol 60 (32 :: w ++ 32 :: show_redirs rs ++ rest)) by (set_solver || done).
        by rewrite skip_ws_blank, Ew. }
    destruct (word_head w (32 :: show_redirs rs ++ rest) Hw) as (x & w' & _ & _ & Ew).
    rewrite (gettoken_word w (show_redirs rs ++ rest) _ Hw Ew). cbn [Z.eqb Pos.eqb negb].
    destruct (IH rs (redir_cmd c (w ++ 32 :: show_redirs rs ++ rest, 32 :: show_redirs rs ++ rest, out))
                (skip_ws (show_redirs rs ++ rest))) as (ts & E & Ets).
    + by rewrite skip_ws_idem.
    + done.
    + done.
    + pose proof (suffix_shorter _ _ (skip_ws_suffix (show_redirs rs ++ rest))).
      pose proof (suffix_shorter _ _ (skip_ws_suffix s)). rewrite Es in *. unfold t in *. cbn in *. rewrite !length_app in *. cbn in *.
      rewrite !length_app in *. lia.
    + exists ((w ++ 32 :: show_redirs rs ++ rest, 32 :: show_redirs rs ++ rest, out) :: ts). split.
      * etrans; [|exact E]. f_equal. unfold c0. by destruct out.
      * rewrite fmap_cons, Ets. f_equal. unfold redir_word. cbn [fst snd]. by rewrite word_of_word.
Qed.

(** *** Arguments *)

Lemma parseexec_loop_text fuel args rs rest argv ts0 s :
  skip_ws s = skip_ws (show_words args ++ show_redirs rs ++ rest) ->
  Forall is_word args -> Forall (fun r => is_word r.1) rs -> (args = [] -> rs = []) ->
  next_in [0; 124; 41; 38; 59] rest -> (length argv + length args < MAXARGS)%nat -> (length s < fuel)%nat ->
  exists argv' ts, parseexec_loop fuel argv (cwrap ts0 (EXEC [])) s = Ok (cwrap (ts0 ++ ts) (EXEC (argv ++ argv')), skip_ws rest) /\
    (fun t => word_of t.1 t.2) <$> argv' = args /\ redir_word <$> ts = rs.
Proof.
  revert args rs argv ts0 s. induction fuel as [|f IH]; intros args rs argv ts0 s Hs Hargs Hrs Hnil Hrest Hmax Hf; [lia|].
  cbn [parseexec_loop]. destruct args as [|w args].
  - rewrite (Hnil eq_refl) in *. cbn in Hs. exists [], []. rewrite !app_nil_r, set_argv_cwrap.
    split; [|done]. unfold peek. rewrite Hs. unfold next_in in Hrest.
    destruct (Z.eqb_spec (deref (skip_ws rest)) 0) as [E|E]; cbn [negb andb].
    + unfold gettoken. rewrite skip_ws_idem, E. cbn. by rewrite skip_ws_idem.
    + destruct (strchr_in_spec [124; 41; 38; 59] (deref (skip_ws rest))) as [Hin|Hin]; [done|].
      exfalso. apply elem_of_cons in Hrest as [?|?]; done.
  - apply Forall_cons in Hargs as [Hw Hargs]. set (t := show_words args ++ show_redirs rs ++ rest) in *.
    assert (show_words (w :: args) ++ show_redirs rs ++ rest = w ++ 32 :: t) as Et.
    { change (show_words (w :: args)) with ((w ++ [32]) ++ show_words args). by rewrite <-!app_assoc. }
    rewrite Et in Hs. destruct (word_head w (32 :: t) Hw) as (c & w' & Ewc & Hc & Ew). rewrite Ew in Hs.
    destruct (wordchar_not_symbol c Hc) as (Hsym & _ & Hc0).
    assert (skip_ws s = c :: w' ++ 32 :: t) as Hs' by (rewrite Hs, Ewc; done).
    rewrite (peek_at s _ c _ Hs' Hc0).
    destruct (strchr_in_spec [124; 41; 38; 59] c) as [Hin|_]; [exfalso; apply Hsym; set_solver|].
    assert (skip_ws (c :: w' ++ 32 :: t) = w ++ 32 :: t) as Hs2 by (rewrite <-Hs', skip_ws_idem; done).
    rewrite (gettoken_word w t _ Hw Hs2). cbn [Z.eqb Pos.eqb negb].
    destruct (Nat.leb_spec MAXARGS (length (argv ++ [(w ++ 32 :: t, 32 :: t)]))) as [Hbad|_].
    { rewrite length_app in Hbad. cbn in Hbad, Hmax. lia. }
    assert (length (skip_ws t) < length (skip_ws s))%nat as Hlt.
    { pose proof (suffix_shorter _ _ (skip_ws_suffix t)). rewrite Hs'. cbn. rewrite length_app. cbn. lia. }
    pose proof (suffix_shorter _ _ (skip_ws_suffix s)) as Hls. unfold parseredirs.
    destruct args as [|w2 args].
    + destruct (parseredirs_text (S (length (skip_ws t))) rs rest (cwrap ts0 (EXEC [])) (skip_ws t)) as (ts & Er & Ets);
        [unfold t; by rewrite skip_ws_idem | done | | lia |].
      { unfold next_in in Hrest. intros Hin. elems; congruence. }
      rewrite Er. cbn [mbind result_bind]. unfold cwrap. rewrite <-foldl_app. fold (cwrap (ts0 ++ ts) (EXEC [])).
      destruct (IH [] [] (argv ++ [(w ++ 32 :: t, 32 :: t)]) (ts0 ++ ts) (skip_ws rest)) as (argv' & ts' & El & Ea & Ets');
        [apply skip_ws_idem | constructor | constructor | done | done | rewrite length_app; cbn in *; lia | |].
      { pose proof (skip_ws_app_len (show_redirs rs) rest). unfold t in *. cbn in *. lia. }
      apply fmap_nil_inv in Ea as ->. apply fmap_nil_inv in Ets' as ->. rewrite !app_nil_r in El.
      exists [(w ++ 32 :: t, 32 :: t)], ts. split; [exact El|]. rewrite fmap_cons. cbn [fst snd]. by rewrite word_of_word.
    + destruct (parseredirs_text (S (length (skip_ws t))) [] t (cwrap ts0 (EXEC [])) (skip_ws t)) as (ts & Er & Ets);
        [by rewrite skip_ws_idem | constructor | | lia |].
      { apply Forall_cons in Hargs as [Hw2 _].
        assert (t = w2 ++ 32 :: show_words args ++ show_redirs rs ++ rest) as Et2.
        { unfold t. change (show_words (w2 :: args)) with ((w2 ++ [32]) ++ show_words args). by rewrite <-!app_assoc. }
        destruct (word_head w2 (32 :: show_words args ++ show_redirs rs ++ rest) Hw2) as (c2 & w2' & E2 & Hc2 & Ew2).
        rewrite Et2, Ew2, E2. cbn. destruct (wordchar_not_symbol c2 Hc2) as (Hsym2 & _). intros Hin. apply Hsym2. set_solver. }
      apply fmap_nil_inv in Ets as ->. rewrite Er. cbn [mbind result_bind cwrap foldl].
      destruct (IH (w2 :: args) rs (argv ++ [(w ++ 32 :: t, 32 :: t)]) ts0 (skip_ws t)) as (argv' & ts' & El & Ea & Ets');
        [unfold t; by rewrite skip_ws_idem | done | done | done | done | rewrite length_app; cbn in *; lia | lia |].
      exists ((w ++ 32 :: t, 32 :: t) :: argv'), ts'. rewrite <-app_assoc in El. split; [exact El|].
      rewrite fmap_cons. cbn [fst snd]. by rewrite word_of_word, Ea.
Qed.

(** *** Background commands *)

Fixpoint amps (k : nat) : list Z := match k with O => [] | S k => 38 :: 32 :: amps k end.
Fixpoint abacks (k : nat) (c : acmd) : acmd := match k with O => c | S k => abacks k (ABack c) end.
Fixpoint cbacks (k : nat) (c : cmd) : cmd := match k with O => c | S k => cbacks k (BACK c) end.

Lemma denote_cbacks k c a : denote c = Some a -> denote (cbacks k c) = Some (abacks k a).
Proof. revert c a. induction k as [|k IH]; intros c a Ha; [done|]. cbn. apply IH. cbn. by rewrite Ha. Qed.

Lemma parseback_text f k c s rest :
  skip_ws s = skip_ws (amps k ++ rest) -> next_in [0; 41; 59] rest -> (length s < f)%nat ->
  parseback_loop f c s = Ok (cbacks k c, skip_ws rest).
Proof.
  revert k c s. induction f as [|f IH]; intros k c s Hs Hrest Hf; [lia|]. cbn [parseback_loop]. destruct k as [|k].
  - cbn in Hs. rewrite (peek_none s [38] [0; 41; 59]); [by rewrite Hs | by unfold next_in; rewrite Hs |].
    intros x Hx Hx0 Hin. elems; congruence.
  - assert (skip_ws s = 38 :: 32 :: amps k ++ rest) as Es by (rewrite Hs; done).
    rewrite (peek_at s _ _ _ Es) by done. cbn [negb strchr_in].
    rewrite (gettoken_symbol 38 (32 :: amps k ++ rest)) by (done || set_solver).
    apply (IH k (BACK c)); [by rewrite skip_ws_idem | done |].
    pose proof (suffix_shorter _ _ (skip_ws_suffix s)) as H1. rewrite Es in H1.
    pose proof (suffix_shorter _ _ (skip_ws_suffix (32 :: amps k ++ rest))) as H2. cbn [length] in *. lia.
Qed.

(** *** Commands *)

(** The four parsing functions on the text of [c]: each stops behind it. *)
Definition line_reads (c : acmd) : Prop := forall fuel s rest,
  skip_ws s = skip_ws (show 0 c ++ rest) -> next_in [0; 41] rest -> (4 * length s + 4 <= fuel)%nat ->
  exists c', parseline fuel s = Ok (c', skip_ws rest) /\ denote c' = Some c.

Definition back_reads (c : acmd) : Prop := forall fuel s k rest,
  skip_ws s = skip_ws (show 1 c ++ amps k ++ rest) -> next_in [0; 41; 59] rest -> (4 * length s + 3 <= fuel)%nat ->
  exists c' c1 s1, parsepipe fuel s = Ok (c1, s1) /\ parseback_loop (S (length s1)) c1 s1 = Ok (c', skip_ws rest) /\
    denote c' = Some (abacks k c).

Definition pipe_reads (c : acmd) : Prop := forall fuel s rest,
  skip_ws s = skip_ws (show 2 c ++ rest) -> next_in [0; 41; 38; 59] rest -> (4 * length s + 3 <= fuel)%nat ->
  exists c', parsepipe fuel s = Ok (c', skip_ws rest) /\ denote c' = Some c.

Definition exec_reads (c : acmd) : Prop := forall fuel s rs rest,
  skip_ws s = skip_ws (show 3 c ++ show_redirs rs ++ rest) -> Forall (fun r => is_word r.1) rs ->
  next_in [0; 124; 41; 38; 59] rest -> (4 * length s + 2 <= fuel)%nat ->
  exists c', parseexec fuel s = Ok (c', skip_ws rest) /\ denote c' = Some (awrap rs c).

Lemma next_in_weaken l l' s : (forall x, x ∈ l -> x ∈ l') -> next_in l s -> next_in l' s.
Proof. unfold next_in. auto. Qed.

Lemma next_in_skip l s : next_in l (skip_ws s) <-> next_in l s.
Proof. unfold next_in. by rewrite skip_ws_idem. Qed.

(** From one level to the next, where the texts agree. *)
Lemma exec_to_pipe c : show 2 c = show 3 c -> exec_reads c -> pipe_reads c.
Proof.
  intros Es He fuel s rest Hs Hr Hf. destruct fuel as [|f]; [lia|]. cbn [parsepipe].
  destruct (He f s [] rest) as (c' & E & D); [by rewrite <-Es | constructor | | lia |].
  { eapply next_in_weaken; [|exact Hr]. intros x Hx. elems; subst; set_solver. }
  rewrite E. cbn [mbind result_bind].
  rewrite (peek_none _ [124] [0; 41; 38; 59]); [|by apply next_in_skip | intros x Hx Hx0 Hin; elems; congruence].
  exists c'. rewrite skip_ws_idem. done.
Qed.

Lemma pipe_to_back c : show 1 c = show 2 c -> pipe_reads c -> back_reads c.
Proof.
  intros Es Hp fuel s k rest Hs Hr Hf. destruct (Hp fuel s (amps k ++ rest)) as (c1 & E & D).
  - by rewrite <-Es.
  - destruct k as [|k]; [|unfold next_in; cbn; set_solver].
    eapply next_in_weaken; [|exact Hr]. intros x Hx. elems; subst; set_solver.
  - done.
  - exists (cbacks k c1), c1, (skip_ws (amps k ++ rest)). split; [done|]. split.
    + apply parseback_text; [apply skip_ws_idem | done | lia].
    + by apply denote_cbacks.
Qed.

Lemma back_to_line c : show 0 c = show 1 c -> back_reads c -> line_reads c.
Proof.
  intros Es Hb fuel s rest Hs Hr Hf. destruct fuel as [|f]; [lia|]. cbn [parseline].
  destruct (Hb f s 0%nat rest) as (c' & c1 & s1 & E1 & E2 & D); [by rewrite <-Es | | lia |].
  { eapply next_in_weaken; [|exact Hr]. intros x Hx. elems; subst; set_solver. }
  rewrite E1. cbn [mbind result_bind]. rewrite E2. cbn [mbind result_bind].
  rewrite (peek_none _ [59] [0; 41]); [|by apply next_in_skip | intros x Hx Hx0 Hin; elems; congruence].
  exists c'. rewrite skip_ws_idem. done.
Qed.

(** A parenthesised line. *)
Lemma line_to_exec c : show 3 c = paren true (show 0 c) -> line_reads c -> exec_reads c.
Proof.
  intros Es Hl fuel s rs rest Hs Hrs Hr Hf. rewrite Es in Hs. cbn [paren] in Hs.
  set (tail := show_redirs rs ++ rest) in *.
  assert (skip_ws s = 40 :: 32 :: show 0 c ++ 41 :: 32 :: tail) as Ec.
  { rewrite Hs. cbn [app]. rewrite <-app_assoc. done. }
  pose proof (suffix_shorter _ _ (skip_ws_suffix s)) as Hls. rewrite Ec in Hls. cbn [length] in Hls.
  destruct fuel as [|[|f]]; [lia | lia |]. cbn [parseexec]. rewrite (peek_at s _ _ _ Ec) by done. cbn [strchr_in bool_decide].
  set (s1 := 40 :: 32 :: show 0 c ++ 41 :: 32 :: tail) in *. cbn [parseblock].
  assert (skip_ws s1 = s1) as E1 by done. rewrite (peek_at s1 _ _ _ E1) by done. cbn [negb strchr_in].
  rewrite (gettoken_symbol 40 (32 :: show 0 c ++ 41 :: 32 :: tail)) by (done || set_solver).
  pose proof (suffix_shorter _ _ (skip_ws_suffix (32 :: show 0 c ++ 41 :: 32 :: tail))) as Hl2. cbn [length] in Hl2.
  destruct (Hl f (skip_ws (32 :: show 0 c ++ 41 :: 32 :: tail)) (41 :: 32 :: tail)) as (c1 & Ep & D);
    [by rewrite skip_ws_idem | unfold next_in; cbn; set_solver | lia |].
  cbn [bool_decide decide_rel]. rewrite Ep. cbn [mbind result_bind].
  assert (skip_ws (skip_ws (41 :: 32 :: tail)) = 41 :: 32 :: tail) as E4 by done.
  rewrite (peek_at _ _ _ _ E4) by done. cbn [negb strchr_in].
  rewrite (gettoken_symbol 41 (32 :: tail)) by (done || set_solver). rewrite skip_ws_blank.
  destruct (parseredirs_text (S (length (skip_ws tail))) rs rest c1 (skip_ws tail)) as (ts & Er & Ets);
    [by rewrite skip_ws_idem | done | | lia |].
  { unfold next_in in Hr. intros Hin. elems; congruence. }
  unfold parseredirs. exists (cwrap ts c1). split; [exact Er|]. rewrite (denote_cwrap ts c1 c D). by rewrite Ets.
Qed.

(** *** Simple commands *)

Lemma peek_paren_words args s rest :
  Forall is_word args -> skip_ws s = skip_ws (show_words args ++ rest) -> (args = [] -> deref (skip_ws rest) <> 40) ->
  peek s [40] = (false, skip_ws s).
Proof.
  intros Ha Hs Hr. unfold peek. f_equal. apply andb_false_iff. right.
  destruct (strchr_in_spec [40] (deref (skip_ws s))) as [Hin|]; [exfalso|done]. elems. rewrite Hs in Hin.
  destruct args as [|w args]; [by apply Hr|]. apply Forall_cons in Ha as [Hw _].
  change (show_words (w :: args)) with ((w ++ [32]) ++ show_words args) in Hin. rewrite <-!app_assoc in Hin.
  destruct (word_head w ([32] ++ show_words args ++ rest) Hw) as (c & w' & -> & Hc & E). rewrite E in Hin. cbn in Hin.
  destruct (wordchar_not_symbol c Hc) as (Hsym & _). apply Hsym. subst. set_solver.
Qed.

Lemma redirs_not_paren rs rest :
  next_in [0; 124; 41; 38; 59] rest -> deref (skip_ws (show_redirs rs ++ rest)) <> 40.
Proof.
  intros Hr. destruct rs as [|[w out] rs].
  - cbn. unfold next_in in Hr. intros E. rewrite E in Hr. elems; done.
  - by destruct out.
Qed.

(** A word is not the start of a redirection. *)
Lemma words_no_redir w args rest :
  is_word w -> deref (skip_ws (show_words (w :: args) ++ rest)) ∉ [60; 62].
Proof.
  intros Hw. change (show_words (w :: args)) with ((w ++ [32]) ++ show_words args). rewrite <-!app_assoc.
  destruct (word_head w ([32] ++ show_words args ++ rest) Hw) as (c & w' & -> & Hc & E). rewrite E. cbn.
  destruct (wordchar_not_symbol c Hc) as (Hsym & _). intros Hin. apply Hsym. set_solver.
Qed.

Lemma exec_reads_words args : (length args < MAXARGS)%nat -> Forall is_word args -> exec_reads (AExec args).
Proof.
  intros Hmax Ha fuel s rs rest Hs Hrs Hr Hf. change (show 3 (AExec args)) with (show_words args) in Hs.
  destruct fuel as [|f]; [lia|]. cbn [parseexec].
  rewrite (peek_paren_words args s _ Ha Hs) by (intros _; by apply redirs_not_paren). unfold parseredirs, execcmd.
  destruct args as [|w args].
  - destruct (parseredirs_text (S (length (skip_ws s))) rs rest (EXEC []) (skip_ws s)) as (ts & Er & Ets);
      [by rewrite skip_ws_idem | done | unfold next_in in Hr; intros Hin; elems; congruence | lia |].
    rewrite Er. cbn [mbind result_bind].
    destruct (parseexec_loop_text (S (length (skip_ws rest))) [] [] rest [] ts (skip_ws rest)) as (argv & ts' & El & Ea & Ets');
      [apply skip_ws_idem | constructor | constructor | done | done | done | lia |].
    apply fmap_nil_inv in Ea as ->. apply fmap_nil_inv in Ets' as ->. rewrite app_nil_r in El.
    eexists. split; [exact El|]. rewrite <-Ets. by apply denote_cwrap.
  - destruct (parseredirs_text (S (length (skip_ws s))) [] (show_words (w :: args) ++ show_redirs rs ++ rest) (EXEC []) (skip_ws s))
      as (ts & Er & Ets);
      [by rewrite skip_ws_idem | constructor | apply words_no_redir; by apply Forall_cons in Ha as [? _] | lia |].
    apply fmap_nil_inv in Ets as ->. rewrite Er. cbn [mbind result_bind].
    destruct (parseexec_loop_text (S (length (skip_ws (show_words (w :: args) ++ show_redirs rs ++ rest)))) (w :: args) rs rest [] []
                (skip_ws (show_words (w :: args) ++ show_redirs rs ++ rest))) as (argv & ts' & El & Ea & Ets');
      [by rewrite skip_ws_idem | done | done | done | done | done | lia |].
    eexists. split; [exact El|]. rewrite <-Ets', <-Ea. cbn [app]. by apply denote_cwrap.
Qed.

(** A redirection is read with those that follow it. *)
Lemma exec_reads_redir c f out : is_word f -> exec_reads c -> exec_reads (ARedir c f out).
Proof.
  intros Hw Hc fuel s rs rest Hs Hrs Hr Hf. apply (Hc fuel s ((f, out) :: rs) rest); [|by apply Forall_cons | done | done].
  rewrite Hs. change (show_redirs ((f, out) :: rs)) with (show_redir f out ++ show_redirs rs).
  change (show 3 (ARedir c f out)) with (show 3 c ++ show_redir f out). by rewrite <-!app_assoc.
Qed.

(** *** The operators *)

Lemma pipe_reads_pipe l r : exec_reads l -> pipe_reads r -> pipe_reads (APipe l r).
Proof.
  intros Hl Hr fuel s rest Hs Hn Hf. change (show 2 (APipe l r)) with (show 3 l ++ 124 :: 32 :: show 2 r) in Hs.
  rewrite <-app_assoc in Hs. cbn [app] in Hs. destruct fuel as [|f]; [lia|]. cbn [parsepipe].
  destruct (Hl f s [] (124 :: 32 :: show 2 r ++ rest)) as (l' & El & Dl);
    [exact Hs | constructor | unfold next_in; cbn; set_solver | lia |].
  rewrite El. cbn [mbind result_bind].
  assert (skip_ws (skip_ws (124 :: 32 :: show 2 r ++ rest)) = 124 :: 32 :: show 2 r ++ rest) as E by done.
  rewrite (peek_at _ _ _ _ E) by done. cbn [strchr_in]. rewrite (gettoken_symbol 124 (32 :: show 2 r ++ rest)) by (done || set_solver).
  pose proof (skip_ws_app_len (show 3 l) (124 :: 32 :: show 2 r ++ rest)) as H1. rewrite <-Hs in H1.
  pose proof (suffix_shorter _ _ (skip_ws_suffix s)) as H2. cbn [skip_ws] in H1.
  pose proof (suffix_shorter _ _ (skip_ws_suffix (show 2 r ++ rest))) as H3.
  destruct (Hr f (skip_ws (32 :: show 2 r ++ rest)) rest) as (r' & Er & Dr); [by rewrite skip_ws_idem | done | |].
  { rewrite skip_ws_blank. change (strchr_in whitespace 124) with false in H1. cbn [length] in H1. lia. }
  rewrite Er. cbn [bool_decide decide_rel mbind result_bind]. exists (PIPE l' r'). split; [done|]. cbn. by rewrite Dl, Dr.
Qed.

Lemma line_reads_list l r : back_reads l -> line_reads r -> line_reads (AList l r).
Proof.
  intros Hl Hr fuel s rest Hs Hn Hf. change (show 0 (AList l r)) with (show 1 l ++ 59 :: 32 :: show 0 r) in Hs.
  rewrite <-app_assoc in Hs. cbn [app] in Hs. destruct fuel as [|f]; [lia|]. cbn [parseline].
  destruct (Hl f s 0%nat (59 :: 32 :: show 0 r ++ rest)) as (l' & c1 & s1 & E1 & E2 & Dl);
    [exact Hs | unfold next_in; cbn; set_solver | lia |].
  rewrite E1. cbn [mbind result_bind]. rewrite E2. cbn [mbind result_bind].
  assert (skip_ws (skip_ws (59 :: 32 :: show 0 r ++ rest)) = 59 :: 32 :: show 0 r ++ rest) as E by done.
  rewrite (peek_at _ _ _ _ E) by done. cbn [strchr_in]. rewrite (gettoken_symbol 59 (32 :: show 0 r ++ rest)) by (done || set_solver).
  pose proof (skip_ws_app_len (show 1 l) (59 :: 32 :: show 0 r ++ rest)) as H1. rewrite <-Hs in H1.
  pose proof (suffix_shorter _ _ (skip_ws_suffix s)) as H2. cbn [skip_ws] in H1.
  pose proof (suffix_shorter _ _ (skip_ws_suffix (show 0 r ++ rest))) as H3.
  destruct (Hr f (skip_ws (32 :: show 0 r ++ rest)) rest) as (r' & Er & Dr); [by rewrite skip_ws_idem | done | |].
  { rewrite skip_ws_blank. change (strchr_in whitespace 59) with false in H1. cbn [length] in H1. lia. }
  rewrite Er. cbn [bool_decide decide_rel mbind result_bind]. exists (LIST l' r'). split; [done|]. cbn. by rewrite Dl, Dr.
Qed.

Lemma back_reads_back c : back_reads c -> back_reads (ABack c).
Proof.
  intros Hc fuel s k rest Hs Hn Hf. apply (Hc fuel s (S k) rest); [|done | done].
  rewrite Hs. change (show 1 (ABack c)) with (show 1 c ++ [38; 32]). by rewrite <-!app_assoc.
Qed.

(** Each function reads the text of its level. *)
Lemma reads c : printable c -> line_reads c /\ back_reads c /\ pipe_reads c /\ exec_reads c.
Proof.
  assert (forall c, exec_reads c -> show 2 c = show 3 c -> show 1 c = show 2 c -> show 0 c = show 1 c ->
            line_reads c /\ back_reads c /\ pipe_reads c /\ exec_reads c) as Hup.
  { intros c0 He E2 E1 E0. pose proof (exec_to_pipe c0 E2 He) as Hp. pose proof (pipe_to_back c0 E1 Hp) as Hb.
    pose proof (back_to_line c0 E0 Hb). done. }
  induction c as [args|c IH f out|l IHl r IHr|l IHl r IHr|c IH]; cbn [printable].
  - intros [H1 H2]. apply Hup; [by apply exec_reads_words | done..].
  - intros [H1 H2]. apply Hup; [|done..]. apply exec_reads_redir; [done|]. by apply IH.
  - intros [H1 H2]. assert (pipe_reads (APipe l r)) as Hp by (apply pipe_reads_pipe; [by apply IHl | by apply IHr]).
    assert (back_reads (APipe l r)) as Hb by (by apply pipe_to_back).
    assert (line_reads (APipe l r)) as Hl by (by apply back_to_line). split_and!; try done. by apply line_to_exec.
  - intros [H1 H2]. assert (line_reads (AList l r)) as Hl by (apply line_reads_list; [by apply IHl | by apply IHr]).
    assert (exec_reads (AList l r)) as He by (by apply line_to_exec).
    assert (pipe_reads (AList l r)) as Hp by (by apply exec_to_pipe). split_and!; try done. by apply pipe_to_back.
  - intros H. assert (back_reads (ABack c)) as Hb by (apply back_reads_back; by apply IH).
    assert (line_reads (ABack c)) as Hl by (by apply back_to_line).
    assert (exec_reads (ABack c)) as He by (by apply line_to_exec). split_and!; try done. by apply exec_to_pipe.
Qed.

(** C26: What the printer writes, the parser reads back: for every command of
    fewer than ten arguments each, whose words have no blanks and no symbols,
    [parsecmd] on the command's text succeeds, and the tree it returns is that
    command, with the precedence of the grammar (an ampersand binds a
    pipeline, a semicolon lines, parentheses any line). *)
Theorem parsecmd_roundtrip a :
  printable a -> exists c buf, parsecmd (show 0 a) = Ok (c, buf) /\ denote c = Some a.
Proof.
  intros Ha. destruct (reads a Ha) as (Hl & _). unfold parsecmd.
  destruct (Hl (4 * length (show 0 a) + 4)%nat (show 0 a) []) as (c & E & D);
    [by rewrite app_nil_r | unfold next_in; cbn; set_solver | lia |].
  rewrite E. exists c. eexists. split; [reflexivity | done].
Qed.

(** [( ls a > f & ) | wc ; x &] *)
Definition demo_acmd : acmd :=
  AList (APipe (ABack (ARedir (AExec [chars "ls"; chars "a"]) (chars "f") true)) (AExec [chars "wc"]))
        (ABack (AExec [chars "x"])).

Lemma parsecmd_roundtrip_witness :
  show 0 demo_acmd = chars "( ls a > f & ) | wc ; x & " /\
  exists c buf, parsecmd (show 0 demo_acmd) = Ok (c, buf) /\ denote c = Some demo_acmd.
Proof.
  split; [vm_compute; reflexivity|]. apply parsecmd_roundtrip. cbn [printable demo_acmd].
  repeat split; unfold MAXARGS; try (cbn; lia); apply (bool_decide_unpack _); vm_compute; exact I.
Defined.

(** ** Running: what each program is connected to *)

Section Plumbing.
Context (can_open : list Z -> Z -> bool) (can_exec : list Z -> bool).

(** A process with standard input [i], output [o] and error [e] and nothing
    else open. *)
Definition std (i o e : fobj) : fdtab := Some i :: Some o :: Some e :: replicate 13 None.

Definition redir_mode (out : bool) : Z := if out then Z.lor O_WRONLY O_CREATE else O_RDONLY.

(** The specification: the programs of a command with input [i] and output
    [o]; the pipes are numbered from [n]. *)
Fixpoint plumb (a : acmd) (i o e : fobj) (n : nat) : list event * nat :=
  match a with
  | AExec [] => ([], n)
  | AExec (w :: ws) => (if can_exec w then [EExec (w :: ws) (std i o e)] else [EFail "exec" w], n)
  | ARedir a f out =>
      if can_open f (redir_mode out) then
        if out then plumb a i (OFile f (redir_mode out)) e n else plumb a (OFile f (redir_mode out)) o e n
      else ([EFail "open" f], n)
  | APipe l r =>
      let '(e1, n1) := plumb l i (OPipeW n) e (S n) in
      let '(e2, n2) := plumb r (OPipeR n) o e n1 in
      (e1 ++ e2, n2)
  | AList l r =>
      let '(e1, n1) := plumb l i o e n in
      let '(e2, n2) := plumb r i o e n1 in
      (e1 ++ e2, n2)
  | ABack a => plumb a i o e n
  end.

(** The words of [c], found through [str]. *)
Definition strings_ok (str : ptr -> list Z) (c : cmd) : Prop :=
  Forall (fun t : ptr * ptr => str t.1 = word_of t.1 t.2) (tokens c).

Lemma runcmd_plumb str c a i o e n :
  denote c = Some a -> strings_ok str c -> runcmd can_open can_exec str c (std i o e) n = plumb a i o e n.
Proof.
  unfold strings_ok. revert a i o n.
  induction c as [argv|c IH q eq m fd|l IHl r IHr|l IHl r IHr|c IH]; intros a i o n Hd Hs; cbn [denote tokens] in Hd, Hs.
  - injection Hd as <-. destruct argv as [|t argv]; [done|]. cbn [runcmd].
    assert ((fun a => str a.1) <$> (t :: argv) = (fun t : ptr * ptr => word_of t.1 t.2) <$> (t :: argv)) as E.
    { apply list_fmap_ext. intros j x Hj. by apply (proj1 (Forall_lookup _ _) Hs j). }
    rewrite E. apply Forall_cons in Hs as [Ht _]. cbn beta in Ht. rewrite Ht, fmap_cons. cbn [plumb]. by destruct (can_exec _).
  - apply bind_Some in Hd as (b & Hb & Hd). apply Forall_app in Hs as [Hs Hq]. apply Forall_cons in Hq as [Hq _]. cbn [fst snd] in Hq.
    cbn [runcmd]. rewrite Hq. cbn [fst snd]. case_bool_decide as H1; [|case_bool_decide as H2; [|done]].
    + destruct H1 as [-> ->]. injection Hd as <-. cbn [plumb]. change (redir_mode false) with O_RDONLY.
      destruct (can_open _ _); [|done]. exact (IH b _ o n Hb Hs).
    + destruct H2 as [-> ->]. injection Hd as <-. cbn [plumb]. change (redir_mode true) with (Z.lor O_WRONLY O_CREATE).
      destruct (can_open _ _); [|done]. exact (IH b i _ n Hb Hs).
  - apply bind_Some in Hd as (al & Hl & Hd). apply bind_Some in Hd as (ar & Hr & [= <-]). apply Forall_app in Hs as [Hsl Hsr].
    cbn [runcmd plumb]. change (fd_pipe n (std i o e)) with
      (Some (3%nat, 4%nat, Some i :: Some o :: Some e :: Some (OPipeR n) :: Some (OPipeW n) :: replicate 11 None)).
    cbv iota. change (fd_close 4 (fd_close 3 (fd_dup 4 (fd_close 1 _)))) with (std i (OPipeW n) e).
    rewrite (IHl al i _ (S n) Hl Hsl). destruct (plumb al i (OPipeW n) e (S n)) as [e1 n1].
    change (fd_close 4 (fd_close 3 (fd_dup 3 (fd_close 0 _)))) with (std (OPipeR n) o e).
    by rewrite (IHr ar _ o n1 Hr Hsr).
  - apply bind_Some in Hd as (al & Hl & Hd). apply bind_Some in Hd as (ar & Hr & [= <-]). apply Forall_app in Hs as [Hsl Hsr].
    cbn [runcmd plumb]. rewrite (IHl al i o n Hl Hsl). destruct (plumb al i o e n) as [e1 n1]. by rewrite (IHr ar i o n1 Hr Hsr).
  - apply bind_Some in Hd as (b & Hb & [= <-]). cbn [runcmd plumb]. exact (IH b i o n Hb Hs).
Qed.

Lemma parsecmd_ok line c buf :
  no_nul line -> parsecmd line = Ok (c, buf) -> cmd_ok line c /\ buf = nulterminate line c (line ++ [0]).
Proof.
  intros Hline E. destruct (parse_parsed line Hline (4 * length line + 4)) as (Hp & _).
  specialize (Hp line ltac:(done) ltac:(lia)). unfold parsecmd in E.
  destruct (parseline (4 * length line + 4) line) as [[c' s]| |]; cbn [mbind result_bind] in E; [|done|done].
  destruct Hp as [_ Hok]. destruct (negb _); [done|]. by injection E as <- <-.
Qed.

(** C28: The shell connects programs as the command says.  For every line that
    parses, with descriptors 0, 1 and 2 open and no others, running the
    command starts each program of it with exactly three descriptors: its
    input and output are those of the shell, the files it is redirected to, or
    the ends of the pipe to its neighbour, as the command's structure says,
    and no end of a pipe stays open elsewhere; the arguments are the words of
    the line.  A file that cannot be opened or a program that does not exist
    gives its message and starts nothing. *)
Theorem shell_plumbing line c buf :
  no_nul line -> parsecmd line = Ok (c, buf) ->
  exists a, denote c = Some a /\
    forall i o e n, runcmd can_open can_exec (string_at line buf) c (std i o e) n = plumb a i o e n.
Proof.
  intros Hline E. destruct (parsecmd_ok line c buf Hline E) as [[Hts [a Ha]] ->]. exists a. split; [done|]. intros i o e n.
  apply runcmd_plumb; [done|]. unfold strings_ok. apply Forall_forall. intros t Ht. rewrite nulterminate_fold.
  destruct (string_at_token line (tokens c) t Hts Ht) as (w & Ew & _ & _ & ->). by rewrite Ew, word_of_word.
Qed.

End Plumbing.

Lemma shell_plumbing_witness :
  let line := chars "cat < f | wc > g" in
  exists c buf, parsecmd line = Ok (c, buf) /\
    runcmd (fun _ _ => true) (fun _ => true) (string_at line buf) c (std (OShell 0) (OShell 1) (OShell 2)) 0 =
      ([EExec [chars "cat"] (std (OFile (chars "f") 0) (OPipeW 0) (OShell 2));
        EExec [chars "wc"] (std (OPipeR 0) (OFile (chars "g") 0x201) (OShell 2))], 1%nat).
Proof.
  intros line. assert (no_nul line) as Hn by (unfold no_nul; apply (bool_decide_unpack _); vm_compute; exact I).
  destruct (parsecmd line) as [[c buf]| |] eqn:E; [|discriminate E | discriminate E]. exists c, buf. split; [reflexivity|].
  destruct (shell_plumbing (fun _ _ => true) (fun _ => true) line c buf Hn E) as (a & Ha & Hrun). rewrite Hrun.
  vm_compute in E. injection E as <- <-. vm_compute in Ha. injection Ha as <-. vm_compute. reflexivity.
Defined.
