(* ===== verification/File.v ===== *)
(** Open files, [xv6/base/file.c], with [pipealloc] and [pipeclose] of
    [pipe.c].

    The state holds the file system, the page allocator, the file table and
    the pipes.  A [struct file*] is an index of the table.  A pipe lives in a
    page of its own: [pipes] maps the address of the page to the pipe there.
    [Sleeps] is a routine that waits for a lock or for room in the log; a read
    or a write of a pipe that has to wait has changed the pipe already, so
    [fileread] and [filewrite] return the work that is left. *)

From S2P Require Import Prelude CString Block Bio Log Fs Kalloc Pipe.

Definition NFILE : nat := 100.

Inductive ftype := FD_NONE | FD_PIPE | FD_INODE.

#[export] Instance ftype_eq_dec : EqDecision ftype.
Proof. solve_decision. Defined.

Record file := mkFile {
  f_type : ftype;
  f_ref : Z;
  f_readable : bool;
  f_writable : bool;
  f_pipe : Z;
  f_ip : nat;
  f_off : Z
}.

Definition file0 : file := mkFile FD_NONE 0 false false 0 0 0.

Definition fset_ref (r : Z) (f : file) : file :=
  mkFile (f_type f) r (f_readable f) (f_writable f) (f_pipe f) (f_ip f) (f_off f).
Definition fset_none (f : file) : file :=
  mkFile FD_NONE 0 (f_readable f) (f_writable f) (f_pipe f) (f_ip f) (f_off f).
Definition fset_off (o : Z) (f : file) : file :=
  mkFile (f_type f) (f_ref f) (f_readable f) (f_writable f) (f_pipe f) (f_ip f) o.
Definition fset_pipe (r w : bool) (p : Z) (f : file) : file :=
  mkFile FD_PIPE (f_ref f) r w p (f_ip f) (f_off f).
Definition fset_inode (ip : nat) (r w : bool) (f : file) : file :=
  mkFile FD_INODE (f_ref f) r w (f_pipe f) ip 0.

Record kst (C : Type) := mkKst {
  k_fs : fs C;
  k_kmem : kmem;
  ftable : list file;
  pipes : gmap Z pipe
}.
Arguments mkKst {C} _ _ _ _.
Arguments k_fs {C} _.
Arguments k_kmem {C} _.
Arguments ftable {C} _.
Arguments pipes {C} _.

Section File.
Context {C : Type} {ops : BufOps C}.
(** The running process, whether it has been killed, the end of the kernel,
    and the device switch. *)
Context (pid : Z) (killed : bool) (kend : Z).
Context (dev_read : Z -> option (nat -> Z -> SR (fs C) (Z * list Z))).
Context (dev_write : Z -> option (nat -> list Z -> SR (fs C) Z)).
Abbreviation K := (SR (kst C)).

(** ** Access to the parts of the state *)

Definition lift_fs {A} (m : SR (fs C) A) : K A := fun s =>
  match m (k_fs s) with
  | Ok (a, f) => Ok (a, mkKst f (k_kmem s) (ftable s) (pipes s))
  | Panic msg => Panic msg
  | Sleeps ch => Sleeps ch
  end.
Definition lift_kmem {A} (m : SR kmem A) : K A := fun s =>
  match m (k_kmem s) with
  | Ok (a, k) => Ok (a, mkKst (k_fs s) k (ftable s) (pipes s))
  | Panic msg => Panic msg
  | Sleeps ch => Sleeps ch
  end.
Definition set_pipes (p : gmap Z pipe) : K unit :=
  sr_modify (fun s => mkKst (k_fs s) (k_kmem s) (ftable s) p).

Definition nth_file (s : kst C) (f : nat) : file := default file0 (ftable s !! f).
Definition k_file (f : nat) : K file := sr_gets (fun s => nth_file s f).
Definition k_file_set (f : nat) (g : file -> file) : K unit :=
  sr_modify (fun s => mkKst (k_fs s) (k_kmem s) (alter g f (ftable s)) (pipes s)).

Definition m_begin_op : SR (fs C) unit := fun s =>
  l ← begin_op (fs_log s); Ok (tt, fset_log l (fs_cache s) s).
Definition m_end_op : SR (fs C) unit := fun s =>
  '(l, c) ← end_op (fs_log s) (fs_cache s); Ok (tt, fset_log l c s).

(** ** The file table *)

Definition filealloc : K (option nat) := fun s =>
  match find_idx (fun f => f_ref f =? 0) (ftable s) with
  | Some f => Ok (Some f, mkKst (k_fs s) (k_kmem s) (alter (fset_ref 1) f (ftable s)) (pipes s))
  | None => Ok (None, s)
  end.

Definition filedup (f : nat) : K nat :=
  x ← k_file f;
  if f_ref x <? 1 then sr_panic "filedup"
  else
    _ ← k_file_set f (fset_ref (s32 (f_ref x + 1)));
    mret f.

(** [pipeclose(p, writable)] *)
Definition k_pipeclose (p : Z) (writable : bool) : K unit :=
  ps ← sr_gets pipes;
  match ps !! p with
  | None => sr_panic "pipe page"     (* a pointer to no pipe *)
  | Some x =>
      let '(free, x) := pipeclose writable x in
      if (free : bool) then
        _ ← set_pipes (delete p ps);
        lift_kmem (fun k => k' ← kfree kend p k; Ok (tt, k'))
      else set_pipes (<[p := x]> ps)
  end.

Definition fileclose (f : nat) : K unit :=
  x ← k_file f;
  if f_ref x <? 1 then sr_panic "fileclose"
  else if 0 <? f_ref x - 1 then k_file_set f (fset_ref (f_ref x - 1))
  else
    _ ← k_file_set f fset_none;
    match f_type x with
    | FD_PIPE => k_pipeclose (f_pipe x) (f_writable x)
    | FD_INODE =>
        _ ← lift_fs m_begin_op;
        _ ← lift_fs (iput pid (f_ip x));
        lift_fs m_end_op
    | FD_NONE => mret tt
    end.

(** [None] is the return of -1. *)
Definition filestat (f : nat) : K (option stat) :=
  x ← k_file f;
  match f_type x with
  | FD_INODE =>
      _ ← lift_fs (ilock pid (Some (f_ip x)));
      st ← lift_fs (stati (f_ip x));
      _ ← lift_fs (iunlock pid (Some (f_ip x)));
      mret (Some st)
  | _ => mret None
  end.

(** What is left of the work, or the result, and the bytes stored at [addr]. *)
Definition fileread (f : nat) (n : Z) : K (outcome unit * list Z) :=
  x ← k_file f;
  if negb (f_readable x) then mret (Done (-1), [])
  else match f_type x with
  | FD_PIPE =>
      ps ← sr_gets pipes;
      match ps !! f_pipe x with
      | None => sr_panic "pipe page"
      | Some p =>
          let '(r, l, p') := piperead_run killed n p in
          _ ← set_pipes (<[f_pipe x := p']> ps);
          mret (r, l)
      end
  | FD_INODE =>
      _ ← lift_fs (ilock pid (Some (f_ip x)));
      '(r, l) ← lift_fs (readi dev_read (f_ip x) (f_off x) (u32 n));
      _ ← (if 0 <? r then k_file_set f (fset_off (u32 (f_off x + r))) else mret tt);
      _ ← lift_fs (iunlock pid (Some (f_ip x)));
      mret (Done r, l)
  | FD_NONE => sr_panic "fileread"
  end.

(** The largest part of a write in one transaction. *)
Definition max_write : Z := (MAXOPBLOCKS - 1 - 1 - 2) / 2 * 512.

(** One transaction of [filewrite], the body of its loop up to [end_op]. *)
Definition write_part (f : nat) (part : list Z) : K Z :=
  x ← k_file f;
  _ ← lift_fs m_begin_op;
  _ ← lift_fs (ilock pid (Some (f_ip x)));
  r ← lift_fs (writei dev_write (f_ip x) part (f_off x) (Z.of_nat (length part)));
  _ ← (if 0 <? r then k_file_set f (fset_off (u32 (f_off x + r))) else mret tt);
  _ ← lift_fs (iunlock pid (Some (f_ip x)));
  _ ← lift_fs m_end_op;
  mret r.

(** [addr] are the bytes [n - i] from [addr + i]; every turn of the loop that
    goes on has taken at least one, which is the fuel. *)
Fixpoint filewrite_loop (fuel : nat) (f : nat) (addr : list Z) (i n : Z) : K Z :=
  match fuel with
  | O => sr_panic "fuel"
  | S fu =>
      if i <? n then
        let n1 := Z.min (n - i) max_write in
        r ← write_part f (take (Z.to_nat n1) addr);
        if r <? 0 then mret (if i =? n then n else -1)
        else if negb (r =? n1) then sr_panic "short filewrite"
        else filewrite_loop fu f (drop (Z.to_nat n1) addr) (i + r) n
      else mret (if i =? n then n else -1)
  end.

Definition filewrite (f : nat) (addr : list Z) (n : Z) : K (outcome (list Z)) :=
  x ← k_file f;
  if negb (f_writable x) then mret (Done (-1))
  else match f_type x with
  | FD_PIPE =>
      ps ← sr_gets pipes;
      match ps !! f_pipe x with
      | None => sr_panic "pipe page"
      | Some p =>
          let '(r, p') := pipewrite killed addr p in
          _ ← set_pipes (<[f_pipe x := p']> ps);
          mret r
      end
  | FD_INODE =>
      r ← filewrite_loop (S (length addr)) f addr 0 n;
      mret (Done r)
  | FD_NONE => sr_panic "filewrite"
  end.

(** ** Pipes *)

(** The offset of [data] in [struct pipe]: a spinlock of 13 words. *)
Definition pipe_data_off : Z := 52.

Definition pipe_page (m : mem) (p : Z) : list Z :=
  map (fun i => m (p + pipe_data_off + i)) (seqZ 0 PIPESIZE).

(** [None] is the return of -1; else the two files. *)
Definition pipealloc : K (option (nat * nat)) :=
  f0 ← filealloc;
  match f0 with
  | None => mret None
  | Some f0 =>
      f1 ← filealloc;
      match f1 with
      | None => _ ← fileclose f0; mret None
      | Some f1 =>
          p ← lift_kmem (fun k => Ok (kalloc k));
          if p =? 0 then
            _ ← fileclose f0;
            _ ← fileclose f1;
            mret None
          else
            m ← sr_gets (fun s => k_mem (k_kmem s));
            ps ← sr_gets pipes;
            _ ← set_pipes (<[p := pipe_init (pipe_page m p)]> ps);
            _ ← k_file_set f0 (fset_pipe true false p);
            _ ← k_file_set f1 (fset_pipe false true p);
            mret (Some (f0, f1))
      end
  end.

End File.
