(* ===== verification/FileFacts.v ===== *)
(** Writing to open files: [filewrite] cuts a write into transactions that fit
    in the log, and after it everything it wrote is on the disk. *)

From S2P Require Import Prelude CString Block Bio Log Fs FsFacts Kalloc Pipe File.

(** ** The log inside a transaction

    The routines of the file system record blocks in the log; they do not
    start or end an operation. *)

Section Keeps.
Context {C : Type} {ops : BufOps C}.
Abbreviation M := (SR (fs C)).

Definition op_state (s : fs C) : Z * bool := (outstanding (fs_log s), committing (fs_log s)).

Definition KeepsOp {A} (m : M A) : Prop := forall s a s', m s = Ok (a, s') -> op_state s' = op_state s.

Lemma ko_ret {A} (a : A) : KeepsOp (mret a).
Proof. by intros s b s' [= <- <-]. Qed.

Lemma ko_panic {A} msg : KeepsOp (sr_panic msg : M A).
Proof. done. Qed.

Lemma ko_gets {A} (f : fs C -> A) : KeepsOp (sr_gets f).
Proof. by intros s b s' [= <- <-]. Qed.

Lemma ko_bind {A B} (m : M A) (f : A -> M B) : KeepsOp m -> (forall a, KeepsOp (f a)) -> KeepsOp (m ≫= f).
Proof. intros Hm Hf s b s' E. apply sr_bind_ok in E as (a & s1 & E1 & E2). rewrite (Hf _ _ _ _ E2). by apply (Hm _ _ _ E1). Qed.

Lemma ko_bread dev bno : KeepsOp (m_bread dev bno).
Proof. intros s a s' E. unfold m_bread in E. apply result_bind_ok in E as ([i c] & _ & [= <- <-]). done. Qed.

Lemma ko_brelse i : KeepsOp (m_brelse i).
Proof. intros s a s' E. unfold m_brelse in E. apply result_bind_ok in E as (c & _ & [= <- <-]). done. Qed.

Lemma ko_set i b : KeepsOp (m_set i b).
Proof. by intros s a s' [= <- <-]. Qed.

Lemma ko_ip_set ip f : KeepsOp (m_ip_set ip f).
Proof. by intros s a s' [= <- <-]. Qed.

Lemma ko_log_write i : KeepsOp (m_log_write i).
Proof.
  intros s a s' E. unfold m_log_write in E. apply result_bind_ok in E as ([l c] & E & [= <- <-]).
  unfold log_write in E. apply result_bind_ok in E as (l' & E & [= <- <-]).
  unfold log_record in E. repeat case_match; simplify_eq; done.
Qed.

(** Walks down a routine. *)
Ltac keeps_op :=
  repeat first
    [ apply ko_ret | apply ko_panic | apply ko_gets | apply ko_bread | apply ko_brelse | apply ko_set
    | apply ko_ip_set | apply ko_log_write | solve [auto]
    | apply ko_bind; [|intros ?]
    | match goal with |- KeepsOp (if ?b then _ else _) => destruct b end
    | match goal with |- KeepsOp (match ?o with Some _ => _ | None => _ end) => destruct o end
    | match goal with |- KeepsOp (let '(_, _) := ?p in _) => destruct p end ].

Lemma ko_bzero dev bno : KeepsOp (bzero dev bno).
Proof. unfold bzero. keeps_op. Qed.

Lemma ko_balloc_loop fuel dev b : KeepsOp (balloc_loop fuel dev b).
Proof. revert b. induction fuel as [|f IH]; intros b; cbn [balloc_loop]; [keeps_op|]. pose proof ko_bzero. unfold m_sb, m_data. keeps_op. Qed.

Lemma ko_balloc dev : KeepsOp (balloc dev).
Proof. unfold balloc, m_sb. pose proof ko_balloc_loop. keeps_op. Qed.

Lemma ko_bmap ip bn : KeepsOp (bmap ip bn).
Proof. unfold bmap, m_ip, m_data. pose proof ko_balloc. cbv zeta. keeps_op. Qed.

Lemma ko_writei_loop fuel ip src off tot n : KeepsOp (writei_loop fuel ip src off tot n).
Proof.
  revert src off tot. induction fuel as [|f IH]; intros src off tot; cbn [writei_loop]; [keeps_op|].
  pose proof ko_bmap. unfold m_ip, m_data. cbv zeta. keeps_op.
Qed.

Lemma ko_iupdate ip : KeepsOp (iupdate ip).
Proof. unfold iupdate, m_ip, m_sb, m_data. keeps_op. Qed.

(** [writei] on anything but a device. *)
Lemma ko_writei dev_write ip src off n s a s' :
  i_type (nth_ip s ip) <> T_DEV -> writei dev_write ip src off n s = Ok (a, s') -> op_state s' = op_state s.
Proof.
  intros Hty. unfold writei. rewrite (sr_bind_run (m_ip ip) _ s (nth_ip s ip) s) by done.
  rewrite (proj2 (Z.eqb_neq _ _)) by done.
  match goal with |- ?m s = _ -> _ => assert (KeepsOp m) as H end; [|apply H].
  pose proof ko_writei_loop. pose proof ko_iupdate. unfold m_ip. keeps_op.
Qed.

Lemma ko_readi_loop fuel ip dst off tot n : KeepsOp (readi_loop fuel ip dst off tot n).
Proof.
  revert dst off tot. induction fuel as [|f IH]; intros dst off tot; cbn [readi_loop]; [keeps_op|].
  pose proof ko_bmap. unfold m_ip, m_data. cbv zeta. keeps_op.
Qed.

Lemma ko_readi dev_read ip off n s a s' :
  i_type (nth_ip s ip) <> T_DEV -> readi dev_read ip off n s = Ok (a, s') -> op_state s' = op_state s.
Proof.
  intros Hty. unfold readi. rewrite (sr_bind_run (m_ip ip) _ s (nth_ip s ip) s) by done.
  rewrite (proj2 (Z.eqb_neq _ _)) by done.
  match goal with |- ?m s = _ -> _ => assert (KeepsOp m) as H end; [|apply H].
  pose proof ko_readi_loop. keeps_op.
Qed.

End Keeps.

(** ** Transactions of one process *)

Section Write.
Context {C : Type} {ops : BufOps C} {laws : BufLaws C}.
Context (start lsize dsize : Z).
Context (pid : Z) (killed : bool) (kend : Z).
Context (dev_read : Z -> option (nat -> Z -> SR (fs C) (Z * list Z))).
Context (dev_write : Z -> option (nat -> list Z -> SR (fs C) Z)).
Implicit Types (s : fs C) (v : Z -> block) (d : gmap Z block).

(** No operation is running: the log is empty and no buffer is dirty, so that
    the disk [d] holds the logical contents [v]. *)
Record at_rest s d v : Prop := {
  ar_rep : c_rep (fs_cache s) d v ∅ ∅ ∅;
  ar_tx : tx_inv (fs_log s) ∅ dsize;
  ar_op : op_state s = (0, false);
  ar_start : lg_start (fs_log s) = start;
  ar_lsize : lg_size (fs_log s) = lsize;
  ar_dsize : c_size (fs_cache s) = dsize
}.

Lemma at_rest_disk s d v n : at_rest s d v -> dread d n = v n.
Proof. intros R. symmetry. eapply law_clean; [apply R | set_solver]. Qed.

Lemma at_rest_n s d v : at_rest s d v -> lh_n (fs_log s) = 0.
Proof. intros R. by rewrite <-(logged_size _ _ _ (ar_tx _ _ _ R)). Qed.

Lemma begin_ok s d v :
  at_rest s d v ->
  exists s', m_begin_op s = Ok (tt, s') /\ frep d start lsize dsize true s' v ∅ ∅ /\ same s s' /\ op_state s' = (1, false).
Proof.
  intros R. pose proof (at_rest_n _ _ _ R) as Hn. destruct R as [R1 Htx Hop Hst Hls Hds].
  unfold op_state in Hop. injection Hop as Ho Hc. unfold m_begin_op, begin_op. rewrite Hc, Hn, Ho. cbn.
  eexists. split; [reflexivity|]. split_and!; [|done | unfold op_state; cbn; by rewrite Hc].
  constructor; cbn; try done. destruct Htx as [[]]. do 2 (constructor; try done).
Qed.

Lemma set_op_tx l D n c : tx_inv l D dsize -> tx_inv (set_committing c (set_outstanding n l)) D dsize.
Proof. intros [[]]. do 2 (constructor; try done). Qed.

(** [end_op] of the only operation: everything goes to its place on the disk;
    only blocks of the log change their contents. *)
Lemma end_ok s d v D :
  frep d start lsize dsize true s v D ∅ -> op_state s = (1, false) -> (size D < 30)%nat ->
  exists s' d' v', m_end_op s = Ok (tt, s') /\ at_rest s' d' v' /\ same s s' /\
    forall n, ~ (start <= n < start + lsize) -> v' n = v n.
Proof.
  intros [R Htx _ Hst Hls Hds] Hop HD. unfold op_state in Hop. injection Hop as Ho Hc.
  pose proof (logged_size _ _ _ Htx) as Hsz. unfold m_end_op, end_op. cbn [committing set_outstanding outstanding].
  rewrite Hc, Ho. change (1 - 1) with 0. cbn [Z.eqb].
  set (l := set_committing true (set_outstanding 0 (fs_log s))).
  assert (tx_inv l D dsize) as Htl by (by apply set_op_tx).
  destruct (decide (lh_n (fs_log s) = 0)) as [E0|E0].
  - unfold commit. cbn [lh_n l set_committing set_outstanding]. rewrite E0. cbn.
    assert (D = ∅) as -> by (apply leibniz_equiv, size_empty_inv; lia).
    eexists _, d, v. split; [reflexivity|]. split_and!; [|done..].
    constructor; cbn; try done. destruct Htx as [[]]. do 2 (constructor; try done).
  - assert (ready l D (c_size (fs_cache s))) as Hr.
    { rewrite Hds. apply tx_ready; [done|]. cbn. unfold LOGSIZE, MAXOPBLOCKS. lia. }
    destruct (commit_ok l (fs_cache s) d v D Hr R) as (c & Ec & Rc & Hsc & _). rewrite Ec. cbn [mbind result_bind].
    eexists _, _, _. split; [reflexivity|]. split; [|split; [done|]].
    + constructor; cbn; [exact Rc | | done | done | done | congruence].
      destruct Htx as [[]]. do 2 (constructor; try done); cbn; try done; unfold LOGSIZE, MAXOPBLOCKS; lia.
    + intros n Hn. assert (~ in_log l n) as Hnl by (unfold in_log; cbn; lia).
      pose proof (commit_disk l (fs_cache s) d v D Hr R n Hnl) as H. rewrite <-H. eapply law_clean; [exact Rc | set_solver].
Qed.

(** ** The same file after a commit *)

Definition off_log v v' : Prop := forall n, ~ (start <= n < start + lsize) -> v' n = v n.

Section OffLog.
Context (sb : superblock) (v v' : Z -> block).
Hypothesis Hg : geo start lsize dsize sb.
Hypothesis Hv : off_log v v'.

Lemma off_home n : home start lsize dsize n -> v' n = v n.
Proof. intros (_ & _ & H). by apply Hv. Qed.

Lemma off_used b : 0 <= b < sb_size sb -> used sb v' b = used sb v b.
Proof. intros Hb. unfold used. rewrite off_home; [done|]. apply (g_home _ _ _ _ Hg). by exists b. Qed.

Lemma off_free_ok : free_ok start lsize dsize sb v -> free_ok start lsize dsize sb v'.
Proof. intros H b Hb Hu. apply H; [done|]. by rewrite <-off_used. Qed.

Lemma off_data a : data_blk start lsize dsize sb v a -> data_blk start lsize dsize sb v' a.
Proof. intros (H1 & H2 & H3 & H4). split_and!; try done; try lia. by rewrite off_used by lia. Qed.

Lemma off_baddr x k : ino_wf start lsize dsize sb v x -> baddr x v' k = baddr x v k.
Proof.
  intros W. unfold baddr. destruct (k <? NDIRECT); [done|]. destruct (k =? MAXFILE); [done|].
  destruct (Z.eqb_spec (nth (Z.to_nat NDIRECT) (i_addrs x) 0) 0) as [E|E]; [done|]. rewrite off_home; [done|].
  destruct (iw_data _ _ _ _ _ _ W MAXFILE) as (_ & _ & H & _); [change MAXFILE with 140; lia | exact E | exact H].
Qed.

Lemma off_wf x : ino_wf start lsize dsize sb v x -> ino_wf start lsize dsize sb v' x.
Proof.
  intros W. constructor; [apply W | apply W | |].
  - intros k Hk. rewrite off_baddr by done. intros Hb. apply off_data. by apply W.
  - intros j k. rewrite !off_baddr by done. apply W.
Qed.

Lemma off_fbyte x o : ino_wf start lsize dsize sb v x -> 0 <= o / BSIZE <= MAXFILE -> baddr x v (o / BSIZE) <> 0 ->
  fbyte x v' o = fbyte x v o.
Proof.
  intros W Ho Hb. unfold fbyte. rewrite off_baddr by done. rewrite off_home; [done|].
  by destruct (iw_data _ _ _ _ _ _ W _ Ho Hb) as (_ & _ & H & _).
Qed.

Lemma off_iblock i : iblock_ok start lsize dsize sb v i -> iblock_ok start lsize dsize sb v' i.
Proof. intros (H1 & H2 & H3 & H4). split_and!; try done. intros H. rewrite off_used by done. auto. Qed.

End OffLog.

(** ** An open file *)

(** A well-formed regular file or directory whose inode is in use, loaded and
    not locked. *)
Record file_ok s v (ip : nat) : Prop := {
  fo_geo : geo start lsize dsize (fs_sb s);
  fo_free : free_ok start lsize dsize (fs_sb s) v;
  fo_wf : ino_wf start lsize dsize (fs_sb s) v (nth_ip s ip);
  fo_ip : (ip < length (icache s))%nat;
  fo_type : i_type (nth_ip s ip) <> T_DEV;
  fo_iblock : iblock_ok start lsize dsize (fs_sb s) v (i_inum (nth_ip s ip));
  fo_apart : forall j, 0 <= j <= MAXFILE -> IBLOCK (i_inum (nth_ip s ip)) (fs_sb s) <> baddr (nth_ip s ip) v j;
  fo_size : i_size (nth_ip s ip) <= MAXFILE * BSIZE;
  fo_covered : covered (nth_ip s ip) v 0 (i_size (nth_ip s ip));
  fo_ref : 1 <= i_ref (nth_ip s ip);
  fo_valid : i_valid (nth_ip s ip) = true;
  fo_unlocked : i_lock (nth_ip s ip) = initsleeplock
}.

Lemma nth_ip_Some s ip : (ip < length (icache s))%nat -> icache s !! ip = Some (nth_ip s ip).
Proof. intros Hi. unfold nth_ip. destruct (lookup_lt_is_Some_2 _ _ Hi) as [y Hy]. by rewrite Hy. Qed.

Lemma ilock_ok s ip :
  (ip < length (icache s))%nat -> 1 <= i_ref (nth_ip s ip) -> i_valid (nth_ip s ip) = true ->
  i_lock (nth_ip s ip) = initsleeplock ->
  exists s', ilock pid (Some ip) s = Ok (tt, s') /\ upd_ip s s' ip (iset_lock (mkSleeplock true pid) (nth_ip s ip)) /\
    fs_cache s' = fs_cache s /\ fs_log s' = fs_log s.
Proof.
  intros Hi Hr Hva Hlk. cbn [ilock]. rewrite (sr_bind_run (m_ip ip) _ s (nth_ip s ip) s) by done.
  rewrite (proj2 (Z.ltb_ge _ _)) by lia. unfold m_acquiresleep. set (x := nth_ip s ip) in *.
  set (k := mkSleeplock true pid).
  assert (exists s', (fun s => k ← acquiresleep pid (i_lock (nth_ip s ip));
    Ok (tt, fset_icache (alter (iset_lock k) ip (icache s)) s)) s = Ok (tt, s') /\ upd_ip s s' ip (iset_lock k x) /\
    fs_cache s' = fs_cache s /\ fs_log s' = fs_log s) as (s' & E & U & Ec & El).
  { cbn beta. fold x. rewrite Hlk. cbn. eexists. split; [reflexivity|]. split; [|done]. do 2 (split; [done|]).
    apply (alter_insert_Some (iset_lock k)). by apply nth_ip_Some. }
  rewrite (sr_bind_run _ _ s tt s') by exact E. destruct (upd_ip_nth _ _ _ _ U Hi) as [Hx _].
  rewrite (sr_bind_run (m_ip ip) _ s' (iset_lock k x) s') by (unfold m_ip, sr_gets; by rewrite Hx).
  cbn [i_valid iset_lock]. rewrite Hva. by exists s'.
Qed.

Lemma iunlock_ok s ip :
  (ip < length (icache s))%nat -> 1 <= i_ref (nth_ip s ip) -> i_lock (nth_ip s ip) = mkSleeplock true pid ->
  exists s', iunlock pid (Some ip) s = Ok (tt, s') /\ upd_ip s s' ip (iset_lock initsleeplock (nth_ip s ip)) /\
    fs_cache s' = fs_cache s /\ fs_log s' = fs_log s.
Proof.
  intros Hi Hr Hlk. cbn [iunlock]. rewrite (sr_bind_run (m_ip ip) _ s (nth_ip s ip) s) by done.
  set (x := nth_ip s ip) in *. rewrite Hlk. unfold holdingsleep. cbn [sl_locked sl_pid]. rewrite Z.eqb_refl. cbn [andb negb orb].
  rewrite (proj2 (Z.ltb_ge _ _)) by lia. eexists. split; [reflexivity|]. split; [|done]. do 2 (split; [done|]).
  apply (alter_insert_Some (fun x => iset_lock (releasesleep (i_lock x)) x)). by apply nth_ip_Some.
Qed.

Lemma frep_cong d tx s s' v D Hh :
  fs_cache s' = fs_cache s -> fs_log s' = fs_log s ->
  frep d start lsize dsize tx s v D Hh -> frep d start lsize dsize tx s' v D Hh.
Proof. intros Ec El []. constructor; by rewrite ?Ec, ?El. Qed.

Lemma lock_wf sb v k x : ino_wf start lsize dsize sb v x -> ino_wf start lsize dsize sb v (iset_lock k x).
Proof. intros []. by constructor. Qed.

Lemma room_part off n : 0 <= off -> 0 <= n <= max_write -> 25 < lsize -> room lsize true ∅ (S (6 * Z.to_nat (blocks_of off n))).
Proof.
  intros Ho Hn Hl. change max_write with 1536 in Hn.
  assert (0 <= blocks_of off n <= 4) as Hb.
  { split; [apply blocks_of_pos|]. unfold blocks_of. change BSIZE with 512. case_match; zlia. }
  split; [rewrite size_empty; lia | done].
Qed.

(** What one transaction does to the file. *)
Record part_written s v s' v' (ip : nat) (off : Z) (part : list Z) : Prop := {
  pw_ok : file_ok s' v' ip;
  pw_sb : fs_sb s' = fs_sb s;
  pw_icache : icache s' = <[ip := nth_ip s' ip]> (icache s);
  pw_size : i_size (nth_ip s' ip) = Z.max (i_size (nth_ip s ip)) (off + Z.of_nat (length part));
  pw_bytes : forall o, 0 <= o < i_size (nth_ip s' ip) -> fbyte (nth_ip s' ip) v' o = overlay (nth_ip s ip) v off part o
}.

(** The part of the transaction under the lock: the inode is written, then
    released. *)
Lemma locked_write s d v ip off part :
  frep d start lsize dsize true s v ∅ ∅ -> op_state s = (1, false) -> file_ok s v ip ->
  0 < Z.of_nat (length part) <= max_write -> 0 <= off <= i_size (nth_ip s ip) ->
  off + Z.of_nat (length part) <= MAXFILE * BSIZE -> 25 < lsize ->
  exists s1, ilock pid (Some ip) s = Ok (tt, s1) /\
  (writei dev_write ip part off (Z.of_nat (length part)) s1 = Panic "balloc: out of blocks" \/
   exists s2 s3 v' D, writei dev_write ip part off (Z.of_nat (length part)) s1 = Ok (Z.of_nat (length part), s2) /\
     iunlock pid (Some ip) s2 = Ok (tt, s3) /\ frep d start lsize dsize true s3 v' D ∅ /\ (size D < 30)%nat /\
     op_state s3 = (1, false) /\ part_written s v s3 v' ip off part).
Proof.
  intros F Hop [G Hfree W Hi Hty Hib Hap Hsz Hcov Hr Hva Hlk] Hn Ho Hmax Hls. set (x := nth_ip s ip) in *.
  destruct (ilock_ok s ip Hi Hr Hva Hlk) as (s1 & E1 & U1 & Ec1 & El1). fold x in U1. exists s1. split; [done|].
  destruct (upd_ip_nth _ _ _ _ U1 Hi) as [Hx1 Hl1]. set (x1 := iset_lock _ x) in *.
  assert (fs_sb s1 = fs_sb s) as Hsb1 by apply U1.
  destruct (writei_ok d start lsize dsize true dev_write s1 v ∅ ip part off) as
    [E|(s2 & v' & D & x2 & E2 & F2 & U2 & Hf2 & W2 & Ty2 & Sz2 & By2 & _ & Cp2 & Us2 & Ap2 & a & z & Ex2)];
    rewrite ?Hx1, ?Hsb1, ?Hl1; try done.
  { by eapply frep_cong. }
  { by apply lock_wf. }
  { apply room_part; lia. }
  { by left. }
  right. rewrite Hx1, Hsb1 in *. destruct (upd_ip_nth _ _ _ _ U2 ltac:(lia)) as [Hx2 Hl2].
  assert (i_lock x2 = mkSleeplock true pid /\ i_ref x2 = i_ref x /\ i_valid x2 = true /\ i_inum x2 = i_inum x) as (K1 & K2 & K3 & K4)
    by (rewrite Ex2; done).
  destruct (iunlock_ok s2 ip) as (s3 & E3 & U3 & Ec3 & El3); [lia | by rewrite Hx2, K2 | by rewrite Hx2 |].
  rewrite Hx2 in U3. destruct (upd_ip_nth _ _ _ _ U3 ltac:(lia)) as [Hx3 Hl3].
  exists s2, s3, v', D. split; [exact E2|]. split; [exact E3|]. split; [by eapply frep_cong|]. split; [done|].
  split.
  { unfold op_state. rewrite El3. change (op_state s2 = (1, false)).
    assert (op_state s2 = op_state s1) as -> by (eapply ko_writei; [|exact E2]; by rewrite Hx1).
    rewrite <-Hop. unfold op_state. by rewrite El1. }
  assert (fs_sb s3 = fs_sb s) as Hsb3 by (rewrite (proj1 U3), (proj1 U2); done).
  constructor; rewrite ?Hx3, ?Hsb3; try done.
  - constructor; rewrite ?Hx3, ?Hsb3; cbn [i_inum i_type i_size i_ref i_valid i_lock iset_lock]; rewrite ?K4, ?K2, ?Ty2; try done.
    + by apply lock_wf.
    + lia.
    + destruct Hib as (H1 & H2 & H3 & H4). split_and!; try done. auto.
    + change (i_size x1) with (i_size x) in Sz2. rewrite Sz2. lia.
    + intros o Hoo. apply By2. lia.
  - rewrite (proj2 (proj2 U3)), (proj2 (proj2 U2)), (proj2 (proj2 U1)), !list_insert_insert_eq. done.
  - intros o Hoo. apply By2. done.
Qed.

(** A file does not notice the commit, which changes log blocks only. *)
Lemma file_ok_off s s' v v' ip : same s s' -> off_log v v' -> file_ok s v ip -> file_ok s' v' ip.
Proof.
  intros (Esb & Eic & _) Hv [G Hfree W Hi Hty Hib Hap Hsz Hcov Hr Hva Hlk].
  assert (nth_ip s' ip = nth_ip s ip) as Ex by (unfold nth_ip; by rewrite Eic).
  constructor; rewrite ?Ex, ?Esb, ?Eic; try done.
  - by eapply off_free_ok.
  - by eapply off_wf.
  - by eapply off_iblock.
  - intros j Hj. rewrite (off_baddr (fs_sb s) v); auto.
  - intros o Ho. rewrite (off_baddr (fs_sb s) v); auto.
Qed.

Lemma part_written_off s v s1 v1 s2 v2 ip off part :
  part_written s v s1 v1 ip off part -> same s1 s2 -> off_log v1 v2 -> part_written s v s2 v2 ip off part.
Proof.
  intros [Hok Hsb Hic Hsz By] S Hv. pose proof S as (Esb & Eic & _).
  assert (nth_ip s2 ip = nth_ip s1 ip) as Ex by (unfold nth_ip; by rewrite Eic).
  constructor; rewrite ?Ex, ?Esb, ?Eic; try done; [by eapply file_ok_off|].
  intros o Ho. rewrite (off_fbyte (fs_sb s1) v1); [by apply By | done | apply Hok | |].
  - pose proof (fo_size _ _ _ Hok) as H. change (MAXFILE * BSIZE) with 71680 in H. change BSIZE with 512. change MAXFILE with 140. zlia.
  - by apply (fo_covered _ _ _ Hok).
Qed.

(** The table with entry [f] at offset [o]. *)
Definition kset (st : kst C) s (f : nat) (o : Z) : kst C :=
  mkKst s (k_kmem st) (alter (fset_off o) f (ftable st)) (pipes st).

Lemma lift_fs_run {A} (m : SR (fs C) A) (st : kst C) a s' :
  m (k_fs st) = Ok (a, s') -> lift_fs m st = Ok (a, mkKst s' (k_kmem st) (ftable st) (pipes st)).
Proof. unfold lift_fs. by intros ->. Qed.

Lemma lift_fs_panic {A B} (m : SR (fs C) A) (f : A -> SR (kst C) B) (st : kst C) msg :
  m (k_fs st) = Panic msg -> (lift_fs m ≫= f) st = Panic msg.
Proof. unfold mbind, SR_bind, lift_fs. by intros ->. Qed.

Lemma write_part_ok (st : kst C) d v f part :
  let x := nth_file st f in
  at_rest (k_fs st) d v -> file_ok (k_fs st) v (f_ip x) ->
  0 < Z.of_nat (length part) <= max_write -> 0 <= f_off x <= i_size (nth_ip (k_fs st) (f_ip x)) ->
  f_off x + Z.of_nat (length part) <= MAXFILE * BSIZE -> 25 < lsize ->
  write_part pid dev_write f part st = Panic "balloc: out of blocks" \/
  exists s' d' v', write_part pid dev_write f part st =
      Ok (Z.of_nat (length part), kset st s' f (f_off x + Z.of_nat (length part))) /\
    at_rest s' d' v' /\ part_written (k_fs st) v s' v' (f_ip x) (f_off x) part.
Proof.
  intros x R Hok Hn Ho Hmax Hls. unfold write_part. rewrite (sr_bind_run (k_file f) _ st x st) by done.
  set (n := Z.of_nat (length part)) in *. set (ip := f_ip x) in *. set (off := f_off x) in *.
  destruct (begin_ok _ _ _ R) as (s0 & E0 & F0 & S0 & Op0). rewrite (sr_bind_run _ _ _ _ _ (lift_fs_run _ _ _ _ E0)).
  assert (file_ok s0 v ip) as Hok0 by (by eapply file_ok_off).
  assert (nth_ip s0 ip = nth_ip (k_fs st) ip) as Ex0 by (by apply nth_ip_same).
  destruct (locked_write s0 d v ip off part) as (s1 & E1 & [E2|(s2 & s3 & v3 & D & E2 & E3 & F3 & HD & Op3 & Pw)]);
    rewrite ?Ex0; try done.
  { left. rewrite (sr_bind_run _ _ _ _ _ (lift_fs_run _ (mkKst s0 _ _ _) _ _ E1)). by apply lift_fs_panic. }
  right. rewrite (sr_bind_run _ _ _ _ _ (lift_fs_run _ (mkKst s0 _ _ _) _ _ E1)).
  fold n in E2. rewrite (sr_bind_run _ _ _ _ _ (lift_fs_run _ (mkKst s1 _ _ _) _ _ E2)).
  rewrite (proj2 (Z.ltb_lt 0 n)) by lia. rewrite u32_small by (change (MAXFILE * BSIZE) with 71680 in *; lia).
  rewrite (sr_bind_run _ _ _ tt (kset st s2 f (off + n))) by done.
  rewrite (sr_bind_run _ _ _ _ _ (lift_fs_run _ (kset st s2 f (off + n)) _ _ E3)).
  destruct (end_ok s3 d v3 D F3 Op3 HD) as (s4 & d4 & v4 & E4 & R4 & S4 & V4).
  rewrite (sr_bind_run _ _ _ _ _ (lift_fs_run _ (mkKst s3 _ _ _) _ _ E4)).
  exists s4, d4, v4. split; [done|]. split; [done|]. apply (part_written_off _ _ s3 v3); [|done | done].
  destruct Pw as [P1 P2 P3 P4 P5]. rewrite Ex0 in P4, P5. destruct S0 as (Esb0 & Eic0 & _).
  constructor; try done; [by rewrite P2 | by rewrite P3, Eic0].
Qed.

(** ** The loop *)

Lemma overlay_in x v off src o : off <= o < off + Z.of_nat (length src) -> overlay x v off src o = nth (Z.to_nat (o - off)) src 0.
Proof. intros H. unfold overlay. rewrite (proj2 (Z.leb_le _ _)), (proj2 (Z.ltb_lt _ _)) by lia. done. Qed.

Lemma overlay_out x v off src o : ~ (off <= o < off + Z.of_nat (length src)) -> overlay x v off src o = fbyte x v o.
Proof. intros H. unfold overlay. destruct (Z.leb_spec off o), (Z.ltb_spec o (off + Z.of_nat (length src))); cbn; try done. lia. Qed.

Lemma part_written_nil s v ip off : file_ok s v ip -> 0 <= off <= i_size (nth_ip s ip) -> part_written s v s v ip off [].
Proof.
  intros Hok Ho. constructor; try done.
  - symmetry. apply list_insert_id. apply nth_ip_Some, Hok.
  - cbn. lia.
  - intros o _. rewrite overlay_out; [done | cbn; lia].
Qed.

Lemma part_written_app s v s1 v1 s2 v2 ip off p1 p2 :
  part_written s v s1 v1 ip off p1 -> part_written s1 v1 s2 v2 ip (off + Z.of_nat (length p1)) p2 ->
  0 <= off -> part_written s v s2 v2 ip off (p1 ++ p2).
Proof.
  intros [A1 A2 A3 A4 A5] [B1 B2 B3 B4 B5] Ho. constructor; try done.
  - congruence.
  - by rewrite B3, A3, list_insert_insert_eq.
  - rewrite B4, A4, length_app. lia.
  - intros o Hoo. rewrite B5 by done. rewrite B4, A4 in Hoo.
    destruct (decide (off + Z.of_nat (length p1) <= o < off + Z.of_nat (length p1) + Z.of_nat (length p2))) as [Hin|Hout].
    + rewrite !overlay_in by (rewrite ?length_app; lia). rewrite app_nth2 by lia. f_equal. lia.
    + rewrite overlay_out by done. rewrite A5 by lia.
      destruct (decide (off <= o < off + Z.of_nat (length p1))).
      * rewrite !overlay_in by (rewrite ?length_app; lia). by rewrite app_nth1 by lia.
      * rewrite !overlay_out by (rewrite ?length_app; lia). done.
Qed.

Lemma kset_same (st : kst C) f : kset st (k_fs st) f (f_off (nth_file st f)) = st.
Proof.
  destruct st as [s k t p]. unfold kset, nth_file. cbn. f_equal. apply list_eq. intros j. destruct (decide (f = j)) as [->|Hne].
  - rewrite list_lookup_alter_eq. destruct (t !! j) as [[]|] eqn:E; done.
  - by rewrite list_lookup_alter_ne.
Qed.

Lemma kset_kset (st : kst C) s s' f o o' : kset (kset st s f o) s' f o' = kset st s' f o'.
Proof.
  unfold kset. cbn. f_equal. apply list_eq. intros j. destruct (decide (f = j)) as [->|Hne].
  - rewrite !list_lookup_alter_eq. by destruct (ftable st !! j) as [[]|].
  - by rewrite !list_lookup_alter_ne.
Qed.

Lemma kset_file (st : kst C) s f o : (f < length (ftable st))%nat -> nth_file (kset st s f o) f = fset_off o (nth_file st f).
Proof.
  intros Hf. unfold nth_file, kset. cbn. rewrite list_lookup_alter_eq.
  by destruct (lookup_lt_is_Some_2 _ _ Hf) as [x ->].
Qed.

Lemma filewrite_loop_ok fuel (st : kst C) d v f addr i n :
  let x := nth_file st f in
  at_rest (k_fs st) d v -> file_ok (k_fs st) v (f_ip x) -> (f < length (ftable st))%nat ->
  (length addr < fuel)%nat -> 0 <= i -> n = i + Z.of_nat (length addr) ->
  0 <= f_off x <= i_size (nth_ip (k_fs st) (f_ip x)) ->
  f_off x + Z.of_nat (length addr) <= MAXFILE * BSIZE -> 25 < lsize ->
  filewrite_loop pid dev_write fuel f addr i n st = Panic "balloc: out of blocks" \/
  exists s' d' v', filewrite_loop pid dev_write fuel f addr i n st =
      Ok (n, kset st s' f (f_off x + Z.of_nat (length addr))) /\
    at_rest s' d' v' /\ part_written (k_fs st) v s' v' (f_ip x) (f_off x) addr.
Proof.
  revert st d v addr i. induction fuel as [|fu IH]; intros st d v addr i x R Hok Hf Hfu Hi Hn Ho Hmax Hls; [lia|].
  cbn [filewrite_loop]. destruct (Z.ltb_spec i n) as [Hlt|Hge].
  2:{ right. assert (addr = []) as -> by (destruct addr; [done | cbn in Hn; lia]). cbn [length] in *.
      exists (k_fs st), d, v. rewrite Z.add_0_r. rewrite kset_same.
      split; [|split; [done | by apply part_written_nil]]. rewrite (proj2 (Z.eqb_eq i n)) by lia. done. }
  set (n1 := Z.min (n - i) max_write). assert (0 < n1 <= max_write /\ n1 <= Z.of_nat (length addr)) as [Hn1 Hn1'].
  { unfold n1. change max_write with 1536. lia. }
  assert (Z.of_nat (length (take (Z.to_nat n1) addr)) = n1) as Hlt1 by (rewrite length_take; lia).
  destruct (write_part_ok st d v f (take (Z.to_nat n1) addr) R Hok) as [E|(s1 & d1 & v1 & E & R1 & P1)];
    rewrite ?Hlt1; fold x; try done; try lia.
  { left. unfold mbind at 1, SR_bind at 1. by rewrite E. }
  rewrite Hlt1 in E. fold x in E, P1. rewrite (sr_bind_run _ _ _ _ _ E).
  rewrite (proj2 (Z.ltb_ge n1 0)), Z.eqb_refl by lia. cbn [negb].
  set (st1 := kset st s1 f (f_off x + n1)) in *.
  assert (nth_file st1 f = fset_off (f_off x + n1) x) as Ex1 by (by apply kset_file).
  destruct (IH st1 d1 v1 (drop (Z.to_nat n1) addr) (i + n1)) as [E2|(s2 & d2 & v2 & E2 & R2 & P2)];
    rewrite ?Ex1, ?length_drop; cbn [f_ip f_off fset_off k_fs st1 kset]; try done; try lia.
  - apply P1.
  - unfold st1, kset. cbn. by rewrite length_alter.
  - rewrite (pw_size _ _ _ _ _ _ _ P1), Hlt1. lia.
  - by left.
  - right. rewrite Ex1 in *. cbn [f_ip f_off fset_off k_fs st1 kset] in *. exists s2, d2, v2. split; [|split; [done|]].
    + rewrite E2. unfold st1. rewrite kset_kset. do 3 f_equal. rewrite length_drop. lia.
    + rewrite <-(take_drop (Z.to_nat n1) addr). eapply part_written_app; [exact P1 | by rewrite Hlt1 | lia].
Qed.

(** ** Reading *)

Lemma rest_frep s d v : at_rest s d v -> frep d start lsize dsize false s v ∅ ∅.
Proof. intros []. by constructor. Qed.

Lemma frep_rest s d v : frep d start lsize dsize false s v ∅ ∅ -> op_state s = (0, false) -> at_rest s d v.
Proof. intros [] Hop. by constructor. Qed.

Lemma kset_off0 (st : kst C) s f :
  kset st s f (f_off (nth_file st f)) = mkKst s (k_kmem st) (ftable st) (pipes st).
Proof. pose proof (kset_same st f) as H. unfold kset in *. destruct st as [s0 k t p]. injection H as H. cbn in *. by rewrite H. Qed.

Lemma iset_lock_back x k : i_lock x = initsleeplock -> iset_lock initsleeplock (iset_lock k x) = x.
Proof. intros H. destruct x. cbn in *. by subst. Qed.

Lemma fileread_ok (st : kst C) d v f n :
  let x := nth_file st f in
  let ino := nth_ip (k_fs st) (f_ip x) in
  let m := Z.min n (i_size ino - f_off x) in
  at_rest (k_fs st) d v -> file_ok (k_fs st) v (f_ip x) ->
  f_readable x = true -> f_type x = FD_INODE -> 0 <= f_off x <= i_size ino -> 0 <= n < 2 ^ 31 ->
  exists s', fileread pid killed dev_read f n st = Ok ((Done m, contents ino v (f_off x) m), kset st s' f (f_off x + m)) /\
    at_rest s' d v /\ same (k_fs st) s'.
Proof.
  intros x ino m R Hok Hrd Hty Ho Hn. unfold fileread. rewrite (sr_bind_run (k_file f) _ st x st) by done.
  rewrite Hrd, Hty. cbn [negb]. pose proof Hok as [G _ W Hi Htd _ _ Hsz Hcov Hr Hva Hlk]. fold ino in W, Htd, Hsz, Hcov, Hr, Hva, Hlk.
  set (ip := f_ip x) in *. set (s := k_fs st) in *. assert (MAXFILE * BSIZE = 71680) as Hmx by done.
  destruct (ilock_ok s ip Hi Hr Hva Hlk) as (s1 & E1 & U1 & Ec1 & El1). destruct (upd_ip_nth _ _ _ _ U1 Hi) as [Hx1 Hl1].
  fold ino in U1, Hx1. rewrite (sr_bind_run _ _ _ _ _ (lift_fs_run _ st _ _ E1)). rewrite u32_small by lia.
  destruct (readi_ok d start lsize dsize false dev_read s1 v ∅ ip (f_off x) n) as (s2 & E2 & F2 & S2);
    rewrite ?Hx1, ?(proj1 U1); try done; [eapply frep_cong; [done | done | by apply rest_frep] | by apply lock_wf | rewrite size_empty; lia |].
  rewrite Hx1 in E2. change (contents (iset_lock _ ino)) with (contents ino) in E2. cbn [i_size iset_lock] in E2. fold m in E2.
  rewrite (sr_bind_run _ _ _ _ _ (lift_fs_run _ (mkKst s1 _ _ _) _ _ E2)). cbv beta iota.
  assert (nth_ip s2 ip = iset_lock (mkSleeplock true pid) ino) as Hx2 by (rewrite <-Hx1; by apply nth_ip_same).
  assert (length (icache s2) = length (icache s)) as Hl2 by (destruct S2 as (_ & -> & _); done).
  destruct (iunlock_ok s2 ip) as (s3 & E3 & U3 & Ec3 & El3); [lia | by rewrite Hx2 | by rewrite Hx2 |].
  rewrite Hx2, iset_lock_back in U3 by done. exists s3. split; [|split].
  - assert (0 <= m) by lia.
    rewrite (sr_bind_run _ _ _ tt (kset st s2 f (f_off x + m))); cycle 1.
    { destruct (Z.ltb_spec 0 m) as [H0|H0]; [rewrite u32_small by lia; done|].
      replace (f_off x + m) with (f_off x) by lia. unfold x. by rewrite kset_off0. }
    rewrite (sr_bind_run _ _ _ _ _ (lift_fs_run _ (kset st s2 f (f_off x + m)) _ _ E3)). done.
  - apply frep_rest; [by eapply frep_cong|].
    unfold op_state. rewrite El3. change (op_state s2 = (0, false)).
    assert (op_state s2 = op_state s1) as -> by (eapply ko_readi; [|exact E2]; by rewrite Hx1).
    rewrite <-(ar_op _ _ _ R). unfold op_state. by rewrite El1.
  - destruct U1 as (A1 & A2 & A3), U3 as (B1 & B2 & B3), S2 as (S21 & S22 & S23). split_and!; [congruence | | congruence].
    rewrite B3, S22, A3, list_insert_insert_eq. apply list_insert_id. by apply nth_ip_Some.
Qed.

Lemma disk_fbyte s d v x o : at_rest s d v -> fbyte x (dread d) o = fbyte x v o.
Proof. intros R. unfold fbyte, baddr. by rewrite !(at_rest_disk _ _ _ _ R). Qed.


End Write.

(** *** A file system of 60 blocks at rest: the log of 30 blocks from block 2,
    inodes in block 32, the free map in block 33, and an empty file that is
    open twice, for writing and for reading. *)

Definition demo2_bitmap : block := 255 :: 255 :: 255 :: 255 :: 3 :: replicate 507 0.
Definition demo2_disk : gmap Z block := {[ 33 := demo2_bitmap ]}.
Definition demo2_sb : superblock := mkSb 60 26 8 30 2 32 33.
Definition demo2_fs : fs bio :=
  mkFs (binit demo2_disk 60) (mkLog 2 30 0 false 1 0 (replicate 30 0)) demo2_sb
    (demo_file :: replicate 49 inode0) 0.
Definition demo2_st : kst bio :=
  mkKst demo2_fs (mkKmem true 0 (fun _ => 0))
    (mkFile FD_INODE 1 false true 0 0 0 :: mkFile FD_INODE 1 true false 0 0 0 :: replicate 98 file0) ∅.

Lemma demo2_wf n : length (dread demo2_disk n) = 512%nat.
Proof.
  unfold dread, demo2_disk. destruct (decide (n = 33)) as [->|Hne].
  - by rewrite lookup_singleton_eq.
  - by rewrite lookup_singleton_ne.
Defined.

Lemma demo2_rest : at_rest (laws := bio_laws 1) 2 30 60 demo2_fs demo2_disk (dread demo2_disk).
Proof.
  constructor; try done.
  - apply binit_rep, demo2_wf.
  - constructor; [|done | constructor | done]. constructor; try done. cbn. intros i Hi. lia.
Defined.

Lemma demo2_bitmap_block n : is_bitmap demo2_sb n -> n = 33.
Proof.
  intros (x & Hx & ->). unfold BBLOCK, demo2_sb in *. cbn [sb_size sb_bmapstart] in *.
  replace (x / BPB) with 0; [done|]. symmetry. apply Z.div_small. unfold BPB, BSIZE. lia.
Defined.

Lemma demo2_file_ok : file_ok 2 30 60 demo2_fs (dread demo2_disk) 0.
Proof.
  assert (nth_ip demo2_fs 0 = demo_file) as E by done.
  constructor; rewrite ?E; try done; cbn [fs_sb demo2_fs].
  - constructor; try done. intros n ->%demo2_bitmap_block. split_and!; lia.
  - intros b Hb Hu. cbn in Hb.
    assert (Hall : forallb (fun b => used demo2_sb (dread demo2_disk) b || (34 <=? b)) (seqZ 0 60) = true)
      by (vm_compute; reflexivity).
    rewrite forallb_forall in Hall.
    assert (Hin : In b (seqZ 0 60)) by (apply list_elem_of_In, elem_of_seqZ; lia).
    apply Hall in Hin. rewrite Hu in Hin. cbn [orb] in Hin. apply Z.leb_le in Hin.
    split_and!; [lia | split_and!; lia |]. intros E1%demo2_bitmap_block. lia.
  - constructor; [done | done | |].
    + intros k _ Hk. by rewrite demo_baddr in Hk.
    + intros j k _ _ Hj. by rewrite demo_baddr in Hj.
  - cbn. lia.
  - split_and!; [cbn; lia | apply (bool_decide_unpack _); vm_compute; exact I | | ].
    + intros E1%demo2_bitmap_block. vm_compute in E1. discriminate E1.
    + intros _. vm_compute. reflexivity.
  - intros j _ E1. rewrite demo_baddr in E1. vm_compute in E1. discriminate E1.
  - intros o Ho. cbn in Ho. lia.
Defined.

