(* ===== verification/Sysfile.v ===== *)
(** System calls: the arguments ([xv6/base/syscall.c]) and the calls on files
    ([xv6/base/sysfile.c]).

    The state adds to that of the files the running process: its descriptors
    ([myproc()->ofile]) and its memory, a byte for each address below [sz].
    The size, the stack pointer at the call and [exec] are parameters.  A call
    that waits for a pipe returns the work that is left, as in [File.v]. *)

From S2P Require Import Prelude CString Block Bio Log Fs Kalloc Pipe File Proc.

Definition MAXARG : nat := 32.

(** ** Arguments *)

Section Args.
Context (sz esp : Z).

Definition fetchint (addr : Z) (m : mem) : option Z :=
  if (sz <=? addr) || (sz <? u32 (addr + 4)) then None else Some (s32 (load32 m addr)).

(** [for(s = *pp; s < ep; s++) if( *s == 0) return s - *pp;] *)
Fixpoint scan_str (fuel : nat) (m : mem) (s : Z) : option (list Z) :=
  match fuel with
  | O => None
  | S f => if m s =? 0 then Some [] else cons (m s) <$> scan_str f m (s + 1)
  end.

(** The string at [addr]; its length is the value returned. *)
Definition fetchstr (addr : Z) (m : mem) : option (list Z) :=
  if sz <=? addr then None else scan_str (Z.to_nat (sz - addr)) m addr.

Definition argint (n : Z) (m : mem) : option Z := fetchint (u32 (esp + 4 + 4 * n)) m.

Definition argptr (n size : Z) (m : mem) : option Z :=
  match argint n m with
  | None => None
  | Some i =>
      if (size <? 0) || (sz <=? u32 i) || (sz <? u32 (u32 i + size)) then None else Some (u32 i)
  end.

Definition argstr (n : Z) (m : mem) : option (list Z) :=
  match argint n m with
  | None => None
  | Some addr => fetchstr (u32 addr) m
  end.

End Args.

(** [*st = ...]: two bytes of padding after [type] and after [nlink]. *)
Definition store_stat (m : mem) (a : Z) (st : stat) : mem :=
  let m := put_bytes m a (le16 (st_type st)) in
  let m := store32 m (a + 4) (st_dev st) in
  let m := store32 m (a + 8) (st_ino st) in
  let m := put_bytes m (a + 12) (le16 (st_nlink st)) in
  store32 m (a + 16) (st_size st).

(** ** Names and directories *)

Section Dirs.
Context {C : Type} {ops : BufOps C}.
Context (pid : Z).
Context (dev_read : Z -> option (nat -> Z -> SR (fs C) (Z * list Z))).
Context (dev_write : Z -> option (nat -> list Z -> SR (fs C) Z)).
Abbreviation M := (SR (fs C)).

Definition name0 : list Z := replicate (Z.to_nat DIRSIZ) 0.

Definition add_nlink (ip : nat) (k : Z) : M unit :=
  m_ip_set ip (fun x => iset_nlink (s16 (i_nlink x + k)) x).

(** The body of [sys_link], from the two path names. *)
Definition link (old new : list Z) : M Z :=
  _ ← m_begin_op;
  o ← namei pid dev_read old;
  match o with
  | None => _ ← m_end_op; mret (-1)
  | Some ip =>
      _ ← ilock pid (Some ip);
      x ← m_ip ip;
      if i_type x =? T_DIR then
        _ ← iunlockput pid ip; _ ← m_end_op; mret (-1)
      else
        _ ← add_nlink ip 1;
        _ ← iupdate ip;
        _ ← iunlock pid (Some ip);
        '(o, name) ← nameiparent pid dev_read new name0;
        ok ← (match o with
              | None => mret false
              | Some dp =>
                  _ ← ilock pid (Some dp);
                  y ← m_ip dp;
                  x ← m_ip ip;
                  r ← (if negb (i_dev y =? i_dev x) then mret (-1)
                       else dirlink pid dev_read dev_write dp name (i_inum x));
                  _ ← iunlockput pid dp;
                  mret (negb (r <? 0))
              end);
        if (ok : bool) then
          _ ← iput pid ip; _ ← m_end_op; mret 0
        else
          _ ← ilock pid (Some ip);
          _ ← add_nlink ip (-1);
          _ ← iupdate ip;
          _ ← iunlockput pid ip;
          _ ← m_end_op;
          mret (-1)
  end.

(** [off] grows by the size of an entry. *)
Fixpoint isdirempty_loop (fuel : nat) (dp : nat) (off : Z) : M bool :=
  match fuel with
  | O => sr_panic "fuel"
  | S f =>
      x ← m_ip dp;
      if off <? i_size x then
        '(r, de) ← readi dev_read dp off 16;
        if negb (r =? 16) then sr_panic "isdirempty: readi"
        else if negb (de_inum de =? 0) then mret false
        else isdirempty_loop f dp (off + 16)
      else mret true
  end.

Definition isdirempty (dp : nat) : M bool :=
  x ← m_ip dp; isdirempty_loop (Z.to_nat (i_size x / 16 + 1)) dp (2 * 16).

Definition dot : list Z := [46].
Definition dotdot : list Z := [46; 46].

(** The body of [sys_unlink]. *)
Definition unlink (path : list Z) : M Z :=
  _ ← m_begin_op;
  '(o, name) ← nameiparent pid dev_read path name0;
  match o with
  | None => _ ← m_end_op; mret (-1)
  | Some dp =>
      let bad := _ ← iunlockput pid dp; _ ← m_end_op; mret (-1) in
      _ ← ilock pid (Some dp);
      if (namecmp name dot =? 0) || (namecmp name dotdot =? 0) then bad
      else
        o ← dirlookup dev_read dp name;
        match o with
        | None => bad
        | Some (ip, off) =>
            _ ← ilock pid (Some ip);
            x ← m_ip ip;
            if i_nlink x <? 1 then sr_panic "unlink: nlink < 1"
            else
              full ← (if i_type x =? T_DIR then e ← isdirempty ip; mret (negb e) else mret false);
              if (full : bool) then _ ← iunlockput pid ip; bad
              else
                r ← writei dev_write dp (replicate 16 0) off 16;
                if negb (r =? 16) then sr_panic "unlink: writei"
                else
                  x ← m_ip ip;
                  _ ← (if i_type x =? T_DIR then _ ← add_nlink dp (-1); iupdate dp else mret tt);
                  _ ← iunlockput pid dp;
                  _ ← add_nlink ip (-1);
                  _ ← iupdate ip;
                  _ ← iunlockput pid ip;
                  _ ← m_end_op;
                  mret 0
        end
  end.

(** The new or existing inode, locked. *)
Definition create (path : list Z) (type major minor : Z) : M (option nat) :=
  '(o, name) ← nameiparent pid dev_read path name0;
  match o with
  | None => mret None
  | Some dp =>
      _ ← ilock pid (Some dp);
      o ← dirlookup dev_read dp name;
      match o with
      | Some (ip, _) =>
          _ ← iunlockput pid dp;
          _ ← ilock pid (Some ip);
          x ← m_ip ip;
          if (type =? T_FILE) && (i_type x =? T_FILE) then mret (Some ip)
          else _ ← iunlockput pid ip; mret None
      | None =>
          y ← m_ip dp;
          ip ← ialloc (i_dev y) type;
          _ ← ilock pid (Some ip);
          _ ← m_ip_set ip (fun x => iset_nlink 1 (iset_major_minor (s16 major) (s16 minor) x));
          _ ← iupdate ip;
          x ← m_ip ip;
          _ ← (if type =? T_DIR then
                 _ ← add_nlink dp 1;
                 _ ← iupdate dp;
                 r ← dirlink pid dev_read dev_write ip dot (i_inum x);
                 if r <? 0 then sr_panic "create dots"
                 else
                   r ← dirlink pid dev_read dev_write ip dotdot (i_inum y);
                   if r <? 0 then sr_panic "create dots" else mret tt
               else mret tt);
          r ← dirlink pid dev_read dev_write dp name (i_inum x);
          if r <? 0 then sr_panic "create: dirlink"
          else
            _ ← iunlockput pid dp;
            mret (Some ip)
      end
  end.

(** The bodies of [sys_mkdir] and [sys_mknod]: the path is fetched after
    [begin_op]; [None] is an argument that could not be fetched. *)
Definition make (path : option (list Z)) (type major minor : Z) : M Z :=
  _ ← m_begin_op;
  o ← (match path with None => mret None | Some path => create path type major minor end);
  match o with
  | None => _ ← m_end_op; mret (-1)
  | Some ip => _ ← iunlockput pid ip; _ ← m_end_op; mret 0
  end.

(** The body of [sys_chdir]. *)
Definition chdir (path : option (list Z)) : M Z :=
  _ ← m_begin_op;
  o ← (match path with None => mret None | Some path => namei pid dev_read path end);
  match o with
  | None => _ ← m_end_op; mret (-1)
  | Some ip =>
      _ ← ilock pid (Some ip);
      x ← m_ip ip;
      if negb (i_type x =? T_DIR) then _ ← iunlockput pid ip; _ ← m_end_op; mret (-1)
      else
        _ ← iunlock pid (Some ip);
        cwd ← sr_gets fs_cwd;
        _ ← iput pid cwd;
        _ ← m_end_op;
        _ ← sr_modify (fun s => mkFs (fs_cache s) (fs_log s) (fs_sb s) (icache s) ip);
        mret 0
  end.

(** The first part of [sys_open]: the inode, locked, inside the operation;
    [None] after the operation has been ended. *)
Definition open_inode (path : list Z) (omode : Z) : M (option nat) :=
  _ ← m_begin_op;
  if negb (Z.land omode O_CREATE =? 0) then
    o ← create path T_FILE 0 0;
    match o with
    | None => _ ← m_end_op; mret None
    | Some ip => mret (Some ip)
    end
  else
    o ← namei pid dev_read path;
    match o with
    | None => _ ← m_end_op; mret None
    | Some ip =>
        _ ← ilock pid (Some ip);
        x ← m_ip ip;
        if (i_type x =? T_DIR) && negb (omode =? O_RDONLY) then
          _ ← iunlockput pid ip; _ ← m_end_op; mret None
        else mret (Some ip)
    end.

End Dirs.

(** ** The calls *)

Record sst (C : Type) := mkSst {
  ss_k : kst C;
  ofile : list (option nat);   (* NOFILE of them *)
  umem : mem
}.
Arguments mkSst {C} _ _ _.
Arguments ss_k {C} _.
Arguments ofile {C} _.
Arguments umem {C} _.

Section Calls.
Context {C : Type} {ops : BufOps C}.
Context (pid : Z) (killed : bool) (kend sz esp : Z).
Context (dev_read : Z -> option (nat -> Z -> SR (fs C) (Z * list Z))).
Context (dev_write : Z -> option (nat -> list Z -> SR (fs C) Z)).
Context (exec : list Z -> list (list Z) -> SR (sst C) Z).
Abbreviation S := (SR (sst C)).

Definition lift_k {A} (m : SR (kst C) A) : S A := fun s =>
  match m (ss_k s) with
  | Ok (a, k) => Ok (a, mkSst k (ofile s) (umem s))
  | Panic msg => Panic msg
  | Sleeps ch => Sleeps ch
  end.

Definition get_arg {A} (f : mem -> option A) : S (option A) := sr_gets (fun s => f (umem s)).
Definition put_mem (a : Z) (l : list Z) : S unit := sr_modify (fun s => mkSst (ss_k s) (ofile s) (put_bytes (umem s) a l)).
Definition set_fd (fd : nat) (x : option nat) : S unit := sr_modify (fun s => mkSst (ss_k s) (<[fd := x]> (ofile s)) (umem s)).

(** The descriptor and the file. *)
Definition argfd (n : Z) : S (option (nat * nat)) := fun s =>
  match argint sz esp n (umem s) with
  | None => Ok (None, s)
  | Some fd =>
      if (fd <? 0) || (Z.of_nat NOFILE <=? fd) then Ok (None, s)
      else match ofile s !! Z.to_nat fd with
           | Some (Some f) => Ok (Some (Z.to_nat fd, f), s)
           | _ => Ok (None, s)
           end
  end.

Definition fdalloc (f : nat) : S (option nat) := fun s =>
  match find_idx (fun o : option nat => match o with None => true | Some _ => false end) (ofile s) with
  | Some fd => Ok (Some fd, mkSst (ss_k s) (<[fd := Some f]> (ofile s)) (umem s))
  | None => Ok (None, s)
  end.

Definition sys_dup : S Z :=
  o ← argfd 0;
  match o with
  | None => mret (-1)
  | Some (_, f) =>
      o ← fdalloc f;
      match o with
      | None => mret (-1)
      | Some fd => _ ← lift_k (filedup f); mret (Z.of_nat fd)
      end
  end.

Definition sys_read : S (outcome unit) :=
  o ← argfd 0;
  n ← get_arg (argint sz esp 2);
  p ← get_arg (fun m => match n with None => None | Some n => argptr sz esp 1 n m end);
  match o, n, p with
  | Some (_, f), Some n, Some p =>
      '(r, l) ← lift_k (fileread pid killed dev_read f n);
      _ ← put_mem p l;
      mret r
  | _, _, _ => mret (Done (-1))
  end.

Definition sys_write : S (outcome (list Z)) :=
  o ← argfd 0;
  n ← get_arg (argint sz esp 2);
  p ← get_arg (fun m => match n with None => None | Some n => argptr sz esp 1 n m end);
  match o, n, p with
  | Some (_, f), Some n, Some p =>
      m ← sr_gets umem;
      lift_k (filewrite pid killed dev_write f (map m (seqZ p n)) n)
  | _, _, _ => mret (Done (-1))
  end.

Definition sys_close : S Z :=
  o ← argfd 0;
  match o with
  | None => mret (-1)
  | Some (fd, f) =>
      _ ← set_fd fd None;
      _ ← lift_k (fileclose pid kend f);
      mret 0
  end.

Definition sys_fstat : S Z :=
  o ← argfd 0;
  p ← get_arg (argptr sz esp 1 20);
  match o, p with
  | Some (_, f), Some p =>
      r ← lift_k (filestat pid f);
      match r with
      | None => mret (-1)
      | Some st =>
          _ ← sr_modify (fun s => mkSst (ss_k s) (ofile s) (store_stat (umem s) p st));
          mret 0
      end
  | _, _ => mret (-1)
  end.

Definition sys_link : S Z :=
  old ← get_arg (argstr sz esp 0);
  new ← get_arg (argstr sz esp 1);
  match old, new with
  | Some old, Some new => lift_k (lift_fs (link pid dev_read dev_write old new))
  | _, _ => mret (-1)
  end.

Definition sys_unlink : S Z :=
  path ← get_arg (argstr sz esp 0);
  match path with
  | Some path => lift_k (lift_fs (unlink pid dev_read dev_write path))
  | None => mret (-1)
  end.

(** The descriptor for the inode [ip], which [open_inode] has locked. *)
Definition open_fd (ip : nat) (omode : Z) : S Z :=
  let bad := _ ← lift_k (lift_fs (iunlockput pid ip)); _ ← lift_k (lift_fs m_end_op); mret (-1) in
  o ← lift_k filealloc;
  match o with
  | None => bad
  | Some f =>
      o ← fdalloc f;
      match o with
      | None => _ ← lift_k (fileclose pid kend f); bad
      | Some fd =>
          _ ← lift_k (lift_fs (iunlock pid (Some ip)));
          _ ← lift_k (lift_fs m_end_op);
          _ ← lift_k (k_file_set f (fset_inode ip (Z.land omode O_WRONLY =? 0)
                 (negb (Z.land omode O_WRONLY =? 0) || negb (Z.land omode O_RDWR =? 0))));
          mret (Z.of_nat fd)
      end
  end.

Definition sys_open : S Z :=
  path ← get_arg (argstr sz esp 0);
  omode ← get_arg (argint sz esp 1);
  match path, omode with
  | Some path, Some omode =>
      o ← lift_k (lift_fs (open_inode pid dev_read dev_write path omode));
      match o with
      | None => mret (-1)
      | Some ip => open_fd ip omode
      end
  | _, _ => mret (-1)
  end.

Definition sys_mkdir : S Z :=
  path ← get_arg (argstr sz esp 0);
  lift_k (lift_fs (make pid dev_read dev_write path T_DIR 0 0)).

Definition sys_mknod : S Z :=
  path ← get_arg (argstr sz esp 0);
  major ← get_arg (argint sz esp 1);
  minor ← get_arg (argint sz esp 2);
  lift_k (lift_fs
    match major, minor with
    | Some major, Some minor => make pid dev_read dev_write path T_DEV major minor
    | _, _ => make pid dev_read dev_write None T_DEV 0 0
    end).

Definition sys_chdir : S Z :=
  path ← get_arg (argstr sz esp 0);
  lift_k (lift_fs (chdir pid dev_read path)).

(** The loop of [sys_exec]: the argument strings, [None] for the return of -1;
    [k] more fit in [argv]. *)
Fixpoint fetch_argv (k : nat) (uargv : Z) (m : mem) : option (list (list Z)) :=
  match k with
  | O => None
  | Datatypes.S k =>
      match fetchint sz (u32 uargv) m with
      | None => None
      | Some uarg =>
          if uarg =? 0 then Some []
          else match fetchstr sz (u32 uarg) m with
               | None => None
               | Some s => cons s <$> fetch_argv k (uargv + 4) m
               end
      end
  end.

Definition sys_exec : S Z :=
  path ← get_arg (argstr sz esp 0);
  uargv ← get_arg (argint sz esp 1);
  match path, uargv with
  | Some path, Some uargv =>
      argv ← get_arg (fetch_argv MAXARG uargv);
      match argv with
      | None => mret (-1)
      | Some argv => exec path argv
      end
  | _, _ => mret (-1)
  end.

Definition sys_pipe : S Z :=
  p ← get_arg (argptr sz esp 0 8);
  match p with
  | None => mret (-1)
  | Some p =>
      o ← lift_k (pipealloc pid kend);
      match o with
      | None => mret (-1)
      | Some (rf, wf) =>
          let bad := _ ← lift_k (fileclose pid kend rf); _ ← lift_k (fileclose pid kend wf); mret (-1) in
          o ← fdalloc rf;
          match o with
          | None => bad
          | Some fd0 =>
              o ← fdalloc wf;
              match o with
              | None => _ ← set_fd fd0 None; bad
              | Some fd1 =>
                  _ ← sr_modify (fun s => mkSst (ss_k s) (ofile s)
                        (store32 (store32 (umem s) p (Z.of_nat fd0)) (p + 4) (Z.of_nat fd1)));
                  mret 0
              end
          end
      end
  end.

(** The table of the calls of this file; the process calls are in [Proc.v]. *)
Definition syscalls (num : Z) : option (S (outcome (list Z))) :=
  let ret (m : S Z) : S (outcome (list Z)) := r ← m; mret (Done r) in
  if num =? 4 then Some (ret sys_pipe)
  else if num =? 5 then Some (r ← sys_read; mret (match r with Done r => Done r | Asleep _ => Asleep [] end))
  else if num =? 7 then Some (ret sys_exec)
  else if num =? 8 then Some (ret sys_fstat)
  else if num =? 9 then Some (ret sys_chdir)
  else if num =? 10 then Some (ret sys_dup)
  else if num =? 15 then Some (ret sys_open)
  else if num =? 16 then Some sys_write
  else if num =? 17 then Some (ret sys_mknod)
  else if num =? 18 then Some (ret sys_unlink)
  else if num =? 19 then Some (ret sys_link)
  else if num =? 20 then Some (ret sys_mkdir)
  else if num =? 21 then Some (ret sys_close)
  else None.

(** [syscall], with the number from [eax] and the process calls as an
    argument. *)
Definition syscall (proc_calls : Z -> option (S (outcome (list Z)))) (num : Z) : S (outcome (list Z)) :=
  if (0 <? num) && (num <? 22) then
    match syscalls num with
    | Some h => h
    | None => match proc_calls num with Some h => h | None => mret (Done (-1)) end
    end
  else mret (Done (-1)).

End Calls.
