(* ===== verification/SysfileFacts.v ===== *)
(** File descriptors, reference counts and pipes: what every system call on
    files keeps. *)

From S2P Require Import Prelude CString Block Bio Log Fs Kalloc Pipe File Proc Sysfile.

(** ** The invariant of the file table *)

Definition end_open (w : bool) (p : pipe) : bool := if w then writeopen p else readopen p.

(** The end of a pipe that a file stands for. *)
Definition pend_of (x : file) : option (Z * bool) :=
  match f_type x with FD_PIPE => Some (f_pipe x, f_writable x) | _ => None end.

Section Inv.
Context {C : Type} {ops : BufOps C}.
Context (pid : Z) (killed : bool) (kend sz esp : Z).
Context (dev_read : Z -> option (nat -> Z -> SR (fs C) (Z * list Z))).
Context (dev_write : Z -> option (nat -> list Z -> SR (fs C) Z)).
Implicit Types (k : kst C) (o : nat -> Z).

(** [o f] counts the references to file [f]. *)
Record kinv o k : Prop := {
  ki_ref : forall f x, ftable k !! f = Some x -> f_ref x = o f /\ 0 <= o f;
  ki_out : forall f, ftable k !! f = None -> o f = 0;
  ki_none : forall f x, ftable k !! f = Some x -> f_ref x = 0 -> f_type x = FD_NONE;
  ki_pipe : forall f x p w, ftable k !! f = Some x -> pend_of x = Some (p, w) ->
    exists P, pipes k !! p = Some P /\ end_open w P = true;
  ki_end : forall p P w, pipes k !! p = Some P -> end_open w P = true ->
    exists f x, ftable k !! f = Some x /\ pend_of x = Some (p, w);
  ki_uniq : forall f g x y e, ftable k !! f = Some x -> ftable k !! g = Some y ->
    pend_of x = Some e -> pend_of y = Some e -> f = g;
  ki_live : forall p P, pipes k !! p = Some P -> exists w, end_open w P = true;
  ki_pages : exists l, free_pages kend (k_kmem k) l /\
    forall p, is_Some (pipes k !! p) -> page_ok kend p /\ p ∉ l
}.

Definition bump o (f : nat) (d : Z) : nat -> Z := fun g => if decide (g = f) then o g + d else o g.

Lemma bump_eq o f d : bump o f d f = o f + d.
Proof. unfold bump. by rewrite decide_True. Qed.

Lemma bump_ne o f d g : g <> f -> bump o f d g = o g.
Proof. unfold bump. intros H. by rewrite decide_False. Qed.

Lemma kinv_ext o o' k : (forall f, o' f = o f) -> kinv o k -> kinv o' k.
Proof.
  intros E []. constructor; try done.
  - intros f x Hf. rewrite E. by apply ki_ref0.
  - intros f Hf. rewrite E. by apply ki_out0.
Qed.

(** Only the table, the pipes and the page allocator matter. *)
Lemma kinv_fs o k s : kinv o k -> kinv o (mkKst s (k_kmem k) (ftable k) (pipes k)).
Proof. intros []. by constructor. Qed.

(** Case analysis on the entry a lookup in an updated table finds. *)
Ltac upd_cases f g H :=
  destruct (decide (f = g)) as [<-|?];
  [ rewrite list_lookup_insert_eq in H by (by eapply lookup_lt_Some); injection H as <-
  | rewrite list_lookup_insert_ne in H by done ].

(** An update of an entry that keeps its end of a pipe. *)
Lemma kinv_upd o o' k f x y :
  kinv o k -> ftable k !! f = Some x -> pend_of y = pend_of x -> f_ref y = o' f -> 0 <= o' f ->
  (f_ref y = 0 -> f_type y = FD_NONE) -> (forall g, g <> f -> o' g = o g) ->
  kinv o' (mkKst (k_fs k) (k_kmem k) (<[f := y]> (ftable k)) (pipes k)).
Proof.
  intros [H1 H2 H3 H4 H5 H6 H7 H8] Hx Hp Hr H0 Hn Ho. constructor; cbn [ftable pipes k_kmem]; try done.
  - intros g z Hz. upd_cases f g Hz; [done|]. rewrite Ho by done. by apply H1.
  - intros g Hg. destruct (decide (f = g)) as [<-|Hne].
    + apply lookup_ge_None in Hg. rewrite length_insert in Hg. apply lookup_lt_Some in Hx. lia.
    + rewrite list_lookup_insert_ne in Hg by done. rewrite Ho by done. by apply H2.
  - intros g z Hz. upd_cases f g Hz; [done|]. by apply (H3 g).
  - intros g z p w Hz. upd_cases f g Hz; [rewrite Hp; by apply (H4 f)|]. by apply (H4 g).
  - intros p P w HP Hw. destruct (H5 p P w HP Hw) as (g & z & Hz & Hzp). destruct (decide (f = g)) as [<-|Hne].
    + exists f, y. rewrite list_lookup_insert_eq by (by eapply lookup_lt_Some). rewrite Hp. by simplify_eq.
    + exists g, z. by rewrite list_lookup_insert_ne.
  - intros g h u z e Hu Hz. upd_cases f g Hu; upd_cases f h Hz; try done.
    + rewrite Hp. by apply (H6 f h).
    + rewrite Hp. by apply (H6 g f).
    + by apply (H6 g h).
Qed.

Lemma alter_Some_insert (g : file -> file) (l : list file) i x : l !! i = Some x -> alter g i l = <[i := g x]> l.
Proof.
  intros Hx. apply list_eq. intros j. destruct (decide (i = j)) as [->|Hne].
  - rewrite list_lookup_alter_eq, Hx, list_lookup_insert_eq by (by eapply lookup_lt_Some). done.
  - by rewrite list_lookup_alter_ne, list_lookup_insert_ne.
Qed.

(** ** Hoare triples for runs that return *)

Definition trip {S A} (P : S -> Prop) (m : SR S A) (Q : A -> S -> Prop) : Prop :=
  forall s a s', P s -> m s = Ok (a, s') -> Q a s'.

Lemma trip_bind {S A B} (P : S -> Prop) (m : SR S A) (f : A -> SR S B) R Q :
  trip P m R -> (forall a, trip (R a) (f a) Q) -> trip P (m ≫= f) Q.
Proof. intros Hm Hf s b s' HP E. apply sr_bind_ok in E as (a & s1 & E1 & E2). eapply Hf; [by eapply Hm | done]. Qed.

Lemma trip_seq {S A B} (P : S -> Prop) (m : SR S A) (f : A -> SR S B) Q :
  trip P m (fun _ => P) -> (forall a, trip P (f a) Q) -> trip P (m ≫= f) Q.
Proof. apply trip_bind. Qed.

Lemma trip_ret {S A} (P : S -> Prop) (a : A) (Q : A -> S -> Prop) : (forall s, P s -> Q a s) -> trip P (mret a) Q.
Proof. intros H s b s' HP [= <- <-]. by apply H. Qed.

Lemma trip_panic {S A} (P : S -> Prop) msg (Q : A -> S -> Prop) : trip P (sr_panic msg) Q.
Proof. done. Qed.

Lemma trip_gets {S A} (P : S -> Prop) (f : S -> A) (Q : A -> S -> Prop) : (forall s, P s -> Q (f s) s) -> trip P (sr_gets f) Q.
Proof. intros H s b s' HP [= <- <-]. by apply H. Qed.

(** A routine of the file system. *)
Lemma trip_lift_fs {A} o (m : SR (fs C) A) : trip (kinv o) (lift_fs m) (fun _ => kinv o).
Proof. intros k a k' Hk E. unfold lift_fs in E. destruct (m (k_fs k)) as [[b s]| |]; [|done|done]. injection E as <- <-. by apply kinv_fs. Qed.

(** ** The operations of file.c *)

Lemma filealloc_run o k r k' :
  kinv o k -> filealloc k = Ok (r, k') ->
  match r with
  | None => k' = k
  | Some f => kinv (bump o f 1) k' /\ o f = 0 /\ exists x, ftable k !! f = Some x /\ f_type x = FD_NONE /\
      k' = mkKst (k_fs k) (k_kmem k) (<[f := fset_ref 1 x]> (ftable k)) (pipes k)
  end.
Proof.
  intros Hk E. unfold filealloc in E. destruct (find_idx _ (ftable k)) as [f|] eqn:Ef; injection E as <- <-; [|done].
  apply find_idx_Some in Ef as [(x & Hx & Hr) _]. apply Z.eqb_eq in Hr.
  pose proof (ki_ref _ _ Hk f x Hx) as [Hrf _]. pose proof (ki_none _ _ Hk f x Hx Hr) as Hty.
  rewrite (alter_Some_insert _ _ _ _ Hx). split; [|split; [lia | eauto]].
  apply (kinv_upd o _ k f x); try done; [rewrite bump_eq; cbn; lia | rewrite bump_eq; lia | intros g Hg; by rewrite bump_ne].
Qed.

Lemma trip_filedup o f : 0 <= o f < 2 ^ 31 - 1 -> trip (kinv o) (filedup f) (fun _ => kinv (bump o f 1)).
Proof.
  intros Hof k r k' Hk E. unfold filedup in E. apply sr_bind_ok in E as (x & k1 & E1 & E). injection E1 as <- <-.
  unfold nth_file in E. destruct (ftable k !! f) as [x|] eqn:Hx; cbn [default from_option id] in E; [|done].
  destruct (f_ref x <? 1) eqn:Hr1; [done|]. apply Z.ltb_ge in Hr1. apply sr_bind_ok in E as ([] & k2 & E2 & E). injection E2 as <-. injection E as <- <-.
  pose proof (ki_ref _ _ Hk f x Hx) as [Hrf _]. rewrite (alter_Some_insert _ _ _ _ Hx).
  apply (kinv_upd o _ k f x); try done; [rewrite bump_eq; cbn; rewrite s32_small; lia | rewrite bump_eq; lia | | intros g Hg; by rewrite bump_ne].
  cbn. rewrite s32_small by lia. lia.
Qed.

(** What [pipeclose] leaves of the pipe. *)
Definition closed (w : bool) (P : pipe) : pipe :=
  if w then mkPipe (p_data P) (nread P) (nwrite P) (readopen P) false
  else mkPipe (p_data P) (nread P) (nwrite P) false (writeopen P).

Lemma pipeclose_closed w P :
  pipeclose w P = (negb (end_open (negb w) P), closed w P) /\ end_open w (closed w P) = false /\
  end_open (negb w) (closed w P) = end_open (negb w) P.
Proof. unfold pipeclose, closed. destruct w; cbn; rewrite ?andb_true_r; done. Qed.

(** Entry [f], an end of pipe [p], is released: pipe [p] has that end closed,
    or is gone if the other end is closed too. *)
Lemma kinv_close_end o o' k f x p w P km ps' :
  kinv o k -> ftable k !! f = Some x -> pend_of x = Some (p, w) -> o' f = 0 -> (forall g, g <> f -> o' g = o g) ->
  pipes k !! p = Some P -> (forall q, q <> p -> ps' !! q = pipes k !! q) ->
  ps' !! p = (if end_open (negb w) P then Some (closed w P) else None) ->
  (exists l, free_pages kend km l /\ forall q, is_Some (ps' !! q) -> page_ok kend q /\ q ∉ l) ->
  kinv o' (mkKst (k_fs k) km (<[f := fset_none x]> (ftable k)) ps').
Proof.
  intros [H1 H2 H3 H4 H5 H6 H7 _] Hx Hp Ho' Ho HP Hq Hqp Hpages. destruct (pipeclose_closed w P) as (_ & Hc1 & Hc2).
  constructor; cbn [ftable pipes k_kmem]; try done.
  - intros g z Hz. upd_cases f g Hz; [cbn; lia|]. rewrite Ho by done. by apply H1.
  - intros g Hg. destruct (decide (f = g)) as [<-|Hne]; [done|]. rewrite list_lookup_insert_ne in Hg by done.
    rewrite Ho by done. by apply H2.
  - intros g z Hz. upd_cases f g Hz; [done|]. by apply (H3 g).
  - intros g z q w' Hz Hzp. upd_cases f g Hz; [done|]. destruct (H4 g z q w' Hz Hzp) as (Q & HQ1 & HQ2).
    destruct (decide (q = p)) as [->|Hne]; [|exists Q; by rewrite Hq].
    assert (w' = negb w) as -> by (destruct (decide (w' = w)) as [->|Hww]; [exfalso; eauto | by destruct w, w']).
    rewrite HP in HQ1. injection HQ1 as <-. exists (closed w P). by rewrite Hqp, HQ2, Hc2.
  - intros q Q w' HQq Hw'. destruct (decide (q = p)) as [->|Hne].
    + rewrite Hqp in HQq. destruct (end_open (negb w) P) eqn:Ho1; [|done]. injection HQq as <-.
      assert (w' = negb w) as -> by (destruct w, w'; try done; congruence).
      destruct (H5 p P (negb w) HP Ho1) as (g & z & Hz & Hzp). exists g, z. rewrite list_lookup_insert_ne; [done|].
      intros ->. rewrite Hx in Hz. injection Hz as <-. rewrite Hp in Hzp. injection Hzp. by destruct w.
    + rewrite Hq in HQq by done. destruct (H5 q Q w' HQq Hw') as (g & z & Hz & Hzp). exists g, z.
      rewrite list_lookup_insert_ne; [done|]. intros ->. rewrite Hx in Hz. injection Hz as <-. congruence.
  - intros g h u z e Hu Hz. upd_cases f g Hu; upd_cases f h Hz; try done. by apply (H6 g h).
  - intros q Q HQq. destruct (decide (q = p)) as [->|Hne].
    + rewrite Hqp in HQq. destruct (end_open (negb w) P) eqn:Ho1; [|done]. injection HQq as <-. exists (negb w). by rewrite Hc2.
    + rewrite Hq in HQq by done. by apply (H7 q).
Qed.

(** The page goes back when the second end is closed. *)
Lemma kinv_pipeclose o o' k f x p w :
  kinv o k -> ftable k !! f = Some x -> pend_of x = Some (p, w) -> o' f = 0 -> (forall g, g <> f -> o' g = o g) ->
  trip (eq (mkKst (k_fs k) (k_kmem k) (<[f := fset_none x]> (ftable k)) (pipes k))) (k_pipeclose kend p w) (fun _ => kinv o').
Proof.
  intros Hk Hx Hp Ho' Ho s a s' <- E. destruct (ki_pages _ _ Hk) as (l & Hl & Hpg). unfold k_pipeclose in E.
  apply sr_bind_ok in E as (ps & k1 & E1 & E). injection E1 as <- <-. cbn [pipes] in E.
  destruct (ki_pipe _ _ Hk f x p w Hx Hp) as (P & HP & Hw). rewrite HP, (proj1 (pipeclose_closed w P)) in E.
  destruct (end_open (negb w) P) eqn:Eo; cbn [negb] in E.
  - injection E as <- <-. eapply (kinv_close_end o); try done.
    + intros q Hq. by rewrite lookup_insert_ne.
    + by rewrite lookup_insert_eq, Eo.
    + exists l. split; [done|]. intros q. destruct (decide (q = p)) as [->|Hqp]; [intros _; apply Hpg; eauto|].
      rewrite lookup_insert_ne by done. apply Hpg.
  - apply sr_bind_ok in E as ([] & k2 & E2 & E). injection E2 as <-. unfold lift_kmem in E. cbn [k_kmem] in E.
    destruct (Hpg p) as [Hpok Hpl]; [eauto|].
    destruct (kfree_ok kend (k_kmem k) l p Hl Hpok Hpl) as (km & Ek & Hkm & _). rewrite Ek in E. cbn in E. injection E as <- <-.
    eapply (kinv_close_end o); try done.
    + intros q Hq. by rewrite lookup_delete_ne.
    + by rewrite lookup_delete_eq, Eo.
    + exists (p :: l). split; [done|]. intros q. destruct (decide (q = p)) as [->|Hqp].
      * rewrite lookup_delete_eq. by intros [? ?].
      * rewrite lookup_delete_ne by done. intros H. destruct (Hpg q H). split; [done|]. by apply not_elem_of_cons.
Qed.

Lemma trip_fileclose o f : trip (kinv o) (fileclose pid kend f) (fun _ => kinv (bump o f (-1))).
Proof.
  intros k r k' Hk E. unfold fileclose in E. apply sr_bind_ok in E as (x & k1 & E1 & E). injection E1 as <- <-.
  unfold nth_file in E. destruct (ftable k !! f) as [x|] eqn:Hx; cbn [default from_option id] in E; [|done].
  destruct (f_ref x <? 1) eqn:Hr1; [done|]. apply Z.ltb_ge in Hr1. pose proof (ki_ref _ _ Hk f x Hx) as [Hrf _].
  assert (forall g, g <> f -> bump o f (-1) g = o g) as Ho by (intros g Hg; by rewrite bump_ne).
  destruct (0 <? f_ref x - 1) eqn:Hr2.
  { apply Z.ltb_lt in Hr2. injection E as <- <-. rewrite (alter_Some_insert _ _ _ _ Hx).
    apply (kinv_upd o _ k f x); try done; rewrite ?bump_eq; cbn; lia. }
  apply Z.ltb_ge in Hr2. assert (bump o f (-1) f = 0) as H0 by (rewrite bump_eq; lia).
  apply sr_bind_ok in E as ([] & k2 & E2 & E). injection E2 as <-. rewrite (alter_Some_insert _ _ _ _ Hx) in E.
  set (k2 := mkKst _ _ _ _) in E.
  destruct (f_type x) eqn:Hty; [|eapply kinv_pipeclose; [exact Hk | exact Hx | | exact H0 | exact Ho | reflexivity | exact E]; unfold pend_of; by rewrite Hty |];
    (assert (kinv (bump o f (-1)) k2) as Hk2 by
       (apply (kinv_upd o _ k f x); try done; [unfold pend_of; by rewrite Hty | by rewrite H0])).
  - by injection E as <- <-.
  - refine (trip_seq (kinv _) _ _ (fun _ => kinv _) _ _ k2 r k' Hk2 E); [apply trip_lift_fs | intros []].
    apply trip_seq; [apply trip_lift_fs | intros []; apply trip_lift_fs].
Qed.

Lemma kinv_newpipe o k f0 f1 x y p P km l :
  kinv o k -> ftable k !! f0 = Some x -> ftable k !! f1 = Some y -> f0 <> f1 ->
  f_type x = FD_NONE -> f_type y = FD_NONE -> 1 <= f_ref x -> 1 <= f_ref y ->
  (forall w, end_open w P = true) -> free_pages kend (k_kmem k) (p :: l) -> free_pages kend km l ->
  (forall q, is_Some (pipes k !! q) -> page_ok kend q /\ q ∉ p :: l) ->
  kinv o (mkKst (k_fs k) km (<[f1 := fset_pipe false true p y]> (<[f0 := fset_pipe true false p x]> (ftable k)))
            (<[p := P]> (pipes k))).
Proof.
  intros [H1 H2 H3 H4 H5 H6 H7 _] Hx Hy Hne Hxt Hyt Hxr Hyr HP Hl Hkm Hpg.
  pose proof (fp_pages _ _ _ Hl) as Hall. pose proof (fp_nodup _ _ _ Hl) as Hnd.
  apply Forall_cons in Hall as [Hpok _]. apply list.NoDup_cons in Hnd as [Hpl _].
  assert (pipes k !! p = None) as Hpn.
  { destruct (pipes k !! p) eqn:Ep; [|done]. destruct (Hpg p) as [_ Hn]; [eauto|]. exfalso. apply Hn, list_elem_of_here. }
  assert (forall g z, ftable k !! g = Some z -> pend_of z <> None -> g <> f0 /\ g <> f1) as Hold.
  { intros g z Hz Hzp. split; intros ->; simplify_eq; unfold pend_of in Hzp; by rewrite ?Hxt, ?Hyt in Hzp. }
  assert (forall g, g <> f0 -> g <> f1 ->
    <[f1 := fset_pipe false true p y]> (<[f0 := fset_pipe true false p x]> (ftable k)) !! g = ftable k !! g) as Hother.
  { intros g Hg0 Hg1. by rewrite !list_lookup_insert_ne. }
  assert (<[f1 := fset_pipe false true p y]> (<[f0 := fset_pipe true false p x]> (ftable k)) !! f0 = Some (fset_pipe true false p x)) as Hn0.
  { rewrite list_lookup_insert_ne by done. apply list_lookup_insert_eq. by eapply lookup_lt_Some. }
  assert (<[f1 := fset_pipe false true p y]> (<[f0 := fset_pipe true false p x]> (ftable k)) !! f1 = Some (fset_pipe false true p y)) as Hn1.
  { apply list_lookup_insert_eq. rewrite length_insert. by eapply lookup_lt_Some. }
  set (T := <[f1 := _]> _) in *.
  assert (forall g z, T !! g = Some z -> g = f0 /\ z = fset_pipe true false p x \/ g = f1 /\ z = fset_pipe false true p y \/
            g <> f0 /\ g <> f1 /\ ftable k !! g = Some z) as Hcase.
  { intros g z Hz. destruct (decide (g = f0)) as [->|]; [left; split; [done | congruence]|].
    destruct (decide (g = f1)) as [->|]; [right; left; split; [done | congruence]|]. rewrite Hother in Hz by done. auto. }
  constructor; cbn [ftable pipes k_kmem].
  - intros g z Hz. destruct (Hcase g z Hz) as [[-> ->]|[[-> ->]|(_ & _ & Hz')]]; [by apply (H1 f0 x) | by apply (H1 f1 y) | by apply H1].
  - intros g Hg. apply H2. apply lookup_ge_None in Hg. unfold T in Hg. rewrite !length_insert in Hg. by apply lookup_ge_None.
  - intros g z Hz Hr0. destruct (Hcase g z Hz) as [[-> ->]|[[-> ->]|(_ & _ & Hz')]]; [cbn in Hr0; lia | cbn in Hr0; lia | by apply (H3 g)].
  - intros g z q w Hz Hzp. destruct (Hcase g z Hz) as [[-> ->]|[[-> ->]|(_ & _ & Hz')]].
    + injection Hzp as <- <-. exists P. by rewrite lookup_insert_eq.
    + injection Hzp as <- <-. exists P. by rewrite lookup_insert_eq.
    + destruct (H4 g z q w Hz' Hzp) as (Q & HQ & Hw). exists Q. rewrite lookup_insert_ne; [done | congruence].
  - intros q Q w HQ Hw. destruct (decide (q = p)) as [->|Hqp].
    + destruct w; [exists f1 | exists f0]; eexists; (split; [done|]); done.
    + rewrite lookup_insert_ne in HQ by done. destruct (H5 q Q w HQ Hw) as (g & z & Hz & Hzp).
      destruct (Hold g z Hz) as [Hg0 Hg1]; [congruence|]. exists g, z. by rewrite Hother.
  - assert (forall g z w, ftable k !! g = Some z -> pend_of z = Some (p, w) -> False) as Hnew.
    { intros g z w Hz Hzp. destruct (H4 g z p w Hz Hzp) as (Q & HQ & _). congruence. }
    intros g h u z e Hu Hz. destruct (Hcase g u Hu) as [[-> ->]|[[-> ->]|(_ & _ & Hu')]];
      destruct (Hcase h z Hz) as [[-> ->]|[[-> ->]|(_ & _ & Hz')]]; cbn; intros He1 He2; simplify_eq; try done;
      try (exfalso; by eapply Hnew). by eapply H6.
  - intros q Q HQ. destruct (decide (q = p)) as [->|Hqp].
    + rewrite lookup_insert_eq in HQ. injection HQ as <-. exists true. apply HP.
    + rewrite lookup_insert_ne in HQ by done. by apply (H7 q).
  - exists l. split; [done|]. intros q. destruct (decide (q = p)) as [->|Hqp]; [done|].
    rewrite lookup_insert_ne by done. intros Hq. destruct (Hpg q Hq) as [? Hn]. split; [done|].
    intros Hin. apply Hn. by apply list_elem_of_further.
Qed.

Lemma trip_pipealloc o :
  trip (kinv o) (pipealloc pid kend) (fun r k => match r with
    | None => kinv o k
    | Some (f0, f1) => kinv (bump (bump o f0 1) f1 1) k
    end).
Proof.
  intros k r k' Hk E. unfold pipealloc in E. apply sr_bind_ok in E as (r0 & k1 & E1 & E).
  pose proof (filealloc_run o k r0 k1 Hk E1) as R1. destruct r0 as [f0|]; [|subst k1; by injection E as <- <-].
  destruct R1 as (Hk1 & Ho0 & x & Hx & Hxt & Ek1). apply sr_bind_ok in E as (r1 & k2 & E2 & E).
  pose proof (filealloc_run _ k1 r1 k2 Hk1 E2) as R2.
  assert (forall h, bump (bump o h 1) h (-1) h = o h) as Hb by (intros h; rewrite !bump_eq; lia).
  destruct r1 as [f1|].
  2:{ subst k2. apply sr_bind_ok in E as ([] & k3 & E3 & E). injection E as <- <-.
      eapply kinv_ext; [|by eapply trip_fileclose]. intros g. destruct (decide (g = f0)) as [->|]; [by rewrite Hb | by rewrite !bump_ne]. }
  destruct R2 as (Hk2 & Ho1 & y & Hy & Hyt & Ek2).
  assert (f0 <> f1) as Hne by (intros ->; rewrite bump_eq in Ho1; lia).
  apply sr_bind_ok in E as (p & k3 & E3 & E). unfold lift_kmem in E3. destruct (kalloc (k_kmem k2)) as [p' km] eqn:Eka.
  injection E3 as <- <-. destruct (ki_pages _ _ Hk2) as (l & Hl & Hpg). pose proof (kalloc_ok kend (k_kmem k2) l Hl) as Hka.
  destruct (p' =? 0) eqn:Hp0.
  - apply sr_bind_ok in E as ([] & k4 & E4 & E). apply sr_bind_ok in E as ([] & k5 & E5 & E). injection E as <- <-.
    assert (km = k_kmem k2) as ->.
    { destruct l as [|v l]; [congruence|]. destruct Hka as (km' & Ekm & _). rewrite Eka in Ekm. injection Ekm as -> ->.
      apply Z.eqb_eq in Hp0 as ->. pose proof (fp_pages _ _ _ Hl) as Hall. apply Forall_cons in Hall as [(_ & _ & _ & ? & _) _]. lia. }
    assert (kinv (bump (bump o f0 1) f1 1) (mkKst (k_fs k2) (k_kmem k2) (ftable k2) (pipes k2))) as Hk2' by (by destruct k2).
    pose proof (trip_fileclose _ _ _ _ _ Hk2' E4) as Hk4. pose proof (trip_fileclose _ _ _ _ _ Hk4 E5) as Hk5.
    eapply kinv_ext; [|exact Hk5]. intros g. unfold bump. repeat case_decide; subst; lia.
  - destruct l as [|v l]; [rewrite Hka in Eka; injection Eka as <- <-; done|]. destruct Hka as (km' & Ekm & Hkm & _).
    rewrite Eka in Ekm. injection Ekm as -> ->.
    repeat (apply sr_bind_ok in E as (? & ? & E' & E); injection E' as <- <-). injection E as <- <-. cbn [ftable k_fs k_kmem pipes].
    assert (ftable k2 !! f0 = Some (fset_ref 1 x)) as Hf0.
    { rewrite Ek2. cbn. rewrite list_lookup_insert_ne by done. rewrite Ek1. cbn. apply list_lookup_insert_eq. by eapply lookup_lt_Some. }
    assert (ftable k2 !! f1 = Some (fset_ref 1 y)) as Hf1.
    { rewrite Ek2. cbn. apply list_lookup_insert_eq. by eapply lookup_lt_Some. }
    rewrite (alter_Some_insert _ _ f0 _ Hf0). rewrite (alter_Some_insert _ _ f1 (fset_ref 1 y)) by (by rewrite list_lookup_insert_ne).
    apply (kinv_newpipe _ k2 f0 f1 _ _ v _ km' l); try done. by intros [].
Qed.

(** ** Reading and writing *)

Lemma kinv_pipe_io o k p P P' :
  kinv o k -> pipes k !! p = Some P -> (readopen P', writeopen P') = (readopen P, writeopen P) ->
  kinv o (mkKst (k_fs k) (k_kmem k) (ftable k) (<[p := P']> (pipes k))).
Proof.
  intros [H1 H2 H3 H4 H5 H6 H7 (l & Hl & Hpg)] HP [= Er Ew].
  assert (forall w, end_open w P' = end_open w P) as Ee by (by intros []; cbn).
  constructor; cbn [ftable pipes k_kmem]; try done.
  - intros f x q w Hx Hp. destruct (H4 f x q w Hx Hp) as (Q & HQ & Hw). destruct (decide (q = p)) as [->|Hne].
    + exists P'. rewrite lookup_insert_eq, Ee. by simplify_eq.
    + exists Q. by rewrite lookup_insert_ne.
  - intros q Q w HQ Hw. destruct (decide (q = p)) as [->|Hne].
    + rewrite lookup_insert_eq in HQ. injection HQ as <-. rewrite Ee in Hw. eauto.
    + rewrite lookup_insert_ne in HQ by done. eauto.
  - intros q Q HQ. destruct (decide (q = p)) as [->|Hne].
    + rewrite lookup_insert_eq in HQ. injection HQ as <-. destruct (H7 p P HP) as [w Hw]. exists w. by rewrite Ee.
    + rewrite lookup_insert_ne in HQ by done. eauto.
  - exists l. split; [done|]. intros q. destruct (decide (q = p)) as [->|Hne]; [intros _; eauto|]. rewrite lookup_insert_ne by done. apply Hpg.
Qed.

Lemma piperead_copy_ends n p : let '(_, p') := piperead_copy n p in (readopen p', writeopen p') = (readopen p, writeopen p).
Proof.
  revert p. induction n as [|n IH]; intros p; cbn [piperead_copy]; [done|]. destruct (nread p =? nwrite p); [done|].
  destruct (p_get p) as [c p1] eqn:E. injection E as _ <-.
  specialize (IH (mkPipe (p_data p) (u32 (nread p + 1)) (nwrite p) (readopen p) (writeopen p))).
  by destruct (piperead_copy n _) as [l p2].
Qed.

Lemma piperead_run_ends b n p : let '(_, _, p') := piperead_run b n p in (readopen p', writeopen p') = (readopen p, writeopen p).
Proof.
  unfold piperead_run. destruct ((nread p =? nwrite p) && writeopen p); [by destruct b|]. pose proof (piperead_copy_ends (Z.to_nat n) p) as H.
  by destruct (piperead_copy (Z.to_nat n) p).
Qed.

Lemma pipewrite_run_ends b n l p : let '(_, p') := pipewrite_run b n l p in (readopen p', writeopen p') = (readopen p, writeopen p).
Proof.
  revert p. induction l as [|c l IH]; intros p; cbn [pipewrite_run]; [done|]. destruct (p_full p); [by destruct (negb (readopen p) || b)|]. apply (IH (p_put c p)).
Qed.

Lemma trip_set_off o f z : trip (kinv o) (k_file_set f (fset_off z)) (fun _ => kinv o).
Proof.
  intros k a k' Hk [= <- <-]. destruct (ftable k !! f) as [x|] eqn:Hx.
  - rewrite (alter_Some_insert _ _ _ _ Hx). pose proof (ki_ref _ _ Hk f x Hx). apply (kinv_upd o _ k f x); try done; [by cbn; apply H | by apply H | by apply (ki_none _ _ Hk f x)].
  - replace (alter (fset_off z) f (ftable k)) with (ftable k); [by destruct k|].
    apply list_eq. intros j. destruct (decide (f = j)) as [<-|]; [by rewrite list_lookup_alter_eq, Hx | by rewrite list_lookup_alter_ne].
Qed.

(** Walks down a routine that keeps [kinv o]. *)
Ltac keeps_kinv :=
  repeat first
    [ apply trip_lift_fs | apply trip_set_off | apply trip_panic | solve [apply trip_ret; auto] | solve [apply trip_gets; auto]
    | solve [auto] | apply trip_seq; [|intros ?]
    | match goal with |- trip _ (if ?b then _ else _) _ => destruct b end
    | match goal with |- trip _ (match ?x with FD_NONE => _ | FD_PIPE => _ | FD_INODE => _ end) _ => destruct x end
    | match goal with |- trip _ (let '(_, _) := ?p in _) _ => destruct p end ].

Lemma trip_filestat o f : trip (kinv o) (filestat pid f) (fun _ => kinv o).
Proof. unfold filestat, k_file. keeps_kinv. Qed.

Lemma trip_fileread o f n : trip (kinv o) (fileread pid killed dev_read f n) (fun _ => kinv o).
Proof.
  unfold fileread, k_file. apply trip_seq; [keeps_kinv | intros x]. destruct (negb (f_readable x)); [keeps_kinv|].
  destruct (f_type x); [keeps_kinv | | keeps_kinv].
  intros k a k' Hk E. apply sr_bind_ok in E as (ps & k1 & E1 & E). injection E1 as <- <-.
  destruct (pipes k !! f_pipe x) as [p|] eqn:Hp; [|done]. pose proof (piperead_run_ends killed n p) as He.
  destruct (piperead_run killed n p) as [[r l] p']. injection E as <- <-. by eapply kinv_pipe_io.
Qed.

Lemma trip_filewrite o f addr n : trip (kinv o) (filewrite pid killed dev_write f addr n) (fun _ => kinv o).
Proof.
  unfold filewrite, k_file. apply trip_seq; [keeps_kinv | intros x]. destruct (negb (f_writable x)); [keeps_kinv|].
  destruct (f_type x); [keeps_kinv | |].
  - intros k a k' Hk E. apply sr_bind_ok in E as (ps & k1 & E1 & E). injection E1 as <- <-.
    destruct (pipes k !! f_pipe x) as [p|] eqn:Hp; [|done].
    pose proof (pipewrite_run_ends killed (Z.of_nat (length addr)) addr p) as He. fold (pipewrite killed addr p) in He.
    destruct (pipewrite killed addr p) as [r p']. injection E as <- <-. by eapply kinv_pipe_io.
  - assert (forall part, trip (kinv o) (write_part pid dev_write f part) (fun _ => kinv o)) as Hpart
      by (intros part; unfold write_part, k_file; keeps_kinv).
    assert (forall fuel l i, trip (kinv o) (filewrite_loop pid dev_write fuel f l i n) (fun _ => kinv o)) as Hloop.
    { induction fuel as [|fu IH]; intros l i; cbn [filewrite_loop]; cbv zeta; keeps_kinv. }
    keeps_kinv.
Qed.

(** ** Descriptors *)

Definition is_fd (f : nat) (x : option nat) : Z := if decide (x = Some f) then 1 else 0.
Definition fd_count (f : nat) (l : list (option nat)) : Z := Zsum (map (is_fd f) l).

Lemma fd_count_insert f l fd x y : l !! fd = Some x -> fd_count f (<[fd := y]> l) = fd_count f l - is_fd f x + is_fd f y.
Proof.
  intros Hx. unfold fd_count. assert (map (is_fd f) (<[fd := y]> l) = <[fd := is_fd f y]> (map (is_fd f) l)) as -> by apply list_fmap_insert.
  apply Zsum_insert. by rewrite list_lookup_fmap, Hx.
Qed.

Lemma fd_count_bound f l : 0 <= fd_count f l <= Z.of_nat (length l).
Proof. induction l as [|x l IH]; [done|]. unfold fd_count, Zsum in *. cbn [map foldr length]. unfold is_fd at 1 3. case_decide; lia. Qed.

Context (exec : list Z -> list (list Z) -> SR (sst C) Z).

(** The descriptors are [l] and the references to files are [o]. *)
Definition at_fds (l : list (option nat)) o (s : sst C) : Prop := ofile s = l /\ kinv o (ss_k s).

(** The state between two system calls: the references of a file are its
    descriptors in this process and those of the [others]. *)
Definition sys_inv (others : nat -> Z) (s : sst C) : Prop :=
  length (ofile s) = NOFILE /\ kinv (fun f => others f + fd_count f (ofile s)) (ss_k s).

Lemma trip_lift_k {A} l o (m : SR (kst C) A) o' :
  trip (kinv o) m (fun _ => kinv o') -> trip (at_fds l o) (lift_k m) (fun _ => at_fds l o').
Proof.
  intros Hm s a s' [Hl Hk] E. unfold lift_k in E. destruct (m (ss_k s)) as [[b k]| |] eqn:Em; [|done|done].
  injection E as <- <-. split; [done|]. by eapply Hm.
Qed.

Lemma fdalloc_run l o f s r s' :
  at_fds l o s -> fdalloc f s = Ok (r, s') ->
  match r with
  | None => s' = s
  | Some fd => l !! fd = Some None /\ at_fds (<[fd := Some f]> l) o s'
  end.
Proof.
  intros [Hl Hk] E. unfold fdalloc in E. rewrite Hl in E. destruct (find_idx _ l) as [fd|] eqn:Ef; injection E as <- <-; [|done].
  apply find_idx_Some in Ef as [([?|] & Hx & Hr) _]; done.
Qed.

Lemma argfd_run n (s : sst C) r s' :
  argfd sz esp n s = Ok (r, s') -> s' = s /\ match r with None => True | Some (fd, f) => ofile s !! fd = Some (Some f) end.
Proof. unfold argfd. intros E. repeat case_match; simplify_eq; done. Qed.

Lemma trip_same {A} l o (m : SR (sst C) A) : (forall s a s', m s = Ok (a, s') -> s' = s) -> trip (at_fds l o) m (fun _ => at_fds l o).
Proof. intros H s a s' Hs E. by rewrite (H _ _ _ E). Qed.

(** A file gains a reference in descriptor [fd]. *)
Lemma count_add others f fd l g :
  l !! fd = Some None -> others g + fd_count g (<[fd := Some f]> l) = bump (fun g => others g + fd_count g l) f 1 g.
Proof.
  intros Hl. rewrite (fd_count_insert _ _ _ _ _ Hl). unfold bump, is_fd. rewrite decide_False by done.
  destruct (decide (g = f)) as [->|Hne]; [rewrite decide_True by done; lia | rewrite decide_False by congruence; lia].
Qed.

Lemma count_sub others f fd l g :
  l !! fd = Some (Some f) -> others g + fd_count g (<[fd := None]> l) = bump (fun g => others g + fd_count g l) f (-1) g.
Proof.
  intros Hl. rewrite (fd_count_insert _ _ _ _ _ Hl). unfold bump, is_fd. rewrite (decide_False (P := None = Some g)) by done.
  destruct (decide (g = f)) as [->|Hne]; [rewrite decide_True by done; lia | rewrite decide_False by congruence; lia].
Qed.

Section Step.
Context (others : nat -> Z).
Hypothesis Hothers : forall f, 0 <= others f <= 1008.   (* 63 other processes *)
Abbreviation keeps m := (trip (sys_inv others) m (fun _ => sys_inv others)).

Lemma sys_inv_at s : sys_inv others s -> at_fds (ofile s) (fun f => others f + fd_count f (ofile s)) s.
Proof. by intros [_ H]. Qed.

Lemma at_sys_inv l o s : length l = NOFILE -> (forall f, others f + fd_count f l = o f) -> at_fds l o s -> sys_inv others s.
Proof. intros Hl Ho [<- Hk]. split; [done|]. eapply kinv_ext; [|exact Hk]. done. Qed.

(** What keeps the descriptors and the references keeps the invariant. *)
Lemma keeps_at {A} (m : SR (sst C) A) : (forall l o, trip (at_fds l o) m (fun _ => at_fds l o)) -> keeps m.
Proof. intros H s a s' Hs E. eapply at_sys_inv; [apply Hs | reflexivity | eapply H; [by apply sys_inv_at | exact E]]. Qed.

Lemma keeps_dup : keeps (sys_dup sz esp).
Proof.
  intros s a s' Hs E. unfold sys_dup in E. apply sr_bind_ok in E as (r & s1 & E1 & E). apply argfd_run in E1 as [-> Hr].
  destruct r as [[fd0 f]|]; [|by injection E as <- <-]. apply sr_bind_ok in E as (r & s2 & E2 & E).
  pose proof (fdalloc_run _ _ _ _ _ _ (sys_inv_at _ Hs) E2) as H2. destruct r as [fd|]; [|subst s2; by injection E as <- <-].
  destruct H2 as [Hn H2]. apply sr_bind_ok in E as (x & s3 & E3 & E). injection E as <- <-.
  pose proof (fd_count_bound f (ofile s)) as Hb. rewrite (proj1 Hs) in Hb. pose proof (Hothers f). unfold NOFILE in Hb.
  eapply (at_sys_inv (<[fd := Some f]> (ofile s)) (bump (fun g => others g + fd_count g (ofile s)) f 1));
    [rewrite length_insert; apply Hs | intros g; by apply count_add |].
  eapply (trip_lift_k _ _ (filedup f)); [apply trip_filedup; lia | exact H2 | exact E3].
Qed.

Lemma keeps_close : keeps (sys_close pid kend sz esp).
Proof.
  intros s a s' Hs E. unfold sys_close in E. apply sr_bind_ok in E as (r & s1 & E1 & E). apply argfd_run in E1 as [-> Hr].
  destruct r as [[fd f]|]; [|by injection E as <- <-]. apply sr_bind_ok in E as ([] & s2 & E2 & E). injection E2 as <-.
  apply sr_bind_ok in E as ([] & s3 & E3 & E). injection E as <- <-.
  eapply (at_sys_inv (<[fd := None]> (ofile s)) (bump (fun g => others g + fd_count g (ofile s)) f (-1)));
    [rewrite length_insert; apply Hs | intros g; by apply count_sub |].
  eapply (trip_lift_k _ _ (fileclose pid kend f)); [apply trip_fileclose | | exact E3]. split; [done | apply Hs].
Qed.

(** ** [open] *)

(** File [f] is allocated but has no type yet. *)
Definition at_new l o (f : nat) (s : sst C) : Prop :=
  at_fds l o s /\ exists x, ftable (ss_k s) !! f = Some x /\ f_type x = FD_NONE /\ f_ref x <> 0.

Lemma trip_new_fs {A} l o f (m : SR (fs C) A) : trip (at_new l o f) (lift_k (lift_fs m)) (fun _ => at_new l o f).
Proof.
  intros s a s' [Hs Hx] E. split; [eapply (trip_lift_k l o (lift_fs m)); [apply trip_lift_fs | exact Hs | exact E]|].
  unfold lift_k, lift_fs in E. destruct (m (k_fs (ss_k s))) as [[b k]| |]; [|done|done]. by injection E as <- <-.
Qed.

Lemma filealloc_new l o s r s' :
  at_fds l o s -> lift_k filealloc s = Ok (r, s') ->
  match r with None => at_fds l o s' | Some f => at_new l (bump o f 1) f s' end.
Proof.
  intros [Hl Hk] E. unfold lift_k in E. destruct (filealloc (ss_k s)) as [[b k]| |] eqn:Ef; [|done|done]. injection E as <- <-.
  pose proof (filealloc_run o _ _ _ Hk Ef) as H. destruct b as [f|]; [|by subst k].
  destruct H as (H1 & _ & x & Hx & Hxt & ->). split; [done|]. exists (fset_ref 1 x). cbn.
  rewrite list_lookup_insert_eq by (by eapply lookup_lt_Some). done.
Qed.

Lemma trip_set_inode l o f ip r w : trip (at_new l o f) (lift_k (k_file_set f (fset_inode ip r w))) (fun _ => at_fds l o).
Proof.
  intros s a s' [[Hl Hk] (x & Hx & Hxt & Hxr)] E. injection E as <- <-. split; [done|]. cbn.
  rewrite (alter_Some_insert _ _ _ _ Hx). pose proof (ki_ref _ _ Hk f x Hx) as [? ?].
  apply (kinv_upd o _ _ f x); try done. unfold pend_of. by rewrite Hxt.
Qed.

(** Walks down a call that keeps the descriptors and the references. *)
Ltac keeps_fds :=
  repeat first
    [ apply trip_lift_k; first [apply trip_lift_fs | apply trip_fileread | apply trip_filewrite | apply trip_filestat]
    | apply trip_same; solve [intros ? ? ? [= <- <-]; done | intros ? ? ? ?%argfd_run; by destruct_and?]
    | solve [intros ? ? ? ? [= <- <-]; done] | apply trip_panic | apply trip_seq; [|intros ?]
    | match goal with |- trip _ (match ?x with Some _ => _ | None => _ end) _ => destruct x end
    | match goal with |- trip _ (let '(_, _) := ?p in _) _ => destruct p end ].

Lemma keeps_open : keeps (sys_open pid kend sz esp dev_read dev_write).
Proof.
  assert (forall ip omode, keeps (open_fd pid kend ip omode)) as Hfd.
  { intros ip omode s a s' Hs E. unfold open_fd in E. apply sr_bind_ok in E as (r & s1 & E1 & E).
    pose proof (filealloc_new _ _ _ _ _ (sys_inv_at _ Hs) E1) as H1.
    set (l := ofile s) in *. set (o := fun f => others f + fd_count f l) in *.
    assert (trip (at_fds l o) (_ ← lift_k (lift_fs (iunlockput pid ip)); _ ← lift_k (lift_fs m_end_op); mret (-1)) (fun _ => at_fds l o)) as Hbad by keeps_fds.
    destruct r as [f|]; [|eapply at_sys_inv; [apply Hs | reflexivity | by eapply Hbad]].
    apply sr_bind_ok in E as (r & s2 & E2 & E). pose proof (fdalloc_run _ _ _ _ _ _ (proj1 H1) E2) as H2. destruct r as [fd|].
    - destruct H2 as [Hn H2].
      assert (at_new (<[fd := Some f]> l) (bump o f 1) f s2) as H2'.
      { split; [done|]. unfold fdalloc in E2. case_match; injection E2 as E2; subst; exact (proj2 H1). }
      eapply (at_sys_inv (<[fd := Some f]> l)); [rewrite length_insert; apply Hs | intros g; by apply count_add |].
      match type of E with ?m s2 = _ =>
        assert (trip (at_new (<[fd := Some f]> l) (bump o f 1) f) m (fun _ => at_fds (<[fd := Some f]> l) (bump o f 1))) as Ht end;
        [|exact (Ht _ _ _ H2' E)].
      apply trip_seq; [apply trip_new_fs | intros []]. apply trip_seq; [apply trip_new_fs | intros []].
      eapply trip_bind; [apply trip_set_inode | intros []; keeps_fds].
    - subst s2. apply sr_bind_ok in E as ([] & s3 & E3 & E).
      eapply at_sys_inv; [apply Hs | | eapply Hbad; [|exact E]]; [reflexivity|].
      pose proof (trip_lift_k l _ _ _ (trip_fileclose (bump o f 1) f) _ _ _ (proj1 H1) E3) as [Hl3 H3]. split; [done|].
      eapply kinv_ext; [|exact H3]. intros g. unfold bump. case_decide; lia. }
  unfold sys_open. apply trip_seq; [apply keeps_at; intros; unfold get_arg; keeps_fds | intros path].
  apply trip_seq; [apply keeps_at; intros; unfold get_arg; keeps_fds | intros omode].
  destruct path as [path|]; [|apply keeps_at; intros; keeps_fds]. destruct omode as [omode|]; [|apply keeps_at; intros; keeps_fds].
  apply trip_seq; [apply keeps_at; intros; keeps_fds | intros [ip|]; [apply Hfd | apply keeps_at; intros; keeps_fds]].
Qed.

(** ** [pipe] *)

Lemma keeps_pipe : keeps (sys_pipe pid kend sz esp).
Proof.
  intros s a s' Hs E. unfold sys_pipe in E. apply sr_bind_ok in E as (p & s1 & E1 & E). injection E1 as <- <-.
  destruct (argptr sz esp 0 8 (umem s)) as [p|]; [|by injection E as <- <-]. apply sr_bind_ok in E as (r & s1 & E1 & E).
  set (l := ofile s) in *. set (o := fun f => others f + fd_count f l) in *.
  assert (ofile s1 = l /\ match r with None => kinv o (ss_k s1) | Some (f0, f1) => kinv (bump (bump o f0 1) f1 1) (ss_k s1) end) as [Hl1 H1].
  { unfold lift_k in E1. destruct (pipealloc pid kend (ss_k s)) as [[b k]| |] eqn:Ep; [|done|done]. injection E1 as <- <-.
    split; [done|]. exact (trip_pipealloc o _ _ _ (proj2 Hs) Ep). }
  destruct r as [[rf wf]|]; [|injection E as <- <-; eapply at_sys_inv; [apply Hs | reflexivity | done]].
  assert (forall l', trip (at_fds l' (bump (bump o rf 1) wf 1))
    (_ ← lift_k (fileclose pid kend rf); _ ← lift_k (fileclose pid kend wf); mret (-1)) (fun _ => at_fds l' o)) as Hbad.
  { intros l'. eapply trip_bind; [apply trip_lift_k, trip_fileclose | intros []].
    eapply trip_bind; [apply trip_lift_k, trip_fileclose | intros []]. apply trip_ret. intros st [H2 H3]. split; [done|].
    eapply kinv_ext; [|exact H3]. intros g. unfold bump. repeat case_decide; lia. }
  apply sr_bind_ok in E as (r0 & s2 & E2 & E). pose proof (fdalloc_run l _ _ _ _ _ (conj Hl1 H1) E2) as H2.
  destruct r0 as [fd0|]; [|subst s2; eapply at_sys_inv; [apply Hs | reflexivity | eapply Hbad; [split; [exact Hl1 | exact H1] | exact E]]].
  destruct H2 as [Hn0 H2]. apply sr_bind_ok in E as (r1 & s3 & E3 & E).
  pose proof (fdalloc_run _ _ _ _ _ _ H2 E3) as H3. destruct r1 as [fd1|].
  - destruct H3 as [Hn1 H3]. apply sr_bind_ok in E as ([] & s4 & E4 & E). injection E4 as <-. injection E as <- <-.
    eapply (at_sys_inv (<[fd1 := Some wf]> (<[fd0 := Some rf]> l)) (bump (bump o rf 1) wf 1));
      [rewrite !length_insert; apply Hs | | exact H3].
    intros g. rewrite count_add by done. unfold bump at 1 2. rewrite (count_add others rf fd0 l g Hn0). done.
  - subst s3. apply sr_bind_ok in E as ([] & s4 & E4 & E). injection E4 as <-.
    eapply (at_sys_inv l o); [apply Hs | reflexivity |]. eapply Hbad; [|exact E]. destruct H2 as [H21 H22]. split; [|exact H22].
    cbn. rewrite H21, list_insert_insert_eq. by apply list_insert_id.
Qed.

(** ** All calls *)

Hypothesis Hexec : forall path argv l o, trip (at_fds l o) (exec path argv) (fun _ => at_fds l o).

Lemma keeps_others num h :
  num ∈ [5; 7; 8; 9; 16; 17; 18; 19; 20] ->
  syscalls pid killed kend sz esp dev_read dev_write exec num = Some h -> keeps h.
Proof.
  intros Hn Eh. apply keeps_at. intros l o.
  repeat (apply elem_of_cons in Hn as [->|Hn]; [injection Eh as <-|]); [..|by apply not_elem_of_nil in Hn].
  all: try unfold sys_read; try unfold sys_exec; try unfold sys_fstat; try unfold sys_chdir; try unfold sys_write;
    try unfold sys_mknod; try unfold sys_unlink; try unfold sys_link; try unfold sys_mkdir; unfold get_arg.
  all: repeat first [ apply Hexec | progress keeps_fds ].
Qed.

Lemma syscalls_keep num h s r s' :
  syscalls pid killed kend sz esp dev_read dev_write exec num = Some h ->
  sys_inv others s -> h s = Ok (r, s') -> sys_inv others s'.
Proof.
  intros Eh. assert (keeps h) as H; [|apply H]. revert Eh. unfold syscalls.
  assert (forall m : SR (sst C) Z, keeps m -> forall h' : SR (sst C) (outcome (list Z)), Some (r ← m; mret (Done r)) = Some h' -> keeps h') as Hret.
  { intros m Hm h' [= <-]. apply trip_seq; [done | intros ?; by apply trip_ret]. }
  destruct (decide (num = 4)) as [->|N4]; [apply Hret, keeps_pipe|].
  destruct (decide (num = 10)) as [->|N10]; [apply Hret, keeps_dup|].
  destruct (decide (num = 15)) as [->|N15]; [apply Hret, keeps_open|].
  destruct (decide (num = 21)) as [->|N21]; [apply Hret, keeps_close|].
  intros Eh. apply (keeps_others num); [|exact Eh]. revert Eh. rewrite !(proj2 (Z.eqb_neq num _)) by done.
  repeat match goal with |- (if ?b =? ?c then _ else _) = _ -> _ => destruct (Z.eqb_spec b c) as [->|]; [intros _; set_solver|] end. done.
Qed.

End Step.
End Inv.

(** ** Arguments *)

Lemma scan_str_spec fuel m a str :
  scan_str fuel m a = Some str ->
  (length str < fuel)%nat /\ m (a + Z.of_nat (length str)) = 0 /\
  forall i c, str !! i = Some c -> m (a + Z.of_nat i) = c /\ c <> 0.
Proof.
  revert a str. induction fuel as [|f IH]; intros a str; cbn [scan_str]; [done|]. destruct (m a =? 0) eqn:E.
  - intros [= <-]. apply Z.eqb_eq in E. split_and!; [cbn; lia | by rewrite Z.add_0_r | done].
  - apply Z.eqb_neq in E. intros H. apply fmap_Some in H as (str' & H & ->). destruct (IH _ _ H) as (H1 & H2 & H3). cbn [length].
    split_and!; [lia | rewrite <-H2; f_equal; lia |]. intros [|i] c Hc.
    + injection Hc as <-. by rewrite Z.add_0_r.
    + replace (a + Z.of_nat (S i)) with (a + 1 + Z.of_nat i) by lia. by apply H3.
Qed.

(** A string of the process: it ends before [sz]. *)
Definition string_in (sz : Z) (m : mem) (str : list Z) : Prop :=
  exists a, 0 <= a /\ a + Z.of_nat (length str) < sz /\ m (a + Z.of_nat (length str)) = 0 /\
    forall i c, str !! i = Some c -> m (a + Z.of_nat i) = c /\ c <> 0.

Lemma fetchstr_in sz m a str : 0 <= a -> fetchstr sz a m = Some str -> string_in sz m str.
Proof.
  intros Ha. unfold fetchstr. destruct (sz <=? a) eqn:E; [done|]. apply Z.leb_gt in E.
  intros H. apply scan_str_spec in H as (H1 & H2 & H3). exists a. split_and!; [done | lia | done | done].
Qed.

Lemma fetch_argv_in sz k a m argv :
  fetch_argv sz k a m = Some argv -> (length argv < k)%nat /\ Forall (string_in sz m) argv.
Proof.
  revert a argv. induction k as [|k IH]; intros a argv; cbn [fetch_argv]; [done|].
  destruct (fetchint sz (u32 a) m) as [u|]; [|done]. destruct (u =? 0); [intros [= <-]; split; [cbn; lia | constructor]|].
  destruct (fetchstr sz (u32 u) m) as [str|] eqn:Es; [|done]. intros H. apply fmap_Some in H as (rest & H & ->).
  destruct (IH _ _ H) as [H1 H2]. split; [cbn; lia|]. constructor; [|done]. eapply fetchstr_in; [|exact Es]. apply u32_range.
Qed.

(** C11: The kernel never reads or writes outside the process on its behalf.
    With the process below the kernel, a pointer argument that [argptr]
    accepts delimits a range of the process's memory, whatever the size asked
    for (also a negative one, or one that makes the sum wrap around); a string
    argument is NUL-terminated inside the process; and [sys_exec] takes fewer
    than 32 arguments, each of them such a string. *)
Theorem syscall_args_in_bounds sz esp m :
  0 <= sz <= KERNBASE ->
  (forall n size p, - 2 ^ 31 <= size < 2 ^ 31 -> argptr sz esp n size m = Some p -> 0 <= p /\ 0 <= size /\ p + size <= sz) /\
  (forall n str, argstr sz esp n m = Some str -> string_in sz m str) /\
  (forall uargv argv, fetch_argv sz MAXARG uargv m = Some argv -> (length argv < 32)%nat /\ Forall (string_in sz m) argv).
Proof.
  intros Hsz. change KERNBASE with (2 ^ 31) in Hsz. split_and!.
  - intros n size p Hs. unfold argptr. destruct (argint sz esp n m) as [i|]; [|done].
    destruct (size <? 0) eqn:E1; [done|]. destruct (sz <=? u32 i) eqn:E2; [done|]. cbn [orb].
    destruct (sz <? u32 (u32 i + size)) eqn:E3; [done|]. intros [= <-]. pose proof (u32_range i).
    apply Z.ltb_ge in E1, E3. apply Z.leb_gt in E2. rewrite u32_small in E3 by lia. lia.
  - intros n str. unfold argstr. destruct (argint sz esp n m) as [i|]; [|done]. apply fetchstr_in, u32_range.
  - intros uargv argv. apply fetch_argv_in.
Qed.

Lemma syscall_args_in_bounds_witness :
  let m := store32 (fun _ => 0) 4 100 in
  argptr 4096 0 0 8 m = Some 100 /\ 100 + 8 <= 4096 /\ argptr 4096 0 0 (2 ^ 31 - 1) m = None.
Proof.
  intros m. split; [vm_compute; reflexivity|]. split; [|vm_compute; reflexivity].
  apply (proj1 (syscall_args_in_bounds 4096 0 m ltac:(vm_compute; split; congruence)) 0 8 100); [lia | vm_compute; reflexivity].
Defined.


(** One free page, no open files, and the address 100 as the argument. *)
Definition demo_kmem : kmem := mkKmem true 0x80400000 (store32 (fun _ => 0) 0x80400000 0).
Definition demo_sys : sst bio :=
  mkSst (mkKst (mkFs (binit ∅ 20) log0 (mkSb 20 6 8 10 2 12 13) [] 0) demo_kmem (replicate NFILE file0) ∅)
    (replicate NOFILE None) (store32 (fun _ => 0) 4 100).

Lemma demo_sys_inv : sys_inv 0x80300000 (fun _ => 0) demo_sys.
Proof.
  assert (forall f x, replicate NFILE file0 !! f = Some x -> x = file0) as Hf by (intros f x H; by apply lookup_replicate in H as [-> _]).
  assert (forall f, fd_count f (replicate NOFILE None) = 0) as Hc.
  { intros f. vm_compute. reflexivity. }
  split; [reflexivity|]. constructor; cbn [ss_k ftable pipes k_kmem demo_sys ofile].
  - intros f x ->%Hf. by rewrite Hc.
  - intros f _. by rewrite Hc.
  - by intros f x ->%Hf.
  - by intros f x p w ->%Hf.
  - intros p P w. by rewrite lookup_empty.
  - by intros f g x y e ->%Hf.
  - intros p P. by rewrite lookup_empty.
  - exists [0x80400000]. split; [|intros p; rewrite lookup_empty; by intros [? ?]].
    constructor; [done | | apply NoDup_singleton |].
    + constructor; [|constructor]. unfold page_ok. split_and!; vm_compute; congruence.
    + intros a. cbn. unfold store32, mset. repeat case_match; try apply u8_range. unfold is_byte. lia.
Defined.

