(* ===== verification/Exec.v ===== *)
(** Running a program, [xv6/base/exec.c].

    The state holds the file system, the kernel's memory with the page
    allocator, and the fields of the process that [exec] replaces.  [goto bad]
    is spelled out where it is taken.  Pointers into the image of the caller
    ([path], [argv]) are the strings they point to; the words pushed on the
    stack of the program are bytes of the new address space.  Loading the page
    table into the processor ([switchuvm]) is not represented.

    The theorem, in [ExecFacts.v], is about the address space and the registers
    the program starts with, and about what is left when [exec] fails. *)

From S2P Require Import Prelude CString Block Bio Log Fs Kalloc Pipe File Proc Sysfile Vm.

Definition ELF_MAGIC : Z := 0x464C457F.
Definition ELF_PROG_LOAD : Z := 1.

(** [struct elfhdr] and [struct proghdr]: the fields that are read *)
Definition elf_magic (b : list Z) : Z := get32 b 0.
Definition elf_entry (b : list Z) : Z := get32 b 24.
Definition elf_phoff (b : list Z) : Z := get32 b 28.
Definition elf_phnum (b : list Z) : Z := get16 b 44.
Definition ph_type (b : list Z) : Z := get32 b 0.
Definition ph_off (b : list Z) : Z := get32 b 4.
Definition ph_vaddr (b : list Z) : Z := get32 b 8.
Definition ph_filesz (b : list Z) : Z := get32 b 16.
Definition ph_memsz (b : list Z) : Z := get32 b 20.

(** The fields of the process: page directory, size, [tf->eip], [tf->esp], name *)
Record uimage := mkUimage { x_pgdir : Z; x_sz : Z; x_eip : Z; x_esp : Z; x_name : list Z }.

Record est (C : Type) := mkEst { e_fs : fs C; e_k : kmem; e_img : uimage }.
Arguments mkEst {C} _ _ _.
Arguments e_fs {C} _.
Arguments e_k {C} _.
Arguments e_img {C} _.

(** The words [l], as they lie in memory *)
Definition words (l : list Z) : list Z := concat (map le32 l).

(** The part of [path] after the last slash *)
Fixpoint last_elem (last path : list Z) : list Z :=
  match path with
  | [] => last
  | c :: path' => if c =? 47 then last_elem path' path' else last_elem last path'
  end.

Section Exec.
Context {C : Type} {ops : BufOps C}.
Context (pid kend data : Z).
Context (dev_read : Z -> option (nat -> Z -> SR (fs C) (Z * list Z))).
Abbreviation X := (SR (est C)).

Definition x_fs {A} (m : SR (fs C) A) : X A := fun s =>
  match m (e_fs s) with
  | Ok (a, f) => Ok (a, mkEst f (e_k s) (e_img s))
  | Panic msg => Panic msg
  | Sleeps ch => Sleeps ch
  end.
Definition x_vm {A} (m : VM A) : X A := fun s =>
  match m (e_k s) with
  | Ok (a, k) => Ok (a, mkEst (e_fs s) k (e_img s))
  | Panic msg => Panic msg
  | Sleeps ch => Sleeps ch
  end.

(** The loop over the program headers: the size, [None] for [goto bad]. *)
Fixpoint load_segs (cnt : nat) (ip : nat) (pgdir off sz : Z) : X (option Z) :=
  match cnt with
  | O => mret (Some sz)
  | S c =>
      '(r, ph) ← x_fs (readi dev_read ip (u32 off) 32);
      if negb (r =? 32) then mret None
      else if negb (ph_type ph =? ELF_PROG_LOAD) then load_segs c ip pgdir (s32 (off + 32)) sz
      else if ph_memsz ph <? ph_filesz ph then mret None
      else if u32 (ph_vaddr ph + ph_memsz ph) <? ph_vaddr ph then mret None
      else
        sz ← x_vm (allocuvm kend pgdir sz (u32 (ph_vaddr ph + ph_memsz ph)));
        if sz =? 0 then mret None
        else if negb (ph_vaddr ph mod PGSIZE =? 0) then mret None
        else
          r ← loaduvm (@x_vm) (fun off n => x_fs (readi dev_read ip off n)) pgdir (ph_vaddr ph) (ph_off ph) (ph_filesz ph);
          if r <? 0 then mret None
          else load_segs c ip pgdir (s32 (off + 32)) (u32 sz)
  end.

(** Pushing the argument strings: the stack pointer and the pointers, [None]
    for [goto bad]. *)
Fixpoint push_args (argv : list (list Z)) (pgdir : Z) (argc : nat) (sp : Z) (ptrs : list Z) : VM (option (Z * list Z)) :=
  match argv with
  | [] => mret (Some (sp, ptrs))
  | a :: argv' =>
      if (MAXARG <=? argc)%nat then mret None
      else
        let sp := Z.land (u32 (sp - (Z.of_nat (length a) + 1))) (u32 (Z.lnot 3)) in
        r ← copyout pgdir sp (a ++ [0]);
        if r <? 0 then mret None
        else push_args argv' pgdir (S argc) sp (ptrs ++ [sp])
  end.

(** From the program headers being loaded to the end. *)
Definition exec_stack (path : list Z) (argv : list (list Z)) (entry pgdir sz : Z) : X Z :=
  let bad := _ ← x_vm (freevm kend pgdir); mret (-1) in
  let sz := PGROUNDUP sz in
  sz ← x_vm (allocuvm kend pgdir sz (u32 (sz + 2 * PGSIZE)));
  if sz =? 0 then bad
  else
    let sz := u32 sz in
    _ ← x_vm (clearpteu pgdir (u32 (sz - 2 * PGSIZE)));
    o ← x_vm (push_args argv pgdir 0 sz []);
    match o with
    | None => bad
    | Some (sp, ptrs) =>
        let argc := Z.of_nat (length argv) in
        let ustack := [0xffffffff; argc; u32 (sp - (argc + 1) * 4)] ++ ptrs ++ [0] in
        let sp := u32 (sp - (3 + argc + 1) * 4) in
        r ← x_vm (copyout pgdir sp (words ustack));
        if r <? 0 then bad
        else
          oldpgdir ← sr_gets (fun s => x_pgdir (e_img s));
          _ ← sr_modify (fun s => mkEst (e_fs s) (e_k s) (mkUimage pgdir sz entry sp (take 15 (last_elem path path))));
          _ ← x_vm (freevm kend oldpgdir);
          mret 0
    end.

Definition exec (path : list Z) (argv : list (list Z)) : X Z :=
  _ ← x_fs m_begin_op;
  o ← x_fs (namei pid dev_read path);
  match o with
  | None => _ ← x_fs m_end_op; mret (-1)
  | Some ip =>
      _ ← x_fs (ilock pid (Some ip));
      let close := _ ← x_fs (iunlockput pid ip); x_fs m_end_op in
      '(r, elf) ← x_fs (readi dev_read ip 0 52);
      if negb (r =? 52) then _ ← close; mret (-1)
      else if negb (elf_magic elf =? ELF_MAGIC) then _ ← close; mret (-1)
      else
        pgdir ← x_vm (setupkvm kend data);
        if pgdir =? 0 then _ ← close; mret (-1)
        else
          o ← load_segs (Z.to_nat (elf_phnum elf)) ip pgdir (s32 (elf_phoff elf)) 0;
          match o with
          | None =>
              _ ← x_vm (freevm kend pgdir);
              _ ← close; mret (-1)
          | Some sz =>
              _ ← close;
              exec_stack path argv (elf_entry elf) pgdir sz
          end
  end.

End Exec.
