(* ===== verification/ExecFacts.v ===== *)
(** [exec] is correct: the program starts with the segments of its file and with
    its arguments on the stack, or the caller keeps its image and every page
    taken is free again.

    The pages are followed with [built] of [VmSpace.v]; the file system enters
    through the reads of the open file and its closing, which the facts on
    [readi], [iput] and [end_op] provide. *)

From S2P Require Import Prelude CString Block Bio Log Fs FsFacts Kalloc Pipe File FileFacts Proc Sysfile Vm VmFacts VmSpace Exec.

(** ** The stack of the program *)

(** Where the argument strings go below [sp], and the stack pointer after them. *)
Definition arg_sp (sp : Z) (a : list Z) : Z := (sp - (Z.of_nat (length a) + 1)) / 4 * 4.
Fixpoint arg_ptrs (argv : list (list Z)) (sp : Z) : list Z :=
  match argv with [] => [] | a :: argv' => arg_sp sp a :: arg_ptrs argv' (arg_sp sp a) end.
Definition args_sp (argv : list (list Z)) (sp : Z) : Z := foldl arg_sp sp argv.
Fixpoint push_mem (argv : list (list Z)) (sp : Z) (u : mem) : mem :=
  match argv with [] => u | a :: argv' => push_mem argv' (arg_sp sp a) (put_bytes u (arg_sp sp a) (a ++ [0])) end.

(** The string [a] at address [p]. *)
Definition string_at (u : mem) (p : Z) (a : list Z) : Prop :=
  (forall j c, a !! j = Some c -> u (p + Z.of_nat j) = c) /\ u (p + Z.of_nat (length a)) = 0.

(** The stack [main(argc, argv)] expects: a return address, [argc], [argv], and
    the array of the pointers to the strings. *)
Definition args_at (u : mem) (esp : Z) (argv : list (list Z)) : Prop :=
  load32 u esp = 0xffffffff /\ load32 u (esp + 4) = Z.of_nat (length argv) /\ load32 u (esp + 8) = esp + 12 /\
  (forall i a, argv !! i = Some a -> string_at u (load32 u (esp + 12 + 4 * Z.of_nat i)) a) /\
  load32 u (esp + 12 + 4 * Z.of_nat (length argv)) = 0.

Lemma land_align z : 0 <= z < 2 ^ 32 -> Z.land z (u32 (Z.lnot 3)) = z / 4 * 4.
Proof.
  intros Hz. change (u32 (Z.lnot 3)) with (Z.land (Z.lnot (Z.ones 2)) (Z.ones 32)).
  rewrite Z.land_assoc, <-Z.ldiff_land, Z.ldiff_ones_r, Z.land_ones by lia.
  rewrite Z.shiftl_mul_pow2, Z.shiftr_div_pow2 by lia. change (2 ^ 2) with 4. apply Z.mod_small. zlia.
Qed.

Lemma arg_sp_le sp a : arg_sp sp a + Z.of_nat (length a) + 1 <= sp /\ sp - Z.of_nat (length a) - 4 <= arg_sp sp a /\ arg_sp sp a mod 4 = 0.
Proof. unfold arg_sp. zlia. Qed.

Lemma args_sp_le argv sp : args_sp argv sp <= sp.
Proof.
  revert sp. induction argv as [|a argv IH]; intros sp; [done|]. unfold args_sp in *. cbn [foldl].
  pose proof (IH (arg_sp sp a)). pose proof (arg_sp_le sp a). lia.
Qed.

Lemma args_sp_mod argv sp : sp mod 4 = 0 -> args_sp argv sp mod 4 = 0.
Proof.
  revert sp. induction argv as [|a argv IH]; intros sp Hsp; [done|]. apply IH. apply arg_sp_le.
Qed.

Lemma arg_ptrs_length argv sp : length (arg_ptrs argv sp) = length argv.
Proof. revert sp. induction argv as [|a argv IH]; intros sp; [done|]. cbn. by rewrite IH. Qed.

Lemma push_mem_out argv sp u x : x < args_sp argv sp \/ sp <= x -> push_mem argv sp u x = u x.
Proof.
  revert sp u. induction argv as [|a argv IH]; intros sp u Hx; [done|]. cbn [push_mem]. unfold args_sp in *. cbn [foldl] in Hx.
  pose proof (arg_sp_le sp a). rewrite IH by lia. rewrite put_bytes_at, length_app. cbn [length].
  pose proof (args_sp_le argv (arg_sp sp a)) as Hle. unfold args_sp in Hle. case_within; [lia | done].
Qed.

Lemma put_string u p a : string_at (put_bytes u p (a ++ [0])) p a.
Proof.
  split.
  - intros j c Hj. pose proof (lookup_lt_Some _ _ _ Hj). rewrite put_bytes_at, length_app. cbn [length]. case_within; [|lia].
    replace (Z.to_nat (p + Z.of_nat j - p)) with j by lia. rewrite app_nth1 by done. by rewrite nth_lookup, Hj.
  - rewrite put_bytes_at, length_app. cbn [length]. case_within; [|lia].
    replace (Z.to_nat (p + Z.of_nat (length a) - p)) with (length a) by lia. rewrite app_nth2, Nat.sub_diag by lia. done.
Qed.

Lemma string_at_ext u u' p a : (forall x, p <= x <= p + Z.of_nat (length a) -> u' x = u x) -> string_at u p a -> string_at u' p a.
Proof.
  intros H [H1 H2]. split.
  - intros j c Hj. pose proof (lookup_lt_Some _ _ _ Hj). rewrite H by lia. auto.
  - by rewrite H by lia.
Qed.

Lemma push_mem_strings argv sp u i a :
  argv !! i = Some a -> exists p, arg_ptrs argv sp !! i = Some p /\ string_at (push_mem argv sp u) p a /\
    args_sp argv sp <= p /\ p + Z.of_nat (length a) < sp.
Proof.
  revert sp u i. induction argv as [|b argv IH]; intros sp u i Hi; [done|]. pose proof (arg_sp_le sp b) as (H1 & H2 & _).
  pose proof (args_sp_le argv (arg_sp sp b)) as Hle. destruct i as [|i]; cbn in Hi.
  - injection Hi as ->. exists (arg_sp sp a). split; [done|]. split; [|split; [done | lia]]. cbn [push_mem].
    eapply string_at_ext; [|apply put_string]. intros x Hx. apply push_mem_out. lia.
  - destruct (IH (arg_sp sp b) (put_bytes u (arg_sp sp b) (b ++ [0])) i Hi) as (p & E & S & Hp & Hp'). exists p. split; [done|]. split; [done|]. split; [done | lia].
Qed.

(** The words on the stack. *)
Lemma stack_words_length l : length (words l) = (4 * length l)%nat.
Proof. unfold words. induction l as [|w l IH]; [done|]. cbn [map concat]. rewrite length_app, IH. cbn. lia. Qed.

Lemma stack_words_bytes l : Forall is_byte (words l).
Proof.
  unfold words. induction l as [|w l IH]; [constructor|]. cbn [map concat]. apply Forall_app. split; [|done].
  unfold le32. repeat constructor; apply u8_range.
Qed.

Lemma words_nth l i w j : l !! i = Some w -> (j < 4)%nat -> nth (4 * i + j) (words l) 0 = nth j (le32 w) 0.
Proof.
  unfold words. revert i. induction l as [|v l IH]; intros [|i] Hi Hj; try done; cbn [map concat]; cbn in Hi.
  - injection Hi as ->. by rewrite app_nth1 by (cbn; lia).
  - rewrite app_nth2 by (cbn; lia). rewrite <-(IH i) by done. f_equal. cbn. lia.
Qed.

Lemma load_words u p l i w : l !! i = Some w -> 0 <= w < 2 ^ 32 -> load32 (put_bytes u p (words l)) (p + 4 * Z.of_nat i) = w.
Proof.
  intros Hi Hw. pose proof (lookup_lt_Some _ _ _ Hi) as Hl. unfold load32. rewrite !put_bytes_at, stack_words_length.
  case_within; try lia.
  replace (Z.to_nat (p + 4 * Z.of_nat i - p)) with (4 * i + 0)%nat by lia. replace (Z.to_nat (p + 4 * Z.of_nat i + 1 - p)) with (4 * i + 1)%nat by lia.
  replace (Z.to_nat (p + 4 * Z.of_nat i + 2 - p)) with (4 * i + 2)%nat by lia. replace (Z.to_nat (p + 4 * Z.of_nat i + 3 - p)) with (4 * i + 3)%nat by lia.
  rewrite !(words_nth l i w) by (done || lia). pose proof (le32_value w) as E. rewrite u32_small in E by done. done.
Qed.

(** The whole stack, as a change of user memory. *)
Definition stack_mem (argv : list (list Z)) (sz : Z) (u : mem) : mem :=
  let sp := args_sp argv sz in let argc := Z.of_nat (length argv) in
  put_bytes (push_mem argv sz u) (sp - (4 + argc) * 4) (words ([0xffffffff; argc; sp - (argc + 1) * 4] ++ arg_ptrs argv sz ++ [0])).

Lemma stack_args argv sz u :
  let esp := args_sp argv sz - (4 + Z.of_nat (length argv)) * 4 in
  0 <= esp -> sz < 2 ^ 32 -> args_at (stack_mem argv sz u) esp argv /\ forall x, x < esp \/ sz <= x -> stack_mem argv sz u x = u x.
Proof.
  intros esp H0 Hmax. pose proof (args_sp_le argv sz) as Hle. set (argc := Z.of_nat (length argv)) in *.
  set (ws := [0xffffffff; argc; args_sp argv sz - (argc + 1) * 4] ++ arg_ptrs argv sz ++ [0]).
  assert (forall i w, ws !! i = Some w -> 0 <= w < 2 ^ 32 -> load32 (stack_mem argv sz u) (esp + 4 * Z.of_nat i) = w) as Hw by (intros i w Hi Hr; by apply load_words).
  assert (length ws = length argv + 4)%nat as Hlen by (unfold ws; rewrite !length_app, arg_ptrs_length; cbn; lia).
  assert (forall x, args_sp argv sz <= x -> stack_mem argv sz u x = push_mem argv sz u x) as Hup.
  { intros x Hx. unfold stack_mem. fold argc. fold esp ws. rewrite put_bytes_at, stack_words_length, Hlen. case_within; [unfold esp in *; lia | done]. }
  split; [split_and!|].
  - rewrite <-(Z.add_0_r esp). apply (Hw 0%nat); [done | lia].
  - apply (Hw 1%nat); [done | unfold argc, esp in *; lia].
  - replace (esp + 12) with (args_sp argv sz - (argc + 1) * 4) by (unfold esp; lia). apply (Hw 2%nat); [done | unfold argc, esp in *; lia].
  - intros i a Hi. destruct (push_mem_strings argv sz u i a Hi) as (p & Ep & Hs & Hp & Hp').
    replace (esp + 12 + 4 * Z.of_nat i) with (esp + 4 * Z.of_nat (3 + i)) by lia. rewrite (Hw (3 + i)%nat p).
    + eapply string_at_ext; [|exact Hs]. intros x Hx. apply Hup. lia.
    + change (ws !! (3 + i)%nat) with ((arg_ptrs argv sz ++ [0]) !! i). by rewrite lookup_app_l by (by eapply lookup_lt_Some).
    + unfold esp in H0. lia.
  - replace (esp + 12 + 4 * Z.of_nat (length argv)) with (esp + 4 * Z.of_nat (3 + length argv)) by lia. apply (Hw (3 + length argv)%nat 0); [|lia].
    change (ws !! (3 + length argv)%nat) with ((arg_ptrs argv sz ++ [0]) !! length argv). rewrite lookup_app_r; rewrite arg_ptrs_length; [by rewrite Nat.sub_diag | done].
  - intros x Hx. unfold stack_mem. fold argc. fold esp ws. rewrite put_bytes_at, stack_words_length, Hlen.
    case_within; [unfold esp in *; lia|]. apply push_mem_out. unfold esp in *. lia.
Qed.

(** Arguments that may be passed: bytes, each short of a page. *)
Definition arg_ok (a : list Z) : Prop := Forall is_byte a /\ Z.of_nat (length a) + 4 <= 4096.

Section Stack.
Context (kend : Z).
Hypothesis Hkend : KERNBASE < kend.
Abbreviation built := (built kend).

(** The arguments are pushed if there are not too many and they stay within
    the page above the guard. *)
Lemma push_args_ok k0 L0 l pgdir tab pg sz argv argc sp ptrs k u :
  built k0 L0 k l pgdir tab pg (Some (sz - 8192)) sz u -> 8192 <= sz -> Forall arg_ok argv -> sz - 4096 <= sp <= sz -> (argc <= MAXARG)%nat ->
  exists r k' u', push_args argv pgdir argc sp ptrs k = Ok (r, k') /\ built k0 L0 k' l pgdir tab pg (Some (sz - 8192)) sz u' /\
    (if decide ((argc + length argv <= MAXARG)%nat /\ sz - 4096 <= args_sp argv sp)
     then r = Some (args_sp argv sp, ptrs ++ arg_ptrs argv sp) /\ u' = push_mem argv sp u else r = None).
Proof.
  revert argc sp ptrs k u. induction argv as [|a argv IH]; intros argc sp ptrs k u Hb Hsz Hok Hsp Hargc; cbn [push_args].
  { exists (Some (sp, ptrs)), k, u. split; [done|]. split; [done|]. rewrite decide_True by (cbn; split; lia). by rewrite app_nil_r. }
  apply Forall_cons in Hok as [[Hab Hal] Hok]. pose proof (arg_sp_le sp a) as (A1 & A2 & A3). pose proof (bu_space _ _ _ _ _ _ _ _ _ _ _ Hb) as Hs.
  destruct (sp_top _ _ _ _ _ _ _ _ Hs) as [Htop Hmod]. unfold KERNBASE in Htop.
  destruct (Nat.leb_spec MAXARG argc) as [Hmax|Hmax].
  { exists None, k, u. split; [done|]. split; [done|]. by rewrite decide_False by (cbn [length]; lia). }
  assert (Z.land (u32 (sp - (Z.of_nat (length a) + 1))) (u32 (Z.lnot 3)) = arg_sp sp a) as ->.
  { rewrite u32_small by lia. apply land_align. lia. }
  pose proof (args_sp_le argv (arg_sp sp a)) as Hle. change (args_sp (a :: argv) sp) with (args_sp argv (arg_sp sp a)).
  change (arg_ptrs (a :: argv) sp) with (arg_sp sp a :: arg_ptrs argv (arg_sp sp a)).
  destruct (decide (sz - 4096 <= arg_sp sp a)) as [Hin|Hout].
  - assert (arg_sp sp a / 4096 * 4096 = sz - 4096) as Epg by zlia.
    destruct (copyout_in kend Hkend k0 L0 k l pgdir tab pg _ sz u (arg_sp sp a) (a ++ [0]) Hb) as (k1 & E1 & Hb1).
    + lia.
    + rewrite Epg. intros [= ?]. lia.
    + by destruct a.
    + rewrite Epg, length_app. cbn. lia.
    + apply Forall_app. split; [done|]. repeat constructor; lia.
    + rewrite (sr_bind_run _ _ _ _ _ E1). cbn [Z.ltb Z.compare].
      destruct (IH (S argc) (arg_sp sp a) (ptrs ++ [arg_sp sp a]) k1 _ Hb1 Hsz Hok ltac:(lia) ltac:(lia)) as (r & k' & u' & E & Hb' & Hr).
      exists r, k', u'. split; [done|]. split; [done|]. cbn [length] in Hr |- *. replace (S argc + length argv)%nat with (argc + S (length argv))%nat in Hr by lia.
      case_decide; [|done]. by rewrite <-app_assoc in Hr.
  - assert (arg_sp sp a / 4096 * 4096 = sz - 8192) as Epg by zlia. rewrite <-Epg in Hs.
    rewrite (sr_bind_run _ _ _ _ _ (copyout_guard kend Hkend k l pgdir tab pg sz (arg_sp sp a) (a ++ [0]) Hs ltac:(lia) ltac:(by destruct a))).
    cbn [Z.ltb Z.compare]. exists None, k, u. split; [done|]. split; [done|]. by rewrite decide_False by lia.
Qed.

End Stack.

Lemma PGROUNDUP_le a : 0 <= a <= KERNBASE -> let b := PGROUNDUP a in a <= b < a + 4096 /\ b mod 4096 = 0 /\ PGROUNDUP b = b.
Proof.
  intros Ha b. unfold KERNBASE in Ha. assert (b = (a + 4095) / 4096 * 4096) as Eb by (apply PGROUNDUP_eq; lia).
  split; [zlia|]. split; [zlia|]. rewrite PGROUNDUP_eq by zlia. zlia.
Qed.

Section Run.
Context {C : Type} {ops : BufOps C}.
Context (kend : Z).
Hypothesis Hkend : KERNBASE < kend.
Abbreviation built := (built kend).
Abbreviation space := (space kend).
Implicit Types s : est C.

Lemma x_vm_run {A} (m : VM A) f k img a k' : m k = Ok (a, k') -> x_vm m (@mkEst C f k img) = Ok (a, mkEst f k' img).
Proof. intros E. unfold x_vm. cbn. by rewrite E. Qed.

Lemma x_fs_run {A} (m : SR (fs C) A) f k img a f' : m f = Ok (a, f') -> x_fs m (mkEst f k img) = Ok (a, mkEst f' k img).
Proof. intros E. unfold x_fs. cbn. by rewrite E. Qed.

(** The address space of the caller: the directory with its tables, the pages
    it maps, its guard page and its size. *)
Record aspace := mkAspace { as_dir : Z; as_tab : Z -> option Z; as_pg : Z -> option Z; as_guard : option Z; as_top : Z }.
Definition in_space (k : kmem) (l : list Z) (A : aspace) : Prop := space k l (as_dir A) (as_tab A) (as_pg A) (as_guard A) (as_top A).
Definition owns_page (A : aspace) (q : Z) : Prop := owned (as_dir A) (as_tab A) (as_pg A) q.
Definition user_byte (k : kmem) (A : aspace) (va : Z) : Z := ubyte (k_mem k) (as_pg A) va.

(** Nothing has happened to [A]: it is there with its contents, and the same
    pages are free. *)
Definition kept (k : kmem) (l : list Z) (A : aspace) (k' : kmem) : Prop :=
  exists l', in_space k' l' A /\ (forall q, q ∈ l' <-> q ∈ l) /\ forall va, 0 <= va < as_top A -> user_byte k' A va = user_byte k A va.

(** [k'] is a state of the same free pages, and equal outside them. *)
Lemma kept_ext k l A k' l' :
  in_space k l A -> free_pages kend k' l' -> (forall q, q ∈ l' <-> q ∈ l) ->
  (forall x, (forall q, q ∈ l -> ~ (q <= x < q + 4096)) -> k_mem k' x = k_mem k x) -> kept k l A k'.
Proof.
  intros Hs Hf Hl Hm.
  destruct (space_ext kend k l k' l' _ _ _ _ _ Hs Hf) as [Hs' Hu].
  - intros q Ho. rewrite Hl. by apply (owned_page kend _ _ _ _ _ _ _ _ Hs Ho).
  - intros q x Ho Hx. apply Hm. intros p Hp. by apply (page_not_free kend _ _ _ _ _ _ _ q x p Hs Ho Hx).
  - exists l'. split; [done|]. split; [done|]. exact Hu.
Qed.

(** A half-built space is given back. *)
Lemma drop_built k0 L0 A k l pgdir tab pg guard top u :
  in_space k0 L0 A -> built k0 L0 k l pgdir tab pg guard top u ->
  exists k', freevm kend pgdir k = Ok (tt, k') /\ kept k0 L0 A k'.
Proof.
  intros HA [Hs Hp Hm _]. destruct (freevm_ok kend Hkend k l pgdir tab pg guard top Hs) as (k' & l' & E & F & Hin & Hm').
  exists k'. split; [done|]. apply (kept_ext k0 L0 A k' l'); [done | done | |].
  - intros q. rewrite Hin. symmetry. apply Hp.
  - intros x Hx. rewrite Hm'; [by apply Hm|]. intros q Ho. apply Hx, Hp. by right.
Qed.

(** The caller's space is replaced by the new one. *)
Lemma swap_built k0 L0 A k l pgdir tab pg guard top u :
  in_space k0 L0 A -> built k0 L0 k l pgdir tab pg guard top u ->
  let B := mkAspace pgdir tab pg guard top in
  exists k' l', freevm kend (as_dir A) k = Ok (tt, k') /\ in_space k' l' B /\
    (forall q, q ∈ l' <-> (q ∈ L0 /\ ~ owns_page B q) \/ owns_page A q) /\ (forall va, 0 <= va < top -> user_byte k' B va = u va).
Proof.
  intros HA Hb B. pose proof Hb as [Hs Hp Hm Hu].
  assert (forall q, owns_page A q -> q ∉ L0) as HAL by (intros q Ho; by apply (owned_page kend _ _ _ _ _ _ _ _ HA Ho)).
  assert (in_space k l A) as HA'.
  { apply (space_ext kend k0 L0 k l _ _ _ _ _ HA); [apply Hs | |].
    - intros q Ho Hq. apply (HAL q Ho), Hp. by left.
    - intros q x Ho Hx. apply Hm. intros p HpL. by apply (page_not_free kend _ _ _ _ _ _ _ q x p HA Ho Hx). }
  destruct (freevm_ok kend Hkend k l _ _ _ _ _ HA') as (k' & l' & E & F & Hin & Hm').
  destruct (space_ext kend k l k' l' _ _ _ _ _ Hs F) as [Hs' Hu'].
  - intros q Ho Hq. apply Hin in Hq as [Hq|Hq]; [by apply (owned_page kend _ _ _ _ _ _ _ _ Hs Ho)|]. apply (HAL q Hq), Hp. by right.
  - intros q x Ho Hx. apply Hm'. intros p Hop Hx'. destruct (owned_page kend _ _ _ _ _ _ _ _ Hs Ho) as [Q1 _], (owned_page kend _ _ _ _ _ _ _ _ HA' Hop) as [P1 _].
    destruct (pages_disjoint kend q p Q1 P1); [|lia | lia]. intros ->. apply (HAL p Hop), Hp. by right.
  - exists k', l'. split; [done|]. split; [done|]. split.
    + intros q. rewrite Hin, Hp. split; [|naive_solver].
      intros [Hq|Hq]; [left | by right]. split; [by left|]. intros Ho. by apply (owned_page kend _ _ _ _ _ _ _ _ Hs Ho).
    + intros va Hva. unfold user_byte. rewrite Hu' by done. by apply Hu.
Qed.

(** The stack fits: two pages above the program, below the kernel, and room for
    the strings and the words in the upper one. *)
Definition stack_esp (argv : list (list Z)) (sz : Z) : Z := args_sp argv sz - (4 + Z.of_nat (length argv)) * 4.
Definition stack_fits (argv : list (list Z)) (base : Z) : Prop :=
  base + 8192 < KERNBASE /\ (length argv <= MAXARG)%nat /\ base + 4096 <= stack_esp argv (base + 8192).

(** The new image of the process, built from the program image [u] below [base]. *)
Definition replaced (k : kmem) (l : list Z) (A : aspace) (k' : kmem) (img : uimage) (path : list Z) (argv : list (list Z)) (entry base : Z) (u : mem) : Prop :=
  let sz := base + 8192 in let esp := stack_esp argv sz in
  exists tab pg l', let B := mkAspace (x_pgdir img) tab pg (Some base) sz in
    img = mkUimage (x_pgdir img) sz entry esp (take 15 (last_elem path path)) /\ in_space k' l' B /\
    (forall q, q ∈ l' <-> (q ∈ l /\ ~ owns_page B q) \/ owns_page A q) /\
    exists um : mem, (forall va, 0 <= va < sz -> user_byte k' B va = um va) /\ (forall va, va < base -> um va = u va) /\ args_at um esp argv.

Definition few (l : list Z) (sz : Z) : Prop := Z.of_nat (length l) <= 2056 + 2 * (sz / 4096).

(** [bad:] with the file closed *)
Lemma bad_ok k0 L0 A f img k l pgdir tab pg guard top u :
  in_space k0 L0 A -> built k0 L0 k l pgdir tab pg guard top u ->
  exists k', (_ ← x_vm (freevm kend pgdir); mret (-1)) (@mkEst C f k img) = Ok (-1, mkEst f k' img) /\ kept k0 L0 A k'.
Proof.
  intros HA Hb. destruct (drop_built k0 L0 A k l pgdir tab pg guard top u HA Hb) as (k' & E & Hk).
  exists k'. split; [|done]. by rewrite (sr_bind_run _ _ _ _ _ (x_vm_run _ f k img _ _ E)).
Qed.

(** The stack of a space whose upper two pages are the guard and the stack. *)
Lemma push_stack_ok k0 L0 k l pgdir tab pg sz u argv :
  built k0 L0 k l pgdir tab pg (Some (sz - 8192)) sz u -> 8192 <= sz -> Forall arg_ok argv ->
  exists o k1 u1, push_args argv pgdir 0 sz [] k = Ok (o, k1) /\ built k0 L0 k1 l pgdir tab pg (Some (sz - 8192)) sz u1 /\
    match o with
    | None => ~ ((length argv <= MAXARG)%nat /\ sz - 4096 <= stack_esp argv sz)
    | Some (sp, ptrs) =>
        (length argv <= MAXARG)%nat /\ sz - 4096 <= sp <= sz /\ sp = args_sp argv sz /\
        exists r k2 u2, copyout pgdir (stack_esp argv sz) (words ([0xffffffff; Z.of_nat (length argv); sp - (Z.of_nat (length argv) + 1) * 4] ++ ptrs ++ [0])) k1 = Ok (r, k2) /\
          built k0 L0 k2 l pgdir tab pg (Some (sz - 8192)) sz u2 /\
          (r = 0 /\ sz - 4096 <= stack_esp argv sz /\ u2 = stack_mem argv sz u \/ r = -1 /\ ~ sz - 4096 <= stack_esp argv sz)
    end.
Proof.
  intros Hb Hsz Hargs. destruct (push_args_ok kend Hkend k0 L0 l pgdir tab pg sz argv 0 sz [] k u Hb Hsz Hargs ltac:(lia) ltac:(unfold MAXARG; lia)) as (o & k1 & u1 & E1 & Hb1 & Ho).
  exists o, k1, u1. split; [done|]. split; [done|]. cbn [Nat.add app] in Ho. pose proof (args_sp_le argv sz) as Hle. case_decide as Hd.
  2: { subst o. unfold stack_esp. lia. }
  destruct Ho as [-> ->]. destruct Hd as [Hargc Hfit]. split; [done|]. split; [lia|]. split; [done|].
  pose proof (bu_space _ _ _ _ _ _ _ _ _ _ _ Hb1) as Hs. destruct (sp_top _ _ _ _ _ _ _ _ Hs) as [Htop Hmod]. unfold KERNBASE in Htop.
  set (ws := [0xffffffff; _; _] ++ _ ++ [0]). assert (length ws = length argv + 4)%nat as Hlen by (unfold ws; rewrite !length_app, arg_ptrs_length; cbn; lia).
  assert (words ws <> []) as Hne by (intros H; apply (f_equal length) in H; rewrite stack_words_length, Hlen in H; cbn in H; lia).
  assert (Z.of_nat (length (words ws)) = (4 + Z.of_nat (length argv)) * 4) as Hwl by (rewrite stack_words_length, Hlen; lia).
  unfold MAXARG in Hargc. set (esp := stack_esp argv sz). assert (esp = args_sp argv sz - (4 + Z.of_nat (length argv)) * 4) as Ee by done.
  destruct (decide (sz - 4096 <= esp)) as [Hin|Hout].
  - assert (esp / 4096 * 4096 = sz - 4096) as Epg by zlia.
    destruct (copyout_in kend Hkend k0 L0 k1 l pgdir tab pg _ sz _ esp (words ws) Hb1) as (k2 & E2 & Hb2);
      [lia | rewrite Epg; intros [= ?]; lia | done | lia | apply stack_words_bytes |].
    eexists 0, k2, _. split; [exact E2|]. split; [exact Hb2|]. left. done.
  - assert (esp / 4096 * 4096 = sz - 8192) as Epg by zlia. rewrite <-Epg in Hs.
    eexists (-1), k1, _. split; [apply (copyout_guard kend Hkend k1 l pgdir tab pg sz esp (words ws) Hs); [lia | done]|]. split; [exact Hb1|]. by right.
Qed.

Lemma exec_stack_ok k0 L0 A f img k l pgdir tab pg sz0 u path argv entry :
  let base := PGROUNDUP sz0 in
  in_space k0 L0 A -> as_dir A = x_pgdir img -> NoDup L0 -> built k0 L0 k l pgdir tab pg None base u -> 0 <= sz0 < KERNBASE ->
  (forall va, base <= va -> u va = 0) -> Forall arg_ok argv ->
  exists r k' img', exec_stack kend path argv entry pgdir sz0 (@mkEst C f k img) = Ok (r, mkEst f k' img') /\
    (r = 0 /\ stack_fits argv base /\ replaced k0 L0 A k' img' path argv entry base u \/
     r = -1 /\ img' = img /\ kept k0 L0 A k' /\ (~ stack_fits argv base \/ few L0 base)).
Proof.
  intros base HA Hdir Hnd Hb Hsz Hu Hargs. destruct (PGROUNDUP_le sz0 ltac:(unfold KERNBASE in *; lia)) as (B1 & B2 & B3). fold base in B1, B2, B3.
  unfold exec_stack. fold base. unfold KERNBASE in Hsz. rewrite (u32_small (base + 2 * PGSIZE)) by (unfold PGSIZE; lia). change (2 * PGSIZE) with 8192.
  destruct (decide (base + 8192 < KERNBASE)) as [Hlim|Hlim].
  2: { assert (allocuvm kend pgdir base (base + 8192) k = Ok (0, k)) as E by (unfold allocuvm; by rewrite (proj2 (Z.leb_le _ _)) by lia).
    rewrite (sr_bind_run _ _ _ _ _ (x_vm_run _ f k img _ _ E)). cbn [Z.eqb].
    destruct (bad_ok k0 L0 A f img k l pgdir tab pg None base u HA Hb) as (k' & Ef & Hk).
    exists (-1), k', img. split; [done|]. right. do 3 (split; [done|]). left. intros (H & _). lia. }
  rewrite <-B3 in Hb.
  destruct (alloc_built kend Hkend k0 L0 k l pgdir tab pg base (base + 8192) u Hb ltac:(lia) Hlim) as (r & k1 & l1 & tab1 & pg1 & E1 & Hr); [by rewrite B3|].
  rewrite (sr_bind_run _ _ _ _ _ (x_vm_run _ f k img _ _ E1)).
  destruct Hr as [(-> & Hb1)|(-> & Hb1 & Hfew)].
  2: { cbn [Z.eqb]. destruct (bad_ok k0 L0 A f img k1 l1 pgdir tab1 pg None _ u HA Hb1) as (k' & Ef & Hk).
    exists (-1), k', img. split; [done|]. right. do 3 (split; [done|]). right. unfold few.
    pose proof (built_count kend _ _ _ _ _ _ _ _ _ _ Hnd Hb) as Hc. rewrite B3 in Hc. zlia. }
  rewrite (proj2 (Z.eqb_neq (base + 8192) 0)) by lia. pose proof Hlim as Hlim'. unfold KERNBASE in Hlim'. rewrite (u32_small (base + 8192)) by lia.
  destruct (PGROUNDUP_le (base + 8192) ltac:(lia)) as (T1 & T2 & _). replace (PGROUNDUP (base + 8192)) with (base + 8192) in * by zlia.
  replace (base + 8192 - 8192) with base by lia. rewrite (u32_small base) by lia.
  destruct (clear_built kend Hkend k0 L0 k1 l1 pgdir tab1 pg1 (base + 8192) u base Hb1 ltac:(lia) B2) as (k2 & E2 & Hb2).
  rewrite (sr_bind_run _ _ _ _ _ (x_vm_run _ f k1 img _ _ E2)). set (sz := base + 8192) in *. assert (base = sz - 8192) as Eb by (unfold sz; lia). rewrite Eb in Hb2.
  destruct (push_stack_ok k0 L0 k2 l1 pgdir tab1 pg1 sz u argv Hb2 ltac:(unfold sz; lia) Hargs) as (o & k3 & u3 & E3 & Hb3 & Ho).
  rewrite (sr_bind_run _ _ _ _ _ (x_vm_run _ f k2 img _ _ E3)). destruct o as [[sp ptrs]|].
  2: { destruct (bad_ok k0 L0 A f img k3 l1 pgdir tab1 pg1 _ _ _ HA Hb3) as (k' & Ef & Hk).
    exists (-1), k', img. split; [done|]. right. do 3 (split; [done|]). left. intros (_ & H1 & H2). apply Ho. fold sz in H2. split; [done | lia]. }
  destruct Ho as (Hargc & Hsp & Esp & r & k4 & u4 & E4 & Hb4 & Hr). unfold MAXARG in Hargc.
  assert (0 <= stack_esp argv sz /\ stack_esp argv sz = sp - (3 + Z.of_nat (length argv) + 1) * 4) as [He0 Ee] by (unfold stack_esp; lia).
  rewrite (u32_small (sp - (Z.of_nat (length argv) + 1) * 4)), (u32_small (sp - (3 + Z.of_nat (length argv) + 1) * 4)) by lia. rewrite <-Ee.
  rewrite (sr_bind_run _ _ _ _ _ (x_vm_run _ f k3 img _ _ E4)). destruct Hr as [(-> & Hfit & ->)|(-> & Hnf)]; cbn [Z.ltb Z.compare].
  2: { destruct (bad_ok k0 L0 A f img k4 l1 pgdir tab1 pg1 _ _ _ HA Hb4) as (k' & Ef & Hk).
    exists (-1), k', img. split; [done|]. right. do 3 (split; [done|]). left. intros (_ & _ & H2). fold sz in H2. lia. }
  erewrite sr_bind_run by done. erewrite sr_bind_run by done. cbn [e_img e_fs e_k].
  destruct (swap_built k0 L0 A k4 l1 pgdir tab1 pg1 _ sz _ HA Hb4) as (k5 & l5 & E5 & HB & Hl5 & Hu5). rewrite <-Hdir.
  rewrite (sr_bind_run _ _ _ _ _ (x_vm_run _ f k4 _ _ _ E5)). eexists 0, k5, _. split; [done|]. left. split; [done|].
  split; [split; [done|]; split; [done | fold sz; lia]|]. exists tab1, pg1, l5. cbn [x_pgdir]. fold sz. rewrite Eb. split; [done|]. split; [done|]. split; [done|].
  exists (stack_mem argv sz u). split; [done|]. destruct (stack_args argv sz u) as [S1 S2]; [exact He0 | lia |]. split; [|exact S1].
  intros va Hva. apply S2. left. unfold stack_esp in Hfit. lia.
Qed.

(** ** Loading the program *)

Definition slice (data : list Z) (off n : Z) : list Z := take (Z.to_nat n) (drop (Z.to_nat off) data).

(** What [readi] gives of a file with contents [data]. *)
Definition rd (data : list Z) (off n : Z) : Z * list Z :=
  let len := Z.of_nat (length data) in
  if (len <? off) || (u32 (off + n) <? off) then (-1, [])
  else let n := if len <? off + n then len - off else n in (n, slice data off n).

Section Load.
Context (pid : Z) (dev_read : Z -> option (nat -> Z -> SR (fs C) (Z * list Z))).
Context (Q : fs C -> Prop) (ip : nat) (data : list Z).
Hypothesis Hdata : Forall is_byte data /\ Z.of_nat (length data) < 2 ^ 31.
(** The open file [ip] has the contents [data], as long as [Q] holds. *)
Hypothesis Hread : forall f off n, Q f -> 0 <= off < 2 ^ 32 -> 0 <= n < 2 ^ 31 ->
  exists f', readi dev_read ip off n f = Ok (rd data off n, f') /\ Q f'.

Lemma slice_bytes off n : Forall is_byte (slice data off n).
Proof. apply Forall_take, Forall_drop, Hdata. Qed.

Lemma slice_length off n : 0 <= off -> 0 <= n -> off + n <= Z.of_nat (length data) -> Z.of_nat (length (slice data off n)) = n.
Proof. intros H1 H2 H3. unfold slice. rewrite length_take, length_drop. lia. Qed.

Lemma slice_length_le off n : 0 <= n -> Z.of_nat (length (slice data off n)) <= n.
Proof. intros H. unfold slice. rewrite length_take. lia. Qed.

Lemma slice_nth off n i : 0 <= off -> 0 <= i < n -> nth (Z.to_nat i) (slice data off n) 0 = nth (Z.to_nat (off + i)) data 0.
Proof.
  intros H1 H2. unfold slice. rewrite !nth_lookup. rewrite lookup_take_lt by lia. rewrite lookup_drop. f_equal. f_equal. lia.
Qed.

Lemma put_slice u a off n m x :
  0 <= off -> 0 <= n -> 0 <= m -> off + n + m <= Z.of_nat (length data) ->
  put_bytes (put_bytes u a (slice data off n)) (a + n) (slice data (off + n) m) x = put_bytes u a (slice data off (n + m)) x.
Proof.
  intros H1 H2 H3 H4. rewrite !put_bytes_at. rewrite !slice_length by lia. case_within; try lia; try done.
  - rewrite !slice_nth by lia. f_equal. lia.
  - by rewrite !slice_nth by lia.
Qed.

Lemma built_eq k0 L0 k l pgdir tab pg guard top u u' :
  (forall va, u' va = u va) -> built k0 L0 k l pgdir tab pg guard top u -> built k0 L0 k l pgdir tab pg guard top u'.
Proof. intros H [H1 H2 H3 H4]. constructor; try done. intros va Hva. rewrite H. by apply H4. Qed.

Lemma loaduvm_loop_ok k0 L0 l pgdir tab pg top img fuel addr offset fsz i f k u :
  let len := Z.of_nat (length data) in
  built k0 L0 k l pgdir tab pg None top u -> Q f -> 0 <= addr -> addr mod 4096 = 0 -> 0 <= fsz -> addr + fsz <= top -> 0 <= offset < 2 ^ 32 ->
  0 <= i -> i mod 4096 = 0 -> fsz <= i \/ i = 0 \/ offset + i <= len -> fsz - i <= Z.of_nat fuel * 4096 ->
  exists r f' k', loaduvm_loop (@x_vm C) (fun off n => x_fs (readi dev_read ip off n)) (S fuel) pgdir addr offset fsz i (mkEst f k img) = Ok (r, mkEst f' k' img) /\ Q f' /\
    (r = 0 /\ (fsz <= i \/ offset + fsz <= len) /\ built k0 L0 k' l pgdir tab pg None top (if fsz <=? i then u else put_bytes u (addr + i) (slice data (offset + i) (fsz - i))) \/
     r = -1 /\ i < fsz /\ len < offset + fsz /\ exists u', built k0 L0 k' l pgdir tab pg None top u').
Proof.
  intros len. revert i f k u. induction fuel as [|fuel IH]; intros i f k u Hb HQ Ha Hal Hf Htop Hoff Hi Hial Hio Hfuel; cbn [loaduvm_loop];
    (destruct (Z.ltb_spec i fsz) as [Hlt|Hge]; [|exists 0, f, k; split; [done|]; split; [done|]; left; split; [done|]; split; [by left|]; by rewrite (proj2 (Z.leb_le _ _)) by lia]); [lia|].
  destruct Hio as [Hio|Hio]; [lia|].
  pose proof (bu_space _ _ _ _ _ _ _ _ _ _ _ Hb) as Hs. destruct (sp_top _ _ _ _ _ _ _ _ Hs) as [Ht1 Ht2]. unfold KERNBASE in Ht1.
  rewrite (u32_small (addr + i)) by lia. destruct (sp_map _ _ _ _ _ _ _ _ Hs (addr + i)) as (p & Ep & _); [lia | zlia |].
  destruct (space_walk kend Hkend k l pgdir tab pg None top (addr + i) p false Hs Ep) as (pte & Ew & Hp0 & _ & El).
  destruct (space_page kend _ _ _ _ _ _ _ _ _ Hs Ep) as (_ & _ & Hp & _). destruct (refers_user kend Hkend None (addr + i) p Hp) as (_ & R2 & _).
  rewrite (sr_bind_run _ _ _ _ _ (x_vm_run _ f k img _ _ Ew)), (proj2 (Z.eqb_neq _ _) Hp0).
  rewrite (sr_bind_run _ _ _ _ _ (x_vm_run (load pte) f k img (refers p (uflags None (addr + i))) k ltac:(unfold load, sr_gets; by rewrite El))). rewrite R2.
  set (n := if fsz - i <? PGSIZE then fsz - i else PGSIZE). assert (0 < n <= 4096 /\ n <= fsz - i /\ (n = fsz - i \/ n = 4096)) as (Hn1 & Hn2 & Hn3) by (unfold n, PGSIZE; case_match; lia).
  assert (u32 (offset + i) = offset + i) as Eo by (destruct Hio as [->|Hio]; apply u32_small; unfold len in *; lia). rewrite Eo.
  destruct (Hread f (offset + i) n HQ) as (f1 & Er & HQ1); [destruct Hio as [->|Hio]; unfold len in *; lia | lia |].
  rewrite (sr_bind_run _ _ _ _ _ (x_fs_run _ f k img _ _ Er)). destruct (rd data (offset + i) n) as [r bytes] eqn:Erd.
  assert (Forall is_byte bytes /\ Z.of_nat (length bytes) <= 4096 /\ (r = n /\ offset + i + n <= len /\ bytes = slice data (offset + i) n \/ u32 r <> n /\ len < offset + i + n)) as (Hby & Hlen & Hr).
  { unfold rd in Erd. fold len in Erd. destruct (Z.ltb_spec len (offset + i)) as [H1|H1]; cbn [orb] in Erd.
    - injection Erd as <- <-. split; [constructor|]. split; [cbn; lia|]. right. change (u32 (-1)) with (2 ^ 32 - 1). lia.
    - destruct (Z.ltb_spec (u32 (offset + i + n)) (offset + i)) as [H2|H2]; [unfold len in *; rewrite u32_small in H2; lia|].
      injection Erd as <- <-. split; [apply slice_bytes|]. destruct (Z.ltb_spec len (offset + i + n)) as [H3|H3].
      + split; [pose proof (slice_length_le (offset + i) (len - (offset + i)) ltac:(lia)); lia|]. right. unfold len in *. rewrite u32_small by lia. lia.
      + split; [pose proof (slice_length_le (offset + i) n ltac:(lia)); lia | by left]. }
  pose proof (built_put kend k0 L0 k l pgdir tab pg None top u (addr + i) p 0 bytes Hb Ep ltac:(lia) ltac:(lia) Hby) as Hb1. rewrite !Z.add_0_r in Hb1.
  rewrite (sr_bind_run _ _ _ _ _ (x_vm_run (set_mem _) f1 k img tt _ eq_refl)). set (k1 := mkKmem _ _ _) in *.
  destruct Hr as [(-> & Hle & ->)|(Hne & Hle)].
  2: { rewrite (proj2 (Z.eqb_neq _ _) Hne). cbn [negb]. exists (-1), f1, k1. split; [done|]. split; [done|]. right. split; [done|]. split; [done|]. split; [lia | eauto]. }
  rewrite u32_small by lia. rewrite Z.eqb_refl. cbn [negb]. rewrite (u32_small (i + PGSIZE)) by (unfold PGSIZE; lia). change PGSIZE with 4096.
  destruct (IH (i + 4096) f1 k1 _ Hb1 HQ1) as (r & f' & k' & E & HQ' & Hr); try done; try lia; [zlia|].
  exists r, f', k'. split; [done|]. split; [done|]. rewrite (proj2 (Z.leb_gt fsz i)) by lia. destruct Hr as [(-> & Hr & Hb')|(-> & H1 & H2 & H3)]; [left | by right; split_and!; try done; lia].
  split; [done|]. split; [destruct Hn3 as [->| ->]; lia|]. destruct (Z.leb_spec fsz (i + 4096)) as [Hend|Hmore].
  - replace (fsz - i) with n by lia. done.
  - assert (n = 4096) as En by lia. rewrite En in *. eapply built_eq; [|exact Hb']. intros va. rewrite !Z.add_assoc.
    rewrite put_slice by (unfold len in *; lia). by replace (4096 + (fsz - (i + 4096))) with (fsz - i) by lia.
Qed.

Lemma loaduvm_ok k0 L0 l pgdir tab pg top img addr offset fsz f k u :
  let len := Z.of_nat (length data) in
  built k0 L0 k l pgdir tab pg None top u -> Q f -> 0 <= addr -> addr mod 4096 = 0 -> 0 <= fsz -> addr + fsz <= top -> 0 <= offset < 2 ^ 32 ->
  exists r f' k', loaduvm (@x_vm C) (fun off n => x_fs (readi dev_read ip off n)) pgdir addr offset fsz (mkEst f k img) = Ok (r, mkEst f' k' img) /\ Q f' /\
    (r = 0 /\ (fsz = 0 \/ offset + fsz <= len) /\ built k0 L0 k' l pgdir tab pg None top (put_bytes u addr (slice data offset fsz)) \/
     r = -1 /\ ~ (fsz = 0 \/ offset + fsz <= len) /\ exists u', built k0 L0 k' l pgdir tab pg None top u').
Proof.
  intros len Hb HQ Ha Hal Hf Htop Hoff. unfold loaduvm. change PGSIZE with 4096. rewrite Hal. cbn [Z.eqb negb].
  destruct (loaduvm_loop_ok k0 L0 l pgdir tab pg top img (Z.to_nat (fsz / 4096 + 1)) addr offset fsz 0 f k u) as (r & f' & k' & E & HQ' & Hr); try done; [by right; left | zlia |].
  exists r, f', k'. split; [done|]. split; [done|]. rewrite !Z.add_0_r, Z.sub_0_r in Hr. destruct Hr as [(-> & Hr & Hb')|(-> & H1 & H2 & H3)].
  - left. split; [done|]. split; [lia|]. destruct (Z.leb_spec fsz 0); [|done]. assert (fsz = 0) as -> by lia.
    eapply built_eq; [|exact Hb']. intros va. rewrite put_bytes_at. pose proof (slice_length_le offset 0 ltac:(lia)). case_within; [lia | done].
  - right. split; [done|]. split; [unfold len; lia | done].
Qed.

(** The program headers, as a function of the file: the size and the contents of
    the image, [None] for one that is not well formed. *)
Fixpoint segs (cnt : nat) (off sz : Z) (u : mem) : option (Z * mem) :=
  match cnt with
  | O => Some (sz, u)
  | S c =>
      let '(r, ph) := rd data (u32 off) 32 in
      let newsz := ph_vaddr ph + ph_memsz ph in
      if negb (r =? 32) then None
      else if negb (ph_type ph =? ELF_PROG_LOAD) then segs c (s32 (off + 32)) sz u
      else if (ph_memsz ph <? ph_filesz ph) || (KERNBASE <=? newsz) || (Z.max sz newsz =? 0) || negb (ph_vaddr ph mod PGSIZE =? 0) then None
      else if negb (ph_filesz ph =? 0) && (Z.of_nat (length data) <? ph_off ph + ph_filesz ph) then None
      else segs c (s32 (off + 32)) (Z.max sz newsz) (put_bytes u (ph_vaddr ph) (slice data (ph_off ph) (ph_filesz ph)))
  end.

Lemma segs_mono cnt off sz u sz' u' : sz < KERNBASE -> segs cnt off sz u = Some (sz', u') -> sz <= sz' < KERNBASE.
Proof.
  revert off sz u. induction cnt as [|c IH]; intros off sz u Hsz; cbn [segs]; [intros [= -> _]; done|].
  destruct (rd data (u32 off) 32) as [r ph]. destruct (negb (r =? 32)); [done|]. destruct (negb (ph_type ph =? _)); [by apply IH|].
  destruct (Z.leb_spec KERNBASE (ph_vaddr ph + ph_memsz ph)) as [|Hk]; [by rewrite orb_true_r|].
  repeat case_match; try done; intros Hseg%IH; lia.
Qed.

Lemma field32_range b o : Forall is_byte b -> 0 <= get32 b o < 2 ^ 32.
Proof.
  intros Hb. assert (forall x, 0 <= get8 b x < 2 ^ 8) as H.
  { intros x. unfold get8. rewrite nth_lookup. destruct (b !! Z.to_nat x) as [c|] eqn:E; [|cbn; lia].
    rewrite Forall_lookup in Hb. apply (Hb _ _ E). }
  unfold get32. pose proof (H o). pose proof (H (o + 1)). pose proof (H (o + 2)). pose proof (H (o + 3)). lia.
Qed.

Lemma rd_bytes off n : Forall is_byte (rd data off n).2.
Proof. unfold rd. case_match; [constructor | apply slice_bytes]. Qed.

(** [allocuvm] to the end of a segment *)
Lemma alloc_seg k0 L0 k l pgdir tab pg u sz newsz :
  NoDup L0 -> built k0 L0 k l pgdir tab pg None (PGROUNDUP sz) u -> 0 <= sz < KERNBASE -> 0 <= newsz < KERNBASE -> (forall va, sz <= va -> u va = 0) ->
  exists r k1 l1 tab1 pg1 top1, allocuvm kend pgdir sz newsz k = Ok (r, k1) /\ built k0 L0 k1 l1 pgdir tab1 pg1 None top1 u /\
    (r = Z.max sz newsz /\ top1 = PGROUNDUP r \/ r = 0 /\ few L0 (Z.max sz newsz)).
Proof.
  intros Hnd Hb Hsz Hnew Hu. destruct (decide (newsz < sz)) as [Hlt|Hge].
  - exists sz, k, l, tab, pg, (PGROUNDUP sz). unfold allocuvm. rewrite (proj2 (Z.leb_gt _ _)), (proj2 (Z.ltb_lt _ _)) by lia.
    rewrite s32_small by (unfold KERNBASE in *; lia). split; [done|]. split; [done|]. left. split; [lia | done].
  - destruct (PGROUNDUP_le sz ltac:(lia)) as (B1 & B2 & _).
    destruct (alloc_built kend Hkend k0 L0 k l pgdir tab pg sz newsz u Hb ltac:(lia) ltac:(lia)) as (r & k1 & l1 & tab1 & pg1 & E & [(-> & Hb1)|(-> & Hb1 & Hc)]); [intros; apply Hu; lia | |].
    + exists newsz, k1, l1, tab1, pg1, (PGROUNDUP newsz). split; [done|]. split; [done|]. left. split; [lia | done].
    + exists 0, k1, l1, tab1, pg, (PGROUNDUP sz). split; [done|]. split; [done|]. right. split; [done|]. unfold few.
      pose proof (built_count kend _ _ _ _ _ _ _ _ _ _ Hnd Hb). zlia.
Qed.

Lemma load_segs_ok k0 L0 pgdir img cnt off sz f k l tab pg u :
  NoDup L0 -> built k0 L0 k l pgdir tab pg None (PGROUNDUP sz) u -> Q f -> 0 <= sz < KERNBASE -> (forall va, sz <= va -> u va = 0) ->
  exists o f' k', load_segs kend dev_read cnt ip pgdir off sz (mkEst f k img) = Ok (o, mkEst f' k' img) /\ Q f' /\
    exists l' tab' pg' top' u', built k0 L0 k' l' pgdir tab' pg' None top' u' /\
    match o with
    | Some sz' => segs cnt off sz u = Some (sz', u') /\ top' = PGROUNDUP sz' /\ 0 <= sz' < KERNBASE /\ (forall va, sz' <= va -> u' va = 0)
    | None => segs cnt off sz u = None \/ exists sz' u'', segs cnt off sz u = Some (sz', u'') /\ few L0 sz'
    end.
Proof.
  intros Hnd. revert off sz f k l tab pg u. induction cnt as [|c IH]; intros off sz f k l tab pg u Hb HQ Hsz Hu; cbn [load_segs segs].
  { exists (Some sz), f, k. split; [done|]. split; [done|]. exists l, tab, pg, (PGROUNDUP sz), u. done. }
  set (P := segs (S c) off sz u = None \/ exists sz' u'', segs (S c) off sz u = Some (sz', u'') /\ few L0 sz').
  assert (forall f k l tab pg top w, built k0 L0 k l pgdir tab pg None top w -> Q f -> P ->
    exists o f' k', (mret None : SR (est C) (option Z)) (mkEst f k img) = Ok (o, mkEst f' k' img) /\ Q f' /\ exists l' tab' pg' top' u', built k0 L0 k' l' pgdir tab' pg' None top' u' /\
      match o with Some sz' => segs (S c) off sz u = Some (sz', u') /\ top' = PGROUNDUP sz' /\ 0 <= sz' < KERNBASE /\ (forall va, sz' <= va -> u' va = 0) | None => P end) as Hbad.
  { intros f1 k1 l1 tab1 pg1 top1 u1 Hb1 HQ1 HP. exists None, f1, k1. split; [done|]. split; [done|]. exists l1, tab1, pg1, top1, u1. done. }
  subst P. cbn [segs] in Hbad.
  destruct (Hread f (u32 off) 32 HQ) as (f1 & Er & HQ1); [apply u32_range | lia |]. rewrite (sr_bind_run _ _ _ _ _ (x_fs_run _ f k img _ _ Er)).
  pose proof (rd_bytes (u32 off) 32) as Hby. destruct (rd data (u32 off) 32) as [r ph]. cbn [snd] in Hby.
  destruct (Z.eqb_spec r 32) as [->|Hr]; cbn [negb] in *; [|apply (Hbad f1 k l tab pg _ u Hb HQ1); by left].
  destruct (Z.eqb_spec (ph_type ph) ELF_PROG_LOAD) as [Et|Et]; cbn [negb] in *; [|by apply (IH _ sz f1 k l tab pg u)].
  pose proof (field32_range ph 4 Hby : 0 <= ph_off ph < _) as Ho. pose proof (field32_range ph 8 Hby : 0 <= ph_vaddr ph < _) as Hv.
  pose proof (field32_range ph 16 Hby : 0 <= ph_filesz ph < _) as Hf. pose proof (field32_range ph 20 Hby : 0 <= ph_memsz ph < _) as Hm.
  set (newsz := ph_vaddr ph + ph_memsz ph) in *.
  destruct (Z.ltb_spec (ph_memsz ph) (ph_filesz ph)) as [Hmf|Hmf]; cbn [orb] in *; [apply (Hbad f1 k l tab pg _ u Hb HQ1); by left|].
  destruct (Z.ltb_spec (u32 newsz) (ph_vaddr ph)) as [Hwrap|Hwrap].
  { apply (Hbad f1 k l tab pg _ u Hb HQ1). left. rewrite (proj2 (Z.leb_le KERNBASE newsz)); [done|]. unfold KERNBASE. destruct (decide (newsz < 2 ^ 32)); [rewrite u32_small in Hwrap; unfold newsz in *; lia | lia]. }
  assert (newsz < 2 ^ 32) as Hlt by (unfold u32 in Hwrap; destruct (decide (newsz < 2 ^ 32)); [done|]; exfalso; unfold newsz in *; zlia).
  rewrite (u32_small newsz) by lia. destruct (Z.leb_spec KERNBASE newsz) as [Hk|Hk]; cbn [orb] in *.
  { assert (allocuvm kend pgdir sz newsz k = Ok (0, k)) as E by (unfold allocuvm; by rewrite (proj2 (Z.leb_le _ _)) by lia).
    rewrite (sr_bind_run _ _ _ _ _ (x_vm_run _ f1 k img _ _ E)). cbn [Z.eqb]. apply (Hbad f1 k l tab pg _ u Hb HQ1). by left. }
  destruct (alloc_seg k0 L0 k l pgdir tab pg u sz newsz Hnd Hb Hsz ltac:(lia) Hu) as (r & k1 & l1 & tab1 & pg1 & top1 & E1 & Hb1 & Hr).
  rewrite (sr_bind_run _ _ _ _ _ (x_vm_run _ f1 k img _ _ E1)).
  destruct (Z.eqb_spec r 0) as [->|Hr0].
  { apply (Hbad f1 k1 l1 tab1 pg1 top1 u Hb1 HQ1). destruct Hr as [(<- & _)|(_ & Hfew)]; [by left|].
    match goal with |- ?e = None \/ _ => destruct e as [[sz' u']|] eqn:Eseg end; [|by left]. right. exists sz', u'. split; [done|].
    repeat case_match; try done. apply segs_mono in Eseg; [|lia]. unfold few in *. zlia. }
  destruct Hr as [(Er' & ->)|(-> & _)]; [|done]. rewrite <-Er' in Hbad |- *. rewrite (proj2 (Z.eqb_neq r 0) Hr0) in Hbad |- *. cbn [orb] in *.
  destruct (Z.eqb_spec (ph_vaddr ph mod PGSIZE) 0) as [Hpg|Hpg]; cbn [negb] in *; [|apply (Hbad f1 k1 l1 tab1 pg1 _ u Hb1 HQ1); by left].
  assert (newsz <= r < KERNBASE) as Hrr by lia. destruct (PGROUNDUP_le r ltac:(lia)) as (P1 & P2 & _).
  destruct (loaduvm_ok k0 L0 l1 pgdir tab1 pg1 (PGROUNDUP r) img (ph_vaddr ph) (ph_off ph) (ph_filesz ph) f1 k1 u Hb1 HQ1) as (r2 & f2 & k2 & E2 & HQ2 & Hr2);
    [lia | done | lia | unfold newsz in *; lia | lia |].
  rewrite (sr_bind_run _ _ _ _ _ E2). destruct Hr2 as [(-> & Hfit & Hb2)|(-> & Hnofit & u2 & Hb2)]; cbn [Z.ltb Z.compare].
  2: { apply (Hbad f2 k2 l1 tab1 pg1 _ u2 Hb2 HQ2). left. rewrite (proj2 (Z.eqb_neq (ph_filesz ph) 0)), (proj2 (Z.ltb_lt _ _)) by lia. done. }
  assert (negb (ph_filesz ph =? 0) && (Z.of_nat (length data) <? ph_off ph + ph_filesz ph) = false) as ->.
  { destruct Hfit as [->|Hfit]; [done|]. rewrite (proj2 (Z.ltb_ge _ _)) by lia. apply andb_false_r. }
  rewrite u32_small by (unfold KERNBASE in *; lia). apply (IH _ r f2 k2 l1 tab1 pg1); [done | done | lia |].
  intros va Hva. rewrite put_bytes_at. pose proof (slice_length_le (ph_off ph) (ph_filesz ph) ltac:(lia)). case_within; [unfold newsz in *; lia | apply Hu; lia].
Qed.

(** The image of an executable file: entry point, size, contents. *)
Definition elf_image : option (Z * Z * mem) :=
  let '(r, elf) := rd data 0 52 in
  if negb (r =? 52) then None
  else if negb (elf_magic elf =? ELF_MAGIC) then None
  else match segs (Z.to_nat (elf_phnum elf)) (s32 (elf_phoff elf)) 0 (fun _ => 0) with
       | Some (sz, u) => Some (elf_entry elf, sz, u)
       | None => None
       end.

(** The file can be closed. *)
Hypothesis Hclose : forall f, Q f -> exists f', (_ ← iunlockput pid ip; m_end_op) f = Ok (tt, f').
Context (kdata : Z).
Hypothesis Hkdata : KERNLINK < kdata < KERNBASE + PHYSTOP /\ kdata mod 4096 = 0.

Lemma close_run f k img : Q f -> exists f', (_ ← x_fs (iunlockput pid ip); x_fs m_end_op) (mkEst f k img) = Ok (tt, mkEst f' k img).
Proof.
  intros HQ. destruct (Hclose f HQ) as (f2 & E). apply sr_bind_ok in E as ([] & f1 & E1 & E2). exists f2.
  rewrite (sr_bind_run _ _ _ _ _ (x_fs_run _ f k img _ _ E1)). by apply x_fs_run.
Qed.

Lemma exec_ok path argv (s : est C) f1 f2 f3 A l :
  m_begin_op (e_fs s) = Ok (tt, f1) -> namei pid dev_read path f1 = Ok (Some ip, f2) -> ilock pid (Some ip) f2 = Ok (tt, f3) -> Q f3 ->
  in_space (e_k s) l A -> as_dir A = x_pgdir (e_img s) -> Forall arg_ok argv ->
  exists r s', exec pid kend kdata dev_read path argv s = Ok (r, s') /\
    match elf_image with
    | Some (entry, sz, u) =>
        let base := PGROUNDUP sz in
        r = 0 /\ stack_fits argv base /\ replaced (e_k s) l A (e_k s') (e_img s') path argv entry base u \/
        r = -1 /\ e_img s' = e_img s /\ kept (e_k s) l A (e_k s') /\ (~ stack_fits argv base \/ few l base)
    | None => r = -1 /\ e_img s' = e_img s /\ kept (e_k s) l A (e_k s')
    end.
Proof.
  destruct s as [f k img]. cbn [e_fs e_k e_img]. intros E1 E2 E3 HQ HA Hdir Hargs. unfold exec, elf_image.
  rewrite (sr_bind_run _ _ _ _ _ (x_fs_run _ f k img _ _ E1)), (sr_bind_run _ _ _ _ _ (x_fs_run _ f1 k img _ _ E2)).
  rewrite (sr_bind_run _ _ _ _ _ (x_fs_run _ f2 k img _ _ E3)).
  destruct (Hread f3 0 52 HQ) as (f4 & E4 & HQ4); [lia | lia |]. rewrite (sr_bind_run _ _ _ _ _ (x_fs_run _ f3 k img _ _ E4)).
  pose proof (rd_bytes 0 52) as Hby. destruct (rd data 0 52) as [r elf]. cbn [snd] in Hby.
  pose proof (fp_nodup _ _ _ (vm_free _ _ _ _ _ (sp_vm _ _ _ _ _ _ _ _ HA))) as Hnd.
  assert (kept k l A k) as Hkept by (exists l; done).
  assert (forall f k', Q f -> kept k l A k' -> exists f', (_ ← (_ ← x_fs (iunlockput pid ip); x_fs m_end_op); mret (-1)) (mkEst f k' img) = Ok (-1, mkEst f' k' img)) as Hbad.
  { intros g k' HQg _. destruct (close_run g k' img HQg) as (f' & E). exists f'. by rewrite (sr_bind_run _ _ _ _ _ E). }
  destruct (Z.eqb_spec r 52) as [->|Hr]; cbn [negb]; [|destruct (Hbad f4 k HQ4 Hkept) as (f' & E); eexists _, _; split; [exact E | done]].
  destruct (Z.eqb_spec (elf_magic elf) ELF_MAGIC) as [Hmag|Hmag]; cbn [negb]; [|destruct (Hbad f4 k HQ4 Hkept) as (f' & E); eexists _, _; split; [exact E | done]].
  destruct (setupkvm_ok kend Hkend kdata (proj1 Hkdata) (proj2 Hkdata) k l) as [(k1 & l1 & E5 & F5 & Hin & Hm & Hfew)|(pgdir & k1 & l1 & tab & E5 & Hp0 & Hb)]; [apply HA | |].
  { rewrite (sr_bind_run _ _ _ _ _ (x_vm_run _ f4 k img _ _ E5)). cbn [Z.eqb].
    assert (kept k l A k1) as Hk1 by (by apply (kept_ext k l A k1 l1)). destruct (Hbad f4 k1 HQ4 Hk1) as (f' & E). eexists _, _. split; [exact E|]. cbn [e_k e_img].
    destruct (segs _ _ _ _) as [[sz u]|] eqn:Es; [|done]. right. do 3 (split; [done|]). right. unfold few. apply segs_mono in Es; [|by unfold KERNBASE].
    destruct (PGROUNDUP_le sz ltac:(lia)) as (B1 & _). zlia. }
  rewrite (sr_bind_run _ _ _ _ _ (x_vm_run _ f4 k img _ _ E5)), (proj2 (Z.eqb_neq _ _) Hp0).
  destruct (load_segs_ok k l pgdir img (Z.to_nat (elf_phnum elf)) (s32 (elf_phoff elf)) 0 f4 k1 l1 tab _ _ Hnd Hb HQ4) as (o & f5 & k2 & E6 & HQ5 & l2 & tab2 & pg2 & top2 & u2 & Hb2 & Ho); [by unfold KERNBASE | done |].
  rewrite (sr_bind_run _ _ _ _ _ E6). destruct o as [sz|].
  - destruct Ho as (-> & -> & Hsz & Hu2). destruct (close_run f5 k2 img HQ5) as (f6 & E7). rewrite (sr_bind_run _ _ _ _ _ E7).
    destruct (PGROUNDUP_le sz ltac:(lia)) as (B1 & _).
    destruct (exec_stack_ok k l A f6 img k2 l2 pgdir tab2 pg2 sz u2 path argv (elf_entry elf) HA Hdir Hnd Hb2 Hsz) as (r & k' & img' & E & Hr); [intros; apply Hu2; lia | done |].
    eexists _, _. split; [exact E|]. exact Hr.
  - destruct (drop_built k l A k2 l2 pgdir tab2 pg2 None top2 u2 HA Hb2) as (k3 & E7 & Hk3). rewrite (sr_bind_run _ _ _ _ _ (x_vm_run _ f5 k2 img _ _ E7)).
    destruct (Hbad f5 k3 HQ5 Hk3) as (f' & E). eexists _, _. split; [exact E|]. cbn [e_k e_img]. destruct Ho as [->|(sz & u & Es & Hfew)]; [done|]. rewrite Es.
    right. do 3 (split; [done|]). right. apply segs_mono in Es; [|by unfold KERNBASE]. destruct (PGROUNDUP_le sz ltac:(lia)) as (B1 & _). unfold few in *. zlia.
Qed.

End Load.
End Run.

(** ** The file *)

Section File.
Context {C : Type} {ops : BufOps C} {laws : BufLaws C}.
Context (start lsize dsize pid : Z).
Context (dev_read : Z -> option (nat -> Z -> SR (fs C) (Z * list Z))).
Context (d : gmap Z block) (v : Z -> block) (sb : superblock) (x : inode) (ip : nat).
Implicit Types f : fs C.

(** Inside the transaction of [exec], the inode [x] is locked. *)
Record opened f : Prop := {
  op_rep : frep d start lsize dsize true f v ∅ ∅;
  op_only : op_state f = (1, false);
  op_ip : nth_ip f ip = x /\ (ip < length (icache f))%nat;
  op_sb : fs_sb f = sb
}.

Definition file_data : list Z := contents x v 0 (i_size x).

Hypothesis Hgeo : geo start lsize dsize sb.
Hypothesis Hwf : ino_wf start lsize dsize sb v x.
Hypothesis Hty : i_type x <> T_DEV.
Hypothesis Hsize : 0 <= i_size x <= MAXFILE * BSIZE.
Hypothesis Hcov : covered x v 0 (i_size x).

Lemma file_data_length : Z.of_nat (length file_data) = i_size x.
Proof. unfold file_data, contents. rewrite length_map, length_seqZ. lia. Qed.

Lemma file_slice off n : 0 <= off -> 0 <= n -> off + n <= i_size x -> slice file_data off n = contents x v off n.
Proof.
  intros H1 H2 H3. unfold slice, file_data, contents. apply list_eq. intros i.
  destruct (decide (i < Z.to_nat n)%nat) as [Hi|Hi].
  - rewrite lookup_take_lt by done. rewrite lookup_drop, !list_lookup_fmap, !lookup_seqZ_lt by lia. cbn. f_equal. f_equal. lia.
  - rewrite lookup_ge_None_2 by (rewrite length_take, length_drop, length_map, length_seqZ; lia).
    symmetry. apply lookup_ge_None_2. rewrite length_map, length_seqZ. lia.
Qed.

Lemma opened_read f off n : opened f -> 0 <= off < 2 ^ 32 -> 0 <= n < 2 ^ 31 ->
  exists f', readi dev_read ip off n f = Ok (rd file_data off n, f') /\ opened f'.
Proof.
  intros [F Hop [Hx Hl] Hsb] Hoff Hn. assert (MAXFILE * BSIZE = 71680) as Hmx by done. unfold rd. rewrite file_data_length.
  destruct (Z.ltb_spec (i_size x) off) as [Hlt|Hge]; cbn [orb].
  - exists f. split; [|done]. unfold readi. rewrite (sr_bind_run (m_ip ip) _ f x f) by (unfold m_ip, sr_gets; by rewrite Hx).
    rewrite (proj2 (Z.eqb_neq _ _)) by done. rewrite (proj2 (Z.ltb_lt _ _) Hlt). done.
  - rewrite (proj2 (Z.ltb_ge (u32 (off + n)) off)) by (rewrite u32_small; lia).
    destruct (readi_ok d start lsize dsize true dev_read f v ∅ ip off n) as (f' & E & F' & S'); rewrite ?Hx, ?Hsb; try done; try lia; [rewrite size_empty; lia|].
    rewrite Hx in E. exists f'. split.
    + rewrite E. destruct (Z.ltb_spec (i_size x) (off + n)) as [H1|H1]; rewrite file_slice by lia; do 3 f_equal; try lia; f_equal; lia.
    + pose proof (ko_readi dev_read ip off n f _ f' ltac:(by rewrite Hx) E) as Hop'. destruct S' as [Hs1 [Hs2 Hs3]].
      constructor; [done | by rewrite Hop' | | congruence]. unfold nth_ip in *. by rewrite Hs2.
Qed.

Hypothesis Hlocked : i_lock x = mkSleeplock true pid.
Hypothesis Hlive : 1 <= i_ref x /\ i_valid x = true /\ i_nlink x <> 0.

Lemma opened_close f : opened f ->
  exists f' d' v', (_ ← iunlockput pid ip; m_end_op) f = Ok (tt, f') /\ at_rest start lsize dsize f' d' v' /\
    forall n, ~ (start <= n < start + lsize) -> v' n = v n.
Proof.
  intros [F Hop [Hx Hl] Hsb]. destruct Hlive as (Hr & Hva & Hnl).
  destruct (iunlock_ok pid f ip Hl ltac:(by rewrite Hx) ltac:(by rewrite Hx)) as (f1 & E1 & U1 & Ec1 & El1). rewrite Hx in U1.
  destruct (upd_ip_nth _ _ _ _ U1 Hl) as [Hx1 Hl1].
  set (f2 := fset_icache (alter (iset_lock (mkSleeplock true pid)) ip (icache f1)) f1).
  set (f3 := fset_icache (alter (fun x => iset_lock (releasesleep (i_lock x)) x) ip (icache f2)) f2).
  set (f4 := fset_icache (alter (fun x => iset_ref (i_ref x - 1) x) ip (icache f3)) f3).
  assert (iput pid ip f1 = Ok (tt, f4)) as E2.
  { unfold iput. rewrite (sr_bind_run (m_acquiresleep pid ip) _ f1 tt f2) by (unfold m_acquiresleep; rewrite Hx1; done).
    assert (nth_ip f2 ip = iset_lock (mkSleeplock true pid) (iset_lock initsleeplock x)) as Hx2.
    { unfold nth_ip, f2 in *. cbn. rewrite list_lookup_alter_eq. destruct (lookup_lt_is_Some_2 (icache f1) ip ltac:(lia)) as [y Hy]. rewrite Hy in *. cbn in *. congruence. }
    rewrite (sr_bind_run (m_ip ip) _ f2 _ f2) by (unfold m_ip, sr_gets; by rewrite Hx2). cbn [i_valid i_nlink iset_lock].
    rewrite Hva, (proj2 (Z.eqb_neq _ _) Hnl). cbn [andb]. rewrite (sr_bind_run (mret tt) _ f2 tt f2) by done.
    by rewrite (sr_bind_run (m_releasesleep ip) _ f2 tt f3). }
  destruct (end_ok start lsize dsize f4 d v ∅) as (f' & d' & v' & E3 & R & _ & Hv).
  { eapply frep_cong; [| |exact F]; cbn; done. }
  { unfold op_state in *. cbn. by rewrite El1. }
  { rewrite size_empty. lia. }
  exists f', d', v'. split; [|done]. unfold iunlockput. rewrite (sr_bind_run _ _ f tt f4); [exact E3|]. by rewrite (sr_bind_run _ _ _ _ _ E1).
Qed.

End File.


(** *** A disk with an executable without segments, cached as inode 1, and a
    process without user memory *)

Definition demo3_elf : block := le32 ELF_MAGIC ++ replicate 508 0.
Definition demo3_bitmap : block := 255 :: 255 :: 255 :: 255 :: 7 :: replicate 507 0.
Definition demo3_disk : gmap Z block := {[ 33 := demo3_bitmap; 34 := demo3_elf ]}.
Definition demo3_ino (ref : Z) : inode := mkInode 1 1 ref initsleeplock true T_FILE 0 0 1 52 (34 :: replicate 12 0).
Definition demo3_fs (n ref : Z) : fs bio :=
  mkFs (binit demo3_disk 60) (mkLog 2 30 n false 1 0 (replicate 30 0)) demo2_sb (demo3_ino ref :: replicate 49 inode0) 0.

Lemma demo3_wf n : length (dread demo3_disk n) = 512%nat.
Proof.
  unfold dread, demo3_disk. destruct (decide (n = 33)) as [->|H33]; [by rewrite lookup_insert_eq|]. rewrite lookup_insert_ne by done.
  destruct (decide (n = 34)) as [->|H34]; [by rewrite lookup_singleton_eq | by rewrite lookup_singleton_ne].
Defined.

Lemma demo3_rep : frep (laws := bio_laws 1) demo3_disk 2 30 60 true (demo3_fs 1 2) (dread demo3_disk) ∅ ∅.
Proof.
  constructor; try done.
  - apply binit_rep, demo3_wf.
  - constructor; [|done | constructor | done]. constructor; try done. cbn. intros i Hi. lia.
Defined.

Lemma demo3_baddr j : 0 <= j <= MAXFILE -> baddr (demo3_ino 2) (dread demo3_disk) j = if j =? 0 then 34 else 0.
Proof.
  intros Hj. unfold baddr. cbn [i_addrs demo3_ino]. change (nth (Z.to_nat NDIRECT) (34 :: replicate 12 0) 0) with 0.
  destruct (Z.eqb_spec j 0) as [->|Hne]; [done|]. destruct (j <? NDIRECT); [|by destruct (j =? MAXFILE)].
  replace (Z.to_nat j) with (S (Z.to_nat (j - 1))) by lia. cbn [nth]. rewrite nth_lookup.
  destruct (replicate 12 0 !! Z.to_nat (j - 1)) as [y|] eqn:E; [|done]. by apply lookup_replicate in E as [-> _].
Defined.

Lemma demo3_file_ok : file_ok 2 30 60 (demo3_fs 1 2) (dread demo3_disk) 0.
Proof.
  assert (nth_ip (demo3_fs 1 2) 0 = demo3_ino 2) as E by done.
  assert (MAXFILE = 140) as Hmf by done.
  constructor; rewrite ?E; try done; cbn [fs_sb demo3_fs].
  - constructor; try done. intros n ->%demo2_bitmap_block. split_and!; lia.
  - intros b Hb Hu. cbn in Hb.
    assert (Hall : forallb (fun b => used demo2_sb (dread demo3_disk) b || (34 <=? b)) (seqZ 0 60) = true) by (vm_compute; reflexivity).
    rewrite forallb_forall in Hall.
    assert (Hin : In b (seqZ 0 60)) by (apply list_elem_of_In, elem_of_seqZ; lia).
    apply Hall in Hin. rewrite Hu in Hin. cbn [orb] in Hin. apply Z.leb_le in Hin.
    split_and!; [lia | split_and!; lia |]. intros E1%demo2_bitmap_block. lia.
  - constructor; [done | done | |].
    + intros k Hk. rewrite demo3_baddr by done. destruct (k =? 0); [|done]. intros _.
      split; [cbn; lia|]. split; [vm_compute; reflexivity|]. split; [split_and!; lia|]. intros E1%demo2_bitmap_block. lia.
    + intros j k Hj Hk. rewrite !demo3_baddr by done. destruct (Z.eqb_spec j 0), (Z.eqb_spec k 0); lia.
  - cbn. lia.
  - split_and!; [cbn; lia | apply (bool_decide_unpack _); vm_compute; exact I | | ].
    + intros E1%demo2_bitmap_block. vm_compute in E1. discriminate E1.
    + intros _. vm_compute. reflexivity.
  - intros j Hj. rewrite demo3_baddr by done. change (IBLOCK (i_inum (demo3_ino 2)) demo2_sb) with 32. destruct (j =? 0); lia.
  - intros o Ho. cbn in Ho. replace (o / BSIZE) with 0 by (fs_consts; zlia). rewrite demo3_baddr by lia. done.
Defined.

