(* ===== verification/Grep.v ===== *)
(** The text tools [xv6/base/grep.c] and [xv6/base/wc.c].

    A C string is the list of its characters, without the NUL.  The input is
    what the successive calls of [read] return, a list of chunks; the end of
    the list is the end of the file.  The output is the list of the bytes
    written. *)

From S2P Require Import Prelude.

(** ** The matcher *)

Section Star.
(** [matchhere(re, -)] for the expression after the star. *)
Context (here : list Z -> bool).

Fixpoint matchstar (c : Z) (text : list Z) : bool :=
  here text ||
  match text with
  | [] => false
  | x :: text' => if (x =? c) || (c =? 46) then matchstar c text' else false
  end.
End Star.

Fixpoint matchhere (re text : list Z) : bool :=
  match re with
  | [] => true
  | c :: re' =>
      match re' with
      | d :: re'' =>
          if d =? 42 then matchstar (matchhere re'') c text
          else match text with
               | x :: text' => if (c =? 46) || (c =? x) then matchhere re' text' else false
               | [] => false
               end
      | [] =>
          if c =? 36 then match text with [] => true | _ => false end
          else match text with
               | x :: text' => if (c =? 46) || (c =? x) then matchhere re' text' else false
               | [] => false
               end
      end
  end.

(** The do loop of [match]. *)
Fixpoint match_loop (re text : list Z) : bool :=
  matchhere re text || match text with [] => false | _ :: text' => match_loop re text' end.

Definition match_re (re text : list Z) : bool :=
  match re with
  | c :: re' => if c =? 94 then matchhere re' text else match_loop re text
  | [] => match_loop re text
  end.

(** ** The loop over the input *)

Definition bufsize : nat := 1024.

(** [strchr(p, '\n')]: the line up to the newline, and what follows it. *)
Fixpoint find_nl (p : list Z) : option (list Z * list Z) :=
  match p with
  | [] => None
  | c :: p' =>
      if c =? 10 then Some ([], p')
      else if c =? 0 then None
      else match find_nl p' with
           | None => None
           | Some (line, rest) => Some (c :: line, rest)
           end
  end.

(** The inner loop: the output and the bytes from the last [p] on; every turn
    takes a newline. *)
Fixpoint grep_lines (fuel : nat) (pattern p : list Z) : list Z * list Z :=
  match fuel with
  | O => ([], p)
  | S f =>
      match find_nl p with
      | None => ([], p)
      | Some (line, rest) =>
          let '(out, p') := grep_lines f pattern rest in
          ((if match_re pattern line then line ++ [10] else []) ++ out, p')
      end
  end.

(** One turn of the outer loop: [buf] are the [m] bytes kept, [chunk] the
    bytes read. *)
Definition grep_turn (pattern buf chunk : list Z) : list Z * list Z :=
  let b := buf ++ chunk in
  let '(out, p) := grep_lines (S (length b)) pattern b in
  (* p == buf: nothing was taken *)
  (out, if (length p =? length b)%nat then [] else p).

Fixpoint grep_loop (pattern buf : list Z) (reads : list (list Z)) : list Z :=
  match reads with
  | [] => []
  | chunk :: reads' =>
      let '(out, buf) := grep_turn pattern buf chunk in
      out ++ grep_loop pattern buf reads'
  end.

Definition grep (pattern : list Z) (reads : list (list Z)) : list Z := grep_loop pattern [] reads.

(** What [read] may return: at least one byte, and no more than fit. *)
Fixpoint reads_ok (pattern buf : list Z) (reads : list (list Z)) : Prop :=
  match reads with
  | [] => True
  | chunk :: reads' =>
      (0 < length chunk)%nat /\ (length buf + length chunk <= bufsize - 1)%nat /\
      reads_ok pattern (grep_turn pattern buf chunk).2 reads'
  end.

(** ** Counting *)

Definition wc_blanks : list Z := [32; 13; 9; 10; 11].

Record wc_state := mkWc { wc_l : Z; wc_w : Z; wc_c : Z; inword : bool }.

(** The body of the inner loop of [wc]; the counters are [int]. *)
Definition wc_char (s : wc_state) (ch : Z) : wc_state :=
  let c := s32 (wc_c s + 1) in
  let l := if ch =? 10 then s32 (wc_l s + 1) else wc_l s in
  if bool_decide (ch ∈ wc_blanks) then mkWc l (wc_w s) c false
  else if negb (inword s) then mkWc l (s32 (wc_w s + 1)) c true
  else mkWc l (wc_w s) c (inword s).

Definition wc (reads : list (list Z)) : wc_state :=
  foldl (fun s chunk => foldl wc_char s chunk) (mkWc 0 0 0 false) reads.

(** ** What the expressions mean *)

(** An atom stands for a character, an item for one or for any number. *)
Inductive atom := AnyChar | Lit (c : Z).
Inductive item := One (a : atom) | Star (a : atom).

Definition atom_of (c : Z) : atom := if c =? 46 then AnyChar else Lit c.

Definition sat (a : atom) (x : Z) : Prop := match a with AnyChar => True | Lit c => x = c end.

(** The items of an expression and whether it ends in [$]. *)
Fixpoint items (re : list Z) : list item * bool :=
  match re with
  | [] => ([], false)
  | c :: re' =>
      match re' with
      | d :: re'' =>
          if d =? 42 then let '(its, e) := items re'' in (Star (atom_of c) :: its, e)
          else let '(its, e) := items re' in (One (atom_of c) :: its, e)
      | [] => if c =? 36 then ([], true) else ([One (atom_of c)], false)
      end
  end.

(** The strings a sequence of items stands for. *)
Fixpoint lang (its : list item) (s : list Z) : Prop :=
  match its with
  | [] => s = []
  | One a :: its' => exists x s', s = x :: s' /\ sat a x /\ lang its' s'
  | Star a :: its' => exists u s', s = u ++ s' /\ Forall (sat a) u /\ lang its' s'
  end.

(** [re] occurs in [text], at its start or its end where it says so. *)
Definition occurs (re text : list Z) : Prop :=
  let '(bol, body) := match re with c :: re' => if c =? 94 then (true, re') else (false, re) | [] => (false, re) end in
  let '(its, eol) := items body in
  exists pre mid post, text = pre ++ mid ++ post /\ lang its mid /\ (bol = true -> pre = []) /\ (eol = true -> post = []).

(** *** Proofs *)

(** [body] holds a string that starts [text]. *)
Definition prefix_occurs (re text : list Z) : Prop :=
  exists mid post, text = mid ++ post /\ lang (items re).1 mid /\ ((items re).2 = true -> post = []).

Lemma sat_char c x : (c =? 46) || (c =? x) = true <-> sat (atom_of c) x.
Proof.
  unfold atom_of. destruct (Z.eqb_spec c 46) as [->|Hc]; cbn [orb sat]; [by split|]. rewrite Z.eqb_eq. split; congruence.
Qed.

Lemma sat_star c x : (x =? c) || (c =? 46) = true <-> sat (atom_of c) x.
Proof. rewrite <-sat_char, orb_comm, (Z.eqb_sym x c). done. Qed.

Lemma matchstar_spec here (P : list Z -> Prop) c text :
  (forall t, here t = true <-> P t) ->
  matchstar here c text = true <-> exists u v, text = u ++ v /\ Forall (sat (atom_of c)) u /\ P v.
Proof.
  intros Hh. induction text as [|x text IH]; cbn [matchstar].
  - rewrite orb_false_r, Hh. split; [exists [], []; done|]. intros (u & v & E & _ & H).
    symmetry in E. apply app_nil in E as [-> ->]. done.
  - rewrite orb_true_iff, Hh. split.
    + intros [H|H]; [by exists [], (x :: text)|]. destruct ((x =? c) || (c =? 46)) eqn:Ex; [|done].
      apply IH in H as (u & v & -> & Hu & Hv). exists (x :: u), v. split_and!; [done | | done].
      constructor; [by apply sat_star | done].
    + intros (u & v & E & Hu & Hv). destruct u as [|y u]; cbn in E; [left; by subst|]. injection E as <- E. right.
      apply Forall_cons in Hu as [Hx Hu]. rewrite (proj2 (sat_star c x) Hx). apply IH. eauto.
Qed.

Lemma items_cons c d re :
  items (c :: d :: re) = (if d =? 42 then (Star (atom_of c) :: (items re).1, (items re).2)
                          else (One (atom_of c) :: (items (d :: re)).1, (items (d :: re)).2)).
Proof.
  change (items (c :: d :: re)) with
    (if d =? 42 then let '(its, e) := items re in (Star (atom_of c) :: its, e)
     else let '(its, e) := items (d :: re) in (One (atom_of c) :: its, e)).
  by destruct (items re), (items (d :: re)).
Qed.

(** One character, then the rest. *)
Lemma one_occurs c re text :
  items (c :: re) = (One (atom_of c) :: (items re).1, (items re).2) ->
  (forall t, matchhere re t = true <-> prefix_occurs re t) ->
  (match text with x :: text' => if (c =? 46) || (c =? x) then matchhere re text' else false | [] => false end) = true <->
  prefix_occurs (c :: re) text.
Proof.
  intros Ei IH. unfold prefix_occurs. rewrite Ei. cbn [fst snd lang]. destruct text as [|x text].
  - split; [done|]. intros (mid & post & E & (y & s' & -> & _) & _). done.
  - destruct ((c =? 46) || (c =? x)) eqn:Ex.
    + rewrite IH. apply sat_char in Ex. split.
      * intros (mid & post & -> & Hm & Hp). exists (x :: mid), post. split_and!; [done | by exists x, mid | done].
      * intros (mid & post & E & (y & s' & -> & _ & Hm) & Hp). injection E as <- ->. exists s', post. done.
    + split; [done|]. intros (mid & post & E & (y & s' & -> & Hy & _) & _). injection E as <- ->.
      apply sat_char in Hy. congruence.
Qed.

Lemma matchhere_spec re : forall text, matchhere re text = true <-> prefix_occurs re text.
Proof.
  induction re as [re IH] using (induction_ltof1 _ (@length Z)). unfold ltof in IH. intros text.
  destruct re as [|c re']; [split; [intros _; exists [], text; by cbn | done]|].
  assert (forall t, matchhere re' t = true <-> prefix_occurs re' t) as IH1 by (apply IH; cbn; lia).
  cbn [matchhere]. destruct re' as [|d re''].
  - destruct (c =? 36) eqn:Ec; [|apply one_occurs; [cbn; by rewrite Ec | done]].
    unfold prefix_occurs. cbn [items]. rewrite Ec. cbn [fst snd lang]. destruct text as [|x text].
    + split; [intros _; by exists [], [] | done].
    + split; [done|]. intros (mid & post & E & -> & Hp). by rewrite Hp in E.
  - destruct (d =? 42) eqn:Ed; [|apply one_occurs; [by rewrite items_cons, Ed | done]].
    rewrite (matchstar_spec _ (prefix_occurs re'')) by (apply IH; cbn; lia).
    unfold prefix_occurs. rewrite items_cons, Ed. destruct (items re'') as [its e]. cbn [fst snd lang]. split.
    + intros (u & v & -> & Hu & mid & post & -> & Hm & Hp). exists (u ++ mid), post. split_and!; [by rewrite app_assoc | by exists u, mid | done].
    + intros (mid & post & -> & (u & s' & -> & Hu & Hm) & Hp). exists u, (s' ++ post). split_and!; [by rewrite app_assoc | done | by exists s', post].
Qed.

Lemma match_loop_spec re text :
  match_loop re text = true <-> exists pre rest, text = pre ++ rest /\ prefix_occurs re rest.
Proof.
  induction text as [|x text IH]; cbn [match_loop].
  - rewrite orb_false_r, matchhere_spec. split; [intros H; by exists [], []|]. intros (pre & rest & E & H).
    symmetry in E. apply app_nil in E as [-> ->]. done.
  - rewrite orb_true_iff, matchhere_spec, IH. split.
    + intros [H|(pre & rest & -> & H)]; [by exists [], (x :: text) | by exists (x :: pre), rest].
    + intros (pre & rest & E & H). destruct pre as [|y pre]; cbn in E; [left; by subst|]. injection E as <- ->. right. eauto.
Qed.

Lemma match_re_spec re text : match_re re text = true <-> occurs re text.
Proof.
  assert (forall re, match_loop re text = true <->
    let '(its, eol) := items re in exists pre mid post, text = pre ++ mid ++ post /\ lang its mid /\ (false = true -> pre = []) /\ (eol = true -> post = []))
    as Hloop.
  { intros r. rewrite match_loop_spec. unfold prefix_occurs. destruct (items r) as [its eol]. cbn. split.
    - intros (pre & rest & -> & mid & post & -> & Hm & Hp). by exists pre, mid, post.
    - intros (pre & mid & post & -> & Hm & _ & Hp). exists pre, (mid ++ post). split; [done|]. by exists mid, post. }
  unfold match_re, occurs. destruct re as [|c re]; [apply Hloop|]. destruct (c =? 94); [|apply Hloop].
  rewrite matchhere_spec. unfold prefix_occurs. destruct (items re) as [its eol]. cbn. split.
  - intros (mid & post & -> & Hm & Hp). by exists [], mid, post.
  - intros (pre & mid & post & -> & Hm & Hpre & Hp). rewrite Hpre by done. by exists mid, post.
Qed.

(** ** Lines *)

(** A text of complete lines and an incomplete last one. *)
Definition unlines (ls : list (list Z)) : list Z := ls ≫= fun l => l ++ [10].
Definition is_line (l : list Z) : Prop := Forall (fun c => c <> 10 /\ c <> 0) l.

Definition matching (pattern : list Z) (ls : list (list Z)) : list (list Z) := filter (fun l => match_re pattern l = true) ls.

Lemma unlines_cons l ls : unlines (l :: ls) = l ++ 10 :: unlines ls.
Proof. unfold unlines. cbn. by rewrite <-app_assoc. Qed.

Lemma find_nl_line l rest : is_line l -> find_nl (l ++ 10 :: rest) = Some (l, rest).
Proof.
  induction l as [|c l IH]; intros Hl; [done|]. apply Forall_cons in Hl as [[H1 H2] Hl]. cbn.
  rewrite (proj2 (Z.eqb_neq _ _) H1), (proj2 (Z.eqb_neq _ _) H2), IH by done. done.
Qed.

Lemma find_nl_none l : is_line l -> find_nl l = None.
Proof.
  induction l as [|c l IH]; intros Hl; [done|]. apply Forall_cons in Hl as [[H1 H2] Hl]. cbn.
  by rewrite (proj2 (Z.eqb_neq _ _) H1), (proj2 (Z.eqb_neq _ _) H2), IH.
Qed.

Lemma matching_cons pattern l ls :
  unlines (matching pattern (l :: ls)) = (if match_re pattern l then l ++ [10] else []) ++ unlines (matching pattern ls).
Proof.
  unfold matching. rewrite filter_cons. destruct (match_re pattern l) eqn:E.
  - rewrite decide_True by done. rewrite unlines_cons, <-app_assoc. done.
  - by rewrite decide_False.
Qed.

Lemma grep_lines_spec fuel pattern ls tail :
  (length ls < fuel)%nat -> Forall is_line ls -> is_line tail ->
  grep_lines fuel pattern (unlines ls ++ tail) = (unlines (matching pattern ls), tail).
Proof.
  revert ls. induction fuel as [|f IH]; intros ls Hf Hls Ht; [lia|]. cbn [grep_lines]. destruct ls as [|l ls].
  - cbn. by rewrite find_nl_none.
  - apply Forall_cons in Hls as [Hl Hls]. rewrite unlines_cons, <-app_assoc. cbn [app]. rewrite find_nl_line by done.
    cbn in Hf. rewrite IH by (done || lia). by rewrite matching_cons.
Qed.

Lemma unlines_length ls : (length ls <= length (unlines ls))%nat.
Proof. induction ls as [|l ls IH]; [done|]. rewrite unlines_cons, length_app. cbn. lia. Qed.

(** A turn on a buffer with at least one complete line. *)
Lemma grep_turn_spec pattern buf chunk l ls tail :
  buf ++ chunk = unlines (l :: ls) ++ tail -> Forall is_line (l :: ls) -> is_line tail ->
  grep_turn pattern buf chunk = (unlines (matching pattern (l :: ls)), tail).
Proof.
  intros E Hls Ht. unfold grep_turn. rewrite E. pose proof (unlines_length (l :: ls)) as Hlen.
  rewrite grep_lines_spec; [|rewrite length_app; lia | done | done].
  destruct (Nat.eqb_spec (length tail) (length (unlines (l :: ls) ++ tail))) as [H|H]; [|done].
  rewrite length_app in H. cbn [length] in Hlen. lia.
Qed.

(** [read] on a file returns as many bytes as fit, or all that are left. *)
Fixpoint reads_full (pattern buf : list Z) (reads : list (list Z)) (input : list Z) : Prop :=
  match reads with
  | [] => input = []
  | chunk :: reads' =>
      chunk = take (bufsize - 1 - length buf) input /\ chunk <> [] /\
      reads_full pattern (grep_turn pattern buf chunk).2 reads' (drop (bufsize - 1 - length buf) input)
  end.

Definition short_line (l : list Z) : Prop := is_line l /\ (length l + 1 < bufsize)%nat.

Lemma is_line_take n l : is_line l -> is_line (take n l).
Proof. apply Forall_take. Qed.

(** The first [n] bytes of a text: complete lines and the start of another. *)
Lemma take_lines n ls tail :
  Forall short_line ls -> short_line tail ->
  exists ls1 ls2 part, ls = ls1 ++ ls2 /\ take n (unlines ls ++ tail) = unlines ls1 ++ part /\ short_line part /\
    part ++ drop n (unlines ls ++ tail) = unlines ls2 ++ tail /\
    (forall l ls', ls = l :: ls' -> (length l < n)%nat -> ls1 <> []).
Proof.
  intros Hls [Ht1 Ht2]. revert n. induction Hls as [|l ls [Hl1 Hl2] Hls IH]; intros n.
  - exists [], [], (take n tail). cbn [unlines mbind list_bind app]. split_and!; try done.
    + split; [by apply is_line_take | rewrite length_take; lia].
    + by rewrite take_drop.
  - rewrite unlines_cons, <-app_assoc. cbn [app]. destruct (decide (length l < n)%nat) as [Hn|Hn].
    + destruct (IH (n - length l - 1)%nat) as (ls1 & ls2 & part & -> & E & Hp & E2 & _).
      exists (l :: ls1), ls2, part. split_and!; try done.
      * rewrite unlines_cons, <-app_assoc. cbn [app]. rewrite <-E, take_app_ge by lia. f_equal.
        destruct (n - length l)%nat as [|j] eqn:Ej; [lia|]. cbn. by rewrite Nat.sub_0_r.
      * rewrite <-E2, drop_app_ge by lia. f_equal.
        destruct (n - length l)%nat as [|j] eqn:Ej; [lia|]. cbn. by rewrite Nat.sub_0_r.
    + exists [], (l :: ls), (take n l). split_and!; try done.
      * cbn. by rewrite take_app_le by lia.
      * split; [by apply is_line_take | rewrite length_take; lia].
      * rewrite drop_app_le, unlines_cons by lia. rewrite app_assoc, take_drop, <-app_assoc. done.
      * intros l' ls' [= <- <-]. lia.
Qed.

Lemma line_of_line l ls tail : is_line l -> l = unlines ls ++ tail -> ls = [].
Proof.
  intros Hl E. destruct ls as [|l' ls]; [done|]. exfalso. rewrite unlines_cons, <-app_assoc in E. subst l.
  apply Forall_app in Hl as [_ Hl]. apply Forall_cons in Hl as [[H _] _]. done.
Qed.

Lemma grep_loop_full pattern reads buf input ls tail :
  buf ++ input = unlines ls ++ tail -> short_line buf -> Forall short_line ls -> short_line tail ->
  reads_full pattern buf reads input -> grep_loop pattern buf reads = unlines (matching pattern ls).
Proof.
  revert buf input ls. induction reads as [|chunk reads IH]; intros buf input ls E Hb Hls Ht Hr; cbn [reads_full grep_loop] in *.
  - subst input. rewrite app_nil_r in E. by rewrite (line_of_line _ _ _ (proj1 Hb) E).
  - destruct Hr as (-> & Hne & Hr). set (k := (bufsize - 1 - length buf)%nat) in *.
    assert (buf ++ take k input = take (bufsize - 1) (unlines ls ++ tail)) as Eb.
    { rewrite <-E, take_app_ge by (destruct Hb; lia). done. }
    assert (drop k input = drop (bufsize - 1) (unlines ls ++ tail)) as Ed.
    { rewrite <-E, drop_app_ge by (destruct Hb; lia). done. }
    destruct (take_lines (bufsize - 1) ls tail Hls Ht) as (ls1 & ls2 & part & El & E1 & Hp & E2 & Hfirst).
    assert (Forall is_line ls) as Hil by (eapply Forall_impl; [exact Hls|]; by intros l []).
    rewrite E1 in Eb. destruct ls1 as [|l ls1].
    + assert (ls = []) as Els.
      { destruct ls as [|l ls']; [done|]. exfalso. apply (Hfirst l ls' eq_refl); [|done].
        apply Forall_cons in Hls as [[_ H] _]. lia. }
      rewrite Els in *. cbn [unlines mbind list_bind app] in Eb.
      assert (reads = []) as Ers.
      { destruct reads as [|c reads]; [done|]. cbn [reads_full] in Hr. destruct Hr as (-> & Hc & _). exfalso. apply Hc.
        rewrite Ed. cbn [unlines mbind list_bind app]. rewrite drop_ge by (destruct Ht; lia). by rewrite take_nil. }
      subst reads. cbn [grep_loop]. unfold grep_turn. rewrite Eb. destruct Hp as [Hp _].
      pose proof (grep_lines_spec (S (length part)) pattern [] part) as Hg. cbn [unlines mbind list_bind app] in Hg.
      rewrite Hg by (done || (cbn; lia)). rewrite app_nil_r. done.
    + rewrite El in Hil, Hls. apply Forall_app in Hil as [Hil1 _]. apply Forall_app in Hls as [_ Hls2].
      rewrite (grep_turn_spec pattern buf (take k input) l ls1 part Eb Hil1 (proj1 Hp)) in Hr |- *. cbn [snd] in Hr.
      rewrite (IH part (drop k input) ls2); [| by rewrite Ed | done | done | done | done].
      rewrite El. unfold matching. rewrite filter_app. unfold unlines. by rewrite bind_app.
Qed.

(** ** Counts *)

Definition blank (c : Z) : bool := bool_decide (c ∈ wc_blanks).

(** The words of a text: the characters that are not blank and follow a blank
    or nothing. *)
Fixpoint word_starts (after_blank : bool) (t : list Z) : Z :=
  match t with
  | [] => 0
  | c :: t' => (if negb (blank c) && after_blank then 1 else 0) + word_starts (blank c) t'
  end.

Definition newlines (t : list Z) : Z := Z.of_nat (length (filter (fun c => c = 10) t)).

Lemma word_starts_bound b t : 0 <= word_starts b t <= Z.of_nat (length t).
Proof. revert b. induction t as [|c t IH]; intros b; cbn [word_starts length]; [lia|]. specialize (IH (blank c)). case_match; lia. Qed.

Lemma newlines_cons c t : newlines (c :: t) = (if c =? 10 then 1 else 0) + newlines t.
Proof.
  unfold newlines. rewrite filter_cons. destruct (Z.eqb_spec c 10).
  - rewrite decide_True by done. cbn [length]. lia.
  - by rewrite decide_False.
Qed.

Lemma newlines_bound t : 0 <= newlines t <= Z.of_nat (length t).
Proof. unfold newlines. pose proof (length_filter (fun c : Z => c = 10) t). lia. Qed.

Lemma wc_char_eq l w c inw x :
  0 <= l <= c -> 0 <= w <= c -> 0 <= c < 2 ^ 31 - 1 ->
  wc_char (mkWc l w c inw) x =
    mkWc (l + (if x =? 10 then 1 else 0)) (w + (if negb (blank x) && negb inw then 1 else 0)) (c + 1) (negb (blank x)).
Proof.
  intros Hl Hw Hc. unfold wc_char. cbn [wc_l wc_w wc_c inword]. fold (blank x). rewrite !s32_small by lia.
  destruct (blank x), inw, (x =? 10); cbn [negb andb]; f_equal; lia.
Qed.

Lemma wc_chars t l w c inw :
  0 <= l -> 0 <= w -> 0 <= c -> l <= c -> w <= c -> c + Z.of_nat (length t) < 2 ^ 31 ->
  exists inw', foldl wc_char (mkWc l w c inw) t =
    mkWc (l + newlines t) (w + word_starts (negb inw) t) (c + Z.of_nat (length t)) inw'.
Proof.
  revert l w c inw. induction t as [|x t IH]; intros l w c inw Hl Hw Hc Hlc Hwc Hb.
  - exists inw. cbn. by rewrite !Z.add_0_r.
  - cbn [foldl]. rewrite newlines_cons. cbn [word_starts length] in *. rewrite wc_char_eq by lia.
    destruct (IH (l + (if x =? 10 then 1 else 0)) (w + (if negb (blank x) && negb inw then 1 else 0)) (c + 1) (negb (blank x)))
      as [i ->]; try (repeat case_match; lia).
    exists i. rewrite negb_involutive. f_equal; lia.
Qed.

(** [wc] counts lines, words and characters of the whole input, however it is
    cut into reads, as long as there are fewer than 2^31 characters. *)
Lemma wc_correct reads :
  let t := concat reads in Z.of_nat (length t) < 2 ^ 31 ->
  wc_l (wc reads) = newlines t /\ wc_w (wc reads) = word_starts true t /\ wc_c (wc reads) = Z.of_nat (length t).
Proof.
  intros t Ht. assert (wc reads = foldl wc_char (mkWc 0 0 0 false) t) as ->.
  { unfold wc, t. generalize (mkWc 0 0 0 false). clear. induction reads as [|c reads IH]; intros s; [done|].
    cbn. by rewrite foldl_app, IH. }
  destruct (wc_chars t 0 0 0 false) as [i ->]; try lia. done.
Qed.

(** ** Properties *)

(** C29: The matcher decides the expressions: [match] returns 1 exactly when the
    text is [pre ++ mid ++ post] where [mid] is one of the strings that the
    characters, dots and stars of the expression stand for, [pre] is empty if
    the expression starts with a caret and [post] if it ends in a dollar. *)
Theorem match_correct re text : match_re re text = true <-> occurs re text.
Proof. apply match_re_spec. Qed.

(** [grep] on a file prints exactly the matching lines.  For a file of
    lines of at most 1022 characters, however many reads of the 1023 free
    bytes of the buffer it takes, the output is the lines that match, in
    order, each with its newline; an incomplete last line is never printed. *)
Lemma grep_prints_matching pattern reads ls tail :
  Forall short_line ls -> short_line tail -> reads_full pattern [] reads (unlines ls ++ tail) ->
  grep pattern reads = unlines (matching pattern ls).
Proof. intros Hls Ht Hr. apply (grep_loop_full pattern reads [] (unlines ls ++ tail) ls tail); try done. split; [constructor | cbn; unfold bufsize; lia]. Qed.

(** [grep] loses lines when a read ends inside one and the buffer holds no
    newline yet: the bytes are dropped although the buffer has room.  With the
    line abc read as ab and c, as from a pipe or the console, nothing is
    printed for the expression abc. *)
Lemma grep_short_read_loses_line :
  reads_ok [97; 98; 99] [] [[97; 98]; [99; 10]] /\
  grep [97; 98; 99] [[97; 98]; [99; 10]] = [] /\ grep [97; 98; 99] [[97; 98; 99; 10]] = [97; 98; 99; 10].
Proof. split_and!; try (vm_compute; reflexivity); cbn; unfold bufsize; try lia; done. Qed.
