(* ===== verification/Console.v ===== *)
(** The console, [xv6/base/console.c], and formatted output,
    [xv6/base/printf.c].

    Output: [cprintf] and [printf] give the list of the characters they put;
    the words of the arguments are a function of their position, and [str] is
    the string at an address.  [cgaputc] works on the text screen, its 2000
    cells and the cursor register of the display.

    Input: [consoleintr] edits the line being typed in a ring buffer with
    32-bit indices, [consoleread] takes characters out of the lines that are
    complete.  Both hold [cons.lock], except while [consoleread] sleeps.  The
    device's inode, unlocked by [consoleread] and [consolewrite] and locked
    again on return, is not part of this state. *)

From S2P Require Import Prelude CString Pipe.

(** ** Formatted output *)

Definition digits_lower : list Z := [48; 49; 50; 51; 52; 53; 54; 55; 56; 57; 97; 98; 99; 100; 101; 102].
Definition digits_upper : list Z := [48; 49; 50; 51; 52; 53; 54; 55; 56; 57; 65; 66; 67; 68; 69; 70].

Section Print.
Context (digits : list Z).

(** The do loop: [buf], the last digit first. *)
Fixpoint digit_loop (fuel : nat) (x base : Z) : list Z :=
  match fuel with
  | O => []
  | S f =>
      let c := nth (Z.to_nat (x mod base)) digits 0 in
      if negb (x / base =? 0) then c :: digit_loop f (x / base) base else [c]
  end.

(** [printint(xx, base, sign)]: the characters put.  [buf] has 16 elements. *)
Definition printint (xx base : Z) (sign : bool) : list Z :=
  let neg := sign && (xx <? 0) in
  let x := if neg then u32 (- xx) else u32 xx in
  let buf := digit_loop 16 x base in
  let buf := if neg then buf ++ [45] else buf in
  rev buf.
End Print.

Section Format.
Context (ap : nat -> Z) (str : Z -> list Z).

Definition null_str : list Z := [40; 110; 117; 108; 108; 41].   (* (null) *)

(** [cprintf]: [i] arguments have been used. *)
Fixpoint cprintf_loop (fmt : list Z) (i : nat) : list Z :=
  match fmt with
  | [] => []
  | c :: fmt' =>
      if negb (c =? 37) then c :: cprintf_loop fmt' i
      else match fmt' with
      | [] => []
      | c :: fmt'' =>
          if c =? 100 then printint digits_lower (s32 (ap i)) 10 true ++ cprintf_loop fmt'' (S i)
          else if (c =? 120) || (c =? 112) then printint digits_lower (s32 (ap i)) 16 false ++ cprintf_loop fmt'' (S i)
          else if c =? 115 then
            (if ap i =? 0 then null_str else str (ap i)) ++ cprintf_loop fmt'' (S i)
          else if c =? 37 then 37 :: cprintf_loop fmt'' i
          else 37 :: c :: cprintf_loop fmt'' i
      end
  end.

Definition cprintf (fmt : list Z) : list Z := cprintf_loop fmt 0.

(** [printf]: [state] tells whether the last character was a percent sign. *)
Fixpoint printf_loop (fmt : list Z) (state : bool) (i : nat) : list Z :=
  match fmt with
  | [] => []
  | c :: fmt' =>
      if negb state then
        if c =? 37 then printf_loop fmt' true i else c :: printf_loop fmt' false i
      else if c =? 100 then printint digits_upper (s32 (ap i)) 10 true ++ printf_loop fmt' false (S i)
      else if (c =? 120) || (c =? 112) then printint digits_upper (s32 (ap i)) 16 false ++ printf_loop fmt' false (S i)
      else if c =? 115 then (if ap i =? 0 then null_str else str (ap i)) ++ printf_loop fmt' false (S i)
      else if c =? 99 then u8 (ap i) :: printf_loop fmt' false (S i)
      else if c =? 37 then c :: printf_loop fmt' false i
      else 37 :: c :: printf_loop fmt' false i
  end.

Definition printf (fmt : list Z) : list Z := printf_loop fmt false 0.
End Format.

(** ** The screen *)

Definition BACKSPACE : Z := 0x100.

Record screen := mkScreen { crt : list Z; cursor : Z }.

Definition cell (c : Z) : Z := Z.lor (Z.land c 0xff) 0x0700.

Definition cgaputc (c : Z) (s : screen) : result screen :=
  let pos := cursor s in
  let '(pos, t) :=
    if c =? 10 then (pos + (80 - pos mod 80), crt s)
    else if c =? BACKSPACE then (if 0 <? pos then pos - 1 else pos, crt s)
    else (pos + 1, <[Z.to_nat pos := cell c]> (crt s)) in
  if (pos <? 0) || (25 * 80 <? pos) then Panic "pos under/overflow"
  else
    let '(pos, t) :=
      if 24 <=? pos / 80 then
        (* memmove(crt, crt+80, 23*80 cells), then memset from the new pos *)
        let t := take (23 * 80) (drop 80 t) ++ drop (23 * 80) t in
        let pos := pos - 80 in
        (pos, take (Z.to_nat pos) t ++ replicate (Z.to_nat (24 * 80 - pos)) 0 ++ drop (24 * 80) t)
      else (pos, t) in
    Ok (mkScreen (<[Z.to_nat pos := Z.lor 32 0x0700]> t) pos).

(** The screen and the serial port ([None] when there is none: what was sent). *)
Record condev := mkCondev { scr : screen; uart : option (list Z) }.

Definition uartputc (c : Z) (d : condev) : condev :=
  match uart d with
  | None => d
  | Some out => mkCondev (scr d) (Some (out ++ [u8 c]))
  end.

Definition consputc (c : Z) (d : condev) : result condev :=
  let d := if c =? BACKSPACE then uartputc 8 (uartputc 32 (uartputc 8 d)) else uartputc c d in
  s ← cgaputc c (scr d);
  mret (mkCondev s (uart d)).

(** [consolewrite(ip, buf, n)] with the [n] bytes of [buf]. *)
Fixpoint consolewrite_loop (buf : list Z) (d : condev) : result condev :=
  match buf with
  | [] => Ok d
  | c :: buf' => d' ← consputc (Z.land c 0xff) d; consolewrite_loop buf' d'
  end.
Definition consolewrite (buf : list Z) (d : condev) : result (Z * condev) :=
  d' ← consolewrite_loop buf d;
  mret (Z.of_nat (length buf), d').

(** ** Input *)

Definition INPUT_BUF : Z := 128.

Record input := mkInput { in_buf : list Z; in_r : Z; in_w : Z; in_e : Z }.

Definition at_buf (s : input) (i : Z) : Z := nth (Z.to_nat (i mod INPUT_BUF)) (in_buf s) 0.
Definition set_e (e : Z) (s : input) : input := mkInput (in_buf s) (in_r s) (in_w s) e.

Definition ctl (x : Z) : Z := x - 64.

(** What the interrupt handler does besides: [consputc(c)], [wakeup(&input.r)]
    and [procdump()]. *)
Inductive cevent := Echo (c : Z) | WakeReaders | ProcDump.

(** The loop of "Kill line". *)
Fixpoint kill_loop (fuel : nat) (s : input) : input * list cevent :=
  match fuel with
  | O => (s, [])
  | S f =>
      if negb (in_e s =? in_w s) && negb (at_buf s (u32 (in_e s - 1)) =? 10)
      then let '(s', ev) := kill_loop f (set_e (u32 (in_e s - 1)) s) in (s', Echo BACKSPACE :: ev)
      else (s, [])
  end.

(** The body of the loop of [consoleintr] for one character [c]. *)
Definition console_char (c : Z) (s : input) : input * list cevent :=
  if c =? ctl 80 then (s, [])
  else if c =? ctl 85 then kill_loop (Z.to_nat INPUT_BUF) s
  else if (c =? ctl 72) || (c =? 127) then
    if negb (in_e s =? in_w s) then (set_e (u32 (in_e s - 1)) s, [Echo BACKSPACE]) else (s, [])
  else if negb (c =? 0) && (u32 (in_e s - in_r s) <? INPUT_BUF) then
    let c := if c =? 13 then 10 else c in
    let s := mkInput (<[Z.to_nat (in_e s mod INPUT_BUF) := u8 c]> (in_buf s)) (in_r s) (in_w s) (u32 (in_e s + 1)) in
    if (c =? 10) || (c =? ctl 68) || (in_e s =? u32 (in_r s + INPUT_BUF))
    then (mkInput (in_buf s) (in_r s) (in_e s) (in_e s), [Echo c; WakeReaders])
    else (s, [Echo c])
  else (s, []).

(** The loop of [consoleintr]; [cs] are the characters [getc] returns before
    its first negative result. *)
Fixpoint intr_loop (cs : list Z) (s : input) : input * list cevent :=
  match cs with
  | [] => (s, [])
  | c :: cs' =>
      let '(s1, ev) := console_char c s in
      let '(s2, ev') := intr_loop cs' s1 in (s2, ev ++ ev')
  end.

(** [consoleintr]: [procdump] is called after the lock is released. *)
Definition consoleintr (cs : list Z) (s : input) : input * list cevent :=
  let '(s', ev) := intr_loop cs s in
  (s', ev ++ if existsb (Z.eqb (ctl 80)) cs then [ProcDump] else []).

(** [consoleread] from one acquisition of the lock to the next: [n] more bytes
    of [target] are wanted.  It returns, or sleeps with [n] left. *)
Fixpoint consoleread_run (killed : bool) (n : nat) (target : Z) (s : input) : outcome nat * list Z * input :=
  match n with
  | O => (Done target, [], s)
  | S n' =>
      if in_r s =? in_w s then
        if killed then (Done (-1), [], s) else (Asleep n, [], s)
      else
        let c := at_buf s (in_r s) in
        let s1 := mkInput (in_buf s) (u32 (in_r s + 1)) (in_w s) (in_e s) in
        if c =? ctl 68 then
          (Done (target - Z.of_nat n), [],
           if Z.of_nat n <? target then mkInput (in_buf s) (u32 (in_r s1 - 1)) (in_w s) (in_e s) else s1)
        else if c =? 10 then (Done (target - Z.of_nat n'), [c], s1)
        else
          let '(r, l, s2) := consoleread_run killed n' target s1 in (r, c :: l, s2)
  end.

Definition consoleread (killed : bool) (n : nat) (s : input) : outcome nat * list Z * input :=
  consoleread_run killed n (Z.of_nat n) s.

(** ** Numbers *)

Definition is_digit (c : Z) : Prop := 48 <= c <= 57.
Definition dec (ds : list Z) : Z := foldl (fun n c => n * 10 + (c - 48)) 0 ds.

Lemma digit_char (digits : list Z) d :
  digits = digits_lower \/ digits = digits_upper -> 0 <= d < 10 -> nth (Z.to_nat d) digits 0 = 48 + d.
Proof.
  intros Hd H. assert (d = 0 \/ d = 1 \/ d = 2 \/ d = 3 \/ d = 4 \/ d = 5 \/ d = 6 \/ d = 7 \/ d = 8 \/ d = 9) as Hc by lia.
  destruct Hd as [->| ->]; repeat (destruct Hc as [->|Hc]; [done|]); by subst.
Qed.

(** The digits of [x], least significant first. *)
Lemma digit_loop_dec digits fuel x k :
  digits = digits_lower \/ digits = digits_upper -> 0 <= x < 10 ^ Z.of_nat k -> (0 < k <= fuel)%nat ->
  let ds := rev (digit_loop digits fuel x 10) in
  Forall is_digit ds /\ dec ds = x /\ (0 < length ds <= k)%nat /\ (ds = [48] \/ hd 0 ds <> 48).
Proof.
  intros Hd. revert x k. induction fuel as [|f IH]; intros x k Hx Hk; [lia|]. cbn [digit_loop].
  assert (0 <= x mod 10 < 10) as Hm by zlia. rewrite (digit_char _ _ Hd Hm).
  destruct (Z.eqb_spec (x / 10) 0) as [E|E]; cbn [negb].
  - cbn [rev app length hd]. assert (x mod 10 = x) as Ex by zlia. rewrite Ex. split; [|split; [|split]].
    + repeat constructor; unfold is_digit; lia.
    + unfold dec. cbn [foldl]. lia.
    + lia.
    + destruct (decide (x = 0)) as [->|]; [by left | right; lia].
  - destruct k as [|[|k]]; [lia | cbn in Hx; zlia |].
    assert (0 <= x / 10 < 10 ^ Z.of_nat (S k)) as Hx'.
    { rewrite (Nat2Z.inj_succ (S k)), Z.pow_succ_r in Hx by lia. zlia. }
    destruct (IH (x / 10) (S k) Hx' ltac:(lia)) as (H1 & H2 & H3 & H4). cbn [rev].
    set (ds := rev (digit_loop digits f (x / 10) 10)) in *. split_and!.
    + apply Forall_app. split; [done|]. repeat constructor; unfold is_digit; lia.
    + unfold dec in *. rewrite foldl_app, H2. cbn. zlia.
    + rewrite length_app. cbn. lia.
    + rewrite length_app. cbn. lia.
    + right. destruct ds as [|c ds]; [cbn in H3; lia|]. cbn. destruct H4 as [[= -> ->]|H4]; [|done].
      exfalso. unfold dec in H2. cbn in H2. lia.
Qed.

(** The bytes [l] are in memory from address [s]. *)
Definition stored (m : mem) (s : Z) (l : list Z) : Prop := forall i c, l !! i = Some c -> m (s + Z.of_nat i) = c.

Lemma stored_cons m s c l : stored m s (c :: l) -> m s = c /\ stored m (s + 1) l.
Proof.
  intros H. split; [rewrite <-(Z.add_0_r s); by apply (H 0%nat)|].
  intros i d Hi. rewrite <-(H (S i) d Hi). f_equal. lia.
Qed.

Lemma atoi_dec m s ds n fuel :
  stored m s (ds ++ [0]) -> (length ds < fuel)%nat ->
  Forall is_digit ds -> 0 <= n -> foldl (fun n c => n * 10 + (c - 48)) n ds < 2 ^ 31 ->
  Ulib.atoi_loop fuel m s n = Some (foldl (fun n c => n * 10 + (c - 48)) n ds).
Proof.
  intros Hm Hf Hd. revert m s n fuel Hm Hf. induction Hd as [|c ds Hc Hds IH]; intros m s n fuel Hm Hf Hn Hb;
    (destruct fuel as [|f]; [cbn in Hf; lia|]); apply stored_cons in Hm as [Hc0 Hm]; cbn [Ulib.atoi_loop]; rewrite Hc0; [done|].
  cbn in Hf, Hb |- *. unfold is_digit in Hc. replace (s8 c) with c by (unfold s8; zlia).
  rewrite (proj2 (Z.leb_le _ _)), (proj2 (Z.leb_le _ _)) by lia. cbn [andb].
  assert (n * 10 + (c - 48) <= foldl (fun n c => n * 10 + (c - 48)) (n * 10 + (c - 48)) ds) as Hmono.
  { assert (forall m, 0 <= m -> m <= foldl (fun n c => n * 10 + (c - 48)) m ds) as H; [|apply H; lia]. clear -Hds.
    induction Hds as [|d ds Hd Hds IH]; intros m Hm; cbn; [lia|]. unfold is_digit in Hd. specialize (IH (m * 10 + (d - 48))). lia. }
  rewrite s32_small by lia. replace (n * 10 + c - 48) with (n * 10 + (c - 48)) by lia. apply IH; [done | lia | lia | done].
Qed.

(** Printing a number and reading it back.  For every 32-bit integer,
    including the most negative one, [printint] in base ten (of the kernel and
    of the C library) puts a minus sign exactly for negative numbers, then the
    decimal digits of the absolute value without leading zeros, at most ten of
    them, which fit in its buffer of 16; and [atoi] of what it puts for a
    number that is not negative, stored as a string, is that number. *)
Lemma printint_atoi_roundtrip digits xx :
  digits = digits_lower \/ digits = digits_upper -> - 2 ^ 31 <= xx < 2 ^ 31 ->
  exists ds, printint digits xx 10 true = (if xx <? 0 then [45] else []) ++ ds /\
    Forall is_digit ds /\ dec ds = Z.abs xx /\ (0 < length ds <= 10)%nat /\ (ds = [48] \/ hd 0 ds <> 48) /\
    (forall m s fuel, 0 <= xx -> stored m s (printint digits xx 10 true ++ [0]) -> (10 < fuel)%nat -> Ulib.atoi fuel m s = Some xx).
Proof.
  intros Hd Hx. set (ds := rev (digit_loop digits 16 (Z.abs xx) 10)).
  destruct (digit_loop_dec digits 16 (Z.abs xx) 10 Hd ltac:(cbn; lia) ltac:(lia)) as (H1 & H2 & H3 & H4). fold ds in H1, H2, H3, H4.
  assert (printint digits xx 10 true = (if xx <? 0 then [45] else []) ++ ds) as E.
  { unfold printint. cbn [andb]. destruct (Z.ltb_spec xx 0).
    - rewrite u32_small, rev_app_distr by lia. unfold ds. by replace (Z.abs xx) with (- xx) by lia.
    - rewrite u32_small by lia. unfold ds. by replace (Z.abs xx) with xx by lia. }
  exists ds. split_and!; try done; try lia. intros m s fuel H0 Hm Hf. rewrite E in Hm. destruct (Z.ltb_spec xx 0); [lia|]. cbn [app] in Hm.
  unfold Ulib.atoi. rewrite (atoi_dec m s ds); try done; fold (dec ds); try lia. f_equal. lia.
Qed.

(** ** The screen *)

Record screen_ok (s : screen) : Prop := {
  so_len : length (crt s) = 2000%nat;      (* 25 rows of 80 *)
  so_pos : 0 <= cursor s < 24 * 80
}.

(** What one character does to the screen: it goes to the cell of the cursor;
    when the 24 rows are full, every row but the last takes the contents of
    the row below, the last one is cleared and the cursor is at its start. *)
Definition screen_after (c : Z) (s s' : screen) : Prop :=
  let put := if (c =? 10) || (c =? BACKSPACE) then crt s else <[Z.to_nat (cursor s) := cell c]> (crt s) in
  let pos := if c =? 10 then cursor s / 80 * 80 + 80 else if c =? BACKSPACE then Z.max 0 (cursor s - 1) else cursor s + 1 in
  if pos <? 24 * 80 then crt s' = <[Z.to_nat pos := 0x720]> put /\ cursor s' = pos
  else cursor s' = 23 * 80 /\
       (forall i, (i < 23 * 80)%nat -> crt s' !! i = put !! (i + 80)%nat) /\
       (forall i, (23 * 80 <= i < 24 * 80)%nat -> crt s' !! i = Some (if decide (i = 23 * 80)%nat then 0x720 else 0)).

Lemma cgaputc_spec c s :
  screen_ok s -> exists s', cgaputc c s = Ok s' /\ screen_ok s' /\ screen_after c s s'.
Proof.
  intros [Hl Hp]. unfold screen_after. set (put := if (c =? 10) || (c =? BACKSPACE) then crt s else _).
  set (pos := if c =? 10 then _ else _).
  assert (length put = 2000%nat) as Hlp by (unfold put; destruct (_ || _); rewrite ?length_insert; done).
  assert (0 <= pos <= 24 * 80) as Hpos by (unfold pos; repeat case_match; zlia).
  assert (cgaputc c s = let '(q, t) := if 24 <=? pos / 80 then
      (pos - 80, take (Z.to_nat (pos - 80)) (take (23 * 80) (drop 80 put) ++ drop (23 * 80) put) ++
         replicate (Z.to_nat (24 * 80 - (pos - 80))) 0 ++ drop (24 * 80) (take (23 * 80) (drop 80 put) ++ drop (23 * 80) put))
      else (pos, put) in Ok (mkScreen (<[Z.to_nat q := Z.lor 32 0x0700]> t) q)) as ->.
  { unfold cgaputc, pos, put. destruct (Z.eqb_spec c 10) as [->|Hc]; cbn [orb].
    - replace (cursor s + (80 - cursor s mod 80)) with (cursor s / 80 * 80 + 80) by zlia.
      rewrite (proj2 (Z.ltb_ge _ 0)), (proj2 (Z.ltb_ge _ (_ + 80))) by zlia. cbn [orb]. by destruct (24 <=? _).
    - destruct (Z.eqb_spec c BACKSPACE) as [->|Hb]; cbn [orb].
      + replace (if 0 <? cursor s then cursor s - 1 else cursor s) with (Z.max 0 (cursor s - 1)) by (destruct (Z.ltb_spec 0 (cursor s)); lia).
        rewrite (proj2 (Z.ltb_ge _ 0)), (proj2 (Z.ltb_ge _ (Z.max _ _))) by lia. cbn [orb]. by destruct (24 <=? _).
      + rewrite (proj2 (Z.ltb_ge _ 0)), (proj2 (Z.ltb_ge _ (cursor s + 1))) by lia. cbn [orb]. by destruct (24 <=? _). }
  change (Z.lor 32 0x0700) with 0x720. cbv zeta. destruct (Z.ltb_spec pos (24 * 80)) as [Hlt|Hge].
  - rewrite (proj2 (Z.leb_gt 24 (pos / 80))) by zlia. eexists. split; [reflexivity|]. split; [|done].
    constructor; cbn; [by rewrite length_insert | lia].
  - assert (pos = 24 * 80) as -> by lia. cbn [Z.leb Z.div Z.mul Z.sub]. change (24 <=? 24 * 80 / 80) with true. cbv iota.
    change (24 * 80 - 80) with 1840. change (24 * 80 - 1840) with 80. change (23 * 80)%nat with 1840%nat. change (24 * 80)%nat with 1920%nat.
    rewrite (take_app_length' (take 1840 (drop 80 put))) by (rewrite length_take, length_drop; lia).
    set (t := _ ++ replicate _ _ ++ _). eexists. split; [reflexivity|].
    assert (length (take 1840 (drop 80 put)) = 1840%nat) as Hl1 by (rewrite length_take, length_drop; lia).
    assert (length t = 2000%nat) as Hlt.
    { unfold t. rewrite !length_app, Hl1, length_replicate, length_drop, length_app, Hl1, length_drop. lia. }
    split; [constructor; cbn [crt cursor]; [by rewrite length_insert | lia]|]. cbn [crt cursor]. split; [done|]. split.
    + intros i Hi. rewrite list_lookup_insert_ne by lia. unfold t. rewrite lookup_app_l by lia.
      rewrite lookup_take_lt, lookup_drop by lia. f_equal. lia.
    + intros i Hi. case_decide as Hd.
      * subst i. apply list_lookup_insert_eq. rewrite Hlt. lia.
      * rewrite list_lookup_insert_ne by lia. unfold t. rewrite lookup_app_r, lookup_app_l by (rewrite ?length_replicate, ?Hl1; lia).
        apply lookup_replicate_2. lia.
Qed.

(** The characters [cs] one after the other. *)
Inductive shows : list Z -> screen -> screen -> Prop :=
| shows_nil s : shows [] s s
| shows_cons c cs s s1 s2 : screen_after c s s1 -> shows cs s1 s2 -> shows (c :: cs) s s2.

Lemma consputc_byte c d :
  screen_ok (scr d) -> is_byte c ->
  exists d', consputc c d = Ok d' /\ screen_ok (scr d') /\ screen_after c (scr d) (scr d') /\ uart d' = (fun o => o ++ [c]) <$> uart d.
Proof.
  intros Hs Hc. destruct (cgaputc_spec c (scr d) Hs) as (s' & E & H1 & H2).
  exists (mkCondev s' ((fun o => o ++ [c]) <$> uart d)). split; [|done].
  unfold consputc. rewrite (proj2 (Z.eqb_neq c BACKSPACE)) by (unfold BACKSPACE, is_byte in *; lia).
  assert (scr (uartputc c d) = scr d /\ uart (uartputc c d) = (fun o => o ++ [c]) <$> uart d) as [-> ->].
  { unfold uartputc. destruct (uart d) as [out|] eqn:Eu; cbn; rewrite ?Eu, ?(u8_small c Hc); done. }
  by rewrite E.
Qed.

(** Output stays on the screen.  From any position on the first 24 rows
    [consolewrite] of any bytes does not panic, returns their number, writes
    only cells of the screen and leaves the cursor on these rows: each byte
    goes to the cell of the cursor, a full screen is scrolled by one row, and
    every byte goes to the serial port too, in order. *)
Lemma consolewrite_on_screen buf d :
  screen_ok (scr d) -> Forall is_byte buf ->
  exists d', consolewrite buf d = Ok (Z.of_nat (length buf), d') /\ screen_ok (scr d') /\ shows buf (scr d) (scr d') /\
    uart d' = (fun o => o ++ buf) <$> uart d.
Proof.
  intros Hs Hb. assert (exists d', consolewrite_loop buf d = Ok d' /\ screen_ok (scr d') /\ shows buf (scr d) (scr d') /\
    uart d' = (fun o => o ++ buf) <$> uart d) as (d' & E & H).
  { revert d Hs. induction Hb as [|c buf Hc Hb IH]; intros d Hs; cbn [consolewrite_loop].
    - exists d. split; [done|]. split; [done|]. split; [constructor|]. destruct (uart d); cbn; by rewrite ?app_nil_r.
    - replace (Z.land c 0xff) with c by (change 0xff with (Z.ones 8); rewrite Z.land_ones by lia; symmetry; by apply Z.mod_small).
      destruct (consputc_byte c d Hs Hc) as (d1 & E1 & H1 & H2 & H3). destruct (IH d1 H1) as (d2 & E2 & K1 & K2 & K3).
      exists d2. rewrite E1. split; [exact E2|]. split; [done|]. split; [by econstructor|]. rewrite K3, H3.
      destruct (uart d); cbn; [by rewrite <-app_assoc | done]. }
  exists d'. unfold consolewrite. by rewrite E.
Qed.

(** ** The line discipline

    The abstract console: the characters of complete lines that nobody has
    read yet, and the line being typed. *)

(** One character typed. *)
Definition type_char (c : Z) (st : list Z * list Z) : list Z * list Z * list cevent :=
  let '(q, ed) := st in
  if c =? 16 then (q, ed, [])                                                   (* ^P *)
  else if c =? 21 then (q, [], replicate (length ed) (Echo BACKSPACE))          (* ^U *)
  else if (c =? 8) || (c =? 127) then                                           (* backspace *)
    (q, take (length ed - 1) ed, replicate (Nat.min 1 (length ed)) (Echo BACKSPACE))
  else if negb (c =? 0) && (length q + length ed <? 128)%nat then
    let c := if c =? 13 then 10 else c in
    let ed := ed ++ [c] in
    if (c =? 10) || (c =? 4) || (length q + length ed =? 128)%nat then (q ++ ed, [], [Echo c; WakeReaders])
    else (q, ed, [Echo c])
  else (q, ed, []).

Fixpoint type_chars (cs : list Z) (st : list Z * list Z) : list Z * list Z * list cevent :=
  match cs with
  | [] => (st, [])
  | c :: cs' => let '(st1, ev) := type_char c st in let '(st2, ev') := type_chars cs' st1 in (st2, ev ++ ev')
  end.

(** [read] of [n] more bytes of [target]: up to the end of a line, or an end
    of file that is left for the next call unless nothing was read. *)
Fixpoint read_line (killed : bool) (n : nat) (target : Z) (q : list Z) : outcome nat * list Z * list Z :=
  match n, q with
  | O, _ => (Done target, [], q)
  | S _, [] => if killed then (Done (-1), [], q) else (Asleep n, [], q)
  | S n', c :: q' =>
      if c =? 4 then (Done (target - Z.of_nat n), [], if Z.of_nat n <? target then q else q')
      else if c =? 10 then (Done (target - Z.of_nat n'), [c], q')
      else let '(r, l, q2) := read_line killed n' target q' in (r, c :: l, q2)
  end.

(** What is in the buffer from index [a] to index [b]. *)
Definition region (s : input) (a b : Z) : list Z := map (fun i => at_buf s (a + i)) (seqZ 0 (u32 (b - a))).

Record input_ok (s : input) : Prop := {
  io_len : length (in_buf s) = 128%nat;
  io_r : 0 <= in_r s < 2 ^ 32;
  io_w : 0 <= in_w s < 2 ^ 32;
  io_e : 0 <= in_e s < 2 ^ 32;
  io_order : u32 (in_w s - in_r s) + u32 (in_e s - in_w s) <= 128;
  io_line : Forall (fun c => c <> 10) (region s (in_w s) (in_e s))
}.

Definition console_of (s : input) : list Z * list Z := (region s (in_r s) (in_w s), region s (in_w s) (in_e s)).

Lemma at_buf_mod s i j : i mod 128 = j mod 128 -> at_buf s i = at_buf s j.
Proof. unfold at_buf, INPUT_BUF. by intros ->. Qed.

Lemma region_length s a b : Z.of_nat (length (region s a b)) = u32 (b - a).
Proof. unfold region. rewrite length_map, length_seqZ. pose proof (u32_range (b - a)). lia. Qed.

Lemma region_lookup s a b i : (Z.of_nat i < u32 (b - a)) -> region s a b !! i = Some (at_buf s (a + Z.of_nat i)).
Proof. intros H. unfold region. rewrite list_lookup_fmap, lookup_seqZ_lt by lia. done. Qed.

Lemma region_ext s s' a b a' b' :
  u32 (b' - a') = u32 (b - a) -> (forall i, 0 <= i < u32 (b - a) -> at_buf s' (a' + i) = at_buf s (a + i)) ->
  region s' a' b' = region s a b.
Proof.
  intros E H. unfold region. rewrite E. apply map_ext_in. intros i Hi. apply list_elem_of_In, elem_of_seqZ in Hi. apply H. lia.
Qed.

Lemma region_app s a b c :
  0 <= a < 2 ^ 32 -> 0 <= b < 2 ^ 32 -> u32 (c - a) = u32 (b - a) + u32 (c - b) -> region s a c = region s a b ++ region s b c.
Proof.
  intros Ha Hb E. apply list_eq. intros i. pose proof (region_length s a b) as L1. pose proof (region_length s b c) as L2. pose proof (region_length s a c) as L3.
  destruct (decide (Z.of_nat i < u32 (b - a))).
  - rewrite lookup_app_l by lia. rewrite !region_lookup by (pose proof (u32_range (c - b)); lia). done.
  - rewrite lookup_app_r by lia. destruct (decide (Z.of_nat i < u32 (c - a))).
    + rewrite !region_lookup by lia. f_equal. apply at_buf_mod.
      replace (b + Z.of_nat (i - length (region s a b))) with (b + (Z.of_nat i - u32 (b - a))) by lia. unfold u32. zlia.
    + rewrite !lookup_ge_None_2 by lia. done.
Qed.

Lemma region_one s a : 0 <= a < 2 ^ 32 -> region s a (u32 (a + 1)) = [at_buf s a].
Proof. intros Ha. unfold region. replace (u32 (u32 (a + 1) - a)) with 1 by (unfold u32; zlia). change (seqZ 0 1) with [0]. cbn [map]. by rewrite Z.add_0_r. Qed.

Lemma region_nil s a : region s a a = [].
Proof. unfold region. by rewrite Z.sub_diag. Qed.

(** The first and the last character of a region. *)
Lemma region_cons s a b : 0 <= a < 2 ^ 32 -> a <> b -> 0 <= b < 2 ^ 32 -> region s a b = at_buf s a :: region s (u32 (a + 1)) b.
Proof.
  intros Ha Hne Hb. rewrite (region_app s a (u32 (a + 1)) b); [by rewrite region_one | done | apply u32_range | unfold u32; zlia].
Qed.

Lemma region_snoc s a b : 0 <= a < 2 ^ 32 -> 0 <= b < 2 ^ 32 -> a <> b -> region s a b = region s a (u32 (b - 1)) ++ [at_buf s (u32 (b - 1))].
Proof.
  intros Ha Hb Hne. rewrite (region_app s a (u32 (b - 1)) b); [|done | apply u32_range | unfold u32; zlia].
  f_equal. rewrite <-(region_one s (u32 (b - 1)) ltac:(apply u32_range)). f_equal. unfold u32. zlia.
Qed.

(** *** Editing *)

Lemma edit_back s :
  input_ok s -> in_e s <> in_w s -> input_ok (set_e (u32 (in_e s - 1)) s) /\
    region s (in_w s) (in_e s) = region s (in_w s) (u32 (in_e s - 1)) ++ [at_buf s (u32 (in_e s - 1))].
Proof.
  intros [H1 H2 H3 H4 H5 H6] E. pose proof (region_snoc s (in_w s) (in_e s) H3 H4 (not_eq_sym E)) as Es. split; [|done].
  rewrite Es in H6. apply Forall_app in H6 as [H6 _].
  constructor; cbn; try done; [apply u32_range | unfold u32 in *; zlia].
Qed.

Lemma set_e_self s : in_e s = in_w s -> set_e (in_w s) s = s.
Proof. intros E. unfold set_e. rewrite <-E at 2. by destruct s. Qed.

Lemma kill_loop_spec fuel s :
  input_ok s -> (length (region s (in_w s) (in_e s)) <= fuel)%nat ->
  kill_loop fuel s = (set_e (in_w s) s, replicate (length (region s (in_w s) (in_e s))) (Echo BACKSPACE)).
Proof.
  revert s. induction fuel as [|f IH]; intros s Hok Hf; cbn [kill_loop].
  - pose proof (region_length s (in_w s) (in_e s)) as Hl. destruct Hok as [H1 H2 H3 H4 H5 H6].
    assert (in_e s = in_w s) as E by (unfold u32 in Hl; zlia). by rewrite (set_e_self s E), E, region_nil.
  - destruct (Z.eqb_spec (in_e s) (in_w s)) as [E|E]; cbn [negb andb].
    { by rewrite (set_e_self s E), E, region_nil. }
    destruct (edit_back s Hok E) as [Hok' Es]. pose proof (io_line _ Hok) as H6. rewrite Es in H6.
    apply Forall_app in H6 as [_ H7]. apply Forall_cons in H7 as [H7 _]. cbn beta in H7. rewrite (proj2 (Z.eqb_neq _ _) H7). cbn [negb].
    rewrite Es, length_app, Nat.add_comm in Hf |- *. cbn in Hf |- *. rewrite (IH _ Hok') by (cbn [set_e in_w in_e]; change (region (set_e _ s)) with (region s); lia).
    done.
Qed.

(** A character stored at the edit index leaves what is before it alone. *)
Lemma put_region s c a b x :
  input_ok s -> u32 (b - a) + u32 (in_e s - b) <= 127 -> 0 <= a < 2 ^ 32 -> 0 <= b < 2 ^ 32 ->
  region (mkInput (<[Z.to_nat (in_e s mod INPUT_BUF) := c]> (in_buf s)) (in_r s) x (u32 (in_e s + 1))) a b = region s a b.
Proof.
  intros [H1 H2 H3 H4 H5 H6] Hd Ha Hb. apply region_ext; [done|]. intros i Hi. unfold at_buf, INPUT_BUF. cbn [in_buf].
  rewrite !nth_lookup, list_lookup_insert_ne; [done|]. unfold u32 in *. zlia.
Qed.

(** The buffer with the character [c] typed. *)
Definition typed (s : input) (c : Z) : input :=
  mkInput (<[Z.to_nat (in_e s mod INPUT_BUF) := u8 c]> (in_buf s)) (in_r s) (in_w s) (u32 (in_e s + 1)).

Lemma typed_regions s c :
  input_ok s -> u32 (in_e s - in_r s) < 128 -> 0 <= c < 256 ->
  u32 (in_w s - in_r s) + u32 (u32 (in_e s + 1) - in_w s) <= 128 /\
  u32 (u32 (in_e s + 1) - in_r s) = u32 (in_w s - in_r s) + u32 (u32 (in_e s + 1) - in_w s) /\
  region (typed s c) (in_r s) (in_w s) = region s (in_r s) (in_w s) /\
  region (typed s c) (in_w s) (u32 (in_e s + 1)) = region s (in_w s) (in_e s) ++ [c].
Proof.
  intros Hok Hroom Hc. pose proof Hok as [H1 H2 H3 H4 H5 H6].
  assert (u32 (in_e s - in_r s) = u32 (in_w s - in_r s) + u32 (in_e s - in_w s)) as Hsum by (unfold u32 in *; zlia).
  split; [unfold u32 in *; zlia|]. split; [unfold u32 in *; zlia|].
  split; [apply put_region; try done; unfold u32 in *; zlia|].
  assert (u32 (u32 (in_e s + 1) - 1) = in_e s) as Eb by (unfold u32; zlia).
  rewrite region_snoc, Eb; [|done | apply u32_range | unfold u32 in *; zlia]. f_equal.
  - apply put_region; try done. rewrite Z.sub_diag. unfold u32 in *. zlia.
  - f_equal. unfold at_buf, typed. cbn [in_buf]. rewrite nth_lookup, list_lookup_insert_eq; [by apply u8_small|].
    rewrite H1. unfold INPUT_BUF. zlia.
Qed.

Lemma region_set_e s e a b : region (set_e e s) a b = region s a b.
Proof. done. Qed.

(** One character: the buffer does what the abstract console does. *)
Lemma console_char_refines c s :
  input_ok s -> 0 <= c < 256 ->
  let '(s', ev) := console_char c s in
  input_ok s' /\ (console_of s', ev) = type_char c (console_of s).
Proof.
  intros Hok Hc. pose proof Hok as [H1 H2 H3 H4 H5 H6]. unfold console_char, type_char, console_of.
  pose proof (region_length s (in_r s) (in_w s)) as L1. pose proof (region_length s (in_w s) (in_e s)) as L2.
  set (q := region s (in_r s) (in_w s)) in *. set (ed := region s (in_w s) (in_e s)) in *.
  change (ctl 80) with 16. change (ctl 85) with 21. change (ctl 72) with 8. change (ctl 68) with 4.
  destruct (c =? 16) eqn:Ep; [done|]. destruct (c =? 21) eqn:Eu.
  { rewrite (kill_loop_spec _ s Hok) by (fold ed; change (Z.to_nat INPUT_BUF) with 128%nat; pose proof (u32_range (in_w s - in_r s)); lia). fold ed. cbn [set_e in_r in_w in_e]. split.
    - constructor; cbn; try done; [rewrite Z.sub_diag; change (u32 0) with 0; pose proof (u32_range (in_e s - in_w s)); lia|].
      rewrite region_set_e, region_nil. constructor.
    - rewrite !region_set_e, region_nil. done. }
  destruct ((c =? 8) || (c =? 127)) eqn:Eh.
  { destruct (Z.eqb_spec (in_e s) (in_w s)) as [E|E]; cbn [negb].
    - split; [done|]. assert (ed = []) as Hed by (unfold ed; rewrite E; apply region_nil). fold ed. by rewrite Hed.
    - destruct (edit_back s Hok E) as [Hok' Es]. split; [done|]. cbn [set_e in_r in_w in_e]. rewrite !region_set_e. fold q.
      fold ed in Es. rewrite Es, length_app. cbn [length]. rewrite Nat.add_sub, take_app_length.
      by replace (Nat.min 1 _) with 1%nat by lia. }
  assert (u32 (in_e s - in_r s) = u32 (in_w s - in_r s) + u32 (in_e s - in_w s)) as Hsum by (unfold u32 in *; zlia).
  replace (u32 (in_e s - in_r s) <? INPUT_BUF) with (length q + length ed <? 128)%nat
    by (apply Bool.eq_iff_eq_true; rewrite Nat.ltb_lt, Z.ltb_lt; unfold INPUT_BUF; lia).
  destruct (negb (c =? 0) && _) eqn:Er; [|by fold ed]. apply andb_prop in Er as [_ Er%Nat.ltb_lt].
  set (c1 := if c =? 13 then 10 else c). assert (0 <= c1 < 256) as Hc1 by (unfold c1; case_match; lia).
  destruct (typed_regions s c1 Hok ltac:(lia) Hc1) as (T1 & T2 & T3 & T4). fold q in T3. fold ed in T4. fold (typed s c1).
  pose proof (region_length (typed s c1) (in_w s) (u32 (in_e s + 1))) as L3. rewrite T4 in L3. 
  replace (in_e (typed s c1) =? u32 (in_r (typed s c1) + INPUT_BUF)) with (length q + length (ed ++ [c1]) =? 128)%nat
    by (apply Bool.eq_iff_eq_true; rewrite Nat.eqb_eq, Z.eqb_eq; cbn [typed in_e in_r]; unfold INPUT_BUF, u32 in *; zlia).
  destruct (_ || _ || _) eqn:Ew.
  - split.
    + constructor; cbn [in_buf in_r in_w in_e typed]; try apply u32_range; try done.
      * by rewrite length_insert.
      * rewrite Z.sub_diag. change (u32 0) with 0. lia.
      * rewrite region_nil. constructor.
    + cbn [in_buf in_r in_w in_e typed]. rewrite region_nil. do 3 f_equal.
      rewrite (region_app _ (in_r s) (in_w s)) by (done || lia).
      change (region (mkInput _ _ _ _)) with (region (typed s c1)). by rewrite T3, T4.
  - apply orb_false_iff in Ew as [[Ew _]%orb_false_iff _]. split.
    + constructor; cbn [in_buf in_r in_w in_e typed]; try apply u32_range; try done.
      * by rewrite length_insert.
      * rewrite T4. apply Forall_app. split; [done|]. constructor; [lia | constructor].
    + cbn [in_r in_w in_e typed]. by rewrite T3, T4.
Qed.

Lemma intr_loop_refines cs s :
  input_ok s -> Forall (fun c => 0 <= c < 256) cs ->
  let '(s', ev) := intr_loop cs s in
  input_ok s' /\ (console_of s', ev) = type_chars cs (console_of s).
Proof.
  intros Hok Hcs. revert s Hok. induction Hcs as [|c cs Hc Hcs IH]; intros s Hok; [done|]. cbn [intr_loop type_chars].
  pose proof (console_char_refines c s Hok Hc) as H1. destruct (console_char c s) as [s1 ev]. destruct H1 as [Hok1 <-].
  specialize (IH s1 Hok1). destruct (intr_loop cs s1) as [s2 ev']. destruct IH as [Hok2 <-]. done.
Qed.

(** *** Reading *)

Lemma input_ok_read s : input_ok s -> in_r s <> in_w s -> input_ok (mkInput (in_buf s) (u32 (in_r s + 1)) (in_w s) (in_e s)).
Proof. intros [H1 H2 H3 H4 H5 H6] E. constructor; cbn; try done; [apply u32_range | unfold u32 in *; zlia]. Qed.

Lemma consoleread_run_refines killed n target s :
  input_ok s ->
  let '(r, l, s') := consoleread_run killed n target s in
  input_ok s' /\ in_buf s' = in_buf s /\ in_w s' = in_w s /\ in_e s' = in_e s /\
  read_line killed n target (region s (in_r s) (in_w s)) = (r, l, region s' (in_r s') (in_w s')).
Proof.
  revert s. induction n as [|n IH]; intros s Hok; cbn [consoleread_run]; [by destruct (region s _ _)|].
  destruct (Z.eqb_spec (in_r s) (in_w s)) as [E|E].
  { rewrite E, region_nil. destruct killed; cbn [read_line]; by rewrite E, region_nil. }
  pose proof (input_ok_read s Hok E) as Hok1. set (s1 := mkInput _ _ _ _) in *.
  assert (region s (in_r s) (in_w s) = at_buf s (in_r s) :: region s1 (in_r s1) (in_w s1)) as Ec
    by exact (region_cons s _ _ (io_r _ Hok) E (io_w _ Hok)).
  rewrite Ec.
  cbn [read_line]. change (ctl 68) with 4. destruct (_ =? 4) eqn:E4.
  - destruct (_ <? target); [|done]. cbn [in_buf in_r in_w in_e s1]. replace (u32 (u32 (in_r s + 1) - 1)) with (in_r s)
      by (destruct Hok; unfold u32; zlia).
    replace (mkInput _ _ _ _) with s by (by destruct s). repeat (split; [done|]). by rewrite Ec.
  - destruct (_ =? 10) eqn:E10; [done|]. specialize (IH s1 Hok1).
    destruct (consoleread_run killed n target s1) as [[r l] s2]. destruct IH as (K1 & K2 & K3 & K4 & K5). rewrite K5. done.
Qed.

(** *** Executions: interrupts and runs of readers in any order *)

Inductive cop :=
| Interrupt (cs : list Z)                                  (* consoleintr *)
| ReadRun (killed : bool) (n : nat) (target : Z).          (* consoleread, started or resumed *)

Definition cout : Type := list cevent + outcome nat * list Z.

Definition cons_step (o : cop) (s : input) : input * cout :=
  match o with
  | Interrupt cs => let '(s', ev) := consoleintr cs s in (s', inl ev)
  | ReadRun killed n target => let '(r, l, s') := consoleread_run killed n target s in (s', inr (r, l))
  end.

Fixpoint cons_run (ops : list cop) (s : input) : input * list cout :=
  match ops with
  | [] => (s, [])
  | o :: ops' => let '(s1, x) := cons_step o s in let '(s2, xs) := cons_run ops' s1 in (s2, x :: xs)
  end.

Definition abs_step (o : cop) (st : list Z * list Z) : list Z * list Z * cout :=
  match o with
  | Interrupt cs => let '(st', ev) := type_chars cs st in (st', inl (ev ++ if existsb (Z.eqb 16) cs then [ProcDump] else []))
  | ReadRun killed n target => let '(r, l, q') := read_line killed n target st.1 in ((q', st.2), inr (r, l))
  end.

Fixpoint abs_run (ops : list cop) (st : list Z * list Z) : list Z * list Z * list cout :=
  match ops with
  | [] => (st, [])
  | o :: ops' => let '(st1, x) := abs_step o st in let '(st2, xs) := abs_run ops' st1 in (st2, x :: xs)
  end.

Definition op_ok (o : cop) : Prop :=
  match o with Interrupt cs => Forall (fun c => 0 <= c < 256) cs | ReadRun _ _ _ => True end.

Lemma cons_step_refines o s :
  input_ok s -> op_ok o -> let '(s', x) := cons_step o s in input_ok s' /\ abs_step o (console_of s) = (console_of s', x).
Proof.
  intros Hok Ho. destruct o as [cs|killed n target]; cbn [cons_step abs_step].
  - unfold consoleintr. pose proof (intr_loop_refines cs s Hok Ho) as H. destruct (intr_loop cs s) as [s' ev].
    destruct H as [H1 <-]. done.
  - pose proof (consoleread_run_refines killed n target s Hok) as H. destruct (consoleread_run killed n target s) as [[r l] s'].
    destruct H as (H1 & H2 & H3 & H4 & H5). split; [done|]. unfold console_of. cbn [fst snd]. rewrite H5, H3, H4.
    unfold region, at_buf. by rewrite H2.
Qed.

(** The ring buffer refines the two queues. *)
Lemma cons_run_refines ops s :
  input_ok s -> Forall op_ok ops ->
  let '(s', outs) := cons_run ops s in
  input_ok s' /\ abs_run ops (console_of s) = (console_of s', outs).
Proof.
  intros Hok Hops. revert s Hok. induction Hops as [|o ops Ho Hops IH]; intros s Hok; [done|]. cbn [cons_run abs_run].
  pose proof (cons_step_refines o s Hok Ho) as H1. destruct (cons_step o s) as [s1 x]. destruct H1 as [Hok1 ->].
  specialize (IH s1 Hok1). destruct (cons_run ops s1) as [s2 xs]. destruct IH as [Hok2 ->]. done.
Qed.

(** C33: The line discipline of the console.  Keyboard interrupts and readers,
    in any order, do on the ring buffer of [console.c] exactly what they do on
    two queues, the characters of complete lines and the line being typed:
    ^U and backspace only take back characters of the line being typed and
    rub out exactly these on the screen, a carriage return counts as a line
    feed, a line is handed to the readers and they are woken when it ends,
    at ^D or when 128 characters are waiting, further characters are dropped
    until some are read; a reader gets the characters in order up to the end
    of the line or to a ^D, which stays for the next call when the reader
    already has something.  The 32-bit indices may wrap around. *)
Theorem console_line_discipline ops s :
  input_ok s -> Forall op_ok ops ->
  let '(s', outs) := cons_run ops s in
  input_ok s' /\ abs_run ops (console_of s) = (console_of s', outs).
Proof. apply cons_run_refines. Qed.

(** An empty buffer whose indices are about to wrap around. *)
Definition input_wrap : input := mkInput (replicate 128 0) (2 ^ 32 - 2) (2 ^ 32 - 2) (2 ^ 32 - 2).

Lemma input_wrap_ok : input_ok input_wrap.
Proof. constructor; cbn; try done; try lia. Qed.

Lemma console_line_discipline_witness :
  let ops := [Interrupt [104; 120; 127; 105; 13; 111]; ReadRun false 80 80] in
  let outs := [inl [Echo 104; Echo 120; Echo BACKSPACE; Echo 105; Echo 10; WakeReaders; Echo 111]; inr (Done 3, [104; 105; 10])] in
  abs_run ops ([], []) = ([], [111], outs) /\ (cons_run ops input_wrap).2 = outs.
Proof.
  intros ops outs. assert (Forall op_ok ops) as Ho.
  { constructor; [|constructor; [exact I | constructor]]. repeat (constructor; [lia|]). constructor. }
  split; [vm_compute; reflexivity|].
  pose proof (console_line_discipline ops input_wrap input_wrap_ok Ho) as H. destruct (cons_run ops input_wrap) as [s' outs'].
  destruct H as [_ H]. change (console_of input_wrap) with (@nil Z, @nil Z) in H.
  assert (abs_run ops ([], []) = ([], [111], outs)) as E by (vm_compute; reflexivity).
  rewrite E in H. injection H as _ _ H. exact (eq_sym H).
Defined.

(** *** A line typed while a reader sleeps *)

Definition plain (c : Z) : bool := (0 <? c) && (c <? 256) && negb (existsb (Z.eqb c) [4; 8; 10; 13; 16; 21; 127]).

Lemma plain_cases c : plain c = true -> 0 < c < 256 /\ Forall (fun d => (c =? d) = false) [4; 8; 10; 13; 16; 21; 127].
Proof.
  unfold plain. intros [[H1 H2]%andb_prop H3]%andb_prop. split; [lia|].
  repeat (apply Forall_cons; split; [destruct (c =? _) eqn:E; [cbn in H3; rewrite E, ?orb_true_r in H3; done | done]|]). constructor.
Qed.

Lemma type_chars_app cs cs' st :
  type_chars (cs ++ cs') st = let '(st1, ev) := type_chars cs st in let '(st2, ev') := type_chars cs' st1 in (st2, ev ++ ev').
Proof.
  revert st. induction cs as [|c cs IH]; intros st; cbn; [by destruct (type_chars cs' st)|].
  destruct (type_char c st) as [st1 ev]. rewrite IH. destruct (type_chars cs st1) as [st2 ev2]. destruct (type_chars cs' st2). by rewrite app_assoc.
Qed.

Lemma type_plain l ed :
  Forall (fun c => plain c = true) l -> (length ed + length l < 128)%nat -> type_chars l ([], ed) = ([], ed ++ l, map Echo l).
Proof.
  intros Hl. revert ed. induction Hl as [|c l Hc Hl IH]; intros ed Hn; cbn [type_chars map]; [by rewrite app_nil_r|].
  apply plain_cases in Hc as [Hr Hc]. rewrite !Forall_cons in Hc. destruct Hc as (E4 & E8 & E10 & E13 & E16 & E21 & E127 & _).
  cbn in Hn. assert (type_char c ([], ed) = ([], ed ++ [c], [Echo c])) as ->.
  { unfold type_char. rewrite E16, E21, E8, E127, E13, E10, E4. rewrite (proj2 (Z.eqb_neq c 0)), (proj2 (Nat.ltb_lt _ _)) by (cbn; lia).
    cbn [orb andb negb]. rewrite (proj2 (Nat.eqb_neq _ _)); [done | rewrite length_app; cbn; lia]. }
  rewrite IH by (rewrite length_app; cbn; lia). cbn [app]. by rewrite <-app_assoc.
Qed.

Lemma read_plain l n target rest :
  Forall (fun c => plain c = true) l -> (length l < n)%nat ->
  read_line false n target (l ++ 10 :: rest) = (Done (target - Z.of_nat (n - length l - 1)), l ++ [10], rest).
Proof.
  intros Hl. revert n. induction Hl as [|c l Hc Hl IH]; intros n Hn; (destruct n as [|n]; [cbn in Hn; lia|]); cbn [app read_line length].
  - cbn [Z.eqb]. change (10 =? 4) with false. change (10 =? 10) with true. cbv iota. by replace (S n - 0 - 1)%nat with n by lia.
  - apply plain_cases in Hc as [_ Hc]. rewrite !Forall_cons in Hc. destruct Hc as (E4 & _ & E10 & _). rewrite E4, E10.
    rewrite IH by (cbn in Hn; lia). done.
Qed.

(** A whole line, ended with a line feed. *)
Lemma type_line line :
  Forall (fun c => plain c = true) line -> (length line < 128)%nat ->
  type_chars (line ++ [10]) ([], []) = (line ++ [10], [], map Echo line ++ [Echo 10; WakeReaders]).
Proof.
  intros Hline Hl. rewrite type_chars_app, type_plain by done. cbn [app type_chars type_char Z.eqb Pos.eqb orb negb andb].
  by rewrite (proj2 (Nat.ltb_lt _ _)) by (cbn; lia).
Qed.

(** With no line there a reader sleeps. *)
Lemma reader_sleeps s n target :
  input_ok s -> console_of s = ([], []) -> (0 < n)%nat -> consoleread_run false n target s = (Asleep n, [], s).
Proof.
  intros Hok He Hn. destruct n as [|n]; [lia|]. cbn [consoleread_run]. destruct (Z.eqb_spec (in_r s) (in_w s)) as [E|E]; [done|].
  unfold console_of in He. rewrite (region_cons s _ _ (io_r _ Hok) E (io_w _ Hok)) in He. done.
Qed.

(** A reader with room for it takes the line. *)
Lemma read_typed_line s line n target :
  input_ok s -> console_of s = (line ++ [10], []) -> Forall (fun c => plain c = true) line -> (length line < n)%nat ->
  exists s', consoleread_run false n target s = (Done (target - Z.of_nat (n - length line - 1)), line ++ [10], s') /\
    input_ok s' /\ console_of s' = ([], []).
Proof.
  intros Hok He Hline Hn. injection He as Hq Hed. pose proof (consoleread_run_refines false n target s Hok) as Hr.
  destruct (consoleread_run false n target s) as [[r l] s']. destruct Hr as (K1 & K2 & K3 & K4 & K5).
  rewrite Hq, (read_plain line n target []) in K5 by done. injection K5 as <- <- K6.
  exists s'. split; [done|]. split; [done|]. unfold console_of. rewrite <-K6, K3, K4. unfold region, at_buf in *. by rewrite K2, Hed.
Qed.
