(* ===== verification/Umalloc.v ===== *)
(** The memory allocator of the user library, [xv6/base/umalloc.c]: the
    allocator of Kernighan and Ritchie with its circular free list inside the
    heap, on the memory of a process.

    [base] is the address of the static list head, [lo] the size of the process
    before the first [sbrk].  [sbrk] is [sys_sbrk] with the sizes [growproc],
    [allocuvm] and [deallocuvm] compute; [fits] tells whether the kernel has
    pages for a new size.

    The abstract heap is a tiling of [lo .. brk) by blocks, free or in use. *)

From S2P Require Import Prelude CString Kalloc.

(** ** The code *)

Record heap := mkHeap { h_mem : mem; freep : Z; brk : Z }.

(** A header: [s.ptr], then [s.size]. *)
Definition h_ptr (m : mem) (p : Z) : Z := load32 m p.
Definition h_size (m : mem) (p : Z) : Z := load32 m (p + 4).
Definition set_ptr (m : mem) (p v : Z) : mem := store32 m p v.
Definition set_size (m : mem) (p v : Z) : mem := store32 m (p + 4) v.

(** [p + n] on [Header*] *)
Definition hdr_add (p n : Z) : Z := u32 (p + 8 * n).

Section Umalloc.
Context (base : Z) (fits : Z -> bool).

(** [sbrk(n)]: the result, -1 as an unsigned address. *)
Definition sbrk (n : Z) (h : heap) : Z * heap :=
  let sz := brk h in
  let new := u32 (sz + n) in
  if 0 <? n then
    if KERNBASE <=? new then (u32 (-1), h)
    else if new <? sz then (sz, h)
    else if fits new then (sz, mkHeap (h_mem h) (freep h) new) else (u32 (-1), h)
  else if n <? 0 then
    if sz <=? new then (sz, h)
    else if new =? 0 then (u32 (-1), h) else (sz, mkHeap (h_mem h) (freep h) new)
  else (sz, h).

(** The search of [free] for the place of [bp]. *)
Fixpoint free_find (fuel : nat) (m : mem) (bp p : Z) : option Z :=
  match fuel with
  | O => None
  | S f =>
      if (p <? bp) && (bp <? h_ptr m p) then Some p
      else if (h_ptr m p <=? p) && ((p <? bp) || (bp <? h_ptr m p)) then Some p
      else free_find f m bp (h_ptr m p)
  end.

Definition free (fuel : nat) (ap : Z) (h : heap) : option heap :=
  let bp := u32 (ap - 8) in
  let m := h_mem h in
  p ← free_find fuel m bp (freep h);
  let m :=
    if hdr_add bp (h_size m bp) =? h_ptr m p then
      let m := set_size m bp (u32 (h_size m bp + h_size m (h_ptr m p))) in
      set_ptr m bp (h_ptr m (h_ptr m p))
    else set_ptr m bp (h_ptr m p) in
  let m :=
    if hdr_add p (h_size m p) =? bp then
      let m := set_size m p (u32 (h_size m p + h_size m bp)) in
      set_ptr m p (h_ptr m bp)
    else set_ptr m p bp in
  Some (mkHeap m p (brk h)).

Definition morecore (fuel : nat) (nu : Z) (h : heap) : option (Z * heap) :=
  let nu := if nu <? 4096 then 4096 else nu in
  let '(p, h) := sbrk (s32 (u32 (nu * 8))) h in
  if p =? u32 (-1) then Some (0, h)
  else
    let h := mkHeap (set_size (h_mem h) p nu) (freep h) (brk h) in
    h ← free fuel (hdr_add p 1) h;
    Some (freep h, h).

Fixpoint malloc_loop (fuel : nat) (nunits prevp p : Z) (h : heap) : option (Z * heap) :=
  match fuel with
  | O => None
  | S f =>
      let m := h_mem h in
      if nunits <=? h_size m p then
        if h_size m p =? nunits then
          Some (hdr_add p 1, mkHeap (set_ptr m prevp (h_ptr m p)) prevp (brk h))
        else
          let m := set_size m p (u32 (h_size m p - nunits)) in
          let p := hdr_add p (h_size m p) in
          let m := set_size m p nunits in
          Some (hdr_add p 1, mkHeap m prevp (brk h))
      else if p =? freep h then
        r ← morecore f nunits h;
        let '(p, h) := r in
        if p =? 0 then Some (0, h) else malloc_loop f nunits p (h_ptr (h_mem h) p) h
      else malloc_loop f nunits p (h_ptr m p) h
  end.

Definition malloc (fuel : nat) (nbytes : Z) (h : heap) : option (Z * heap) :=
  let nunits := u32 (u32 (nbytes + 8 - 1) / 8 + 1) in
  let h := if freep h =? 0 then mkHeap (set_size (set_ptr (h_mem h) base base) base 0) base (brk h) else h in
  malloc_loop fuel nunits (freep h) (h_ptr (h_mem h) (freep h)) h.

End Umalloc.

(** Requests that overflow: [malloc] of 2^32-1 bytes gives a block without a
    single byte, and of 2^31 bytes a block beyond the end of the process. *)
Lemma malloc_overflow :
  let h := mkHeap (fun _ => 0) 0 0x4000 in
  let ask n := (fun x => (x.1, brk x.2)) <$> malloc 0x100 (fun _ => true) 10 n h in
  ask (2 ^ 32 - 1) = Some (0xc000, 0xc000) /\ ask (2 ^ 31) = Some (0x4008, 0x4000).
Proof. split; vm_compute; reflexivity. Qed.

(** ** The abstract heap *)

(** A block of the tiling: is it free, and its units of eight bytes. *)
Abbreviation tile := (bool * Z)%type.

Fixpoint tend (lo : Z) (bl : list tile) : Z :=
  match bl with [] => lo | t :: bl' => tend (lo + 8 * t.2) bl' end.

(** The address and size of the blocks that are free ([f]), or in use. *)
Fixpoint pick (f : bool) (lo : Z) (bl : list tile) : list (Z * Z) :=
  match bl with
  | [] => []
  | t :: bl' => if Bool.eqb t.1 f then (lo, t.2) :: pick f (lo + 8 * t.2) bl' else pick f (lo + 8 * t.2) bl'
  end.
Abbreviation frees := (pick true).
Abbreviation allocs := (pick false).

(** No two free blocks are neighbours. *)
Fixpoint coalesced (bl : list tile) : Prop :=
  match bl with
  | [] => True
  | t :: bl' => match bl' with [] => True | t' :: _ => ~ (t.1 = true /\ t'.1 = true) end /\ coalesced bl'
  end.

(** From [p] the pointers go through the blocks [F], whose headers hold their
    sizes, to [e]. *)
Fixpoint chain (m : mem) (p : Z) (F : list (Z * Z)) (e : Z) : Prop :=
  match F with
  | [] => h_ptr m p = e
  | b :: F' => h_ptr m p = b.1 /\ h_size m b.1 = b.2 /\ chain m b.1 F' e
  end.

Fixpoint lastp (p : Z) (F : list (Z * Z)) : Z := match F with [] => p | b :: F' => lastp b.1 F' end.

(** *** Tilings *)

Lemma tend_app lo l1 l2 : tend lo (l1 ++ l2) = tend (tend lo l1) l2.
Proof. revert lo. induction l1 as [|t l1 IH]; intros lo; [done | apply IH]. Qed.

Lemma pick_app f lo l1 l2 : pick f lo (l1 ++ l2) = pick f lo l1 ++ pick f (tend lo l1) l2.
Proof. revert lo. induction l1 as [|t l1 IH]; intros lo; [done|]. cbn. rewrite IH. by destruct (Bool.eqb _ _). Qed.

Lemma tend_ge lo bl : Forall (fun t : tile => 0 < t.2) bl -> lo <= tend lo bl.
Proof. intros H. revert lo. induction H as [|t bl Ht Hbl IH]; intros lo; cbn; [lia|]. specialize (IH (lo + 8 * t.2)). lia. Qed.

Lemma pick_range f lo bl b :
  Forall (fun t : tile => 0 < t.2) bl -> b ∈ pick f lo bl -> lo <= b.1 /\ b.1 + 8 * b.2 <= tend lo bl /\ 0 < b.2.
Proof.
  intros H. revert lo. induction H as [|t bl Ht Hbl IH]; intros lo; cbn; [by intros ?%not_elem_of_nil|].
  pose proof (tend_ge (lo + 8 * t.2) bl Hbl). destruct (Bool.eqb _ _).
  - intros [->|Hb]%elem_of_cons; [cbn; lia|]. apply IH in Hb. lia.
  - intros Hb. apply IH in Hb. lia.
Qed.

(** A block of the tiling splits it. *)
Lemma pick_split f lo bl b :
  b ∈ pick f lo bl -> exists l1 l2, bl = l1 ++ (f, b.2) :: l2 /\ tend lo l1 = b.1.
Proof.
  revert lo. induction bl as [|[g n] bl IH]; intros lo; cbn; [by intros ?%not_elem_of_nil|]. intros H.
  assert (b ∈ pick f (lo + 8 * n) bl -> exists l1 l2, (g, n) :: bl = l1 ++ (f, b.2) :: l2 /\ tend lo l1 = b.1) as Hrec.
  { intros Hb. destruct (IH _ Hb) as (l1 & l2 & -> & E). by exists ((g, n) :: l1), l2. }
  destruct (Bool.eqb g f) eqn:Eg; [|by apply Hrec]. apply elem_of_cons in H as [->|Hb]; [|by apply Hrec].
  apply Bool.eqb_prop in Eg as ->. by exists [], bl.
Qed.

(** Blocks in use and free blocks do not overlap. *)
Lemma pick_disjoint lo bl b c :
  Forall (fun t : tile => 0 < t.2) bl -> b ∈ allocs lo bl -> c ∈ frees lo bl -> b.1 + 8 * b.2 <= c.1 \/ c.1 + 8 * c.2 <= b.1.
Proof.
  intros H. revert lo. induction H as [|t bl Ht Hbl IH]; intros lo; cbn; [by intros ?%not_elem_of_nil|].
  destruct t as [[] n]; cbn [Bool.eqb fst snd].
  - intros Hb [->|Hc]%elem_of_cons; [|by eapply IH]. pose proof (pick_range _ _ _ _ Hbl Hb). cbn. lia.
  - intros [->|Hb]%elem_of_cons Hc; [|by eapply IH]. pose proof (pick_range _ _ _ _ Hbl Hc). cbn. lia.
Qed.

Lemma pick_length f lo bl : (length (pick f lo bl) <= length bl)%nat.
Proof. revert lo. induction bl as [|t bl IH]; intros lo; cbn; [done|]. specialize (IH (lo + 8 * t.2)). destruct (Bool.eqb _ _); cbn; lia. Qed.

Lemma coalesced_app l1 l2 : coalesced (l1 ++ l2) -> coalesced l1 /\ coalesced l2.
Proof.
  induction l1 as [|t l1 IH]; [done|]. cbn. intros [H1 H2]. destruct (IH H2) as [H3 H4]. split; [|done].
  split; [|done]. by destruct l1.
Qed.

(** *** Chains *)

Lemma chain_app m p F1 b F2 e :
  chain m p (F1 ++ b :: F2) e <-> chain m p F1 b.1 /\ h_size m b.1 = b.2 /\ chain m b.1 F2 e.
Proof. revert p. induction F1 as [|c F1 IH]; intros p; cbn; [done|]. rewrite IH. tauto. Qed.

Lemma lastp_app p F1 F2 : lastp p (F1 ++ F2) = lastp (lastp p F1) F2.
Proof. revert p. induction F1 as [|b F1 IH]; intros p; [done | apply IH]. Qed.

Definition hdr_same (m m' : mem) (a : Z) : Prop := h_ptr m' a = h_ptr m a /\ h_size m' a = h_size m a.

Lemma chain_ext m m' p F e :
  (forall a, a = p \/ a ∈ map fst F -> hdr_same m m' a) -> chain m p F e -> chain m' p F e.
Proof.
  revert p. induction F as [|b F IH]; intros p H; cbn.
  - intros <-. apply H. by left.
  - intros (H1 & H2 & H3). destruct (H p (or_introl eq_refl)) as [-> _].
    destruct (H b.1) as [_ ->]; [right; apply list_elem_of_here|]. split; [done|]. split; [done|].
    apply IH; [|done]. intros a [->|Ha]; apply H; right; [apply list_elem_of_here | by apply list_elem_of_further].
Qed.

(** The same chain from another header. *)
Lemma chain_restart m m' p q F e :
  chain m p F e -> h_ptr m' q = h_ptr m p -> (forall a, a ∈ map fst F -> hdr_same m m' a) -> chain m' q F e.
Proof.
  destruct F as [|b F]; cbn; intros Hc Hq H; [congruence|]. destruct Hc as (H1 & H2 & H3).
  destruct (H b.1 ltac:(apply list_elem_of_here)) as [_ Hs]. split; [congruence|]. split; [congruence|].
  apply (chain_ext m); [|done]. intros a [->|Ha]; apply H; [apply list_elem_of_here | by apply list_elem_of_further].
Qed.

Lemma chain_ptr_range m p F e : chain m p F e -> 0 <= e < 2 ^ 32 -> Forall (fun b => 0 <= b.1 < 2 ^ 32) F -> 0 <= h_ptr m p < 2 ^ 32.
Proof. destruct F as [|b F]; cbn; [by intros ->|]. intros (-> & _) _ H. apply Forall_cons in H. tauto. Qed.

Lemma store_hdr m a w x : x + 8 <= a \/ a + 4 <= x -> hdr_same m (store32 m a w) x.
Proof. intros H. split; apply load32_ext; intros y Hy; apply store32_out; lia. Qed.

Lemma set_ptr_get m a w : 0 <= w < 2 ^ 32 -> h_ptr (set_ptr m a w) a = w /\ h_size (set_ptr m a w) a = h_size m a.
Proof. intros Hw. split; [by apply load32_store32|]. apply load32_ext. intros y Hy. apply store32_out. lia. Qed.

Lemma set_size_get m a w : 0 <= w < 2 ^ 32 -> h_size (set_size m a w) a = w /\ h_ptr (set_size m a w) a = h_ptr m a.
Proof. intros Hw. split; [by apply load32_store32|]. apply load32_ext. intros y Hy. apply store32_out. lia. Qed.

(** Headers in increasing order, at least their size apart. *)
Fixpoint asc (p : Z) (F : list (Z * Z)) : Prop :=
  match F with [] => True | b :: F' => p + 8 <= b.1 /\ asc b.1 F' end.

Lemma asc_weaken p q F : q <= p -> asc p F -> asc q F.
Proof. destruct F; cbn; [done|]. intros H [H1 H2]. split; [lia | done]. Qed.

Lemma asc_pick f p lo bl : Forall (fun t : tile => 0 < t.2) bl -> p + 8 <= lo -> asc p (pick f lo bl).
Proof.
  intros H. revert p lo. induction H as [|t bl Ht Hbl IH]; intros p lo Hp; cbn; [done|].
  destruct (Bool.eqb _ _); [|apply IH; lia]. cbn. split; [lia|]. apply IH. lia.
Qed.

Lemma asc_app p F1 b F2 : asc p (F1 ++ b :: F2) -> p + 8 <= b.1 /\ asc b.1 F2 /\ asc p F1 /\ lastp p F1 + 8 <= b.1.
Proof.
  revert p. induction F1 as [|c F1 IH]; intros p; cbn; [tauto|]. intros [H1 H2]. destruct (IH _ H2) as (K1 & K2 & K3 & K4).
  split_and!; [lia | done..].
Qed.

Lemma asc_in p F a : asc p F -> a ∈ map fst F -> p + 8 <= a.
Proof.
  revert p. induction F as [|b F IH]; intros p; cbn; [by intros _ ?%not_elem_of_nil|].
  intros [H1 H2] [->|Ha]%elem_of_cons; [done|]. specialize (IH _ H2 Ha). lia.
Qed.

Lemma lastp_cases p F : lastp p F = p \/ lastp p F ∈ map fst F.
Proof.
  revert p. induction F as [|b F IH]; intros p; cbn; [by left|]. right. apply elem_of_cons. destruct (IH b.1); auto.
Qed.

Lemma lastp_ge p F : asc p F -> p <= lastp p F.
Proof. intros H. destruct (lastp_cases p F) as [->|Hl]; [lia|]. pose proof (asc_in p F _ H Hl). lia. Qed.

(** The header before the end of the chain gets another pointer. *)
Lemma chain_set_last m p F e e' :
  asc p F -> chain m p F e -> 0 <= e' < 2 ^ 32 -> chain (set_ptr m (lastp p F) e') p F e'.
Proof.
  revert p. induction F as [|b F IH]; intros p Ha Hc He; cbn in *; [by apply set_ptr_get|].
  destruct Ha as [H1 H2], Hc as (K1 & K2 & K3). pose proof (lastp_ge b.1 F H2) as Hl.
  assert (hdr_same m (set_ptr m (lastp b.1 F) e') p) as [-> _] by (apply store_hdr; lia). split; [done|]. split; [|by apply IH].
  rewrite <-K2. destruct (decide (lastp b.1 F = b.1)) as [->|Hne]; [by apply set_ptr_get|].
  destruct (lastp_cases b.1 F) as [E|E]; [done|]. pose proof (asc_in _ _ _ H2 E). by apply store_hdr; lia.
Qed.

Lemma pick_u32 f lo bl : Forall (fun t : tile => 0 < t.2) bl -> 0 <= lo -> tend lo bl < 2 ^ 31 -> Forall (fun b => 0 <= b.1 < 2 ^ 32) (pick f lo bl).
Proof. intros Hp Hl Ht. apply Forall_forall. intros b Hb. pose proof (pick_range f lo bl b Hp Hb). lia. Qed.

Lemma pick_ge f lo bl a : Forall (fun t : tile => 0 < t.2) bl -> a ∈ map fst (pick f lo bl) -> lo <= a /\ a + 8 <= tend lo bl.
Proof. intros Hp (b & -> & Hb)%list_elem_of_fmap. pose proof (pick_range f lo bl b Hp Hb). lia. Qed.

Section Proofs.
Context (base lo : Z) (fits : Z -> bool).
Context (base_pos : 0 < base) (base_lo : base + 8 <= lo).

(** The invariant: the blocks [bl] tile the heap; the circular list goes
    through exactly the free ones in order of address, and no two of these are
    neighbours; the header of every block holds its size. *)
Record heap_ok (h : heap) (bl : list tile) : Prop := {
  ho_brk : tend lo bl = brk h;
  ho_top : brk h < 2 ^ 31;
  ho_pos : Forall (fun t : tile => 0 < t.2) bl;
  ho_coal : coalesced bl;
  ho_alloc : forall b, b ∈ allocs lo bl -> h_size (h_mem h) b.1 = b.2;
  ho_free : freep h = 0 /\ bl = [] \/
    chain (h_mem h) base (frees lo bl) base /\ h_size (h_mem h) base = 0 /\ (freep h = base \/ freep h ∈ map fst (frees lo bl))
}.

(** *** The search of [free] *)

(** From a header below [bp]. *)
Lemma free_find_below m bp p F1 F2 fuel :
  (length F1 < fuel)%nat -> asc p (F1 ++ F2) -> base <= p ->
  chain m p (F1 ++ F2) base -> p < bp -> Forall (fun b => b.1 < bp) F1 -> Forall (fun b => bp < b.1) F2 ->
  free_find fuel m bp p = Some (lastp p F1).
Proof.
  revert p fuel. induction F1 as [|b F1 IH]; intros p fuel Hf Ha Hb Hc Hp H1 H2; (destruct fuel as [|f]; [cbn in Hf; lia|]); cbn [free_find].
  - rewrite (proj2 (Z.ltb_lt p bp) Hp). cbn [andb orb app lastp] in *. destruct F2 as [|c F2]; cbn in Hc.
    + rewrite Hc. rewrite (proj2 (Z.ltb_ge bp base)), (proj2 (Z.leb_le base p)) by lia. done.
    + destruct Hc as [-> _]. apply Forall_cons in H2 as [H2 _]. by rewrite (proj2 (Z.ltb_lt _ _) H2).
  - cbn in Hc, Ha. destruct Hc as (-> & _ & Hc), Ha as [Ha1 Ha2]. apply Forall_cons in H1 as [H1 H1'].
    rewrite (proj2 (Z.ltb_ge bp b.1)), (proj2 (Z.leb_gt b.1 p)), andb_false_r by lia. cbn [andb].
    apply IH; try done; [cbn in Hf; lia | lia].
Qed.

(** From a header above [bp]: round to the list head. *)
Lemma free_find_above m bp p F fuel :
  (length F < fuel)%nat -> asc p F -> chain m p F base -> base < bp -> bp < p ->
  free_find fuel m bp p = free_find (fuel - S (length F)) m bp base.
Proof.
  revert p fuel. induction F as [|b F IH]; intros p fuel Hf Ha Hc Hbb Hp; (destruct fuel as [|f]; [cbn in Hf; lia|]); cbn [free_find];
    rewrite (proj2 (Z.ltb_ge p bp)) by lia; cbn [andb orb]; cbn in Hc.
  - rewrite Hc, (proj2 (Z.ltb_ge bp base)), andb_false_r by lia. cbn [length]. by replace (S f - 1)%nat with f by lia.
  - cbn in Ha. destruct Hc as (-> & _ & Hc), Ha as [Ha1 Ha2]. rewrite (proj2 (Z.leb_gt b.1 p)) by lia. cbn [andb].
    rewrite IH; try done; [cbn [length] in *; lia | lia].
Qed.

Lemma free_find_spec m bp p F1 F2 fuel :
  (length F1 + length F2 + 2 <= fuel)%nat -> asc base (F1 ++ F2) -> chain m base (F1 ++ F2) base ->
  p = base \/ p ∈ map fst (F1 ++ F2) -> base < bp -> Forall (fun b => b.1 < bp) F1 -> Forall (fun b => bp < b.1) F2 ->
  free_find fuel m bp p = Some (lastp base F1).
Proof.
  intros Hf Ha Hc Hp Hb H1 H2. destruct Hp as [->|Hp]; [apply (free_find_below _ _ _ _ F2); try done; lia|].
  rewrite map_app, elem_of_app in Hp. destruct Hp as [Hp|Hp]; apply list_elem_of_fmap in Hp as (b & -> & Hin);
    apply list_elem_of_split in Hin as (G1 & G2 & ->).
  - rewrite <-app_assoc in Ha, Hc. cbn in Ha, Hc. apply chain_app in Hc as (_ & _ & Hc).
    rewrite Forall_app, Forall_cons in H1. destruct H1 as (_ & H1 & H1').
    destruct (asc_app _ _ _ _ Ha) as (Hbb & Ha' & _ & _).
    rewrite lastp_app. cbn [lastp]. rewrite length_app in Hf. cbn in Hf. apply (free_find_below _ _ _ _ F2); try done; lia.
  - rewrite (app_assoc F1 G1 (b :: G2)) in Ha, Hc. pose proof Hc as Hc0. apply chain_app in Hc as (_ & _ & Hc).
    rewrite Forall_app, Forall_cons in H2. destruct H2 as (H2a & H2 & H2').
    destruct (asc_app _ _ _ _ Ha) as (_ & Ha' & _ & _).
    rewrite length_app in Hf. cbn in Hf.
    rewrite (free_find_above m bp b.1 G2); try done; [|lia].
    rewrite <-app_assoc in Hc0, Ha. apply (free_find_below _ _ _ _ (G1 ++ b :: G2)); try done; [lia|].
    apply Forall_app. split; [done|]. by apply Forall_cons.
Qed.

(** *** Joining neighbours *)

Definition starts_free (l : list tile) : Prop := match l with t :: _ => t.1 = true | [] => False end.
Definition ends_free (l : list tile) : Prop := exists l' n, l = l' ++ [(true, n)].

Lemma coalesced_snoc l t : coalesced (l ++ [t]) <-> coalesced l /\ ~ (ends_free l /\ t.1 = true).
Proof.
  induction l as [|c l IH]; cbn.
  - split; [|done]. intros _. split; [done|]. intros [(l' & n & E) _]. by destruct l'.
  - rewrite IH. destruct l as [|d l]; cbn.
    + split.
      * intros (H1 & H2 & H3). split; [done|]. intros [(l' & n & E) Ht]. apply H1. split; [|done].
        destruct l' as [|? [|]]; [by injection E as -> | done | done].
      * intros [_ H]. split; [|split; [done|]].
        -- intros [Hc Ht]. apply H. split; [|done]. exists [], c.2. destruct c; cbn in *. by subst.
        -- intros [(l' & n & E) _]. by destruct l'.
    + assert (ends_free (c :: d :: l) <-> ends_free (d :: l)) as ->.
      { split.
        - intros (l' & n & E). destruct l' as [|x l']; [done|]. injection E as -> E. by exists l', n.
        - intros (l' & n & E). exists (c :: l'), n. by rewrite E. }
      tauto.
Qed.

Lemma coalesced_join l1 n l2 :
  coalesced l1 -> coalesced l2 -> ~ ends_free l1 -> ~ starts_free l2 -> coalesced (l1 ++ (true, n) :: l2).
Proof.
  induction l1 as [|c l1 IH]; cbn.
  - intros _ H2 _ Hs. split; [|done]. destruct l2; [done|]. cbn in Hs. tauto.
  - intros [H1 H1'] H2 He Hs. split.
    + destruct l1 as [|d l1]; cbn in *; [|done]. intros [Hc _]. apply He. exists [], c.2. destruct c; cbn in *. by subst.
    + apply IH; try done. intros (l' & m & E). apply He. exists (c :: l'), m. by rewrite E.
Qed.

(** The block after [bp]. *)
Lemma merge_right m p bp k l2 :
  Forall (fun t : tile => 0 < t.2) l2 -> coalesced l2 -> h_size m bp = k -> 0 < k -> tend (bp + 8 * k) l2 < 2 ^ 31 ->
  p + 8 <= bp -> base + 8 <= bp -> chain m p (frees (bp + 8 * k) l2) base ->
  let m1 :=
    if hdr_add bp (h_size m bp) =? h_ptr m p then
      let m := set_size m bp (u32 (h_size m bp + h_size m (h_ptr m p))) in
      set_ptr m bp (h_ptr m (h_ptr m p))
    else set_ptr m bp (h_ptr m p) in
  exists k1 l2', k <= k1 /\ Forall (fun t : tile => 0 < t.2) l2' /\ coalesced l2' /\ ~ starts_free l2' /\ (length l2' <= length l2)%nat /\
    tend (bp + 8 * k1) l2' = tend (bp + 8 * k) l2 /\ allocs (bp + 8 * k1) l2' = allocs (bp + 8 * k) l2 /\
    h_size m1 bp = k1 /\ chain m1 bp (frees (bp + 8 * k1) l2') base /\ (forall x, ~ (bp <= x < bp + 8) -> m1 x = m x).
Proof.
  intros Hpos Hco Hk Hk0 Htop Hp Hb Hc. rewrite Hk. pose proof (tend_ge (bp + 8 * k) l2 Hpos) as Hge. unfold hdr_add. rewrite u32_small by lia.
  destruct l2 as [|[[] n] l2]; cbn [tend pick frees fst snd Bool.eqb chain] in *.
  - rewrite Hc, (proj2 (Z.eqb_neq _ _)) by lia. exists k, []. destruct (set_ptr_get m bp base) as [S1 S2]; [lia|].
    cbn [tend pick chain]. split_and!; try done; try lia; [by intros ?|]. intros x Hx. apply store32_out. lia.
  - destruct Hc as (Hpn & K2 & K3). cbn [fst snd] in Hpn, K2, K3. rewrite Hpn, Z.eqb_refl, K2. apply Forall_cons in Hpos as [Hn Hpos]. cbn in Hn.
    pose proof (tend_ge (bp + 8 * k + 8 * n) l2 Hpos) as Hge'. rewrite u32_small by lia. cbv zeta.
    set (ms := set_size m bp (k + n)). destruct (set_size_get m bp (k + n)) as [S1 S2]; [lia|]. fold ms in S1, S2.
    assert (hdr_same m ms p) as [-> _] by (apply store_hdr; lia).
    assert (hdr_same m ms (bp + 8 * k)) as [Ep _] by (apply store_hdr; lia).
    cbn [fst snd] in *. rewrite ?Hpn. rewrite Ep. set (v := h_ptr m (bp + 8 * k)).
    assert (0 <= v < 2 ^ 32) as Hv by (apply (chain_ptr_range m _ _ base K3); [lia | apply pick_u32; try done; lia]).
    destruct (set_ptr_get ms bp v Hv) as [T1 T2].
    assert (forall x, ~ (bp <= x < bp + 8) -> set_ptr ms bp v x = m x) as Hout.
    { intros x Hx. unfold set_ptr, ms, set_size. rewrite !store32_out by lia. done. }
    exists (k + n), l2. replace (bp + 8 * (k + n)) with (bp + 8 * k + 8 * n) by lia. cbn in Hco. destruct Hco as [Hco1 Hco2].
    split_and!; try done; try lia.
    + destruct l2 as [|t l2]; [by intros ?|]. cbn. intros Ht. by apply Hco1.
    + cbn. lia.
    + apply (chain_restart m _ (bp + 8 * k)); [done | done|]. intros a (Ha & _)%pick_ge; [|done].
      split; apply load32_ext; intros x Hx; apply Hout; lia.
  - rewrite (proj2 (Z.eqb_neq _ _)).
    2: { destruct (frees (bp + 8 * k + 8 * n) l2) as [|b F] eqn:EF; cbn in Hc; [lia|]. destruct Hc as [-> _].
         apply Forall_cons in Hpos as [Hn Hpos]. cbn in Hn.
         pose proof (pick_range true (bp + 8 * k + 8 * n) l2 b Hpos ltac:(rewrite EF; apply list_elem_of_here)). lia. }
    pose proof Hpos as [Hn Hpos']%Forall_cons. cbn in Hn. pose proof (tend_ge (bp + 8 * k + 8 * n) l2 Hpos') as Hge'.
    assert (0 <= h_ptr m p < 2 ^ 32) as Hv by (apply (chain_ptr_range m _ _ base Hc); [lia | apply pick_u32; try done; lia]).
    destruct (set_ptr_get m bp _ Hv) as [T1 T2]. exists k, ((false, n) :: l2).
    assert (forall x, ~ (bp <= x < bp + 8) -> set_ptr m bp (h_ptr m p) x = m x) as Hout by (intros x Hx; apply store32_out; lia).
    split_and!; try done; try lia. cbn [pick Bool.eqb fst snd].
    apply (chain_restart m _ p); [done | done|]. intros a (Ha & _)%pick_ge; [|done].
    split; apply load32_ext; intros x Hx; apply Hout; lia.
Qed.

Lemma chain_snoc m p F b e : chain m p (F ++ [b]) e <-> chain m p F b.1 /\ h_size m b.1 = b.2 /\ h_ptr m b.1 = e.
Proof. apply chain_app. Qed.

Lemma ends_free_or l : ends_free l \/ ~ ends_free l.
Proof.
  destruct l as [|t l] using rev_ind; [right; intros (l' & n & E); by destruct l'|]. destruct t as [[] n]; [left; by exists l, n|].
  right. intros (l' & k & E). by apply app_inj_tail in E as [_ E].
Qed.

(** Without a free block at its end the last free block does not touch the end. *)
Lemma last_free_apart m l e :
  Forall (fun t : tile => 0 < t.2) l -> ~ ends_free l -> h_size m base = 0 -> chain m base (frees lo l) e ->
  let p := lastp base (frees lo l) in 0 <= h_size m p /\ p + 8 * h_size m p < tend lo l.
Proof.
  intros Hp He Hb Hc. pose proof (tend_ge lo l Hp). destruct (frees lo l) as [|c F _] eqn:EF using rev_ind; cbn [lastp]; [lia|].
  rewrite lastp_app. cbn [lastp]. apply chain_snoc in Hc as (_ & -> & _).
  assert (c ∈ frees lo l) as Hin by (rewrite EF; apply elem_of_app; right; apply list_elem_of_here).
  pose proof (pick_range true lo l c Hp Hin) as (_ & _ & Hc0). split; [lia|].
  destruct (pick_split true lo l c Hin) as (l1 & l2 & -> & E). apply Forall_app in Hp as [_ Hp]. apply Forall_cons in Hp as [_ Hp].
  destruct l2 as [|t l2]; [by destruct He; exists l1, c.2|]. rewrite tend_app. cbn. apply Forall_cons in Hp as [Ht Hp].
  pose proof (tend_ge (tend lo l1 + 8 * c.2 + 8 * t.2) l2 Hp). lia.
Qed.

(** The block before [bp]. *)
Lemma merge_left m bp k l1 F2 e :
  Forall (fun t : tile => 0 < t.2) l1 -> coalesced l1 -> tend lo l1 = bp -> 0 < k -> bp + 8 * k < 2 ^ 31 ->
  chain m base (frees lo l1) e -> h_size m base = 0 -> h_size m bp = k -> chain m bp F2 base -> asc bp F2 -> Forall (fun b => 0 <= b.1 < 2 ^ 32) F2 ->
  let p := lastp base (frees lo l1) in
  let m2 :=
    if hdr_add p (h_size m p) =? bp then
      let m := set_size m p (u32 (h_size m p + h_size m bp)) in
      set_ptr m p (h_ptr m bp)
    else set_ptr m p bp in
  exists l1' n, let a := tend lo l1' in
    Forall (fun t : tile => 0 < t.2) l1' /\ coalesced l1' /\ ~ ends_free l1' /\ (length l1' <= length l1)%nat /\
    a <= bp /\ a + 8 * n = bp + 8 * k /\ allocs lo l1' = allocs lo l1 /\
    chain m2 base (frees lo l1' ++ (a, n) :: F2) base /\ h_size m2 base = 0 /\
    (p = base \/ p ∈ map fst (frees lo l1' ++ (a, n) :: F2)) /\ (forall x, ~ (p <= x < p + 8) -> m2 x = m x).
Proof.
  intros Hp Hco Hbp Hk Htop Hc Hb0 Hk1 Hc2 Ha2 Hr2 p. pose proof (asc_pick true base lo l1 Hp base_lo) as Ha.
  pose proof (lastp_ge _ _ Ha) as Hpb. fold p in Hpb. destruct (ends_free_or l1) as [(l & n & ->)|He].
  - (* joined *)
    apply Forall_app in Hp as [Hpl Hn]. apply Forall_cons in Hn as [Hn _]. cbn in Hn. apply coalesced_snoc in Hco as [Hco He].
    rewrite tend_app in Hbp. assert (p = tend lo l) as Ep by (unfold p; by rewrite pick_app, lastp_app).
    clearbody p. rewrite pick_app in Hc, Ha. cbn in Hbp, Hc, Ha. rewrite <-Ep in Hbp, Hc. apply chain_snoc in Hc as (Hc1 & Hn' & _). cbn [fst snd] in *. rewrite Hn', Hk1.
    pose proof (tend_ge lo l Hpl). unfold hdr_add. rewrite !u32_small by lia. rewrite (proj2 (Z.eqb_eq _ _) Hbp).
    set (ms := set_size m p (n + k)). destruct (set_size_get m p (n + k)) as [S1 S2]; [lia|]. fold ms in S1, S2.
    assert (hdr_same m ms bp) as [-> _] by (apply store_hdr; lia). set (v := h_ptr m bp).
    assert (0 <= v < 2 ^ 32) as Hv by (apply (chain_ptr_range m _ _ base Hc2); [lia | done]).
    destruct (set_ptr_get ms p v Hv) as [T1 T2].
    assert (forall x, ~ (p <= x < p + 8) -> set_ptr ms p v x = m x) as Hout.
    { intros x Hx. unfold set_ptr, ms, set_size. rewrite !store32_out by lia. done. }
    assert (forall a, a + 8 <= p \/ p + 8 <= a -> hdr_same m (set_ptr ms p v) a) as Hhdr.
    { intros a Hd. split; apply load32_ext; intros x Hx; apply Hout; lia. }
    exists l, (n + k). cbv zeta. rewrite <-Ep, pick_app. cbn [pick Bool.eqb fst snd]. rewrite app_nil_r.
    split_and!; try done; try lia.
    + intros He'. by apply He.
    + rewrite length_app. cbn [length]. apply Nat.le_add_r.
    + apply chain_app. cbn [fst snd]. split_and!; [| congruence |].
      * apply (chain_ext m); [|done]. intros a [->|(b & -> & Hb)%list_elem_of_fmap]; apply Hhdr; [lia|].
        pose proof (pick_range true lo l b Hpl Hb). lia.
      * apply (chain_restart m _ bp); [done | done |]. intros a Hin. apply Hhdr. pose proof (asc_in _ _ _ Ha2 Hin). lia.
    + rewrite <-Hb0. apply Hhdr. lia.
    + right. rewrite map_app. apply elem_of_app. right. apply list_elem_of_here.
  - (* separate *)
    destruct (last_free_apart m l1 e Hp He Hb0 Hc) as [Hs0 Hs]. fold p in Hs0, Hs.
    unfold hdr_add. rewrite u32_small, (proj2 (Z.eqb_neq _ _)) by lia.
    assert (forall x, ~ (p <= x < p + 8) -> set_ptr m p bp x = m x) as Hout by (intros x Hx; apply store32_out; lia).
    assert (p + 8 <= bp) as Hpp.
    { unfold p. destruct (lastp_cases base (frees lo l1)) as [->|E]; [pose proof (tend_ge lo l1 Hp); lia|].
      apply pick_ge in E; [lia | done]. }
    exists l1, k. cbv zeta. rewrite Hbp. split_and!; try done; try lia.
    + apply chain_app. cbn [fst snd]. split_and!.
      * apply (chain_set_last m base (frees lo l1) e bp); [done | done | lia].
      * rewrite <-Hk1. apply store_hdr. lia.
      * apply (chain_restart m _ bp); [done | apply store_hdr; lia |]. intros a Hin. apply store_hdr. pose proof (asc_in _ _ _ Ha2 Hin). lia.
    + rewrite <-Hb0. destruct (decide (p = base)) as [->|Hne]; [apply set_ptr_get; lia|]. apply store_hdr.
      unfold p in Hne |- *. destruct (lastp_cases base (frees lo l1)) as [E|E]; [done|]. apply (asc_in base) in E; [lia | done].
    + destruct (lastp_cases base (frees lo l1)) as [E|E]; [by left|]. right. rewrite map_app. apply elem_of_app. by left.
Qed.

(** *** [free] *)

(** The headers of the list: the list head and the free blocks. *)
Definition list_hdr (bl : list tile) (x : Z) : Prop := exists a, (a = base \/ a ∈ map fst (frees lo bl)) /\ a <= x < a + 8.

Lemma chain_app_inv m p F1 F2 e : chain m p (F1 ++ F2) e -> exists e', chain m p F1 e' /\ chain m (lastp p F1) F2 e.
Proof.
  revert p. induction F1 as [|b F1 IH]; intros p; cbn; [by exists (h_ptr m p)|]. intros (H1 & H2 & H3).
  destruct (IH _ H3) as (e' & K1 & K2). by exists e'.
Qed.

Lemma chain_join m p F1 F2 e e' : chain m p F1 e -> chain m (lastp p F1) F2 e' -> chain m p (F1 ++ F2) e'.
Proof. revert p. induction F1 as [|b F1 IH]; intros p; cbn; [done|]. intros (H1 & H2 & H3) H4. by split_and!; [..|apply IH]. Qed.

Lemma hdr_in bl a x : a = base \/ a ∈ map fst (frees lo bl) -> ~ list_hdr bl x -> ~ (a <= x < a + 8).
Proof. intros Ha Hx Hd. apply Hx. by exists a. Qed.

Lemma free_block_ok h l1 k l2 fuel :
  heap_ok h (l1 ++ (false, k) :: l2) -> (length l1 + length l2 + 2 <= fuel)%nat ->
  let bl := l1 ++ (false, k) :: l2 in
  let bp := tend lo l1 in
  exists h' bl', free fuel (bp + 8) h = Some h' /\ heap_ok h' bl' /\ freep h' <> 0 /\ brk h' = brk h /\
    allocs lo bl' = allocs lo l1 ++ allocs (bp + 8 * k) l2 /\
    (exists b, b ∈ frees lo bl' /\ k <= b.2) /\ (length bl' <= length bl)%nat /\
    (forall x, ~ list_hdr bl x -> ~ (bp <= x < bp + 8) -> h_mem h' x = h_mem h x).
Proof.
  intros [Hbrk Htop Hpos Hco Hal Hfr] Hfuel bl bp. destruct Hfr as [[_ E]|(Hc & Hb0 & Hfp)]; [by destruct l1|].
  rewrite tend_app in Hbrk. cbn in Hbrk. fold bp in Hbrk. rewrite !pick_app in *. cbn [pick Bool.eqb fst snd] in *. fold bp in Hc, Hfp, Hal.
  pose proof Hpos as [Hp1 [Hk Hp2]%Forall_cons]%Forall_app. cbn in Hk.
  pose proof (tend_ge lo l1 Hp1) as Hlo. fold bp in Hlo. pose proof (tend_ge (bp + 8 * k) l2 Hp2) as Hhi.
  pose proof (coalesced_app _ _ Hco) as [Hco1 [_ Hco2]].
  assert (h_size (h_mem h) bp = k) as Hk1 by (apply (Hal (bp, k)); apply elem_of_app; right; apply list_elem_of_here).
  set (F1 := frees lo l1) in *. set (F2 := frees (bp + 8 * k) l2) in *.
  assert (asc base (F1 ++ F2)) as Ha.
  { pose proof (asc_pick true base lo bl Hpos base_lo) as Ha. unfold bl in Ha. by rewrite pick_app in Ha. }
  assert (free_find fuel (h_mem h) bp (freep h) = Some (lastp base F1)) as Ef.
  { apply (free_find_spec _ _ _ F1 F2); try done; [| lia | |].
    - pose proof (pick_length true lo l1). pose proof (pick_length true (bp + 8 * k) l2). unfold F1, F2. lia.
    - apply Forall_forall. intros b Hb. pose proof (pick_range true lo l1 b Hp1 Hb) as Hr. unfold bp. lia.
    - apply Forall_forall. intros b Hb. pose proof (pick_range true _ l2 b Hp2 Hb) as Hr. lia. }
  destruct (chain_app_inv _ _ _ _ _ Hc) as (e & Hc1 & Hc2).
  assert (lastp base F1 + 8 <= bp) as Hp.
  { destruct (lastp_cases base F1) as [->|E]; [lia|]. apply pick_ge in E; [unfold bp; lia | done]. }
  unfold free. replace (u32 (bp + 8 - 8)) with bp by (rewrite u32_small; lia). rewrite Ef. cbn [mbind option_bind]. cbv zeta.
  destruct (merge_right (h_mem h) (lastp base F1) bp k l2 Hp2 Hco2 Hk1 Hk ltac:(lia) Hp ltac:(lia) Hc2)
    as (k1 & l2' & Hkk & Hp2' & Hco2' & Hs2 & Hlen2 & Htend2 & Hal2 & Hs1 & Hcr & Hout1).
  set (m1 := if hdr_add bp _ =? _ then _ else _) in *.
  assert (forall a, a + 8 <= bp -> hdr_same (h_mem h) m1 a) as Hh1.
  { intros a Hd. split; apply load32_ext; intros x Hx; apply Hout1; lia. }
  pose proof (tend_ge (bp + 8 * k1) l2' Hp2') as Hge2.
  destruct (merge_left m1 bp k1 l1 (frees (bp + 8 * k1) l2') e) as (l1' & n & Hp1' & Hco1' & He1 & Hlen1 & Hab & Han & Hal1 & Hcl & Hb0' & Hpin & Hout2);
    try done; try lia.
  { apply (chain_ext (h_mem h)); [|done]. intros a [->|E]; apply Hh1; [lia|]. apply pick_ge in E; [unfold bp; lia | done]. }
  { rewrite <-Hb0. apply Hh1. lia. }
  { apply asc_pick; [done | lia]. }
  { apply pick_u32; try done; lia. }
  fold F1 in Hcl, Hb0', Hpin, Hout2. set (m2 := if hdr_add (lastp base F1) _ =? _ then _ else _) in *.
  assert (forall x, ~ list_hdr bl x -> ~ (bp <= x < bp + 8) -> m2 x = h_mem h x) as Hframe.
  { intros x Hx Hbx. rewrite Hout2; [by apply Hout1|]. intros Hpx. apply Hx. exists (lastp base F1). split; [|done].
    unfold bl. rewrite pick_app, map_app. destruct (lastp_cases base F1) as [E|E]; [by left | right; apply elem_of_app; by left]. }
  exists (mkHeap m2 (lastp base F1) (brk h)), (l1' ++ (true, n) :: l2'). cbn [h_mem freep brk].
  rewrite !pick_app. cbn [pick Bool.eqb fst snd]. rewrite Han, Hal1, Hal2. pose proof (lastp_ge base F1) as Hge.
  split; [done|]. split; [constructor; cbn [h_mem freep brk]|].
  - rewrite tend_app. cbn. by rewrite Han, Htend2.
  - done.
  - apply Forall_app. split; [done|]. apply Forall_cons. split; [cbn; lia | done].
  - by apply coalesced_join.
  - intros b Hb. rewrite pick_app in Hb. cbn [pick Bool.eqb fst snd] in Hb. rewrite Han, Hal1, Hal2 in Hb.
    assert (b ∈ allocs lo bl /\ (b.1 + 8 <= bp \/ bp + 8 <= b.1)) as [Hin Hd].
    { unfold bl. rewrite pick_app. cbn [pick Bool.eqb fst snd]. apply elem_of_app in Hb as [Hb|Hb].
      - pose proof (pick_range _ _ _ _ Hp1 Hb) as Hr. fold bp in Hr. split; [apply elem_of_app; by left | lia].
      - pose proof (pick_range _ _ _ _ Hp2 Hb) as Hr. split; [apply elem_of_app; right; by apply list_elem_of_further | lia]. }
    rewrite <-(Hal b); [|unfold bl in Hin; by rewrite pick_app in Hin].
    pose proof (pick_range _ _ _ _ Hpos Hin) as Hr. apply load32_ext. intros x Hx. apply Hframe; [|lia].
    intros (a & [->|(c & -> & Hc')%list_elem_of_fmap] & Hax); [lia|].
    pose proof (pick_disjoint lo bl b c Hpos Hin Hc'). pose proof (pick_range _ _ _ _ Hpos Hc'). lia.
  - right. rewrite pick_app. cbn [pick Bool.eqb fst snd]. rewrite Han. by split_and!.
  - split_and!; try done.
    + destruct (lastp_cases base F1) as [->|E]; [lia|]. apply pick_ge in E; [lia | done].
    + exists (tend lo l1', n). split; [apply elem_of_app; right; apply list_elem_of_here | cbn; lia].
    + unfold bl. rewrite !length_app. cbn. lia.
Qed.

(** *** Taking a block *)

(** What [malloc] does with the first block [p] that is large enough. *)
Definition hit (nunits prevp p : Z) (h : heap) : Z * heap :=
  let m := h_mem h in
  if h_size m p =? nunits then (hdr_add p 1, mkHeap (set_ptr m prevp (h_ptr m p)) prevp (brk h))
  else
    let m := set_size m p (u32 (h_size m p - nunits)) in
    let p := hdr_add p (h_size m p) in
    let m := set_size m p nunits in
    (hdr_add p 1, mkHeap m prevp (brk h)).

Lemma frees_split bl F1 b F2 : forall lo,
  frees lo bl = F1 ++ b :: F2 ->
  exists l1 l2, bl = l1 ++ (true, b.2) :: l2 /\ tend lo l1 = b.1 /\ frees lo l1 = F1 /\ frees (b.1 + 8 * b.2) l2 = F2.
Proof.
  revert F1. induction bl as [|[[] n] bl IH]; intros F1 lo0 E; cbn in E; [by destruct F1| |].
  - destruct F1 as [|c F1]; injection E as <- E.
    + by exists [], bl.
    + destruct (IH F1 _ E) as (l1 & l2 & -> & H1 & H2 & H3). exists ((true, n) :: l1), l2. cbn. by rewrite H2.
  - destruct (IH F1 _ E) as (l1 & l2 & -> & H1 & H2 & H3). by exists ((false, n) :: l1), l2.
Qed.

(** A block in use has no byte in the headers of the list. *)
Lemma alloc_not_hdr bl b x :
  Forall (fun t : tile => 0 < t.2) bl -> b ∈ allocs lo bl -> b.1 <= x < b.1 + 8 * b.2 -> ~ list_hdr bl x.
Proof.
  intros Hp Hb Hx (a & [->|(c & -> & Hc)%list_elem_of_fmap] & Ha); pose proof (pick_range _ _ _ _ Hp Hb); [lia|].
  pose proof (pick_disjoint _ _ _ _ Hp Hb Hc). pose proof (pick_range _ _ _ _ Hp Hc). lia.
Qed.

Lemma allocs_split l1 t l2 b :
  b ∈ allocs lo (l1 ++ t :: l2) -> t.1 = true -> b ∈ allocs lo l1 \/ b ∈ allocs (tend lo l1 + 8 * t.2) l2.
Proof. intros Hb Ht. rewrite pick_app in Hb. destruct t; cbn in *; subst. by apply elem_of_app in Hb. Qed.

Lemma coalesced_take l1 a c n l2 :
  coalesced (l1 ++ (true, a) :: l2) -> coalesced (l1 ++ (false, n) :: l2) /\ coalesced (l1 ++ (true, c) :: (false, n) :: l2).
Proof.
  induction l1 as [|t l1 IH]; cbn.
  - intros [H1 H2]. split_and!; try done; destruct l2; try done; by intros [].
  - intros [H1 H2]. destruct (IH H2) as [K1 K2]. split; (split; [|done]); destruct l1; cbn in *; try done; tauto.
Qed.

(** The end of a block of the list becomes a block in use. *)
Lemma taken_ok h l1 k l2 nunits (pre : list tile) m' prevp :
  heap_ok h (l1 ++ (true, k) :: l2) -> 0 < nunits ->
  (pre = [] /\ k = nunits \/ pre = [(true, k - nunits)] /\ nunits < k) ->
  let a := tend lo l1 + 8 * (k - nunits) in
  let bl' := l1 ++ pre ++ (false, nunits) :: l2 in
  (forall x, ~ list_hdr (l1 ++ (true, k) :: l2) x -> ~ (a <= x < a + 8) -> m' x = h_mem h x) ->
  h_size m' a = nunits -> chain m' base (frees lo bl') base -> h_size m' base = 0 -> prevp = base \/ prevp ∈ map fst (frees lo bl') ->
  heap_ok (mkHeap m' prevp (brk h)) bl' /\ prevp <> 0 /\ allocs lo bl' ≡ₚ (a, nunits) :: allocs lo (l1 ++ (true, k) :: l2).
Proof.
  intros [Hbrk Htop Hpos Hco Hal _] Hn Hpre a bl' Hout Hsz Hc Hb0 Hprev. cbn [h_mem] in *.
  pose proof Hpos as [Hp1 [Hk Hp2]%Forall_cons]%Forall_app. cbn in Hk.
  assert (tend (tend lo l1) pre = a /\ allocs (tend lo l1) pre = [] /\ Forall (fun t : tile => 0 < t.2) pre) as (Ht & Hna & Hpp).
  { unfold a. destruct Hpre as [[-> ->]|[-> Hlt]]; cbn; split_and!; try done; try lia. apply Forall_cons. split; [cbn; lia | done]. }
  assert (Forall (fun t : tile => 0 < t.2) bl') as Hpos'.
  { apply Forall_app. split; [done|]. apply Forall_app. split; [done|]. by apply Forall_cons. }
  assert (allocs lo bl' ≡ₚ (a, nunits) :: allocs lo (l1 ++ (true, k) :: l2)) as Hperm.
  { unfold bl'. rewrite !pick_app, Ht, Hna. cbn [pick Bool.eqb fst snd app]. replace (a + 8 * nunits) with (tend lo l1 + 8 * k) by (unfold a; lia).
    symmetry. apply Permutation_middle. }
  assert (prevp <> 0) as Hnz by (destruct Hprev as [->|E]; [lia|]; apply pick_ge in E; [lia | done]).
  split; [|done]. constructor; cbn [h_mem freep brk]; try done.
  - rewrite <-Hbrk. unfold bl'. rewrite !tend_app. cbn. rewrite Ht. f_equal. unfold a. lia.
  - destruct (coalesced_take l1 k (k - nunits) nunits l2 Hco). by destruct Hpre as [[-> _]|[-> _]].
  - intros b Hb. rewrite Hperm in Hb. apply elem_of_cons in Hb as [->|Hb]; [done|]. rewrite <-(Hal b Hb).
    pose proof (pick_range _ _ _ _ Hpos Hb) as Hr.
    assert ((tend lo l1, k) ∈ frees lo (l1 ++ (true, k) :: l2)) as Hfb
      by (rewrite pick_app; apply elem_of_app; right; apply list_elem_of_here).
    pose proof (pick_disjoint _ _ _ _ Hpos Hb Hfb) as Hd. cbn in Hd.
    apply load32_ext. intros x Hx. apply Hout; [apply (alloc_not_hdr _ b); [done | done | lia] | unfold a; lia].
  - right. done.
Qed.

Lemma hit_ok h bl F1 b F2 nunits :
  heap_ok h bl -> chain (h_mem h) base (frees lo bl) base -> h_size (h_mem h) base = 0 ->
  frees lo bl = F1 ++ b :: F2 -> 0 < nunits <= b.2 ->
  let '(r, h') := hit nunits (lastp base F1) b.1 h in
  exists bl', heap_ok h' bl' /\ freep h' <> 0 /\ brk h' = brk h /\
    allocs lo bl' ≡ₚ (r - 8, nunits) :: allocs lo bl /\ b.1 <= r - 8 /\ r - 8 + 8 * nunits = b.1 + 8 * b.2 /\
    (forall x, ~ list_hdr bl x -> ~ (r - 8 <= x < r) -> h_mem h' x = h_mem h x).
Proof.
  intros Hok Hc Hb0 EF Hn. pose proof Hok as [Hbrk Htop Hpos Hco Hal _].
  destruct (frees_split _ _ _ _ _ EF) as (l1 & l2 & -> & Hb1 & HF1 & HF2).
  pose proof Hpos as [Hp1 [Hk Hp2]%Forall_cons]%Forall_app. cbn in Hk.
  pose proof (tend_ge lo l1 Hp1) as Hlo. rewrite tend_app in Hbrk. cbn in Hbrk. rewrite Hb1 in Hbrk. pose proof (tend_ge (b.1 + 8 * b.2) l2 Hp2) as Hhi.
  rewrite EF in Hc. pose proof (asc_pick true base lo _ Hpos base_lo) as Ha. rewrite EF in Ha.
  destruct (asc_app _ _ _ _ Ha) as (Hbb & Ha2 & Ha1 & Hprev). pose proof Hc as (Hc1 & Hsz & Hc2)%chain_app.
  assert (base <= lastp base F1) as Hlp by (by apply lastp_ge).
  assert (forall G, lastp base F1 = base \/ lastp base F1 ∈ map fst (F1 ++ G)) as Hpl.
  { intros G. rewrite map_app. destruct (lastp_cases base F1) as [E|E]; [by left | right; apply elem_of_app; by left]. }
  pose proof (Hpl (b :: F2)) as Hprevl. rewrite <-EF in Hprevl.
  assert (b.1 ∈ map fst (frees lo (l1 ++ (true, b.2) :: l2))) as Hbin.
  { rewrite EF, map_app. apply elem_of_app. right. apply list_elem_of_here. }
  unfold hit, hdr_add. rewrite Hsz. destruct (Z.eqb_spec b.2 nunits) as [En|En].
  - (* the whole block *)
    assert (0 <= h_ptr (h_mem h) b.1 < 2 ^ 32) as Hv.
    { apply (chain_ptr_range _ _ _ base Hc2); [lia|]. rewrite <-HF2. apply pick_u32; try done; lia. }
    destruct (taken_ok h l1 b.2 l2 nunits [] (set_ptr (h_mem h) (lastp base F1) (h_ptr (h_mem h) b.1)) (lastp base F1)) as (K1 & K2 & K3);
    rewrite ?Hb1; try done; try lia; [by left | | | | | |].
    + intros x Hx _. apply store32_out. pose proof (hdr_in _ _ _ Hprevl Hx). lia.
    + replace (b.1 + 8 * (b.2 - nunits)) with b.1 by lia. rewrite <-En, <-Hsz. apply store_hdr. lia.
    + rewrite pick_app. cbn [app pick Bool.eqb fst snd]. rewrite HF1, Hb1, <-En, HF2.
      apply (chain_join _ _ _ _ (h_ptr (h_mem h) b.1)); [by apply (chain_set_last _ _ _ b.1)|].
      apply (chain_restart (h_mem h) _ b.1); [done | by apply set_ptr_get |]. intros c Hin. apply store_hdr.
      pose proof (asc_in _ _ _ Ha2 Hin). lia.
    + rewrite <-Hb0. destruct (decide (lastp base F1 = base)) as [->|Hne]; [by apply set_ptr_get|]. apply store_hdr.
      destruct (lastp_cases base F1) as [E|E]; [done|]. pose proof (asc_in _ _ _ Ha1 E). lia.
    + rewrite pick_app, HF1. apply Hpl.
    + cbn [app] in *. rewrite Hb1 in K3. replace (b.1 + 8 * (b.2 - nunits)) with b.1 in K3 by lia. rewrite u32_small by lia.
      replace (b.1 + 8 * 1 - 8) with b.1 by lia. eexists. split; [exact K1|]. cbn [freep brk h_mem]. split_and!; try done; try lia.
      intros x Hx _. apply store32_out. pose proof (hdr_in _ _ _ Hprevl Hx). lia.
  - (* its end *)
    rewrite (u32_small (b.2 - nunits)) by lia. set (ms := set_size (h_mem h) b.1 (b.2 - nunits)).
    destruct (set_size_get (h_mem h) b.1 (b.2 - nunits)) as [S1 S2]; [lia|]. fold ms in S1, S2. rewrite S1, u32_small by lia.
    set (q := b.1 + 8 * (b.2 - nunits)). destruct (set_size_get ms q nunits) as [T1 T2]; [lia|].
    assert (forall x, ~ (b.1 <= x < b.1 + 8) -> ~ (q <= x < q + 8) -> set_size ms q nunits x = h_mem h x) as Hout.
    { intros x Hx Hq. unfold ms, set_size. rewrite !store32_out by lia. done. }
    assert (forall a, a + 8 <= b.1 \/ b.1 + 8 * b.2 <= a -> hdr_same (h_mem h) (set_size ms q nunits) a) as Hh.
    { intros a Hd. split; apply load32_ext; intros x Hx; apply Hout; unfold q; lia. }
    assert (hdr_same ms (set_size ms q nunits) b.1) as [Hq1 Hq2] by (apply store_hdr; unfold q; lia).
    destruct (taken_ok h l1 b.2 l2 nunits [(true, b.2 - nunits)] (set_size ms q nunits) (lastp base F1)) as (K1 & K2 & K3);
    rewrite ?Hb1; try done; try lia; [right; split; [done | lia] | | | | |].
    + intros x Hx Hq. apply Hout; [|done]. exact (hdr_in _ b.1 _ (or_intror Hbin) Hx).
    + rewrite pick_app. cbn [app pick Bool.eqb fst snd]. rewrite HF1, Hb1. replace (b.1 + 8 * (b.2 - nunits) + 8 * nunits) with (b.1 + 8 * b.2) by lia.
      rewrite HF2. apply chain_app. cbn [fst snd]. split_and!; [|by rewrite Hq2|].
      * apply (chain_ext (h_mem h)); [|done]. intros a [->|E]; apply Hh; [lia|].
        rewrite <-HF1 in E. apply pick_ge in E as [_ E]; [lia | done].
      * apply (chain_restart (h_mem h) _ b.1); [done | by rewrite Hq1 |]. intros a Hin. apply Hh. right.
        rewrite <-HF2 in Hin. apply pick_ge in Hin; [lia | done].
    + rewrite <-Hb0. apply Hh. lia.
    + rewrite pick_app, HF1. apply Hpl.
    + rewrite Hb1 in K3. fold q in K3. rewrite u32_small by (unfold q; lia). replace (q + 8 * 1 - 8) with q by lia.
      eexists. split; [exact K1|]. cbn [freep brk h_mem]. split_and!; try done; try (unfold q; lia).
      intros x Hx Hq. apply Hout; [|lia]. exact (hdr_in _ b.1 _ (or_intror Hbin) Hx).
Qed.

(** *** The search of [malloc] *)

(** What [malloc_loop] does when it comes back to [freep]. *)
Definition grow_and_retry (f : nat) (nunits : Z) (h : heap) : option (Z * heap) :=
  r ← morecore fits f nunits h;
  let '(p, h) := r in
  if p =? 0 then Some (0, h) else malloc_loop fits f nunits p (h_ptr (h_mem h) p) h.

Lemma malloc_loop_eq f nunits prevp p h :
  malloc_loop fits (S f) nunits prevp p h =
  if nunits <=? h_size (h_mem h) p then Some (hit nunits prevp p h)
  else if p =? freep h then grow_and_retry f nunits h
  else malloc_loop fits f nunits p (h_ptr (h_mem h) p) h.
Proof. cbn [malloc_loop]. unfold hit. destruct (nunits <=? _); [by destruct (_ =? nunits)|]. done. Qed.

(** Along a part of the list without [freep]. *)
Lemma scan_part fuel nunits h q G e :
  chain (h_mem h) q G e -> freep h ∉ map fst G -> (length G < fuel)%nat ->
  (exists G1 b G2, G = G1 ++ b :: G2 /\ nunits <= b.2 /\
     malloc_loop fits fuel nunits q (h_ptr (h_mem h) q) h = Some (hit nunits (lastp q G1) b.1 h)) \/
  (forall b, b ∈ G -> b.2 < nunits) /\
  malloc_loop fits fuel nunits q (h_ptr (h_mem h) q) h = malloc_loop fits (fuel - length G) nunits (lastp q G) e h.
Proof.
  revert q fuel. induction G as [|b G IH]; intros q fuel Hc Hf Hl.
  - right. cbn in *. rewrite Hc, Nat.sub_0_r. split; [|done]. by intros b ?%not_elem_of_nil.
  - cbn in Hc, Hl. destruct Hc as (Hq & Hs & Hc). destruct fuel as [|f]; [lia|]. rewrite malloc_loop_eq, Hq, Hs.
    cbn in Hf. apply not_elem_of_cons in Hf as [Hf1 Hf2].
    destruct (Z.leb_spec nunits b.2) as [Hle|Hgt]; [left; by exists [], b, G|].
    rewrite (proj2 (Z.eqb_neq b.1 (freep h))) by done.
    destruct (IH b.1 f Hc Hf2 ltac:(lia)) as [(G1 & c & G2 & -> & Hn & E)|[Hall E]].
    + left. by exists (b :: G1), c, G2.
    + right. rewrite E. split; [|done]. intros c [->|Hc']%elem_of_cons; [done | by apply Hall].
Qed.

(** All the way round from [freep]. *)
Lemma malloc_scan fuel nunits h F :
  chain (h_mem h) base F base -> asc base F -> h_size (h_mem h) base = 0 -> freep h = base \/ freep h ∈ map fst F ->
  0 < nunits -> (length F + 2 <= fuel)%nat ->
  (exists F1 b F2, F = F1 ++ b :: F2 /\ nunits <= b.2 /\
     malloc_loop fits fuel nunits (freep h) (h_ptr (h_mem h) (freep h)) h = Some (hit nunits (lastp base F1) b.1 h)) \/
  (forall b, b ∈ F -> b.2 < nunits) /\
  exists f, (fuel <= f + length F + 2)%nat /\
    malloc_loop fits fuel nunits (freep h) (h_ptr (h_mem h) (freep h)) h = grow_and_retry f nunits h.
Proof.
  intros Hc Ha Hb0 Hfp Hn Hfuel. assert (base ∉ map fst F) as Hnb by (intros E; pose proof (asc_in _ _ _ Ha E); lia).
  destruct Hfp as [Efp|(c & Efp & Hin)%list_elem_of_fmap].
  - destruct (scan_part fuel nunits h base F base Hc ltac:(by rewrite Efp) ltac:(lia)) as [H|[Hall E]].
    { left. by rewrite Efp. }
    right. split; [done|]. rewrite Efp, E. destruct (fuel - length F)%nat as [|f] eqn:Ef; [lia|]. exists f. split; [lia|].
    by rewrite malloc_loop_eq, Hb0, (proj2 (Z.leb_gt _ _)), Efp, Z.eqb_refl by lia.
  - apply list_elem_of_split in Hin as (F1 & F2 & ->). pose proof Hc as (Hc1 & Hsz & Hc2)%chain_app.
    destruct (asc_app _ _ _ _ Ha) as (Hcb & Ha2 & Ha1 & Hl1).
    assert (freep h ∉ map fst F2) as Hn2 by (intros E; rewrite Efp in E; pose proof (asc_in _ _ _ Ha2 E); lia).
    assert (freep h ∉ map fst F1) as Hn1.
    { intros (d & Ed & (G1 & G2 & ->)%list_elem_of_split)%list_elem_of_fmap. rewrite <-app_assoc in Ha. cbn in Ha.
      destruct (asc_app _ _ _ _ Ha) as (_ & Ha' & _ & _). destruct (asc_app _ _ _ _ Ha') as (Hd & _). lia. }
    rewrite length_app in Hfuel. cbn in Hfuel. rewrite <-Efp in Hc2.
    destruct (scan_part fuel nunits h (freep h) F2 base Hc2 Hn2 ltac:(lia)) as [(G1 & b & G2 & -> & Hb & E)|[Hall2 E]].
    { left. exists (F1 ++ c :: G1), b, G2. split; [by rewrite <-app_assoc|]. split; [done|]. rewrite E, lastp_app. cbn. by rewrite <-Efp. }
    rewrite E. destruct (fuel - length F2)%nat as [|f] eqn:Ef; [lia|].
    rewrite malloc_loop_eq, Hb0, (proj2 (Z.leb_gt _ _)), (proj2 (Z.eqb_neq _ _)) by lia.
    destruct (scan_part f nunits h base F1 c.1 Hc1 Hn1 ltac:(lia)) as [(G1 & b & G2 & -> & Hb & E')|[Hall1 E']].
    { left. exists G1, b, (G2 ++ c :: F2). split; [by rewrite <-app_assoc|]. done. }
    rewrite E'. destruct (f - length F1)%nat as [|f'] eqn:Ef'; [lia|]. rewrite malloc_loop_eq, Hsz.
    destruct (Z.leb_spec nunits c.2) as [Hle|Hgt].
    + left. by exists F1, c, F2.
    + right. rewrite Efp, Z.eqb_refl. split.
      * intros b [Hb|[->|Hb]%elem_of_cons]%elem_of_app; [by apply Hall1 | done | by apply Hall2].
      * exists f'. split; [rewrite length_app; cbn; lia | done].
Qed.

(** *** More memory *)

(** A new block at the end of the heap. *)
Lemma heap_ok_extend h bl nu :
  heap_ok h bl -> freep h <> 0 -> 0 < nu -> brk h + 8 * nu < 2 ^ 31 ->
  heap_ok (mkHeap (set_size (h_mem h) (brk h) nu) (freep h) (brk h + 8 * nu)) (bl ++ [(false, nu)]).
Proof.
  intros [Hbrk Htop Hpos Hco Hal Hfr] Hfp Hnu Hmax. destruct Hfr as [[E _]|(Hc & Hb0 & Hin)]; [done|].
  pose proof (tend_ge lo bl Hpos) as Hge.
  assert (forall a, a + 8 <= brk h -> hdr_same (h_mem h) (set_size (h_mem h) (brk h) nu) a) as Hh by (intros a Ha; apply store_hdr; lia).
  constructor; cbn [h_mem freep brk].
  - rewrite tend_app. cbn. lia.
  - done.
  - apply Forall_app. split; [done|]. by apply Forall_cons.
  - apply coalesced_snoc. split; [done|]. by intros [_ ?].
  - rewrite pick_app. cbn [pick Bool.eqb fst snd]. intros b [Hb|[->|Hb]%elem_of_cons]%elem_of_app.
    + rewrite <-(Hal b Hb). pose proof (pick_range _ _ _ _ Hpos Hb). apply Hh. lia.
    + cbn. rewrite Hbrk. apply set_size_get. pose proof (tend_ge lo bl Hpos). lia.
    + by apply not_elem_of_nil in Hb.
  - right. rewrite pick_app. cbn [pick Bool.eqb fst snd]. rewrite app_nil_r. split_and!; [| rewrite <-Hb0; apply Hh; lia | done].
    apply (chain_ext (h_mem h)); [|done]. intros a [->|Ha]; apply Hh; [lia|]. apply pick_ge in Ha; [lia | done].
Qed.

Lemma morecore_ok h bl nu fuel :
  heap_ok h bl -> freep h <> 0 -> 0 < nu -> 8 * nu < 2 ^ 31 -> (length bl + 3 <= fuel)%nat ->
  let new := brk h + 8 * Z.max nu 4096 in
  if (KERNBASE <=? new) || negb (fits new) then morecore fits fuel nu h = Some (0, h)
  else exists h' bl', morecore fits fuel nu h = Some (freep h', h') /\ freep h' <> 0 /\ heap_ok h' bl' /\ brk h' = new /\
    allocs lo bl' = allocs lo bl /\ (exists b, b ∈ frees lo bl' /\ nu <= b.2) /\ (length bl' <= length bl + 1)%nat /\
    (forall x, ~ list_hdr bl x -> x < brk h -> h_mem h' x = h_mem h x).
Proof.
  intros Hok Hfp Hnu Hmax Hfuel new. pose proof (ho_top _ _ Hok) as Htop. pose proof (tend_ge lo bl (ho_pos _ _ Hok)) as Hge. rewrite (ho_brk _ _ Hok) in Hge.
  unfold morecore. replace (if nu <? 4096 then 4096 else nu) with (Z.max nu 4096) by (destruct (Z.ltb_spec nu 4096); lia).
  set (n := Z.max nu 4096) in *. rewrite (u32_small (n * 8)), s32_small by lia. unfold sbrk.
  rewrite (proj2 (Z.ltb_lt 0 (n * 8))), (u32_small (brk h + n * 8)) by lia. replace (brk h + n * 8) with new by (unfold new; lia).
  destruct (Z.leb_spec KERNBASE new) as [Hk|Hk]; cbn [orb]; [done|]. rewrite (proj2 (Z.ltb_ge new (brk h))) by (unfold new; lia).
  destruct (fits new); cbn [negb]; [|done]. cbn [h_mem freep brk].
  rewrite (proj2 (Z.eqb_neq _ _)) by (change (u32 (-1)) with (2 ^ 32 - 1); lia).
  pose proof (heap_ok_extend h bl n Hok Hfp ltac:(lia) ltac:(unfold KERNBASE in Hk; lia)) as Hok1.
  destruct (free_block_ok _ bl n [] fuel Hok1 ltac:(cbn; lia)) as (h' & bl' & E & Hok' & Hnz & Hbrk' & Hal' & (b & Hb & Hbn) & Hlen & Hout).
  unfold hdr_add. rewrite u32_small by lia. rewrite (ho_brk _ _ Hok) in E. change (8 * 1) with 8. fold new in E. rewrite E. cbn [mbind option_bind].
  exists h', bl'. rewrite length_app in Hlen. cbn in Hlen. cbn [pick] in Hal'. rewrite app_nil_r in Hal'.
  split_and!; try done; [exists b; split; [done | lia] |]. intros x Hx Hxb. rewrite Hout.
  - apply store32_out. lia.
  - intros (a & Ha & Hax). apply Hx. exists a. rewrite pick_app in Ha. cbn [pick Bool.eqb fst snd] in Ha. by rewrite app_nil_r in Ha.
  - rewrite (ho_brk _ _ Hok). lia.
Qed.

(** *** The whole of [malloc] *)

(** The bytes of the blocks in use and of the rest of the program's data. *)
Definition user_same (bl : list tile) (m m' : mem) : Prop :=
  (forall b x, b ∈ allocs lo bl -> b.1 <= x < b.1 + 8 * b.2 -> m' x = m x) /\
  (forall x, x < lo -> ~ (base <= x < base + 8) -> m' x = m x).

Lemma not_list_hdr_low bl x : Forall (fun t : tile => 0 < t.2) bl -> x < lo -> ~ (base <= x < base + 8) -> ~ list_hdr bl x.
Proof. intros Hp Hx Hb (a & [->|Ha] & Hax); [done|]. apply pick_ge in Ha; [lia | done]. Qed.

Lemma hit_user_same h bl F1 b F2 nunits :
  heap_ok h bl -> chain (h_mem h) base (frees lo bl) base -> h_size (h_mem h) base = 0 ->
  frees lo bl = F1 ++ b :: F2 -> 0 < nunits <= b.2 ->
  exists r h' bl', hit nunits (lastp base F1) b.1 h = (r, h') /\ heap_ok h' bl' /\ freep h' <> 0 /\
    allocs lo bl' ≡ₚ (r - 8, nunits) :: allocs lo bl /\ user_same bl (h_mem h) (h_mem h').
Proof.
  intros Hok Hc Hb0 EF Hn. pose proof (hit_ok h bl F1 b F2 nunits Hok Hc Hb0 EF Hn) as H. destruct (hit _ _ _ _) as [r h'].
  destruct H as (bl' & H1 & H2 & H3 & H4 & H5 & H6 & H7). exists r, h', bl'. split_and!; try done.
  assert (b ∈ frees lo bl) as Hb by (rewrite EF; apply elem_of_app; right; apply list_elem_of_here).
  pose proof (pick_range _ _ _ _ (ho_pos _ _ Hok) Hb) as Hr. split.
  - intros c x Hcin Hx. apply H7; [by apply (alloc_not_hdr _ c); [apply Hok|..]|].
    pose proof (pick_disjoint _ _ _ _ (ho_pos _ _ Hok) Hcin Hb). lia.
  - intros x Hx Hbx. apply H7; [apply not_list_hdr_low; [apply Hok | done | done] | lia].
Qed.

Lemma malloc_loop_ok h bl nunits fuel :
  heap_ok h bl -> freep h <> 0 -> 0 < nunits -> 8 * nunits < 2 ^ 31 -> (2 * length bl + 8 <= fuel)%nat ->
  exists r h' bl', malloc_loop fits fuel nunits (freep h) (h_ptr (h_mem h) (freep h)) h = Some (r, h') /\ heap_ok h' bl' /\
    user_same bl (h_mem h) (h_mem h') /\
    (r = 0 /\ h' = h /\ bl' = bl /\ (forall b, b ∈ frees lo bl -> b.2 < nunits) /\
       (KERNBASE <= brk h + 8 * Z.max nunits 4096 \/ fits (brk h + 8 * Z.max nunits 4096) = false) \/
     allocs lo bl' ≡ₚ (r - 8, nunits) :: allocs lo bl).
Proof.
  intros Hok Hfp Hn Hmax Hfuel. pose proof Hok as [_ _ Hpos _ _ Hfr]. destruct Hfr as [[E _]|(Hc & Hb0 & Hin)]; [done|].
  pose proof (pick_length true lo bl) as Hlen.
  destruct (malloc_scan fuel nunits h (frees lo bl) Hc (asc_pick _ _ _ _ Hpos base_lo) Hb0 Hin Hn ltac:(lia))
    as [(F1 & b & F2 & EF & Hb & E)|(Hall & f & Hf & E)]; rewrite E.
  { destruct (hit_user_same h bl F1 b F2 nunits Hok Hc Hb0 EF ltac:(lia)) as (r & h' & bl' & -> & K1 & _ & K3 & K4).
    exists r, h', bl'. split_and!; try done. by right. }
  unfold grow_and_retry. pose proof (morecore_ok h bl nunits f Hok Hfp Hn Hmax ltac:(lia)) as Hm. cbv zeta in Hm.
  set (new := brk h + 8 * Z.max nunits 4096) in *. destruct ((KERNBASE <=? new) || negb (fits new)) eqn:Er.
  { rewrite Hm. cbn. exists 0, h, bl. split_and!; try done. left. split_and!; try done.
    apply orb_true_iff in Er as [Er|Er]; [left; lia | right; by apply negb_true_iff]. }
  destruct Hm as (h1 & bl1 & E1 & Hfp1 & Hok1 & Hbrk1 & Hal1 & (b0 & Hb0in & Hb0n) & Hlen1 & Hout1). rewrite E1. cbn [mbind option_bind].
  rewrite (proj2 (Z.eqb_neq _ _) Hfp1). pose proof Hok1 as [_ _ Hpos1 _ _ Hfr1]. destruct Hfr1 as [[E' _]|(Hc1 & Hb01 & Hin1)]; [done|].
  pose proof (pick_length true lo bl1) as Hlen1'.
  destruct (malloc_scan f nunits h1 (frees lo bl1) Hc1 (asc_pick _ _ _ _ Hpos1 base_lo) Hb01 Hin1 Hn ltac:(lia))
    as [(F1 & b & F2 & EF & Hb & E2)|(Hall1 & _)]; [|specialize (Hall1 _ Hb0in); lia]. rewrite E2.
  destruct (hit_user_same h1 bl1 F1 b F2 nunits Hok1 Hc1 Hb01 EF ltac:(lia)) as (r & h' & bl' & -> & K1 & _ & K3 & [K4 K5]).
  rewrite Hal1 in K3, K4. exists r, h', bl'. split_and!; try done; [|by right]. split.
  - intros c x Hcin Hx. rewrite (K4 c x Hcin Hx). apply Hout1; [by apply (alloc_not_hdr _ c)|].
    pose proof (pick_range _ _ _ _ Hpos Hcin). rewrite (ho_brk _ _ Hok) in *. lia.
  - intros x Hx Hbx. rewrite (K5 x Hx Hbx). apply Hout1; [by apply not_list_hdr_low|]. pose proof (tend_ge lo bl Hpos). rewrite (ho_brk _ _ Hok) in *. lia.
Qed.

Lemma malloc_ok h bl nbytes fuel :
  heap_ok h bl -> lo < 2 ^ 31 -> 0 <= nbytes < 2 ^ 31 - 16 -> (2 * length bl + 8 <= fuel)%nat ->
  let n := (nbytes + 7) / 8 + 1 in
  exists r h' bl', malloc base fits fuel nbytes h = Some (r, h') /\ heap_ok h' bl' /\ user_same bl (h_mem h) (h_mem h') /\
    (r = 0 /\ allocs lo bl' = allocs lo bl /\ brk h' = brk h /\ (forall b, b ∈ frees lo bl -> b.2 < n) /\
       (KERNBASE <= brk h + 8 * Z.max n 4096 \/ fits (brk h + 8 * Z.max n 4096) = false) \/
     allocs lo bl' ≡ₚ (r - 8, n) :: allocs lo bl).
Proof.
  intros Hok Hlo Hn Hfuel n. unfold malloc. replace (nbytes + 8 - 1) with (nbytes + 7) by lia.
  rewrite (u32_small (nbytes + 7)) by lia. fold n. assert (0 < n /\ 8 * n < 2 ^ 31) as [Hn0 Hn1] by (unfold n; zlia).
  rewrite (u32_small n) by lia. destruct (Z.eqb_spec (freep h) 0) as [E|E].
  - pose proof Hok as [Hbrk Htop Hpos Hco Hal Hfr].
    assert (bl = []) as ->.
    { destruct Hfr as [[_ H]|(_ & _ & [H|H])]; [done | lia|]. apply pick_ge in H; [lia | done]. }
    set (m1 := set_size (set_ptr (h_mem h) base base) base 0).
    assert (heap_ok (mkHeap m1 base (brk h)) []) as Hok1.
    { destruct (set_ptr_get (h_mem h) base base) as [S1 _]; [lia|].
      destruct (set_size_get (set_ptr (h_mem h) base base) base 0) as [T1 T2]; [lia|].
      constructor; cbn [h_mem freep brk]; try done; [by intros b ?%not_elem_of_nil|]. right. split_and!; [cbn; unfold m1; by rewrite T2 | done | by left]. }
    destruct (malloc_loop_ok _ [] n fuel Hok1) as (r & h' & bl' & -> & K1 & [K2 K2'] & K3); try done; [cbn; lia|]. cbn [h_mem brk] in *.
    exists r, h', bl'. split; [done|]. split; [done|]. split.
    + split; [by intros b x ?%not_elem_of_nil|]. intros x Hx Hb. rewrite (K2' x Hx Hb). unfold m1, set_size, set_ptr. rewrite !store32_out by lia. done.
    + destruct K3 as [(K3 & -> & -> & K4 & K5)|K3]; [left; cbn [brk] in *; by split_and! | by right].
  - destruct (malloc_loop_ok h bl n fuel Hok E Hn0 Hn1 Hfuel) as (r & h' & bl' & -> & K1 & K2 & K3).
    exists r, h', bl'. split_and!; try done. destruct K3 as [(K3 & -> & -> & K4 & K5)|K3]; [left; by split_and! | by right].
Qed.

(** Blocks of a tiling are in order. *)
Lemma pick_order f bl L1 b L2 : forall lo, Forall (fun t : tile => 0 < t.2) bl -> pick f lo bl = L1 ++ b :: L2 ->
  forall c, c ∈ L1 ++ L2 -> b.1 + 8 * b.2 <= c.1 \/ c.1 + 8 * c.2 <= b.1.
Proof.
  revert L1. induction bl as [|[g n] bl IH]; intros L1 lo0 Hp E c Hc; cbn in E; [by destruct L1|]. apply Forall_cons in Hp as [Hn Hp]. cbn in Hn.
  destruct (Bool.eqb g f); [|by eapply IH]. destruct L1 as [|d L1]; injection E as <- E.
  - cbn in Hc. rewrite <-E in Hc. pose proof (pick_range _ _ _ _ Hp Hc). cbn. lia.
  - apply elem_of_cons in Hc as [->|Hc]; [|by eapply IH].
    assert (b ∈ pick f (lo0 + 8 * n) bl) as Hb by (rewrite E; apply elem_of_app; right; apply list_elem_of_here).
    pose proof (pick_range _ _ _ _ Hp Hb). cbn. lia.
Qed.

Lemma new_block_apart bl b rest :
  Forall (fun t : tile => 0 < t.2) bl -> allocs lo bl ≡ₚ b :: rest ->
  lo <= b.1 /\ b.1 + 8 * b.2 <= tend lo bl /\ forall c, c ∈ rest -> b.1 + 8 * b.2 <= c.1 \/ c.1 + 8 * c.2 <= b.1.
Proof.
  intros Hp Hperm. assert (b ∈ allocs lo bl) as Hb by (rewrite Hperm; apply list_elem_of_here).
  pose proof (pick_range _ _ _ _ Hp Hb). split_and!; [lia | lia|]. intros c Hc.
  apply list_elem_of_split in Hb as (L1 & L2 & E). apply (pick_order false bl L1 b L2 lo Hp E).
  rewrite E in Hperm. rewrite <-Permutation_middle in Hperm. apply Permutation_cons_inv in Hperm. by rewrite Hperm.
Qed.

(** Bytes the program may write: its other data, and blocks in use behind
    their headers. *)
Definition user_byte (bl : list tile) (x : Z) : Prop :=
  x < lo /\ ~ (base <= x < base + 8) \/ exists b, b ∈ allocs lo bl /\ b.1 + 8 <= x < b.1 + 8 * b.2.

Lemma user_writes_ok h bl m' : heap_ok h bl -> (forall x, ~ user_byte bl x -> m' x = h_mem h x) -> heap_ok (mkHeap m' (freep h) (brk h)) bl.
Proof.
  intros [Hbrk Htop Hpos Hco Hal Hfr] Hm.
  assert (forall a, a = base \/ a ∈ map fst (frees lo bl) -> hdr_same (h_mem h) m' a) as Hl.
  { intros a Ha. assert (forall x, a <= x < a + 8 -> m' x = h_mem h x) as H; [|split; apply load32_ext; intros; apply H; lia].
    intros x Hx. apply Hm. intros [[H1 H2]|(b & Hb & Hbx)].
    - apply (not_list_hdr_low bl x Hpos H1 H2). by exists a.
    - apply (alloc_not_hdr bl b x Hpos Hb); [lia | by exists a]. }
  constructor; cbn [h_mem freep brk]; try done.
  - intros b Hb. rewrite <-(Hal b Hb). pose proof (pick_range _ _ _ _ Hpos Hb) as Hr. apply load32_ext. intros x Hx. apply Hm.
    intros [[H1 H2]|(c & Hc & Hcx)]; [lia|]. destruct (decide (b = c)) as [->|Hne]; [lia|].
    destruct (list_elem_of_split _ _ Hb) as (L1 & L2 & E).
    assert (c ∈ L1 ++ L2) as Hc'. { rewrite E in Hc. rewrite elem_of_app, elem_of_cons in Hc. rewrite elem_of_app. naive_solver. }
    pose proof (pick_order false bl L1 b L2 lo Hpos E c Hc'). lia.
  - destruct Hfr as [?|(Hc & Hb0 & Hin)]; [by left|]. right. split_and!; [| |done].
    + by apply (chain_ext (h_mem h)).
    + rewrite <-Hb0. apply Hl. by left.
Qed.

(** C36: The allocator of the user library hands out memory that nobody else
    uses.  The heap starts empty; in a heap that satisfies the invariant, with
    free blocks and blocks in use tiling it:
    - [malloc] of up to 2 GiB (less 16 bytes) returns; its result is null only
      if no free block is large enough and the kernel refuses to grow the
      process, and nothing is in use then that was not before; otherwise it is
      a block of the heap of at least the size asked for, which overlaps no
      block in use;
    - [free] of a block in use returns, and takes exactly it out of use;
    - neither changes a byte of another block in use or of other data;
    - whatever the program writes to its blocks and its data, the invariant
      stays, and so it does after [malloc] and [free]. *)
Theorem malloc_free_correct h bl fuel :
  heap_ok h bl -> lo < 2 ^ 31 -> (2 * length bl + 8 <= fuel)%nat ->
  (forall nbytes, 0 <= nbytes < 2 ^ 31 - 16 ->
     exists r h' bl', malloc base fits fuel nbytes h = Some (r, h') /\ heap_ok h' bl' /\ user_same bl (h_mem h) (h_mem h') /\
       (r = 0 /\ allocs lo bl' = allocs lo bl /\ brk h' = brk h /\ (forall b, b ∈ frees lo bl -> 8 * b.2 < nbytes + 8) /\
          (exists new, brk h < new /\ (KERNBASE <= new \/ fits new = false)) \/
        exists n, nbytes + 8 <= 8 * n /\ allocs lo bl' ≡ₚ (r - 8, n) :: allocs lo bl /\
          lo <= r - 8 /\ r - 8 + 8 * n <= brk h' /\ forall c, c ∈ allocs lo bl -> r - 8 + 8 * n <= c.1 \/ c.1 + 8 * c.2 <= r - 8)) /\
  (forall r n, (r - 8, n) ∈ allocs lo bl ->
     exists h' bl', free fuel r h = Some h' /\ heap_ok h' bl' /\ (r - 8, n) :: allocs lo bl' ≡ₚ allocs lo bl /\
       user_same bl' (h_mem h) (h_mem h')) /\
  (forall m', (forall x, ~ user_byte bl x -> m' x = h_mem h x) -> heap_ok (mkHeap m' (freep h) (brk h)) bl).
Proof.
  intros Hok Hlo Hfuel. split_and!; [| |by intros; apply user_writes_ok].
  - intros nbytes Hn. destruct (malloc_ok h bl nbytes fuel Hok Hlo Hn Hfuel) as (r & h' & bl' & E & K1 & K2 & K3).
    exists r, h', bl'. split_and!; try done. destruct K3 as [(-> & K3 & K4 & K5 & K6)|K3]; [left | right].
    + split_and!; try done.
      * intros b Hb. apply K5 in Hb. zlia.
      * eexists. split; [|exact K6]. lia.
    + eexists. split; [|split; [exact K3|]]; [zlia|]. rewrite <-(ho_brk _ _ K1). exact (new_block_apart bl' _ _ (ho_pos _ _ K1) K3).
  - intros r n Hr. pose proof (pick_split false lo bl _ Hr) as (l1 & l2 & -> & E). cbn [fst snd] in E, Hr.
    rewrite length_app in Hfuel. cbn in Hfuel.
    destruct (free_block_ok h l1 n l2 fuel Hok ltac:(lia)) as (h' & bl' & Ef & K1 & _ & _ & K2 & _ & _ & K3).
    replace (tend lo l1 + 8) with r in Ef by lia. exists h', bl'. split_and!; try done.
    + rewrite pick_app. cbn [pick Bool.eqb fst snd]. rewrite K2, E. apply Permutation_middle.
    + pose proof Hok as [_ _ Hpos _ _ _]. rewrite E in K2, K3.
      assert (allocs lo (l1 ++ (false, n) :: l2) ≡ₚ (r - 8, n) :: allocs lo bl') as Hperm
        by (rewrite K2, pick_app; cbn [pick Bool.eqb fst snd]; rewrite E; symmetry; apply Permutation_middle).
      destruct (new_block_apart _ _ _ Hpos Hperm) as (N1 & N2 & N3). cbn [fst snd] in N1, N2, N3. pose proof (pick_range _ _ _ _ Hpos Hr) as Hrr. cbn in Hrr. split.
      * intros b x Hb Hx. specialize (N3 b Hb). apply K3; [|lia]. apply (alloc_not_hdr _ b x Hpos); [|done].
        rewrite Hperm. by apply list_elem_of_further.
      * intros x Hx Hbx. apply K3; [by apply not_list_hdr_low | lia].
Qed.

Lemma heap_ok_init m : lo < 2 ^ 31 -> heap_ok (mkHeap m 0 lo) [].
Proof. intros H. constructor; cbn [h_mem freep brk tend]; try done; [by intros b ?%not_elem_of_nil | by left]. Qed.

End Proofs.

Lemma malloc_free_correct_witness :
  let h := mkHeap (fun _ => 0) 0 0x4000 in
  exists r h', malloc 0x100 (fun _ => true) 8 100 h = Some (r, h') /\ r = 0xbf98.
Proof.
  intros h. destruct (malloc_free_correct 0x100 0x4000 (fun _ => true) ltac:(lia) ltac:(lia) h [] 8) as (H & _ & _).
  - apply heap_ok_init; lia.
  - lia.
  - reflexivity.
  - destruct (H 100 ltac:(lia)) as (r & h' & bl' & E & _). exists r, h'. split; [exact E|].
    assert (option_map fst (malloc 0x100 (fun _ => true) 8 100 h) = Some 0xbf98) as Er by (vm_compute; reflexivity).
    rewrite E in Er. injection Er as Er. exact Er.
Defined.
