(* ===== verification/Wish.v ===== *)
(** The Linux shell, [linux-shell/wish.c].

    A line is turned into words with [strtok], then it is a built-in command,
    a conditional, or a program to run.  [main] is a function of the lines
    [getline] reads; what the shell does to the outside, the events, is a
    trace, on which everything the operating system answers may depend:
    [fork_ok], [access_x] ([access(path, X_OK) == 0]), [can_exec] ([execv] does
    not return) and [status] (the exit status of the child, [None] if it does
    not exit).

    [Undef] stands for the ends of a run that C or the system leave undefined:
    a store behind the end of an array, a null pointer used as a string, a
    status that was never set, and a child in which [execv] returns and which
    then goes on as a second shell on the same input.

    The theorem is that every line that spells a command does what the command
    says; the lemmas at the end are lines on which the shell goes wrong. *)

From S2P Require Import Prelude.

Abbreviation word := (list Z).

(** ** The C library *)

(** A C string ends at the first zero byte. *)
Fixpoint c_str (s : list Z) : list Z :=
  match s with [] => [] | c :: s' => if c =? 0 then [] else c :: c_str s' end.

Definition isin (d : list Z) (c : Z) : bool := existsb (Z.eqb c) d.
Arguments isin _ _ : simpl never.

Fixpoint skip_delims (d s : list Z) : list Z :=
  match s with [] => [] | c :: s' => if isin d c then skip_delims d s' else s end.

(** The characters up to the next delimiter, and what is after it. *)
Fixpoint until_delim (d s : list Z) : word * list Z :=
  match s with
  | [] => ([], [])
  | c :: s' => if isin d c then ([], s') else let '(w, r) := until_delim d s' in (c :: w, r)
  end.

(** [strtok]: the token, [None] for NULL, and where the next call goes on. *)
Definition strtok (d s : list Z) : option word * list Z :=
  match skip_delims d s with
  | [] => (None, [])
  | s1 => let '(w, r) := until_delim d s1 in (Some w, r)
  end.

(** [atoi] *)
Fixpoint digits_val (s : list Z) (n : Z) : Z :=
  match s with [] => n | c :: s' => if (48 <=? c) && (c <=? 57) then digits_val s' (n * 10 + (c - 48)) else n end.
Definition atoi_word (s : word) : Z :=
  match s with
  | c :: s' => if c =? 45 then - digits_val s' 0 else if c =? 43 then digits_val s' 0 else digits_val s 0
  | [] => 0
  end.

Definition word_eqb (a b : word) : bool := bool_decide (a = b).

(** ** The shell *)

Definition PATH_LEN : nat := 200.
Definition LINE_LEN : nat := 1000.
Definition NTOKS : nat := 128.
Definition NPATHS : nat := 50.
Definition TOK_LEN : nat := 100.
Definition CBIN_LEN : nat := 300.

Definition dlm : list Z := [32; 10; 9; 13; 12; 11].
Definition EXITCMD : word := [101; 120; 105; 116].
Definition CDCMD : word := [99; 100].
Definition PATHCMD : word := [112; 97; 116; 104].
Definition IFCMD : word := [105; 102].
Definition THEN : word := [116; 104; 101; 110].
Definition FI : word := [102; 105].
Definition EQ : word := [61; 61].
Definition NE : word := [33; 61].
Definition BIN : word := [47; 98; 105; 110].

Inductive wevent :=
| ErrMsg                                                  (* ERRMSG on standard error *)
| Prompt
| Chdir (dir : word)
| Child (cbin : word) (argv : list word) (rdout : word).  (* a program, its output in [rdout] unless empty *)

Record wish := mkWish { paths : list word; trace : list wevent }.

Inductive out (A : Type) := Go (a : A) | Exit (code : Z) | Undef (why : string).
Arguments Go {A} _.
Arguments Exit {A} _.
Arguments Undef {A} _.

Definition W (A : Type) : Type := wish -> wish * out A.

#[export] Instance W_ret : MRet W := fun A a s => (s, Go a).
#[export] Instance W_bind : MBind W := fun A B f m s =>
  match m s with
  | (s', Go a) => f a s'
  | (s', Exit c) => (s', Exit c)
  | (s', Undef y) => (s', Undef y)
  end.

Lemma W_bind_go {A B} (m : W A) (f : A -> W B) s a s' : m s = (s', Go a) -> (m ≫= f) s = f a s'.
Proof. unfold mbind, W_bind. by intros ->. Qed.

Definition undef {A} (why : string) : W A := fun s => (s, Undef why).
Definition w_exit {A} (code : Z) : W A := fun s => (s, Exit code).
Definition emit (e : wevent) : W unit := fun s => (mkWish (paths s) (trace s ++ [e]), Go tt).
Definition set_paths (p : list word) : W unit := fun s => (mkWish p (trace s), Go tt).
Definition get {A} (f : wish -> A) : W A := fun s => (s, Go (f s)).

(** [getTokens]: each token takes at least a character. *)
Fixpoint tokens (fuel : nat) (s : list Z) : list word :=
  match fuel with
  | O => []
  | S f => match strtok dlm s with (None, _) => [] | (Some w, r) => w :: tokens f r end
  end.
Definition getTokens (line : list Z) : list word := tokens (S (length line)) line.

(** [ltoks]: the array has [NTOKS] elements, the last for NULL. *)
Definition ltoks (line : list Z) : W (list word) :=
  let toks := getTokens line in
  if (length toks <? NTOKS)%nat then mret toks else undef "toks: too many tokens".

Definition findPos (toks : list word) (tok : word) : option nat := find_idx (word_eqb tok) toks.

(** [cbin] for a directory [p] of the path *)
Definition in_dir (p cmd : word) : word :=
  (if match last p with Some c => c =? 47 | None => false end then p else p ++ [47]) ++ cmd.

Section Wish.
Context (fork_ok : list wevent -> bool) (access_x : list wevent -> word -> bool).
Context (can_exec : list wevent -> word -> list word -> bool) (status : list wevent -> word -> list word -> word -> option Z).

(** [findCbin]: the empty string when no directory has the command. *)
Fixpoint findCbin (ps : list word) (cmd : option word) : W word :=
  match ps with
  | [] => mret []
  | p :: ps' =>
      match cmd with
      | None => undef "strcat: null"
      | Some cmd =>
          let cbin := in_dir p cmd in
          if (length cbin <? CBIN_LEN)%nat then
            t ← get trace;
            if access_x t cbin then mret cbin else findCbin ps' (Some cmd)
          else undef "cbin: overflow"
      end
  end.

(** [runCmd]: the exit status of the child, [None] if it was never set. *)
Definition runCmd (cbin : word) (toks : list word) (rdout : word) : W (option Z) :=
  t ← get trace;
  if negb (fork_ok t) then
    _ ← emit ErrMsg; w_exit 1
  else if negb (can_exec t cbin toks) then undef "execv returns: a second shell"
  else
    _ ← emit (Child cbin toks rdout);
    match status t cbin toks rdout with
    | Some rt => mret (Some rt)
    | None => _ ← emit ErrMsg; mret None
    end.

(** [strcpy] of each token into an element of 100 bytes *)
Definition copy_toks (toks : list word) : W (list word) :=
  if forallb (fun w : word => length w <? TOK_LEN)%nat toks then mret toks else undef "strcpy: overflow".

Definition if_cmd (toks : list word) : W unit :=
  let tnpos := findPos toks THEN in
  let fi1 := match findPos toks FI with Some p => S p | None => O end in
  match tnpos with
  | Some tn =>
      if bool_decide (is_Some (toks !! fi1)) then emit ErrMsg
      else if (tn <? 2)%nat then undef "toks: before the array"
      else
        let op := default [] (toks !! (tn - 2)%nat) in
        if negb (word_eqb op EQ) && negb (word_eqb op NE) then emit ErrMsg
        else
          ftoks ← copy_toks (take (tn - 3) (drop 1 toks));
          match drop (tn + 1) toks with
          | [] => undef "stoks: before the array"
          | l =>
              stoks ← copy_toks l;
              let stoks := take (length stoks - 1) stoks in
              ps ← get paths;
              cbin ← findCbin ps (head ftoks);
              ret ← runCmd cbin ftoks [];
              match ret with
              | None => undef "rt: not set"
              | Some ret =>
                  let n := atoi_word (default [] (toks !! (tn - 1)%nat)) in
                  if word_eqb op EQ && (ret =? n) || word_eqb op NE && negb (ret =? n) then
                    cbin ← findCbin ps (head stoks);
                    _ ← runCmd cbin stoks [];
                    mret tt
                  else mret tt
              end
          end
  | None => emit ErrMsg
  end.

Definition path_cmd (args : list word) : W unit :=
  if (length args <? NPATHS)%nat && forallb (fun w : word => length w <? PATH_LEN)%nat args then set_paths args
  else undef "paths: overflow".

(** The commands of a line without redirection. *)
Definition do_toks (toks : list word) (rdout : word) : W unit :=
  match toks with
  | [] => mret tt
  | t0 :: args =>
      if word_eqb t0 [] then mret tt
      else if word_eqb t0 EXITCMD then
        match args with [] => w_exit 0 | _ => emit ErrMsg end
      else if word_eqb t0 CDCMD then
        match args with [d] => emit (Chdir d) | _ => emit ErrMsg end
      else if word_eqb t0 PATHCMD then path_cmd args
      else if word_eqb t0 IFCMD then if_cmd toks
      else
        ps ← get paths;
        cbin ← findCbin ps (Some t0);
        if negb (word_eqb cbin []) then
          _ ← runCmd cbin toks rdout; mret tt
        else emit ErrMsg
  end.

(** The body of the loop of [main] after [getline]. *)
Definition do_line (line : list Z) : W unit :=
  let line := c_str line in
  if isin line 62 then
    let '(cmd, rest) := strtok [62] line in
    let '(rdout, rest) := strtok dlm rest in
    let '(more, _) := strtok dlm rest in
    if (match cmd with Some cmd => LINE_LEN <=? length cmd | None => false end)%nat then undef "lcp: overflow"
    else
      match rdout, more, cmd with
      | Some rdout, None, Some cmd =>
          if isin rdout 62 || (match strtok dlm cmd with (None, _) => true | _ => false end) then emit ErrMsg
          else toks ← ltoks cmd; do_toks toks rdout
      | _, _, _ => emit ErrMsg
      end
  else
    toks ← ltoks line; do_toks toks [].

Fixpoint main_loop (batch : bool) (lines : list (list Z)) : W unit :=
  match lines with
  | [] => _ ← (if batch then mret tt else emit Prompt); w_exit 0
  | line :: lines' =>
      _ ← (if batch then mret tt else emit Prompt);
      _ ← do_line line;
      main_loop batch lines'
  end.

(** [main(argc, argv)]; [script] is the readable file [argv[1]], if any. *)
Definition main (argc : Z) (script : option (list (list Z))) (stdin : list (list Z)) : wish * out unit :=
  let s0 := mkWish [] [] in
  if negb (argc =? 1) && negb (argc =? 2) then (_ ← emit ErrMsg; w_exit 1) s0
  else if 1 <? argc then
    match script with
    | Some lines => (_ ← set_paths [BIN]; main_loop true lines) s0
    | None => (_ ← emit ErrMsg; w_exit 1) s0
    end
  else (_ ← set_paths [BIN]; main_loop false stdin) s0.

End Wish.

(** ** Words *)

Definition delim (c : Z) : Prop := isin dlm c = true.
Definition is_word (w : word) : Prop := w <> [] /\ Forall (fun c => ~ delim c) w.

(** The line [s] consists of the words [ws] with white space between them. *)
Inductive spells : list Z -> list word -> Prop :=
| spells_nil ds : Forall delim ds -> spells ds []
| spells_cons ds w s ws : Forall delim ds -> is_word w -> (forall c s', s = c :: s' -> delim c) ->
    spells s ws -> spells (ds ++ w ++ s) (w :: ws).

#[export] Instance delim_dec c : Decision (delim c).
Proof. unfold delim. apply _. Defined.

Lemma delim_false c : ~ delim c <-> isin dlm c = false.
Proof. unfold delim. by rewrite not_true_iff_false. Qed.

Lemma skip_delims_app ds s : Forall delim ds -> skip_delims dlm (ds ++ s) = skip_delims dlm s.
Proof. induction 1 as [|c ds Hc Hds IH]; [done|]. unfold delim in Hc. cbn. by rewrite Hc. Qed.

Lemma skip_delims_all ds : Forall delim ds -> skip_delims dlm ds = [].
Proof. intros H. rewrite <-(app_nil_r ds). by rewrite skip_delims_app. Qed.

Lemma until_delim_word w s :
  Forall (fun c => ~ delim c) w -> (forall c s', s = c :: s' -> delim c) -> until_delim dlm (w ++ s) = (w, drop 1 s).
Proof.
  intros Hw Hs. induction Hw as [|c w Hc Hw IH]; cbn.
  - destruct s as [|c s]; [done|]. pose proof (Hs c s eq_refl) as Hc. unfold delim in Hc. cbn. by rewrite Hc.
  - apply delim_false in Hc. by rewrite Hc, IH.
Qed.

Lemma strtok_word ds w s :
  Forall delim ds -> is_word w -> (forall c s', s = c :: s' -> delim c) -> strtok dlm (ds ++ w ++ s) = (Some w, drop 1 s).
Proof.
  intros Hds [Hne Hw] Hs. unfold strtok. rewrite skip_delims_app by done. destruct w as [|c w]; [done|].
  pose proof Hw as [Hc _]%Forall_cons. apply delim_false in Hc.
  change ((c :: w) ++ s) with (c :: (w ++ s)). cbn [skip_delims]. rewrite Hc.
  change (c :: (w ++ s)) with ((c :: w) ++ s). by rewrite until_delim_word.
Qed.

Lemma strtok_none ds : Forall delim ds -> strtok dlm ds = (None, []).
Proof. intros H. unfold strtok. by rewrite skip_delims_all. Qed.

Lemma spells_tail s ws : spells s ws -> spells (drop 1 s) ws \/ exists c s', s = c :: s' /\ ~ delim c.
Proof.
  intros H. destruct H as [ds H|ds w s ws Hds Hw Hs H].
  - left. constructor. by apply Forall_drop.
  - destruct Hds as [|d ds Hd Hds].
    + right. destruct Hw as [Hne Hw]. destruct w as [|c w]; [done|]. exists c, (w ++ s). split; [done|]. apply Forall_cons in Hw. apply Hw.
    + left. change (drop 1 ((d :: ds) ++ w ++ s)) with (ds ++ w ++ s). by constructor.
Qed.

Lemma tokens_spells fuel s ws : spells s ws -> (length s < fuel)%nat -> tokens fuel s = ws.
Proof.
  revert s ws. induction fuel as [|f IH]; intros s ws H Hf; [lia|]. cbn [tokens]. destruct H as [ds H|ds w s ws Hds Hw Hs H].
  - by rewrite strtok_none.
  - rewrite strtok_word by done. f_equal. apply IH.
    + destruct (spells_tail s ws H) as [Ht|(c & s' & -> & Hc)]; [done|]. destruct Hc. by eapply Hs.
    + rewrite !length_app in Hf. rewrite length_drop. destruct Hw as [Hne _]. destruct w; [done|]. cbn in Hf. lia.
Qed.

Lemma getTokens_spells s ws : spells s ws -> getTokens s = ws.
Proof. intros H. apply tokens_spells; [done | lia]. Qed.

(** Every line spells its tokens. *)
Lemma spells_total s : exists ws, spells s ws.
Proof.
  induction s as [|c s [ws IH]]; [exists []; constructor; constructor|]. destruct (decide (delim c)) as [Hc|Hc].
  - destruct IH as [ds H|ds w s ws Hds Hw Hs H].
    + exists []. constructor. by constructor.
    + exists (w :: ws). apply (spells_cons (c :: ds)); [by constructor | done..].
  - destruct IH as [ds H|ds w s ws Hds Hw Hs H].
    + exists [[c]]. apply (spells_cons [] [c] ds); [done | | | by constructor].
      * split; [done|]. by constructor.
      * intros d s' ->. apply Forall_cons in H. apply H.
    + destruct Hds as [|d ds Hd Hds].
      * exists ((c :: w) :: ws). apply (spells_cons [] (c :: w) s); try done. destruct Hw as [_ Hw]. split; [done|]. by constructor.
      * exists ([c] :: w :: ws). apply (spells_cons [] [c] ((d :: ds) ++ w ++ s)); [done | | | ].
        -- split; [done|]. by constructor.
        -- intros e s' [= -> _]. done.
        -- apply (spells_cons (d :: ds)); [by constructor | done..].
Qed.

(** Words in a spelled line have the characters of the line. *)
Lemma spells_chars s ws (P : Z -> Prop) : spells s ws -> Forall P s -> Forall (Forall P) ws.
Proof.
  induction 1 as [ds H|ds w s ws Hds Hw Hs H IH]; intros HP; [constructor|]. rewrite !Forall_app in HP. destruct HP as (_ & H1 & H2).
  constructor; [done | by apply IH].
Qed.

(** ** What lines do *)

Section Lines.
Context (fork_ok : list wevent -> bool) (access_x : list wevent -> word -> bool).
Context (can_exec : list wevent -> word -> list word -> bool) (status : list wevent -> word -> list word -> word -> option Z).

(** [cbin] is the first executable file [cmd] in the directories [ps]. *)
Definition resolves (t : list wevent) (ps : list word) (cmd cbin : word) : Prop :=
  exists ps1 p ps2, ps = ps1 ++ p :: ps2 /\ cbin = in_dir p cmd /\ access_x t cbin = true /\
    Forall (fun q => access_x t (in_dir q cmd) = false) ps1.

Definition unresolved (t : list wevent) (ps : list word) (cmd : word) : Prop :=
  Forall (fun q => access_x t (in_dir q cmd) = false) ps.

Definition short (ps : list word) (cmd : word) : Prop := Forall (fun q => length (in_dir q cmd) < CBIN_LEN)%nat ps.

Lemma findCbin_none s ps cmd : unresolved (trace s) ps cmd -> short ps cmd -> findCbin access_x ps (Some cmd) s = (s, Go []).
Proof.
  induction ps as [|p ps IH]; intros Hu Hs; [done|]. apply Forall_cons in Hu as [Hp Hu]. apply Forall_cons in Hs as [Hl Hs].
  cbn [findCbin]. rewrite (proj2 (Nat.ltb_lt _ _) Hl). unfold mbind, W_bind, get. rewrite Hp. by apply IH.
Qed.

Lemma findCbin_found s ps cmd cbin : resolves (trace s) ps cmd cbin -> short ps cmd -> findCbin access_x ps (Some cmd) s = (s, Go cbin).
Proof.
  intros (ps1 & p & ps2 & -> & Hc & Ha & H1) Hs. induction H1 as [|q ps1 Hq H1 IH].
  - cbn [app] in *. apply Forall_cons in Hs as [Hl _]. cbn [findCbin]. rewrite <-Hc in *. rewrite (proj2 (Nat.ltb_lt _ _) Hl).
    unfold mbind, W_bind, get. by rewrite Ha.
  - cbn [app] in *. apply Forall_cons in Hs as [Hl Hs]. cbn [findCbin]. rewrite (proj2 (Nat.ltb_lt _ _) Hl).
    unfold mbind, W_bind, get. rewrite Hq. by apply IH.
Qed.

Lemma resolves_nonempty t ps cmd cbin : resolves t ps cmd cbin -> cmd <> [] -> cbin <> [].
Proof. intros (ps1 & p & ps2 & _ & -> & _) Hc E. unfold in_dir in E. apply app_eq_nil in E as [_ E]. done. Qed.

(** The events of a child that runs. *)
Definition ran (t : list wevent) (cbin : word) (argv : list word) (rdout : word) : list wevent :=
  Child cbin argv rdout :: match status t cbin argv rdout with Some _ => [] | None => [ErrMsg] end.

Lemma runCmd_ok s cbin argv rdout :
  fork_ok (trace s) = true -> can_exec (trace s) cbin argv = true ->
  runCmd fork_ok can_exec status cbin argv rdout s =
    (mkWish (paths s) (trace s ++ ran (trace s) cbin argv rdout), Go (status (trace s) cbin argv rdout)).
Proof.
  intros Hf Hc. unfold runCmd, ran, mbind, W_bind, get, emit, mret, W_ret. rewrite Hf, Hc. cbn.
  destruct (status _ _ _ _); cbn; [done|]. by rewrite <-app_assoc.
Qed.

(** *** Redirection *)

Definition plain_char (c : Z) : Prop := c <> 0 /\ c <> 62.

Lemma c_str_id s : Forall (fun c => c <> 0) s -> c_str s = s.
Proof. induction 1 as [|c s Hc Hs IH]; [done|]. cbn. by rewrite (proj2 (Z.eqb_neq _ _) Hc), IH. Qed.

Lemma isin_spec d c : isin d c = true <-> c ∈ d.
Proof.
  unfold isin. rewrite existsb_exists. split.
  - intros (x & Hx & ->%Z.eqb_eq). by apply list_elem_of_In.
  - intros H. exists c. split; [by apply list_elem_of_In | apply Z.eqb_refl].
Qed.

Lemma isin_gt s : Forall plain_char s -> isin s 62 = false.
Proof. intros H. apply not_true_iff_false. rewrite isin_spec. intros Hin. rewrite Forall_forall in H. by apply H in Hin as [_ ?]. Qed.

(** The part of the line before the first [>]. *)
Lemma strtok_gt s r : Forall plain_char s -> s <> [] -> strtok [62] (s ++ 62 :: r) = (Some s, r).
Proof.
  intros Hs Hne. assert (forall c, plain_char c -> isin [62] c = false) as Hc.
  { intros c [_ Hc]. apply not_true_iff_false. rewrite isin_spec. by intros ?%list_elem_of_singleton. }
  unfold strtok. destruct s as [|c s]; [done|]. pose proof Hs as [H1 _]%Forall_cons.
  cbn [app skip_delims]. rewrite (Hc c H1). change (c :: s ++ 62 :: r) with ((c :: s) ++ 62 :: r).
  enough (until_delim [62] ((c :: s) ++ 62 :: r) = (c :: s, r)) as -> by done. clear H1 Hne.
  induction Hs as [|d l Hd Hl IH]; [done|]. cbn [app until_delim]. by rewrite (Hc d Hd), IH.
Qed.

(** A line with the words [argv], and the file [rdout] after a [>] unless it
    is empty. *)
Inductive command_line : list Z -> list word -> word -> Prop :=
| cl_plain s argv : spells s argv -> Forall plain_char s -> command_line s argv []
| cl_redir s r argv f : spells s argv -> argv <> [] -> Forall plain_char s -> (length s < LINE_LEN)%nat ->
    spells r [f] -> Forall plain_char r -> command_line (s ++ 62 :: r) argv f.

Lemma plain_nonzero s : Forall plain_char s -> Forall (fun c => c <> 0) s.
Proof. intros H. eapply Forall_impl; [exact H|]. by intros c [Hc _]. Qed.

Lemma spells_cons_inv s w ws : spells s (w :: ws) ->
  exists r, strtok dlm s = (Some w, r) /\ spells r ws.
Proof.
  intros H. inversion H as [|ds w' s' ws' Hds Hw Hs Hsp]; subst. exists (drop 1 s'). split; [by apply strtok_word|].
  destruct (spells_tail s' ws Hsp) as [?|(c & s'' & -> & Hc)]; [done|]. destruct Hc. by eapply Hs.
Qed.

Lemma spells_nil_inv s : spells s [] -> strtok dlm s = (None, []).
Proof. intros H. inversion H; subst. by apply strtok_none. Qed.

Lemma do_line_words line argv rdout s :
  command_line line argv rdout -> (length argv < NTOKS)%nat ->
  do_line fork_ok access_x can_exec status line s = do_toks fork_ok access_x can_exec status argv rdout s.
Proof.
  intros Hl Hn. apply Nat.ltb_lt in Hn. destruct Hl as [l argv Hsp Hp | l r argv f Hsp Hne Hp Hlen Hr Hpr]; unfold do_line.
  - rewrite c_str_id by (by apply plain_nonzero). rewrite isin_gt by done. unfold ltoks. rewrite (getTokens_spells _ _ Hsp), Hn. done.
  - rewrite c_str_id by (apply Forall_app; split; [by apply plain_nonzero | constructor; [lia | by apply plain_nonzero]]).
    replace (isin (l ++ 62 :: r) 62) with true by (symmetry; apply isin_spec, elem_of_app; right; apply list_elem_of_here).
    destruct argv as [|w ws]; [done|]. destruct (spells_cons_inv _ _ _ Hsp) as (r1 & E1 & _).
    rewrite strtok_gt; [|done | by intros ->].
    destruct (spells_cons_inv _ _ _ Hr) as (r2 & -> & Hr2). rewrite (spells_nil_inv _ Hr2), (proj2 (Nat.leb_gt _ _) Hlen), E1.
    pose proof (spells_chars _ _ _ Hr Hpr) as Hf. apply Forall_cons in Hf as [Hf _]. rewrite (isin_gt f Hf). cbn [orb].
    unfold ltoks. rewrite (getTokens_spells _ _ Hsp), Hn. done.
Qed.

Definition builtins : list word := [EXITCMD; CDCMD; PATHCMD; IFCMD].

Lemma not_builtin w : w ∉ builtins ->
  word_eqb w EXITCMD = false /\ word_eqb w CDCMD = false /\ word_eqb w PATHCMD = false /\ word_eqb w IFCMD = false.
Proof. unfold builtins, word_eqb. rewrite !not_elem_of_cons. intros (H1 & H2 & H3 & H4 & _). by rewrite !bool_decide_false. Qed.


(** The conditional. *)
Definition op_word (eq : bool) : word := if eq then EQ else NE.
Definition if_words (c1 : list word) (eq : bool) (n : word) (c2 : list word) : list word :=
  IFCMD :: c1 ++ op_word eq :: n :: THEN :: c2 ++ [FI].

Lemma find_word w l1 l2 : w ∉ l1 -> findPos (l1 ++ w :: l2) w = Some (length l1).
Proof.
  intros Hn. apply find_idx_Some. split.
  - exists w. split; [by apply list_lookup_middle|]. unfold word_eqb. by rewrite bool_decide_true.
  - intros j x Hj Hx. rewrite lookup_app_l in Hx by done. unfold word_eqb. rewrite bool_decide_false; [done|].
    intros <-. apply Hn. by eapply list_elem_of_lookup_2.
Qed.

(** The parts of the conditional are found where they are. *)
Lemma if_words_parts c1 eq n c2 :
  let toks := if_words c1 eq n c2 in let tn := (length c1 + 3)%nat in
  THEN ∉ c1 -> n <> THEN -> FI ∉ c1 -> n <> FI -> FI ∉ c2 ->
  findPos toks THEN = Some tn /\ (exists p, findPos toks FI = Some p /\ toks !! S p = None) /\
  toks !! (tn - 2)%nat = Some (op_word eq) /\ toks !! (tn - 1)%nat = Some n /\
  take (tn - 3) (drop 1 toks) = c1 /\ drop (tn + 1) toks = c2 ++ [FI].
Proof.
  intros toks tn H1 H2 H3 H4 H5. assert (toks = (IFCMD :: c1 ++ [op_word eq; n]) ++ THEN :: c2 ++ [FI]) as E1
    by (unfold toks, if_words; cbn; by rewrite <-app_assoc).
  assert (toks = (IFCMD :: c1 ++ [op_word eq; n; THEN] ++ c2) ++ FI :: []) as E2
    by (unfold toks, if_words; cbn; by rewrite <-!app_assoc).
  assert (forall w, w = THEN \/ w = FI -> w <> IFCMD /\ w <> op_word eq) as Hd by (intros w [->| ->]; by destruct eq).
  split_and!.
  - rewrite E1, find_word; [f_equal; cbn; rewrite length_app; cbn; lia|].
    destruct (Hd THEN) as [D1 D2]; [by left|]. rewrite not_elem_of_cons, not_elem_of_app, !not_elem_of_cons.
    split_and!; try done. by apply not_elem_of_nil.
  - eexists. rewrite E2, find_word.
    + split; [reflexivity|]. rewrite <-E2. apply lookup_ge_None_2. rewrite E2, length_app. cbn. lia.
    + destruct (Hd FI) as [D1 D2]; [by right|]. rewrite not_elem_of_cons, !not_elem_of_app, !not_elem_of_cons.
      split_and!; try done. by apply not_elem_of_nil.
  - replace (tn - 2)%nat with (S (length c1)) by (unfold tn; lia). cbn. by apply list_lookup_middle.
  - replace (tn - 1)%nat with (S (length c1 + 1)) by (unfold tn; lia).
    transitivity ((c1 ++ op_word eq :: n :: THEN :: c2 ++ [FI]) !! (length c1 + 1)%nat); [done|]. rewrite lookup_app_r by lia.
    by replace (length c1 + 1 - length c1)%nat with 1%nat by lia.
  - replace (tn - 3)%nat with (length c1) by (unfold tn; lia). cbn. apply take_app_length.
  - rewrite E1. replace (tn + 1)%nat with (length (IFCMD :: c1 ++ [op_word eq; n]) + 1)%nat by (unfold tn; cbn; rewrite length_app; cbn; lia).
    rewrite <-drop_drop, drop_app_length. done.
Qed.

Lemma copy_toks_ok l s : Forall (fun w : word => length w < TOK_LEN)%nat l -> copy_toks l s = (s, Go l).
Proof.
  intros H. unfold copy_toks. replace (forallb _ l) with true; [done|]. symmetry. apply forallb_forall.
  intros w Hw%list_elem_of_In. rewrite Forall_forall in H. apply Nat.ltb_lt. by apply H.
Qed.

(** The conditional [if c1 == n then c2 fi] (or [!=]) runs the program
    [c1], found in the path, and then [c2] exactly when the exit status of
    [c1] is (is not) [n]. *)
Lemma wish_conditional s line w1 a1 eq n w2 a2 cbin1 cbin2 rt :
  let c1 := w1 :: a1 in let c2 := w2 :: a2 in
  command_line line (if_words c1 eq n c2) [] -> (length (if_words c1 eq n c2) < NTOKS)%nat ->
  Forall (fun w : word => length w < TOK_LEN)%nat (c1 ++ c2) ->
  THEN ∉ c1 -> n <> THEN -> FI ∉ c1 -> n <> FI -> FI ∉ c2 ->
  short (paths s) w1 -> short (paths s) w2 ->
  let t1 := trace s in let t2 := t1 ++ [Child cbin1 c1 []] in
  resolves t1 (paths s) w1 cbin1 -> fork_ok t1 = true -> can_exec t1 cbin1 c1 = true -> status t1 cbin1 c1 [] = Some rt ->
  resolves t2 (paths s) w2 cbin2 -> fork_ok t2 = true -> can_exec t2 cbin2 c2 = true ->
  do_line fork_ok access_x can_exec status line s =
    (mkWish (paths s) (t2 ++ if Bool.eqb eq (rt =? atoi_word n) then ran t2 cbin2 c2 [] else []), Go tt).
Proof.
  intros c1 c2 Hl Hn Hlen H1 H2 H3 H4 H5 Hs1 Hs2 t1 t2 R1 F1 C1 S1 R2 F2 C2. rewrite (do_line_words line _ [] s Hl Hn).
  destruct (if_words_parts c1 eq n c2 H1 H2 H3 H4 H5) as (P1 & (p & P2 & P3) & P4 & P5 & P6 & P7).
  apply Forall_app in Hlen as [Hc1 Hc2].
  change (do_toks fork_ok access_x can_exec status (if_words c1 eq n c2) [] s)
    with (if_cmd fork_ok access_x can_exec status (if_words c1 eq n c2) s).
  unfold if_cmd. rewrite P1, P2, P4, P5, P6, P7. cbv iota beta zeta. rewrite P3.
  rewrite bool_decide_false by (by intros [? ?]). rewrite (proj2 (Nat.ltb_ge _ 2)) by lia. cbn [default from_option id].
  assert (negb (word_eqb (op_word eq) EQ) && negb (word_eqb (op_word eq) NE) = false) as -> by (by destruct eq).
  rewrite (W_bind_go _ _ s _ _ (copy_toks_ok c1 s Hc1)). change (c2 ++ [FI]) with (w2 :: a2 ++ [FI]). cbv iota beta.
  rewrite (W_bind_go _ _ s _ _ (copy_toks_ok (w2 :: a2 ++ [FI]) s ltac:(apply (Forall_app_2 _ (w2 :: a2)); [done | by repeat constructor]))).
  replace (take _ (w2 :: a2 ++ [FI])) with c2
    by (change (w2 :: a2 ++ [FI]) with (c2 ++ [FI]); rewrite length_app, Nat.add_sub; by rewrite take_app_length).
  rewrite (W_bind_go _ _ s (paths s) s), (W_bind_go _ _ s _ _ (findCbin_found s _ _ cbin1 R1 Hs1)) by done.
  unfold t1 in S1. rewrite (W_bind_go _ _ s _ _ (runCmd_ok s _ c1 [] F1 C1)), S1.
  assert (ran (trace s) cbin1 c1 [] = [Child cbin1 c1 []]) as -> by (unfold ran; by rewrite S1).
  set (s2 := mkWish (paths s) (trace s ++ [Child cbin1 c1 []])).
  assert (forall e, word_eqb (op_word eq) EQ && e || word_eqb (op_word eq) NE && negb e = Bool.eqb eq e) as -> by (intros []; by destruct eq).
  destruct (Bool.eqb eq (rt =? atoi_word n)); [|by rewrite app_nil_r].
  rewrite (W_bind_go _ _ s2 _ _ (findCbin_found s2 _ _ cbin2 R2 Hs2)).
  by rewrite (W_bind_go _ _ s2 _ _ (runCmd_ok s2 cbin2 c2 [] F2 C2)).
Qed.

End Lines.

(** *** Examples *)

(** A system in which every file of [/bin] but [no] can be run; programs exit
    with the number of their arguments. *)
Definition demo_x (t : list wevent) (p : word) : bool := negb (word_eqb p (in_dir BIN [110; 111])) && bool_decide (take 5 p = in_dir BIN []).
Definition demo_line : wish -> list Z -> wish * out unit := fun s l =>
  do_line (fun _ => true) demo_x (fun t p _ => demo_x t p) (fun _ _ a _ => Some (Z.of_nat (length a) - 1)) l s.

Definition txt (s : string) : list Z := map (fun a => Z.of_N (Ascii.N_of_ascii a)) (String.list_ascii_of_string s).

Lemma spells_word_end w : is_word w -> spells (w ++ [10]) [w].
Proof.
  intros Hw. apply (spells_cons [] w [10]); [done | done | | constructor; by constructor].
  by intros c s' [= <- <-].
Qed.


(** Where the shell goes wrong. *)
Lemma wish_second_shell :
  (demo_line (mkWish [BIN] []) (txt "if no == 0 then ls fi" ++ [10])).2 = Undef "execv returns: a second shell".
Proof. vm_compute. reflexivity. Qed.

Lemma wish_empty_then :
  (demo_line (mkWish [BIN] []) (txt "if ls == 0 then fi" ++ [10])).2 = Undef "strcat: null".
Proof. vm_compute. reflexivity. Qed.

(** A leading [>] is not an error. *)
Lemma wish_leading_gt :
  demo_line (mkWish [BIN] []) (txt ">ls > out" ++ [10]) = demo_line (mkWish [BIN] []) (txt "ls > out" ++ [10]).
Proof. vm_compute. reflexivity. Qed.

