(* ===== verification/MkImage.v ===== *)
(** The builder of the xv6 file system image, [xv6/base/mkfs.c].

    The state is the image, a block for every sector number, with the two
    counters [freeinode] and [freeblock].  An [assert] that fails is a
    [Panic].  The arguments of [main] are the names of the files with their
    contents; a file is read in pieces of a block, the last one shorter.  The
    superblock, the on-disk inode and the layout of a block are those of the
    kernel ([Block], [Log], [Fs]); [xint] and [xshort] store the bytes of a
    number in the order of x86, as [put32] and [put16] do.

    The theorem is that the kernel finds the files in the image: the free map
    is exact, every file has the inode that its directory entry names, with
    well-formed blocks and its contents. *)

From S2P Require Import Prelude Block Bio Log Fs FsFacts FsMeta.

Definition NINODES : Z := 200.
Definition FSSIZE : Z := 1000.
Definition mk_nlog : Z := 30.                               (* LOGSIZE *)
Definition nbitmap : Z := FSSIZE / (BSIZE * 8) + 1.
Definition ninodeblocks : Z := NINODES / IPB + 1.
Definition nmeta : Z := 2 + mk_nlog + ninodeblocks + nbitmap.

Definition mk_sb : superblock :=
  mkSb FSSIZE (FSSIZE - nmeta) NINODES mk_nlog 2 (2 + mk_nlog) (2 + mk_nlog + ninodeblocks).

Record img := mkImg { im : Z -> block; freeinode : Z; freeblock : Z }.

Definition wsect (sec : Z) (b : block) : SR img unit := sr_modify (fun s => mkImg (<[sec := b]> (im s)) (freeinode s) (freeblock s)).
(** The image has [FSSIZE] sectors: those are written at the start of [main],
    and no other is written before it is read. *)
Definition rsect (sec : Z) : SR img block := if sec <? FSSIZE then sr_gets (fun s => im s sec) else sr_panic "read".

Definition winode (inum : Z) (x : inode) : SR img unit :=
  let bn := IBLOCK inum mk_sb in
  buf ← rsect bn;
  wsect bn (encode_dinode x (dino inum) buf).

(** The on-disk inode, as an [inode] of the device with no other fields set. *)
Definition dinode0 (inum : Z) : inode := mkInode 1 inum 0 initsleeplock false 0 0 0 0 0 (replicate 13 0).
Definition rinode (inum : Z) : SR img inode :=
  buf ← rsect (IBLOCK inum mk_sb);
  mret (decode_dinode buf (dino inum) (dinode0 inum)).

Definition mk_ialloc (type : Z) : SR img Z :=
  inum ← sr_gets freeinode;
  _ ← sr_modify (fun s => mkImg (im s) (u32 (inum + 1)) (freeblock s));
  _ ← winode inum (iset_meta type 0 0 1 0 (replicate 13 0) (dinode0 inum));
  mret inum.

(** [freeblock++] *)
Definition take_block : SR img Z :=
  b ← sr_gets freeblock;
  _ ← sr_modify (fun s => mkImg (im s) (freeinode s) (u32 (b + 1)));
  mret b.

(** Block [fbn] of the file, allocated if need be: its number and the inode. *)
Definition append_block (x : inode) (fbn : Z) : SR img (Z * inode) :=
  if fbn <? NDIRECT then
    let a := nth (Z.to_nat fbn) (i_addrs x) 0 in
    if a =? 0 then
      b ← take_block;
      mret (b, iset_addrs (<[Z.to_nat fbn := b]> (i_addrs x)) x)
    else mret (a, x)
  else
    let a := nth (Z.to_nat NDIRECT) (i_addrs x) 0 in
    x ← (if a =? 0 then
           b ← take_block;
           mret (iset_addrs (<[Z.to_nat NDIRECT := b]> (i_addrs x)) x)
         else mret x);
    let a := nth (Z.to_nat NDIRECT) (i_addrs x) 0 in
    indirect ← rsect a;
    if get32 indirect (4 * (fbn - NDIRECT)) =? 0 then
      b ← take_block;
      _ ← wsect a (put32 indirect (4 * (fbn - NDIRECT)) b);
      mret (b, x)
    else mret (get32 indirect (4 * (fbn - NDIRECT)), x).

(** The loop of [iappend]: the bytes [p] go to offset [off]. *)
Fixpoint iappend_loop (fuel : nat) (x : inode) (off : Z) (p : list Z) : SR img (inode * Z) :=
  match fuel with
  | O => sr_panic "fuel"
  | S f =>
      match p with
      | [] => mret (x, off)
      | _ =>
          let fbn := off / BSIZE in
          if negb (fbn <? MAXFILE) then sr_panic "assert: fbn < MAXFILE"
          else
            r ← append_block x fbn;
            let '(a, x) := r in
            let n1 := Z.min (Z.of_nat (length p)) ((fbn + 1) * BSIZE - off) in
            buf ← rsect a;
            _ ← wsect a (splice buf (off - fbn * BSIZE) (take (Z.to_nat n1) p));
            iappend_loop f x (off + n1) (drop (Z.to_nat n1) p)
      end
  end.

Definition iappend (inum : Z) (p : list Z) : SR img unit :=
  x ← rinode inum;
  r ← iappend_loop (S (length p)) x (i_size x) p;
  let '(x, off) := r in
  winode inum (iset_size off x).

(** [struct dirent] with the name padded by zeroes, as [strncpy] leaves it *)
Definition dirent_bytes (inum : Z) (name : list Z) : list Z := le16 inum ++ take 14 (name ++ replicate 14 0).

(** The reads of a file of the host *)
Fixpoint chunks (fuel : nat) (l : list Z) : list (list Z) :=
  match fuel, l with
  | S f, _ :: _ => take 512 l :: chunks f (drop 512 l)
  | _, _ => []
  end.

Definition host_name (arg : list Z) : list Z := match arg with c :: name => if c =? 95 then name else arg | [] => [] end.

Fixpoint append_all (inum : Z) (ps : list (list Z)) : SR img unit :=
  match ps with [] => mret tt | p :: ps' => _ ← iappend inum p; append_all inum ps' end.

(** One argument of [main]: a file [arg] of the host with its contents, [None]
    if it cannot be opened. *)
Definition add_file (arg : list Z) (data : option (list Z)) : SR img unit :=
  if existsb (Z.eqb 47) arg then sr_panic "assert: index(argv[i], '/') == 0"
  else match data with
  | None => sr_panic "open"
  | Some data =>
      inum ← mk_ialloc T_FILE;
      _ ← iappend ROOTINO (dirent_bytes inum (host_name arg));
      append_all inum (chunks (length data) data)
  end.

Fixpoint add_files (files : list (list Z * option (list Z))) : SR img unit :=
  match files with [] => mret tt | (arg, data) :: files' => _ ← add_file arg data; add_files files' end.

(** The bitmap with the first [used] bits set *)
Definition bitmap_block (used : Z) : block :=
  foldl (fun b i => put8 b (i / 8) (Z.lor (get8 b (i / 8)) (Z.shiftl 1 (i mod 8)))) zeroes (seqZ 0 used).

Definition mk_balloc (used : Z) : SR img unit :=
  if negb (used <? BSIZE * 8) then sr_panic "assert: used < BSIZE*8"
  else wsect (sb_bmapstart mk_sb) (bitmap_block used).

Definition sb_block : block :=
  foldl (fun b kv => put32 b (4 * kv.1) kv.2) zeroes
    [(0, sb_size mk_sb); (1, sb_nblocks mk_sb); (2, sb_ninodes mk_sb); (3, sb_nlog mk_sb); (4, sb_logstart mk_sb); (5, sb_inodestart mk_sb); (6, sb_bmapstart mk_sb)].

Definition fix_root : SR img unit :=
  x ← rinode ROOTINO;
  winode ROOTINO (iset_size (u32 ((i_size x / BSIZE + 1) * BSIZE)) x).

Definition mk_main (files : list (list Z * option (list Z))) : SR img unit :=
  _ ← wsect 1 sb_block;
  rootino ← mk_ialloc T_DIR;
  if negb (rootino =? ROOTINO) then sr_panic "assert: rootino == ROOTINO"
  else
    _ ← iappend rootino (dirent_bytes rootino [46]);
    _ ← iappend rootino (dirent_bytes rootino [46; 46]);
    _ ← add_files files;
    _ ← fix_root;
    used ← sr_gets freeblock;
    mk_balloc used.

(** All sectors zeroed, as after the first loop of [main] *)
Definition img0 : img := mkImg (fun _ => zeroes) 1 nmeta.
Definition mkfs_image (files : list (list Z * option (list Z))) : result img :=
  '(_, s) ← mk_main files img0; Ok s.

(** ** Files in the image *)

Definition zero_from (v : Z -> block) (fb : Z) : Prop := forall n, fb <= n -> v n = zeroes.
Definition blocks512 (v : Z -> block) : Prop := forall n, length (v n) = 512%nat.

Definition owns (x : inode) (v : Z -> block) (n : Z) : Prop := n <> 0 /\ exists j, 0 <= j <= MAXFILE /\ baddr x v j = n.

(** The inode [x] has its first [c] blocks, and an indirect block if [ind],
    all different and between the metadata and [fb]; they hold [data], then
    zeroes. *)
Record file_blocks (x : inode) (v : Z -> block) (data : list Z) (c : Z) (ind : bool) (fb : Z) : Prop := {
  fl_dev : i_dev x = 1;
  fl_len : length (i_addrs x) = 13%nat;
  fl_c : 0 <= c <= MAXFILE;
  fl_ind : NDIRECT < c -> ind = true;
  fl_size : Z.of_nat (length data) <= c * BSIZE;
  fl_used : forall j, 0 <= j <= MAXFILE -> baddr x v j <> 0 <-> j < c \/ j = MAXFILE /\ ind = true;
  fl_rng : forall j, 0 <= j <= MAXFILE -> baddr x v j <> 0 -> nmeta <= baddr x v j < fb;
  fl_inj : forall j k, 0 <= j <= MAXFILE -> 0 <= k <= MAXFILE -> baddr x v j <> 0 -> baddr x v j = baddr x v k -> j = k;
  fl_data : forall o, 0 <= o < c * BSIZE -> fbyte x v o = nth (Z.to_nat o) data 0
}.

Lemma get8_zeroes o : get8 zeroes o = 0.
Proof.
  unfold get8. rewrite nth_lookup_default. unfold zeroes. destruct (decide (Z.to_nat o < 512)%nat).
  - by rewrite lookup_replicate_2.
  - rewrite lookup_ge_None_2; [done|]. rewrite length_replicate. lia.
Qed.

Lemma nmeta_val : nmeta = 59.
Proof. done. Qed.

(** One more entry [k] of the block map, the fresh block [fb]. *)
Lemma add_entry x v data c ind fb x' v' k c' ind' fb' :
  file_blocks x v data c ind fb -> 0 <= k <= MAXFILE -> baddr x v k = 0 -> nmeta <= fb < fb' ->
  i_dev x' = 1 -> length (i_addrs x') = 13%nat -> baddr x' v' k = fb ->
  (forall j, 0 <= j <= MAXFILE -> j <> k -> baddr x' v' j = baddr x v j) ->
  c <= c' <= MAXFILE -> (NDIRECT < c' -> ind' = true) ->
  (forall j, 0 <= j <= MAXFILE -> (j < c' \/ j = MAXFILE /\ ind' = true) <-> (j < c \/ j = MAXFILE /\ ind = true) \/ j = k) ->
  (k < MAXFILE -> v' fb = zeroes) -> (forall j, 0 <= j < MAXFILE -> baddr x v j <> 0 -> v' (baddr x v j) = v (baddr x v j)) ->
  file_blocks x' v' data c' ind' fb'.
Proof.
  intros [H1 H2 H3 H4 H5 H6 H7 H8 H9] Hk Hk0 Hfb D1 D2 Hnew Hold Hc Hi Hu Hz Hv. pose proof nmeta_val as Hm.
  assert (forall j, 0 <= j <= MAXFILE -> baddr x v j <> fb) as Hfr.
  { intros j Hj E. specialize (H7 j Hj). lia. }
  constructor; try done; [lia | fs_consts; lia | | | |].
  - intros j Hj. rewrite Hu, <-H6 by done. destruct (decide (j = k)) as [->|Hne].
    + rewrite Hnew. split; [by right | lia].
    + rewrite Hold by done. tauto.
  - intros j Hj. destruct (decide (j = k)) as [->|Hne]; [rewrite Hnew; lia|]. rewrite Hold by done. intros H0. specialize (H7 j Hj H0). lia.
  - intros i j Hi' Hj. destruct (decide (i = k)) as [->|Hik], (decide (j = k)) as [->|Hjk]; [done| | |].
    + rewrite Hnew, (Hold j) by done. intros _ E. by destruct (Hfr j Hj).
    + rewrite Hnew, (Hold i) by done. intros _ E. by destruct (Hfr i Hi').
    + rewrite !Hold by done. by apply H8.
  - intros o Ho. assert (0 <= o / BSIZE < c') as Hr by (fs_consts; zlia). assert (0 <= o / BSIZE <= MAXFILE) as Hr' by lia.
    destruct (proj1 (Hu _ Hr') ltac:(left; lia)) as [Hj|E].
    + assert (o / BSIZE <> k) as Hne by (intros E; rewrite <-E in Hk0; by apply (H6 _ Hr') in Hj).
      assert (o / BSIZE < c) as Hlt by (destruct Hj as [|[Hj _]]; lia).
      assert (baddr x v (o / BSIZE) <> 0) as Hn0 by (apply H6; [done | by left]).
      unfold fbyte. rewrite (Hold _ Hr' Hne), Hv by (done || lia). apply H9. fs_consts. zlia.
    + unfold fbyte. rewrite E, Hnew, Hz, get8_zeroes by lia. symmetry. apply nth_overflow.
      assert (~ k < c) as Hkc by (intros Hlt; assert (baddr x v k <> 0) by (apply H6; [done | by left]); done). fs_consts. zlia.
Qed.

(** What a step of [iappend] leaves alone: the blocks below [fb] that the file
    does not own. *)
Record step_frame (x : inode) (v : Z -> block) (fb : Z) (x' : inode) (v' : Z -> block) (fb' : Z) : Prop := {
  sf_meta : exists a, x' = iset_addrs a x;
  sf_fb : fb <= fb';
  sf_len : blocks512 v';
  sf_zero : zero_from v' fb';
  sf_keep : forall n, n < fb -> ~ owns x v n -> v' n = v n;
  sf_own : forall n, owns x' v' n -> owns x v n \/ fb <= n
}.

Lemma step_frame_trans x v fb x1 v1 fb1 x2 v2 fb2 :
  step_frame x v fb x1 v1 fb1 -> step_frame x1 v1 fb1 x2 v2 fb2 -> step_frame x v fb x2 v2 fb2.
Proof.
  intros [[a1 M1] A1 A2 A3 A4 A5] [[a2 M2] B1 B2 B3 B4 B5]. constructor; try done; [|lia| |].
  - exists a2. subst. by destruct x.
  - intros n Hn Ho. rewrite B4; [by apply A4 | lia |]. intros Hown. apply A5 in Hown as [?|?]; [done | lia].
  - intros n Hown. apply B5 in Hown as [Hown|?]; [by apply A5 | right; lia].
Qed.

Lemma step_frame_refl x v fb : blocks512 v -> zero_from v fb -> step_frame x v fb x v fb.
Proof. intros Hl Hz. constructor; try done; [exists (i_addrs x); by destruct x | intros; by left]. Qed.

Lemma rsect_run n v fi fb : n < FSSIZE -> rsect n (mkImg v fi fb) = Ok (v n, mkImg v fi fb).
Proof. intros Hn. unfold rsect. by rewrite (proj2 (Z.ltb_lt _ _) Hn). Qed.

Lemma take_block_run v fi fb : 0 <= fb -> fb + 1 < 2 ^ 32 -> take_block (mkImg v fi fb) = Ok (fb, mkImg v fi (fb + 1)).
Proof. intros H0 H1. unfold take_block, sr_gets, sr_modify, mbind, SR_bind, mret, SR_ret. cbn. by rewrite u32_small by lia. Qed.

(** Entry [k] is in the inode. *)
Lemma alloc_slot x v data c ind fb k c' ind' :
  file_blocks x v data c ind fb -> blocks512 v -> zero_from v fb -> nmeta <= fb ->
  0 <= k < NDIRECT \/ k = MAXFILE -> baddr x v k = 0 -> c <= c' <= MAXFILE -> (NDIRECT < c' -> ind' = true) ->
  (forall j, 0 <= j <= MAXFILE -> (j < c' \/ j = MAXFILE /\ ind' = true) <-> (j < c \/ j = MAXFILE /\ ind = true) \/ j = k) ->
  let x' := iset_addrs (<[slot k := fb]> (i_addrs x)) x in
  baddr x' v k = fb /\ file_blocks x' v data c' ind' (fb + 1) /\ step_frame x v fb x' v (fb + 1).
Proof.
  intros F Hl Hz Hfb Hk Hk0 Hc Hi Hu x'. assert (0 <= k <= MAXFILE) as Hk' by (fs_consts; lia).
  destruct (set_slot_baddr v x k fb (fl_len _ _ _ _ _ _ F) Hk Hk0 (Hz fb ltac:(lia))) as [Hnew Hold]. fold x' in Hnew, Hold.
  split; [done|]. split.
  - apply (add_entry x v data c ind fb x' v k); try done; [lia | apply F | cbn; rewrite length_insert; apply F |]. intros _. apply Hz. lia.
  - constructor; try done; [by eexists | lia | intros n Hn; apply Hz; lia |].
    intros n [Hn0 (j & Hj & <-)]. destruct (decide (j = k)) as [->|Hne]; [right; lia | left].
    rewrite Hold in Hn0 |- * by done. split; [done | by exists j].
Qed.

(** Entry [k] is in the indirect block. *)
Lemma alloc_indirect x v data ind fb k :
  file_blocks x v data k ind fb -> ind = true -> blocks512 v -> zero_from v fb -> nmeta <= fb -> fb < 2 ^ 32 ->
  NDIRECT <= k < MAXFILE ->
  let a := baddr x v MAXFILE in let v' := <[a := put32 (v a) (4 * (k - NDIRECT)) fb]> v in
  baddr x v' k = fb /\ file_blocks x v' data (k + 1) true (fb + 1) /\ step_frame x v fb x v' (fb + 1).
Proof.
  intros F -> Hl Hz Hfb Hmax Hk a v'. pose proof nmeta_val as Hm.
  assert (a <> 0) as Ha0 by (apply F; [fs_consts; lia | by right]).
  assert (nmeta <= a < fb) as Har by (apply F; [fs_consts; lia | done]).
  assert (forall j, 0 <= j < MAXFILE -> baddr x v j <> a) as Hja.
  { intros j Hj E. assert (MAXFILE = j); [|lia]. apply (fl_inj _ _ _ _ _ _ F); [fs_consts; lia | lia | done | done]. }
  assert (baddr x v k = 0) as Hk0.
  { destruct (decide (baddr x v k = 0)) as [|Hn]; [done|]. apply (fl_used _ _ _ _ _ _ F) in Hn; fs_consts; lia. }
  destruct (put32_entry_baddr v x k fb Ha0 (Hl a) Hk ltac:(lia)) as [Hnew Hold]. fold a v' in Hnew, Hold.
  split; [done|]. split.
  - apply (add_entry x v data k true fb x v' k); try done; try lia; [fs_consts; lia | apply F | apply F | |].
    + intros _. unfold v'. rewrite fn_lookup_insert_ne by lia. apply Hz. lia.
    + intros j Hj _. unfold v'. rewrite fn_lookup_insert_ne; [done|]. by apply not_eq_sym, Hja.
  - constructor; [exists (i_addrs x); by destruct x | lia | | | |].
    + intros n. unfold v'. destruct (decide (n = a)) as [->|]; [|by rewrite fn_lookup_insert_ne].
      rewrite fn_lookup_insert. apply put32_512; [done | fs_consts; lia..].
    + intros n Hn. unfold v'. rewrite fn_lookup_insert_ne by lia. apply Hz. lia.
    + intros n Hn Ho. unfold v'. rewrite fn_lookup_insert_ne; [done|]. intros <-. apply Ho. split; [done|]. exists MAXFILE. split; [fs_consts; lia | done].
    + intros n [Hn0 (j & Hj & <-)]. destruct (decide (j = k)) as [->|Hne]; [right; lia | left].
      rewrite Hold in Hn0 |- * by done. split; [done | by exists j].
Qed.

(** The blocks of a file with [c] data blocks: there is an indirect one when
    the direct ones are not enough. *)
Definition has_ind (c : Z) : bool := NDIRECT <? c.
Definition tot (c : Z) : Z := c + if has_ind c then 1 else 0.

Lemma append_block_ok x v data c fb fi k :
  let ind := has_ind c in
  file_blocks x v data c ind fb -> blocks512 v -> zero_from v fb -> nmeta <= fb -> fb + tot (k + 1) - tot c <= FSSIZE ->
  k = c \/ k + 1 = c -> 0 <= k < MAXFILE ->
  exists x' v' fb', append_block x k (mkImg v fi fb) = Ok ((baddr x' v' k, x'), mkImg v' fi fb') /\
    file_blocks x' v' data (k + 1) (has_ind (k + 1)) fb' /\ step_frame x v fb x' v' fb' /\ fb' = fb + tot (k + 1) - tot c.
Proof.
  intros ind F Hl Hz Hfb Hfit Hkc Hk. pose proof nmeta_val as Hm. unfold append_block.
  assert (fb <= FSSIZE) as Hmax by (unfold tot, has_ind in Hfit; destruct Hkc as [->|<-]; repeat case_match; lia). unfold FSSIZE in Hmax.
  assert (forall x1 v1 j, NDIRECT <= j < MAXFILE -> baddr x1 v1 MAXFILE <> 0 ->
    get32 (v1 (baddr x1 v1 MAXFILE)) (4 * (j - NDIRECT)) = baddr x1 v1 j) as Hget.
  { intros x1 v1 j Hj Hn. change (baddr x1 v1 MAXFILE) with (nth (Z.to_nat NDIRECT) (i_addrs x1) 0) in *. unfold baddr.
    rewrite (proj2 (Z.ltb_ge _ _)), (proj2 (Z.eqb_neq j MAXFILE)), (proj2 (Z.eqb_neq _ 0) Hn) by lia. done. }
  destruct Hkc as [->|<-].
  - (* a new block *)
    assert (baddr x v c = 0) as Hk0.
    { destruct (decide (baddr x v c = 0)) as [|Hn]; [done|]. apply (fl_used _ _ _ _ _ _ F) in Hn; fs_consts; lia. }
    destruct (Z.ltb_spec c NDIRECT) as [Hd|Hd].
    + assert (has_ind (c + 1) = ind) as Ei.
      { unfold ind, has_ind. rewrite !(proj2 (Z.ltb_ge _ _)) by (fs_consts; lia). done. }
      destruct (alloc_slot x v data c ind fb c (c + 1) ind F Hl Hz Hfb) as (A1 & A2 & A3); try done; [left; lia | fs_consts; lia | fs_consts; lia | intros j Hj; fs_consts; naive_solver lia|].
      assert (slot c = Z.to_nat c) as Es by (unfold slot; rewrite (proj2 (Z.eqb_neq c MAXFILE)) by lia; done). rewrite Es in A1, A2, A3.
      assert (nth (Z.to_nat c) (i_addrs x) 0 = 0) as -> by (by rewrite <-Es, <-(baddr_slot x v c) by lia). cbn [Z.eqb].
      rewrite (sr_bind_run _ _ _ _ _ (take_block_run v fi fb ltac:(lia) ltac:(lia))). do 3 eexists. split; [|rewrite Ei; split; [exact A2 | split; [exact A3 |]]]; [by rewrite A1|]. unfold tot. rewrite Ei. fold ind. lia.
    + (* the indirect block first, if there is none *)
      assert (exists x1 fb1, (if nth (Z.to_nat NDIRECT) (i_addrs x) 0 =? 0
                then b ← take_block; mret (iset_addrs (<[Z.to_nat NDIRECT := b]> (i_addrs x)) x) else mret x) (mkImg v fi fb) = Ok (x1, mkImg v fi fb1) /\
              file_blocks x1 v data c true fb1 /\ step_frame x v fb x1 v fb1 /\ fb1 = fb + if ind then 0 else 1) as (x1 & fb1 & E1 & F1 & S1 & Hfb1).
      { change (nth (Z.to_nat NDIRECT) (i_addrs x) 0) with (baddr x v MAXFILE).
        assert (baddr x v MAXFILE <> 0 <-> ind = true) as Hind by (rewrite (fl_used _ _ _ _ _ _ F) by (fs_consts; lia); split; [intros [?|[_ ?]]; [lia | done] | by right]).
        destruct (Z.eqb_spec (baddr x v MAXFILE) 0) as [E0|E0].
        - assert (ind = false) as Ei by (destruct ind; [by destruct (proj2 Hind eq_refl) | done]). rewrite Ei in F |- *.
          destruct (alloc_slot x v data c false fb MAXFILE c true F Hl Hz Hfb) as (A1 & A2 & A3); try done; [by right | lia | intros j Hj; naive_solver|].
          rewrite (sr_bind_run _ _ _ _ _ (take_block_run v fi fb ltac:(lia) ltac:(lia))). do 2 eexists. split; [reflexivity|]. split; [exact A2|]. split; [exact A3 | done].
        - apply Hind in E0. rewrite E0 in F |- *. exists x, fb. split; [done|]. split; [done|]. split; [by apply step_frame_refl | lia]. }
      assert (fb <= fb1 <= fb + 1) as Hfb1' by (rewrite Hfb1; destruct ind; lia).
      rewrite (sr_bind_run _ _ _ _ _ E1). change (nth (Z.to_nat NDIRECT) (i_addrs x1) 0) with (baddr x1 v MAXFILE).
      assert (baddr x1 v MAXFILE < FSSIZE) as Hlim.
      { enough (baddr x1 v MAXFILE < fb1) by (unfold tot in Hfit; fold ind in Hfit; unfold has_ind in Hfit; rewrite (proj2 (Z.ltb_lt NDIRECT (c + 1))) in Hfit by lia; destruct ind; lia).
        apply F1; [fs_consts; lia|]. apply F1; [fs_consts; lia | by right]. }
      rewrite (sr_bind_run _ _ _ _ _ (rsect_run _ v fi fb1 Hlim)).
      pose proof (sf_fb _ _ _ _ _ _ S1) as Hge. rewrite Hget by (first [lia | apply F1; [fs_consts; lia | by right]]).
      assert (baddr x1 v c = 0) as ->.
      { destruct (decide (baddr x1 v c = 0)) as [|Hn]; [done|]. apply (fl_used _ _ _ _ _ _ F1) in Hn; fs_consts; lia. }
      cbn [Z.eqb]. rewrite (sr_bind_run _ _ _ _ _ (take_block_run v fi fb1 ltac:(lia) ltac:(lia))).
      destruct (alloc_indirect x1 v data true fb1 c F1 eq_refl Hl (sf_zero _ _ _ _ _ _ S1) ltac:(lia) ltac:(lia) ltac:(lia)) as (A1 & A2 & A3).
      assert (has_ind (c + 1) = true) as Ei by (apply Z.ltb_lt; lia). do 3 eexists.
      split; [|rewrite Ei; split; [exact A2|]; split; [by eapply step_frame_trans|]]; [by rewrite A1|]. unfold tot. rewrite Ei. fold ind. destruct ind; lia.
  - (* in a block that is there *)
    assert (baddr x v k <> 0) as Hk0 by (apply F; [lia | left; lia]).
    exists x, v, fb. split; [|split; [done|]; split; [by apply step_frame_refl | lia]].
    destruct (Z.ltb_spec k NDIRECT) as [Hd|Hd].
    + assert (nth (Z.to_nat k) (i_addrs x) 0 = baddr x v k) as ->.
      { rewrite baddr_slot by lia. unfold slot. by rewrite (proj2 (Z.eqb_neq k MAXFILE)) by lia. }
      by rewrite (proj2 (Z.eqb_neq _ _) Hk0).
    + assert (baddr x v MAXFILE <> 0) as Hi by (apply F; [fs_consts; lia | right; split; [done | apply Z.ltb_lt; lia]]).
      change (nth (Z.to_nat NDIRECT) (i_addrs x) 0) with (baddr x v MAXFILE). rewrite (proj2 (Z.eqb_neq _ _) Hi).
      rewrite (sr_bind_run (mret x) _ _ x (mkImg v fi fb)) by done. change (nth (Z.to_nat NDIRECT) (i_addrs x) 0) with (baddr x v MAXFILE).
      assert (baddr x v MAXFILE < FSSIZE) as Hlim by (enough (baddr x v MAXFILE < fb) by (unfold FSSIZE; lia); apply F; [fs_consts; lia | done]).
      rewrite (sr_bind_run _ _ _ _ _ (rsect_run _ v fi fb Hlim)).
      rewrite Hget by (done || lia). by rewrite (proj2 (Z.eqb_neq _ _) Hk0).
Qed.

(** A store into block [k]. *)
Lemma write_step x v data ind fb p :
  let off := Z.of_nat (length data) in let k := off / BSIZE in
  file_blocks x v data (k + 1) ind fb -> blocks512 v -> zero_from v fb -> off + Z.of_nat (length p) <= (k + 1) * BSIZE ->
  let a := baddr x v k in let v' := <[a := splice (v a) (off - k * BSIZE) p]> v in
  file_blocks x v' (data ++ p) (k + 1) ind fb /\ step_frame x v fb x v' fb.
Proof.
  intros off k F Hl Hz Hp a v'. pose proof (fl_c _ _ _ _ _ _ F) as Hc. assert (0 <= k) as Hk by (unfold k; fs_consts; zlia).
  assert (0 <= off - k * BSIZE < 512) as Hm by (unfold k; fs_consts; zlia).
  assert (a <> 0) as Ha0 by (apply F; [lia | left; lia]). assert (nmeta <= a < fb) as Har by (apply F; [lia | done]).
  assert (length (splice (v a) (off - k * BSIZE) p) = 512%nat) as Hs by (rewrite splice_length; rewrite ?Hl; fs_consts; lia).
  assert (forall j, 0 <= j <= MAXFILE -> baddr x v' j = baddr x v j) as Hba.
  { intros j Hj. unfold baddr. case_match; [done|]. case_match; [done|].
    destruct (Z.eqb_spec (nth (Z.to_nat NDIRECT) (i_addrs x) 0) 0) as [|Hne]; [done|].
    unfold v'. rewrite fn_lookup_insert_ne; [done|]. intros E.
    assert (k = MAXFILE); [|lia]. apply (fl_inj _ _ _ _ _ _ F); [lia | fs_consts; lia | done | exact E]. }
  split.
  - constructor; try apply F.
    + rewrite length_app. fold off. lia.
    + intros j Hj. rewrite Hba by done. by apply F.
    + intros j Hj. rewrite Hba by done. by apply F.
    + intros i j Hi Hj. rewrite !Hba by done. by apply F.
    + intros o Ho. assert (0 <= o / BSIZE <= k) as Hj by (fs_consts; zlia). pose proof (fl_data _ _ _ _ _ _ F o Ho) as Hd.
      unfold fbyte in *. rewrite Hba by lia. unfold v'. destruct (decide (o / BSIZE = k)) as [E|E].
      * rewrite E in *. fold a in Hd |- *. rewrite fn_lookup_insert.
        rewrite get8_splice by (rewrite ?Hl; fs_consts; zlia). destruct (Z.leb_spec off o) as [Hlo|Hlo].
        -- rewrite (proj2 (Z.leb_le _ _)) by (fs_consts; zlia). cbn [andb]. rewrite app_nth2 by lia.
           destruct (Z.ltb_spec (o mod BSIZE) (off - k * BSIZE + Z.of_nat (length p))) as [Hi|Hi].
           ++ f_equal. fs_consts. zlia.
           ++ rewrite Hd, !nth_overflow; [done | fs_consts; zlia | fs_consts; zlia].
        -- rewrite (proj2 (Z.leb_gt _ _)) by (fs_consts; zlia). cbn [andb]. by rewrite Hd, app_nth1 by lia.
      * assert (baddr x v (o / BSIZE) <> a) as Hne.
        { intros E'. assert (k = o / BSIZE); [|lia]. apply (fl_inj _ _ _ _ _ _ F); [lia | lia | done | done]. }
        rewrite fn_lookup_insert_ne by (by apply not_eq_sym). rewrite Hd, app_nth1; [done|]. fs_consts. zlia.
  - constructor; [exists (i_addrs x); by destruct x | lia | | | |].
    + intros n. unfold v'. destruct (decide (n = a)) as [->|]; [by rewrite fn_lookup_insert | by rewrite fn_lookup_insert_ne].
    + intros n Hn. unfold v'. rewrite fn_lookup_insert_ne by lia. by apply Hz.
    + intros n Hn Ho. unfold v'. rewrite fn_lookup_insert_ne; [done|]. intros <-. apply Ho. split; [done|]. exists k. split; [lia | done].
    + intros n [Hn0 (j & Hj & <-)]. left. rewrite Hba in Hn0 |- * by done. split; [done | by exists j].
Qed.

(** The blocks a file of [n] bytes takes. *)
Definition nblk (n : Z) : Z := (n + 511) / BSIZE.

Lemma tot_mono n m : 0 <= n <= m -> tot (nblk n) <= tot (nblk m).
Proof. intros Hn. unfold tot, has_ind, nblk. repeat case_match; fs_consts; zlia. Qed.

Lemma iappend_loop_ok fuel x v data fb fi p :
  let n := Z.of_nat (length data) in
  file_blocks x v data (nblk n) (has_ind (nblk n)) fb -> blocks512 v -> zero_from v fb -> nmeta <= fb ->
  (length p < fuel)%nat -> n + Z.of_nat (length p) <= MAXFILE * BSIZE ->
  let c' := nblk (n + Z.of_nat (length p)) in fb + tot c' - tot (nblk n) <= FSSIZE ->
  exists x' v' fb', iappend_loop fuel x n p (mkImg v fi fb) = Ok ((x', n + Z.of_nat (length p)), mkImg v' fi fb') /\
    file_blocks x' v' (data ++ p) c' (has_ind c') fb' /\ step_frame x v fb x' v' fb' /\ fb' = fb + tot c' - tot (nblk n).
Proof.
  revert x v data fb p. induction fuel as [|f IH]; intros x v data fb p n F Hl Hz Hfb Hf Hmax c' Hw; [lia|]. cbn [iappend_loop].
  destruct p as [|b p0]; [|set (p := b :: p0) in *].
  { exists x, v, fb. unfold c'. cbn [length]. rewrite Z.add_0_r, app_nil_r. split; [done|]. split; [done|]. split; [by apply step_frame_refl | lia]. }
  assert (0 < Z.of_nat (length p)) as Hp0 by (cbn; lia).
  rewrite (proj2 (Z.ltb_lt (n / BSIZE) MAXFILE)) by (fs_consts; zlia). cbn [negb].
  assert (tot (n / BSIZE + 1) <= tot c') as Hmono.
  { unfold c'. replace (n / BSIZE + 1) with (nblk (n / BSIZE * BSIZE + 1)) by (unfold nblk; fs_consts; zlia). apply tot_mono. fs_consts. zlia. }
  destruct (append_block_ok x v data (nblk n) fb fi (n / BSIZE) F Hl Hz Hfb ltac:(lia)) as (x1 & v1 & fb1 & E1 & F1 & S1 & Hfb1).
  { unfold nblk. fs_consts. zlia. }
  { fs_consts. zlia. }
  rewrite (sr_bind_run _ _ _ _ _ E1). set (n1 := Z.min _ _). set (p1 := take (Z.to_nat n1) p).
  assert (0 < n1 <= Z.of_nat (length p) /\ n + n1 <= (n / BSIZE + 1) * BSIZE) as [Hn1 Hn1'] by (unfold n1; fs_consts; zlia).
  assert (Z.of_nat (length p1) = n1) as Hlp1 by (unfold p1; rewrite length_take; lia).
  set (a := baddr x1 v1 (n / BSIZE)).
  assert (a < FSSIZE) as Hlim.
  { enough (a < fb1) by lia. assert (0 <= n / BSIZE < MAXFILE) by (fs_consts; zlia). apply F1; [lia|]. apply F1; [lia | left; lia]. }
  rewrite (sr_bind_run _ _ _ _ _ (rsect_run _ v1 fi fb1 Hlim)).
  destruct (write_step x1 v1 data _ fb1 p1 F1 (sf_len _ _ _ _ _ _ S1) (sf_zero _ _ _ _ _ _ S1)) as [F2 S2]; [fold n; lia|].
  fold n a in F2, S2. set (v2 := <[a := _]> v1) in *.
  rewrite (sr_bind_run (wsect a _) _ _ tt (mkImg v2 fi fb1)) by done.
  pose proof (sf_fb _ _ _ _ _ _ S1) as Hge1.
  assert (Z.of_nat (length (drop (Z.to_nat n1) p)) = Z.of_nat (length p) - n1) as Hld by (rewrite length_drop; lia).
  assert (nblk (n + n1) = n / BSIZE + 1) as Hc1 by (unfold nblk; fs_consts; zlia).
  destruct (IH x1 v2 (data ++ p1) fb1 (drop (Z.to_nat n1) p)) as (x' & v' & fb' & E' & F' & S' & Hfb').
  { rewrite length_app, Nat2Z.inj_add, Hlp1. fold n. by rewrite Hc1. }
  { apply S2. } { apply S2. } { lia. } { lia. }
  { rewrite length_app, Nat2Z.inj_add, Hlp1. fold n. lia. }
  { rewrite length_app, Nat2Z.inj_add, Hlp1. fold n. rewrite Hld, Hc1. replace (n + n1 + (Z.of_nat (length p) - n1)) with (n + Z.of_nat (length p)) by lia. fold c'. lia. }
  rewrite length_app, Nat2Z.inj_add, Hlp1 in E', F', Hfb'. fold n in E', F', Hfb'. rewrite Hld in E', F', Hfb'.
  replace (n + n1 + (Z.of_nat (length p) - n1)) with (n + Z.of_nat (length p)) in E', F', Hfb' by lia.
  fold c' in F', Hfb'. rewrite Hc1 in Hfb'. exists x', v', fb'. split; [done|]. rewrite <-app_assoc in F'. unfold p1 in F'. rewrite take_drop in F'. split; [done|].
  split; [|lia]. eapply step_frame_trans; [|exact S']. by eapply step_frame_trans.
Qed.

(** ** The whole image *)

Definition idec (v : Z -> block) (i : Z) : inode := decode_dinode (v (IBLOCK i mk_sb)) (dino i) (dinode0 i).

Lemma IBLOCK_val i : 0 < i < NINODES -> IBLOCK i mk_sb = i / 8 + 32 /\ 32 <= IBLOCK i mk_sb < 58.
Proof. intros Hi. unfold IBLOCK, NINODES in *. change (sb_inodestart mk_sb) with 32. change IPB with 8. rewrite u32_small by zlia. zlia. Qed.

(** What an inode owns, its blocks and bytes only depend on the blocks it owns. *)
Lemma baddr_ext x v v' j : (forall n, owns x v n -> v' n = v n) -> baddr x v' j = baddr x v j.
Proof.
  intros H. unfold baddr. case_match; [done|]. case_match; [done|].
  destruct (Z.eqb_spec (nth (Z.to_nat NDIRECT) (i_addrs x) 0) 0) as [|Hne]; [done|].
  rewrite H; [done|]. split; [done|]. exists MAXFILE. split; [fs_consts; lia | done].
Qed.

Lemma owns_ext x v v' n : (forall n, owns x v n -> v' n = v n) -> owns x v' n <-> owns x v n.
Proof.
  intros H. assert (forall j, baddr x v' j = baddr x v j) as Hb by (intros j; by apply baddr_ext).
  split; intros [Hn (j & Hj & E)]; (split; [done|]; exists j; split; [done | congruence]).
Qed.

Lemma file_blocks_ext x v v' data c ind fb fb' :
  (forall n, owns x v n -> v' n = v n) -> fb <= fb' -> file_blocks x v data c ind fb -> file_blocks x v' data c ind fb'.
Proof.
  intros H Hfb [H1 H2 H3 H4 H5 H6 H7 H8 H9].
  assert (forall j, baddr x v' j = baddr x v j) as Hb by (intros j; by apply baddr_ext).
  constructor; try done.
  - intros j Hj. rewrite Hb. by apply H6.
  - intros j Hj. rewrite Hb. intros H0. specialize (H7 j Hj H0). lia.
  - intros j k Hj Hk. rewrite !Hb. by apply H8.
  - intros o Ho. unfold fbyte. rewrite Hb, H; [by apply H9|].
    assert (0 <= o / BSIZE < c) by (fs_consts; zlia). split; [apply H6; [lia | left; lia]|]. exists (o / BSIZE). split; [lia | done].
Qed.

Lemma owns_range x v data c ind fb n : file_blocks x v data c ind fb -> owns x v n -> nmeta <= n < fb.
Proof. intros F [Hn (j & Hj & <-)]. by apply F. Qed.

Lemma file_addrs_fit x v data c ind fb : file_blocks x v data c ind fb -> fb < 2 ^ 32 -> Forall (fun a => 0 <= a < 2 ^ 32) (i_addrs x).
Proof.
  intros F Hfb. apply Forall_lookup. intros i a Hi. pose proof (lookup_lt_Some _ _ _ Hi) as Hl. rewrite (fl_len _ _ _ _ _ _ F) in Hl.
  pose proof nmeta_val. assert (exists j, 0 <= j <= MAXFILE /\ baddr x v j = a) as (j & Hj & E).
  { destruct (decide (i = 12)%nat) as [->|].
    - exists MAXFILE. split; [fs_consts; lia|]. change (baddr x v MAXFILE) with (nth 12 (i_addrs x) 0). by rewrite nth_lookup, Hi.
    - exists (Z.of_nat i). split; [fs_consts; lia|]. unfold baddr. rewrite (proj2 (Z.ltb_lt _ _)), Nat2Z.id by (fs_consts; lia). by rewrite nth_lookup, Hi. }
  destruct (decide (a = 0)) as [->|]; [lia|]. rewrite <-E. assert (nmeta <= baddr x v j < fb); [apply F; [done | by rewrite E] | lia].
Qed.

Lemma winode_run i x s :
  0 < i < NINODES -> winode i x s = Ok (tt, mkImg (<[IBLOCK i mk_sb := encode_dinode x (dino i) (im s (IBLOCK i mk_sb))]> (im s)) (freeinode s) (freeblock s)).
Proof.
  intros Hi. pose proof (IBLOCK_val i Hi). destruct s as [v fi fb]. unfold winode.
  by rewrite (sr_bind_run _ _ _ _ _ (rsect_run (IBLOCK i mk_sb) v fi fb ltac:(unfold FSSIZE; lia))).
Qed.

Lemma rinode_run i v fi fb : 0 < i < NINODES -> rinode i (mkImg v fi fb) = Ok (idec v i, mkImg v fi fb).
Proof.
  intros Hi. pose proof (IBLOCK_val i Hi). unfold rinode.
  by rewrite (sr_bind_run _ _ _ _ _ (rsect_run (IBLOCK i mk_sb) v fi fb ltac:(unfold FSSIZE; lia))).
Qed.

(** What [winode] does: the inode is stored, no other inode and no data block
    changes. *)
Lemma winode_facts i x v :
  0 < i < NINODES -> blocks512 v -> ino_fits x -> x = iset_meta (i_type x) (i_major x) (i_minor x) (i_nlink x) (i_size x) (i_addrs x) (dinode0 i) ->
  let v' := <[IBLOCK i mk_sb := encode_dinode x (dino i) (v (IBLOCK i mk_sb))]> v in
  idec v' i = x /\ (forall j, 0 < j < NINODES -> j <> i -> idec v' j = idec v j) /\ blocks512 v' /\
  (forall n, n < 32 \/ 58 <= n -> v' n = v n).
Proof.
  intros Hi Hl Hx Hid v'. destruct (IBLOCK_val i Hi) as [Ei Hir]. split_and!.
  - unfold idec, v'. rewrite fn_lookup_insert. rewrite (proj1 (dinode_roundtrip x (dinode0 i) _ i i (Hl _) Hx)). by rewrite <-Hid.
  - intros j Hj Hne. destruct (IBLOCK_val j Hj) as [Ej Hjr]. unfold idec, v'. destruct (decide (IBLOCK j mk_sb = IBLOCK i mk_sb)) as [E|E].
    + rewrite E, fn_lookup_insert. apply (dinode_roundtrip x (dinode0 j) _ i j (Hl _) Hx). unfold dino. change IPB with 8. zlia.
    + by rewrite fn_lookup_insert_ne by done.
  - intros n. unfold v'. destruct (decide (n = IBLOCK i mk_sb)) as [->|]; [|by rewrite fn_lookup_insert_ne].
    rewrite fn_lookup_insert. by apply encode_dinode_length.
  - intros n Hn. unfold v'. rewrite fn_lookup_insert_ne; [done|]. lia.
Qed.

Definition total (fl : list (Z * list Z)) : Z := Zsum (map (fun f => tot (nblk (Z.of_nat (length f.2)))) fl).

Record img_ok (s : img) (fl : list (Z * list Z)) : Prop := {
  im_len : blocks512 (im s);
  im_zero : zero_from (im s) (freeblock s);
  im_fb : freeblock s = nmeta + total fl;
  im_fi : freeinode s = Z.of_nat (length fl) + 1;
  im_ino : forall i t data, fl !! i = Some (t, data) ->
    let x := idec (im s) (Z.of_nat i + 1) in
    i_type x = t /\ i_major x = 0 /\ i_minor x = 0 /\ i_nlink x = 1 /\ i_size x = Z.of_nat (length data) /\
    let c := nblk (Z.of_nat (length data)) in file_blocks x (im s) data c (has_ind c) (freeblock s);
  im_disj : forall i j n, (i < length fl)%nat -> (j < length fl)%nat -> i <> j ->
    owns (idec (im s) (Z.of_nat i + 1)) (im s) n -> ~ owns (idec (im s) (Z.of_nat j + 1)) (im s) n;
  im_low : forall n, n < 32 \/ n = 58 -> im s n = if n =? 1 then sb_block else zeroes
}.

Lemma file_blocks_size x v data c ind fb z : file_blocks x v data c ind fb -> file_blocks (iset_size z x) v data c ind fb.
Proof. intros [? ? ? ? ? ? ? ? ?]. by constructor. Qed.

Lemma idec_fits v v1 i x data c ind fb z :
  file_blocks x v1 data c ind fb -> fb < 2 ^ 32 -> 0 <= z < 2 ^ 32 -> (exists a, x = iset_addrs a (idec v i)) -> ino_fits (iset_size z x).
Proof.
  intros F Hfb Hz [a E]. pose proof (fl_len _ _ _ _ _ _ F) as Hl. pose proof (file_addrs_fit _ _ _ _ _ _ F Hfb) as Ha.
  unfold ino_fits. rewrite E in *. cbn in *. split_and!; try done; try lia;
    match goal with |- context [s16 ?z] => pose proof (s16_range z); lia end.
Qed.

Lemma tot_nonneg n : 0 <= n -> 0 <= tot (nblk n).
Proof. intros Hn. unfold tot, nblk. case_match; fs_consts; zlia. Qed.

Lemma total_nonneg fl : 0 <= total fl.
Proof.
  unfold total, Zsum. induction fl as [|f fl IH]; cbn; [done|]. pose proof (tot_nonneg (Z.of_nat (length f.2)) ltac:(lia)). lia.
Qed.

Lemma total_app l1 l2 : total (l1 ++ l2) = total l1 + total l2.
Proof. unfold total. by rewrite map_app, Zsum_app. Qed.

Lemma total_insert fl i t data data' :
  fl !! i = Some (t, data) -> total (<[i := (t, data')]> fl) = total fl - tot (nblk (Z.of_nat (length data))) + tot (nblk (Z.of_nat (length data'))).
Proof.
  intros Hi. unfold total. change (map ?f) with (fmap (M := list) f). rewrite list_fmap_insert.
  rewrite (Zsum_insert _ _ (tot (nblk (Z.of_nat (length data))))); [done|]. by rewrite list_lookup_fmap, Hi.
Qed.

Lemma iappend_ok s fl i t data p :
  img_ok s fl -> fl !! i = Some (t, data) -> Z.of_nat (length fl) < NINODES -> nmeta + total (<[i := (t, data ++ p)]> fl) <= FSSIZE ->
  Z.of_nat (length data + length p) <= MAXFILE * BSIZE ->
  exists s', iappend (Z.of_nat i + 1) p s = Ok (tt, s') /\ img_ok s' (<[i := (t, data ++ p)]> fl).
Proof.
  destruct s as [v fi fb]. intros [K1 K2 K3 K4 K5 K6 K7] Hi Hn Hfb Hmax. cbn [im freeinode freeblock] in *. rewrite (total_insert _ _ _ _ _ Hi), length_app, Nat2Z.inj_add in Hfb.
  pose proof (lookup_lt_Some _ _ _ Hi) as Hlt. pose proof nmeta_val as Hm. unfold FSSIZE, NINODES in *.
  destruct (K5 i t data Hi) as (T1 & T2 & T3 & T4 & T5 & F). set (I := Z.of_nat i + 1) in *. set (x := idec v I) in *.
  assert (0 < I < 200) as HI by lia. assert (MAXFILE * BSIZE = 71680) as Hmf by done.
  assert (forall n, owns x v n -> nmeta <= n < fb) as Hown by (intros n; by apply (owns_range _ _ _ _ _ _ _ F)).
  assert (nmeta <= fb) as Hfb0 by (rewrite K3; pose proof (total_nonneg fl); lia).
  destruct (iappend_loop_ok (S (length p)) x v data fb fi p F K1 K2 Hfb0 ltac:(lia) ltac:(lia) ltac:(unfold FSSIZE; lia)) as (x' & v1 & fb1 & E1 & F1 & S1 & Hfb1).
  rewrite Nat2Z.inj_add in Hmax. set (n' := Z.of_nat (length data) + Z.of_nat (length p)) in *.
  assert (fb1 <= 1000 /\ fb <= fb1) as [Hfb1' Hfb1''] by (split; [rewrite Hfb1; lia | apply S1]).
  assert (forall n, n < nmeta -> v1 n = v n) as Hlow by (intros n Hlo; apply S1; [lia | intros Ho%Hown; lia]).
  assert (forall j, 0 < j < NINODES -> idec v1 j = idec v j) as Hdec.
  { intros j Hj. unfold idec. rewrite Hlow; [done|]. pose proof (IBLOCK_val j Hj). lia. }
  assert (ino_fits (iset_size n' x')) as Hfit.
  { apply (idec_fits v v1 I x' (data ++ p) (nblk n') (has_ind (nblk n')) fb1); [done | lia | lia | apply S1]. }
  destruct (winode_facts I (iset_size n' x') v1 HI (sf_len _ _ _ _ _ _ S1) Hfit) as (W1 & W2 & W3 & W4).
  { destruct (sf_meta _ _ _ _ _ _ S1) as [a ->]. done. }
  set (v2 := <[IBLOCK I mk_sb := _]> v1) in *. exists (mkImg v2 fi fb1). split.
  { unfold iappend. rewrite (sr_bind_run _ _ _ _ _ (rinode_run I v fi fb HI)). fold x. rewrite T5.
    rewrite (sr_bind_run _ _ _ _ _ E1). by rewrite (winode_run I _ (mkImg v1 fi fb1) HI). }
  assert (forall n, nmeta <= n -> v2 n = v1 n) as Hv2 by (intros n Hn2; apply W4; lia).
  assert (forall n, owns (iset_size n' x') v2 n <-> owns x' v1 n) as Hownx.
  { intros n. apply (owns_ext x' v1 v2). intros m Hm2. apply Hv2. apply (owns_range _ _ _ _ _ _ _ F1 Hm2). }
  (* the other inodes *)
  assert (forall j t' d', fl !! j = Some (t', d') -> j <> i -> idec v2 (Z.of_nat j + 1) = idec v (Z.of_nat j + 1) /\
    (forall n, owns (idec v (Z.of_nat j + 1)) v n -> v2 n = v n)) as Hoth.
  { intros j t' d' Hj Hne. pose proof (lookup_lt_Some _ _ _ Hj) as Hjl.
    split; [rewrite W2 by (unfold I, NINODES; lia); apply Hdec; unfold NINODES; lia|]. intros n Ho.
    destruct (K5 j t' d' Hj) as (_ & _ & _ & _ & _ & Fj). pose proof (owns_range _ _ _ _ _ _ _ Fj Ho) as Hr.
    rewrite Hv2 by lia. apply S1; [lia|]. by apply (K6 j i n Hjl Hlt Hne). }
  assert (forall j, (j < length fl)%nat -> j <> i -> forall n, owns (idec v2 (Z.of_nat j + 1)) v2 n <-> owns (idec v (Z.of_nat j + 1)) v n) as Hownj.
  { intros j Hj Hne n. apply lookup_lt_is_Some_2 in Hj as [[t' d'] Hj]. destruct (Hoth j t' d' Hj Hne) as [-> Hk]. by apply owns_ext. }
  constructor; cbn [im freeinode freeblock].
  - done.
  - intros n Hz. rewrite Hv2 by lia. by apply S1.
  - rewrite (total_insert _ _ _ _ _ Hi), length_app, Nat2Z.inj_add. fold n'. rewrite Hfb1, K3. lia.
  - by rewrite length_insert.
  - intros j t' d' Hj. apply list_lookup_insert_Some in Hj as [(<- & [= <- <-] & _)|[Hne Hj]].
    + fold I. rewrite W1. rewrite length_app, Nat2Z.inj_add. fold n'. destruct (sf_meta _ _ _ _ _ _ S1) as [a Ea].
      cbv zeta. split_and!; [by rewrite Ea .. | done |]. apply file_blocks_size.
      apply (file_blocks_ext x' v1 v2 _ _ _ fb1); [|lia | done]. intros n Ho. apply Hv2. apply (owns_range _ _ _ _ _ _ _ F1 Ho).
    + destruct (Hoth j t' d' Hj (not_eq_sym Hne)) as [-> Hk]. destruct (K5 j t' d' Hj) as (U1 & U2 & U3 & U4 & U5 & Fj). split_and!; try done.
      by apply (file_blocks_ext _ v v2 _ _ _ fb).
  - rewrite length_insert. intros j k n Hj Hk Hjk. destruct (decide (j = i)) as [->|Hji].
    + fold I. rewrite W1, Hownx, (Hownj k Hk (not_eq_sym Hjk)). intros Ho Hok. apply (sf_own _ _ _ _ _ _ S1) in Ho as [Ho|Ho].
      * by apply (K6 i k n Hlt Hk Hjk).
      * apply lookup_lt_is_Some_2 in Hk as [[t' d'] Hk]. destruct (K5 k t' d' Hk) as (_ & _ & _ & _ & _ & Fk). pose proof (owns_range _ _ _ _ _ _ _ Fk Hok). lia.
    + rewrite (Hownj j Hj Hji). intros Ho. destruct (decide (k = i)) as [->|Hki].
      * fold I. rewrite W1, Hownx. intros Hoi. apply (sf_own _ _ _ _ _ _ S1) in Hoi as [Hoi|Hoi].
        -- by apply (K6 j i n Hj Hlt Hjk).
        -- apply lookup_lt_is_Some_2 in Hj as [[t' d'] Hj]. destruct (K5 j t' d' Hj) as (_ & _ & _ & _ & _ & Fj). pose proof (owns_range _ _ _ _ _ _ _ Fj Ho). lia.
      * rewrite (Hownj k Hk Hki). by apply (K6 j k n).
  - intros n Hlo. rewrite W4 by lia. rewrite Hlow by lia. by apply K7.
Qed.

Lemma baddr_none I t v j : baddr (iset_meta t 0 0 1 0 (replicate 13 0) (dinode0 I)) v j = 0.
Proof.
  unfold baddr. cbn [i_addrs iset_meta].
  assert (forall k, nth k (replicate 13 0) 0 = 0) as H.
  { intros k. rewrite nth_lookup. destruct (replicate 13 0 !! k) as [a|] eqn:E; [|done]. by apply lookup_replicate in E as [-> _]. }
  rewrite !H. repeat case_match; done.
Qed.

Lemma mk_ialloc_ok s fl t :
  img_ok s fl -> Z.of_nat (length fl) + 1 < NINODES -> 0 <= t < 2 ^ 15 ->
  exists s', mk_ialloc t s = Ok (Z.of_nat (length fl) + 1, s') /\ img_ok s' (fl ++ [(t, [])]) /\ freeblock s' = freeblock s.
Proof.
  destruct s as [v fi fb]. intros [K1 K2 K3 K4 K5 K6 K7] Hn Ht. cbn [im freeinode freeblock] in *. unfold NINODES in *.
  set (I := Z.of_nat (length fl) + 1) in *. set (x := iset_meta t 0 0 1 0 (replicate 13 0) (dinode0 I)).
  assert (ino_fits x) as Hfit.
  { unfold ino_fits, x. cbn. split_and!; try lia; try done. by repeat constructor. }
  destruct (winode_facts I x v ltac:(unfold NINODES; lia) K1 Hfit eq_refl) as (W1 & W2 & W3 & W4). set (v' := <[IBLOCK I mk_sb := _]> v) in *.
  exists (mkImg v' (I + 1) fb). split; [|split; [|done]].
  { unfold mk_ialloc. rewrite (sr_bind_run (sr_gets freeinode) _ _ I (mkImg v fi fb)) by (unfold sr_gets; cbn; by rewrite K4).
    rewrite (sr_bind_run (sr_modify _) _ _ tt (mkImg v (I + 1) fb)) by (unfold sr_modify; cbn; by rewrite u32_small by lia).
    by rewrite (sr_bind_run _ _ _ _ _ (winode_run I x (mkImg v (I + 1) fb) ltac:(unfold NINODES; lia))). }
  assert (forall n, ~ owns x v' n) as Hno by (intros n [Hn0 (j & _ & E)]; unfold x in E; rewrite baddr_none in E; congruence).
  pose proof nmeta_val as Hm.
  assert (forall j t' d', fl !! j = Some (t', d') -> idec v' (Z.of_nat j + 1) = idec v (Z.of_nat j + 1) /\
    (forall n, owns (idec v (Z.of_nat j + 1)) v n -> v' n = v n)) as Hoth.
  { intros j t' d' Hj. pose proof (lookup_lt_Some _ _ _ Hj) as Hjl. split; [apply W2; unfold NINODES, I; lia|]. intros n Ho.
    destruct (K5 j t' d' Hj) as (_ & _ & _ & _ & _ & Fj). pose proof (owns_range _ _ _ _ _ _ _ Fj Ho). apply W4. lia. }
  assert (nmeta <= fb) as Hfb0 by (rewrite K3; pose proof (total_nonneg fl); lia).
  constructor; cbn [im freeinode freeblock].
  - done.
  - intros n Hz. rewrite W4 by lia. by apply K2.
  - rewrite K3. rewrite total_app. change (total [(t, [])]) with 0. lia.
  - rewrite length_app. cbn. unfold I. lia.
  - intros j t' d' Hj. apply lookup_app_Some in Hj as [Hj|[Hl Hj]].
    + destruct (Hoth j t' d' Hj) as [-> Hk]. destruct (K5 j t' d' Hj) as (U1 & U2 & U3 & U4 & U5 & Fj). split_and!; try done.
      by apply (file_blocks_ext _ v v' _ _ _ fb).
    + apply list_lookup_singleton_Some in Hj as [Hj [= <- <-]]. replace (Z.of_nat j + 1) with I by (unfold I; lia). rewrite W1.
      split_and!; try done. constructor; try done; cbn [length].
      * intros j' Hj'. unfold x. rewrite baddr_none. split; [done|]. change (nblk (Z.of_nat 0)) with 0. intros [?|[_ ?]]; [lia | done].
      * intros j' Hj'. unfold x. by rewrite baddr_none.
      * intros j' k' Hj' Hk'. unfold x. by rewrite baddr_none.
      * intros o Ho. change (nblk (Z.of_nat 0)) with 0 in Ho. lia.
  - rewrite length_app. cbn [length]. intros j k n Hj Hk Hjk.
    assert (forall q, (q < length fl + 1)%nat -> q <> length fl -> forall n, owns (idec v' (Z.of_nat q + 1)) v' n <-> owns (idec v (Z.of_nat q + 1)) v n) as Hown.
    { intros q Hq Hne m. assert (q < length fl)%nat as Hq' by lia. apply lookup_lt_is_Some_2 in Hq' as [[t' d'] Hq'].
      destruct (Hoth q t' d' Hq') as [-> Hk']. by apply owns_ext. }
    destruct (decide (j = length fl)) as [->|Hj']; [fold I; rewrite W1; by intros ?%Hno|].
    destruct (decide (k = length fl)) as [->|Hk']; [fold I; rewrite W1; intros _; apply Hno|].
    rewrite (Hown j), (Hown k) by done. apply K6; lia.
  - intros n Hlo. rewrite W4 by lia. by apply K7.
Qed.

Lemma append_all_ok s fl i t data ps :
  img_ok s fl -> fl !! i = Some (t, data) -> Z.of_nat (length fl) < NINODES ->
  Z.of_nat (length (data ++ concat ps)) <= MAXFILE * BSIZE -> nmeta + total (<[i := (t, data ++ concat ps)]> fl) <= FSSIZE ->
  exists s', append_all (Z.of_nat i + 1) ps s = Ok (tt, s') /\ img_ok s' (<[i := (t, data ++ concat ps)]> fl).
Proof.
  revert s fl data. induction ps as [|p ps IH]; intros s fl data Hok Hi Hn Hmax Hfit; cbn [append_all concat] in *.
  - exists s. split; [done|]. rewrite app_nil_r. by rewrite list_insert_id.
  - rewrite app_assoc in *. assert (i < length fl)%nat as Hlt by (by eapply lookup_lt_Some).
    rewrite (total_insert _ _ _ _ _ Hi) in Hfit. rewrite length_app in Hmax.
    destruct (iappend_ok s fl i t data p Hok Hi Hn) as (s1 & E1 & Hok1).
    { rewrite (total_insert _ _ _ _ _ Hi).
      pose proof (tot_mono (Z.of_nat (length (data ++ p))) (Z.of_nat (length ((data ++ p) ++ concat ps))) ltac:(rewrite !length_app; lia)). lia. }
    { rewrite <-length_app. lia. }
    rewrite (sr_bind_run _ _ _ _ _ E1).
    destruct (IH s1 (<[i := (t, data ++ p)]> fl) (data ++ p)) as (s2 & E2 & Hok2); try done.
    + by apply list_lookup_insert_eq.
    + by rewrite length_insert.
    + by rewrite length_app.
    + rewrite list_insert_insert_eq. by rewrite (total_insert _ _ _ _ _ Hi).
    + exists s2. split; [done|]. by rewrite list_insert_insert_eq in Hok2.
Qed.

Lemma concat_chunks fuel l : (length l <= fuel)%nat -> concat (chunks fuel l) = l.
Proof.
  revert l. induction fuel as [|f IH]; intros [|b l] Hl; cbn [chunks concat]; try done; [cbn in Hl; lia|].
  rewrite IH; [apply take_drop|]. rewrite length_drop. cbn in Hl |- *. lia.
Qed.

(** The root directory of the files, and the inodes of the image. *)
Definition dir_data (files : list (list Z * list Z)) : list Z :=
  dirent_bytes 1 [46] ++ dirent_bytes 1 [46; 46] ++ concat (imap (fun i f => dirent_bytes (Z.of_nat i + 2) (host_name f.1)) files).
Definition inodes_of (files : list (list Z * list Z)) : list (Z * list Z) := (T_DIR, dir_data files) :: map (fun f => (T_FILE, f.2)) files.

Lemma dirent_length i name : length (dirent_bytes i name) = 16%nat.
Proof. unfold dirent_bytes. rewrite !length_app, length_take, length_app, length_replicate. change (length (le16 i)) with 2%nat. lia. Qed.

Lemma dir_data_snoc files f : dir_data (files ++ [f]) = dir_data files ++ dirent_bytes (Z.of_nat (length files) + 2) (host_name f.1).
Proof.
  unfold dir_data. rewrite imap_app, concat_app. cbn [imap concat]. unfold compose. rewrite Nat.add_0_r, app_nil_r.
  by rewrite !app_assoc.
Qed.

Lemma dir_data_length files : length (dir_data files) = (16 * (length files + 2))%nat.
Proof.
  induction files as [|f files IH] using rev_ind; [done|]. rewrite dir_data_snoc, !length_app, IH, dirent_length. cbn. lia.
Qed.

Lemma total_mono a b : Forall2 (fun f g : Z * list Z => (length f.2 <= length g.2)%nat) a b -> total a <= total b.
Proof.
  induction 1 as [|f g a b Hfg H IH]; [done|]. unfold total, Zsum in *. cbn.
  pose proof (tot_mono (Z.of_nat (length f.2)) (Z.of_nat (length g.2)) ltac:(lia)). lia.
Qed.

Definition files_fit (files : list (list Z * list Z)) : Prop :=
  (length files <= 198)%nat /\ Forall (fun f => Z.of_nat (length f.2) <= MAXFILE * BSIZE /\ existsb (Z.eqb 47) f.1 = false) files /\
  nmeta + total (inodes_of files) <= FSSIZE.

Lemma files_fit_app pre post : files_fit (pre ++ post) -> files_fit pre.
Proof.
  intros (H1 & H2 & H3). rewrite length_app in H1. apply Forall_app in H2 as [H2 _]. split_and!; [lia | done|].
  enough (total (inodes_of pre) <= total (inodes_of (pre ++ post))) by lia. unfold inodes_of. rewrite map_app.
  change (_ :: map ?g pre ++ ?r) with (((T_DIR, dir_data (pre ++ post)) :: map g pre) ++ r). rewrite total_app.
  pose proof (total_nonneg (map (fun f : list Z * list Z => (T_FILE, f.2)) post)).
  enough (total ((T_DIR, dir_data pre) :: map (fun f => (T_FILE, f.2)) pre) <= total ((T_DIR, dir_data (pre ++ post)) :: map (fun f => (T_FILE, f.2)) pre)) by lia.
  apply total_mono. constructor; [cbn [snd]; rewrite !dir_data_length, length_app; lia|]. apply Forall_Forall2_diag, Forall_true. done.
Qed.

Lemma add_file_ok s pre f :
  img_ok s (inodes_of pre) -> files_fit (pre ++ [f]) ->
  exists s', add_file f.1 (Some f.2) s = Ok (tt, s') /\ img_ok s' (inodes_of (pre ++ [f])).
Proof.
  intros Hok (H1 & H2 & H3). rewrite length_app in H1. cbn in H1. apply Forall_app in H2 as [_ H2]. apply Forall_cons in H2 as [[H2 H2'] _].
  unfold add_file. rewrite H2'. assert (length (inodes_of pre) = S (length pre)) as Hl by (cbn; by rewrite length_map).
  destruct (mk_ialloc_ok s (inodes_of pre) T_FILE Hok) as (s1 & E1 & Hok1 & Hfb1); [unfold NINODES; lia | by unfold T_FILE|].
  rewrite (sr_bind_run _ _ _ _ _ E1). replace (Z.of_nat (length (inodes_of pre)) + 1) with (Z.of_nat (length pre) + 2) by lia.
  set (d := dirent_bytes (Z.of_nat (length pre) + 2) (host_name f.1)).
  assert (inodes_of (pre ++ [f]) = <[S (length pre) := (T_FILE, [] ++ f.2)]> ((T_DIR, dir_data pre ++ d) :: map (fun f => (T_FILE, f.2)) pre ++ [(T_FILE, [])])) as Efin.
  { unfold inodes_of. rewrite dir_data_snoc, map_app. change (<[S ?n := ?y]> (?h :: ?l)) with (h :: <[n := y]> l). f_equal.
    rewrite insert_app_r_alt by (by rewrite length_map). by rewrite length_map, Nat.sub_diag. }
  set (fl1 := (T_DIR, dir_data pre ++ d) :: _) in Efin.
  assert (fl1 !! S (length pre) = Some (T_FILE, [])) as Hlk.
  { unfold fl1. cbn. rewrite <-(length_map (fun f : list Z * list Z => (T_FILE, f.2)) pre). apply list_lookup_middle. done. }
  assert (nmeta + total fl1 <= FSSIZE) as Hfit1.
  { rewrite Efin, (total_insert _ _ _ _ _ Hlk) in H3. pose proof (tot_mono 0 (Z.of_nat (length f.2)) ltac:(lia)). cbn [length app] in H3. change (Z.of_nat 0) with 0 in H3. lia. }
  destruct (iappend_ok s1 (inodes_of pre ++ [(T_FILE, [])]) 0 T_DIR (dir_data pre) d Hok1 eq_refl) as (s2 & E2 & Hok2).
  { rewrite length_app, Hl. unfold NINODES. cbn. lia. }
  { exact Hfit1. }
  { unfold d. rewrite dirent_length, dir_data_length. fs_consts. lia. }
  change (Z.of_nat 0 + 1) with ROOTINO in E2. rewrite (sr_bind_run _ _ _ _ _ E2). change (<[0%nat := _]> (inodes_of pre ++ _)) with fl1 in Hok2.
  destruct (append_all_ok s2 fl1 (S (length pre)) T_FILE [] (chunks (length f.2) f.2) Hok2 Hlk) as (s3 & E3 & Hok3).
  { unfold fl1. cbn. rewrite length_app, length_map. unfold NINODES. cbn. lia. }
  { by rewrite concat_chunks. }
  { rewrite concat_chunks by done. by rewrite <-Efin. }
  rewrite concat_chunks in Hok3 by done. rewrite <-Efin in Hok3.
  exists s3. split; [|done]. by replace (Z.of_nat (length pre) + 2) with (Z.of_nat (S (length pre)) + 1) by lia.
Qed.

Lemma add_files_ok s pre post :
  img_ok s (inodes_of pre) -> files_fit (pre ++ post) ->
  exists s', add_files (map (fun f => (f.1, Some f.2)) post) s = Ok (tt, s') /\ img_ok s' (inodes_of (pre ++ post)).
Proof.
  revert s pre. induction post as [|f post IH]; intros s pre Hok Hfit; cbn [add_files map].
  - exists s. by rewrite app_nil_r.
  - rewrite (app_assoc pre [f] post : pre ++ f :: post = _) in *.
    destruct (add_file_ok s pre f Hok (files_fit_app _ _ Hfit)) as (s1 & E1 & Hok1).
    rewrite (sr_bind_run _ _ _ _ _ E1). by apply IH.
Qed.

(** ** The finished image *)

Lemma set_bit_ok b i j : length b = 512%nat -> 0 <= i < 4096 -> 0 <= j < 4096 ->
  Z.testbit (get8 (put8 b (i / 8) (Z.lor (get8 b (i / 8)) (Z.shiftl 1 (i mod 8)))) (j / 8)) (j mod 8) =
  (Z.testbit (get8 b (j / 8)) (j mod 8) || (j =? i)).
Proof.
  intros Hl Hi Hj. rewrite get8_put8 by (done || zlia). assert (0 <= j mod 8 < 8) as Hm by zlia.
  destruct (Z.eqb_spec (j / 8) (i / 8)) as [E|E].
  - unfold u8. rewrite Z.mod_pow2_bits_low by lia. rewrite Z.lor_spec, E, Z.shiftl_1_l. f_equal.
    destruct (Z.eqb_spec j i) as [->|Hne]; [by apply Z.pow2_bits_true; lia | apply Z.pow2_bits_false; zlia].
  - rewrite (proj2 (Z.eqb_neq j i)) by (intros ->; done). by rewrite orb_false_r.
Qed.

Lemma bitmap_block_ok n :
  Z.of_nat n <= 4096 -> length (bitmap_block (Z.of_nat n)) = 512%nat /\
  forall j, 0 <= j < 4096 -> Z.testbit (get8 (bitmap_block (Z.of_nat n)) (j / 8)) (j mod 8) = (j <? Z.of_nat n).
Proof.
  induction n as [|n IH]; intros Hn.
  - split; [done|]. intros j Hj. change (bitmap_block (Z.of_nat 0)) with zeroes. rewrite get8_zeroes, Z.testbit_0_l.
    symmetry. apply Z.ltb_ge. lia.
  - destruct (IH ltac:(lia)) as [Hl Hb]. unfold bitmap_block in *.
    rewrite Nat2Z.inj_succ, <-Z.add_1_r, seqZ_app by lia. rewrite foldl_app, Z.add_0_l.
    rewrite (seqZ_cons (Z.of_nat n)) by lia. cbn [foldl seqZ Z.pred]. change (seqZ (Z.succ (Z.of_nat n)) (Z.pred 1)) with (@nil Z). cbn [foldl]. split.
    + rewrite put8_length; [done | zlia | rewrite Hl; zlia].
    + intros j Hj. rewrite set_bit_ok, Hb by (done || lia).
      destruct (Z.ltb_spec j (Z.of_nat n)), (Z.eqb_spec j (Z.of_nat n)), (Z.ltb_spec j (Z.of_nat n + 1)); cbn; done || lia.
Qed.

(** What the kernel finds: the superblock, an empty log, the exact free map,
    the root directory and the files. *)
Record image_ok (v : Z -> block) (files : list (list Z * list Z)) : Prop := {
  ii_sb : mkSb (get32 (v 1) 0) (get32 (v 1) 4) (get32 (v 1) 8) (get32 (v 1) 12) (get32 (v 1) 16) (get32 (v 1) 20) (get32 (v 1) 24) = mk_sb;
  ii_log : get32 (v (sb_logstart mk_sb)) 0 = 0;
  ii_geo : geo (sb_logstart mk_sb) (sb_nlog mk_sb) FSSIZE mk_sb;
  ii_used : forall b, 0 <= b < sb_size mk_sb -> used mk_sb v b = (b <? nmeta + total (inodes_of files));
  ii_free : free_ok (sb_logstart mk_sb) (sb_nlog mk_sb) FSSIZE mk_sb v;
  ii_root : let x := idec v ROOTINO in let n := 16 * (Z.of_nat (length files) + 2) in
    i_type x = T_DIR /\ i_nlink x = 1 /\ i_size x = (n / BSIZE + 1) * BSIZE /\ covered x v 0 n /\ contents x v 0 n = dir_data files /\
    (forall o, n <= o < i_size x -> baddr x v (o / BSIZE) <> 0 -> fbyte x v o = 0);
  ii_file : forall i name data, files !! i = Some (name, data) -> let x := idec v (Z.of_nat i + 2) in
    i_type x = T_FILE /\ i_nlink x = 1 /\ i_size x = Z.of_nat (length data) /\ covered x v 0 (i_size x) /\ contents x v 0 (i_size x) = data;
  ii_wf : forall i, 1 <= i <= Z.of_nat (length files) + 1 -> ino_wf (sb_logstart mk_sb) (sb_nlog mk_sb) FSSIZE mk_sb v (idec v i);
  ii_disj : forall i j n, 1 <= i <= Z.of_nat (length files) + 1 -> 1 <= j <= Z.of_nat (length files) + 1 -> i <> j ->
    owns (idec v i) v n -> ~ owns (idec v j) v n
}.

Lemma file_read x v data c ind fb :
  file_blocks x v data c ind fb -> let n := Z.of_nat (length data) in covered x v 0 n /\ contents x v 0 n = data.
Proof.
  intros F n. pose proof (fl_size _ _ _ _ _ _ F) as Hs. pose proof (fl_c _ _ _ _ _ _ F) as Hc. split.
  - intros o Ho. apply F; [|left]; unfold n in Ho; fs_consts; zlia.
  - apply list_eq. intros i. unfold contents. rewrite list_lookup_fmap. destruct (decide (i < length data)%nat) as [Hi|Hi].
    + rewrite lookup_seqZ_lt by (unfold n; lia). cbn. rewrite (fl_data _ _ _ _ _ _ F) by (unfold n in *; lia).
      rewrite Z.add_0_l, Nat2Z.id. rewrite nth_lookup. destruct (lookup_lt_is_Some_2 data i Hi) as [b ->]. done.
    + rewrite lookup_seqZ_ge by (unfold n; lia). cbn. symmetry. apply lookup_ge_None_2. lia.
Qed.

Lemma mk_bblock b : 0 <= b < FSSIZE -> BBLOCK b mk_sb = 58.
Proof. intros Hb. unfold BBLOCK, FSSIZE in *. change (sb_bmapstart mk_sb) with 58. change BPB with 4096. rewrite u32_small; zlia. Qed.

Lemma mk_geo : geo (sb_logstart mk_sb) (sb_nlog mk_sb) FSSIZE mk_sb.
Proof.
  constructor; try done. intros n (x & Hx & ->). rewrite mk_bblock by done. unfold home, FSSIZE.
  change (sb_logstart mk_sb) with 2. change (sb_nlog mk_sb) with 30. lia.
Qed.

Lemma data_home b : nmeta <= b < FSSIZE -> home (sb_logstart mk_sb) (sb_nlog mk_sb) FSSIZE b /\ ~ is_bitmap mk_sb b.
Proof.
  rewrite nmeta_val. intros Hb. split.
  - unfold home, FSSIZE in *. change (sb_logstart mk_sb) with 2. change (sb_nlog mk_sb) with 30. lia.
  - intros (x & Hx & E). rewrite mk_bblock in E by done. lia.
Qed.

(** The size [z] of the root and the bitmap, over an image that has the files. *)
Record sealed (v v2 : Z -> block) (fb z : Z) : Prop := {
  se_keep : forall n, n < 32 \/ 58 < n -> v2 n = v n;
  se_dec : forall i, 0 < i < NINODES -> idec v2 i = if i =? ROOTINO then iset_size z (idec v ROOTINO) else idec v i;
  se_used : forall b, 0 <= b < FSSIZE -> used mk_sb v2 b = (b <? fb)
}.

Lemma finish_run s files :
  img_ok s (inodes_of files) -> files_fit files ->
  exists v2, (_ ← fix_root; used ← sr_gets freeblock; mk_balloc used) s = Ok (tt, mkImg v2 (freeinode s) (freeblock s)) /\
    sealed (im s) v2 (freeblock s) ((16 * (Z.of_nat (length files) + 2) / BSIZE + 1) * BSIZE).
Proof.
  destruct s as [v fi fb]. intros [K1 K2 K3 K4 K5 K6 K7] (F1 & F2 & F3). cbn [im freeinode freeblock] in *.
  pose proof nmeta_val as Hm. pose proof (total_nonneg (inodes_of files)) as Hnn. assert (0 < ROOTINO < NINODES) as HR by done.
  destruct (K5 0%nat T_DIR (dir_data files) eq_refl) as (T1 & T2 & T3 & T4 & T5 & FR). change (Z.of_nat 0 + 1) with ROOTINO in *.
  set (z := (16 * _ / BSIZE + 1) * BSIZE).
  assert (u32 ((i_size (idec v ROOTINO) / BSIZE + 1) * BSIZE) = z /\ 0 <= z < 2 ^ 32) as [Hz Hz'].
  { rewrite T5, dir_data_length. replace (Z.of_nat (16 * (length files + 2))) with (16 * (Z.of_nat (length files) + 2)) by lia. fold z.
    assert (0 <= z < 2 ^ 32) by (unfold z; fs_consts; zlia). by rewrite u32_small. }
  assert (ino_fits (iset_size z (idec v ROOTINO))) as Hfit.
  { apply (idec_fits v v ROOTINO _ _ _ _ _ z FR); [unfold FSSIZE in F3; lia | done |]. exists (i_addrs (idec v ROOTINO)). reflexivity. }
  destruct (winode_facts ROOTINO (iset_size z (idec v ROOTINO)) v HR K1 Hfit eq_refl) as (W1 & W2 & W3 & W4). set (v1 := <[IBLOCK ROOTINO mk_sb := _]> v) in *.
  exists (<[58 := bitmap_block fb]> v1). split.
  { unfold fix_root. rewrite (sr_bind_run _ _ _ tt (mkImg v1 fi fb)).
    - rewrite (sr_bind_run (sr_gets freeblock) _ _ fb (mkImg v1 fi fb)) by done. unfold mk_balloc.
      by rewrite (proj2 (Z.ltb_lt fb (BSIZE * 8))) by (unfold FSSIZE in F3; fs_consts; lia).
    - rewrite (sr_bind_run _ _ _ _ _ (rinode_run ROOTINO v fi fb HR)), Hz. by rewrite (winode_run ROOTINO _ (mkImg v fi fb) HR). }
  destruct (bitmap_block_ok (Z.to_nat fb) ltac:(unfold FSSIZE in F3; lia)) as [Hbl Hbb]. rewrite Z2Nat.id in Hbl, Hbb by lia. constructor.
  - intros n Hn. rewrite fn_lookup_insert_ne by lia. apply W4. lia.
  - intros i Hi. pose proof (IBLOCK_val i Hi). unfold idec at 1. rewrite fn_lookup_insert_ne by lia. fold (idec v1 i).
    destruct (Z.eqb_spec i ROOTINO) as [->|Hne]; [done | by apply W2].
  - intros b Hb. unfold FSSIZE in Hb. unfold used. rewrite mk_bblock, fn_lookup_insert, (Z.mod_small b BPB) by (done || change BPB with 4096; lia). apply Hbb. lia.
Qed.

(** Every inode keeps its blocks. *)
Lemma sealed_inode s files v2 z i t data :
  img_ok s (inodes_of files) -> (length files <= 198)%nat -> sealed (im s) v2 (freeblock s) z -> inodes_of files !! i = Some (t, data) ->
  let x := idec v2 (Z.of_nat i + 1) in let c := nblk (Z.of_nat (length data)) in
  i_type x = t /\ i_nlink x = 1 /\ i_size x = (if decide (i = 0%nat) then z else Z.of_nat (length data)) /\
  file_blocks x v2 data c (has_ind c) (freeblock s) /\ (forall n, owns x v2 n <-> owns (idec (im s) (Z.of_nat i + 1)) (im s) n).
Proof.
  destruct s as [v fi fb]. intros [K1 K2 K3 K4 K5 K6 K7] Hl [Hv Hdec _] Hi x c. cbn [im freeblock] in *.
  assert (i < S (length files))%nat as Hil by (apply lookup_lt_Some in Hi; cbn in Hi; by rewrite length_map in Hi).
  destruct (K5 i t data Hi) as (U1 & U2 & U3 & U4 & U5 & Fi). pose proof nmeta_val as Hm.
  assert (forall n, owns (idec v (Z.of_nat i + 1)) v n -> v2 n = v n) as Hk.
  { intros n Ho. pose proof (owns_range _ _ _ _ _ _ _ Fi Ho). apply Hv. lia. }
  pose proof (file_blocks_ext _ v v2 _ _ _ fb fb Hk ltac:(lia) Fi) as Fi2. pose proof (fun n => owns_ext _ _ _ n Hk) as Ho.
  unfold x. rewrite Hdec by (unfold NINODES; lia). destruct (Z.eqb_spec (Z.of_nat i + 1) ROOTINO) as [E|E]; unfold ROOTINO in E.
  - rewrite decide_True by lia. replace (Z.of_nat i + 1) with ROOTINO in * by (unfold ROOTINO; lia).
    split; [done|]. split; [done|]. split; [done|]. split; [by apply file_blocks_size | exact Ho].
  - rewrite decide_False by lia. split; [done|]. split; [done|]. split; [done|]. split; [exact Fi2 | exact Ho].
Qed.

Lemma finish_ok s files :
  img_ok s (inodes_of files) -> files_fit files ->
  exists s', (_ ← fix_root; used ← sr_gets freeblock; mk_balloc used) s = Ok (tt, s') /\
    freeblock s' = nmeta + total (inodes_of files) /\ image_ok (im s') files.
Proof.
  intros Hok Hff. destruct (finish_run s files Hok Hff) as (v2 & E & Hs). eexists. split; [exact E|]. cbn [im freeblock].
  pose proof (im_fb _ _ Hok) as Hfb. split; [exact Hfb|]. destruct Hff as (F1 & _ & F3). rewrite <-Hfb in F3.
  pose proof (fun i t data => sealed_inode s files v2 _ i t data Hok F1 Hs) as Hino. pose proof nmeta_val as Hm.
  pose proof (total_nonneg (inodes_of files)) as Hnn. set (z := (16 * _ / BSIZE + 1) * BSIZE) in *.
  assert (forall i, 1 <= i <= Z.of_nat (length files) + 1 -> exists t data, inodes_of files !! Z.to_nat (i - 1) = Some (t, data) /\ Z.of_nat (Z.to_nat (i - 1)) + 1 = i) as Hix.
  { intros i Hi. destruct (lookup_lt_is_Some_2 (inodes_of files) (Z.to_nat (i - 1))) as [[t data] Ei]; [cbn; rewrite length_map; lia|]. exists t, data. split; [done | lia]. }
  constructor.
  - rewrite (se_keep _ _ _ _ Hs), (im_low _ _ Hok) by lia. vm_compute. reflexivity.
  - change (sb_logstart mk_sb) with 2. rewrite (se_keep _ _ _ _ Hs), (im_low _ _ Hok) by lia. vm_compute. reflexivity.
  - apply mk_geo.
  - intros b Hb. rewrite <-Hfb. by apply Hs.
  - intros b Hb Hf. rewrite (se_used _ _ _ _ Hs b Hb) in Hf. apply Z.ltb_ge in Hf. split; [lia|]. apply data_home. change (sb_size mk_sb) with FSSIZE in Hb. lia.
  - destruct (Hino 0%nat T_DIR (dir_data files) eq_refl) as (I1 & I2 & I3 & I4 & _). change (Z.of_nat 0 + 1) with ROOTINO in *. cbv zeta. rewrite decide_True in I3 by done.
    pose proof (file_read _ _ _ _ _ _ I4) as [R1 R2]. pose proof (dir_data_length files) as Hdl. replace (Z.of_nat (length (dir_data files))) with (16 * (Z.of_nat (length files) + 2)) in R1, R2, I4 by lia.
    rewrite I3. split_and!; [exact I1 | exact I2 | reflexivity | exact R1 | exact R2 |].
    intros o Ho Hb. pose proof (fl_c _ _ _ _ _ _ I4) as Hc. assert (o / BSIZE < nblk (16 * (Z.of_nat (length files) + 2))) as Hlt.
    { unfold z in Ho. assert (0 <= o / BSIZE <= MAXFILE) as Hr by (fs_consts; zlia). apply (fl_used _ _ _ _ _ _ I4 _ Hr) in Hb as [?|[Hb _]]; [done|].
      fs_consts. zlia. }
    rewrite (fl_data _ _ _ _ _ _ I4) by (fs_consts; zlia). apply nth_overflow. rewrite Hdl. lia.
  - intros i name data Hi. assert (inodes_of files !! S i = Some (T_FILE, data)) as Hi' by (change (inodes_of files !! S i) with (((fun f : list Z * list Z => (T_FILE, f.2)) <$> files) !! i); by rewrite list_lookup_fmap, Hi).
    destruct (Hino _ _ _ Hi') as (I1 & I2 & I3 & I4 & _). replace (Z.of_nat (S i) + 1) with (Z.of_nat i + 2) in * by lia. cbv zeta.
    pose proof (file_read _ _ _ _ _ _ I4) as [R1 R2]. rewrite decide_False in I3 by done. rewrite I3. split_and!; [exact I1 | exact I2 | reflexivity | exact R1 | exact R2].
  - intros i Hi. destruct (Hix i Hi) as (t & data & Ei & Ez). destruct (Hino _ _ _ Ei) as (_ & _ & _ & Fi & _). rewrite Ez in Fi. constructor; try apply Fi.
    intros k Hk Hne. pose proof (fl_rng _ _ _ _ _ _ Fi k Hk Hne) as Hr. destruct (data_home (baddr (idec v2 i) v2 k) ltac:(lia)) as [D1 D2].
    assert (0 < baddr (idec v2 i) v2 k < FSSIZE) as Hb by lia. split; [exact Hb|]. split; [|by split]. rewrite (se_used _ _ _ _ Hs) by lia. apply Z.ltb_lt. lia.
  - intros i j n Hi Hj Hne. destruct (Hix i Hi) as (t & data & Ei & Ez), (Hix j Hj) as (t' & data' & Ej & Ez').
    destruct (Hino _ _ _ Ei) as (_ & _ & _ & _ & Oi), (Hino _ _ _ Ej) as (_ & _ & _ & _ & Oj). rewrite Ez in Oi. rewrite Ez' in Oj. rewrite Oi, Oj.
    rewrite <-Ez, <-Ez'. apply (im_disj _ _ Hok); [cbn; rewrite length_map; lia.. | lia].
Qed.

Lemma img0_ok : img_ok (mkImg (<[1 := sb_block]> (fun _ => zeroes)) 1 nmeta) [].
Proof.
  constructor; cbn [im freeinode freeblock]; try done.
  - intros n. destruct (decide (n = 1)) as [->|]; [by rewrite fn_lookup_insert | by rewrite fn_lookup_insert_ne].
  - intros n Hn. rewrite nmeta_val in Hn. by rewrite fn_lookup_insert_ne by lia.
  - intros i j n Hi. cbn in Hi. lia.
  - intros n Hn. destruct (Z.eqb_spec n 1) as [->|]; [by rewrite fn_lookup_insert | by rewrite fn_lookup_insert_ne].
Qed.

(** The root directory with its two entries. *)
Lemma start_ok : exists s1 s2 s3, mk_ialloc T_DIR (mkImg (<[1 := sb_block]> (fun _ => zeroes)) 1 nmeta) = Ok (1, s1) /\
  iappend 1 (dirent_bytes 1 [46]) s1 = Ok (tt, s2) /\ iappend 1 (dirent_bytes 1 [46; 46]) s2 = Ok (tt, s3) /\ img_ok s3 (inodes_of []).
Proof.
  destruct (mk_ialloc_ok _ [] T_DIR img0_ok) as (s1 & E1 & Hok1 & _); [done.. |].
  destruct (iappend_ok s1 [(T_DIR, [])] 0 T_DIR [] (dirent_bytes 1 [46]) Hok1 eq_refl) as (s2 & E2 & Hok2); [done.. |].
  destruct (iappend_ok s2 _ 0 T_DIR (dirent_bytes 1 [46]) (dirent_bytes 1 [46; 46]) Hok2 eq_refl) as (s3 & E3 & Hok3); [done.. |].
  exists s1, s2, s3. split_and!; done.
Qed.

(** C37: If the files fit (at most 198, each at most MAXFILE blocks, together
    within the 1000 blocks), [mkfs] builds an image in which the kernel finds
    the superblock, an empty log, a free map that marks exactly the blocks
    handed out, the root directory with an entry for every file, and every
    file with its contents in well-formed blocks that no other file has. *)
Theorem mkfs_image_ok files :
  files_fit files ->
  exists s, mkfs_image (map (fun f => (f.1, Some f.2)) files) = Ok s /\ freeblock s = nmeta + total (inodes_of files) /\ image_ok (im s) files.
Proof.
  intros Hfit. destruct start_ok as (s1 & s2 & s3 & E1 & E2 & E3 & Hok). destruct (add_files_ok s3 [] files Hok Hfit) as (s4 & E4 & Hok4).
  destruct (finish_ok s4 files Hok4 Hfit) as (s5 & E5 & H5). exists s5. split; [|done].
  unfold mkfs_image. enough (mk_main (map (fun f => (f.1, Some f.2)) files) img0 = Ok (tt, s5)) as -> by done.
  unfold mk_main. rewrite (sr_bind_run (wsect 1 sb_block) _ _ tt (mkImg (<[1 := sb_block]> (fun _ => zeroes)) 1 nmeta)) by done.
  rewrite (sr_bind_run _ _ _ _ _ E1). change (negb (1 =? ROOTINO)) with false. cbv iota. rewrite (sr_bind_run _ _ _ _ _ E2), (sr_bind_run _ _ _ _ _ E3).
  by rewrite (sr_bind_run _ _ _ _ _ E4).
Qed.

(** Two files, one of them large enough for the indirect block *)
Definition demo_files : list (list Z * list Z) := [([95; 108; 115], replicate 700 7); ([82], replicate 6200 9)].

Lemma mkfs_image_ok_witness :
  files_fit demo_files /\ exists s, mkfs_image (map (fun f => (f.1, Some f.2)) demo_files) = Ok s /\ freeblock s = 76 /\ image_ok (im s) demo_files.
Proof.
  assert (files_fit demo_files) as H by (split_and!; [cbn; lia | by apply (bool_decide_unpack _) | by vm_compute]).
  split; [exact H|]. destruct (mkfs_image_ok demo_files H) as (s & E & Hf & Hok). exists s. split; [exact E|]. split; [|exact Hok].
  rewrite Hf. vm_compute. reflexivity.
Defined.

(** With 30 files the root directory is a block of entries exactly, and the
    size [fix_root] stores names a block that is not there. *)
Lemma mkfs_root_hole :
  match mkfs_image (map (fun i => ([97; 97 + i], Some [])) (seqZ 0 30)) with
  | Ok s => let x := idec (im s) ROOTINO in i_size x = 1024 /\ baddr x (im s) 0 = 59 /\ baddr x (im s) 1 = 0
  | _ => False
  end.
Proof. vm_compute. repeat split. Qed.

(** The inode number is not compared with [NINODES]: the inodes from 208 on
    are written into the block of the free map, which [mk_balloc] overwrites. *)
Lemma mkfs_inode_overflow : IBLOCK 208 mk_sb = sb_bmapstart mk_sb.
Proof. reflexivity. Qed.
