(* ===== verification/Spinlock.v ===== *)
(** Spin locks, [xv6/base/spinlock.c], on several processors.

    The state holds the locks and, for each processor, the interrupt flag, the
    fields [ncli] and [intena] of [struct cpu], and where the processor is in
    [acquire] or [release].  One step is one access to the shared lock: the
    reads of [holding], [xchg], and the stores to [lk->cpu] and [lk->locked];
    what a processor does to its own fields is part of the step next to it.
    A schedule is a list of calls and steps of any processors in any order.
    The saved call stack ([getcallerpcs]) is for debugging and not kept.

    The theorem: for every schedule the locks behave as a map from locks to
    owners, a panic is a call by the wrong processor, and a processor that owns
    a lock or waits for one has its interrupts off, with the flag as it was
    before once it has released all. *)

From S2P Require Import Prelude.

Record spinlock := mkSpin { locked : Z; lk_cpu : option nat }.

Inductive call := Acquire (lk : nat) | Release (lk : nat).

(** The next step of a processor. *)
Inductive pc :=
  | Idle
  | Hold1 (c : call)          (* [lock->locked] of [holding] *)
  | Hold2 (c : call)          (* [lock->cpu == mycpu()] *)
  | Spin (lk : nat)           (* [xchg] *)
  | SetCpu (lk : nat)         (* [lk->cpu = mycpu()] *)
  | ClearCpu (lk : nat)       (* [lk->cpu = 0] *)
  | Unlock (lk : nat).        (* [movl $0, lk->locked], then [popcli] *)

Record cpu := mkCpu { iflag : bool; ncli : Z; intena : bool; at_pc : pc }.
Record smp := mkSmp { locks : nat -> spinlock; cpus : nat -> cpu }.

Definition initlock : spinlock := mkSpin 0 None.

Definition set_pc (p : pc) (c : cpu) : cpu := mkCpu (iflag c) (ncli c) (intena c) p.

(** [mycpu]: the processor itself, with interrupts off *)
Definition mycpu (c : cpu) : result unit :=
  if iflag c then Panic "mycpu called with interrupts enabled" else Ok tt.

Definition pushcli (c : cpu) : result cpu :=
  let eflags := iflag c in
  let c := mkCpu false (ncli c) (intena c) (at_pc c) in
  _ ← mycpu c;
  Ok (mkCpu false (ncli c + 1) (if ncli c =? 0 then eflags else intena c) (at_pc c)).

Definition popcli (c : cpu) : result cpu :=
  if iflag c then Panic "popcli - interruptible"
  else
    let n := ncli c - 1 in
    if n <? 0 then Panic "popcli"
    else Ok (mkCpu (if (n =? 0) && intena c then true else iflag c) n (intena c) (at_pc c)).

(** What [holding] is called for, with its result. *)
Definition held (call : call) (r : bool) (c : cpu) : result cpu :=
  c ← popcli c;
  match call with
  | Acquire lk => if r then Panic "acquire" else Ok (set_pc (Spin lk) c)
  | Release lk => if r then Ok (set_pc (ClearCpu lk) c) else Panic "release"
  end.

Definition lock_of (c : call) : nat := match c with Acquire lk | Release lk => lk end.

(** One step of processor [i]. *)
Definition tick (i : nat) (s : smp) : result smp :=
  let c := cpus s i in
  let upd := fun c' => mkSmp (locks s) (<[i := c']> (cpus s)) in
  let put := fun lk l c' => mkSmp (<[lk := l]> (locks s)) (<[i := c']> (cpus s)) in
  match at_pc c with
  | Idle => Ok s
  | Hold1 call =>
      c ← pushcli c;
      if locked (locks s (lock_of call)) =? 0 then
        c ← held call false c; Ok (upd c)
      else Ok (upd (set_pc (Hold2 call) c))
  | Hold2 call =>
      _ ← mycpu c;
      c ← held call (bool_decide (lk_cpu (locks s (lock_of call)) = Some i)) c;
      Ok (upd c)
  | Spin lk =>
      let l := locks s lk in
      if locked l =? 0 then Ok (put lk (mkSpin 1 (lk_cpu l)) (set_pc (SetCpu lk) c))
      else Ok (put lk (mkSpin 1 (lk_cpu l)) c)
  | SetCpu lk =>
      _ ← mycpu c;
      Ok (put lk (mkSpin (locked (locks s lk)) (Some i)) (set_pc Idle c))
  | ClearCpu lk => Ok (put lk (mkSpin (locked (locks s lk)) None) (set_pc (Unlock lk) c))
  | Unlock lk =>
      c ← popcli c;
      Ok (put lk (mkSpin 0 (lk_cpu (locks s lk))) (set_pc Idle c))
  end.

(** The call of [acquire] or [release] by a processor that is in neither. *)
Definition start (i : nat) (c : call) (s : smp) : result smp :=
  match at_pc (cpus s i) with
  | Idle =>
      p ← (match c with Acquire _ => pushcli (cpus s i) | Release _ => Ok (cpus s i) end);
      Ok (mkSmp (locks s) (<[i := set_pc (Hold1 c) p]> (cpus s)))
  | _ => Ok s
  end.

Inductive label := Call (i : nat) (c : call) | Step (i : nat).

Definition do_label (l : label) (s : smp) : result smp :=
  match l with Call i c => start i c s | Step i => tick i s end.

Fixpoint run (tr : list label) (s : smp) : result smp :=
  match tr with [] => Ok s | l :: tr' => s ← do_label l s; run tr' s end.

(** All locks free; processor [i] has its interrupts as [b i] says. *)
Definition boot (b : nat -> bool) : smp := mkSmp (fun _ => initlock) (fun i => mkCpu (b i) 0 false Idle).

(** ** Owners *)

(** The specification: a lock has an owner or none. *)
Abbreviation owners := (nat -> option nat).

Inductive owner_step : owners -> owners -> Prop :=
  | take_lock a lk i : a lk = None -> owner_step a (<[lk := Some i]> a)
  | drop_lock a lk i : a lk = Some i -> owner_step a (<[lk := None]> a).

(** The calls of [pushcli] that are neither for a lock the processor owns nor
    undone yet. *)
Definition pending (p : pc) : Z :=
  match p with
  | Hold1 (Acquire _) => 1
  | Hold2 (Acquire _) => 2
  | Hold2 (Release _) => 1
  | Spin _ => 1
  | _ => 0
  end.

(** [lk->cpu] is not set yet, or no more. *)
Definition hidden (p : pc) (lk : nat) : bool :=
  match p with SetCpu l | Unlock l => Nat.eqb l lk | _ => false end.

Definition flags_ok (b : bool) (c : cpu) : Prop :=
  if ncli c =? 0 then iflag c = b else iflag c = false /\ intena c = b.

(** The processor [i], which owns the locks [H]. *)
Definition cpu_ok (a : owners) (H : gset nat) (b : bool) (i : nat) (c : cpu) : Prop :=
  ncli c = Z.of_nat (size H) + pending (at_pc c) /\ flags_ok b c /\
  match at_pc c with
  | Spin lk => a lk <> Some i
  | SetCpu lk | ClearCpu lk | Unlock lk => a lk = Some i
  | _ => True
  end.

(** The lock [lk] as its owner leaves it. *)
Definition lock_state (a : owners) (cs : nat -> cpu) (lk : nat) : spinlock :=
  match a lk with
  | Some i => mkSpin 1 (if hidden (at_pc (cs i)) lk then None else Some i)
  | None => initlock
  end.

Record smp_ok (b : nat -> bool) (s : smp) (a : owners) (H : nat -> gset nat) : Prop := {
  so_lock : forall lk, locks s lk = lock_state a (cpus s) lk;
  so_held : forall i lk, lk ∈ H i <-> a lk = Some i;
  so_cpu : forall i, cpu_ok a (H i) (b i) i (cpus s i)
}.

Lemma pushcli_ok b c :
  flags_ok b c -> 0 <= ncli c ->
  exists c', pushcli c = Ok c' /\ ncli c' = ncli c + 1 /\ at_pc c' = at_pc c /\ flags_ok b c'.
Proof.
  intros Hf Hn. eexists. split; [reflexivity|]. cbn. split; [done|]. split; [done|]. unfold flags_ok in *. cbn.
  rewrite (proj2 (Z.eqb_neq _ _)) by lia. split; [done|]. destruct (ncli c =? 0); [done | by destruct Hf].
Qed.

Lemma popcli_ok b c :
  flags_ok b c -> 0 < ncli c ->
  exists c', popcli c = Ok c' /\ ncli c' = ncli c - 1 /\ at_pc c' = at_pc c /\ flags_ok b c'.
Proof.
  intros Hf Hn. unfold popcli, flags_ok in *. rewrite (proj2 (Z.eqb_neq _ _)) in Hf by lia. destruct Hf as [-> ->].
  rewrite (proj2 (Z.ltb_ge _ _)) by lia. eexists. split; [reflexivity|]. cbn. split; [done|]. split; [done|].
  destruct (ncli c - 1 =? 0); by destruct b.
Qed.

Lemma flags_set_pc b c p : flags_ok b (set_pc p c) <-> flags_ok b c.
Proof. done. Qed.

(** A step of [i] that leaves the owners alone. *)
Lemma local_step b s a H i c' :
  smp_ok b s a H -> cpu_ok a (H i) (b i) i c' -> (forall lk, a lk = Some i -> hidden (at_pc c') lk = hidden (at_pc (cpus s i)) lk) ->
  smp_ok b (mkSmp (locks s) (<[i := c']> (cpus s))) a H.
Proof.
  intros [Hl Hh Hc] Hc' Hhid. constructor; cbn; [|done|].
  - intros lk. rewrite Hl. unfold lock_state. destruct (a lk) as [j|] eqn:Ea; [|done].
    destruct (decide (j = i)) as [->|Hne]; [by rewrite fn_lookup_insert, Hhid | by rewrite fn_lookup_insert_ne].
  - intros j. destruct (decide (j = i)) as [->|Hne]; [by rewrite fn_lookup_insert | by rewrite fn_lookup_insert_ne].
Qed.

(** A step of [i] on the lock [lk]. *)
Lemma lock_step b s a H i c' lk l a' Hi :
  smp_ok b s a H -> (forall k, k <> lk -> a' k = a k) -> (a lk = None \/ a lk = Some i) -> (a' lk = None \/ a' lk = Some i) ->
  (forall k, k ∈ Hi <-> a' k = Some i) -> cpu_ok a' Hi (b i) i c' -> l = lock_state a' (<[i := c']> (cpus s)) lk ->
  (forall k, k <> lk -> a k = Some i -> hidden (at_pc c') k = hidden (at_pc (cpus s i)) k) ->
  smp_ok b (mkSmp (<[lk := l]> (locks s)) (<[i := c']> (cpus s))) a' (<[i := Hi]> H).
Proof.
  intros [Hl Hh Hc] Ho Ha Ha' HHi Hc' -> Hhid. constructor; cbn.
  - intros k. destruct (decide (k = lk)) as [->|Hne]; [by rewrite fn_lookup_insert|]. rewrite fn_lookup_insert_ne, Hl by done.
    unfold lock_state. rewrite Ho by done. destruct (a k) as [j|] eqn:Ea; [|done].
    destruct (decide (j = i)) as [->|]; [by rewrite fn_lookup_insert, Hhid | by rewrite fn_lookup_insert_ne].
  - intros j k. destruct (decide (j = i)) as [->|Hne]; [by rewrite fn_lookup_insert|]. rewrite fn_lookup_insert_ne, Hh by done.
    destruct (decide (k = lk)) as [->|]; [naive_solver | by rewrite Ho].
  - intros j. destruct (decide (j = i)) as [->|Hne]; [by rewrite !fn_lookup_insert|]. rewrite !fn_lookup_insert_ne by done.
    destruct (Hc j) as (H1 & H2 & H3). split; [done|]. split; [done|]. destruct (at_pc (cpus s j)) as [| | |k|k|k|k]; try done;
      (destruct (decide (k = lk)) as [->|]; [naive_solver | by rewrite Ho]).
Qed.

(** A panic of [i] is a call by the wrong processor. *)
Definition misuse (a : owners) (i : nat) (c : cpu) (msg : string) : Prop :=
  match at_pc c with
  | Hold2 (Acquire lk) => msg = "acquire" /\ a lk = Some i
  | Hold1 (Release lk) | Hold2 (Release lk) => msg = "release" /\ a lk <> Some i
  | _ => False
  end.

Lemma size_insert_new (H : gset nat) k : k ∉ H -> Z.of_nat (size ({[k]} ∪ H)) = Z.of_nat (size H) + 1.
Proof. intros Hk. rewrite size_union by set_solver. rewrite size_singleton. lia. Qed.

Lemma size_delete_old (H : gset nat) k : k ∈ H -> Z.of_nat (size (H ∖ {[k]})) = Z.of_nat (size H) - 1.
Proof.
  intros Hk. rewrite size_difference by set_solver. rewrite size_singleton.
  assert (size H <> 0)%nat by (intros E%size_empty_inv; set_solver). lia.
Qed.

Section Tick.
Context (b : nat -> bool) (s : smp) (a : owners) (H : nat -> gset nat) (i : nat).
Hypothesis Hok : smp_ok b s a H.

(** The result of a step: the next state, or a panic. *)
Definition smp_step_ok (r : result smp) : Prop :=
  match r with
  | Ok s' => exists a' H', smp_ok b s' a' H' /\ (a' = a \/ owner_step a a')
  | Panic msg => misuse a i (cpus s i) msg
  | Sleeps _ => False
  end.

(** [holding] ends with the right answer [r]. *)
Lemma holding_ok call c r :
  flags_ok (b i) c -> ncli c = Z.of_nat (size (H i)) + 1 + pending (Hold1 call) -> r = bool_decide (a (lock_of call) = Some i) ->
  (forall lk, hidden (at_pc (cpus s i)) lk = false) ->
  match held call r c with
  | Ok c' => smp_ok b (mkSmp (locks s) (<[i := c']> (cpus s))) a H
  | Panic msg => match call with Acquire lk => msg = "acquire" /\ a lk = Some i | Release lk => msg = "release" /\ a lk <> Some i end
  | Sleeps _ => False
  end.
Proof.
  intros Hf Hn -> Hhid. unfold held. destruct (popcli_ok (b i) c Hf) as (c1 & E1 & N1 & _ & F1); [destruct call; cbn in Hn; lia|].
  rewrite E1. cbn [mbind result_bind]. destruct call as [lk|lk]; cbn [lock_of pending] in *; case_bool_decide as Ha; try done.
  - apply local_step; [done | | by intros; rewrite Hhid]. split; [cbn; lia|]. split; [exact F1 | done].
  - apply local_step; [done | | by intros; rewrite Hhid]. split; [cbn; lia|]. split; [exact F1 | done].
Qed.

Lemma cpu_facts : let c := cpus s i in
  0 <= ncli c /\ (0 < ncli c -> iflag c = false) /\ (forall lk, a lk = Some i -> lk ∈ H i /\ 0 < Z.of_nat (size (H i))).
Proof.
  intros c. destruct (so_cpu _ _ _ _ Hok i) as (Hn & Hf & _). fold c in Hn, Hf. split_and!.
  - rewrite Hn. unfold pending. repeat case_match; lia.
  - intros Hp. unfold flags_ok in Hf. rewrite (proj2 (Z.eqb_neq _ _)) in Hf by lia. apply Hf.
  - intros lk Hlk. apply (so_held _ _ _ _ Hok) in Hlk. split; [done|].
    assert (size (H i) <> 0)%nat by (intros E%size_empty_inv; set_solver). lia.
Qed.

Lemma hold1_ok call : at_pc (cpus s i) = Hold1 call -> smp_step_ok (tick i s).
Proof.
  intros Epc. destruct (so_cpu _ _ _ _ Hok i) as (Hn & Hf & _). destruct cpu_facts as (Hn0 & _ & _). unfold tick, smp_step_ok.
  set (c := cpus s i) in *. rewrite Epc in *.
  destruct (pushcli_ok (b i) c Hf Hn0) as (c1 & E1 & N1 & P1 & F1). rewrite E1. cbn [mbind result_bind].
  rewrite (so_lock _ _ _ _ Hok). unfold lock_state. destruct (a (lock_of call)) as [j|] eqn:Ea; cbn [locked initlock Z.eqb].
  - exists a, H. split; [|by left]. apply local_step; [done | | by intros; fold c; rewrite Epc]. split; [|split; [exact F1 | done]].
    cbn [at_pc set_pc ncli]. rewrite N1, Hn. destruct call; cbn; lia.
  - pose proof (holding_ok call c1 false F1 ltac:(lia) ltac:(rewrite Ea; done)) as Hh. fold c in Hh. rewrite Epc in Hh. specialize (Hh ltac:(done)).
    destruct (held call false c1) as [c2| |] eqn:Eh; cbn [mbind result_bind]; [exists a, H; by split; [|left] | | done].
    unfold misuse. rewrite Epc. destruct call; [|done]. cbn in Ea. destruct Hh. congruence.
Qed.

Lemma hold2_ok call : at_pc (cpus s i) = Hold2 call -> smp_step_ok (tick i s).
Proof.
  intros Epc. destruct (so_cpu _ _ _ _ Hok i) as (Hn & Hf & _). destruct cpu_facts as (_ & Hoff & _). unfold tick, smp_step_ok.
  set (c := cpus s i) in *. rewrite Epc in *. unfold mycpu. rewrite Hoff by (rewrite Hn; destruct call; cbn; lia). cbn [mbind result_bind].
  assert (bool_decide (lk_cpu (locks s (lock_of call)) = Some i) = bool_decide (a (lock_of call) = Some i)) as Er.
  { rewrite (so_lock _ _ _ _ Hok). unfold lock_state. apply bool_decide_ext. destruct (a (lock_of call)) as [j|] eqn:Ea; cbn; [|done].
    destruct (decide (j = i)) as [->|Hne]; [fold c; by rewrite Epc|]. destruct (hidden _ _); [split; [done | congruence] | done]. }
  pose proof (holding_ok call c _ Hf ltac:(rewrite Hn; destruct call; cbn; lia) Er) as Hh. fold c in Hh. rewrite Epc in Hh. specialize (Hh ltac:(done)).
  destruct (held call _ c) as [c2| |] eqn:Eh; cbn [mbind result_bind]; [exists a, H; by split; [|left] | | done].
  unfold misuse. rewrite Epc. by destruct call.
Qed.

(** [xchg] *)
Lemma spin_ok lk : at_pc (cpus s i) = Spin lk -> smp_step_ok (tick i s).
Proof.
  intros Epc. destruct (so_cpu _ _ _ _ Hok i) as (Hn & Hf & Hpc). unfold tick, smp_step_ok. set (c := cpus s i) in *. rewrite Epc in *.
  rewrite (so_lock _ _ _ _ Hok). unfold lock_state. destruct (a lk) as [j|] eqn:Ea; cbn [locked lk_cpu initlock Z.eqb].
  - exists a, H. split; [|by left]. assert (j <> i) as Hji by congruence.
    assert (smp_ok b (mkSmp (locks s) (<[i := c]> (cpus s))) a H) as [L1 L2 L3] by (apply local_step; [done | apply Hok | done]). constructor; [|done..].
    intros k. cbn. destruct (decide (k = lk)) as [->|Hk]; [|rewrite fn_lookup_insert_ne by done; apply L1].
    rewrite fn_lookup_insert. unfold lock_state. by rewrite Ea, fn_lookup_insert_ne.
  - exists (<[lk := Some i]> a), (<[i := {[lk]} ∪ H i]> H). split; [|right; by constructor].
    assert (lk ∉ H i) as Hni by (rewrite (so_held _ _ _ _ Hok); congruence).
    apply (lock_step b s a H i (set_pc (SetCpu lk) c) lk); try done.
    + intros k Hk. by rewrite fn_lookup_insert_ne.
    + by left.
    + right. by rewrite fn_lookup_insert.
    + intros k. rewrite elem_of_union, elem_of_singleton, (so_held _ _ _ _ Hok). destruct (decide (k = lk)) as [->|]; [rewrite fn_lookup_insert; naive_solver | rewrite fn_lookup_insert_ne by done; naive_solver].
    + split; [|split; [exact Hf | cbn; by rewrite fn_lookup_insert]]. cbn [set_pc ncli at_pc pending]. rewrite size_insert_new by done. rewrite Hn. cbn. lia.
    + unfold lock_state. rewrite !fn_lookup_insert. cbn. by rewrite Nat.eqb_refl.
    + intros k Hk _. fold c. rewrite Epc. cbn. by apply Nat.eqb_neq.
Qed.

(** The stores to [lk->cpu] *)
Lemma owner_store lk c' cpu' :
  a lk = Some i -> cpu_ok a (H i) (b i) i c' -> cpu' = (if hidden (at_pc c') lk then None else Some i) ->
  (forall k, k <> lk -> hidden (at_pc c') k = hidden (at_pc (cpus s i)) k) ->
  smp_ok b (mkSmp (<[lk := mkSpin (locked (locks s lk)) cpu']> (locks s)) (<[i := c']> (cpus s))) a (<[i := H i]> H).
Proof.
  intros Ha Hc' -> Hhid. apply (lock_step b s a H i c' lk); try done; [by right | by right | apply Hok | |].
  - rewrite (so_lock _ _ _ _ Hok). unfold lock_state. by rewrite Ha, fn_lookup_insert.
  - intros k Hk _. by apply Hhid.
Qed.

Lemma store_ok lk : at_pc (cpus s i) = SetCpu lk \/ at_pc (cpus s i) = ClearCpu lk -> smp_step_ok (tick i s).
Proof.
  intros Epc. destruct (so_cpu _ _ _ _ Hok i) as (Hn & Hf & Hpc). destruct cpu_facts as (_ & Hoff & Hin). unfold tick, smp_step_ok. set (c := cpus s i) in *.
  destruct Epc as [Epc|Epc]; rewrite Epc in *; destruct (Hin lk Hpc) as [_ Hs0]; cbn [pending] in Hn.
  - unfold mycpu. rewrite Hoff by lia. cbn [mbind result_bind]. exists a, (<[i := H i]> H). split; [|by left].
    apply owner_store; [done | by split; [cbn; lia | split; [exact Hf|]] | done |]. intros k Hk. fold c. rewrite Epc. cbn. symmetry. by apply Nat.eqb_neq.
  - exists a, (<[i := H i]> H). split; [|by left].
    apply owner_store; [done | by split; [cbn; lia | split; [exact Hf|]] | cbn; by rewrite Nat.eqb_refl |]. intros k Hk. fold c. rewrite Epc. cbn. by apply Nat.eqb_neq.
Qed.

(** [movl $0] and [popcli] *)
Lemma unlock_ok lk : at_pc (cpus s i) = Unlock lk -> smp_step_ok (tick i s).
Proof.
  intros Epc. destruct (so_cpu _ _ _ _ Hok i) as (Hn & Hf & Hpc). destruct cpu_facts as (_ & _ & Hin). unfold tick, smp_step_ok. set (c := cpus s i) in *. rewrite Epc in *.
  destruct (Hin lk Hpc) as [Hlk Hs0]. destruct (popcli_ok (b i) c Hf) as (c1 & E1 & N1 & P1 & F1); [rewrite Hn; cbn; lia|]. rewrite E1. cbn [mbind result_bind].
  exists (<[lk := None]> a), (<[i := H i ∖ {[lk]}]> H). split; [|right; by apply drop_lock with i].
  apply (lock_step b s a H i (set_pc Idle c1) lk).
  - done.
  - intros k Hk. by rewrite fn_lookup_insert_ne.
  - by right.
  - left. by rewrite fn_lookup_insert.
  - intros k. rewrite elem_of_difference, elem_of_singleton, (so_held _ _ _ _ Hok). destruct (decide (k = lk)) as [->|]; [rewrite fn_lookup_insert; naive_solver | rewrite fn_lookup_insert_ne by done; naive_solver].
  - split; [|split; [exact F1 | done]]. cbn [set_pc ncli at_pc pending]. rewrite size_delete_old by done. rewrite N1, Hn. cbn. lia.
  - rewrite (so_lock _ _ _ _ Hok). unfold lock_state. rewrite Hpc, fn_lookup_insert. fold c. rewrite Epc. cbn. by rewrite Nat.eqb_refl.
  - intros k Hk _. fold c. rewrite Epc. cbn. symmetry. by apply Nat.eqb_neq.
Qed.

Lemma tick_ok : smp_step_ok (tick i s).
Proof.
  destruct (at_pc (cpus s i)) as [|call|call|lk|lk|lk|lk] eqn:Epc;
    eauto using hold1_ok, hold2_ok, spin_ok, store_ok, unlock_ok.
  unfold tick. rewrite Epc. exists a, H. by split; [|left].
Qed.

Lemma call_ok call : exists s', start i call s = Ok s' /\ smp_ok b s' a H.
Proof.
  destruct (so_cpu _ _ _ _ Hok i) as (Hn & Hf & Hpc). destruct cpu_facts as (Hn0 & _ & _). unfold start. set (c := cpus s i) in *.
  destruct (at_pc c) eqn:Epc; try (by exists s). destruct call as [lk|lk].
  - destruct (pushcli_ok (b i) c Hf Hn0) as (c1 & E1 & N1 & P1 & F1). rewrite E1. cbn [mbind result_bind]. eexists. split; [reflexivity|].
    apply local_step; [done | | by intros; fold c; rewrite Epc]. split; [cbn in *; lia | split; [exact F1 | done]].
  - eexists. split; [reflexivity|]. apply local_step; [done | | by intros; fold c; rewrite Epc]. split; [cbn in *; lia | split; [exact Hf | done]].
Qed.

End Tick.

Lemma smp_boot_ok b : smp_ok b (boot b) (fun _ => None) (fun _ => ∅).
Proof. constructor; [done | set_solver | done]. Qed.

Lemma schedule_ok b tr s a H :
  smp_ok b s a H ->
  match run tr s with
  | Ok s' => exists a' H', smp_ok b s' a' H' /\ rtc owner_step a a'
  | Panic msg => exists tr1 i tr2 s1 a1 H1, tr = tr1 ++ Step i :: tr2 /\ run tr1 s = Ok s1 /\ smp_ok b s1 a1 H1 /\
      rtc owner_step a a1 /\ misuse a1 i (cpus s1 i) msg
  | Sleeps _ => False
  end.
Proof.
  revert s a H. induction tr as [|l tr IH]; intros s a H Hok; cbn [run]; [exists a, H; by split|].
  assert (forall s1 a1 H1, do_label l s = Ok s1 -> smp_ok b s1 a1 H1 -> rtc owner_step a a1 ->
    match (s' ← do_label l s; run tr s') with
    | Ok s' => exists a' H', smp_ok b s' a' H' /\ rtc owner_step a a'
    | Panic msg => exists tr1 i tr2 s1 a1 H1, l :: tr = tr1 ++ Step i :: tr2 /\ run tr1 s = Ok s1 /\ smp_ok b s1 a1 H1 /\
        rtc owner_step a a1 /\ misuse a1 i (cpus s1 i) msg
    | Sleeps _ => False
    end) as Hgo.
  { intros s1 a1 H1 E Hok1 Hr. rewrite E. cbn [mbind result_bind]. specialize (IH s1 a1 H1 Hok1). destruct (run tr s1) as [s2|msg|]; [| |done].
    - destruct IH as (a2 & H2 & Hok2 & Hr2). exists a2, H2. split; [done | by etrans].
    - destruct IH as (tr1 & i & tr2 & s2 & a2 & H2 & -> & E2 & Hok2 & Hr2 & Hm). exists (l :: tr1), i, tr2, s2, a2, H2.
      split; [done|]. split; [cbn [run]; by rewrite E|]. split; [done|]. split; [by etrans | done]. }
  destruct l as [i c|i]; cbn [do_label] in *.
  - destruct (call_ok b s a H i Hok c) as (s1 & E & Hok1). by apply (Hgo s1 a H).
  - pose proof (tick_ok b s a H i Hok) as Ht. destruct (tick i s) as [s1|msg|] eqn:E; cbn [smp_step_ok] in Ht; [| |done].
    + destruct Ht as (a1 & H1 & Hok1 & Hs). apply (Hgo s1 a1 H1); [done | done |]. destruct Hs as [->|Hs]; [done | by apply rtc_once].
    + cbn [mbind result_bind]. exists [], i, tr, s, a, H. done.
Qed.

(** C5: Spin locks exclude, for every number of processors and every interleaving
    of their steps: there is a map from locks to owners that only changes by a
    free lock being taken or its owner dropping it, a lock is locked exactly when
    it has an owner, a processor that is back from [acquire] owns the lock and
    [holding] tells so, [xchg] takes a lock that is free, and a panic is an
    [acquire] by the owner or a [release] by another processor.  A processor that
    owns a lock or waits for one has its interrupts off, so that no interrupt
    handler can run into a lock its own processor holds; one that has released
    all has its interrupts as at the beginning. *)
Theorem spinlock_correct b tr :
  match run tr (boot b) with
  | Ok s => exists a : owners, rtc owner_step (fun _ => None) a /\
      (forall lk, locked (locks s lk) = if a lk then 1 else 0) /\
      (forall i lk, at_pc (cpus s i) = Idle -> a lk = Some i <-> lk_cpu (locks s lk) = Some i) /\
      (forall i lk, at_pc (cpus s i) = Spin lk -> a lk = None -> exists s', tick i s = Ok s' /\ at_pc (cpus s' i) = SetCpu lk) /\
      (forall i lk, a lk = Some i \/ at_pc (cpus s i) = Spin lk -> iflag (cpus s i) = false) /\
      (forall i, at_pc (cpus s i) = Idle -> (forall lk, a lk <> Some i) -> iflag (cpus s i) = b i)
  | Panic msg => exists tr1 i tr2 s (a : owners), tr = tr1 ++ Step i :: tr2 /\ run tr1 (boot b) = Ok s /\ rtc owner_step (fun _ => None) a /\
      (forall lk, locked (locks s lk) = if a lk then 1 else 0) /\
      exists lk, msg = "acquire" /\ a lk = Some i /\ at_pc (cpus s i) = Hold2 (Acquire lk) \/
        msg = "release" /\ a lk <> Some i /\ (at_pc (cpus s i) = Hold1 (Release lk) \/ at_pc (cpus s i) = Hold2 (Release lk))
  | Sleeps _ => False
  end.
Proof.
  assert (forall s a H lk, smp_ok b s a H -> locked (locks s lk) = if a lk then 1 else 0) as Hlk.
  { intros s a H lk Hok. rewrite (so_lock _ _ _ _ Hok). unfold lock_state. by destruct (a lk). }
  pose proof (schedule_ok b tr (boot b) _ _ (smp_boot_ok b)) as Hr. destruct (run tr (boot b)) as [s|msg|]; [| |done].
  - destruct Hr as (a & H & Hok & Hrtc). exists a. split; [done|]. split; [intros lk; by eapply Hlk|]. split_and!.
    + intros i lk Hid. rewrite (so_lock _ _ _ _ Hok). unfold lock_state. destruct (a lk) as [j|] eqn:Ea; [|done]. cbn.
      destruct (decide (j = i)) as [->|Hne]; [by rewrite Hid|]. destruct (hidden _ _); split; congruence.
    + intros i lk Epc Ha. unfold tick. rewrite Epc, (Hlk s a H lk Hok), Ha. cbn [Z.eqb]. eexists. split; [reflexivity|]. cbn. by rewrite fn_lookup_insert.
    + intros i lk Hor. destruct (cpu_facts b s a H i Hok) as (_ & Hoff & Hin). apply Hoff. destruct (so_cpu _ _ _ _ Hok i) as (Hn & _). rewrite Hn.
      destruct Hor as [Ha|Epc]; [destruct (Hin lk Ha) as [_ Hs]; unfold pending; repeat case_match; lia | rewrite Epc; cbn; lia].
    + intros i Hid Hno. destruct (so_cpu _ _ _ _ Hok i) as (Hn & Hf & _). rewrite Hid in Hn. cbn in Hn.
      assert (H i = ∅) as E by (apply set_eq; intros lk; rewrite (so_held _ _ _ _ Hok); set_solver).
      rewrite E, size_empty in Hn. unfold flags_ok in Hf. by rewrite Hn in Hf.
  - destruct Hr as (tr1 & i & tr2 & s & a & H & -> & E & Hok & Hrtc & Hm). exists tr1, i, tr2, s, a. do 3 (split; [done|]).
    split; [intros lk; by eapply Hlk|]. unfold misuse in Hm. destruct (at_pc (cpus s i)) as [|[lk|lk]|[lk|lk]|lk|lk|lk|lk] eqn:Epc; try done; exists lk; destruct Hm; naive_solver.
Qed.

(** Two processors, one of which waits for the other. *)
Example demo_contention :
  match run [Call 0 (Acquire 7); Step 0; Step 0; Call 1 (Acquire 7); Step 1; Step 0; Step 1; Step 1;
             Call 0 (Release 7); Step 0; Step 0; Step 0; Step 1; Step 0; Step 1; Step 1] (boot (fun _ => true)) with
  | Ok s => (locks s 7 = mkSpin 1 (Some 1%nat)) /\ iflag (cpus s 0) = true /\ iflag (cpus s 1) = false /\ at_pc (cpus s 1) = Idle
  | _ => False
  end.
Proof. vm_compute. repeat split. Qed.

(** Processor 1 may not release what processor 0 holds. *)
Example demo_wrong_release :
  run [Call 0 (Acquire 7); Step 0; Step 0; Step 0; Call 1 (Release 7); Step 1; Step 1] (boot (fun _ => true)) = Panic "release".
Proof. reflexivity. Qed.
