(* ===== verification/Kbd.v ===== *)
(** Keyboard and serial input, [xv6/base/kbd.c], [kbd.h] and [uart.c].

    The keyboard controller holds the scan codes that have not been read; the
    driver keeps the modifiers in one word.  Its interrupts feed [consoleintr]
    of [Console].  Theorems: the stream of scan codes is read as presses and
    releases of keys, with the modifiers that are down or toggled; and a line
    typed on the keyboard reaches the process that reads the console. *)

From S2P Require Import Prelude CString Pipe Console.

(** ** [kbd.h] *)

Definition SHIFT : Z := 1.
Definition CTL : Z := 2.
Definition ALT : Z := 4.
Definition CAPSLOCK : Z := 8.
Definition NUMLOCK : Z := 16.
Definition SCROLLLOCK : Z := 32.
Definition E0ESC : Z := 64.
Definition NO : Z := 0.

Definition KEY_HOME : Z := 0xE0.
Definition KEY_END : Z := 0xE1.
Definition KEY_UP : Z := 0xE2.
Definition KEY_DN : Z := 0xE3.
Definition KEY_LF : Z := 0xE4.
Definition KEY_RT : Z := 0xE5.
Definition KEY_PGUP : Z := 0xE6.
Definition KEY_PGDN : Z := 0xE7.
Definition KEY_INS : Z := 0xE8.
Definition KEY_DEL : Z := 0xE9.

(** A text as character codes. *)
Definition codes (s : string) : list Z := (fun a => Z.of_N (Ascii.N_of_ascii a)) <$> String.list_ascii_of_string s.

(** [C(x)] for each character of a text *)
Definition ctls (s : string) : list Z := (fun x => u8 (x - 64)) <$> codes s.

(** An array of 256 bytes with an initializer: [l] from the start, then the
    designated elements. *)
Definition table (l : list Z) (des : list (Z * Z)) : list Z :=
  foldl (fun t d => <[Z.to_nat d.1 := d.2]> t) (l ++ replicate (256 - length l) 0) des.

Definition shiftcode : list Z :=
  table [] [(0x1D, CTL); (0x2A, SHIFT); (0x36, SHIFT); (0x38, ALT); (0x9D, CTL); (0xB8, ALT)].

Definition togglecode : list Z := table [] [(0x3A, CAPSLOCK); (0x45, NUMLOCK); (0x46, SCROLLLOCK)].

(** The keys that the three maps have in common. *)
Definition special_keys : list (Z * Z) :=
  [(0xC8, KEY_UP); (0xD0, KEY_DN); (0xC9, KEY_PGUP); (0xD1, KEY_PGDN); (0xCB, KEY_LF); (0xCD, KEY_RT);
   (0x97, KEY_HOME); (0xCF, KEY_END); (0xD2, KEY_INS); (0xD3, KEY_DEL)].

Definition normalmap : list Z :=
  table ([NO; 0x1B] ++ codes "1234567890-=" ++ [8; 9] ++
         codes "qwertyuiop[]" ++ [10; NO] ++ codes "asdfghjkl;'`" ++ [NO] ++ codes "\zxcvbnm,./" ++ [NO] ++ codes "*" ++
         [NO] ++ codes " " ++ replicate 13 NO ++ codes "789-456+1230." ++ replicate 4 NO)
        ([(0x9C, 10); (0xB5, 47)] ++ special_keys).

Definition shiftmap : list Z :=
  table ([NO; 27] ++ codes "!@#$%^&*()_+" ++ [8; 9] ++
         codes "QWERTYUIOP{}" ++ [10; NO] ++ codes "ASDFGHJKL:" ++ [34] ++ codes "~" ++ [NO] ++ codes "|ZXCVBNM<>?" ++ [NO] ++ codes "*" ++
         [NO] ++ codes " " ++ replicate 13 NO ++ codes "789-456+1230." ++ replicate 4 NO)
        ([(0x9C, 10); (0xB5, 47)] ++ special_keys).

Definition ctlmap : list Z :=
  table (replicate 16 NO ++
         ctls "QWERTYUIOP" ++ [NO; NO; 13; NO] ++ ctls "ASDFGHJKL" ++ [NO; NO; NO; NO] ++ ctls "\ZXCVBNM" ++ [NO; NO] ++ ctls "/" ++ [NO; NO])
        ([(0x9C, 13); (0xB5, u8 (47 - 64))] ++ special_keys).

(** ** [kbd.c] *)

(** [shift] of [kbdgetc], and the scan codes waiting in the controller: the bit
    [KBS_DIB] of its status is set while there are any, and reading the data
    port takes the first. *)
Record kbd := mkKbd { shift : Z; waiting : list Z }.

Definition at_table (t : list Z) (i : Z) : Z := nth (Z.to_nat i) t 0.

Definition charcode (i : Z) : list Z := if i =? 0 then normalmap else if i =? 1 then shiftmap else ctlmap.

(** What [kbdgetc] does with the scan code [data]: the new [shift] and the
    result. *)
Definition kbd_code (data sh : Z) : Z * Z :=
  let type := fun data sh =>
    let sh := Z.lxor (Z.lor sh (at_table shiftcode data)) (at_table togglecode data) in
    let c := at_table (charcode (Z.land sh (Z.lor CTL SHIFT))) data in
    let c :=
      if negb (Z.land sh CAPSLOCK =? 0) then
        if (97 <=? c) && (c <=? 122) then c + (65 - 97)
        else if (65 <=? c) && (c <=? 90) then c + (97 - 65) else c
      else c in
    (sh, c) in
  if data =? 0xE0 then (Z.lor sh E0ESC, 0)
  else if negb (Z.land data 0x80 =? 0) then
    let data := if negb (Z.land sh E0ESC =? 0) then data else Z.land data 0x7F in
    (Z.ldiff sh (Z.lor (at_table shiftcode data) E0ESC), 0)
  else if negb (Z.land sh E0ESC =? 0) then type (Z.lor data 0x80) (Z.ldiff sh E0ESC)
  else type data sh.

Definition kbdgetc (k : kbd) : Z * kbd :=
  match waiting k with
  | [] => (-1, k)
  | data :: w => let '(sh, c) := kbd_code data (shift k) in (c, mkKbd sh w)
  end.

(** [while((c = getc()) >= 0)] of [consoleintr] *)
Fixpoint getc_loop (fuel : nat) (k : kbd) : list Z * kbd :=
  match fuel with
  | O => ([], k)
  | S f =>
      let '(c, k1) := kbdgetc k in
      if c <? 0 then ([], k1) else let '(cs, k2) := getc_loop f k1 in (c :: cs, k2)
  end.

Definition kbdintr (k : kbd) (s : input) : kbd * (input * list cevent) :=
  let '(cs, k') := getc_loop (S (length (waiting k))) k in (k', consoleintr cs s).

(** ** [uart.c] *)

(** The serial port: whether [uartinit] found it, and the bytes received that
    have not been read. *)
Record serial := mkSerial { uart_present : bool; received : list Z }.

Definition COM1 : Z := 0x3f8.

(** [uartinit]: [status] is what the line status register reads and [pending]
    what is in the receive register.  The writes to ports, the port as found,
    and the characters sent. *)
Definition uartinit (status : Z) (pending : list Z) : list (Z * Z) * serial * list Z :=
  let writes := [(COM1 + 2, 0); (COM1 + 3, 0x80); (COM1 + 0, 115200 / 9600); (COM1 + 1, 0); (COM1 + 3, 0x03); (COM1 + 4, 0); (COM1 + 1, 0x01)] in
  if status =? 0xFF then (writes, mkSerial false pending, [])
  else (writes, mkSerial true (drop 1 pending), codes "xv6..." ++ [10]).

Definition uartgetc (u : serial) : Z * serial :=
  if negb (uart_present u) then (-1, u)
  else match received u with
       | [] => (-1, u)
       | c :: r => (c, mkSerial (uart_present u) r)
       end.

Fixpoint uart_loop (fuel : nat) (u : serial) : list Z * serial :=
  match fuel with
  | O => ([], u)
  | S f =>
      let '(c, u1) := uartgetc u in
      if c <? 0 then ([], u1) else let '(cs, u2) := uart_loop f u1 in (c :: cs, u2)
  end.

Definition uartintr (u : serial) (s : input) : serial * (input * list cevent) :=
  let '(cs, u') := uart_loop (S (length (received u))) u in (u', consoleintr cs s).

(** A serial interrupt hands the console all bytes received; without a port it
    does nothing. *)
Lemma uartintr_feeds u s :
  Forall (fun c => 0 <= c < 256) (received u) ->
  uartintr u s = if uart_present u then (mkSerial true [], consoleintr (received u) s) else (u, consoleintr [] s).
Proof.
  destruct u as [p r]. cbn. intros Hr. unfold uartintr. cbn [received]. destruct p; [|done].
  assert (uart_loop (S (length r)) (mkSerial true r) = (r, mkSerial true [])) as ->; [|done].
  induction Hr as [|c r Hc Hr IH]; [done|]. cbn [length]. cbn [uart_loop uartgetc uart_present negb received] in IH |- *.
  rewrite (proj2 (Z.ltb_ge _ _)) by lia. by rewrite IH.
Qed.

(** ** What a stream of scan codes means *)

Inductive kevent := Press (k : Z) | Lift (k : Z).

(** The keys with a code of their own are numbered by it, those behind the
    escape code 0xE0 from 128 on; a release is a press with bit 7 set. *)
Definition decode (ext : bool) (data : Z) : option kevent :=
  if data =? 0xE0 then None
  else
    let k := data mod 128 + (if ext then 128 else 0) in
    Some (if data <? 128 then Press k else Lift k).

(** The modifier with the keys [ks] is down when the last event of one of them
    was a press. *)
Definition down_step (ks : list Z) (d : bool) (e : kevent) : bool :=
  match e with
  | Press k => if existsb (Z.eqb k) ks then true else d
  | Lift k => if existsb (Z.eqb k) ks then false else d
  end.
Definition down (ks : list Z) (hist : list kevent) : bool := foldl (down_step ks) false hist.

(** The toggle with the key [k] is on after an odd number of presses. *)
Definition toggle_step (k : Z) (d : bool) (e : kevent) : bool :=
  match e with Press k' => xorb d (k' =? k) | Lift _ => d end.
Definition toggled (k : Z) (hist : list kevent) : bool := foldl (toggle_step k) false hist.

Definition shift_keys : list Z := [0x2A; 0x36].
Definition ctl_keys : list Z := [0x1D; 0x9D].
Definition alt_keys : list Z := [0x38; 0xB8].

Definition swap_case (c : Z) : Z :=
  if (97 <=? c) && (c <=? 122) then c - 32 else if (65 <=? c) && (c <=? 90) then c + 32 else c.

(** The character of the key [k] with these modifiers, 0 if none. *)
Definition key_char (sh ct ca : bool) (k : Z) : Z :=
  let c := at_table (if ct then ctlmap else if sh then shiftmap else normalmap) k in
  if ca then swap_case c else c.

(** The character of the last event of [hist ++ [e]] *)
Definition event_char (hist : list kevent) (e : kevent) : Z :=
  match e with
  | Press k => key_char (down shift_keys hist) (down ctl_keys hist) (toggled 0x3A hist) k
  | Lift _ => 0
  end.

(** The character that each scan code of a stream stands for, after [hist]. *)
Fixpoint stream_chars (ext : bool) (hist : list kevent) (ds : list Z) : list Z :=
  match ds with
  | [] => []
  | data :: ds' =>
      match decode ext data with
      | None => 0 :: stream_chars true hist ds'
      | Some e =>
          let hist := hist ++ [e] in
          event_char hist e :: stream_chars false hist ds'
      end
  end.

(** What the stream leaves behind: an escape code or not, and the events. *)
Fixpoint stream_end (ext : bool) (hist : list kevent) (ds : list Z) : bool * list kevent :=
  match ds with
  | [] => (ext, hist)
  | data :: ds' =>
      match decode ext data with
      | None => stream_end true hist ds'
      | Some e => stream_end false (hist ++ [e]) ds'
      end
  end.

(** Interrupts of the keyboard: before each, some scan codes arrive. *)
Fixpoint kbd_run (chunks : list (list Z)) (k : kbd) (s : input) : kbd * input * list (list cevent) :=
  match chunks with
  | [] => (k, s, [])
  | ds :: chunks' =>
      let '(k1, (s1, ev)) := kbdintr (mkKbd (shift k) (waiting k ++ ds)) s in
      let '(k2, s2, evs) := kbd_run chunks' k1 s1 in (k2, s2, ev :: evs)
  end.

(** ** Reading the stream *)

Definition flag (b : bool) (z : Z) : Z := if b then z else 0.

Definition pack (ext sh ct al ca nu sc : bool) : Z :=
  flag sh SHIFT + flag ct CTL + flag al ALT + flag ca CAPSLOCK + flag nu NUMLOCK + flag sc SCROLLLOCK + flag ext E0ESC.

(** [shift] after the events [hist], with an escape code before or not. *)
Definition shift_word (ext : bool) (hist : list kevent) : Z :=
  pack ext (down shift_keys hist) (down ctl_keys hist) (down alt_keys hist) (toggled 0x3A hist) (toggled 0x45 hist) (toggled 0x46 hist).

(** One scan code, on the modifiers alone. *)
Definition code_step (data : Z) (ext sh ct al ca nu sc : bool) : Z * Z :=
  match decode ext data with
  | None => (pack true sh ct al ca nu sc, 0)
  | Some e =>
      let sh := down_step shift_keys sh e in
      let ct := down_step ctl_keys ct e in
      let ca := toggle_step 0x3A ca e in
      (pack false sh ct (down_step alt_keys al e) ca (toggle_step 0x45 nu e) (toggle_step 0x46 sc e),
       match e with Press k => key_char sh ct ca k | Lift _ => 0 end)
  end.

Definition all_bool (f : bool -> bool) : bool := f true && f false.

Lemma all_bool_true f : all_bool f = true -> forall b, f b = true.
Proof. intros [H1 H2]%andb_prop [|]; done. Qed.

Definition code_ok (data : Z) (ext sh ct al ca nu sc : bool) : bool :=
  let '(x, c) := kbd_code data (pack ext sh ct al ca nu sc) in
  let '(x', c') := code_step data ext sh ct al ca nu sc in
  (x =? x') && (c =? c') && (0 <=? c) && (c <? 256).

Lemma all_codes_ok :
  forallb (fun data =>
    all_bool (fun ext => all_bool (fun sh => all_bool (fun ct => all_bool (fun al => all_bool (fun ca => all_bool (fun nu => all_bool (fun sc =>
      code_ok data ext sh ct al ca nu sc)))))))) (seqZ 0 256) = true.
Proof. vm_compute. reflexivity. Qed.

Lemma kbd_code_step data ext sh ct al ca nu sc :
  0 <= data < 256 ->
  kbd_code data (pack ext sh ct al ca nu sc) = code_step data ext sh ct al ca nu sc /\
  0 <= snd (code_step data ext sh ct al ca nu sc) < 256.
Proof.
  intros Hd. pose proof (proj1 (forallb_forall _ _) all_codes_ok data) as H.
  specialize (H ltac:(apply list_elem_of_In, elem_of_seqZ; lia)). 
  apply all_bool_true with (b := ext), all_bool_true with (b := sh), all_bool_true with (b := ct), all_bool_true with (b := al),
    all_bool_true with (b := ca), all_bool_true with (b := nu), all_bool_true with (b := sc) in H. unfold code_ok in H.
  destruct (kbd_code _ _) as [x c], (code_step _ _ _ _ _ _ _ _) as [x' c']. apply andb_prop in H as [[[H1 H2]%andb_prop H3]%andb_prop H4].
  apply Z.eqb_eq in H1, H2. subst. split; [done | cbn; lia].
Qed.

Lemma shift_word_step data ext hist :
  0 <= data < 256 ->
  kbd_code data (shift_word ext hist) =
    match decode ext data with
    | None => (shift_word true hist, 0)
    | Some e => (shift_word false (hist ++ [e]), event_char (hist ++ [e]) e)
    end /\
  0 <= snd (kbd_code data (shift_word ext hist)) < 256.
Proof.
  intros Hd. unfold shift_word. destruct (kbd_code_step data ext (down shift_keys hist) (down ctl_keys hist) (down alt_keys hist)
    (toggled 0x3A hist) (toggled 0x45 hist) (toggled 0x46 hist) Hd) as [-> H]. split; [|exact H]. clear H.
  unfold code_step, event_char, down, toggled. destruct (decode ext data) as [e|]; [|done]. by rewrite !foldl_app.
Qed.

(** Every scan code waiting is read, and they are read as the stream says. *)
Lemma getc_loop_stream ds ext hist fuel :
  Forall (fun d => 0 <= d < 256) ds -> (length ds < fuel)%nat ->
  getc_loop fuel (mkKbd (shift_word ext hist) ds) =
    (stream_chars ext hist ds, let '(ext', hist') := stream_end ext hist ds in mkKbd (shift_word ext' hist') []) /\
  Forall (fun c => 0 <= c < 256) (stream_chars ext hist ds).
Proof.
  intros Hds. revert ext hist fuel. induction Hds as [|d ds Hd Hds IH]; intros ext hist fuel Hf; (destruct fuel as [|fuel]; [cbn in Hf; lia|]); [done|].
  cbn [getc_loop kbdgetc waiting shift stream_chars stream_end]. destruct (shift_word_step d ext hist Hd) as [E Hc]. rewrite E in Hc |- *.
  cbn in Hf. destruct (decode ext d) as [e|]; cbn [snd] in Hc; rewrite (proj2 (Z.ltb_ge _ _)) by lia.
  - destruct (IH false (hist ++ [e]) fuel) as [-> HF]; [lia | by split; [|constructor]].
  - destruct (IH true hist fuel) as [-> HF]; [lia | by split; [|constructor]].
Qed.

Lemma stream_chars_app ds ds' ext hist :
  stream_chars ext hist (ds ++ ds') = stream_chars ext hist ds ++ let '(ext', hist') := stream_end ext hist ds in stream_chars ext' hist' ds'.
Proof.
  revert ext hist. induction ds as [|d ds IH]; intros ext hist; cbn; [done|]. destruct (decode ext d); cbn; by rewrite IH.
Qed.

Lemma stream_end_app ds ds' ext hist :
  stream_end ext hist (ds ++ ds') = let '(ext', hist') := stream_end ext hist ds in stream_end ext' hist' ds'.
Proof. revert ext hist. induction ds as [|d ds IH]; intros ext hist; cbn; [done|]. destruct (decode ext d); apply IH. Qed.

(** The interrupts give the console the characters of the stream. *)
Lemma kbd_run_stream chunks ext hist s :
  Forall (Forall (fun d => 0 <= d < 256)) chunks ->
  let '(k, s', evs) := kbd_run chunks (mkKbd (shift_word ext hist) []) s in
  k = (let '(ext', hist') := stream_end ext hist (concat chunks) in mkKbd (shift_word ext' hist') []) /\
  exists css, concat css = stream_chars ext hist (concat chunks) /\ Forall (Forall (fun c => 0 <= c < 256)) css /\
    cons_run (map Interrupt css) s = (s', map inl evs).
Proof.
  intros Hc. revert ext hist s. induction Hc as [|ds chunks Hds Hc IH]; intros ext hist s; [by split; [|exists []]|].
  cbn [kbd_run concat shift waiting app]. unfold kbdintr. cbn [waiting].
  destruct (getc_loop_stream ds ext hist (S (length ds)) Hds ltac:(lia)) as [-> Hb]. destruct (consoleintr _ s) as [s1 ev] eqn:E1.
  rewrite stream_chars_app, stream_end_app. destruct (stream_end ext hist ds) as [ext1 hist1]. specialize (IH ext1 hist1 s1).
  destruct (kbd_run chunks _ s1) as [[k2 s2] evs]. destruct IH as [-> (css & Hcss & HF & Hrun)]. split; [done|].
  exists (stream_chars ext hist ds :: css). split; [cbn; by rewrite Hcss|]. split; [by constructor|]. cbn [map cons_run cons_step]. by rewrite E1, Hrun.
Qed.

(** ** Typing *)

(** Characters typed in several interrupts, none of them ^P. *)
Lemma abs_run_interrupts css st :
  Forall (fun c => c <> 16) (concat css) ->
  exists evs, abs_run (map Interrupt css) st = ((type_chars (concat css) st).1, map inl evs) /\ concat evs = (type_chars (concat css) st).2.
Proof.
  revert st. induction css as [|cs css IH]; intros st Hp; cbn [concat map abs_run abs_step]; [by exists []|].
  cbn [concat] in Hp. apply Forall_app in Hp as [Hp1 Hp2]. rewrite type_chars_app. destruct (type_chars cs st) as [st1 ev] eqn:E1.
  destruct (IH st1 Hp2) as (evs & -> & Hev). destruct (type_chars (concat css) st1) as [st2 ev2]. cbn [fst snd] in *.
  exists (ev :: evs). split; [|cbn; by rewrite Hev]. cbn. do 3 f_equal. 
  assert (existsb (Z.eqb 16) cs = false) as ->; [|by rewrite app_nil_r]. apply not_true_iff_false.
  intros (x & Hx%list_elem_of_In & <-%Z.eqb_eq)%existsb_exists. rewrite Forall_forall in Hp1. by apply (Hp1 16).
Qed.

(** A press that types nothing is not seen. *)
Lemma type_chars_nonzero cs st : type_chars cs st = type_chars (filter (fun c => c <> 0) cs) st.
Proof.
  revert st. induction cs as [|c cs IH]; intros st; [done|]. rewrite filter_cons. destruct (decide (c <> 0)) as [Hc|Hc].
  - cbn [type_chars]. destruct (type_char c st) as [st1 ev]. by rewrite IH.
  - apply dec_stable in Hc as ->. destruct st as [q ed]. cbn [type_chars type_char Z.eqb orb negb andb]. rewrite IH. by destruct (type_chars _ _).
Qed.

Lemma printable_plain c : (32 <=? c) && (c <? 127) = true -> plain c = true.
Proof.
  intros [H1 H2]%andb_prop. unfold plain. cbn [existsb]. rewrite (proj2 (Z.ltb_lt _ _)), (proj2 (Z.ltb_lt _ _)), !(proj2 (Z.eqb_neq _ _)) by lia. done.
Qed.

(** The key of a character in a map, and the scan codes of typing it, with the
    left shift key where it is needed. *)
Definition find_key (t : list Z) (c : Z) : option Z := (fun p => Z.of_nat p.1) <$> list_find (fun x => x = c) t.

Definition strokes (c : Z) : list Z :=
  match find_key normalmap c with
  | Some k => [k; k + 128]
  | None => match find_key shiftmap c with Some k => [0x2A; k; k + 128; 0xAA] | None => [] end
  end.

(** No modifier that matters is down or on. *)
Definition resting (hist : list kevent) : Prop :=
  down shift_keys hist = false /\ down ctl_keys hist = false /\ toggled 0x3A hist = false.

Definition printable (c : Z) : bool := (32 <=? c) && (c <? 127).

Definition plain_key (k : Z) : bool := (0 <? k) && (k <? 0x54) && negb (existsb (Z.eqb k) [0x1D; 0x2A; 0x36; 0x3A]).

Lemma all_keys_found :
  forallb (fun c => match find_key normalmap c with
                    | Some k => plain_key k
                    | None => match find_key shiftmap c with Some k => plain_key k | None => false end
                    end) (10 :: seqZ 32 95) = true.
Proof. vm_compute. reflexivity. Qed.

Lemma find_key_at t c k : find_key t c = Some k -> at_table t k = c.
Proof.
  intros ([i x] & (Hl & -> & _)%list_find_Some & ->)%fmap_Some. unfold at_table. cbn. rewrite Nat2Z.id. by apply nth_lookup_Some.
Qed.

Lemma decode_key k : plain_key k = true -> decode false k = Some (Press k) /\ decode false (k + 128) = Some (Lift k).
Proof.
  intros [[H1 H2]%andb_prop _]%andb_prop. unfold decode.
  rewrite !(proj2 (Z.eqb_neq _ _)), (proj2 (Z.ltb_lt k 128)), (proj2 (Z.ltb_ge (k + 128) 128)) by lia.
  rewrite (Z.mod_small k) by lia. replace ((k + 128) mod 128) with k by (rewrite <-(Z.mod_small k 128) at 1 by lia; zlia). by rewrite Z.add_0_r.
Qed.

(** A key that is no modifier changes none. *)
Lemma plain_key_steps k :
  plain_key k = true -> forall d, down_step shift_keys d (Press k) = d /\ down_step shift_keys d (Lift k) = d /\
    down_step ctl_keys d (Press k) = d /\ down_step ctl_keys d (Lift k) = d /\ toggle_step 0x3A d (Press k) = d.
Proof.
  intros [[H1 H2]%andb_prop H3]%andb_prop d. cbn in H3 |- *.
  destruct (k =? 0x1D); [done|]. destruct (k =? 0x2A); [done|]. destruct (k =? 0x36); [done|]. destruct (k =? 0x3A); [done|].
  rewrite (proj2 (Z.eqb_neq k 0x9D)) by lia. by rewrite xorb_false_r.
Qed.

Section Strokes.
Context (hist : list kevent).
Hypothesis Hrest : resting hist.

(** A key pressed and released, with the shift key down or not. *)
Lemma stroke_stream k (sh : bool) ds :
  let e := if sh then [Press 0x2A] else [] in plain_key k = true ->
  stream_chars false (hist ++ e) (k :: k + 128 :: ds) =
    key_char sh false false k :: 0 :: stream_chars false (hist ++ e ++ [Press k; Lift k]) ds /\
  stream_end false (hist ++ e) (k :: k + 128 :: ds) = stream_end false (hist ++ e ++ [Press k; Lift k]) ds.
Proof.
  intros e Hk. destruct (decode_key k Hk) as [D1 D2]. destruct Hrest as (R1 & R2 & R3). cbn [stream_chars stream_end]. rewrite D1, D2, <-!app_assoc.
  cbn [app event_char]. split; [|done]. unfold down, toggled. f_equal.
  destruct sh; subst e; rewrite !foldl_app; fold (down shift_keys hist) (down ctl_keys hist) (toggled 0x3A hist); rewrite R1, R2, R3; cbn [foldl];
    destruct (plain_key_steps k Hk true) as (T1 & _ & _ & _ & _), (plain_key_steps k Hk false) as (F1 & _ & F3 & _ & F5).
  - change (down_step shift_keys false (Press 42)) with true. change (down_step ctl_keys false (Press 42)) with false.
    change (toggle_step 58 false (Press 42)) with false. by rewrite T1, F3, F5.
  - by rewrite F1, F3, F5.
Qed.

Lemma resting_strokes k :
  plain_key k = true -> resting (hist ++ [Press k; Lift k]) /\ resting (hist ++ [Press 0x2A; Press k; Lift k; Lift 0x2A]).
Proof.
  intros Hk. destruct Hrest as (R1 & R2 & R3). destruct (plain_key_steps k Hk true) as (T1 & T2 & _), (plain_key_steps k Hk false) as (F1 & F2 & F3 & F4 & F5).
  unfold resting, down, toggled. rewrite !foldl_app. fold (down shift_keys hist) (down ctl_keys hist) (toggled 0x3A hist). rewrite R1, R2, R3. cbn [foldl].
  change (down_step shift_keys false (Press 42)) with true. change (down_step ctl_keys false (Press 42)) with false.
  change (toggle_step 58 false (Press 42)) with false. rewrite F1, F2, F3, F4, F5, T1, T2. done.
Qed.

(** Typing a character types it: the scan codes give a list with that one
    character and otherwise zeros. *)
Lemma strokes_type c :
  c = 10 \/ printable c = true ->
  exists hist', resting hist' /\ Forall (fun d => 0 <= d < 256) (strokes c) /\
    (exists pre post, stream_chars false hist (strokes c) = pre ++ c :: post /\ Forall (fun x => x = 0) (pre ++ post)) /\
    stream_end false hist (strokes c) = (false, hist').
Proof.
  intros Hc. pose proof (proj1 (forallb_forall _ _) all_keys_found c) as H. specialize (H ltac:(apply list_elem_of_In, elem_of_cons;
    destruct Hc as [->|[H1 H2]%andb_prop]; [by left | right; apply elem_of_seqZ; lia])).
  assert (forall k, plain_key k = true -> 0 <= k < 256 /\ 0 <= k + 128 < 256) as Hb by (intros k [[K1 K2]%andb_prop _]%andb_prop; lia).
  unfold strokes. cbv beta in H. destruct (find_key normalmap c) as [k|] eqn:E1; [|destruct (find_key shiftmap c) as [k|] eqn:E2; [|done]];
    destruct (Hb k H), (resting_strokes k H) as [Hr1 Hr2].
  - exists (hist ++ [Press k; Lift k]). split; [done|]. split; [repeat (apply Forall_cons; split; [lia|]); done|].
    destruct (stroke_stream k false [] H) as [S1 S2]. rewrite app_nil_r in S1, S2. rewrite S1, S2. cbn [app].
    split; [|done]. exists [], [0]. split; [|repeat (apply Forall_cons; split; [done|]); done]. cbn [app]. unfold key_char. by rewrite (find_key_at _ _ _ E1).
  - exists (hist ++ [Press 0x2A; Press k; Lift k; Lift 0x2A]). split; [done|]. split; [repeat (apply Forall_cons; split; [lia|]); done|].
    destruct (stroke_stream k true [0xAA] H) as [S1 S2].
    change (stream_chars false hist [42; k; k + 128; 170]) with
      (event_char (hist ++ [Press 42]) (Press 42) :: stream_chars false (hist ++ [Press 42]) [k; k + 128; 170]).
    assert (event_char (hist ++ [Press 42]) (Press 42) = 0) as ->.
    { cbn [event_char]. by destruct (down shift_keys _), (down ctl_keys _), (toggled _ _). }
    change (stream_end false hist [42; k; k + 128; 170]) with (stream_end false (hist ++ [Press 42]) [k; k + 128; 170]).
    rewrite S1, S2. cbn [app]. split; [|cbn [stream_end]; change (decode false 170) with (Some (Lift 42)); cbv iota; by rewrite <-app_assoc].
    exists [0], [0; 0]. split; [|repeat (apply Forall_cons; split; [done|]); done]. cbn [app]. unfold key_char. by rewrite (find_key_at _ _ _ E2).
Qed.

End Strokes.

Lemma filter_zeros (l : list Z) : Forall (fun x => x = 0) l -> filter (fun c => c <> 0) l = [].
Proof. induction 1 as [|x l -> _ IH]; [done|]. by rewrite filter_cons_False by (intros H; by apply H). Qed.

Lemma strokes_line line hist :
  resting hist -> Forall (fun c => c = 10 \/ printable c = true) line ->
  Forall (fun d => 0 <= d < 256) (concat (map strokes line)) /\
  filter (fun c => c <> 0) (stream_chars false hist (concat (map strokes line))) = line.
Proof.
  intros Hr Hl. revert hist Hr. induction Hl as [|c line Hc Hl IH]; intros hist Hr; [done|]. cbn [map concat].
  destruct (strokes_type hist Hr c Hc) as (hist' & Hr' & Hb & (pre & post & E & [Hz1 Hz2]%Forall_app) & Ee).
  destruct (IH hist' Hr') as [Hb' E']. split; [by apply Forall_app|]. rewrite stream_chars_app, Ee, E.
  rewrite !filter_app, filter_cons_True, E', (filter_zeros pre), (filter_zeros post); [done..|].
  destruct Hc as [->|[H1 H2]%andb_prop]; lia.
Qed.

Lemma map_inl_inj {A B} (l l' : list A) : map (@inl A B) l = map inl l' -> l = l'.
Proof. revert l'. induction l as [|x l IH]; intros [|y l'] [=]; subst; [done|]. f_equal. by apply IH. Qed.

(** ** The properties *)

(** C34: The keyboard driver and the line discipline together.  However the scan
    codes of the keyboard are spread over interrupts, all of them are read; each
    is understood as the press or release of a key, 0xE0 as the prefix of the
    next; shift, control and alt count as down by the last event of one of
    their keys, and caps lock as on after an odd number of presses; a press
    gives the character of the map for the modifiers, with the case swapped
    when caps lock is on, and 0 otherwise; and the console does with these
    characters what it does on two queues, complete lines and the line being
    typed. *)
Theorem kbd_stream_correct chunks s :
  input_ok s -> Forall (Forall (fun d => 0 <= d < 256)) chunks ->
  let '(k, s', evs) := kbd_run chunks (mkKbd 0 []) s in
  waiting k = [] /\ input_ok s' /\
  exists css, concat css = stream_chars false [] (concat chunks) /\
    abs_run (map Interrupt css) (console_of s) = (console_of s', map inl evs).
Proof.
  intros Hok Hc. change (mkKbd 0 []) with (mkKbd (shift_word false []) []). pose proof (kbd_run_stream chunks false [] s Hc) as H.
  destruct (kbd_run chunks _ s) as [[k s'] evs]. destruct H as [-> (css & Hcss & HF & Hrun)]. split; [by destruct (stream_end _ _ _)|].
  assert (Forall op_ok (map Interrupt css)) as Ho by by apply Forall_fmap.
  pose proof (cons_run_refines _ s Hok Ho) as H. rewrite Hrun in H. destruct H as [Hok' E]. split; [done|]. by exists css.
Qed.

(** ^A with the control key, then a shifted letter with caps lock on, in three
    interrupts. *)
Lemma kbd_stream_correct_witness :
  let chunks := [[0x1D; 0x1E]; [0x9E; 0x9D; 0x3A; 0xBA; 0x2A]; [0x1E; 0x9E; 0xAA]] in
  (kbd_run chunks (mkKbd 0 []) input_wrap).1.1 = mkKbd CAPSLOCK [] /\
  exists css, concat css = [0; 1; 0; 0; 0; 0; 0; 97; 0; 0].
Proof.
  intros chunks. assert (Forall (Forall (fun d => 0 <= d < 256)) chunks) as Hc by by apply (bool_decide_unpack _).
  split; [vm_compute; reflexivity|].
  pose proof (kbd_stream_correct chunks input_wrap input_wrap_ok Hc) as H. destruct (kbd_run chunks _ input_wrap) as [[k s'] evs].
  destruct H as (_ & _ & css & H & _). exists css. rewrite H. vm_compute. reflexivity.
Defined.

(** C35: A line typed on the keyboard reaches the process that reads the
    console.  With nothing typed and no modifier on, a reader that wants [n]
    bytes goes to sleep; when then a line of at most 127 printable ASCII
    characters, shorter than [n], is typed key by key, with the shift key where
    needed, and the return key pressed, every character is echoed once, the
    readers are woken at the end, and the reader returns with exactly the line
    and its line feed, however the scan codes are spread over interrupts. *)
Theorem kbd_line_reaches_reader chunks hist line s n target :
  input_ok s -> console_of s = ([], []) -> resting hist ->
  Forall (fun c => printable c = true) line -> (length line < 128)%nat -> (length line < n)%nat ->
  concat chunks = concat (map strokes (line ++ [10])) ->
  consoleread_run false n target s = (Asleep n, [], s) /\
  let '(k, s', evs) := kbd_run chunks (mkKbd (shift_word false hist) []) s in
  concat evs = map Echo line ++ [Echo 10; WakeReaders] /\
  exists s'', consoleread_run false n target s' = (Done (target - Z.of_nat (n - length line - 1)), line ++ [10], s'') /\
    input_ok s'' /\ console_of s'' = ([], []).
Proof.
  intros Hok He Hr Hline Hl Hn Hch. split; [apply reader_sleeps; [done | done | lia]|].
  destruct (strokes_line (line ++ [10]) hist Hr) as [Hb Hf].
  { apply Forall_app. split; [eapply Forall_impl; [exact Hline | by right] | constructor; [by left | done]]. }
  assert (Forall (Forall (fun d => 0 <= d < 256)) chunks) as Hc by (rewrite <-Hch in Hb; by apply Forall_concat).
  assert (Forall (fun c => plain c = true) line) as Hp.
  { eapply Forall_impl; [exact Hline|]. intros c Hcp. apply printable_plain, Hcp. }
  pose proof (kbd_run_stream chunks false hist s Hc) as H. destruct (kbd_run chunks _ s) as [[k s'] evs]. destruct H as [_ (css & Hcss & HF & Hrun)].
  assert (Forall op_ok (map Interrupt css)) as Ho by by apply Forall_fmap.
  pose proof (cons_run_refines _ s Hok Ho) as H. rewrite Hrun in H. destruct H as [Hok' E].
  assert (Forall (fun c => c <> 16) (concat css)) as H16.
  { rewrite Hcss, Hch. apply Forall_forall. intros c Hin ->. assert (16 ∈ line ++ [10]) as Hin' by (rewrite <-Hf; by apply list_elem_of_filter).
    apply elem_of_app in Hin' as [Hi|Hi]; [rewrite Forall_forall in Hline; by apply Hline in Hi | by apply list_elem_of_singleton in Hi]. }
  destruct (abs_run_interrupts css (console_of s) H16) as (evs' & E' & Hev). rewrite E in E'.
  rewrite type_chars_nonzero, Hcss, Hch, Hf, He, type_line in E', Hev by done. cbn [fst snd] in E', Hev. apply pair_equal_spec in E' as [Hs' Hevs].
  apply map_inl_inj in Hevs as <-. split; [done|]. by apply read_typed_line.
Qed.

(** The line "Hi" with the keys of one interrupt each, after caps lock was
    pressed twice. *)
Lemma kbd_line_reaches_reader_witness :
  let chunks := [[0x2A; 0x23]; [0xA3; 0xAA; 0x17]; [0x97; 0x1C; 0x9C]] in
  exists s'', consoleread_run false 80 80 (kbd_run chunks (mkKbd (shift_word false [Press 0x3A; Press 0x3A]) []) input_wrap).1.2 =
    (Done 3, [72; 105; 10], s'') /\ console_of s'' = ([], []).
Proof.
  intros chunks.
  destruct (kbd_line_reaches_reader chunks [Press 0x3A; Press 0x3A] [72; 105] input_wrap 80 80) as [_ H].
  - apply input_wrap_ok.
  - reflexivity.
  - repeat split.
  - repeat (constructor; [reflexivity|]). constructor.
  - cbn; lia.
  - cbn; lia.
  - vm_compute. reflexivity.
  - destruct (kbd_run chunks _ input_wrap) as [[k s'] evs]. destruct H as (_ & s'' & E & _ & He). exists s''. split; [exact E | exact He].
Defined.
