(* ===== verification/Ata.v ===== *)
(** The disk controller as the disk drivers see it.

    [ide.c] and [bootmain.c] talk to an ATA controller through ports.  This is
    the part of its programmed-I/O protocol that they use: task file registers
    that hold a sector number and a drive, a command register, a status
    register that says busy or ready, and a data port.  A command keeps the
    controller busy for a number of reads of the status register, which is a
    parameter of the model ([lat], by the number of the command), and may fail
    ([err], the error bits of the status afterwards).  A busy controller does
    not look at its registers, and its data port has no data. *)

From S2P Require Import Prelude Block.

Definition IDE_BSY : Z := 0x80.
Definition IDE_DRDY : Z := 0x40.
Definition IDE_DF : Z := 0x20.
Definition IDE_ERR : Z := 0x01.

Definition IDE_CMD_READ : Z := 0x20.
Definition IDE_CMD_WRITE : Z := 0x30.

Record ata := mkAta {
  count : Z; lba0 : Z; lba1 : Z; lba2 : Z; devreg : Z;    (* ports 0x1f2 .. 0x1f6 *)
  ncmd : nat;                                             (* commands taken so far *)
  delay : nat;                                            (* reads of the status until ready *)
  errors : Z;
  dport : block;                                          (* data to be read *)
  target : option (Z * Z);                                (* drive and sector waiting for data *)
  drive1 : bool;                                          (* is there a second drive? *)
  media : Z -> Z -> block
}.

(** The drive that is selected and the sector in the registers. *)
Definition drive (a : ata) : Z := Z.land (Z.shiftr (devreg a) 4) 1.
Definition sector (a : ata) : Z := lba0 a + 2 ^ 8 * lba1 a + 2 ^ 16 * lba2 a + 2 ^ 24 * Z.land (devreg a) 0x0f.

Definition set_regs (c l0 l1 l2 d : Z) (a : ata) : ata :=
  mkAta c l0 l1 l2 d (ncmd a) (delay a) (errors a) (dport a) (target a) (drive1 a) (media a).
Definition set_delay (n : nat) (a : ata) : ata :=
  mkAta (count a) (lba0 a) (lba1 a) (lba2 a) (devreg a) (ncmd a) n (errors a) (dport a) (target a) (drive1 a) (media a).

Section Ata.
Context (lat : nat -> nat) (err : nat -> Z).

(** A command for one sector. *)
Definition command (c : Z) (a : ata) : ata :=
  let n := ncmd a in
  if negb (count a =? 1) then a
  else if c =? IDE_CMD_READ then
    mkAta (count a) (lba0 a) (lba1 a) (lba2 a) (devreg a) (S n) (lat n) (err n) (media a (drive a) (sector a)) None (drive1 a) (media a)
  else if c =? IDE_CMD_WRITE then
    mkAta (count a) (lba0 a) (lba1 a) (lba2 a) (devreg a) (S n) 0 (err n) [] (Some (drive a, sector a)) (drive1 a) (media a)
  else a.

Definition outb (port v : Z) (a : ata) : ata :=
  let v := u8 v in
  if negb (Nat.eqb (delay a) 0) then a
  else if port =? 0x1f2 then set_regs v (lba0 a) (lba1 a) (lba2 a) (devreg a) a
  else if port =? 0x1f3 then set_regs (count a) v (lba1 a) (lba2 a) (devreg a) a
  else if port =? 0x1f4 then set_regs (count a) (lba0 a) v (lba2 a) (devreg a) a
  else if port =? 0x1f5 then set_regs (count a) (lba0 a) (lba1 a) v (devreg a) a
  else if port =? 0x1f6 then set_regs (count a) (lba0 a) (lba1 a) (lba2 a) v a
  else if port =? 0x1f7 then command v a
  else a.

(** A read of the status register; no drive, no status. *)
Definition inb_status (a : ata) : Z * ata :=
  if (drive a =? 1) && negb (drive1 a) then (0, a)
  else match delay a with
       | O => (Z.lor IDE_DRDY (errors a), a)
       | S n => (IDE_BSY, set_delay n a)
       end.

(** A sector through the data port, into memory and out of it.  After the last
    byte of a sector to be written the controller is busy with it. *)
Definition insl (a : ata) : block := if Nat.eqb (delay a) 0 then dport a else zeroes.

Definition outsl (x : block) (a : ata) : ata :=
  match target a with
  | Some (d, l) =>
      mkAta (count a) (lba0 a) (lba1 a) (lba2 a) (devreg a) (ncmd a) (lat (ncmd a)) (errors a) [] None (drive1 a)
        (if errors a =? 0 then <[d := <[l := x]> (media a d)]> (media a) else media a)
  | None => a
  end.

End Ata.

(** ** What the drivers rely on *)

Lemma bind_Ok {A B} (x : A) (g : A -> result B) : (Ok x ≫= g) = g x.
Proof. reflexivity. Qed.

Definition present (a : ata) : Prop := (drive a =? 1) && negb (drive1 a) = false.

(** The wait loop of both drivers: read the status until [r & mask] is
    [IDE_DRDY].  The fuel is the time the controller needs. *)
Fixpoint poll (fuel : nat) (a : ata) : result (Z * ata) :=
  match fuel with
  | O => Sleeps "disk"
  | S f =>
      let '(r, a) := inb_status a in
      if negb (Z.land r (Z.lor IDE_BSY IDE_DRDY) =? IDE_DRDY) then poll f a else Ok (r, a)
  end.

Lemma poll_ready a : present a -> Z.land (errors a) (Z.lor IDE_BSY IDE_DRDY) = 0 -> poll (S (delay a)) a = Ok (Z.lor IDE_DRDY (errors a), set_delay 0 a).
Proof.
  intros Hp He. assert (set_delay (delay a) a = a) as Ea by by destruct a. rewrite <-Ea at 2. clear Ea. induction (delay a) as [|n IH].
  - cbn [poll]. unfold inb_status. change (drive (set_delay 0 a)) with (drive a). cbn [set_delay drive1 delay errors]. rewrite Hp.
    rewrite Z.land_lor_distr_l, He. by destruct a.
  - cbn [poll]. unfold inb_status. change (drive (set_delay (S n) a)) with (drive a). cbn [drive1 set_delay delay]. rewrite Hp.
    change (Z.land IDE_BSY (Z.lor IDE_BSY IDE_DRDY) =? IDE_DRDY) with false. cbn [negb]. apply IH.
Qed.

(** The last register: a drive and the high bits of a sector. *)
Lemma devreg_fields d n :
  0 <= d <= 1 -> 0 <= n < 16 ->
  let v := Z.lor (Z.lor 0xe0 (Z.shiftl d 4)) n in
  0 <= v < 256 /\ Z.land (Z.shiftr v 4) 1 = d /\ Z.land v 0x0f = n.
Proof.
  intros Hd Hn v.
  assert (forallb (fun d => forallb (fun n => let v := Z.lor (Z.lor 0xe0 (Z.shiftl d 4)) n in
    (0 <=? v) && (v <? 256) && (Z.land (Z.shiftr v 4) 1 =? d) && (Z.land v 0x0f =? n)) (seqZ 0 16)) (seqZ 0 2) = true) as H by reflexivity.
  rewrite forallb_forall in H. specialize (H d ltac:(apply list_elem_of_In, elem_of_seqZ; lia)).
  rewrite forallb_forall in H. specialize (H n ltac:(apply list_elem_of_In, elem_of_seqZ; lia)). cbv zeta in H. fold v in H.
  apply andb_prop in H as [[[H1 H2]%andb_prop H3%Z.eqb_eq]%andb_prop H4%Z.eqb_eq]. split; [lia | done].
Qed.

Lemma sector_bytes n :
  0 <= n < 2 ^ 28 -> u8 n + 2 ^ 8 * u8 (Z.shiftr n 8) + 2 ^ 16 * u8 (Z.shiftr n 16) + 2 ^ 24 * Z.shiftr n 24 = n /\ 0 <= Z.shiftr n 24 < 16.
Proof. intros Hn. unfold u8. rewrite !Z.shiftr_div_pow2 by lia. zlia. Qed.

(** A ready controller takes what is written to its registers. *)
Lemma outb_ready lat err port v a :
  delay a = 0%nat ->
  outb lat err port v a =
    (if port =? 0x1f2 then set_regs (u8 v) (lba0 a) (lba1 a) (lba2 a) (devreg a) a
     else if port =? 0x1f3 then set_regs (count a) (u8 v) (lba1 a) (lba2 a) (devreg a) a
     else if port =? 0x1f4 then set_regs (count a) (lba0 a) (u8 v) (lba2 a) (devreg a) a
     else if port =? 0x1f5 then set_regs (count a) (lba0 a) (lba1 a) (u8 v) (devreg a) a
     else if port =? 0x1f6 then set_regs (count a) (lba0 a) (lba1 a) (lba2 a) (u8 v) a
     else if port =? 0x1f7 then command lat err (u8 v) a
     else a).
Proof. intros Hr. unfold outb. by rewrite Hr. Qed.

Lemma regs_written lat err a d n v0 v1 v2 v3 :
  delay a = 0%nat -> 0 <= d <= 1 -> 0 <= n < 2 ^ 28 ->
  u8 v0 = u8 n -> u8 v1 = u8 (Z.shiftr n 8) -> u8 v2 = u8 (Z.shiftr n 16) -> u8 v3 = Z.lor (Z.lor 0xe0 (Z.shiftl d 4)) (Z.shiftr n 24) ->
  exists a', outb lat err 0x1f6 v3 (outb lat err 0x1f5 v2 (outb lat err 0x1f4 v1 (outb lat err 0x1f3 v0 (outb lat err 0x1f2 1 a)))) = a' /\
    count a' = 1 /\ drive a' = d /\ sector a' = n /\ delay a' = 0%nat /\ media a' = media a /\ drive1 a' = drive1 a /\ ncmd a' = ncmd a.
Proof.
  intros Hr Hd Hn E0 E1 E2 E3. exists (set_regs 1 (u8 v0) (u8 v1) (u8 v2) (u8 v3) a).
  destruct (sector_bytes n Hn) as [Hs Ht]. destruct (devreg_fields d _ Hd Ht) as (_ & D1 & D2). split.
  - rewrite (outb_ready lat err 0x1f2) by done. cbn [Z.eqb Pos.eqb]. rewrite (outb_ready lat err 0x1f3) by done. cbn [Z.eqb Pos.eqb].
    rewrite (outb_ready lat err 0x1f4) by done. cbn [Z.eqb Pos.eqb]. rewrite (outb_ready lat err 0x1f5) by done. cbn [Z.eqb Pos.eqb].
    rewrite (outb_ready lat err 0x1f6) by done. reflexivity.
  - unfold drive, sector. cbn [set_regs count lba0 lba1 lba2 devreg delay media drive1 ncmd]. rewrite E0, E1, E2, E3, D1, D2. by split_and!.
Qed.

(** The command to read a sector. *)
Lemma read_started lat err a :
  delay a = 0%nat -> count a = 1 ->
  exists a', outb lat err 0x1f7 IDE_CMD_READ a = a' /\ drive a' = drive a /\ drive1 a' = drive1 a /\ errors a' = err (ncmd a) /\
    media a' = media a /\ dport a' = media a (drive a) (sector a).
Proof.
  intros Hr Hc. eexists. split; [reflexivity|]. rewrite outb_ready by done. cbn [Z.eqb Pos.eqb]. unfold command. rewrite Hc.
  change (u8 IDE_CMD_READ =? IDE_CMD_READ) with true. change (1 =? 1) with true. by split_and!.
Qed.
