(* ===== verification/Ide.v ===== *)
(** The disk driver, [xv6/base/ide.c], on the controller of [Ata].

    The buffers are those of [Bio], with the links [qnext] of the queue beside
    them.  [iderw] puts a buffer at the end of the queue, starts the controller
    if the queue was empty and sleeps; each interrupt finishes the request at
    the head and starts the next one.  [idelock] is held by [ideintr], and by
    [iderw] until it sleeps, so both are steps of the model; between them the
    owners of buffers that are not in the queue may do with them what they
    like.  The theorems: for every sequence of such steps the driver serves the
    requests in order on the contents of the disks, and so a request has the
    effect that the cache of [Bio] relies on. *)

From S2P Require Import Prelude Block Bio Ata.

Definition FSSIZE : Z := 1000.
Definition SECTOR_SIZE : Z := 512.
Definition IDE_CMD_RDMUL : Z := 0xc4.
Definition IDE_CMD_WRMUL : Z := 0xc5.

Record ide := mkIde {
  ibufs : nat -> buf;
  qnext : nat -> option nat;
  idequeue : option nat;
  havedisk1 : bool;
  hd : ata
}.

Definition set_hd (a : ata) (s : ide) : ide := mkIde (ibufs s) (qnext s) (idequeue s) (havedisk1 s) a.
Definition set_ibuf (i : nat) (b : buf) (s : ide) : ide := mkIde (<[i := b]> (ibufs s)) (qnext s) (idequeue s) (havedisk1 s) (hd s).

Section Ide.
Context (lat : nat -> nat) (err : nat -> Z).
Local Abbreviation outb := (outb lat err).

(** The result is negative on an error that is asked for. *)
Definition idewait (checkerr : bool) (a : ata) : result (Z * ata) :=
  '(r, a) ← poll (S (delay a)) a;
  Ok (if checkerr && negb (Z.land r (Z.lor IDE_DF IDE_ERR) =? 0) then -1 else 0, a).

(** Up to [n] reads of the status, until it is not zero. *)
Fixpoint probe (n : nat) (a : ata) : bool * ata :=
  match n with
  | O => (false, a)
  | S n' => let '(r, a) := inb_status a in if negb (r =? 0) then (true, a) else probe n' a
  end.

Definition ideinit (s : ide) : result ide :=
  '(_, a) ← idewait false (hd s);
  let a := outb 0x1f6 (Z.lor 0xe0 (Z.shiftl 1 4)) a in
  let '(found, a) := probe 1000 a in
  let a := outb 0x1f6 (Z.lor 0xe0 (Z.shiftl 0 4)) a in
  Ok (mkIde (ibufs s) (qnext s) (idequeue s) (havedisk1 s || found) a).

Definition idestart (q : option nat) (s : ide) : result ide :=
  match q with
  | None => Panic "idestart"
  | Some i =>
      let b := ibufs s i in
      if FSSIZE <=? blockno b then Panic "incorrect blockno"
      else
        let sector_per_block := BSIZE / SECTOR_SIZE in
        let sector := blockno b * sector_per_block in
        let read_cmd := if sector_per_block =? 1 then IDE_CMD_READ else IDE_CMD_RDMUL in
        let write_cmd := if sector_per_block =? 1 then IDE_CMD_WRITE else IDE_CMD_WRMUL in
        if 7 <? sector_per_block then Panic "idestart"
        else
          '(_, a) ← idewait false (hd s);
          let a := outb 0x3f6 0 a in
          let a := outb 0x1f2 sector_per_block a in
          let a := outb 0x1f3 (Z.land sector 0xff) a in
          let a := outb 0x1f4 (Z.land (Z.shiftr sector 8) 0xff) a in
          let a := outb 0x1f5 (Z.land (Z.shiftr sector 16) 0xff) a in
          let a := outb 0x1f6 (Z.lor (Z.lor 0xe0 (Z.shiftl (Z.land (b_dev b) 1) 4)) (Z.land (Z.shiftr sector 24) 0x0f)) a in
          if negb (Z.land (flags b) B_DIRTY =? 0) then Ok (set_hd (outsl lat (data b) (outb 0x1f7 write_cmd a)) s)
          else Ok (set_hd (outb 0x1f7 read_cmd a) s)
  end.

(** The interrupt handler, with the buffer whose process it wakes up. *)
Definition ideintr (s : ide) : result (option nat * ide) :=
  match idequeue s with
  | None => Ok (None, s)
  | Some i =>
      let s := mkIde (ibufs s) (qnext s) (qnext s i) (havedisk1 s) (hd s) in
      let b := ibufs s i in
      s ← (if Z.land (flags b) B_DIRTY =? 0 then
             '(r, a) ← idewait true (hd s);
             let s := set_hd a s in
             Ok (if 0 <=? r then set_ibuf i (set_data (insl a) b) s else s)
           else Ok s);
      let b := ibufs s i in
      let b := set_flags (Z.lor (flags b) B_VALID) b in
      let b := set_flags (Z.land (flags b) (Z.lnot B_DIRTY)) b in
      let s := set_ibuf i b s in
      s ← (match idequeue s with Some _ => idestart (idequeue s) s | None => Ok s end);
      Ok (Some i, s)
  end.

(** The last buffer of the queue that starts with [i]: where [pp] ends. *)
Fixpoint last_link (fuel : nat) (next : nat -> option nat) (i : nat) : result nat :=
  match fuel with
  | O => Sleeps "idequeue"
  | S f => match next i with Some j => last_link f next j | None => Ok i end
  end.

(** [iderw] up to its loop. *)
Definition iderw_start (pid : Z) (i : nat) (s : ide) : result ide :=
  let b := ibufs s i in
  if negb (holdingsleep pid (b_lock b)) then Panic "iderw: buf not locked"
  else if Z.land (flags b) (Z.lor B_VALID B_DIRTY) =? B_VALID then Panic "iderw: nothing to do"
  else if negb (b_dev b =? 0) && negb (havedisk1 s) then Panic "iderw: ide disk 1 not present"
  else
    let next := <[i := None]> (qnext s) in
    s ← (match idequeue s with
         | None => Ok (mkIde (ibufs s) next (Some i) (havedisk1 s) (hd s))
         | Some h => j ← last_link NBUF next h; Ok (mkIde (ibufs s) (<[j := Some i]> next) (idequeue s) (havedisk1 s) (hd s))
         end);
    if bool_decide (idequeue s = Some i) then idestart (idequeue s) s else Ok s.

(** The loop: [iderw] goes on when the request is finished. *)
Definition iderw_wait (i : nat) (s : ide) : result unit :=
  if Z.land (flags (ibufs s i)) (Z.lor B_VALID B_DIRTY) =? B_VALID then Ok tt else Sleeps "buf".

(** ** Executions *)

(** A process that owns the buffer [i] and is not in [iderw] with it changes it;
    a process calls [iderw]; an interrupt of the disk, wanted or not. *)
Inductive dlabel := Own (i : nat) (b : buf) | Rw (pid : Z) (i : nat) | Irq.

Definition dstep (l : dlabel) (s : ide) : result (option nat * ide) :=
  match l with
  | Own i b => Ok (None, set_ibuf i b s)
  | Rw pid i => s ← iderw_start pid i s; Ok (None, s)
  | Irq => ideintr s
  end.

Definition woken_bufs (w : option nat) : list nat := match w with Some i => [i] | None => [] end.

(** The buffers whose processes are woken_bufs up, in order. *)
Fixpoint drun (ls : list dlabel) (s : ide) : result (list nat * ide) :=
  match ls with
  | [] => Ok ([], s)
  | l :: ls' => '(w, s) ← dstep l s; '(ws, s) ← drun ls' s; Ok (woken_bufs w ++ ws, s)
  end.

End Ide.

(** ** The disk as a server of requests *)

(** The contents of the disks, the requests in order, the buffers. *)
Record dserver := mkServer { adisk : Z -> Z -> block; pend : list nat; abufs : nat -> buf }.

(** A request that [iderw] takes. *)
Definition req_ok (d1 : bool) (b : buf) : Prop :=
  Z.land (flags b) (Z.lor B_VALID B_DIRTY) <> B_VALID /\ (b_dev b = 0 \/ d1 = true) /\ 0 <= blockno b < FSSIZE.

#[export] Instance req_ok_dec d1 b : Decision (req_ok d1 b).
Proof. unfold req_ok. apply _. Defined.

(** Serving a request: the contents of the disks and the buffer afterwards. *)
Definition serve_req (dk : Z -> Z -> block) (b : buf) : (Z -> Z -> block) * buf :=
  let d := Z.land (b_dev b) 1 in
  let f := Z.land (Z.lor (flags b) B_VALID) (Z.lnot B_DIRTY) in
  if Z.land (flags b) B_DIRTY =? 0 then (dk, set_flags f (set_data (dk d (blockno b)) b))
  else (<[d := <[blockno b := data b]> (dk d)]> dk, set_flags f b).

Definition astep (d1 : bool) (l : dlabel) (a : dserver) : option (option nat * dserver) :=
  match l with
  | Own i b => if decide (i ∈ pend a) then None else Some (None, mkServer (adisk a) (pend a) (<[i := b]> (abufs a)))
  | Rw pid i =>
      let b := abufs a i in
      if decide ((i < NBUF)%nat /\ i ∉ pend a /\ holdingsleep pid (b_lock b) = true /\ req_ok d1 b)
      then Some (None, mkServer (adisk a) (pend a ++ [i]) (abufs a)) else None
  | Irq =>
      match pend a with
      | [] => Some (None, a)
      | i :: q => let '(dk, b) := serve_req (adisk a) (abufs a i) in Some (Some i, mkServer dk q (<[i := b]> (abufs a)))
      end
  end.

Fixpoint arun (d1 : bool) (ls : list dlabel) (a : dserver) : option (list nat * dserver) :=
  match ls with
  | [] => Some ([], a)
  | l :: ls' => '(w, a) ← astep d1 l a; '(ws, a) ← arun d1 ls' a; Some (woken_bufs w ++ ws, a)
  end.

(** ** The queue *)

(** From the link [q], the buffers [l] follow. *)
Fixpoint path (next : nat -> option nat) (q : option nat) (l : list nat) : Prop :=
  match l with [] => q = None | i :: l' => q = Some i /\ path next (next i) l' end.

Lemma path_insert next q l j x : j ∉ l -> path next q l -> path (<[j := x]> next) q l.
Proof.
  revert q. induction l as [|i l IH]; intros q Hj; [done|]. intros [-> H]. apply not_elem_of_cons in Hj as [Hne Hj]. split; [done|].
  rewrite fn_lookup_insert_ne by done. by apply IH.
Qed.

(** The walk to the end of the queue, and the link that [iderw] sets there. *)
Lemma path_append next h l i fuel :
  path next (Some h) (h :: l) -> NoDup (h :: l) -> i ∉ h :: l -> next i = None -> (length l < fuel)%nat ->
  exists j, last_link fuel next h = Ok j /\ j ∈ h :: l /\ path (<[j := Some i]> next) (Some h) (h :: l ++ [i]).
Proof.
  revert h fuel. induction l as [|k l IH]; intros h fuel [_ Hp] Hnd Hi Hni Hf; (destruct fuel as [|fuel]; [lia|]); cbn [last_link].
  - cbn in Hp. rewrite Hp. exists h. split; [done|]. split; [set_solver|]. cbn. rewrite fn_lookup_insert, fn_lookup_insert_ne by set_solver. done.
  - destruct Hp as [E Hp]. rewrite E. rewrite list.NoDup_cons in Hnd. destruct Hnd as [Hh Hnd].
    destruct (IH k fuel) as (j & Ej & Hj & Hp'); [by split | done | set_solver | done | cbn in Hf; lia |].
    exists j. split; [done|]. split; [set_solver|]. split; [done|]. rewrite fn_lookup_insert_ne by (intros ->; set_solver). rewrite E. apply Hp'.
Qed.

Lemma pend_bound (l : list nat) i : NoDup l -> Forall (fun k => (k < NBUF)%nat) l -> i ∉ l -> (i < NBUF)%nat -> (length l < NBUF)%nat.
Proof.
  intros Hnd Hl Hi Hlt. assert (length (i :: l) <= length (seq 0 NBUF))%nat as H; [|rewrite length_seq in H; cbn in H; lia].
  apply NoDup_incl_length; [apply NoDup_ListNoDup, list.NoDup_cons; done|]. intros k Hk%list_elem_of_In. apply in_seq.
  apply elem_of_cons in Hk as [->|Hk]; [lia|]. rewrite Forall_forall in Hl. specialize (Hl k Hk). lia.
Qed.

(** ** The requests *)

Section Serve.
Context (lat : nat -> nat) (d1 : bool).
Local Abbreviation err := (fun _ : nat => 0).

(** The controller when nothing goes wrong. *)
Definition dev_ok (a : ata) : Prop := present a /\ errors a = 0 /\ drive1 a = d1.

Lemma idewait_ok c a : dev_ok a -> idewait c a = Ok (0, set_delay 0 a).
Proof. intros (Hp & He & _). unfold idewait. rewrite poll_ready by (done || by rewrite He). cbn [mbind result_bind]. rewrite He. by destruct c. Qed.

Lemma dev_ok_delay n a : dev_ok a -> dev_ok (set_delay n a).
Proof. done. Qed.

(** A request that is started has its sector asked for or written. *)
Lemma idestart_ok s i :
  dev_ok (hd s) -> req_ok d1 (ibufs s i) ->
  exists a, idestart lat err (Some i) s = Ok (set_hd a s) /\ dev_ok a /\ media a = (serve_req (media (hd s)) (ibufs s i)).1 /\
    (Z.land (flags (ibufs s i)) B_DIRTY = 0 -> dport a = media (hd s) (Z.land (b_dev (ibufs s i)) 1) (blockno (ibufs s i))).
Proof.
  intros Hdev (Hf & Hd & Hb). unfold idestart. set (b := ibufs s i) in *. rewrite (proj2 (Z.leb_gt _ _)) by lia.
  change (BSIZE / SECTOR_SIZE) with 1. rewrite Z.mul_1_r. change (1 =? 1) with true. change (7 <? 1) with false. cbv iota.
  rewrite idewait_ok by done. cbn [mbind result_bind]. rewrite (outb_ready lat err 0x3f6) by done. cbn [Z.eqb Pos.eqb].
  assert (Z.land (b_dev b) 1 = b_dev b mod 2) as Ed by (apply (Z.land_ones _ 1); lia).
  destruct (sector_bytes (blockno b)) as [_ Ht]; [unfold FSSIZE in Hb; lia|].
  assert (forall n, u8 (Z.land n 0xff) = u8 n) as Hu by (intros n; unfold u8; change 0xff with (Z.ones 8); rewrite Z.land_ones by lia; apply Z.mod_mod; lia).
  destruct (devreg_fields (Z.land (b_dev b) 1) (Z.shiftr (blockno b) 24)) as (Hv & _ & _); [rewrite Ed; zlia | done |].
  destruct (regs_written lat err (set_delay 0 (hd s)) (Z.land (b_dev b) 1) (blockno b)
    (Z.land (blockno b) 0xff) (Z.land (Z.shiftr (blockno b) 8) 0xff) (Z.land (Z.shiftr (blockno b) 16) 0xff)
    (Z.lor (Z.lor 0xe0 (Z.shiftl (Z.land (b_dev b) 1) 4)) (Z.land (Z.shiftr (blockno b) 24) 0x0f)))
    as (a' & -> & R1 & R2 & R3 & R4 & R5 & R6 & R7); [done | rewrite Ed; zlia | unfold FSSIZE in Hb; lia | apply Hu | apply Hu | apply Hu | |].
  { change 0x0f with (Z.ones 4). rewrite Z.land_ones, (Z.mod_small (Z.shiftr _ _)) by (done || lia). by apply u8_small. }
  cbn [set_delay media drive1] in R5, R6. destruct Hdev as (Hp & He & Hd1).
  assert (present a') as Hp'. { unfold present. rewrite R2, R6, Hd1. destruct Hd as [->| ->]; [done | by rewrite andb_false_r]. }
  unfold serve_req. rewrite (outb_ready lat err 0x1f7) by done. cbn [Z.eqb Pos.eqb]. rewrite (outb_ready lat err 0x1f7) by done. cbn [Z.eqb Pos.eqb]. unfold command. rewrite R1.
  change (u8 IDE_CMD_READ =? IDE_CMD_READ) with true. change (u8 IDE_CMD_WRITE =? IDE_CMD_READ) with false.
  change (u8 IDE_CMD_WRITE =? IDE_CMD_WRITE) with true. change (1 =? 1) with true. cbn [negb].
  destruct (Z.land (flags b) B_DIRTY =? 0) eqn:Ef; cbn [negb].
  - eexists. split; [reflexivity|]. split; [split; [exact Hp' | split; [done | cbn; congruence]]|]. cbn. rewrite R2, R3, R5. done.
  - eexists. split; [reflexivity|]. split; [split; [exact Hp' | split; [done | cbn; congruence]]|]. cbn. rewrite R2, R3, R5.
    split; [done|]. by apply Z.eqb_neq in Ef.
Qed.

Record drep (s : ide) (a : dserver) : Prop := {
  rp_bufs : forall i, ibufs s i = abufs a i;
  rp_path : path (qnext s) (idequeue s) (pend a);
  rp_nodup : NoDup (pend a);
  rp_lt : Forall (fun i => (i < NBUF)%nat) (pend a);
  rp_req : Forall (fun i => req_ok d1 (abufs a i)) (pend a);
  rp_d1 : havedisk1 s = d1;
  rp_dev : dev_ok (hd s);
  rp_disk : match pend a with
            | [] => forall d l, media (hd s) d l = adisk a d l
            | i :: _ => (forall d l, media (hd s) d l = (serve_req (adisk a) (abufs a i)).1 d l) /\
                (Z.land (flags (abufs a i)) B_DIRTY = 0 -> dport (hd s) = adisk a (Z.land (b_dev (abufs a i)) 1) (blockno (abufs a i)))
            end
}.

(** [serve_req] on two equal disks. *)
Lemma serve_ext dk dk' b : (forall d l, dk d l = dk' d l) -> (serve_req dk b).2 = (serve_req dk' b).2 /\ forall d l, (serve_req dk b).1 d l = (serve_req dk' b).1 d l.
Proof.
  intros H. unfold serve_req. destruct (_ =? 0); cbn; [by rewrite H|]. split; [done|]. intros d l. unfold insert, fn_insert. destruct (decide _) as [->|]; [|done].
  by destruct (decide _).
Qed.

(** A request that was served is one that [iderw] returns from. *)
Lemma served_flags dk b : Z.land (flags (serve_req dk b).2) (Z.lor B_VALID B_DIRTY) = B_VALID.
Proof.
  assert (forall x, Z.land (Z.land (Z.lor x B_VALID) (Z.lnot B_DIRTY)) (Z.lor B_VALID B_DIRTY) = B_VALID) as H.
  { intros x. rewrite <-Z.land_assoc. change (Z.land (Z.lnot B_DIRTY) (Z.lor B_VALID B_DIRTY)) with B_VALID.
    apply Z.bits_inj'. intros n _. rewrite Z.land_spec, Z.lor_spec. by destruct (Z.testbit x n), (Z.testbit B_VALID n). }
  unfold serve_req. destruct (_ =? 0); apply H.
Qed.

(** Starting the request at the head of the queue. *)
Lemma start_head s a i q :
  (forall j, ibufs s j = abufs a j) -> dev_ok (hd s) -> (forall d l, media (hd s) d l = adisk a d l) -> req_ok d1 (abufs a i) -> pend a = i :: q ->
  path (qnext s) (idequeue s) (pend a) -> NoDup (pend a) -> Forall (fun j => (j < NBUF)%nat) (pend a) ->
  Forall (fun j => req_ok d1 (abufs a j)) (pend a) -> havedisk1 s = d1 ->
  exists s', idestart lat err (Some i) s = Ok s' /\ drep s' a.
Proof.
  intros Hb Hdev Hm Hreq Hp Hpath Hnd Hlt Hall Hd1. destruct (idestart_ok s i Hdev) as (x & E & Hdev' & Hm' & Hd'); [by rewrite Hb|].
  exists (set_hd x s). split; [done|]. constructor; cbn [set_hd ibufs qnext idequeue havedisk1 hd]; try done.
  rewrite Hp. rewrite Hm', Hb. rewrite Hb in Hd'. split.
  - intros d l. by apply (serve_ext _ _ _ Hm).
  - intros Hc. by rewrite Hd', Hm.
Qed.

Lemma rw_step s a pid i w a' :
  drep s a -> astep d1 (Rw pid i) a = Some (w, a') -> w = None /\ exists s', iderw_start lat err pid i s = Ok s' /\ drep s' a'.
Proof.
  intros [Hb Hp Hnd Hlt Hreq Hd1 Hdev Hdisk]. cbn [astep]. destruct (decide _) as [(Hi & Hni & Hh & Hr)|]; [|done]. intros [= <- <-]. split; [done|].
  pose proof Hr as (Hf & Hd & Hbn). unfold iderw_start. rewrite Hb, Hh. cbn [negb]. rewrite (proj2 (Z.eqb_neq _ _)) by done.
  assert (negb (b_dev (abufs a i) =? 0) && negb (havedisk1 s) = false) as ->.
  { destruct Hd as [->| ->]; [done|]. rewrite Hd1. apply andb_false_r. }
  apply (path_insert _ _ _ i None) in Hp; [|done]. assert (forall next q, path next q (pend a ++ [i]) -> NoDup (pend a ++ [i]) /\
    Forall (fun k => (k < NBUF)%nat) (pend a ++ [i]) /\ Forall (fun k => req_ok d1 (abufs a k)) (pend a ++ [i])) as Hq.
  { intros _ _ _. split_and!; [apply NoDup_app; split; [done|]; split; [set_solver|]; apply NoDup_singleton | apply Forall_app; by split; [|constructor] | apply Forall_app; by split; [|constructor]]. }
  destruct (pend a) as [|h l] eqn:Epend.
  - rewrite Hp. cbn [mbind result_bind idequeue]. rewrite bool_decide_true by done. cbn [app] in *.
    destruct (Hq (<[i:=None]> (qnext s)) (Some i)) as (Q1 & Q2 & Q3); [split; [done | by rewrite fn_lookup_insert]|].
    apply (start_head _ _ i []); cbn [ibufs hd qnext idequeue havedisk1 adisk pend abufs]; try done. split; [done | by rewrite fn_lookup_insert].
  - pose proof Hp as [Eq _]. rewrite Eq. destruct (path_append (<[i:=None]> (qnext s)) h l i NBUF) as (j & -> & Hj & Hp'); try done.
    { by rewrite Eq in Hp. } { by rewrite fn_lookup_insert. } { pose proof (pend_bound (h :: l) i Hnd Hlt Hni Hi) as Hl. cbn in Hl. lia. }
    cbn [mbind result_bind idequeue]. destruct (Hq _ _ Hp') as (Q1 & Q2 & Q3). rewrite bool_decide_false by set_solver.
    eexists. split; [done|]. constructor; cbn [ibufs hd qnext idequeue havedisk1 adisk pend abufs]; done.
Qed.

Lemma irq_step s a w a' :
  drep s a -> astep d1 Irq a = Some (w, a') -> exists s', ideintr lat err s = Ok (w, s') /\ drep s' a'.
Proof.
  intros [Hb Hp Hnd Hlt Hreq Hd1 Hdev Hdisk]. cbn [astep]. unfold ideintr. destruct (pend a) as [|i q] eqn:Ep.
  { intros [= <- <-]. cbn in Hp. rewrite Hp. exists s. split; [done|]. constructor; rewrite ?Ep; try done. }
  destruct Hp as [-> Hp]. destruct Hdisk as [Hm Hport]. rewrite list.NoDup_cons in Hnd. destruct Hnd as [Hiq Hnd].
  apply Forall_cons in Hlt as [_ Hlt]. apply Forall_cons in Hreq as [_ Hreq]. destruct (serve_req (adisk a) (abufs a i)) as [dk b] eqn:Es. intros [= <- <-].
  set (a1 := mkServer dk q (<[i:=b]> (abufs a))). cbn [ibufs hd].
  assert (exists s1, (if Z.land (flags (ibufs s i)) B_DIRTY =? 0 then
      '(r, x) ← idewait true (hd s);
      Ok (if 0 <=? r then set_ibuf i (set_data (insl x) (ibufs s i)) (set_hd x (mkIde (ibufs s) (qnext s) (qnext s i) (havedisk1 s) (hd s)))
          else set_hd x (mkIde (ibufs s) (qnext s) (qnext s i) (havedisk1 s) (hd s)))
      else Ok (mkIde (ibufs s) (qnext s) (qnext s i) (havedisk1 s) (hd s))) = Ok s1 /\
    b = set_flags (Z.land (Z.lor (flags (ibufs s1 i)) B_VALID) (Z.lnot B_DIRTY)) (ibufs s1 i) /\ (forall j, j <> i -> ibufs s1 j = abufs a j) /\
    qnext s1 = qnext s /\ idequeue s1 = qnext s i /\ havedisk1 s1 = d1 /\ dev_ok (hd s1) /\ (forall d l, media (hd s1) d l = dk d l))
    as (s1 & E1 & Hb1 & Hbs & Hq1 & Hi1 & Hh1 & Hdev1 & Hm1).
  { rewrite Hb. unfold serve_req in Es, Hm. destruct (_ =? 0) eqn:Ef; injection Es as <- <-; cbn [fst] in Hm.
    - rewrite idewait_ok by done. cbn [mbind result_bind Z.leb Z.compare]. eexists. split; [reflexivity|].
      cbn [set_ibuf set_hd ibufs qnext idequeue havedisk1 hd]. rewrite fn_lookup_insert. unfold insl. cbn [set_delay delay Nat.eqb dport].
      rewrite Hport by by apply Z.eqb_eq. split; [done|]. split; [intros j Hj; by rewrite fn_lookup_insert_ne|]. by split_and!.
    - eexists. split; [reflexivity|]. cbn [ibufs qnext idequeue havedisk1 hd]. rewrite Hb. by split_and!. }
  cbn zeta. rewrite E1. cbn [mbind result_bind]. cbn [set_ibuf idequeue flags set_flags]. rewrite Hi1.
  set (s2 := set_ibuf i _ s1). assert (forall j, ibufs s2 j = abufs a1 j) as Hb2.
  { intros j. subst s2 a1. cbn [set_ibuf ibufs abufs]. destruct (decide (j = i)) as [->|Hj]; [|by rewrite !fn_lookup_insert_ne by done; apply Hbs].
    rewrite !fn_lookup_insert, Hb1. done. }
  assert (Forall (fun j => req_ok d1 (abufs a1 j)) q) as Hreq1.
  { eapply Forall_impl; [apply Forall_and; split; [exact Hreq | apply Forall_forall; intros x Hx; exact Hx]|].
    intros j [Hj Hjq]. cbn. rewrite fn_lookup_insert_ne; [done | intros ->; done]. }
  destruct q as [|k q]; cbn [path] in Hp.
  - rewrite Hp. cbn [mbind result_bind]. exists s2. split; [done|]. constructor; cbn [pend]; try done; cbn; congruence.
  - destruct Hp as [Hk Hp]. rewrite Hk. destruct (start_head s2 a1 k q) as (s3 & -> & Hrep); try done; [by apply Forall_cons in Hreq1 as [Hr _] | | by exists s3].
    cbn [pend a1 path]. cbn. rewrite Hi1, Hq1, Hk. done.
Qed.

Lemma drun_refines ls s a ws a' :
  drep s a -> arun d1 ls a = Some (ws, a') -> exists s', drun lat err ls s = Ok (ws, s') /\ drep s' a'.
Proof.
  revert s a ws. induction ls as [|l ls IH]; intros s a ws Hrep; cbn [arun drun]; [intros [= <- <-]; by exists s|].
  destruct (astep d1 l a) as [[w a1]|] eqn:E1; cbn; [|done]. destruct (arun d1 ls a1) as [[ws1 a2]|] eqn:E2; cbn; [|done]. intros [= <- <-].
  assert (exists s1, dstep lat err l s = Ok (w, s1) /\ drep s1 a1) as (s1 & -> & Hrep1).
  { destruct l as [i b|pid i|]; [|destruct (rw_step s a pid i w a1 Hrep E1) as (-> & s1 & E & H); exists s1; cbn; by rewrite E | by apply (irq_step s a)].
    cbn in E1 |- *. destruct (decide _) as [|Hi]; [done|]. injection E1 as <- <-. eexists. split; [done|].
    destruct Hrep as [Hb Hp Hnd Hlt Hreq Hd1 Hdev Hdisk]. constructor; cbn [set_ibuf ibufs qnext idequeue havedisk1 hd adisk pend abufs]; try done.
    - intros j. destruct (decide (j = i)) as [->|]; [by rewrite !fn_lookup_insert | by rewrite !fn_lookup_insert_ne].
    - apply Forall_forall. intros j Hj. rewrite fn_lookup_insert_ne by (intros ->; done). by apply (proj1 (Forall_forall _ _) Hreq).
    - destruct (pend a) as [|k q]; [done|]. by rewrite !fn_lookup_insert_ne by set_solver. }
  cbn. destruct (IH s1 a1 ws1 Hrep1 E2) as (s2 & -> & Hrep2). cbn. by exists s2.
Qed.

(** The interrupts that are still to come serve all requests. *)
Lemma arun_drain a :
  NoDup (pend a) -> exists a', arun d1 (replicate (length (pend a)) Irq) a = Some (pend a, a') /\ pend a' = [] /\
    (forall i, i ∈ pend a -> Z.land (flags (abufs a' i)) (Z.lor B_VALID B_DIRTY) = B_VALID) /\ (forall i, i ∉ pend a -> abufs a' i = abufs a i).
Proof.
  destruct a as [dk l bs]. cbn [pend abufs]. revert dk bs. induction l as [|i l IH]; intros dk bs Hnd.
  - eexists. cbn. split; [done|]. split; [done|]. split; [set_solver | done].
  - rewrite list.NoDup_cons in Hnd. destruct Hnd as [Hi Hnd]. cbn [length replicate arun astep pend adisk abufs].
    pose proof (served_flags dk (bs i)) as Hs. destruct (serve_req dk (bs i)) as [dk1 b]. cbn [snd] in Hs. cbn [mbind option_bind].
    destruct (IH dk1 (<[i := b]> bs) Hnd) as (a' & E & Hp & Hd & Ho). rewrite E. cbn [mbind option_bind woken_bufs app]. exists a'. split; [done|]. split; [done|]. split.
    + intros j [->|Hj]%elem_of_cons; [|by apply Hd]. by rewrite Ho, fn_lookup_insert.
    + intros j [Hne Hj]%not_elem_of_cons. by rewrite Ho, fn_lookup_insert_ne.
Qed.

(** Before [ideinit]: a controller that is busy for [n] reads of its status. *)
Definition power_on (dk : Z -> Z -> block) (bs : nat -> buf) (n : nat) : ide :=
  mkIde bs (fun _ => None) None false (mkAta 0 0 0 0 0 0 n 0 [] None d1 dk).

Lemma probe_absent n a : (drive a =? 1) && negb (drive1 a) = true -> probe n a = (false, a).
Proof. intros H. induction n as [|n IH]; [done|]. cbn [probe]. unfold inb_status. by rewrite H. Qed.

Lemma ideinit_ok dk bs n : exists s, ideinit lat err (power_on dk bs n) = Ok s /\ drep s (mkServer dk [] bs).
Proof.
  unfold ideinit. rewrite idewait_ok by (split_and!; done). cbn [mbind result_bind]. rewrite (outb_ready lat err 0x1f6) by done. cbn [Z.eqb Pos.eqb].
  set (a := set_regs _ _ _ _ _ _). assert (probe 1000 a = (d1, a)) as ->.
  { assert (drive a = 1) as Ha by reflexivity. assert (drive1 a = d1) as Hd1 by reflexivity. assert (delay a = 0%nat /\ errors a = 0) as [Hdl He] by done.
    clearbody a. destruct d1; [|apply probe_absent; by rewrite Ha, Hd1]. change 1000%nat with (S 999). cbn [probe]. unfold inb_status.
    by rewrite Ha, Hd1, Hdl, He. }
  rewrite outb_ready by done. eexists. split; [reflexivity|].
  constructor; cbn [ibufs qnext idequeue havedisk1 hd pend abufs adisk power_on]; try done; try constructor.
Qed.

End Serve.

(** ** The properties *)

(** C7: The disk driver serves requests in order.  From a powered-on controller
    that may be busy for any time, for every sequence of calls of [iderw],
    interrupts, wanted or not, and changes of buffers by their owners, the driver
    neither panics nor waits for ever, the queue of linked buffers holds the
    requests in the order of the calls, every interrupt finishes the oldest one
    and wakes its process, with the contents of the sector in the buffer or the
    contents of the buffer on the disk; processes whose requests are not finished
    sleep, and as many interrupts as there are requests finish them all.  The
    sequences are those the callers keep to: they hold the lock of the buffer,
    there is something to do, the drive exists, and the block is in the file
    system.  The controller reports no errors. *)
Theorem ide_serves_requests lat d1 dk bs n ls ws a :
  arun d1 ls (mkServer dk [] bs) = Some (ws, a) ->
  exists s0 s s', ideinit lat (fun _ => 0) (power_on d1 dk bs n) = Ok s0 /\ drun lat (fun _ => 0) ls s0 = Ok (ws, s) /\
    path (qnext s) (idequeue s) (pend a) /\ (forall i, ibufs s i = abufs a i) /\ (pend a = [] -> forall d l, media (hd s) d l = adisk a d l) /\
    (forall i, i ∈ pend a -> iderw_wait i s = Sleeps "buf") /\
    drun lat (fun _ => 0) (replicate (length (pend a)) Irq) s = Ok (pend a, s') /\
    (forall i, i ∈ pend a -> iderw_wait i s' = Ok tt) /\ idequeue s' = None.
Proof.
  intros Ha. destruct (ideinit_ok lat d1 dk bs n) as (s0 & E0 & Hrep0). destruct (drun_refines lat d1 ls s0 _ ws a Hrep0 Ha) as (s & E & Hrep).
  destruct (arun_drain d1 a (rp_nodup _ _ _ Hrep)) as (a' & Ea & Hp' & Hd & _). destruct (drun_refines lat d1 _ s a _ a' Hrep Ea) as (s' & E' & Hrep').
  exists s0, s, s'. split; [done|]. split; [done|]. split; [apply Hrep|]. split; [apply Hrep|]. split_and!.
  - intros Hp. pose proof (rp_disk _ _ _ Hrep) as H. by rewrite Hp in H.
  - intros i Hi. unfold iderw_wait. rewrite (rp_bufs _ _ _ Hrep). pose proof (proj1 (Forall_forall _ _) (rp_req _ _ _ Hrep) i Hi) as (Hf & _).
    by rewrite (proj2 (Z.eqb_neq _ _)).
  - done.
  - intros i Hi. unfold iderw_wait. by rewrite (rp_bufs _ _ _ Hrep'), Hd.
  - pose proof (rp_path _ _ _ Hrep') as H. by rewrite Hp' in H.
Qed.

(** Two requests, one of them a write on the second disk, with an interrupt
    that nobody waits for at the start; the controller takes its time. *)
Definition demo_media (d l : Z) : block := if (d =? 1) && (l =? 7) then replicate 512 42 else zeroes.
Definition demo_read : buf := mkBuf 0 1 7 (mkSleeplock true 3) 1 zeroes.
Definition demo_write : buf := mkBuf (Z.lor B_VALID B_DIRTY) 1 9 (mkSleeplock true 4) 1 (replicate 512 5).
Definition demo_labels : list dlabel := [Irq; Own 2 demo_read; Own 5 demo_write; Rw 3 2; Rw 4 5; Irq].

Lemma ide_serves_requests_witness :
  exists s0 s s', ideinit (fun n => n) (fun _ => 0) (power_on true demo_media (fun _ => buf0) 3) = Ok s0 /\
    drun (fun n => n) (fun _ => 0) demo_labels s0 = Ok ([2%nat], s) /\ data (ibufs s 2) = replicate 512 42 /\
    iderw_wait 5 s = Sleeps "buf" /\ drun (fun n => n) (fun _ => 0) [Irq] s = Ok ([5%nat], s').
Proof.
  destruct (arun true demo_labels (mkServer demo_media [] (fun _ => buf0))) as [[ws a]|] eqn:Ea; [|vm_compute in Ea; discriminate Ea].
  assert (ws = [2%nat] /\ pend a = [5%nat] /\ data (abufs a 2%nat) = replicate 512 42) as (-> & Hp & Hd).
  { vm_compute in Ea. injection Ea as <- <-. repeat split. }
  destruct (ide_serves_requests (fun n => n) true demo_media (fun _ => buf0) 3 demo_labels [2%nat] a Ea) as (s0 & s & s' & H1 & H2 & _ & H3 & _ & H4 & H5 & _).
  exists s0, s, s'. rewrite Hp in H4, H5. split; [exact H1|]. split; [exact H2|]. split; [rewrite H3; exact Hd|].
  split; [apply H4; apply list_elem_of_here | exact H5].
Defined.

(** One call of [iderw] of [memide.c] on the buffer it is given. *)
Lemma memide_serve pid i m m' b dk :
  bufs m !! i = Some b -> Bio.iderw pid i m = Ok m' -> 0 <= blockno b -> disksize m <= FSSIZE -> (forall l, dk 1 l = dread (disk m) l) ->
  holdingsleep pid (b_lock b) = true /\ req_ok true b /\ (serve_req dk b).2 = nth_buf m' i /\ (forall l, (serve_req dk b).1 1 l = dread (disk m') l) /\
  forall l, (serve_req dk b).1 0 l = dk 0 l.
Proof.
  intros Hb Hrw Hbn Hsz Hdk. unfold Bio.iderw in Hrw. rewrite (nth_buf_lookup _ _ _ Hb) in Hrw. destruct (holdingsleep pid (b_lock b)); [|done]. cbn [negb] in Hrw.
  destruct (Z.eqb_spec (Z.land (flags b) (Z.lor B_VALID B_DIRTY)) B_VALID) as [|Hf]; [done|].
  destruct (Z.eqb_spec (b_dev b) 1) as [Hd|]; [|done]. cbn [negb] in Hrw. destruct (Z.leb_spec (disksize m) (blockno b)) as [|Hlt]; [done|].
  split; [done|]. split; [unfold req_ok; split; [done|]; split; [by right | lia]|].
  assert (forall x, Z.land (Z.lor x B_VALID) (Z.lnot B_DIRTY) = Z.lor (Z.land x (Z.lnot B_DIRTY)) B_VALID) as Hx.
  { intros x. rewrite Z.land_lor_distr_l. done. }
  assert (i < length (bufs m))%nat as Hi by by eapply lookup_lt_Some.
  unfold serve_req. rewrite Hd. change (Z.land 1 1) with 1. destruct (Z.eqb_spec (Z.land (flags b) B_DIRTY) 0) as [Hc|Hc]; cbn [negb] in Hrw; injection Hrw as <-; cbn [fst snd].
  - split; [|by split]. unfold nth_buf, upd, set_bufs. cbn [bufs]. rewrite !list_lookup_alter_eq, Hb. cbn [fmap option_fmap option_map default].
    rewrite Hx, Hdk. unfold set_flags, set_data. cbn. do 2 f_equal. rewrite <-Z.ldiff_land. apply Z.bits_inj'. intros n Hn. rewrite Z.ldiff_spec.
    assert (Z.testbit (Z.land (flags b) B_DIRTY) n = false) as Hbit by (rewrite Hc; apply Z.testbit_0_l). rewrite Z.land_spec in Hbit.
    by destruct (Z.testbit (flags b) n), (Z.testbit B_DIRTY n).
  - split; [|split].
    + unfold nth_buf, upd, set_bufs. cbn [bufs]. rewrite !list_lookup_alter_eq, Hb, Hx. done.
    + intros l. cbn. rewrite fn_lookup_insert. unfold dread. destruct (decide (l = blockno b)) as [->|Hl].
      * by rewrite fn_lookup_insert, lookup_insert_eq.
      * rewrite fn_lookup_insert_ne, lookup_insert_ne by done. apply Hdk.
    + intros l. by rewrite fn_lookup_insert_ne.
Qed.

Lemma arun_app d1 ls ls' a ws a1 ws' a2 :
  arun d1 ls a = Some (ws, a1) -> arun d1 ls' a1 = Some (ws', a2) -> arun d1 (ls ++ ls') a = Some (ws ++ ws', a2).
Proof.
  revert a ws. induction ls as [|l ls IH]; intros a ws; cbn; [by intros [= <- <-]|]. destruct (astep d1 l a) as [[w x]|]; cbn; [|done].
  destruct (arun d1 ls x) as [[wx y]|] eqn:E; cbn; [|done]. intros [= <- <-] E'. rewrite (IH x wx E E'). cbn. by rewrite app_assoc.
Qed.

(** C8: The disk driver and the memory disk agree.  Whenever [iderw] of
    [memide.c] (which the cache is verified with) takes a request, [iderw] of
    [ide.c], called when no request is waiting, ends after one interrupt with
    the same buffer and the same contents of the disk, and leaves the other
    disk alone: the block device of the kernel may be either. *)
Theorem ide_agrees_with_memide lat dk bs n ls ws a pid i m m' b :
  arun true ls (mkServer dk [] bs) = Some (ws, a) -> pend a = [] -> (i < NBUF)%nat -> bufs m !! i = Some b -> abufs a i = b ->
  0 <= blockno b -> disksize m <= FSSIZE -> (forall l, adisk a 1 l = dread (disk m) l) -> Bio.iderw pid i m = Ok m' ->
  exists s0 s, ideinit lat (fun _ => 0) (power_on true dk bs n) = Ok s0 /\
    drun lat (fun _ => 0) (ls ++ [Rw pid i; Irq]) s0 = Ok (ws ++ [i], s) /\ iderw_wait i s = Ok tt /\
    ibufs s i = nth_buf m' i /\ (forall l, media (hd s) 1 l = dread (disk m') l) /\ (forall l, media (hd s) 0 l = adisk a 0 l).
Proof.
  intros Ha Hp Hi Hb Hab Hbn Hsz Hdk Hrw. destruct (memide_serve pid i m m' b (adisk a) Hb Hrw Hbn Hsz Hdk) as (Hh & Hreq & H1 & H2 & H3).
  pose proof (served_flags (adisk a) b) as Hfl. destruct (serve_req (adisk a) b) as [dk1 b1] eqn:Es. cbn [fst snd] in *.
  assert (arun true [Rw pid i; Irq] a = Some ([i], mkServer dk1 [] (<[i := b1]> (abufs a)))) as Ha2.
  { cbn [arun astep]. rewrite Hp, Hab, decide_True by (split; [done|]; split; [set_solver | done]). cbn. by rewrite Hab, Es. }
  destruct (ideinit_ok lat true dk bs n) as (s0 & E0 & Hrep0).
  destruct (drun_refines lat true _ s0 _ _ _ Hrep0 (arun_app _ _ _ _ _ _ _ _ Ha Ha2)) as (s & E & Hrep).
  pose proof (rp_bufs _ _ _ Hrep i) as Hbi. cbn in Hbi. rewrite fn_lookup_insert in Hbi. pose proof (rp_disk _ _ _ Hrep) as Hdisk. cbn in Hdisk.
  exists s0, s. split; [done|]. split; [done|]. split; [unfold iderw_wait; by rewrite Hbi, Hfl|]. split; [congruence|].
  split; intros l; rewrite Hdisk; [apply H2 | apply H3].
Qed.

Definition demo_bio : bio := mkBio [buf0; buf0; demo_read] [] {[7 := replicate 512 42]} 1000 [].
Definition demo_disk1 (d l : Z) : block := if d =? 1 then dread (disk demo_bio) l else zeroes.

Lemma ide_agrees_with_memide_witness :
  exists s0 s, ideinit (fun n => n) (fun _ => 0) (power_on true demo_disk1 (fun _ => buf0) 3) = Ok s0 /\
    drun (fun n => n) (fun _ => 0) [Own 2 demo_read; Rw 3 2; Irq] s0 = Ok ([2%nat], s) /\ data (ibufs s 2) = replicate 512 42.
Proof.
  assert (exists m', Bio.iderw 3 2 demo_bio = Ok m' /\ data (nth_buf m' 2) = replicate 512 42) as (m' & Hm & Hd).
  { eexists. split; [vm_compute; reflexivity | vm_compute; reflexivity]. }
  destruct (ide_agrees_with_memide (fun n => n) demo_disk1 (fun _ => buf0) 3 [Own 2 demo_read] [] (mkServer demo_disk1 [] (<[2%nat := demo_read]> (fun _ => buf0)))
    3 2 demo_bio m' demo_read) as (s0 & s & E0 & E & _ & Hb & _).
  - reflexivity.
  - reflexivity.
  - apply Nat.ltb_lt. reflexivity.
  - reflexivity.
  - reflexivity.
  - apply Z.leb_le. reflexivity.
  - apply Z.leb_le. reflexivity.
  - reflexivity.
  - exact Hm.
  - exists s0, s. split; [exact E0|]. split; [exact E|]. rewrite Hb. exact Hd.
Defined.

(** A read that the controller reports as failed is taken as done: the process
    is woken_bufs up with the buffer marked valid and its old contents in it. *)
Example failed_read_is_valid :
  match (s0 ← ideinit (fun _ => 0%nat) (fun _ => IDE_ERR) (power_on true demo_media (fun _ => buf0) 0);
         drun (fun _ => 0%nat) (fun _ => IDE_ERR) [Own 2 demo_read; Rw 3 2; Irq] s0) with
  | Ok (w, s) => w = [2%nat] /\ iderw_wait 2 s = Ok tt /\ data (ibufs s 2) = zeroes /\ media (hd s) 1 7 = replicate 512 42
  | _ => False
  end.
Proof. vm_compute. repeat split. Qed.
