(* ===== verification/Boot.v ===== *)
(** The boot loader, [xv6/base/bootmain.c], on the disk controller of [Ata].

    The loader reads the kernel, an ELF file that starts at sector 1 of the
    first drive, into physical memory and returns its entry point, or returns
    nothing where the C code returns to [bootasm.S].  The theorem: it puts the
    segments of the file where their headers say. *)

From S2P Require Import Prelude CString Block Ata Exec.

Definition SECTSIZE : Z := 512.

(** [n] bytes of memory, as a structure of that size is read. *)
Definition mem_bytes (m : mem) (a n : Z) : list Z := map m (seqZ a n).

(** [paddr] of [struct proghdr] *)
Definition ph_paddr (b : list Z) : Z := get32 b 12.

Section Boot.
Context (lat : nat -> nat) (err : nat -> Z).
Local Abbreviation outb := (outb lat err).
Local Abbreviation bst := (mem * ata)%type.

Definition waitdisk (s : bst) : result bst := '(_, a) ← poll (S (delay s.2)) s.2; Ok (s.1, a).

Definition readsect (dst offset : Z) (s : bst) : result bst :=
  '(m, a) ← waitdisk s;
  let a := outb 0x1f2 1 a in
  let a := outb 0x1f3 offset a in
  let a := outb 0x1f4 (Z.shiftr offset 8) a in
  let a := outb 0x1f5 (Z.shiftr offset 16) a in
  let a := outb 0x1f6 (Z.lor (Z.shiftr offset 24) 0xE0) a in
  let a := outb 0x1f7 0x20 a in
  '(m, a) ← waitdisk (m, a);
  Ok (put_bytes m dst (insl a), a).

(** [for(; pa < epa; pa += SECTSIZE, offset++)] *)
Fixpoint readseg_loop (fuel : nat) (pa epa offset : Z) (s : bst) : result bst :=
  match fuel with
  | O => Sleeps "readseg"
  | S f =>
      if pa <? epa then s ← readsect pa offset s; readseg_loop f (u32 (pa + SECTSIZE)) epa (u32 (offset + 1)) s
      else Ok s
  end.

Definition readseg (pa count offset : Z) (s : bst) : result bst :=
  let epa := u32 (pa + count) in
  let pa := u32 (pa - offset mod SECTSIZE) in
  let offset := offset / SECTSIZE + 1 in
  readseg_loop (Z.to_nat ((epa - pa) / SECTSIZE + 2)) pa epa offset s.

(** [for(; ph < eph; ph++)] *)
Fixpoint boot_segs (fuel : nat) (ph eph : Z) (s : bst) : result bst :=
  match fuel with
  | O => Sleeps "bootmain"
  | S f =>
      if ph <? eph then
        let b := mem_bytes s.1 ph 32 in
        let pa := ph_paddr b in
        s ← readseg pa (ph_filesz b) (ph_off b) s;
        let s := if ph_filesz b <? ph_memsz b then (stosb s.1 (pa + ph_filesz b) 0 (Z.to_nat (ph_memsz b - ph_filesz b)), s.2) else s in
        boot_segs f (u32 (ph + 32)) eph s
      else Ok s
  end.

Definition bootmain (s : bst) : result (option Z * bst) :=
  let elf := 0x10000 in
  s ← readseg elf 4096 0 s;
  let b := mem_bytes s.1 elf 52 in
  if negb (elf_magic b =? ELF_MAGIC) then Ok (None, s)
  else
    let ph := u32 (elf + elf_phoff b) in
    let eph := u32 (ph + 32 * elf_phnum b) in
    s ← boot_segs (S (Z.to_nat (elf_phnum b))) ph eph s;
    Ok (Some (elf_entry (mem_bytes s.1 elf 52)), s).

End Boot.

(** ** Reading *)

(** The file [f] from sector 1 of the first drive on. *)
Definition on_disk (f : Z -> Z) (a : ata) : Prop := forall n, 0 <= n < 2 ^ 28 - 1 -> media a 0 (n + 1) = map f (seqZ (512 * n) 512).

Section Facts.
Context (lat : nat -> nat) (f : Z -> Z).
Local Abbreviation err := (fun _ : nat => 0).

Definition loader_ok (a : ata) : Prop := present a /\ errors a = 0 /\ on_disk f a.

Lemma waitdisk_ok m a : loader_ok a -> waitdisk (m, a) = Ok (m, set_delay 0 a).
Proof. intros (Hp & He & _). unfold waitdisk. cbn [fst snd]. by rewrite poll_ready by (done || by rewrite He). Qed.

Lemma loader_ok_delay n a : loader_ok a -> loader_ok (set_delay n a).
Proof. intros (H1 & H2 & H3). split; [exact H1|]. split; [exact H2 | exact H3]. Qed.

(** A sector is read as it is on the disk. *)
Lemma readsect_ok dst n m a :
  loader_ok a -> 0 <= n < 2 ^ 28 - 1 ->
  exists a', readsect lat err dst (n + 1) (m, a) = Ok (put_bytes m dst (map f (seqZ (512 * n) 512)), a') /\ loader_ok a'.
Proof.
  intros Hok Hn. unfold readsect. rewrite (waitdisk_ok m a Hok), bind_Ok. cbv beta iota. destruct Hok as (Hp & He & Hd).
  destruct (sector_bytes (n + 1)) as [_ Ht]; [lia|]. destruct (devreg_fields 0 (Z.shiftr (n + 1) 24)) as (Hv & _ & _); [lia | done |].
  destruct (regs_written lat err (set_delay 0 a) 0 (n + 1) (n + 1) (Z.shiftr (n + 1) 8) (Z.shiftr (n + 1) 16) (Z.lor (Z.shiftr (n + 1) 24) 0xE0))
    as (a' & -> & R1 & R2 & R3 & R4 & R5 & R6 & R7); [done | lia | lia | done | done | done | |].
  { rewrite Z.lor_comm. by apply u8_small. }
  change (outb lat err 0x1f7 0x20 a') with (outb lat err 0x1f7 IDE_CMD_READ a').
  destruct (read_started lat err a' R4 R1) as (a1 & -> & S1 & S2 & S3 & S4 & S5). assert (loader_ok a1) as Hok1.
  { split; [unfold present; by rewrite S1, R2|]. split; [done|]. intros k Hk. rewrite S4, R5. by apply Hd. }
  rewrite (waitdisk_ok m a1 Hok1), bind_Ok. exists (set_delay 0 a1). split; [|by apply loader_ok_delay].
  change (insl (set_delay 0 a1)) with (dport a1). by rewrite S5, R2, R3, R5, <-(Hd n Hn).
Qed.

(** The sectors [n], ..., [n + k - 1] of the file, in memory from [p] on. *)
Lemma readseg_loop_ok k fuel p epa n m a :
  loader_ok a -> (k < fuel)%nat -> 0 <= p -> epa <= p + 512 * Z.of_nat k -> p + 512 * (Z.of_nat k - 1) < epa -> p + 512 * Z.of_nat k < 2 ^ 32 ->
  0 <= n -> n + Z.of_nat k < 2 ^ 28 - 1 ->
  exists m' a', readseg_loop lat err fuel p epa (n + 1) (m, a) = Ok (m', a') /\ loader_ok a' /\
    forall x, m' x = if within x p (512 * Z.of_nat k) then f (512 * n + (x - p)) else m x.
Proof.
  revert fuel p n m a. induction k as [|k IH]; intros fuel p n m a Hok Hf Hp He1 He2 Hlt Hn Hb; (destruct fuel as [|fuel]; [lia|]); cbn [readseg_loop].
  - rewrite (proj2 (Z.ltb_ge _ _)) by lia. exists m, a. split; [done|]. split; [done|]. intros x. case_within; lia || done.
  - rewrite (proj2 (Z.ltb_lt _ _)) by lia. destruct (readsect_ok p n m a Hok) as (a1 & -> & Hok1); [lia|]. cbn [mbind result_bind].
    unfold SECTSIZE. rewrite !u32_small by lia.
    destruct (IH fuel (p + 512) (n + 1) (put_bytes m p (map f (seqZ (512 * n) 512))) a1) as (m' & a' & -> & Hok' & Hm); [done | lia.. |].
    exists m', a'. split; [done|]. split; [done|]. intros x. rewrite Hm. unfold put_bytes. rewrite length_map, length_seqZ.
    fold (within x p (Z.of_nat (Z.to_nat 512))). change (Z.of_nat (Z.to_nat 512)) with 512.
    case_within; try lia; try (f_equal; lia); try done. rewrite nth_lookup, list_lookup_fmap.
    rewrite lookup_seqZ_lt by lia. cbn. f_equal. lia.
Qed.

Lemma readseg_ok pa count off m a :
  loader_ok a -> 0 <= off -> 0 <= count -> off mod 512 <= pa -> pa + count < 2 ^ 31 -> off + count < 2 ^ 31 ->
  exists m' a', readseg lat err pa count off (m, a) = Ok (m', a') /\ loader_ok a' /\
    (forall x, pa <= x < pa + count -> m' x = f (off + (x - pa))) /\ (forall x, x < pa - off mod 512 -> m' x = m x) /\
    (count mod 512 = 0 -> off mod 512 = 0 -> forall x, pa + count <= x -> m' x = m x).
Proof.
  intros Hok Ho Hc Hpa Hlt Hlt2. unfold readseg. unfold SECTSIZE. pose proof (Z.mod_pos_bound off 512). rewrite !u32_small by lia.
  set (p := pa - off mod 512). assert (0 <= count + off mod 512) by lia. set (k := (count + off mod 512 + 511) / 512).
  assert (0 <= k) by (subst k; apply Z.div_pos; lia).
  destruct (readseg_loop_ok (Z.to_nat k) (Z.to_nat ((pa + count - p) / 512 + 2)) p (pa + count) (off / 512) m a) as (m' & a' & -> & Hok' & Hm).
  - done.
  - subst k p. replace (pa + count - (pa - off mod 512)) with (count + off mod 512) by lia. zlia.
  - lia.
  - subst k p. rewrite Z2Nat.id by done. zlia.
  - subst k p. rewrite Z2Nat.id by done. zlia.
  - subst k p. rewrite Z2Nat.id by done. zlia.
  - zlia.
  - subst k p. rewrite Z2Nat.id by done. zlia.
  - exists m', a'. split; [done|]. split; [done|]. rewrite Z2Nat.id in Hm by done. split_and!; intros; rewrite Hm; subst k p; case_within; try zlia; try done.
    f_equal. zlia.
Qed.

(** The segments, as their headers describe them, in increasing order with
    room for the sectors of the file around them. *)
Fixpoint segs_fit (lo : Z) (segs : list (list Z)) : Prop :=
  match segs with
  | [] => True
  | b :: segs' =>
      lo <= ph_paddr b - ph_off b mod 512 /\ 0 <= ph_off b /\ 0 <= ph_filesz b /\ 0 <= ph_memsz b /\
      ph_paddr b + Z.max (ph_filesz b) (ph_memsz b) < 2 ^ 31 /\ ph_off b + ph_filesz b < 2 ^ 31 /\
      segs_fit (ph_paddr b + Z.max (ph_filesz b) (ph_memsz b)) segs'
  end.

(** A segment is in memory: its part of the file, then zeros. *)
Definition loaded (m : mem) (b : list Z) : Prop :=
  forall x, ph_paddr b <= x < ph_paddr b + Z.max (ph_filesz b) (ph_memsz b) ->
    m x = if x <? ph_paddr b + ph_filesz b then f (ph_off b + (x - ph_paddr b)) else 0.

(** The program headers in the file. *)
Definition headers (phoff : Z) (n : nat) : list (list Z) := map (fun j => map f (seqZ (phoff + 32 * Z.of_nat j) 32)) (seq 0 n).

Lemma headers_S phoff n : headers phoff (S n) = map f (seqZ phoff 32) :: headers (phoff + 32) n.
Proof.
  unfold headers. cbn [seq map]. f_equal; [do 2 f_equal; lia|]. rewrite <-seq_shift, map_map. apply map_ext. intros j. do 2 f_equal. lia.
Qed.

(** The first page of the file in the scratch space. *)
Definition scratch (m : mem) : Prop := forall x, 0x10000 <= x < 0x11000 -> m x = f (x - 0x10000).

Lemma scratch_bytes m o n : scratch m -> 0 <= o -> o + n <= 4096 -> mem_bytes m (0x10000 + o) n = map f (seqZ o n).
Proof.
  intros Hs Ho Hn. apply list_eq. intros i. unfold mem_bytes. rewrite !list_lookup_fmap. destruct (decide (Z.of_nat i < n)) as [Hi|Hi].
  - rewrite !lookup_seqZ_lt by lia. cbn. f_equal. rewrite Hs by lia. f_equal. lia.
  - by rewrite !lookup_seqZ_ge by lia.
Qed.

Lemma boot_segs_ok n phoff fuel lo m a :
  loader_ok a -> scratch m -> 0x11000 <= lo -> 0 <= phoff -> phoff + 32 * Z.of_nat n <= 4096 -> (n < fuel)%nat -> segs_fit lo (headers phoff n) ->
  exists m' a', boot_segs lat err fuel (0x10000 + phoff) (0x10000 + phoff + 32 * Z.of_nat n) (m, a) = Ok (m', a') /\ loader_ok a' /\
    (forall x, x < lo -> m' x = m x) /\ Forall (loaded m') (headers phoff n).
Proof.
  revert phoff fuel lo m a. induction n as [|n IH]; intros phoff fuel lo m a Hok Hs Hlo Ho Hb Hf Hfit; (destruct fuel as [|fuel]; [lia|]); cbn [boot_segs].
  { rewrite (proj2 (Z.ltb_ge _ _)) by lia. exists m, a. split; [done|]. split; [done|]. split; [done | constructor]. }
  rewrite (proj2 (Z.ltb_lt _ _)) by lia. cbn [fst]. rewrite (scratch_bytes m phoff 32 Hs) by lia.
  rewrite headers_S in Hfit |- *. set (b := map f (seqZ phoff 32)) in *. cbn [segs_fit] in Hfit. destruct Hfit as (F1 & F2 & F3 & F4 & F5 & F6 & Hfit).
  pose proof (Z.mod_pos_bound (ph_off b) 512 ltac:(lia)) as Hmod.
  destruct (readseg_ok (ph_paddr b) (ph_filesz b) (ph_off b) m a Hok) as (m1 & a1 & -> & Hok1 & Hin & Hbefore & _); [lia..|]. cbn [mbind result_bind fst snd].
  set (m2 := if ph_filesz b <? ph_memsz b then stosb m1 (ph_paddr b + ph_filesz b) 0 (Z.to_nat (ph_memsz b - ph_filesz b)) else m1).
  replace (if ph_filesz b <? ph_memsz b then _ else (m1, a1)) with (m2, a1) by (subst m2; by destruct (ph_filesz b <? ph_memsz b)).
  assert (loaded m2 b) as Hl2.
  { intros x Hx. subst m2. destruct (Z.ltb_spec (ph_filesz b) (ph_memsz b)), (Z.ltb_spec x (ph_paddr b + ph_filesz b));
      rewrite ?stosb_spec; case_within; try lia; try done; apply Hin; lia. }
  assert (forall x, x < lo -> m2 x = m x) as Hlow.
  { intros x Hx. subst m2. destruct (Z.ltb_spec (ph_filesz b) (ph_memsz b)); rewrite ?stosb_spec; case_within; try lia; apply Hbefore; lia. }
  rewrite u32_small by lia. replace (0x10000 + phoff + 32) with (0x10000 + (phoff + 32)) by lia.
  replace (0x10000 + phoff + 32 * Z.of_nat (S n)) with (0x10000 + (phoff + 32) + 32 * Z.of_nat n) by lia.
  destruct (IH (phoff + 32) fuel (ph_paddr b + Z.max (ph_filesz b) (ph_memsz b)) m2 a1) as (m' & a' & -> & Hok' & Hlow' & Hall); [done | | lia.. | done |].
  { intros x Hx. rewrite Hlow by lia. by apply Hs. }
  exists m', a'. split; [done|]. split; [done|]. split; [intros x Hx; rewrite Hlow' by lia; by apply Hlow|].
  constructor; [|done]. intros x Hx. rewrite Hlow' by lia. by apply Hl2.
Qed.

End Facts.

(** C24: The boot loader loads the kernel.  For a kernel file on the disk from
    sector 1 on, whose program headers are in its first page and describe
    segments in increasing order above the scratch space that keep clear of each
    other with the sectors of the file around them, [bootmain] returns the entry
    point of the file, with every segment in memory: its part of the file at its
    physical address, then zeros; memory below the first segment and outside the
    scratch space is as before.  A file without the magic number is not entered. *)
Theorem bootmain_loads_kernel lat (f : Z -> Z) m a :
  present a -> errors a = 0 -> on_disk f a ->
  let elf := map f (seqZ 0 52) in
  let segs := headers f (elf_phoff elf) (Z.to_nat (elf_phnum elf)) in
  0 <= elf_phoff elf -> 0 <= elf_phnum elf -> elf_phoff elf + 32 * elf_phnum elf <= 4096 -> segs_fit 0x11000 segs ->
  exists m' a', bootmain lat (fun _ => 0) (m, a) =
      Ok (if elf_magic elf =? ELF_MAGIC then Some (elf_entry elf) else None, (m', a')) /\
    (elf_magic elf = ELF_MAGIC -> Forall (loaded f m') segs) /\ (forall x, x < 0x10000 -> m' x = m x).
Proof.
  intros Hp He Hd elf segs Hph Hn Hpage Hfit. assert (loader_ok f a) as Hok by done. unfold bootmain. cbv zeta.
  destruct (readseg_ok lat f 0x10000 4096 0 m a Hok) as (m1 & a1 & -> & Hok1 & Hin & Hbefore & _); [done | zlia.. |]. cbn [mbind result_bind fst snd].
  assert (scratch f m1) as Hs by (intros x Hx; rewrite Hin by lia; f_equal; lia).
  pose proof (scratch_bytes f m1 0 52 Hs ltac:(lia) ltac:(lia)) as E. rewrite Z.add_0_r in E. rewrite E. fold elf.
  assert (forall x, x < 0x10000 -> m1 x = m x) as Hlow1 by (intros x Hx; apply Hbefore; change (0 mod 512) with 0; lia).
  destruct (elf_magic elf =? ELF_MAGIC) eqn:Em; cbn [negb].
  - rewrite !u32_small by lia. destruct (boot_segs_ok lat f (Z.to_nat (elf_phnum elf)) (elf_phoff elf) (S (Z.to_nat (elf_phnum elf))) 0x11000 m1 a1)
      as (m' & a' & Hrun & _ & Hlow & Hall); [done | done | lia | lia | lia | lia | done |].
    rewrite Z2Nat.id in Hrun by lia. rewrite Hrun. cbn [mbind result_bind fst]. exists m', a'.
    assert (scratch f m') as Hs' by (intros x Hx; rewrite Hlow by lia; by apply Hs).
    pose proof (scratch_bytes f m' 0 52 Hs' ltac:(lia) ltac:(lia)) as E'. rewrite Z.add_0_r in E'. rewrite E'.
    split; [done|]. split; [done|]. intros x Hx. rewrite Hlow by lia. by apply Hlow1.
  - exists m1, a1. split; [done|]. split; [|done]. by apply Z.eqb_neq in Em.
Qed.

(** A kernel with one segment, that starts inside a sector. *)
Definition demo_hdr : list Z :=
  [0x7F; 0x45; 0x4C; 0x46] ++ replicate 20 0 ++ le32 0x10000c ++ le32 52 ++ replicate 12 0 ++ le16 1 ++ replicate 6 0 ++
  le32 1 ++ le32 4196 ++ le32 0 ++ le32 0x100064 ++ le32 600 ++ le32 700 ++ replicate 8 0.
Definition demo_kernel (k : Z) : Z := nth (Z.to_nat k) demo_hdr (k mod 251).
Definition demo_ata : ata := mkAta 0 0 0 0 0 0 5 0 [] None false (fun _ l => map demo_kernel (seqZ (512 * (l - 1)) 512)).

Lemma bootmain_loads_kernel_witness :
  exists m' a', bootmain (fun n => n) (fun _ => 0) ((fun _ => 99), demo_ata) = Ok (Some 0x10000c, (m', a')) /\
    m' 0x100064 = 4196 mod 251 /\ m' (0x100064 + 650) = 0 /\ m' 0 = 99.
Proof.
  destruct (bootmain_loads_kernel (fun n => n) demo_kernel (fun _ => 99) demo_ata) as (m' & a' & E & Hl & Hlow).
  - reflexivity.
  - reflexivity.
  - intros n Hn. cbn [media demo_ata]. f_equal. f_equal. lia.
  - apply Z.leb_le. vm_compute. reflexivity.
  - apply Z.leb_le. vm_compute. reflexivity.
  - apply Z.leb_le. vm_compute. reflexivity.
  - vm_compute. repeat split; discriminate.
  - exists m', a'. split; [etransitivity; [exact E | vm_compute; reflexivity]|].
    assert (headers demo_kernel (elf_phoff (map demo_kernel (seqZ 0 52))) (Z.to_nat (elf_phnum (map demo_kernel (seqZ 0 52)))) = [drop 52 demo_hdr]) as Eh
      by (vm_compute; reflexivity).
    assert (elf_magic (map demo_kernel (seqZ 0 52)) = ELF_MAGIC) as Em by (vm_compute; reflexivity).
    specialize (Hl Em). rewrite Eh in Hl. apply Forall_cons in Hl as [Hl _].
    assert (ph_paddr (drop 52 demo_hdr) = 0x100064 /\ ph_filesz (drop 52 demo_hdr) = 600 /\ ph_memsz (drop 52 demo_hdr) = 700) as (E1 & E2 & E3)
      by (vm_compute; repeat split).
    split; [|split].
    + rewrite (Hl 0x100064); [vm_compute; reflexivity | rewrite E1, E2, E3; lia].
    + rewrite (Hl (0x100064 + 650)); [vm_compute; reflexivity | rewrite E1, E2, E3; lia].
    + apply Hlow. lia.
Defined.
