(* ===== verification/Mp.v ===== *)
(** The search for processors, [xv6/base/mp.c] and [mp.h].

    At boot the kernel looks in memory for the floating pointer structure of the
    multiprocessor specification, follows it to the configuration table, and
    reads from the table the processors and the I/O interrupt controller.
    Addresses are virtual kernel addresses of 32 bits.  The loop over the table
    runs on fuel: the theorem shows when it ends, and when it does not. *)

From S2P Require Import Prelude CString Block Kalloc Boot.

Definition NCPU : nat := 8.
Definition MPPROC : Z := 0x00.
Definition MPBUS : Z := 0x01.
Definition MPIOAPIC : Z := 0x02.
Definition MPIOINTR : Z := 0x03.
Definition MPLINTR : Z := 0x04.

(** ** Data: the fields of the structures of [mp.h] at an address *)

Definition sizeof_mp : Z := 16.
Definition sizeof_mpconf : Z := 44.
Definition sizeof_mpproc : Z := 20.
Definition sizeof_mpioapic : Z := 8.

Definition mp_physaddr (m : mem) (p : Z) : Z := get32 (mem_bytes m p 16) 4.
Definition mp_imcrp (m : mem) (p : Z) : Z := m (p + 12).
Definition conf_length (m : mem) (p : Z) : Z := get16 (mem_bytes m p 44) 4.
Definition conf_version (m : mem) (p : Z) : Z := m (p + 6).
Definition conf_lapicaddr (m : mem) (p : Z) : Z := get32 (mem_bytes m p 44) 36.

(** [memcmp(p, s, 4) == 0] for a string literal of four characters *)
Definition signature (m : mem) (p : Z) (s : list Z) : bool := bool_decide (mem_bytes m p 4 = s).
Definition sig_mp : list Z := [95; 77; 80; 95].        (* _MP_ *)
Definition sig_pcmp : list Z := [80; 67; 77; 80].      (* PCMP *)

(** ** Operations *)

Fixpoint sum_loop (m : mem) (addr : Z) (len : nat) (s : Z) : Z :=
  match len with O => s | S n => sum_loop m (addr + 1) n (s + m addr) end.

Definition sum (m : mem) (addr len : Z) : Z := u8 (sum_loop m addr (Z.to_nat len) 0).

Fixpoint mpsearch_loop (fuel : nat) (m : mem) (p e : Z) : option Z :=
  match fuel with
  | O => None
  | S f =>
      if p <? e then
        if signature m p sig_mp && (sum m p sizeof_mp =? 0) then Some p else mpsearch_loop f m (p + sizeof_mp) e
      else None
  end.

Definition mpsearch1 (m : mem) (a len : Z) : option Z :=
  let addr := P2V a in
  mpsearch_loop (Z.to_nat (len / sizeof_mp + 1)) m addr (addr + len).

Definition mpsearch (m : mem) : option Z :=
  let bda := P2V 0x400 in
  let p := Z.shiftl (Z.lor (Z.shiftl (m (bda + 0x0F)) 8) (m (bda + 0x0E))) 4 in
  let other := mpsearch1 m 0xF0000 0x10000 in
  if negb (p =? 0) then
    match mpsearch1 m p 1024 with Some mp => Some mp | None => other end
  else
    let p := Z.lor (Z.shiftl (m (bda + 0x14)) 8) (m (bda + 0x13)) * 1024 in
    match mpsearch1 m (p - 1024) 1024 with Some mp => Some mp | None => other end.

(** The floating pointer and the configuration table *)
Definition mpconfig (m : mem) : option (Z * Z) :=
  match mpsearch m with
  | None => None
  | Some mp =>
      if mp_physaddr m mp =? 0 then None
      else
        let conf := P2V (mp_physaddr m mp) in
        if negb (signature m conf sig_pcmp) then None
        else if negb (conf_version m conf =? 1) && negb (conf_version m conf =? 4) then None
        else if negb (sum m conf (conf_length m conf) =? 0) then None
        else Some (mp, conf)
  end.

(** [cpus[0 .. ncpu-1].apicid], [ioapicid], [lapic] and the writes to ports *)
Record machine := mkMachine { apicids : list Z; ioapicid : Z; lapic : Z; port_writes : list (Z * Z) }.

Record mpscan := mkScan { sc_ismp : bool; sc_cpus : list Z; sc_ioapic : Z }.

Fixpoint mpinit_loop (fuel : nat) (m : mem) (p e : Z) (s : mpscan) : result mpscan :=
  match fuel with
  | O => Sleeps "mpinit"
  | S f =>
      if p <? e then
        let ty := m p in
        if ty =? MPPROC then
          let cpus := if (length (sc_cpus s) <? NCPU)%nat then sc_cpus s ++ [m (p + 1)] else sc_cpus s in
          mpinit_loop f m (u32 (p + sizeof_mpproc)) e (mkScan (sc_ismp s) cpus (sc_ioapic s))
        else if ty =? MPIOAPIC then
          mpinit_loop f m (u32 (p + sizeof_mpioapic)) e (mkScan (sc_ismp s) (sc_cpus s) (m (p + 1)))
        else if (ty =? MPBUS) || (ty =? MPIOINTR) || (ty =? MPLINTR) then mpinit_loop f m (u32 (p + 8)) e s
        else mpinit_loop f m p e (mkScan false (sc_cpus s) (sc_ioapic s))     (* [break] leaves the switch *)
      else Ok s
  end.

(** [imcr] is what port 0x23 reads. *)
Definition mpinit (fuel : nat) (m : mem) (imcr : Z) : result machine :=
  match mpconfig m with
  | None => Panic "Expect to run on an SMP"
  | Some (mp, conf) =>
      s ← mpinit_loop fuel m (u32 (conf + sizeof_mpconf)) (u32 (conf + conf_length m conf)) (mkScan true [] 0);
      if negb (sc_ismp s) then Panic "Didn't find a suitable machine"
      else
        let w := if negb (mp_imcrp m mp =? 0) then [(0x22, 0x70); (0x23, Z.lor imcr 1)] else [] in
        Ok (mkMachine (sc_cpus s) (sc_ioapic s) (conf_lapicaddr m conf) w)
  end.

(** ** The search *)

(** A floating pointer structure at [p]. *)
Definition mp_at (m : mem) (p : Z) : bool := signature m p sig_mp && (sum m p sizeof_mp =? 0).

(** The places where one may be, in the order they are tried: the first KB of
    the extended BIOS data area, if there is one, or the last KB of base memory,
    then the BIOS. *)
Definition slots (a len : Z) : list Z := map (fun k => P2V a + 16 * k) (seqZ 0 (len / 16)).

Definition mp_slots (m : mem) : list Z :=
  let bda := P2V 0x400 in
  let ebda := Z.shiftl (Z.lor (Z.shiftl (m (bda + 0x0F)) 8) (m (bda + 0x0E))) 4 in
  let base := Z.lor (Z.shiftl (m (bda + 0x14)) 8) (m (bda + 0x13)) * 1024 in
  slots (if ebda =? 0 then base - 1024 else ebda) 1024 ++ slots 0xF0000 0x10000.

Lemma mpsearch_loop_spec n fuel m p :
  (n < fuel)%nat -> mpsearch_loop fuel m p (p + 16 * Z.of_nat n) = hd_error (filter (fun q => mp_at m q = true) (map (fun k => p + 16 * k) (seqZ 0 (Z.of_nat n)))).
Proof.
  revert fuel p. induction n as [|n IH]; intros fuel p Hf; (destruct fuel as [|fuel]; [lia|]); cbn [mpsearch_loop].
  - by rewrite (proj2 (Z.ltb_ge _ _)) by lia.
  - rewrite (proj2 (Z.ltb_lt _ _)) by lia. rewrite seqZ_cons by lia. cbn [map]. rewrite Z.mul_0_r, Z.add_0_r, filter_cons. fold (mp_at m p).
    destruct (decide (mp_at m p = true)) as [->|Hno]; [done|]. rewrite (not_true_is_false _ Hno). unfold sizeof_mp.
    replace (p + 16 * Z.of_nat (S n)) with (p + 16 + 16 * Z.of_nat n) by lia. rewrite IH by lia. do 2 f_equal.
    replace (Z.pred (Z.of_nat (S n))) with (Z.of_nat n) by lia. change (Z.succ 0) with (1 + 0).
    rewrite <-(fmap_add_seqZ 1 0). rewrite <-list_fmap_compose. apply list_fmap_ext. intros _ k _. cbn. lia.
Qed.

Lemma mpsearch1_spec m a len : 0 <= len -> len mod 16 = 0 -> mpsearch1 m a len = hd_error (filter (fun q => mp_at m q = true) (slots a len)).
Proof.
  intros Hl Hm. unfold mpsearch1, slots, sizeof_mp. replace (P2V a + len) with (P2V a + 16 * Z.of_nat (Z.to_nat (len / 16))) by zlia.
  rewrite mpsearch_loop_spec by zlia. by rewrite Z2Nat.id by zlia.
Qed.

(** The first structure found is taken. *)
Lemma mpsearch_spec m : mpsearch m = hd_error (filter (fun q => mp_at m q = true) (mp_slots m)).
Proof.
  assert (forall l l' : list Z, match hd_error l with Some x => Some x | None => hd_error l' end = hd_error (l ++ l')) as Happ by by intros [].
  unfold mpsearch, mp_slots. cbv zeta. rewrite filter_app, <-Happ, !mpsearch1_spec by done. by destruct (_ =? 0).
Qed.

(** ** The table *)

(** An entry that the kernel knows. *)
Inductive mpentry := EProc (apicid : Z) | EIoapic (apicno : Z) | EOther (ty : Z).

Definition entry_size (x : mpentry) : Z := match x with EProc _ => 20 | _ => 8 end.

Definition entry_at (m : mem) (p : Z) (x : mpentry) : Prop :=
  match x with
  | EProc id => m p = MPPROC /\ m (p + 1) = id
  | EIoapic id => m p = MPIOAPIC /\ m (p + 1) = id
  | EOther ty => m p = ty /\ (ty = MPBUS \/ ty = MPIOINTR \/ ty = MPLINTR)
  end.

(** The entries from [p] to [e]; [ok] says that they go to the end, otherwise
    they stop at one of an unknown type. *)
Inductive table_at (m : mem) (e : Z) : Z -> list mpentry -> bool -> Prop :=
  | table_end p : e <= p -> table_at m e p [] true
  | table_entry p x xs ok : p < e -> entry_at m p x -> table_at m e (p + entry_size x) xs ok -> table_at m e p (x :: xs) ok
  | table_unknown p : p < e -> (m p < 0 \/ 4 < m p) -> table_at m e p [] false.

(** The processors, in the order of the table, as many as fit. *)
Definition procs (xs : list mpentry) : list Z := omap (fun x => match x with EProc id => Some id | _ => None end) xs.
Definition ioapics (xs : list mpentry) : list Z := omap (fun x => match x with EIoapic id => Some id | _ => None end) xs.

(** Every table is one of these. *)
Lemma table_total m e p : exists xs ok, table_at m e p xs ok.
Proof.
  assert (forall n p, e - p < Z.of_nat n -> exists xs ok, table_at m e p xs ok) as H.
  { induction n as [|n IH]; intros q Hq; [exists [], true; constructor; lia|]. destruct (Z.lt_ge_cases q e) as [Hlt|]; [|exists [], true; by constructor].
    destruct (Z.lt_ge_cases (m q) 0); [exists [], false; constructor; lia|]. destruct (Z.lt_ge_cases 4 (m q)); [exists [], false; constructor; lia|].
    assert (exists x, entry_at m q x) as (x & Hx).
    { destruct (Z.eq_dec (m q) 0); [by exists (EProc (m (q + 1)))|]. destruct (Z.eq_dec (m q) 2); [by exists (EIoapic (m (q + 1)))|].
      exists (EOther (m q)). split; [done|]. unfold MPBUS, MPIOINTR, MPLINTR. lia. }
    destruct (IH (q + entry_size x)) as (xs & ok & Ht); [destruct x; cbn; lia|]. exists (x :: xs), ok. by constructor. }
  apply (H (Z.to_nat (Z.max 0 (e - p + 1)))). lia.
Qed.

(** One entry that is known. *)
Lemma mpinit_entry m e p x xs s :
  p < e -> entry_at m p x -> 0 <= p -> e + 20 < 2 ^ 32 -> (length (sc_cpus s) <= NCPU)%nat ->
  exists s1, (length (sc_cpus s1) <= NCPU)%nat /\ take NCPU (sc_cpus s1 ++ procs xs) = take NCPU (sc_cpus s ++ procs (x :: xs)) /\ sc_ismp s1 = sc_ismp s /\
    default (sc_ioapic s1) (last (ioapics xs)) = default (sc_ioapic s) (last (ioapics (x :: xs))) /\
    forall f, mpinit_loop (S f) m p e s = mpinit_loop f m (p + entry_size x) e s1.
Proof.
  intros Hlt Hx Hp He Hc. destruct s as [mp cs io]. cbn [sc_cpus sc_ismp sc_ioapic] in *. destruct x as [id|id|ty]; cbn [entry_at entry_size] in *.
  - destruct Hx as [Hty Hid]. exists (mkScan mp (if (length cs <? NCPU)%nat then cs ++ [id] else cs) io). cbn [sc_cpus sc_ismp sc_ioapic].
    split; [destruct (Nat.ltb_spec (length cs) NCPU); rewrite ?length_app; cbn; lia|]. split; [|split; [done|]; split; [done|]].
    + destruct (Nat.ltb_spec (length cs) NCPU); [by rewrite <-app_assoc|]. by rewrite !take_app_le, !take_ge by lia.
    + intros f. cbn [mpinit_loop]. rewrite (proj2 (Z.ltb_lt _ _)) by lia. rewrite Hty, Hid. unfold sizeof_mpproc. by rewrite u32_small by lia.
  - destruct Hx as [Hty Hid]. exists (mkScan mp cs id). cbn [sc_cpus sc_ismp sc_ioapic]. do 3 (split; [done|]). split.
    + change (ioapics (EIoapic id :: xs)) with (id :: ioapics xs). rewrite last_cons. by destruct (last (ioapics xs)).
    + intros f. cbn [mpinit_loop]. rewrite (proj2 (Z.ltb_lt _ _)) by lia. rewrite Hty, Hid. unfold sizeof_mpproc, sizeof_mpioapic. by rewrite !u32_small by lia.
  - destruct Hx as [Hty Ho]. exists (mkScan mp cs io). do 4 (split; [done|]). intros f. cbn [mpinit_loop]. rewrite (proj2 (Z.ltb_lt _ _)) by lia.
    rewrite Hty. unfold sizeof_mpproc, sizeof_mpioapic. rewrite !u32_small by lia. destruct Ho as [->|[-> | ->]]; done.
Qed.

(** The loop reads it, or never ends. *)
Lemma mpinit_loop_spec m e p xs ok :
  table_at m e p xs ok -> 0 <= p -> e + 20 < 2 ^ 32 -> forall s fuel,
  (length (sc_cpus s) <= NCPU)%nat ->
  (ok = true -> (length xs < fuel)%nat ->
   mpinit_loop fuel m p e s = Ok (mkScan (sc_ismp s) (take NCPU (sc_cpus s ++ procs xs)) (default (sc_ioapic s) (last (ioapics xs))))) /\
  (ok = false -> mpinit_loop fuel m p e s = Sleeps "mpinit").
Proof.
  intros Ht Hp He. induction Ht as [p Hge | p x xs ok Hlt Hx Ht IH | p Hlt Hbad]; intros s fuel Hc.
  - split; [|done]. intros _ Hf. destruct fuel as [|fuel]; [cbn in Hf; lia|]. cbn [mpinit_loop]. rewrite (proj2 (Z.ltb_ge _ _)) by lia.
    unfold procs, ioapics. cbn. rewrite app_nil_r, take_ge by done. by destruct s.
  - assert (0 < entry_size x <= 20) as Hsz by (destruct x; cbn; lia).
    destruct (mpinit_entry m e p x xs s Hlt Hx Hp He Hc) as (s1 & Hc1 & Htk & Hmp & Hio & Hstep).
    destruct (IH ltac:(lia) s1 (pred fuel) Hc1) as [IH1 IH2]. split; intros Hok.
    + intros Hf. destruct fuel as [|fuel]; [lia|]. rewrite Hstep. cbn [pred] in IH1. rewrite (IH1 Hok) by (cbn in Hf; lia). by rewrite Htk, Hmp, Hio.
    + destruct fuel as [|fuel]; [done|]. rewrite Hstep. by apply IH2.
  - split; [done|]. intros _. revert s Hc. induction fuel as [|fuel IHf]; intros s Hc; [done|]. cbn [mpinit_loop]. rewrite (proj2 (Z.ltb_lt _ _)) by lia.
    unfold MPPROC, MPIOAPIC, MPBUS, MPIOINTR, MPLINTR. rewrite !(proj2 (Z.eqb_neq _ _)) by lia. by apply IHf.
Qed.

(** What a configuration table has to be. *)
Definition conf_ok (m : mem) (mp conf : Z) : Prop :=
  mp_physaddr m mp <> 0 /\ conf = P2V (mp_physaddr m mp) /\ mem_bytes m conf 4 = sig_pcmp /\ (conf_version m conf = 1 \/ conf_version m conf = 4) /\
  sum m conf (conf_length m conf) = 0.

Lemma mpconfig_spec m :
  match mpconfig m with
  | Some (mp, conf) => hd_error (filter (fun q => mp_at m q = true) (mp_slots m)) = Some mp /\ conf_ok m mp conf
  | None => forall mp conf, hd_error (filter (fun q => mp_at m q = true) (mp_slots m)) = Some mp -> ~ conf_ok m mp conf
  end.
Proof.
  unfold mpconfig. rewrite mpsearch_spec. destruct (hd_error _) as [mp|]; [|done].
  destruct (Z.eqb_spec (mp_physaddr m mp) 0) as [|Hp]; [intros ? ? [= <-] (H & _); done|].
  set (conf := P2V (mp_physaddr m mp)). unfold signature.
  destruct (bool_decide_reflect (mem_bytes m conf 4 = sig_pcmp)) as [Hs|Hs]; cbn [negb]; [|by intros ? ? [= <-] (_ & -> & ? & _)].
  destruct (Z.eqb_spec (conf_version m conf) 1) as [H1|H1], (Z.eqb_spec (conf_version m conf) 4) as [H4|H4]; cbn [negb andb];
    try (destruct (Z.eqb_spec (sum m conf (conf_length m conf)) 0); cbn [negb]; [split; [done|]; split_and!; tauto | by intros ? ? [= <-] (_ & -> & _ & _ & ?)]).
  intros ? ? [= <-] (_ & -> & _ & [?|?] & _); done.
Qed.


(** Two machines: two processors, a bus and an I/O controller; and the same with
    an entry of type 7 at the end. *)
Definition with_sum (pre post : list Z) : list Z := pre ++ [u8 (- foldl Z.add 0 (pre ++ post))] ++ post.

Definition demo_entries : list Z := [0; 3] ++ replicate 18 0 ++ [0; 5] ++ replicate 18 0 ++ [1] ++ replicate 7 0 ++ [2; 9] ++ replicate 6 0.

Definition demo_bios (entries : list Z) : mem :=
  let fp := with_sum (sig_mp ++ le32 0x9F000 ++ [1; 4]) [0; 0; 0; 0; 0] in
  let conf := with_sum (sig_pcmp ++ le16 (44 + Z.of_nat (length entries)) ++ [4]) (replicate 28 0 ++ le32 0xFEE00000 ++ replicate 4 0 ++ entries) in
  put_bytes (put_bytes (fun _ => 0) (P2V 0xF0010) fp) (P2V 0x9F000) conf.

Example demo_two_processors : mpinit 10 (demo_bios demo_entries) 0 = Ok (mkMachine [3; 5] 9 0xFEE00000 []).
Proof. vm_compute. reflexivity. Qed.

Example demo_unknown_entry : mpinit 1000 (demo_bios (demo_entries ++ [7])) 0 = Sleeps "mpinit".
Proof. vm_compute. reflexivity. Qed.
