(* ===== verification/Seg.v ===== *)
(** Segments, gates and the way into the kernel: the descriptors of
    [xv6/base/mmu.h], [seginit] and [switchuvm] of [vm.c], [tvinit] of [trap.c].

    A C structure of bit-fields is the list of its widths and values, packed
    from the lowest bit on; the processor reads the packed words at the
    positions of its manual.  The theorem: from user mode the only way into the
    kernel by an instruction is the system call gate, every exception and
    interrupt enters its own handler in the kernel's code segment, on the
    kernel stack of the process, and user code has no access to ports. *)

From S2P Require Import Prelude Kalloc Proc.

(** ** Bit-fields *)

(** A field is its width and its value, which is cut off to the width. *)
Definition pack_bits : list (Z * Z) -> Z := foldr (fun wv r => wv.2 mod 2 ^ wv.1 + 2 ^ wv.1 * r) 0.

Definition widths (l : list (Z * Z)) : Z := foldr (fun wv r => wv.1 + r) 0 l.

(** [w] bits of [x] from bit [off] on, as the processor reads them *)
Definition bitfield (x off w : Z) : Z := Z.land (Z.shiftr x off) (Z.ones w).

(** ** [mmu.h] *)

Definition SEG_KCODE : Z := 1.
Definition SEG_KDATA : Z := 2.
Definition SEG_UCODE : Z := 3.
Definition SEG_UDATA : Z := 4.
Definition SEG_TSS : Z := 5.
Definition NSEGS : nat := 6.
Definition DPL_USER : Z := 3.
Definition STA_X : Z := 8.
Definition STA_W : Z := 2.
Definition STA_R : Z := 2.
Definition STS_T32A : Z := 9.
Definition STS_IG32 : Z := 0xE.
Definition STS_TG32 : Z := 0xF.

Record segdesc := mkSegdesc {
  lim_15_0 : Z; base_15_0 : Z; base_23_16 : Z; sd_type : Z; sd_s : Z; sd_dpl : Z; sd_p : Z;
  lim_19_16 : Z; sd_avl : Z; sd_rsv1 : Z; sd_db : Z; sd_g : Z; base_31_24 : Z
}.

Definition seg_fields (d : segdesc) : list (Z * Z) :=
  [(16, lim_15_0 d); (16, base_15_0 d); (8, base_23_16 d); (4, sd_type d); (1, sd_s d); (2, sd_dpl d); (1, sd_p d);
   (4, lim_19_16 d); (1, sd_avl d); (1, sd_rsv1 d); (1, sd_db d); (1, sd_g d); (8, base_31_24 d)].

Definition SEG (type base lim dpl : Z) : segdesc :=
  mkSegdesc (Z.land (Z.shiftr lim 12) 0xffff) (Z.land (u32 base) 0xffff) (Z.land (Z.shiftr (u32 base) 16) 0xff) type 1 dpl 1
    (Z.shiftr (u32 lim) 28) 0 0 1 1 (Z.shiftr (u32 base) 24).

Definition SEG16 (type base lim dpl : Z) : segdesc :=
  mkSegdesc (Z.land lim 0xffff) (Z.land (u32 base) 0xffff) (Z.land (Z.shiftr (u32 base) 16) 0xff) type 1 dpl 1
    (Z.shiftr (u32 lim) 16) 0 0 1 0 (Z.shiftr (u32 base) 24).

Record gatedesc := mkGate {
  off_15_0 : Z; g_cs : Z; g_args : Z; g_rsv1 : Z; g_type : Z; g_s : Z; g_dpl : Z; g_p : Z; off_31_16 : Z
}.

Definition gate_fields (g : gatedesc) : list (Z * Z) :=
  [(16, off_15_0 g); (16, g_cs g); (5, g_args g); (3, g_rsv1 g); (4, g_type g); (1, g_s g); (2, g_dpl g); (1, g_p g); (16, off_31_16 g)].

Definition SETGATE (istrap : bool) (sel off d : Z) : gatedesc :=
  mkGate (Z.land (u32 off) 0xffff) sel 0 0 (if istrap then STS_TG32 else STS_IG32) 0 d 1 (Z.shiftr (u32 off) 16).

(** ** [trap.c]: the interrupt descriptor table *)

Definition T_SYSCALL : Z := 64.

Definition set_gate (idt : list Z) (i : Z) (g : gatedesc) : list Z := <[Z.to_nat i := pack_bits (gate_fields g)]> idt.

Definition tvinit (vectors : Z -> Z) (idt : list Z) : list Z :=
  let idt := foldl (fun idt i => set_gate idt i (SETGATE false (Z.shiftl SEG_KCODE 3) (vectors i) 0)) idt (seqZ 0 256) in
  set_gate idt T_SYSCALL (SETGATE true (Z.shiftl SEG_KCODE 3) (vectors T_SYSCALL) DPL_USER).

(** ** [vm.c]: the segments of a processor *)

(** The fields of [struct taskstate] that the kernel sets. *)
Record taskstate := mkTs { ss0 : Z; esp0 : Z; iomb : Z }.
Definition sizeof_ts : Z := 104.

(** [gdt] and [ts] of a processor, and the registers loaded. *)
Record cpuseg := mkCpuseg { gdt : list Z; ts : taskstate; tr : Z; cr3 : Z }.

Definition set_seg (l : list Z) (i : Z) (d : segdesc) : list Z := <[Z.to_nat i := pack_bits (seg_fields d)]> l.

Definition seginit (c : cpuseg) : cpuseg :=
  let g := set_seg (gdt c) SEG_KCODE (SEG (Z.lor STA_X STA_R) 0 0xffffffff 0) in
  let g := set_seg g SEG_KDATA (SEG STA_W 0 0xffffffff 0) in
  let g := set_seg g SEG_UCODE (SEG (Z.lor STA_X STA_R) 0 0xffffffff DPL_USER) in
  let g := set_seg g SEG_UDATA (SEG STA_W 0 0xffffffff DPL_USER) in
  mkCpuseg g (ts c) (tr c) (cr3 c).

Definition set_s (s : Z) (d : segdesc) : segdesc :=
  mkSegdesc (lim_15_0 d) (base_15_0 d) (base_23_16 d) (sd_type d) s (sd_dpl d) (sd_p d)
    (lim_19_16 d) (sd_avl d) (sd_rsv1 d) (sd_db d) (sd_g d) (base_31_24 d).

(** [ts_addr] is the address of [mycpu()->ts]. *)
Definition switchuvm (ts_addr : Z) (p : option proc) (c : cpuseg) : result cpuseg :=
  match p with
  | None => Panic "switchuvm: no process"
  | Some p =>
      if p_kstack p =? 0 then Panic "switchuvm: no kstack"
      else if p_pgdir p =? 0 then Panic "switchuvm: no pgdir"
      else
        let g := set_seg (gdt c) SEG_TSS (set_s 0 (SEG16 STS_T32A ts_addr (sizeof_ts - 1) 0)) in
        let t := mkTs (Z.shiftl SEG_KDATA 3) (u32 (p_kstack p + KSTACKSIZE)) 0xFFFF in
        Ok (mkCpuseg g t (Z.shiftl SEG_TSS 3) (V2P (p_pgdir p)))
  end.

(** ** What the processor does with them *)

Record segview := mkSeg { v_base : Z; v_limit : Z; v_type : Z; v_s : Z; v_dpl : Z; v_p : Z }.

(** A descriptor as the processor reads it; with the granularity bit the limit
    counts pages. *)
Definition seg_view (x : Z) : segview :=
  let lim := bitfield x 0 16 + 2 ^ 16 * bitfield x 48 4 in
  mkSeg (bitfield x 16 24 + 2 ^ 24 * bitfield x 56 8) (if bitfield x 55 1 =? 0 then lim else lim * 4096 + 4095)
    (bitfield x 40 4) (bitfield x 44 1) (bitfield x 45 2) (bitfield x 47 1).

Record gateview := mkGview { gv_off : Z; gv_sel : Z; gv_type : Z; gv_dpl : Z; gv_p : Z }.

Definition gate_view (x : Z) : gateview :=
  mkGview (bitfield x 0 16 + 2 ^ 16 * bitfield x 48 16) (bitfield x 16 16) (bitfield x 40 5) (bitfield x 45 2) (bitfield x 47 1).

(** Entering a handler at privilege level [e_cpl], or a protection fault. *)
Inductive kentry := Enter (e_cpl e_cs e_eip : Z) (e_if : bool) (stack : option (Z * Z)) | Protection.

(** Interrupt [n] at level [cpl], by the instruction [int] or by the hardware. *)
Definition interrupt (c : cpuseg) (idt : list Z) (cpl : Z) (soft : bool) (n : nat) (flag_if : bool) : kentry :=
  match idt !! n with
  | None => Protection
  | Some x =>
      let g := gate_view x in
      if soft && (gv_dpl g <? cpl) then Protection
      else if negb (gv_p g =? 1) || negb ((gv_type g =? STS_IG32) || (gv_type g =? STS_TG32)) then Protection
      else
        match gdt c !! Z.to_nat (Z.shiftr (gv_sel g) 3) with
        | None => Protection
        | Some y =>
            let s := seg_view y in
            if negb (v_p s =? 1) || negb (v_s s =? 1) || (Z.land (v_type s) STA_X =? 0) || (cpl <? v_dpl s) || (v_limit s <? gv_off g) then Protection
            else
              Enter (v_dpl s) (gv_sel g) (v_base s + gv_off g) (if gv_type g =? STS_IG32 then false else flag_if)
                (if v_dpl s <? cpl then Some (ss0 (ts c), esp0 (ts c)) else None)
        end
  end.

(** May code at [cpl], with [iopl], use a port?  Above [iopl] the bitmap of the
    task state segment says, which is outside when it starts after the limit. *)
Definition port_allowed (c : cpuseg) (cpl iopl port : Z) : bool :=
  (cpl <=? iopl) ||
  match gdt c !! Z.to_nat (Z.shiftr (tr c) 3) with
  | Some y => iomb (ts c) + port / 8 + 1 <=? v_limit (seg_view y)
  | None => false
  end.

(** ** Packing and reading *)

Lemma pack_nonneg l : Forall (fun wv => 0 <= wv.1) l -> 0 <= pack_bits l.
Proof.
  induction 1 as [|[w v] l Hw _ IH]; [done|]. cbn [pack_bits foldr fst snd] in *. fold (pack_bits l). pose proof (Z.pow_pos_nonneg 2 w ltac:(lia) Hw) as H.
  pose proof (Z.mod_pos_bound v (2 ^ w) H). nia.
Qed.

Lemma bitfield_div x off w : 0 <= off -> 0 <= w -> bitfield x off w = (x / 2 ^ off) mod 2 ^ w.
Proof. intros Ho Hw. unfold bitfield. by rewrite Z.land_ones, Z.shiftr_div_pow2 by done. Qed.

Lemma widths_nonneg l : Forall (fun wv => 0 <= wv.1) l -> 0 <= widths l.
Proof. induction 1 as [|[w v] l Hw _ IH]; [done|]. unfold widths in *. cbn [foldr fst] in *. lia. Qed.

(** A field is read back where the fields before it end. *)
Lemma bitfield_pack l1 w v l2 :
  Forall (fun wv => 0 <= wv.1) l1 -> 0 <= w -> bitfield (pack_bits (l1 ++ (w, v) :: l2)) (widths l1) w = v mod 2 ^ w.
Proof.
  intros Hl Hw. assert (0 <= widths l1) as Hw1 by by apply widths_nonneg. rewrite bitfield_div by done.
  assert (pack_bits (l1 ++ (w, v) :: l2) / 2 ^ widths l1 = pack_bits ((w, v) :: l2)) as ->.
  { clear Hw1. induction Hl as [|[w' v'] l Hw' Hl IH]; [apply Z.div_1_r|]. pose proof (widths_nonneg l Hl) as Hwl.
    cbn [app pack_bits foldr widths fst snd] in *. fold (pack_bits (l ++ (w, v) :: l2)) (widths l) in *. pose proof (Z.pow_pos_nonneg 2 w' ltac:(lia) Hw') as H2.
    rewrite Z.pow_add_r, <-Z.div_div by (lia || apply Z.pow_pos_nonneg; lia). rewrite Z.mul_comm, Z.div_add, (Z.div_small (v' mod 2 ^ w')) by (lia || apply Z.mod_pos_bound; lia). exact IH. }
  cbn [pack_bits foldr fst snd]. rewrite Z.mul_comm, Z.mod_add by (pose proof (Z.pow_pos_nonneg 2 w); lia). apply Z.mod_mod. pose proof (Z.pow_pos_nonneg 2 w); lia.
Qed.

Lemma bitfield_split x off w1 w2 :
  0 <= off -> 0 <= w1 -> 0 <= w2 -> bitfield x off (w1 + w2) = bitfield x off w1 + 2 ^ w1 * bitfield x (off + w1) w2.
Proof.
  intros Ho H1 H2. rewrite !bitfield_div by lia. rewrite !Z.pow_add_r by done. rewrite <-Z.div_div by (pose proof (Z.pow_pos_nonneg 2 off); pose proof (Z.pow_pos_nonneg 2 w1); lia).
  apply Z.rem_mul_r; pose proof (Z.pow_pos_nonneg 2 w1); pose proof (Z.pow_pos_nonneg 2 w2); lia.
Qed.

(** The [n]-th field of a list of fields. *)
Lemma field_at l n w v :
  l !! n = Some (w, v) -> Forall (fun wv => 0 <= wv.1) l -> bitfield (pack_bits l) (widths (take n l)) w = v mod 2 ^ w.
Proof.
  intros Hn Hl. rewrite <-(take_drop_middle l n (w, v) Hn) at 1. apply bitfield_pack; [by apply Forall_take|]. rewrite Forall_forall in Hl.
  apply (Hl (w, v)). by eapply list_elem_of_lookup_2.
Qed.

Lemma gate_view_set istrap sel off d :
  0 <= sel < 2 ^ 16 -> 0 <= off < 2 ^ 32 -> 0 <= d < 4 ->
  gate_view (pack_bits (gate_fields (SETGATE istrap sel off d))) = mkGview off sel (if istrap then STS_TG32 else STS_IG32) d 1.
Proof.
  intros Hs Ho Hd. unfold gate_view. set (l := gate_fields _). assert (Forall (fun wv => 0 <= wv.1) l) as Hl by (repeat (constructor; [done|]); constructor).
  rewrite (bitfield_split _ 40 4 1) by done. change (40 + 4) with 44.
  rewrite (field_at l 0 16 (Z.land (u32 off) 0xffff) eq_refl Hl : bitfield (pack_bits l) 0 16 = _), (field_at l 8 16 (Z.shiftr (u32 off) 16) eq_refl Hl : bitfield (pack_bits l) 48 16 = _),
    (field_at l 1 16 sel eq_refl Hl : bitfield (pack_bits l) 16 16 = _), (field_at l 4 4 (if istrap then STS_TG32 else STS_IG32) eq_refl Hl : bitfield (pack_bits l) 40 4 = _),
    (field_at l 5 1 0 eq_refl Hl : bitfield (pack_bits l) 44 1 = _), (field_at l 6 2 d eq_refl Hl : bitfield (pack_bits l) 45 2 = _), (field_at l 7 1 1 eq_refl Hl : bitfield (pack_bits l) 47 1 = _).
  rewrite (u32_small off) by done. change 0xffff with (Z.ones 16). rewrite Z.land_ones, Z.shiftr_div_pow2 by done.
  rewrite (Z.mod_small sel), (Z.mod_small d) by (change (2 ^ 2) with 4; lia). f_equal; [zlia | by destruct istrap].
Qed.

(** ** The tables *)

Lemma set_gates_lookup (g : Z -> gatedesc) ks idt n :
  Forall (fun i => 0 <= i < 256) ks -> length idt = 256%nat -> (n < 256)%nat ->
  foldl (fun t i => set_gate t i (g i)) idt ks !! n = if bool_decide (Z.of_nat n ∈ ks) then Some (pack_bits (gate_fields (g (Z.of_nat n)))) else idt !! n.
Proof.
  intros Hks Hlen Hn. revert idt Hlen. induction Hks as [|i ks Hi Hks IH]; intros idt Hlen; [done|]. cbn [foldl].
  rewrite IH by (unfold set_gate; by rewrite length_insert). destruct (decide (Z.of_nat n ∈ ks)) as [Hin|Hin].
  - rewrite !bool_decide_true by set_solver. done.
  - rewrite bool_decide_false by done. unfold set_gate. destruct (decide (Z.of_nat n = i)) as [<-|Hne].
    + rewrite bool_decide_true by set_solver. rewrite Nat2Z.id. apply list_lookup_insert_eq. lia.
    + rewrite bool_decide_false by set_solver. apply list_lookup_insert_ne. lia.
Qed.

Lemma tvinit_lookup vectors idt n :
  length idt = 256%nat -> (n < 256)%nat ->
  tvinit vectors idt !! n = Some (pack_bits (gate_fields (SETGATE (n =? 64)%nat (Z.shiftl SEG_KCODE 3) (vectors (Z.of_nat n)) (if (n =? 64)%nat then DPL_USER else 0)))).
Proof.
  intros Hlen Hn. unfold tvinit, set_gate at 1, T_SYSCALL. change (Z.to_nat 64) with 64%nat. destruct (Nat.eqb_spec n 64) as [->|Hne].
  - apply list_lookup_insert_eq.
    assert (forall ks t, length (foldl (fun t i => set_gate t i (SETGATE false (Z.shiftl SEG_KCODE 3) (vectors i) 0)) t ks) = length t) as ->; [|lia].
    induction ks as [|i ks IH]; intros t; [done|]. cbn [foldl]. rewrite IH. unfold set_gate. apply length_insert.
  - rewrite list_lookup_insert_ne by done. rewrite (set_gates_lookup (fun i => SETGATE false (Z.shiftl SEG_KCODE 3) (vectors i) 0)); [|by apply Forall_seqZ|done|done].
    rewrite bool_decide_true; [done|]. apply elem_of_seqZ. lia.
Qed.

Lemma gate_entry c vectors idt cpl soft n fl stk :
  length idt = 256%nat -> (n < 256)%nat -> 0 <= vectors (Z.of_nat n) < 2 ^ 32 -> 0 <= cpl ->
  gdt c !! 1%nat = Some (pack_bits (seg_fields (SEG (Z.lor STA_X STA_R) 0 0xffffffff 0))) ->
  stk = (if 0 <? cpl then Some (ss0 (ts c), esp0 (ts c)) else None) ->
  interrupt c (tvinit vectors idt) cpl soft n fl =
    if soft && ((if (n =? 64)%nat then 3 else 0) <? cpl) then Protection
    else Enter 0 (Z.shiftl SEG_KCODE 3) (vectors (Z.of_nat n)) (if (n =? 64)%nat then fl else false) stk.
Proof.
  intros Hlen Hn Hv Hcpl Hg ->. unfold interrupt. rewrite (tvinit_lookup vectors idt n Hlen Hn).
  rewrite gate_view_set; [|by split|done|by destruct (n =? 64)%nat]. cbn [gv_off gv_sel gv_type gv_dpl gv_p].
  change (Z.to_nat (Z.shiftr (Z.shiftl SEG_KCODE 3) 3)) with 1%nat. rewrite Hg.
  change (seg_view (pack_bits (seg_fields (SEG (Z.lor STA_X STA_R) 0 0xffffffff 0)))) with (mkSeg 0 0xffffffff 10 1 0 1). cbn [v_base v_limit v_type v_s v_dpl v_p].
  change (Z.land 10 STA_X =? 0) with false. rewrite (proj2 (Z.ltb_ge cpl 0)), (proj2 (Z.ltb_ge 0xffffffff _)) by lia.
  by destruct (n =? 64)%nat, (soft && _).
Qed.

(** C16: The way into the kernel.  After [seginit], [tvinit] and [switchuvm] for a
    process, an [int] instruction in user mode enters the kernel only with number
    64, at the entry of the system call and with interrupts as they were, and is
    a protection fault with any other number; every exception and interrupt
    [n] enters entry [n] of [vectors] in the kernel's code segment with interrupts
    off (64 apart); coming from user mode the processor is then on the kernel
    stack of the process, with the kernel's data segment; user code can use no
    port; the descriptors of both user segments are for user mode, those of the
    kernel are not; and the page directory loaded is that of the process. *)
Theorem kernel_entry vectors idt0 c0 ts_addr p c :
  (forall i, 0 <= vectors i < 2 ^ 32) -> length idt0 = 256%nat -> length (gdt c0) = NSEGS ->
  switchuvm ts_addr (Some p) (seginit c0) = Ok c ->
  let idt := tvinit vectors idt0 in
  let kstk := (Z.shiftl SEG_KDATA 3, u32 (p_kstack p + KSTACKSIZE)) in
  (forall n fl, (n < 256)%nat -> interrupt c idt 3 true n fl =
     if (n =? 64)%nat then Enter 0 (Z.shiftl SEG_KCODE 3) (vectors 64) fl (Some kstk) else Protection) /\
  (forall n cpl fl, (n < 256)%nat -> cpl = 0 \/ cpl = 3 -> interrupt c idt cpl false n fl =
     Enter 0 (Z.shiftl SEG_KCODE 3) (vectors (Z.of_nat n)) (if (n =? 64)%nat then fl else false) (if cpl =? 0 then None else Some kstk)) /\
  (forall port, 0 <= port -> port_allowed c 3 0 port = false) /\
  map (fun x => v_dpl (seg_view x)) (take 4 (drop 1 (gdt c))) = [0; 0; 3; 3] /\ cr3 c = V2P (p_pgdir p).
Proof.
  intros Hv Hidt Hgdt Hsw idt kstk. subst idt. cbn [switchuvm] in Hsw. destruct (p_kstack p =? 0); [done|]. destruct (p_pgdir p =? 0); [done|].
  destruct c0 as [g t r x]. cbn [gdt] in Hgdt. do 6 (destruct g as [|? g]; [done|]). destruct g; [|done]. injection Hsw as <-.
  set (c := mkCpuseg _ _ _ _). assert (gdt c !! 1%nat = Some (pack_bits (seg_fields (SEG (Z.lor STA_X STA_R) 0 0xffffffff 0)))) as Hg by reflexivity.
  split; [|split; [|split; [|split]]].
  - intros n fl Hn. rewrite (gate_entry c vectors idt0 3 true n fl (Some kstk)) by done || apply Hv. by destruct (Nat.eqb_spec n 64) as [->|].
  - intros n cpl fl Hn Hcpl. rewrite (gate_entry c vectors idt0 cpl false n fl (if cpl =? 0 then None else Some kstk)); try done; [lia | destruct Hcpl as [H|H]; by rewrite H].
  - intros port Hp. unfold port_allowed. change (3 <=? 0) with false. cbn [orb]. change (Z.to_nat (Z.shiftr (tr c) 3)) with 5%nat.
    set (l := seg_fields (set_s 0 (SEG16 STS_T32A ts_addr (sizeof_ts - 1) 0))). change (gdt c !! 5%nat) with (Some (pack_bits l)).
    assert (Forall (fun wv => 0 <= wv.1) l) as Hl by (repeat (constructor; [done|]); constructor).
    unfold seg_view. cbn [v_limit]. rewrite (field_at l 0 16 103 eq_refl Hl : bitfield (pack_bits l) 0 16 = _), (field_at l 7 4 0 eq_refl Hl : bitfield (pack_bits l) 48 4 = _),
      (field_at l 11 1 0 eq_refl Hl : bitfield (pack_bits l) 55 1 = _). change (iomb (ts c)) with 0xFFFF. apply Z.leb_gt. pose proof (Z.div_pos port 8 Hp). match goal with |- ?l < _ => change l with 103 end. lia.
  - reflexivity.
  - reflexivity.
Qed.

Lemma kernel_entry_witness :
  let p := pset_kstack 0x8dfff000 (pset_mem 4096 0x8dffe000 proc0) in
  let c0 := mkCpuseg (replicate 6 0) (mkTs 0 0 0) 0 0 in
  exists c, switchuvm 0x80112784 (Some p) (seginit c0) = Ok c /\
    interrupt c (tvinit (fun i => 0x80105000 + 16 * (i mod 256)) (replicate 256 0)) 3 true 64 true = Enter 0 8 0x80105400 true (Some (16, 0x8e000000)) /\
    interrupt c (tvinit (fun i => 0x80105000 + 16 * (i mod 256)) (replicate 256 0)) 3 true 14 true = Protection.
Proof.
  intros p c0. eexists. split; [reflexivity|].
  destruct (kernel_entry (fun i => 0x80105000 + 16 * (i mod 256)) (replicate 256 0) c0 0x80112784 p _ ltac:(intros i; pose proof (Z.mod_pos_bound i 256); lia)
    eq_refl eq_refl eq_refl) as (H & _).
  split; [rewrite (H 64%nat true ltac:(lia)); reflexivity | rewrite (H 14%nat true ltac:(lia)); reflexivity].
Defined.
