(* ===== verification/Trap.v ===== *)
(** Traps, [xv6/base/trap.c]: what the kernel does on an exception, an interrupt
    or a system call.

    The state puts the process table of [Proc] together with the disk driver of
    [Ide], the keyboard and serial port of [Kbd] and the console.  [trap] runs on
    processor [c]; [exit] and [yield] give up the processor and end the step,
    and [trap_resume] is what is left to do when a process that yielded runs
    again, [trap_sysret] when a system call that slept returns.  The system calls
    themselves are an argument.  The theorems: the process table stays
    consistent, a process that was killed does not return to user mode, and
    which trap does what. *)

From S2P Require Import Prelude Block Proc Bio Ata Ide Console Kbd Seg.

(** ** [traps.h] *)

Definition T_IRQ0 : Z := 32.
Definition IRQ_TIMER : Z := 0.
Definition IRQ_KBD : Z := 1.
Definition IRQ_COM1 : Z := 4.
Definition IRQ_IDE : Z := 14.
Definition IRQ_SPURIOUS : Z := 31.

(** The parts of [struct trapframe] that [trap] looks at. *)
Record tframe := mkFrame { trapno : Z; tcs : Z; tregs : trapframe }.

(** Messages of [cprintf] *)
Inductive kmsg := SpuriousInterrupt (cpu : nat) | UnexpectedTrap (cpu : nat) (n : Z) | KillProc (pid n : Z).

Record kernel (E : Type) := mkKernel {
  kp : pst E; kide : ide; kkbd : kbd; kser : serial; kin : input; kcon : condev;
  ticks : Z; eois : nat; msgs : list kmsg
}.
Arguments mkKernel {E} _ _ _ _ _ _ _ _ _.
Arguments kp {E} _.
Arguments kide {E} _.
Arguments kkbd {E} _.
Arguments kser {E} _.
Arguments kin {E} _.
Arguments kcon {E} _.
Arguments ticks {E} _.
Arguments eois {E} _.
Arguments msgs {E} _.

Section Trap.
Context {E : Type} {pe : ProcEnv E}.
(** The disk controller, and the addresses of the buffers and of [input.r],
    which processes sleep on. *)
Context (lat : nat -> nat) (err : nat -> Z) (buf_chan : nat -> channel) (input_chan : channel).
(** [syscall()] *)
Context (syscall : nat -> nat -> SR (kernel E) (ran Z)).
Local Abbreviation TM := (SR (kernel E)).

Definition set_kp (x : pst E) (k : kernel E) : kernel E := mkKernel x (kide k) (kkbd k) (kser k) (kin k) (kcon k) (ticks k) (eois k) (msgs k).

Definition on_p {A} (m : SR (pst E) A) : TM A := fun k =>
  match m (kp k) with Ok (a, p) => Ok (a, set_kp p k) | Panic msg => Panic msg | Sleeps ch => Sleeps ch end.

Definition say (x : kmsg) : TM unit :=
  sr_modify (fun k => mkKernel (kp k) (kide k) (kkbd k) (kser k) (kin k) (kcon k) (ticks k) (eois k) (msgs k ++ [x])).

Definition lapiceoi : TM unit :=
  sr_modify (fun k => mkKernel (kp k) (kide k) (kkbd k) (kser k) (kin k) (kcon k) (ticks k) (S (eois k)) (msgs k)).

(** [myproc()] *)
Definition myproc (c : nat) : TM (option nat) := sr_gets (fun k => default None (cpus (kp k) !! c)).

(** What [consoleintr] does outside its buffer; the listing of [procdump] is
    not kept. *)
Fixpoint console_events (evs : list cevent) : TM unit :=
  match evs with
  | [] => mret tt
  | Echo x :: evs' =>
      _ ← (fun k => d ← consputc x (kcon k); Ok (tt, mkKernel (kp k) (kide k) (kkbd k) (kser k) (kin k) d (ticks k) (eois k) (msgs k)));
      console_events evs'
  | WakeReaders :: evs' => _ ← on_p (wakeup input_chan); console_events evs'
  | ProcDump :: evs' => console_events evs'
  end.

Definition disk_intr : TM unit := fun k =>
  '(w, d) ← ideintr lat err (kide k);
  (match w with Some i => on_p (wakeup (buf_chan i)) | None => mret tt end)
    (mkKernel (kp k) d (kkbd k) (kser k) (kin k) (kcon k) (ticks k) (eois k) (msgs k)).

Definition kbd_intr : TM unit := fun k =>
  let '(kb, (i, evs)) := kbdintr (kkbd k) (kin k) in
  console_events evs (mkKernel (kp k) (kide k) kb (kser k) i (kcon k) (ticks k) (eois k) (msgs k)).

Definition uart_intr : TM unit := fun k =>
  let '(u, (i, evs)) := uartintr (kser k) (kin k) in
  console_events evs (mkKernel (kp k) (kide k) (kkbd k) u i (kcon k) (ticks k) (eois k) (msgs k)).

Definition user_mode (fr : tframe) : bool := Z.land (tcs fr) 3 =? DPL_USER.

(** [exit()] does not return. *)
Definition do_exit (c cur : nat) : TM (ran unit) := _ ← on_p (exit c cur); mret Off.

(** [if(myproc() && myproc()->killed && (tf->cs&3) == DPL_USER) exit();] *)
Definition killed_check (c : nat) (fr : tframe) : TM (ran unit) :=
  o ← myproc c;
  match o with
  | None => mret (On tt)
  | Some cur =>
      p ← on_p (m_proc cur);
      if p_killed p && user_mode fr then do_exit c cur else mret (On tt)
  end.

(** The check after [syscall()] *)
Definition trap_sysret (c cur : nat) : TM (ran unit) :=
  p ← on_p (m_proc cur);
  if p_killed p then do_exit c cur else mret (On tt).

Definition trap_syscall (c : nat) (fr : tframe) : TM (ran unit) :=
  o ← myproc c;
  match o with
  | None => sr_panic "null pointer"
  | Some cur =>
      p ← on_p (m_proc cur);
      if p_killed p then do_exit c cur
      else
        _ ← on_p (m_upd cur (pset_tf (tregs fr)));
        r ← syscall c cur;
        match r with Off => mret Off | On _ => trap_sysret c cur end
  end.

(** The switch *)
Definition trap_switch (c : nat) (fr : tframe) : TM unit :=
  let n := trapno fr in
  if n =? T_IRQ0 + IRQ_TIMER then
    _ ← (if Nat.eqb c 0 then
           _ ← sr_modify (fun k => mkKernel (kp k) (kide k) (kkbd k) (kser k) (kin k) (kcon k) (u32 (ticks k + 1)) (eois k) (msgs k));
           on_p (wakeup (COther 1))
         else mret tt);
    lapiceoi
  else if n =? T_IRQ0 + IRQ_IDE then _ ← disk_intr; lapiceoi
  else if n =? T_IRQ0 + IRQ_IDE + 1 then mret tt
  else if n =? T_IRQ0 + IRQ_KBD then _ ← kbd_intr; lapiceoi
  else if n =? T_IRQ0 + IRQ_COM1 then _ ← uart_intr; lapiceoi
  else if (n =? T_IRQ0 + 7) || (n =? T_IRQ0 + IRQ_SPURIOUS) then _ ← say (SpuriousInterrupt c); lapiceoi
  else
    o ← myproc c;
    match o with
    | None => _ ← say (UnexpectedTrap c n); sr_panic "trap"
    | Some cur =>
        if Z.land (tcs fr) 3 =? 0 then _ ← say (UnexpectedTrap c n); sr_panic "trap"
        else
          p ← on_p (m_proc cur);
          _ ← say (KillProc (p_pid p) n);
          on_p (m_upd cur (pset_killed true))
    end.

(** The rest of [trap] after it yielded *)
Definition trap_resume (c : nat) (fr : tframe) : TM (ran unit) := killed_check c fr.

Definition trap (c : nat) (fr : tframe) : TM (ran unit) :=
  if trapno fr =? T_SYSCALL then trap_syscall c fr
  else
    _ ← trap_switch c fr;
    r ← killed_check c fr;
    match r with
    | Off => mret Off
    | On _ =>
        o ← myproc c;
        match o with
        | Some cur =>
            p ← on_p (m_proc cur);
            if state_eqb (p_state p) RUNNING && (trapno fr =? T_IRQ0 + IRQ_TIMER) then _ ← on_p (yield c cur); mret Off
            else trap_resume c fr
        | None => trap_resume c fr
        end
    end.

(** ** The effect on the process table *)

Definition KWakes {A} (m : TM A) : Prop := forall k a k', m k = Ok (a, k') ->
  woken (skel (kp k)) (skel (kp k')) /\ cpus (kp k') = cpus (kp k) /\ nextpid (kp k') = nextpid (kp k).

Lemma KW_refl (k k' : kernel E) : kp k' = kp k -> woken (skel (kp k)) (skel (kp k')) /\ cpus (kp k') = cpus (kp k) /\ nextpid (kp k') = nextpid (kp k).
Proof. intros ->. split; [apply woken_refl | done]. Qed.

Lemma KW_bind {A B} (m : TM A) (f : A -> TM B) : KWakes m -> (forall a, KWakes (f a)) -> KWakes (m ≫= f).
Proof.
  intros Hm Hf k b k2 H. apply sr_bind_ok in H as (a & k1 & H1 & H2).
  destruct (Hm _ _ _ H1) as (W1 & C1 & N1), (Hf _ _ _ _ H2) as (W2 & C2 & N2). split; [by eapply woken_trans | split; congruence].
Qed.

Lemma KW_ret {A} (a : A) : KWakes (mret a).
Proof. intros k b k' [= <- <-]. by apply KW_refl. Qed.

Lemma KW_panic {A} msg : KWakes (sr_panic msg : TM A).
Proof. intros k b k' [=]. Qed.

Lemma KW_gets {A} (f : kernel E -> A) : KWakes (sr_gets f).
Proof. intros k b k' [= <- <-]. by apply KW_refl. Qed.

Lemma KW_modify f : (forall k, kp (f k) = kp k) -> KWakes (sr_modify f).
Proof. intros H k b k' [= <- <-]. by apply KW_refl. Qed.

Lemma on_p_ok {A} (m : SR (pst E) A) k a k' : on_p m k = Ok (a, k') -> exists p, m (kp k) = Ok (a, p) /\ k' = set_kp p k.
Proof. unfold on_p. destruct (m (kp k)) as [[x p]| |]; [|done|done]. intros [= <- <-]. by exists p. Qed.

Lemma KW_on_p {A} (m : SR (pst E) A) : Wakes m -> KWakes (on_p m).
Proof. intros Hm k a k' (p & H & ->)%on_p_ok. by apply (Hm _ _ _ H). Qed.

Lemma KW_events evs : KWakes (console_events evs).
Proof.
  induction evs as [|[x| |] evs IH]; cbn [console_events]; [apply KW_ret | | | done].
  - apply KW_bind; [|done]. intros k a k' H. destruct (consputc x (kcon k)); [|done|done]. injection H as <- <-. by apply KW_refl.
  - apply KW_bind; [|done]. apply KW_on_p, Wakes_wakeup1.
Qed.

#[local] Hint Resolve KW_bind KW_ret KW_panic KW_gets KW_events : kw.

Lemma KW_disk : KWakes disk_intr.
Proof.
  intros k a k' H. unfold disk_intr in H. apply result_bind_ok in H as ([w d] & _ & H). destruct w as [i|].
  - by apply (KW_on_p (wakeup (buf_chan i)) (Wakes_wakeup1 _)) in H.
  - injection H as <- <-. by apply KW_refl.
Qed.

Lemma KW_kbd : KWakes kbd_intr.
Proof. intros k a k' H. unfold kbd_intr in H. destruct (kbdintr _ _) as [kb [i evs]]. by apply KW_events in H. Qed.

Lemma KW_uart : KWakes uart_intr.
Proof. intros k a k' H. unfold uart_intr in H. destruct (uartintr _ _) as [kb [i evs]]. by apply KW_events in H. Qed.

(** Handling an interrupt or a fault wakes processes at most. *)
Lemma KW_switch c fr : KWakes (trap_switch c fr).
Proof.
  assert (KWakes lapiceoi) as Heoi by by apply KW_modify. assert (forall x, KWakes (say x)) as Hsay by (intros x; by apply KW_modify).
  unfold trap_switch. destruct (_ =? _); [|destruct (_ =? _); [|destruct (_ =? _); [|destruct (_ =? _); [|destruct (_ =? _); [|destruct (_ || _)]]]]];
    [| apply KW_bind; [apply KW_disk | done] | apply KW_ret | apply KW_bind; [apply KW_kbd | done] | apply KW_bind; [apply KW_uart | done] | by apply KW_bind |].
  - apply KW_bind; [|done]. destruct (Nat.eqb c 0); [|apply KW_ret]. apply KW_bind; [by apply KW_modify|]. intros _. apply KW_on_p, Wakes_wakeup1.
  - apply KW_bind; [apply KW_gets|]. intros [cur|]; [|apply KW_bind; [done | intros _; apply KW_panic]].
    destruct (_ =? 0); [apply KW_bind; [done | intros _; apply KW_panic]|].
    apply KW_bind; [apply KW_on_p, Keeps_Wakes, Keeps_gets|]. intros p. apply KW_bind; [done|]. intros _. by apply KW_on_p, Keeps_Wakes, Keeps_upd.
Qed.

(** The state at a point where the processor [c] runs [o]. *)
Definition at_cpu (c : nat) (o : option nat) (k : kernel E) : Prop := pinv (kp k) /\ cpus (kp k) !! c = Some o.

Lemma KW_at {A} (m : TM A) c o k a k' : KWakes m -> at_cpu c o k -> m k = Ok (a, k') -> at_cpu c o k'.
Proof.
  intros Hm [Hp Hc] H. destruct (Hm _ _ _ H) as (Hw & Hcp & Hn). split; [|by rewrite Hcp].
  unfold pinv. rewrite Hcp, Hn. by eapply woken_ok.
Qed.

Lemma sched_off c cur (s s' : pst E) r : sched c cur s = Ok (r, s') -> r = Off /\ cpus s' = <[c := None]> (cpus s).
Proof.
  unfold sched. intros H. apply sr_bind_ok in H as (p & s1 & E1 & H). injection E1 as <- <-. destruct (state_eqb _ _); [done|].
  apply sr_bind_ok in H as ([] & s2 & E2 & H). injection E2 as <-. by injection H as <- <-.
Qed.

Lemma exit_off c cur k r k' : at_cpu c (Some cur) k -> do_exit c cur k = Ok (r, k') -> r = Off /\ at_cpu c None k'.
Proof.
  intros [Hp Hc] H. unfold do_exit in H. apply sr_bind_ok in H as (x & k1 & (p & H1 & ->)%on_p_ok & H). injection H as <- <-. split; [done|].
  destruct (exit_step _ _ _ _ _ Hp Hc H1) as [Hp' _]. split; [done|]. cbn [kp set_kp].
  destruct (exit_parts _ _ _ _ _ H1) as (s5 & s7 & _ & C5 & _ & _ & _ & H7 & Hs). apply sched_off in Hs as [_ ->]. cbn.
  destruct (Wakes_each (reparent cur) _ (Wakes_reparent cur) _ _ _ H7) as (_ & C7 & _). rewrite C7, C5. apply list_lookup_insert_eq. by eapply lookup_lt_Some.
Qed.

Lemma yield_off c cur k r k' : at_cpu c (Some cur) k -> on_p (yield c cur) k = Ok (r, k') -> at_cpu c None k'.
Proof.
  intros [Hp Hc] (p & H & ->)%on_p_ok. destruct (kstep_ok 0 _ _ Hp (ks_yield 0 c cur r _ _ Hc H)) as [Hp' _]. split; [done|]. cbn [kp set_kp].
  unfold yield in H. apply sr_bind_ok in H as ([] & s1 & E1 & H). injection E1 as <-. apply sched_off in H as [_ ->]. cbn.
  apply list_lookup_insert_eq. by eapply lookup_lt_Some.
Qed.

(** The result of [trap]: back to the interrupted code, which goes on only if it
    is not user code of a killed process, or off the processor. *)
Definition trap_ok (c : nat) (fr : tframe) (o : option nat) (r : ran unit) (k' : kernel E) : Prop :=
  match r with
  | On _ => at_cpu c o k' /\ forall cur, o = Some cur -> user_mode fr = true -> p_killed (nth_proc (kp k') cur) = false
  | Off => at_cpu c None k'
  end.

Lemma killed_check_ok c fr o k r k' : at_cpu c o k -> killed_check c fr k = Ok (r, k') -> trap_ok c fr o r k' /\ (r <> Off -> k' = k).
Proof.
  intros Hat H. unfold killed_check in H. apply sr_bind_ok in H as (o' & k1 & E1 & H). unfold myproc in E1. injection E1 as <- <-.
  pose proof Hat as [_ Hc]. rewrite Hc in H. cbn [default] in H. destruct o as [cur|]; [|injection H as <- <-; split; [split; [done | done] | done]].
  apply sr_bind_ok in H as (p & k1 & (x & E1 & ->)%on_p_ok & H). injection E1 as <- <-.
  assert (set_kp (kp k) k = k) as Ek by by destruct k. rewrite Ek in H.
  destruct (p_killed _ && user_mode fr) eqn:Eb.
  - apply exit_off in H as [-> H]; [|done]. by split.
  - injection H as <- <-. split; [|done]. split; [done|]. intros ? [= <-] Hu. rewrite Hu, andb_true_r in Eb. done.
Qed.

(** What [trap] relies on of the system calls: they keep the table consistent,
    and leave the caller on its processor or give the processor up. *)
Definition syscalls_ok : Prop := forall c cur k r k',
  at_cpu c (Some cur) k -> syscall c cur k = Ok (r, k') -> match r with On _ => at_cpu c (Some cur) k' | Off => at_cpu c None k' end.

Lemma proc_read cur (f : proc -> TM (ran unit)) k r k' : (p ← on_p (m_proc cur); f p) k = Ok (r, k') -> f (nth_proc (kp k) cur) k = Ok (r, k').
Proof.
  intros H. apply sr_bind_ok in H as (p & k1 & (x & E1 & ->)%on_p_ok & H). injection E1 as <- <-. by replace (set_kp (kp k) k) with k in H by by destruct k.
Qed.

Lemma sysret_ok c cur fr k r k' : at_cpu c (Some cur) k -> trap_sysret c cur k = Ok (r, k') -> trap_ok c fr (Some cur) r k'.
Proof.
  intros Hat H. apply proc_read in H. destruct (p_killed _) eqn:Ek; [by apply exit_off in H as [-> H]|].
  injection H as <- <-. split; [done|]. by intros ? [= <-] _.
Qed.

Lemma trap_syscall_ok c fr o k r k' : syscalls_ok -> at_cpu c o k -> trap_syscall c fr k = Ok (r, k') -> trap_ok c fr o r k'.
Proof.
  intros Hsys Hat H. unfold trap_syscall in H. apply sr_bind_ok in H as (o' & k1 & E1 & H). injection E1 as <- <-. pose proof Hat as [_ Hc]. rewrite Hc in H.
  cbn [default] in H. destruct o as [cur|]; [|done]. apply proc_read in H. destruct (p_killed _); [by apply exit_off in H as [-> H]|].
  apply sr_bind_ok in H as ([] & k1 & E1 & H). apply (KW_at _ c (Some cur)) in E1; [|by apply KW_on_p, Keeps_Wakes, Keeps_upd|done].
  apply sr_bind_ok in H as (x & k2 & E2 & H). apply Hsys in E2; [|done]. destruct x as [x|]; [by eapply sysret_ok | by injection H as <- <-].
Qed.

Lemma trap_all_ok c fr o k r k' : syscalls_ok -> at_cpu c o k -> trap c fr k = Ok (r, k') -> trap_ok c fr o r k'.
Proof.
  intros Hsys Hat H. unfold trap in H. destruct (_ =? _); [by eapply trap_syscall_ok|].
  apply sr_bind_ok in H as ([] & k1 & E1 & H). apply (KW_at _ c o) in E1; [|apply KW_switch|done].
  apply sr_bind_ok in H as (x & k2 & E2 & H). apply (killed_check_ok c fr o) in E2 as [H2 Hk]; [|done].
  destruct x as [[]|]; [|by injection H as <- <-]. rewrite Hk in * by done. clear Hk.
  apply sr_bind_ok in H as (o' & k3 & E3 & H). injection E3 as <- <-. pose proof E1 as [_ Hc]. rewrite Hc in H. cbn [default] in H.
  destruct o as [cur|]; [|by apply (killed_check_ok c fr None) in H as [H _]].
  apply proc_read in H. destruct (state_eqb _ _ && _); [|by apply (killed_check_ok c fr (Some cur)) in H as [H _]].
  apply sr_bind_ok in H as (y & k4 & E4 & H). apply yield_off in E4; [|done]. by injection H as <- <-.
Qed.

(** A trap number without a case in the switch. *)
Definition unknown_trap (n : Z) : Prop := n <> T_SYSCALL /\ n ∉ [32; 33; 36; 39; 46; 47; 63].

(** The process [cur] marked as killed, with a message. *)
Definition mark_killed (cur : nat) (n : Z) (k : kernel E) : kernel E :=
  mkKernel (pset_table (alter (pset_killed true) cur (ptable (kp k))) (kp k)) (kide k) (kkbd k) (kser k) (kin k) (kcon k) (ticks k) (eois k)
    (msgs k ++ [KillProc (p_pid (nth_proc (kp k) cur)) n]).

Lemma switch_fault c fr o k :
  unknown_trap (trapno fr) -> cpus (kp k) !! c = Some o ->
  trap_switch c fr k =
    match o with
    | Some cur => if Z.land (tcs fr) 3 =? 0 then Panic "trap" else Ok (tt, mark_killed cur (trapno fr) k)
    | None => Panic "trap"
    end.
Proof.
  intros [Hn1 Hn2] Hc. rewrite !not_elem_of_cons in Hn2. destruct Hn2 as (N1 & N2 & N3 & N4 & N5 & N6 & N7 & _).
  assert (myproc c k = Ok (o, k)) as Hm by (unfold myproc, sr_gets; by rewrite Hc).
  unfold trap_switch, T_IRQ0, IRQ_TIMER, IRQ_IDE, IRQ_KBD, IRQ_COM1, IRQ_SPURIOUS. rewrite !(proj2 (Z.eqb_neq _ _)) by lia. cbn [orb].
  rewrite (sr_bind_run _ _ _ _ _ Hm). destruct o as [cur|]; [|done]. destruct (Z.land (tcs fr) 3 =? 0); [done|]. reflexivity.
Qed.

(** Such a trap in the kernel is a panic; in user mode it ends the process. *)
Lemma trap_fault c fr o k :
  unknown_trap (trapno fr) -> at_cpu c o k ->
  match o with
  | Some cur =>
      (Z.land (tcs fr) 3 = 0 -> trap c fr k = Panic "trap") /\
      (user_mode fr = true -> trap c fr k = do_exit c cur (mark_killed cur (trapno fr) k))
  | None => trap c fr k = Panic "trap"
  end.
Proof.
  intros Hn [Hp Hc]. pose proof (switch_fault c fr o k Hn Hc) as Hsw. pose proof Hn as [Hn1 _]. unfold trap. rewrite (proj2 (Z.eqb_neq _ _) Hn1).
  destruct o as [cur|]; [|unfold mbind, SR_bind at 1; by rewrite Hsw]. split.
  { intros E0. rewrite E0 in Hsw. unfold mbind, SR_bind at 1. by rewrite Hsw. }
  intros Hu. assert ((Z.land (tcs fr) 3 =? 0) = false) as E0 by (unfold user_mode in Hu; apply Z.eqb_eq in Hu; by rewrite Hu). rewrite E0 in Hsw.
  rewrite (sr_bind_run _ _ _ _ _ Hsw). set (k1 := mark_killed cur (trapno fr) k).
  assert (killed_check c fr k1 = do_exit c cur k1) as Hk.
  { assert (myproc c k1 = Ok (Some cur, k1)) as Hm by (unfold myproc, sr_gets; cbn [k1 mark_killed kp pset_table cpus]; by rewrite Hc).
    unfold killed_check. rewrite (sr_bind_run _ _ _ _ _ Hm).
    assert (on_p (m_proc cur) k1 = Ok (nth_proc (kp k1) cur, k1)) as Hr by reflexivity. rewrite (sr_bind_run _ _ _ _ _ Hr), Hu, andb_true_r.
    destruct (sk_cpu _ _ _ Hp c cur Hc) as [pid Hs]. apply skel_lookup in Hs as (p & Hl & _).
    unfold nth_proc. cbn [k1 mark_killed kp pset_table ptable]. by rewrite list_lookup_alter_eq, Hl. }
  unfold mbind at 1, SR_bind at 1. rewrite Hk. unfold do_exit, mbind, SR_bind. by destruct (on_p (exit c cur) k1) as [[x k2]| |].
Qed.

(** A process that is interrupted by the clock leaves the processor. *)
Lemma trap_timer c fr cur k r k' :
  trapno fr = T_IRQ0 + IRQ_TIMER -> at_cpu c (Some cur) k -> trap c fr k = Ok (r, k') ->
  r = Off /\ ticks k' = (if Nat.eqb c 0 then u32 (ticks k + 1) else ticks k) /\ eois k' = S (eois k).
Proof.
  intros Hn Hat H. unfold trap in H. rewrite Hn in H. cbn [Z.eqb T_IRQ0 IRQ_TIMER T_SYSCALL Z.add] in H.
  apply sr_bind_ok in H as ([] & k1 & E1 & H). pose proof (KW_at _ c (Some cur) _ _ _ (KW_switch c fr) Hat E1) as Hat1.
  assert (ticks k1 = (if Nat.eqb c 0 then u32 (ticks k + 1) else ticks k) /\ eois k1 = S (eois k)) as [<- <-].
  { unfold trap_switch in E1. rewrite Hn in E1. cbn [Z.eqb T_IRQ0 IRQ_TIMER Z.add Pos.eqb] in E1. apply sr_bind_ok in E1 as ([] & k0 & E0 & E1). injection E1 as <-.
    destruct (Nat.eqb c 0); [|injection E0 as <-; done]. by injection E0 as <-. }
  assert (forall A (m : SR (pst E) A) k a k', on_p m k = Ok (a, k') -> ticks k' = ticks k /\ eois k' = eois k) as Hon by (intros A m x a x' (p & _ & ->)%on_p_ok; done).
  apply sr_bind_ok in H as (x & k2 & E2 & H). pose proof (killed_check_ok c fr (Some cur) _ _ _ Hat1 E2) as [_ Hk2].
  assert (forall r x x', at_cpu c (Some cur) x -> killed_check c fr x = Ok (r, x') -> r = Off -> ticks x' = ticks x /\ eois x' = eois x) as Hkc.
  { intros r0 y y' [_ Hc] Hy ->. unfold killed_check in Hy. apply sr_bind_ok in Hy as (o' & y1 & Ey & Hy). injection Ey as <- <-. rewrite Hc in Hy. cbn [from_option id] in Hy.
    apply proc_read in Hy. destruct (_ && _); [|done]. unfold do_exit in Hy. apply sr_bind_ok in Hy as (z & y2 & Ey & Hy). injection Hy as <-. by eapply Hon. }
  destruct x as [[]|]; [|injection H as <- <-; split; [done | by eapply Hkc]]. rewrite Hk2 in * by done.
  apply sr_bind_ok in H as (o' & k3 & E3 & H). injection E3 as <- <-. pose proof Hat1 as [Hp Hc]. rewrite Hc in H. cbn [from_option id] in H. apply proc_read in H.
  destruct (sk_cpu _ _ _ Hp c cur Hc) as [pid Hs]. apply skel_lookup in Hs as (p & Hl & [= Hst _]). unfold nth_proc in H. rewrite Hl in H. cbn [from_option id] in H.
  rewrite <-Hst in H. cbn [state_eqb] in H. change (state_eqb RUNNING RUNNING) with true in H. cbn in H.
  apply sr_bind_ok in H as (y & k4 & E4 & H). injection H as <- <-. split; [done | by eapply Hon].
Qed.

End Trap.

(** ** The properties *)


(** The system calls [exit], [kill] and [getpid] of [Proc], by their numbers, as
    an example of what [trap] is given. *)
Definition proc_call {E} {pe : ProcEnv E} (arg : option Z) (c cur : nat) : SR (kernel E) (ran Z) :=
  p ← on_p (m_proc cur);
  let n := tf_eax (p_tf p) in
  if n =? 2 then on_p (sys_exit c cur)
  else if n =? 6 then r ← on_p (sys_kill arg); mret (On r)
  else if n =? 11 then r ← on_p (sys_getpid cur); mret (On r)
  else mret (On (-1)).

Lemma kill_cpus {E} pid (s s' : pst E) r : kill pid s = Ok (r, s') -> cpus s' = cpus s.
Proof.
  unfold kill. destruct (find_idx _ _) as [i|]; [|by intros [= <- <-]]. intros H. apply sr_bind_ok in H as ([] & s1 & E1 & H). injection E1 as <-.
  apply sr_bind_ok in H as (p & s1 & E1 & H). injection E1 as <- <-. apply sr_bind_ok in H as ([] & s2 & E2 & H). injection H as <- <-.
  destruct (state_eqb _ _); by injection E2 as <-.
Qed.

Lemma proc_call_ok {E} {pe : ProcEnv E} arg : syscalls_ok (proc_call arg : nat -> nat -> SR (kernel E) (ran Z)).
Proof.
  intros c cur k r k' Hat H. pose proof Hat as [Hp Hc]. unfold proc_call in H. apply sr_bind_ok in H as (p & k1 & E1 & H).
  apply (KW_at _ c (Some cur)) in E1 as Hat1; [|apply KW_on_p, Keeps_Wakes, Keeps_gets|done]. clear E1 Hat Hp Hc k. pose proof Hat1 as [Hp Hc].
  destruct (_ =? 2); [|destruct (_ =? 6); [|destruct (_ =? 11)]].
  - assert (do_exit c cur k1 = Ok (Off, k')) as Hx by (unfold do_exit, mbind, SR_bind; unfold sys_exit in H; by rewrite H).
    destruct (exit_off c cur k1 Off k' Hat1 Hx) as [_ Ha]. apply on_p_ok in H as (x & H & ->). unfold sys_exit in H.
    destruct (exit_parts _ _ _ _ _ H) as (s5 & s7 & _ & _ & _ & _ & _ & _ & Hs). apply sched_off in Hs as [-> _]. done.
  - apply sr_bind_ok in H as (x & k2 & (y & E2 & ->)%on_p_ok & H). injection H as <- <-. destruct arg as [pid|]; [|injection E2 as <- <-; done].
    cbn [sys_kill] in E2. destruct (kstep_ok 0 _ _ Hp (ks_kill 0 pid x _ _ E2)) as [Hp' _]. split; [done|]. cbn [kp set_kp]. by rewrite (kill_cpus _ _ _ _ E2).
  - apply sr_bind_ok in H as (x & k2 & (y & E2 & ->)%on_p_ok & H). injection H as <- <-. unfold sys_getpid in E2.
    apply sr_bind_ok in E2 as (q & s1 & E1 & E2). injection E1 as <- <-. injection E2 as <- <-. done.
  - by injection H as <- <-.
Qed.

(** The child of [child_running] has a page fault in user mode. *)
Definition demo_kern : kernel nat :=
  mkKernel child_running (power_on true (fun _ _ => zeroes) (fun _ => buf0) 0) (mkKbd 0 []) (mkSerial false []) input_wrap
    (mkCondev (mkScreen (replicate 2000 0x0720) 0) None) 41 0 [].

