(* ===== verification/Apic.v ===== *)
(** The interrupt controllers and the clock: [lapic.c], [ioapic.c] and
    [picirq.c], with [mycpu] and [cpuid] of [proc.c].

    A controller is what its registers do as documented by Intel: the local
    controller remembers the writes, and reports an inter-processor interrupt as
    pending for a number of polls; the I/O controller has a register that selects
    the register the data goes to; the real-time clock is a function from the
    number of the read to the registers.  The theorems say which interrupt is
    delivered to which processor under which vector once [main] is through, and
    that [cmostime] returns a time that the clock showed. *)

From S2P Require Import Prelude CString Mp Trap.

(** ** Registers *)

Definition ID : Z := 0x0020 / 4.
Definition VER : Z := 0x0030 / 4.
Definition TPR : Z := 0x0080 / 4.
Definition EOI : Z := 0x00B0 / 4.
Definition SVR : Z := 0x00F0 / 4.
Definition ENABLE : Z := 0x00000100.
Definition ESR : Z := 0x0280 / 4.
Definition ICRLO : Z := 0x0300 / 4.
Definition INIT : Z := 0x00000500.
Definition STARTUP : Z := 0x00000600.
Definition DELIVS : Z := 0x00001000.
Definition ASSERT : Z := 0x00004000.
Definition LEVEL : Z := 0x00008000.
Definition BCAST : Z := 0x00080000.
Definition ICRHI : Z := 0x0310 / 4.
Definition TIMER : Z := 0x0320 / 4.
Definition X1 : Z := 0x0000000B.
Definition PERIODIC : Z := 0x00020000.
Definition PCINT : Z := 0x0340 / 4.
Definition LINT0 : Z := 0x0350 / 4.
Definition LINT1 : Z := 0x0360 / 4.
Definition ERROR : Z := 0x0370 / 4.
Definition MASKED : Z := 0x00010000.
Definition TICR : Z := 0x0380 / 4.
Definition TDCR : Z := 0x03E0 / 4.

Definition IRQ_ERROR : Z := 19.

Definition REG_ID : Z := 0x00.
Definition REG_VER : Z := 0x01.
Definition REG_TABLE : Z := 0x10.
Definition INT_DISABLED : Z := 0x00010000.

Definition IO_PIC1 : Z := 0x20.
Definition IO_PIC2 : Z := 0xA0.

(** ** The local controller *)

(** The writes in order, and for how many polls an interrupt that was sent stays
    pending *)
Record ldev := mkLdev { l_writes : list (Z * Z); l_pending : nat }.

(** The last value written *)
Definition last_write (i : Z) (d : ldev) : Z := from_option snd 0 (last (filter (fun w => w.1 = i) (l_writes d))).

Section Lapic.
(** How long an interrupt is pending, the version register, the number of the
    controller and whether there is one at all ([lapic] is not 0). *)
Context (lat : nat) (ver apicid : Z) (lapic : bool).

Definition lread (i : Z) (d : ldev) : Z * ldev :=
  if i =? ID then (Z.shiftl apicid 24, d)
  else if i =? VER then (ver, d)
  else if i =? ICRLO then
    (Z.lor (last_write ICRLO d) (match l_pending d with O => 0 | S _ => DELIVS end), mkLdev (l_writes d) (pred (l_pending d)))
  else (last_write i d, d).

Definition lapicw (index value : Z) (d : ldev) : ldev :=
  let d := mkLdev (l_writes d ++ [(index, value)]) (if index =? ICRLO then lat else l_pending d) in
  (lread ID d).2.

(** [while(lapic[ICRLO] & DELIVS)] *)
Fixpoint wait_delivs (fuel : nat) (d : ldev) : result ldev :=
  match fuel with
  | O => Sleeps "lapicinit"
  | S f => let '(v, d) := lread ICRLO d in if negb (Z.land v DELIVS =? 0) then wait_delivs f d else Ok d
  end.

Definition lapicinit (fuel : nat) (d : ldev) : result ldev :=
  if negb lapic then Ok d
  else
    let d := lapicw SVR (Z.lor ENABLE (T_IRQ0 + IRQ_SPURIOUS)) d in
    let d := lapicw TDCR X1 d in
    let d := lapicw TIMER (Z.lor PERIODIC (T_IRQ0 + IRQ_TIMER)) d in
    let d := lapicw TICR 10000000 d in
    let d := lapicw LINT0 MASKED d in
    let d := lapicw LINT1 MASKED d in
    let '(v, d) := lread VER d in
    let d := if 4 <=? Z.land (Z.shiftr v 16) 0xFF then lapicw PCINT MASKED d else d in
    let d := lapicw ERROR (T_IRQ0 + IRQ_ERROR) d in
    let d := lapicw ESR 0 d in
    let d := lapicw ESR 0 d in
    let d := lapicw EOI 0 d in
    let d := lapicw ICRHI 0 d in
    let d := lapicw ICRLO (Z.lor (Z.lor BCAST INIT) LEVEL) d in
    d ← wait_delivs fuel d;
    Ok (lapicw TPR 0 d).

Definition lapicid (d : ldev) : Z := if negb lapic then 0 else Z.shiftr (lread ID d).1 24.

Definition lapiceoi (d : ldev) : ldev := if lapic then lapicw EOI 0 d else d.

(** The writes to ports, the two halves of the warm reset vector and the
    controller after the start of processor [id] at [addr] *)
Definition lapicstartap (id addr : Z) (d : ldev) : list (Z * Z) * (Z * Z) * ldev :=
  let ports := [(0x70, 0xF); (0x71, 0x0A)] in
  let wrv := (0, u16 (Z.shiftr addr 4)) in
  let d := lapicw ICRHI (Z.shiftl id 24) d in
  let d := lapicw ICRLO (Z.lor (Z.lor INIT LEVEL) ASSERT) d in
  let d := lapicw ICRLO (Z.lor INIT LEVEL) d in
  let d := lapicw ICRHI (Z.shiftl id 24) d in
  let d := lapicw ICRLO (Z.lor STARTUP (Z.shiftr addr 12)) d in
  let d := lapicw ICRHI (Z.shiftl id 24) d in
  let d := lapicw ICRLO (Z.lor STARTUP (Z.shiftr addr 12)) d in
  (ports, wrv, d).
End Lapic.

(** [mycpu]: the index in [cpus] of the processor with controller [id];
    [flag_if] tells whether interrupts are on. *)
Fixpoint find_cpu (ids : list Z) (i : nat) (id : Z) : result nat :=
  match ids with
  | [] => Panic "unknown apicid"
  | a :: ids' => if a =? id then Ok i else find_cpu ids' (S i) id
  end.

Definition mycpu (flag_if : bool) (ids : list Z) (id : Z) : result nat :=
  if flag_if then Panic "mycpu called with interrupts enabled" else find_cpu ids 0 id.

Definition cpuid (flag_if : bool) (ids : list Z) (id : Z) : result nat := mycpu flag_if ids id.

(** ** The I/O controller and the old one *)

Record iodev := mkIodev { io_reg : Z; io_regs : Z -> Z }.

Definition ioapicread (reg : Z) (d : iodev) : Z * iodev := (io_regs d reg, mkIodev reg (io_regs d)).
Definition ioapicwrite (reg data : Z) (d : iodev) : iodev := mkIodev reg (<[reg := u32 data]> (io_regs d)).

(** [n] turns of the loop from [i] on *)
Fixpoint ioapic_mask (n : nat) (i : Z) (d : iodev) : iodev :=
  match n with
  | O => d
  | S n' =>
      let d := ioapicwrite (REG_TABLE + 2 * i) (Z.lor INT_DISABLED (T_IRQ0 + i)) d in
      let d := ioapicwrite (REG_TABLE + 2 * i + 1) 0 d in
      ioapic_mask n' (i + 1) d
  end.

(** Whether the message that the number is wrong is printed, and the registers *)
Definition ioapicinit (ioapicid : Z) (d : iodev) : bool * iodev :=
  let '(v, d) := ioapicread REG_VER d in
  let maxintr := Z.land (Z.shiftr v 16) 0xFF in
  let '(v, d) := ioapicread REG_ID d in
  let id := Z.shiftr v 24 in
  (negb (id =? ioapicid), ioapic_mask (Z.to_nat (maxintr + 1)) 0 d).

Definition ioapicenable (irq cpunum : Z) (d : iodev) : iodev :=
  let d := ioapicwrite (REG_TABLE + 2 * irq) (T_IRQ0 + irq) d in
  ioapicwrite (REG_TABLE + 2 * irq + 1) (Z.shiftl cpunum 24) d.

Definition picinit : list (Z * Z) := [(IO_PIC1 + 1, 0xFF); (IO_PIC2 + 1, 0xFF)].

(** What [main] does to the controllers: [lapicinit], [picinit], [ioapicinit],
    and the calls of [ioapicenable] in [consoleinit], in [uartinit] when there is
    a serial port, and in [ideinit]. *)
Definition main_irqs (lat fuel : nat) (ver apicid : Z) (m : machine) (uart : bool) (l : ldev) (d : iodev)
    : result (ldev * list (Z * Z) * iodev) :=
  l ← lapicinit lat ver apicid (negb (Mp.lapic m =? 0)) fuel l;
  let '(_, d) := ioapicinit (ioapicid m) d in
  let d := ioapicenable IRQ_KBD 0 d in
  let d := if uart then ioapicenable IRQ_COM1 0 d else d in
  let d := ioapicenable IRQ_IDE (Z.of_nat (length (apicids m)) - 1) d in
  Ok (l, picinit, d).

(** ** The clock *)

Record rtcdate := mkDate { second : Z; minute : Z; hour : Z; day : Z; month : Z; year : Z }.

#[export] Instance rtcdate_eq_dec : EqDecision rtcdate.
Proof. solve_decision. Defined.

Definition CMOS_STATA : Z := 0x0a.
Definition CMOS_STATB : Z := 0x0b.
Definition CMOS_UIP : Z := Z.shiftl 1 7.
Definition SECS : Z := 0x00.
Definition MINS : Z := 0x02.
Definition HOURS : Z := 0x04.
Definition DAY : Z := 0x07.
Definition MONTH : Z := 0x08.
Definition YEAR : Z := 0x09.

Section Cmos.
(** The register at a read; reads are numbered. *)
Context (rtc : nat -> Z -> Z).

Definition cmos_read (reg : Z) (k : nat) : Z * nat := (rtc k reg, S k).

Definition fill_rtcdate (k : nat) : rtcdate * nat :=
  let '(s, k) := cmos_read SECS k in
  let '(m, k) := cmos_read MINS k in
  let '(h, k) := cmos_read HOURS k in
  let '(d, k) := cmos_read DAY k in
  let '(mo, k) := cmos_read MONTH k in
  let '(y, k) := cmos_read YEAR k in
  (mkDate s m h d mo y, k).

(** The [for(;;)] loop; [None] when the fuel is used up *)
Fixpoint cmos_loop (fuel : nat) (k : nat) : option (rtcdate * nat) :=
  match fuel with
  | O => None
  | S f =>
      let '(t1, k) := fill_rtcdate k in
      let '(a, k) := cmos_read CMOS_STATA k in
      if negb (Z.land a CMOS_UIP =? 0) then cmos_loop f k
      else
        let '(t2, k) := fill_rtcdate k in
        if bool_decide (t1 = t2) then Some (t1, k) else cmos_loop f k
  end.

Definition conv (x : Z) : Z := Z.shiftr x 4 * 10 + Z.land x 0xf.

Definition cmostime (fuel : nat) (k : nat) : option (rtcdate * nat) :=
  let '(sb, k) := cmos_read CMOS_STATB k in
  let bcd := Z.land sb (Z.shiftl 1 2) =? 0 in
  match cmos_loop fuel k with
  | None => None
  | Some (t1, k) =>
      let r := if bcd then mkDate (conv (second t1)) (conv (minute t1)) (conv (hour t1)) (conv (day t1)) (conv (month t1)) (conv (year t1)) else t1 in
      Some (mkDate (second r) (minute r) (hour r) (day r) (month r) (year r + 2000), k)
  end.
End Cmos.

(** ** The local controller after its initialisation *)

Definition init_writes (ver : Z) : list (Z * Z) :=
  [(SVR, Z.lor ENABLE (T_IRQ0 + IRQ_SPURIOUS)); (TDCR, X1); (TIMER, Z.lor PERIODIC (T_IRQ0 + IRQ_TIMER)); (TICR, 10000000);
   (LINT0, MASKED); (LINT1, MASKED)] ++
  (if 4 <=? Z.land (Z.shiftr ver 16) 0xFF then [(PCINT, MASKED)] else []) ++
  [(ERROR, T_IRQ0 + IRQ_ERROR); (ESR, 0); (ESR, 0); (EOI, 0); (ICRHI, 0); (ICRLO, Z.lor (Z.lor BCAST INIT) LEVEL)].

Lemma last_write_snoc i l v n : last_write i (mkLdev (l ++ [(i, v)]) n) = v.
Proof. unfold last_write. cbn [l_writes]. rewrite filter_app, filter_cons_True by done. cbn. by rewrite last_snoc. Qed.

Lemma last_write_app i l l' n :
  filter (fun w => w.1 = i) l' <> [] -> last_write i (mkLdev (l ++ l') n) = last_write i (mkLdev l' n).
Proof.
  intros H. unfold last_write. cbn [l_writes]. rewrite filter_app, last_app. destruct (last (filter _ l')) eqn:E; [done|].
  apply last_None in E. done.
Qed.

Lemma wait_delivs_ends ver apicid fuel d :
  (l_pending d < fuel)%nat -> Z.land (last_write ICRLO d) DELIVS = 0 ->
  wait_delivs ver apicid fuel d = Ok (mkLdev (l_writes d) 0).
Proof.
  revert d. induction fuel as [|f IH]; intros [w n] Hf Hd; [lia|]. cbn [wait_delivs].
  change (lread ver apicid ICRLO (mkLdev w n)) with (Z.lor (last_write ICRLO (mkLdev w n)) (match n with O => 0 | S _ => DELIVS end), mkLdev w (pred n)).
  cbn [l_pending l_writes] in *. rewrite Z.land_lor_distr_l, Hd, Z.lor_0_l.
  destruct n as [|n]; cbn [pred]; [done|]. change (Z.land DELIVS DELIVS =? 0) with false. cbn [negb]. apply IH; [cbn; lia | done].
Qed.

Lemma lapicw_writes lat ver apicid i v d :
  lapicw lat ver apicid i v d = mkLdev (l_writes d ++ [(i, v)]) (if i =? ICRLO then lat else l_pending d).
Proof. done. Qed.

Lemma lread_ver ver apicid d : lread ver apicid VER d = (ver, d).
Proof. done. Qed.

Lemma lapicinit_writes lat fuel ver apicid d :
  (lat < fuel)%nat -> lapicinit lat ver apicid true fuel d = Ok (mkLdev (l_writes d ++ init_writes ver ++ [(TPR, 0)]) 0).
Proof.
  intros Hf. unfold lapicinit, init_writes. cbn [negb]. rewrite !lapicw_writes, lread_ver. cbn [l_writes l_pending].
  destruct (4 <=? Z.land (Z.shiftr ver 16) 255); rewrite !lapicw_writes; cbn [l_writes l_pending].
  all: rewrite wait_delivs_ends; [| done | by rewrite last_write_snoc].
  all: cbn [mbind result_bind]; rewrite lapicw_writes; cbn [l_writes l_pending]; rewrite <-!app_assoc; done.
Qed.

(** The processor starts at [addr]: the vector of the last message is its page. *)
Lemma startap_vector lat ver apicid id addr d :
  0 <= addr < 2 ^ 20 -> addr mod 4096 = 0 ->
  let '(ports, wrv, d') := lapicstartap lat ver apicid id addr d in
  l_writes d' = l_writes d ++
    [(ICRHI, Z.shiftl id 24); (ICRLO, INIT + LEVEL + ASSERT); (ICRLO, INIT + LEVEL);
     (ICRHI, Z.shiftl id 24); (ICRLO, STARTUP + addr / 4096); (ICRHI, Z.shiftl id 24); (ICRLO, STARTUP + addr / 4096)] /\
  Z.land (last_write ICRLO d') 0xFF * 4096 = addr /\ wrv.2 * 16 = addr.
Proof.
  intros Ha Hm. unfold lapicstartap. rewrite !lapicw_writes. cbn [l_writes fst snd]. rewrite <-!app_assoc. cbn [app].
  assert (0 <= addr / 4096 < 256) as Hp by zlia. assert (Z.lor STARTUP (Z.shiftr addr 12) = STARTUP + addr / 4096) as E.
  { rewrite Z.shiftr_div_pow2 by lia. change (2 ^ 12) with 4096. symmetry. rewrite <-Z.lxor_lor, Z.add_nocarry_lxor; [done| |].
    all: apply Z.bits_inj'; intros n Hn; rewrite Z.land_spec, Z.bits_0.
    all: destruct (decide (n < 8)) as [H|H];
      [assert (Z.testbit STARTUP n = false) as ->; [|done]; assert (n = 0 \/ n = 1 \/ n = 2 \/ n = 3 \/ n = 4 \/ n = 5 \/ n = 6 \/ n = 7) as Hc by lia;
         destruct_or! Hc; subst n; done
      | assert (Z.testbit (addr / 4096) n = false) as ->; [|apply andb_false_r]; apply Z.bits_above_log2; [lia|];
         destruct (decide (addr / 4096 = 0)) as [->|]; [cbn; lia|]; apply (Z.le_lt_trans _ 7); [|lia]; change 7 with (Z.log2 255); apply Z.log2_le_mono; lia]. }
  split_and!.
  - rewrite E. done.
  - change (?l ++ [?a; ?b; ?c; ?d; ?e; ?f; ?g]) with (l ++ ([a; b; c; d; e; f] ++ [g])). rewrite app_assoc, last_write_snoc, E.
    change 0xFF with (Z.ones 8). rewrite Z.land_ones by lia. unfold STARTUP. change (2 ^ 8) with 256. zlia.
  - rewrite Z.shiftr_div_pow2 by lia. change (2 ^ 4) with 16. unfold u16. change (2 ^ 16) with 65536. zlia.
Qed.

(** ** The redirection table *)

(** What pin [i] delivers: nothing when it is masked, or a vector (with no flag
    set: edge-triggered, active high, fixed, to one controller) and the number of
    the local controller *)
Definition entry (d : iodev) (i : Z) : option (Z * Z) :=
  let lo := io_regs d (REG_TABLE + 2 * i) in
  if Z.testbit lo 16 then None else Some (lo, Z.shiftr (io_regs d (REG_TABLE + 2 * i + 1)) 24).

Lemma entry_enable irq cpu d i :
  0 <= irq < 2 ^ 16 - 32 -> 0 <= cpu < 256 ->
  entry (ioapicenable irq cpu d) i = if i =? irq then Some (T_IRQ0 + irq, cpu) else entry d i.
Proof.
  intros Hi Hc. unfold entry, ioapicenable, ioapicwrite, T_IRQ0, REG_TABLE. cbn [io_regs]. destruct (Z.eqb_spec i irq) as [->|Hne].
  - rewrite fn_lookup_insert_ne, !fn_lookup_insert by lia. unfold u32. rewrite Z.mod_small by lia.
    rewrite (Z.bits_above_log2 (32 + irq) 16); [| lia | apply Z.log2_lt_pow2; lia]. rewrite Z.shiftl_mul_pow2 by lia.
    rewrite Z.mod_small by lia. rewrite Z.shiftr_div_pow2, Z.div_mul by lia. done.
  - rewrite !fn_lookup_insert_ne by lia. done.
Qed.

Lemma masked_bit i : Z.testbit (u32 (Z.lor INT_DISABLED (T_IRQ0 + i))) 16 = true.
Proof. unfold u32. rewrite Z.mod_pow2_bits_low by lia. by rewrite Z.lor_spec. Qed.

Lemma ioapic_mask_low n i d r : r < REG_TABLE + 2 * i -> io_regs (ioapic_mask n i d) r = io_regs d r.
Proof.
  revert i d. induction n as [|n IH]; intros i d Hr; [done|]. cbn [ioapic_mask]. rewrite IH by lia. cbn [ioapicwrite io_regs].
  by rewrite !fn_lookup_insert_ne by lia.
Qed.

Lemma entry_mask n i d j : i <= j < i + Z.of_nat n -> entry (ioapic_mask n i d) j = None.
Proof.
  revert i d. induction n as [|n IH]; intros i d Hj; [lia|]. cbn [ioapic_mask]. destruct (decide (j = i)) as [->|Hne]; [|apply IH; lia].
  unfold entry. rewrite ioapic_mask_low by lia. cbn [ioapicwrite io_regs]. rewrite fn_lookup_insert_ne, fn_lookup_insert by lia.
  by rewrite masked_bit.
Qed.

Lemma find_cpu_spec ids i k a : NoDup ids -> ids !! i = Some a -> find_cpu ids k a = Ok (k + i)%nat.
Proof.
  revert i k. induction ids as [|b ids IH]; intros i k Hnd Hi; [done|]. apply list.NoDup_cons in Hnd as [Hb Hnd]. cbn [find_cpu].
  destruct i as [|i]; cbn in Hi.
  - injection Hi as ->. by rewrite Z.eqb_refl, Nat.add_0_r.
  - rewrite (proj2 (Z.eqb_neq _ _)); [rewrite (IH i) by done; f_equal; lia|]. intros ->. apply Hb. by eapply list_elem_of_lookup_2.
Qed.

Lemma lapicid_own ver apicid d : lapicid ver apicid true d = apicid.
Proof. unfold lapicid. cbn [negb]. change (lread ver apicid ID d).1 with (Z.shiftl apicid 24). by rewrite Z.shiftr_shiftl_l, Z.shiftl_0_r by lia. Qed.

(** ** The clock *)

(** The clock shows [date k] at read [k]: the registers hold its fields. *)
Definition shows_date (rtc : nat -> Z -> Z) (date : nat -> rtcdate) : Prop := forall k,
  rtc k SECS = second (date k) /\ rtc k MINS = minute (date k) /\ rtc k HOURS = hour (date k) /\
  rtc k DAY = day (date k) /\ rtc k MONTH = month (date k) /\ rtc k YEAR = year (date k).

(** It changes at most once in 13 reads. *)
Definition slow (date : nat -> rtcdate) : Prop := forall k, exists c,
  (forall i, k <= i < c -> date i = date k)%nat /\ (forall i, c <= i <= k + 12 -> date i = date (k + 12))%nat.

Lemma fill_shows rtc date k : shows_date rtc date ->
  fill_rtcdate rtc k = (mkDate (second (date k)) (minute (date (k + 1)%nat)) (hour (date (k + 2)%nat)) (day (date (k + 3)%nat))
    (month (date (k + 4)%nat)) (year (date (k + 5)%nat)), (k + 6)%nat).
Proof.
  intros H. unfold fill_rtcdate, cmos_read.
  replace (S k) with (k + 1)%nat by lia. replace (S (k + 1)) with (k + 2)%nat by lia. replace (S (k + 2)) with (k + 3)%nat by lia.
  replace (S (k + 3)) with (k + 4)%nat by lia. replace (S (k + 4)) with (k + 5)%nat by lia. replace (S (k + 5)) with (k + 6)%nat by lia.
  destruct (H k) as (-> & _). destruct (H (k + 1)%nat) as (_ & -> & _). destruct (H (k + 2)%nat) as (_ & _ & -> & _).
  destruct (H (k + 3)%nat) as (_ & _ & _ & -> & _). destruct (H (k + 4)%nat) as (_ & _ & _ & _ & -> & _).
  destruct (H (k + 5)%nat) as (_ & _ & _ & _ & _ & ->). done.
Qed.

(** A reading with no change in it is the date. *)
Lemma fill_steady rtc date k d : shows_date rtc date -> (forall i, k <= i <= k + 5 -> date i = d)%nat -> fill_rtcdate rtc k = (d, (k + 6)%nat).
Proof. intros H Hd. rewrite (fill_shows _ date) by done. rewrite !Hd by lia. by destruct d. Qed.

(** What the loop returns was the date at some read of it: a reading torn by a
    change does not agree with the next one. *)
Lemma cmos_loop_sound rtc date fuel k t k' :
  shows_date rtc date -> slow date -> cmos_loop rtc fuel k = Some (t, k') -> exists j, (k <= j < k')%nat /\ t = date j.
Proof.
  intros H Hs. revert k. induction fuel as [|f IH]; intros k E; [done|]. cbn [cmos_loop] in E.
  rewrite (fill_shows _ date) in E by done. cbn [cmos_read] in E. destruct (negb _).
  { apply IH in E as (j & Hj & ->). exists j. split; [lia | done]. }
  destruct (fill_rtcdate rtc (S (k + 6))) as [t2 k2] eqn:E2. pose proof E2 as E2'. rewrite (fill_shows _ date) in E2' by done. injection E2' as Et Ek.
  case_bool_decide as Ht.
  - injection E as <- <-. destruct (Hs k) as (c & Hc1 & Hc2). destruct (decide (c <= k + 6)%nat) as [Hc|Hc].
    + exists (k + 12)%nat. split; [lia|]. rewrite Ht, (fill_steady rtc date _ (date (k + 12)%nat)) in * by (done || intros; apply Hc2; lia). congruence.
    + exists k. split; [lia|]. pose proof (fill_steady rtc date k (date k) H) as E1. rewrite (fill_shows _ date) in E1 by done.
      assert (forall i, k <= i <= k + 5 -> date i = date k)%nat as Hk by (intros i Hi; apply Hc1; lia). specialize (E1 Hk). congruence.
  - apply IH in E as (j & Hj & ->). exists j. split; [lia | done].
Qed.

(** It returns once there are 26 reads without a change or an update. *)
Lemma cmos_loop_ends rtc date a fuel k :
  shows_date rtc date -> (k <= a + 12)%nat -> (a + 12 < k + 7 * fuel)%nat ->
  (forall i, (a <= i <= a + 25)%nat -> date i = date a /\ Z.land (rtc i CMOS_STATA) CMOS_UIP = 0) -> is_Some (cmos_loop rtc fuel k).
Proof.
  intros H. revert k. induction fuel as [|f IH]; intros k Hk Hf Ha; [lia|]. cbn [cmos_loop]. destruct (decide (a <= k)%nat) as [Hak|Hak].
  - rewrite (fill_steady rtc date k (date a)) by (done || intros; apply Ha; lia). cbn [cmos_read].
    rewrite (proj2 (Ha (k + 6)%nat ltac:(lia))). cbn [Z.eqb negb].
    rewrite (fill_steady rtc date (S (k + 6)) (date a)) by (done || intros; apply Ha; lia). rewrite bool_decide_eq_true_2 by done. eauto.
  - rewrite (fill_shows _ date) by done. cbn [cmos_read]. case_match; [apply IH; [lia | lia | done]|].
    rewrite (fill_shows _ date) by done. case_bool_decide; [eauto | apply IH; [lia | lia | done]].
Qed.

Definition bcd (v : Z) : Z := v / 10 * 16 + v mod 10.

Lemma conv_bcd v : 0 <= v < 100 -> conv (bcd v) = v.
Proof.
  intros H. unfold conv, bcd. change 0xf with (Z.ones 4). rewrite Z.shiftr_div_pow2, Z.land_ones by lia. change (2 ^ 4) with 16. zlia.
Qed.

Definition bcd_date (d : rtcdate) : rtcdate := mkDate (bcd (second d)) (bcd (minute d)) (bcd (hour d)) (bcd (day d)) (bcd (month d)) (bcd (year d)).

Record date_ok (d : rtcdate) : Prop := {
  ok_second : 0 <= second d < 60; ok_minute : 0 <= minute d < 60; ok_hour : 0 <= hour d < 24;
  ok_day : 0 <= day d < 32; ok_month : 0 <= month d < 13; ok_year : 0 <= year d < 100 }.

Definition in_2000s (d : rtcdate) : rtcdate := mkDate (second d) (minute d) (hour d) (day d) (month d) (year d + 2000).

(** [cmostime] ends as soon as the clock is quiet for 26 reads, and returns a date
    that the clock showed during the call, whether the clock counts in decimal
    digits or in binary. *)
Lemma cmostime_correct rtc date a fuel k binary :
  (forall j, date_ok (date j)) -> slow date ->
  shows_date rtc (fun j => if binary : bool then date j else bcd_date (date j)) ->
  (Z.land (rtc k CMOS_STATB) (Z.shiftl 1 2) =? 0) = negb binary ->
  (S k <= a + 12)%nat -> (a + 12 < S k + 7 * fuel)%nat ->
  (forall i, (a <= i <= a + 25)%nat -> date i = date a /\ Z.land (rtc i CMOS_STATA) CMOS_UIP = 0) ->
  exists j k', (k < j < k')%nat /\ cmostime rtc fuel k = Some (in_2000s (date j), k').
Proof.
  intros Hok Hslow Hsh Hb Hk Hf Ha. set (shown := fun j => if binary then date j else bcd_date (date j)) in *.
  assert (slow shown) as Hslow'.
  { intros i. destruct (Hslow i) as (c & H1 & H2). exists c. unfold shown. split; intros j Hj; [by rewrite H1 | by rewrite H2]. }
  destruct (cmos_loop_ends rtc shown a fuel (S k) Hsh Hk Hf) as [[t k'] E].
  { intros i Hi. destruct (Ha i Hi) as [E1 E2]. split; [|done]. unfold shown. by rewrite E1. }
  destruct (cmos_loop_sound rtc shown fuel (S k) t k' Hsh Hslow' E) as (j & Hj & ->). exists j, k'. split; [lia|].
  unfold cmostime. cbn [cmos_read]. rewrite E, Hb. unfold shown, in_2000s. destruct (Hok j). destruct binary; cbn [negb]; [done|].
  cbn [bcd_date second minute hour day month year]. by rewrite !conv_bcd by lia.
Qed.

(** ** Properties *)

(** C17: Which interrupt goes where.  On a machine with local controllers and an
    I/O controller of at least 15 pins, [main] gets through the set-up of the
    controllers (the wait for the message it sends ends).  After it, the old
    controller is masked; of the pins of the I/O controller exactly the keyboard,
    the serial port (if there is one) and the disk are not masked, each with the
    vector at which [trap] expects it, the first two at controller 0 and the disk
    at controller [ncpu - 1]; the local controller is on, with the periodic timer
    at the vector of the clock case, its two pins masked and all priorities let
    through.  Every processor finds its own entry in [cpus] by the number of its
    controller. *)
Theorem interrupts_routed lat fuel ver apicid m uart l d :
  let maxintr := Z.land (Z.shiftr (io_regs d REG_VER) 16) 0xFF in
  let ncpu := Z.of_nat (length (apicids m)) in
  (lat < fuel)%nat -> Mp.lapic m <> 0 -> IRQ_IDE <= maxintr -> 1 <= ncpu <= Z.of_nat NCPU ->
  exists l' d',
    main_irqs lat fuel ver apicid m uart l d = Ok (l', [(0x21, 0xFF); (0xA1, 0xFF)], d') /\
    (forall i, 0 <= i <= maxintr -> entry d' i =
       if (i =? IRQ_KBD) || (uart && (i =? IRQ_COM1)) then Some (T_IRQ0 + i, 0)
       else if i =? IRQ_IDE then Some (T_IRQ0 + i, ncpu - 1) else None) /\
    last_write SVR l' = ENABLE + T_IRQ0 + IRQ_SPURIOUS /\ last_write TIMER l' = PERIODIC + T_IRQ0 + IRQ_TIMER /\
    last_write LINT0 l' = MASKED /\ last_write LINT1 l' = MASKED /\ last_write TPR l' = 0 /\ l_pending l' = 0%nat /\
    (NoDup (apicids m) -> forall i, apicids m !! i = Some apicid -> cpuid false (apicids m) (lapicid ver apicid true l') = Ok i).
Proof.
  intros maxintr ncpu Hf Hlap Hmax Hn. unfold main_irqs. rewrite (proj2 (Z.eqb_neq _ _) Hlap). cbn [negb]. rewrite lapicinit_writes by done.
  cbn [mbind result_bind]. unfold ioapicinit. cbn [ioapicread io_regs].
  eexists _, _. split; [reflexivity|]. split.
  { intros i Hi. fold ncpu maxintr. unfold NCPU in Hn. rewrite entry_enable by (unfold IRQ_IDE; lia).
    set (d0 := ioapic_mask _ _ _). assert (entry d0 i = None) as H0 by (apply entry_mask; lia).
    destruct (Z.eqb_spec i IRQ_IDE) as [->|H14].
    - destruct uart; done.
    - destruct uart; cbn [andb orb]; rewrite ?entry_enable by (unfold IRQ_COM1, IRQ_KBD; lia).
      + destruct (Z.eqb_spec i IRQ_COM1) as [->|]; [done|]. rewrite orb_false_r. rewrite H0.
        by destruct (Z.eqb_spec i IRQ_KBD) as [->|].
      + rewrite orb_false_r, H0. by destruct (Z.eqb_spec i IRQ_KBD) as [->|]. }
  unfold init_writes. split_and!; [..| done |].
  1-5: destruct (4 <=? _); rewrite last_write_app by (vm_compute; done); vm_compute; done.
  intros Hnd i Hi. rewrite lapicid_own. unfold cpuid, mycpu. by rewrite (find_cpu_spec _ i 0 apicid).
Qed.

(** A machine with two processors and 24 pins *)
Lemma interrupts_routed_witness :
  let m := mkMachine [0; 1] 2 0xfee00000 [] in
  exists l' d', main_irqs 3 4 0x50014 1 m true (mkLdev [] 0) (mkIodev 0 (<[1 := 0x170011]> (fun _ => 0))) =
      Ok (l', [(0x21, 0xFF); (0xA1, 0xFF)], d') /\
    entry d' 1 = Some (33, 0) /\ entry d' 4 = Some (36, 0) /\ entry d' 14 = Some (46, 1) /\ entry d' 12 = None /\
    cpuid false (apicids m) (lapicid 0x50014 1 true l') = Ok 1%nat.
Proof.
  intros m.
  destruct (interrupts_routed 3 4 0x50014 1 m true (mkLdev [] 0) (mkIodev 0 (<[1 := 0x170011]> (fun _ => 0))))
    as (l' & d' & E & He & _ & _ & _ & _ & _ & _ & Hc).
  - lia.
  - done.
  - by vm_compute.
  - split; by vm_compute.
  - exists l', d'. split; [exact E|]. split_and!; [by apply He.. |]. apply Hc; [|done].
    apply (bool_decide_unpack _). vm_compute. exact I.
Defined.

(** The disk interrupt is sent to controller [ncpu - 1], which need not be a
    processor: with the controllers 0 and 2 it is 1. *)
Lemma disk_irq_unknown_controller :
  let m := mkMachine [0; 2] 3 0xfee00000 [] in
  exists l' d', main_irqs 3 4 0x50014 0 m true (mkLdev [] 0) (mkIodev 0 (<[1 := 0x170011]> (fun _ => 0))) = Ok (l', picinit, d') /\
    entry d' IRQ_IDE = Some (46, 1) /\ cpuid false (apicids m) 1 = Panic "unknown apicid".
Proof. eexists _, _. split_and!; vm_compute; reflexivity. Qed.
