(* ===== verification/User.v ===== *)
(** The small user programs: [cat.c], [echo.c], [kill.c], [ln.c], [ls.c],
    [mkdir.c], [rm.c], the mains of [grep.c], [wc.c] and [sh.c], and [gets] and
    [stat] of [ulib.c].

    A program runs against the system calls, the class [Unix]; what it may rely
    on is the class [UnixLaws]: open descriptors with what is left to read, the
    output written to descriptors, and the files by name.  A program ends with
    [exit].  A C string is the list of its characters without the NUL; the
    arguments are those of [main], the name of the program first.  The theorems
    are about what the programs print. *)

From S2P Require Import Prelude CString Block Fs Console Grep Kbd.

(** ** System calls *)

Class Unix (S : Type) := {
  u_open : list Z -> Z -> S -> Z * S;
  u_read : Z -> nat -> S -> option (list Z) * S;      (* [None] is -1 *)
  u_write : Z -> list Z -> S -> Z * S;
  u_close : Z -> S -> S;
  u_fstat : Z -> S -> option Fs.stat * S;
  u_link : list Z -> list Z -> S -> Z * S;
  u_unlink : list Z -> S -> Z * S;
  u_mkdir : list Z -> S -> Z * S;
  u_kill : Z -> S -> Z * S
}.

(** The calls of the shell.  [u_wait line] is [wait] together with the child that
    runs [runcmd(parsecmd(line))]. *)
Class Procs (S : Type) := {
  u_chdir : list Z -> S -> Z * S;
  u_fork : S -> Z * S;
  u_wait : list Z -> S -> S
}.

(** A program goes on, or has called [exit], or is still in a loop when the fuel
    is used up. *)
Inductive prog (A : Type) := Ret (a : A) | Exit | Running.
Arguments Ret {A} _.
Arguments Exit {A}.
Arguments Running {A}.

Section Programs.
Context {S : Type} {ux : Unix S}.

Definition U (A : Type) : Type := S -> prog A * S.

#[export] Instance U_ret : MRet U := fun A a s => (Ret a, s).
#[export] Instance U_bind : MBind U := fun A B f m s =>
  match m s with (Ret a, s') => f a s' | (Exit, s') => (Exit, s') | (Running, s') => (Running, s') end.

Definition sys {A} (f : S -> A * S) : U A := fun s => let '(a, s') := f s in (Ret a, s').
Definition uexit {A} : U A := fun s => (Exit, s).
Definition out_of_fuel {A} : U A := fun s => (Running, s).

(** ** [printf] to a descriptor *)

Inductive uarg := AInt (z : Z) | AStr (l : list Z).

(** An argument list: a string is passed by an address that is not 0. *)
Definition arg_word (args : list uarg) (i : nat) : Z := match args !! i with Some (AInt z) => z | _ => Z.of_nat i + 1 end.
Definition arg_str (args : list uarg) (a : Z) : list Z := match args !! Z.to_nat (a - 1) with Some (AStr l) => l | _ => [] end.

(** [putc] of every character *)
Fixpoint put_all (fd : Z) (l : list Z) : U unit :=
  match l with [] => mret tt | c :: l' => _ ← sys (u_write fd [c]); put_all fd l' end.

Definition uprintf (fd : Z) (fmt : string) (args : list uarg) : U unit :=
  put_all fd (printf (arg_word args) (arg_str args) (codes fmt)).

(** The same with a newline at the end of the format *)
Definition uprintln (fd : Z) (fmt : string) (args : list uarg) : U unit :=
  put_all fd (printf (arg_word args) (arg_str args) (codes fmt ++ [10])).

(** ** [cat.c] *)

Fixpoint cat (fuel : nat) (fd : Z) : U unit :=
  match fuel with
  | O => out_of_fuel
  | Datatypes.S f =>
      r ← sys (u_read fd 512);
      match r with
      | None => _ ← uprintln 1 "cat: read error" []; uexit
      | Some [] => mret tt
      | Some l =>
          n ← sys (u_write 1 l);
          if negb (n =? Z.of_nat (length l)) then _ ← uprintln 1 "cat: write error" []; uexit
          else cat f fd
      end
  end.

Section Files.
(** A program that does [body] on each file named; [cannot] is the format of the
    message when one does not open. *)
Context (cannot : string) (body : Z -> list Z -> U unit).

Fixpoint each_file (files : list (list Z)) : U unit :=
  match files with
  | [] => uexit
  | path :: files' =>
      fd ← sys (u_open path 0);
      if fd <? 0 then _ ← uprintln 1 cannot [AStr path]; uexit
      else
        _ ← body fd path;
        _ ← sys (fun s => (tt, u_close fd s));
        each_file files'
  end.
End Files.

Definition cat_main (fuel : nat) (argv : list (list Z)) : U unit :=
  if (length argv <=? 1)%nat then _ ← cat fuel 0; uexit
  else each_file "cat: cannot open %s" (fun fd _ => cat fuel fd) (drop 1 argv).

(** ** [wc.c] *)

Fixpoint wc_fd_loop (fuel : nat) (fd : Z) (w : wc_state) : U wc_state :=
  match fuel with
  | O => out_of_fuel
  | Datatypes.S f =>
      r ← sys (u_read fd 512);
      match r with
      | None => _ ← uprintln 1 "wc: read error" []; uexit
      | Some [] => mret w
      | Some l => wc_fd_loop f fd (foldl wc_char w l)
      end
  end.

Definition wc_fd (fuel : nat) (fd : Z) (name : list Z) : U unit :=
  w ← wc_fd_loop fuel fd (mkWc 0 0 0 false);
  uprintln 1 "%d %d %d %s" [AInt (wc_l w); AInt (wc_w w); AInt (wc_c w); AStr name].

Definition wc_main (fuel : nat) (argv : list (list Z)) : U unit :=
  if (length argv <=? 1)%nat then _ ← wc_fd fuel 0 []; uexit
  else each_file "wc: cannot open %s" (fun fd path => wc_fd fuel fd path) (drop 1 argv).

(** ** [grep.c] *)

(** The loop over the lines of the buffer: the bytes from the last [p] on. *)
Fixpoint grep_writes (fuel : nat) (pattern p : list Z) : U (list Z) :=
  match fuel with
  | O => mret p
  | Datatypes.S f =>
      match find_nl p with
      | None => mret p
      | Some (line, rest) =>
          _ ← (if match_re pattern line then sys (u_write 1 (line ++ [10])) else mret 0);
          grep_writes f pattern rest
      end
  end.

(** [buf] are the [m] bytes kept. *)
Fixpoint grep_fd_loop (fuel : nat) (pattern : list Z) (fd : Z) (buf : list Z) : U unit :=
  match fuel with
  | O => out_of_fuel
  | Datatypes.S f =>
      r ← sys (u_read fd (bufsize - length buf - 1));
      match r with
      | None | Some [] => mret tt
      | Some chunk =>
          let b := buf ++ chunk in
          p ← grep_writes (Datatypes.S (length b)) pattern b;
          grep_fd_loop f pattern fd (if (length p =? length b)%nat then [] else p)
      end
  end.

Definition grep_fd (fuel : nat) (pattern : list Z) (fd : Z) : U unit := grep_fd_loop fuel pattern fd [].

Definition grep_main (fuel : nat) (argv : list (list Z)) : U unit :=
  match argv with
  | [] | [_] => _ ← uprintln 2 "usage: grep pattern [file ...]" []; uexit
  | [_; pattern] => _ ← grep_fd fuel pattern 0; uexit
  | _ :: pattern :: names => each_file "grep: cannot open %s" (fun fd _ => grep_fd fuel pattern fd) names
  end.

(** ** [echo.c], [kill.c], [ln.c], [mkdir.c], [rm.c] *)

Fixpoint echo_loop (args : list (list Z)) : U unit :=
  match args with
  | [] => uexit
  | a :: args' => _ ← uprintf 1 "%s%s" [AStr a; AStr (match args' with [] => [10] | _ => [32] end)]; echo_loop args'
  end.
Definition echo_main (argv : list (list Z)) : U unit := echo_loop (drop 1 argv).

(** [atoi] of a string: its characters in memory at 0. *)
Definition atoi_str (l : list Z) : Z := default 0 (Ulib.atoi (length l + 1) (put_bytes (fun _ => 0) 0 l) 0).

Fixpoint kill_args (args : list (list Z)) : U unit :=
  match args with [] => uexit | a :: args' => _ ← sys (u_kill (atoi_str a)); kill_args args' end.
Definition kill_main (argv : list (list Z)) : U unit :=
  if (length argv <? 2)%nat then _ ← uprintln 2 "usage: kill pid..." []; uexit else kill_args (drop 1 argv).

Definition ln_main (argv : list (list Z)) : U unit :=
  match argv with
  | [_; old; new] =>
      r ← sys (u_link old new);
      _ ← (if r <? 0 then uprintln 2 "link %s %s: failed" [AStr old; AStr new] else mret tt); uexit
  | _ => _ ← uprintln 2 "Usage: ln old new" []; uexit
  end.

(** [mkdir] and [rm]: the loop stops at the first file that fails. *)
Fixpoint until_fail (call : list Z -> S -> Z * S) (failed : string) (args : list (list Z)) : U unit :=
  match args with
  | [] => uexit
  | a :: args' =>
      r ← sys (call a);
      if r <? 0 then _ ← uprintln 2 failed [AStr a]; uexit else until_fail call failed args'
  end.
Definition mkdir_main (argv : list (list Z)) : U unit :=
  if (length argv <? 2)%nat then _ ← uprintln 2 "Usage: mkdir files..." []; uexit
  else until_fail u_mkdir "mkdir: %s failed to create" (drop 1 argv).
Definition rm_main (argv : list (list Z)) : U unit :=
  if (length argv <? 2)%nat then _ ← uprintln 2 "Usage: rm files..." []; uexit
  else until_fail u_unlink "rm: %s failed to delete" (drop 1 argv).

(** ** [ulib.c] *)

(** The loop of [gets]: [i] characters are in [buf]; the result is the string. *)
Fixpoint gets_loop (room : nat) (buf : list Z) : U (list Z) :=
  match room with
  | O => mret buf
  | Datatypes.S room' =>
      r ← sys (u_read 0 1);
      match r with
      | Some (c :: _) => if (c =? 10) || (c =? 13) then mret (buf ++ [c]) else gets_loop room' (buf ++ [c])
      | _ => mret buf
      end
  end.
Definition gets (max : Z) : U (list Z) := gets_loop (Z.to_nat (max - 1)) [].

Definition ulib_stat (n : list Z) : U (option Fs.stat) :=
  fd ← sys (u_open n 0);
  if fd <? 0 then mret None
  else
    r ← sys (u_fstat fd);
    _ ← sys (fun s => (tt, u_close fd s));
    mret r.

(** ** [ls.c] *)

(** The string before the first NUL *)
Fixpoint cut0 (l : list Z) : list Z := match l with [] => [] | c :: l' => if c =? 0 then [] else c :: cut0 l' end.

(** [for(p=path+strlen(path); p >= path && *p != '/'; p--)]: the characters
    after the last slash; [seen] are those after [p]. *)
Fixpoint after_slash (rev_path seen : list Z) : list Z :=
  match rev_path with [] => seen | c :: r => if c =? 47 then seen else after_slash r (c :: seen) end.

Definition fmtname (path : list Z) : list Z :=
  let p := after_slash (rev path) [] in
  if (Z.to_nat DIRSIZ <=? length p)%nat then p else p ++ replicate (Z.to_nat DIRSIZ - length p) 32.

Definition ls_line (path : list Z) (st : Fs.stat) : U unit :=
  uprintln 1 "%s %d %d %d" [AStr (fmtname path); AInt (st_type st); AInt (st_ino st); AInt (st_size st)].

(** [while(read(fd, &de, sizeof(de)) == sizeof(de))] *)
Fixpoint ls_dir (fuel : nat) (fd : Z) (path : list Z) : U unit :=
  match fuel with
  | O => out_of_fuel
  | Datatypes.S f =>
      r ← sys (u_read fd 16);
      match r with
      | Some de =>
          if negb (length de =? 16)%nat then mret tt
          else if get16 de 0 =? 0 then ls_dir f fd path
          else
            let buf := path ++ [47] ++ cut0 (take (Z.to_nat DIRSIZ) (drop 2 de)) in
            st ← ulib_stat buf;
            _ ← (match st with
                 | None => uprintln 1 "ls: cannot stat %s" [AStr buf]
                 | Some st => ls_line buf st
                 end);
            ls_dir f fd path
      | None => mret tt
      end
  end.

Definition ls (fuel : nat) (path : list Z) : U unit :=
  fd ← sys (u_open path 0);
  if fd <? 0 then uprintln 2 "ls: cannot open %s" [AStr path]
  else
    st ← sys (u_fstat fd);
    match st with
    | None => _ ← uprintln 2 "ls: cannot stat %s" [AStr path]; sys (fun s => (tt, u_close fd s))
    | Some st =>
        _ ← (if st_type st =? T_FILE then ls_line path st
             else if st_type st =? T_DIR then
               if 512 <? Z.of_nat (length path) + 1 + DIRSIZ + 1 then uprintln 1 "ls: path too long" []
               else ls_dir fuel fd path
             else mret tt);
        sys (fun s => (tt, u_close fd s))
    end.

Fixpoint ls_each (fuel : nat) (args : list (list Z)) : U unit :=
  match args with [] => uexit | a :: args' => _ ← ls fuel a; ls_each fuel args' end.
Definition ls_main (fuel : nat) (argv : list (list Z)) : U unit :=
  if (length argv <? 2)%nat then _ ← ls fuel [46]; uexit else ls_each fuel (drop 1 argv).

(** ** [main] of [sh.c] *)

(** [panic] of [sh.c] *)
Definition sh_panic {A} (msg : string) : U A := _ ← uprintln 2 "%s" [AStr (codes msg)]; uexit.

(** [None] is -1, the end of the input; else the string in [buf] *)
Definition getcmd (nbuf : Z) : U (option (list Z)) :=
  _ ← uprintf 2 "$ " [];
  l ← gets nbuf;
  match cut0 l with [] => mret None | buf => mret (Some buf) end.

Context {pr : Procs S}.

Definition fork1 : U Z :=
  pid ← sys u_fork;
  if pid =? -1 then sh_panic "fork" else mret pid.

Fixpoint open_console (fuel : nat) : U unit :=
  match fuel with
  | O => out_of_fuel
  | Datatypes.S f =>
      fd ← sys (u_open (codes "console") 2);
      if 0 <=? fd then
        if 3 <=? fd then sys (fun s => (tt, u_close fd s)) else open_console f
      else mret tt
  end.

Fixpoint sh_loop (fuel : nat) : U unit :=
  match fuel with
  | O => out_of_fuel
  | Datatypes.S f =>
      r ← getcmd 100;
      match r with
      | None => uexit
      | Some buf =>
          if bool_decide (take 3 buf = codes "cd ") then
            (* buf[strlen(buf)-1] = 0 *)
            let dir := drop 3 (take (length buf - 1) buf) in
            r ← sys (u_chdir dir);
            _ ← (if r <? 0 then uprintln 2 "cannot cd %s" [AStr dir] else mret tt);
            sh_loop f
          else
            _ ← fork1;
            _ ← sys (fun s => (tt, u_wait buf s));
            sh_loop f
      end
  end.

Definition sh_main (fuel : nat) : U unit := _ ← open_console fuel; sh_loop fuel.

End Programs.
Arguments U _ _ : clear implicits.

(** ** What the programs rely on *)

(** An open descriptor: the name it was opened by, what is left to read, and
    whether it is a file, which [read] reads as much of as is asked for. *)
Record ufd := mkUfd { f_path : list Z; f_rest : list Z; f_reg : bool }.

(** What a shell does: change the directory, or run a line in a child *)
Inductive uevent := Cd (dir : list Z) | Ran (line : list Z).

(** The open descriptors, the output to descriptors 1 and 2, the files that can be
    opened, with their [stat] and contents, and what was done so far. *)
Record uview := mkView {
  fds : gmap Z ufd; out1 : list Z; out2 : list Z; files : list Z -> option (Fs.stat * list Z); events : list uevent }.

Definition vset_fds (f : gmap Z ufd) (v : uview) : uview := mkView f (out1 v) (out2 v) (files v) (events v).
Definition vput (fd : Z) (l : list Z) (v : uview) : uview :=
  if fd =? 1 then mkView (fds v) (out1 v ++ l) (out2 v) (files v) (events v)
  else mkView (fds v) (out1 v) (out2 v ++ l) (files v) (events v).

Definition max_fds : nat := 16.

(** A name just opened. *)
Definition opened_as (p : list Z) (st : Fs.stat) (c : list Z) : ufd := mkUfd p c (negb (st_type st =? T_DEV)).
Definition emptied (x : ufd) : ufd := mkUfd (f_path x) [] (f_reg x).

Class UnixLaws (S : Type) {ux : Unix S} := {
  view : S -> uview;
  open_law : forall p s, match files (view s) p with
    | None => exists fd s', u_open p 0 s = (fd, s') /\ fd < 0 /\ view s' = view s
    | Some (st, c) => (size (fds (view s)) < max_fds)%nat -> exists fd s', u_open p 0 s = (fd, s') /\ 0 <= fd /\ fds (view s) !! fd = None /\
        view s' = vset_fds (<[fd := opened_as p st c]> (fds (view s))) (view s)
    end;
  read_law : forall fd n s x, fds (view s) !! fd = Some x -> (0 < n)%nat ->
    exists l s', u_read fd n s = (Some l, s') /\ l = take (length l) (f_rest x) /\ (length l <= n)%nat /\ (l = [] -> f_rest x = []) /\
      (f_reg x = true -> l = take n (f_rest x)) /\
      view s' = vset_fds (<[fd := mkUfd (f_path x) (drop (length l) (f_rest x)) (f_reg x)]> (fds (view s))) (view s);
  write_law : forall fd l s, fd = 1 \/ fd = 2 -> exists s', u_write fd l s = (Z.of_nat (length l), s') /\ view s' = vput fd l (view s);
  close_law : forall fd s, is_Some (fds (view s) !! fd) -> view (u_close fd s) = vset_fds (delete fd (fds (view s))) (view s);
  fstat_law : forall fd s x st c, fds (view s) !! fd = Some x -> files (view s) (f_path x) = Some (st, c) ->
    exists s', u_fstat fd s = (Some st, s') /\ view s' = view s
}.

(** What the shell relies on: a call of [open] for reading and writing of a device
    is like one for reading, [fork] succeeds, and the child leaves the descriptors
    of the shell as they are. *)
Class ProcsLaws (S : Type) {ux : Unix S} {laws : UnixLaws S} {pr : Procs S} := {
  open_rw_law : forall p s st c, files (view s) p = Some (st, c) -> st_type st = T_DEV -> u_open p 2 s = u_open p 0 s;
  chdir_law : forall p s, exists r s' f, u_chdir p s = (r, s') /\
    view s' = mkView (fds (view s)) (out1 (view s)) (out2 (view s)) f (events (view s) ++ [Cd p]);
  fork_law : forall s, exists pid s', u_fork s = (pid, s') /\ 0 < pid /\ view s' = view s;
  wait_law : forall line s, exists o1 o2 f,
    view (u_wait line s) = mkView (fds (view s)) o1 o2 f (events (view s) ++ [Ran line])
}.
