(* ===== verification/UserFacts.v ===== *)
(** What the small user programs of [User.v] print.

    The rules for the system calls and for [printf] come first: [wp v m Q] says
    that [m], started in any state seen as [v], ends with an outcome and a state
    seen as a view in [Q].  Running out of fuel is an outcome too, so every rule
    is about programs that end. *)

From S2P Require Import Prelude CString Block Fs Console Grep Kbd User.

(** ** Views *)

(** More output on the two descriptors *)
Definition vouts (a b : list Z) (v : uview) : uview := mkView (fds v) (out1 v ++ a) (out2 v ++ b) (files v) (events v).

Lemma vouts_nil v : vouts [] [] v = v.
Proof. destruct v. unfold vouts. cbn. by rewrite !app_nil_r. Qed.

Lemma vouts_vouts a b a' b' v : vouts a' b' (vouts a b v) = vouts (a ++ a') (b ++ b') v.
Proof. unfold vouts. cbn. by rewrite <-!app_assoc. Qed.

Lemma vset_fds_self v : vset_fds (fds v) v = v.
Proof. by destruct v. Qed.

Lemma vput_vouts fd l v : vput fd l v = if fd =? 1 then vouts l [] v else vouts [] l v.
Proof. unfold vput, vouts. rewrite !app_nil_r. by destruct (fd =? 1). Qed.

Lemma vset_vouts f a b v : vset_fds f (vouts a b v) = vouts a b (vset_fds f v).
Proof. done. Qed.

Lemma vset_vset f g v : vset_fds f (vset_fds g v) = vset_fds f v.
Proof. done. Qed.

(** ** Rules *)

Section Rules.
Context {S : Type} {ux : Unix S} {laws : UnixLaws S}.

Definition wp {A} (v : uview) (m : U S A) (Q : prog A -> uview -> Prop) : Prop :=
  forall s, view s = v -> Q (m s).1 (view (m s).2).

Lemma wp_mono {A} v (m : U S A) (P Q : prog A -> uview -> Prop) : wp v m P -> (forall r v', P r v' -> Q r v') -> wp v m Q.
Proof. intros H HPQ s Hs. auto. Qed.

Lemma wp_ret {A} v (a : A) (Q : prog A -> uview -> Prop) : Q (Ret a) v -> wp v (mret a : U S A) Q.
Proof. intros H s <-. exact H. Qed.

Lemma wp_exit {A} v (Q : prog A -> uview -> Prop) : Q Exit v -> wp v (uexit : U S A) Q.
Proof. intros H s <-. exact H. Qed.

Lemma wp_bind {A B} v (m : U S A) (f : A -> U S B) (Q : prog B -> uview -> Prop) :
  wp v m (fun r v1 => match r with Ret a => wp v1 (f a) Q | Exit => Q Exit v1 | Running => Q Running v1 end) -> wp v (m ≫= f) Q.
Proof.
  intros H s Hs. specialize (H s Hs). unfold mbind, U_bind. destruct (m s) as [[a | |] s']; cbn in *; auto.
Qed.

Lemma wp_open_none v p (Q : prog Z -> uview -> Prop) :
  files v p = None -> (forall fd, fd < 0 -> Q (Ret fd) v) -> wp v (sys (u_open p 0)) Q.
Proof.
  intros Hf HQ s <-. pose proof (open_law p s) as H. rewrite Hf in H. destruct H as (fd & s' & E & Hfd & Hv).
  unfold sys. rewrite E. cbn. rewrite Hv. auto.
Qed.

Lemma wp_open_some v p st c (Q : prog Z -> uview -> Prop) :
  files v p = Some (st, c) -> (size (fds v) < max_fds)%nat ->
  (forall fd, 0 <= fd -> fds v !! fd = None -> Q (Ret fd) (vset_fds (<[fd := opened_as p st c]> (fds v)) v)) ->
  wp v (sys (u_open p 0)) Q.
Proof.
  intros Hf Hsz HQ s <-. pose proof (open_law p s) as H. rewrite Hf in H. destruct (H Hsz) as (fd & s' & E & Hfd & Hn & Hv).
  unfold sys. rewrite E. cbn. rewrite Hv. auto.
Qed.

Lemma wp_read v fd n x (Q : prog (option (list Z)) -> uview -> Prop) :
  fds v !! fd = Some x -> (0 < n)%nat ->
  (forall l rest, f_rest x = l ++ rest -> (length l <= n)%nat -> (l = [] -> rest = []) -> (f_reg x = true -> l = take n (f_rest x)) ->
     Q (Ret (Some l)) (vset_fds (<[fd := mkUfd (f_path x) rest (f_reg x)]> (fds v)) v)) ->
  wp v (sys (u_read fd n)) Q.
Proof.
  intros Hx Hn HQ s <-. destruct (read_law fd n s x Hx Hn) as (l & s' & E & Hl & Hn' & H0 & Hreg & Hv).
  unfold sys. rewrite E. cbn. rewrite Hv. apply HQ; [|done| |done].
  - rewrite Hl at 1. by rewrite take_drop.
  - intros ->. by rewrite drop_0, H0.
Qed.

Lemma wp_write v fd l (Q : prog Z -> uview -> Prop) :
  fd = 1 \/ fd = 2 -> Q (Ret (Z.of_nat (length l))) (vput fd l v) -> wp v (sys (u_write fd l)) Q.
Proof. intros Hfd HQ s <-. destruct (write_law fd l s Hfd) as (s' & E & Hv). unfold sys. rewrite E. cbn. by rewrite Hv. Qed.

Lemma wp_close v fd x (Q : prog unit -> uview -> Prop) :
  fds v !! fd = Some x -> Q (Ret tt) (vset_fds (delete fd (fds v)) v) -> wp v (sys (fun s => (tt, u_close fd s))) Q.
Proof. intros Hx HQ s <-. unfold sys. cbn. rewrite close_law by eauto. done. Qed.

Lemma wp_fstat v fd x st c (Q : prog (option Fs.stat) -> uview -> Prop) :
  fds v !! fd = Some x -> files v (f_path x) = Some (st, c) -> Q (Ret (Some st)) v -> wp v (sys (u_fstat fd)) Q.
Proof. intros Hx Hf HQ s <-. destruct (fstat_law fd s x st c Hx Hf) as (s' & E & Hv). unfold sys. rewrite E. cbn. by rewrite Hv. Qed.

Lemma wp_put_all v fd l (Q : prog unit -> uview -> Prop) :
  fd = 1 \/ fd = 2 -> Q (Ret tt) (vput fd l v) -> wp v (put_all fd l) Q.
Proof.
  intros Hfd. revert v. induction l as [|c l IH]; intros v HQ; cbn [put_all].
  - apply wp_ret. rewrite vput_vouts, vouts_nil in HQ. by destruct (fd =? 1).
  - apply wp_bind, wp_write; [done|]. apply IH. rewrite !vput_vouts in *. destruct (fd =? 1); by rewrite vouts_vouts.
Qed.

Lemma wp_out v l (Q : prog unit -> uview -> Prop) : Q (Ret tt) (vouts l [] v) -> wp v (put_all 1 l) Q.
Proof. intros HQ. apply wp_put_all; [auto|]. by rewrite vput_vouts. Qed.

Lemma wp_err v l (Q : prog unit -> uview -> Prop) : Q (Ret tt) (vouts [] l v) -> wp v (put_all 2 l) Q.
Proof. intros HQ. apply wp_put_all; [auto|]. by rewrite vput_vouts. Qed.

(** ** [cat] and [wc] of a descriptor *)

Lemma wp_cat fuel v fd x (Q : prog unit -> uview -> Prop) :
  fds v !! fd = Some x -> (length (f_rest x) < fuel)%nat ->
  Q (Ret tt) (vouts (f_rest x) [] (vset_fds (<[fd := emptied x]> (fds v)) v)) -> wp v (cat fuel fd) Q.
Proof.
  revert v x. induction fuel as [|f IH]; intros v x Hx Hf HQ; [lia|]. cbn [cat].
  apply wp_bind. eapply wp_read; [exact Hx | lia |]. intros l rest El _ H0 _. destruct l as [|a l].
  - apply wp_ret. rewrite H0 in * by done. cbn [app] in El. rewrite El, vouts_nil in HQ. exact HQ.
  - apply wp_bind, wp_write; [auto|]. rewrite Z.eqb_refl. cbn [negb]. rewrite El, length_app in Hf. cbn [length] in Hf.
    eapply IH; [apply lookup_insert_eq | cbn; lia |]. rewrite vput_vouts. cbn.
    rewrite insert_insert_eq, vset_vouts, vset_vset, vouts_vouts, <-El. exact HQ.
Qed.

Lemma wp_wc_loop fuel v fd x w (Q : prog wc_state -> uview -> Prop) :
  fds v !! fd = Some x -> (length (f_rest x) < fuel)%nat ->
  Q (Ret (foldl wc_char w (f_rest x))) (vset_fds (<[fd := emptied x]> (fds v)) v) -> wp v (wc_fd_loop fuel fd w) Q.
Proof.
  revert v x w. induction fuel as [|f IH]; intros v x w Hx Hf HQ; [lia|]. cbn [wc_fd_loop].
  apply wp_bind. eapply wp_read; [exact Hx | lia |]. intros l rest El _ H0 _. destruct l as [|a l].
  - apply wp_ret. rewrite H0 in * by done. cbn [app] in El. rewrite El in HQ. exact HQ.
  - rewrite El, length_app in Hf. cbn [length] in Hf. eapply IH; [apply lookup_insert_eq | cbn; lia |].
    cbn [f_rest]. rewrite <-foldl_app, <-El. cbn. rewrite insert_insert_eq, vset_vset. exact HQ.
Qed.
End Rules.

(** ** What is printed *)

Definition dec_out (z : Z) : list Z := printint digits_upper (s32 z) 10 true.

Definition wc_out (name c : list Z) : list Z :=
  dec_out (newlines c) ++ [32] ++ dec_out (word_starts true c) ++ [32] ++ dec_out (Z.of_nat (length c)) ++ [32] ++ name ++ [10].

(** The complete lines of a text, and what follows the last newline *)
Fixpoint split_lines (c : list Z) : list (list Z) * list Z :=
  match c with
  | [] => ([], [])
  | x :: c' =>
      let '(ls, tail) := split_lines c' in
      if x =? 10 then ([] :: ls, tail)
      else match ls with [] => ([], x :: tail) | l :: ls' => ((x :: l) :: ls', tail) end
  end.

Definition grep_out (pattern c : list Z) : list Z := unlines (matching pattern (split_lines c).1).

(** Text that [grep] can handle: no NUL, and lines of at most 1022 characters *)
Definition text (c : list Z) : Prop := Forall short_line (split_lines c).1 /\ short_line (split_lines c).2.

Definition ls_out (path : list Z) (st : Fs.stat) : list Z :=
  fmtname path ++ [32] ++ dec_out (st_type st) ++ [32] ++ dec_out (st_ino st) ++ [32] ++ dec_out (st_size st) ++ [10].

(** The arguments with blanks between them and a newline at the end *)
Fixpoint echo_out (args : list (list Z)) : list Z :=
  match args with
  | [] => []
  | a :: args' => a ++ match args' with [] => [10] | _ => 32 :: echo_out args' end
  end.

(** A line of at most [n] characters with its end, and the rest of the input *)
Fixpoint first_line (n : nat) (t : list Z) : list Z * list Z :=
  match n, t with
  | Datatypes.S n', c :: t' =>
      if (c =? 10) || (c =? 13) then ([c], t') else let '(l, r) := first_line n' t' in (c :: l, r)
  | _, _ => ([], t)
  end.

(** The records of a directory, and the line for one of them *)
Fixpoint dirents (n : nat) (c : list Z) : list (list Z) :=
  match n with O => [] | Datatypes.S n' => take 16 c :: dirents n' (drop 16 c) end.

Definition dirent_name (de : list Z) : list Z := cut0 (take (Z.to_nat DIRSIZ) (drop 2 de)).

Definition entry_out (f : list Z -> option (Fs.stat * list Z)) (path de : list Z) : list Z :=
  if get16 de 0 =? 0 then []
  else
    let buf := path ++ [47] ++ dirent_name de in
    match f buf with
    | None => codes "ls: cannot stat " ++ buf ++ [10]
    | Some (st, _) => ls_out buf st
    end.

Definition dir_out (f : list Z -> option (Fs.stat * list Z)) (path c : list Z) : list Z :=
  dirents (length c / 16) c ≫= entry_out f path.

(** What [ls path] writes to the output and to the error output *)
Definition ls_outs (f : list Z -> option (Fs.stat * list Z)) (path : list Z) : list Z * list Z :=
  match f path with
  | None => ([], codes "ls: cannot open " ++ path ++ [10])
  | Some (st, c) =>
      (if st_type st =? T_FILE then ls_out path st
       else if st_type st =? T_DIR then
         if Z.of_nat (length path) <=? 496 then dir_out f path c else codes "ls: path too long" ++ [10]
       else [], [])
  end.

(** The files in order, up to the first that does not open *)
Fixpoint files_out (cannot : list Z) (render : list Z -> list Z -> list Z) (f : list Z -> option (Fs.stat * list Z)) (names : list (list Z)) : list Z :=
  match names with
  | [] => []
  | p :: names' =>
      match f p with
      | None => cannot ++ p ++ [10]
      | Some (_, c) => render p c ++ files_out cannot render f names'
      end
  end.

Lemma split_lines_spec c : c = unlines (split_lines c).1 ++ (split_lines c).2.
Proof.
  induction c as [|x c IH]; [done|]. cbn [split_lines]. destruct (split_lines c) as [ls tail]. cbn [fst snd] in *. subst c.
  destruct (Z.eqb_spec x 10) as [->|]; [done|]. destruct ls as [|l ls]; [done|]. cbn [fst snd]. by rewrite !unlines_cons.
Qed.

Lemma args_1 (p : list Z) : printf (arg_word [AStr p]) (arg_str [AStr p]) (codes "%s" ++ [10]) = p ++ [10].
Proof. done. Qed.

(** A message with one name at its end *)
Lemma printf_name pre p :
  Forall (fun c => c <> 37) pre -> printf (arg_word [AStr p]) (arg_str [AStr p]) (pre ++ codes "%s" ++ [10]) = pre ++ p ++ [10].
Proof.
  unfold printf. induction pre as [|c pre IH]; intros H; [apply args_1|]. apply Forall_cons in H as [Hc H].
  cbn [app printf_loop negb]. rewrite (proj2 (Z.eqb_neq _ _) Hc), IH; done.
Qed.

Lemma find_nl_length p line rest : find_nl p = Some (line, rest) -> (length rest < length p)%nat.
Proof.
  revert line. induction p as [|c p IH]; intros line E; cbn in E; [done|]. repeat case_match; simplify_eq; cbn; [lia|].
  specialize (IH _ eq_refl). lia.
Qed.

Lemma grep_lines_length n pattern p : (length (grep_lines n pattern p).2 <= length p)%nat.
Proof.
  revert p. induction n as [|n IH]; intros p; cbn [grep_lines]; [done|].
  destruct (find_nl p) as [[line rest]|] eqn:E; [|done]. apply find_nl_length in E. specialize (IH rest).
  destruct (grep_lines n pattern rest). cbn [snd] in *. lia.
Qed.

(** The bytes that are kept leave room for more. *)
Lemma grep_turn_room pattern buf chunk :
  (length buf + length chunk <= bufsize - 1)%nat -> (length (grep_turn pattern buf chunk).2 < bufsize - 1)%nat.
Proof.
  intros H. unfold grep_turn. pose proof (grep_lines_length (Datatypes.S (length (buf ++ chunk))) pattern (buf ++ chunk)) as Hl.
  destruct (grep_lines _ _ _) as [out p]. cbn [snd] in *. rewrite length_app in *.
  destruct (Nat.eqb_spec (length p) (length buf + length chunk)); [cbn; unfold bufsize; lia | lia].
Qed.

(** *** Names *)

Lemma after_slash_name name pre seen :
  Forall (fun c => c <> 47) name -> after_slash (rev name ++ pre) seen = after_slash pre (name ++ seen).
Proof.
  revert seen. induction name as [|c name IH] using rev_ind; intros seen H; [done|]. apply Forall_app in H as [H Hc].
  rewrite rev_unit. cbn [app after_slash]. rewrite (proj2 (Z.eqb_neq _ _)) by (by inversion Hc). rewrite IH by done. by rewrite <-app_assoc.
Qed.

(** [fmtname] is the last element of the path, with blanks up to 14 characters. *)
Lemma fmtname_last dir name :
  Forall (fun c => c <> 47) name -> (length name <= 14)%nat ->
  fmtname (dir ++ 47 :: name) = name ++ replicate (14 - length name) 32 /\ fmtname name = name ++ replicate (14 - length name) 32.
Proof.
  intros H Hl. assert (forall l, after_slash (rev l) [] = name -> fmtname l = name ++ replicate (14 - length name) 32) as E.
  { intros l El. unfold fmtname. rewrite El. change (Z.to_nat DIRSIZ) with 14%nat. destruct (Nat.leb_spec 14 (length name)); [|done].
    replace (14 - length name)%nat with O by lia. by rewrite app_nil_r. }
  split; apply E.
  - rewrite rev_app_distr. cbn [rev]. rewrite <-app_assoc, after_slash_name by done. cbn. by rewrite app_nil_r.
  - rewrite <-(app_nil_r (rev name)), after_slash_name by done. cbn. by rewrite app_nil_r.
Qed.

Section Programs.
Context {S : Type} {ux : Unix S} {laws : UnixLaws S}.

Lemma wp_wc fuel v fd x name (Q : prog unit -> uview -> Prop) :
  fds v !! fd = Some x -> (length (f_rest x) < fuel)%nat -> Z.of_nat (length (f_rest x)) < 2 ^ 31 ->
  Q (Ret tt) (vouts (wc_out name (f_rest x)) [] (vset_fds (<[fd := emptied x]> (fds v)) v)) -> wp v (wc_fd fuel fd name) Q.
Proof.
  intros Hx Hf Hc HQ. unfold wc_fd. apply wp_bind. eapply wp_wc_loop; [done..|].
  destruct (wc_chars (f_rest x) 0 0 0 false) as [i ->]; [lia..|]. apply wp_out. exact HQ.
Qed.

Section Files.
Context (cannot : string) (body : Z -> list Z -> U S unit) (pre : list Z) (render : list Z -> list Z -> list Z)
  (ok : Fs.stat -> list Z -> Prop)
  (cannot_pre : codes cannot ++ [10] = pre ++ codes "%s" ++ [10]) (pre_plain : Forall (fun c => c <> 37) pre)
  (body_spec : forall v fd p st c (Q : prog unit -> uview -> Prop),
     fds v !! fd = Some (opened_as p st c) -> ok st c ->
     Q (Ret tt) (vouts (render p c) [] (vset_fds (<[fd := emptied (opened_as p st c)]> (fds v)) v)) -> wp v (body fd p) Q).

Lemma wp_each_file v names (Q : prog unit -> uview -> Prop) :
  (size (fds v) < max_fds)%nat -> Forall (fun p => forall st c, files v p = Some (st, c) -> ok st c) names ->
  Q Exit (vouts (files_out pre render (files v) names) [] v) -> wp v (each_file cannot body names) Q.
Proof.
  revert v. induction names as [|p names IH]; intros v Hsz Hok HQ; cbn [each_file files_out] in *.
  { apply wp_exit. by rewrite vouts_nil in HQ. }
  apply Forall_cons in Hok as [Hp Hok]. apply wp_bind. destruct (files v p) as [[st c]|] eqn:Ef.
  - eapply wp_open_some; [done..|]. intros fd Hfd Hn. rewrite (proj2 (Z.ltb_ge _ _)) by lia.
    apply wp_bind. eapply body_spec; [apply lookup_insert_eq | by apply Hp |].
    apply wp_bind. eapply wp_close; [cbn; apply lookup_insert_eq |]. cbn [fds vouts vset_fds].
    rewrite delete_insert_eq, delete_insert_id by done. rewrite vset_vouts, !vset_vset, vset_fds_self. apply IH; [done..|].
    by rewrite vouts_vouts.
  - apply wp_open_none; [done|]. intros fd Hfd. rewrite (proj2 (Z.ltb_lt _ _)) by lia.
    apply wp_bind. unfold uprintln. rewrite cannot_pre, printf_name by done. by apply wp_out, wp_exit.
Qed.
End Files.

Lemma wp_grep_writes n v pattern p (Q : prog (list Z) -> uview -> Prop) :
  Q (Ret (grep_lines n pattern p).2) (vouts (grep_lines n pattern p).1 [] v) -> wp v (grep_writes n pattern p) Q.
Proof.
  revert v p. induction n as [|n IH]; intros v p HQ; cbn [grep_writes grep_lines] in *; [apply wp_ret; by rewrite vouts_nil in HQ|].
  destruct (find_nl p) as [[line rest]|]; [|apply wp_ret; by rewrite vouts_nil in HQ].
  specialize (fun v => IH v rest). destruct (grep_lines n pattern rest) as [out p']. cbn [fst snd] in *. apply wp_bind.
  destruct (match_re pattern line).
  - apply wp_write; [auto|]. apply IH. rewrite vput_vouts. cbn [Z.eqb Pos.eqb]. by rewrite vouts_vouts.
  - apply wp_ret, IH, HQ.
Qed.

Lemma wp_grep_loop fuel v fd x pattern buf (Q : prog unit -> uview -> Prop) :
  fds v !! fd = Some x -> f_reg x = true -> (length (f_rest x) < fuel)%nat -> (length buf < bufsize - 1)%nat ->
  (forall reads, reads_full pattern buf reads (f_rest x) ->
     Q (Ret tt) (vouts (grep_loop pattern buf reads) [] (vset_fds (<[fd := emptied x]> (fds v)) v))) ->
  wp v (grep_fd_loop fuel pattern fd buf) Q.
Proof.
  revert v x buf. induction fuel as [|f IH]; intros v x buf Hx Hr Hf Hb HQ; [lia|]. cbn [grep_fd_loop].
  apply wp_bind. eapply wp_read; [exact Hx | lia |]. intros l rest El _ H0 Hl. specialize (Hl Hr).
  replace (bufsize - length buf - 1)%nat with (bufsize - 1 - length buf)%nat in Hl by lia. destruct l as [|a l].
  - apply wp_ret. rewrite H0 in * by done. cbn [app] in El. specialize (HQ [] El). cbn [grep_loop] in HQ. by rewrite vouts_nil in HQ.
  - set (chunk := a :: l) in *. assert (length buf + length chunk <= bufsize - 1)%nat as Hlen by (rewrite Hl, length_take; lia).
    pose proof (grep_turn_room pattern buf chunk Hlen) as Hroom.
    apply wp_bind, wp_grep_writes. unfold grep_turn in Hroom.
    assert (forall reads, reads_full pattern (grep_turn pattern buf chunk).2 reads rest ->
      reads_full pattern buf (chunk :: reads) (f_rest x)) as Hreads.
    { intros reads H. cbn [reads_full]. split_and!; [done..|]. assert (drop (bufsize - 1 - length buf) (f_rest x) = rest) as ->; [|done].
      apply (app_inv_head chunk). rewrite <-El, Hl at 1. by rewrite take_drop. }
    unfold grep_turn in Hreads. cbn [grep_loop] in HQ. specialize (fun reads H => HQ (chunk :: reads) (Hreads reads H)).
    cbn [grep_loop] in HQ. unfold grep_turn at 1 in HQ.
    destruct (grep_lines _ _ _) as [out p]. cbn [fst snd] in *.
    eapply IH; [apply lookup_insert_eq | done | cbn [f_rest]; rewrite El, length_app in Hf; unfold chunk in Hf; cbn in Hf; lia | done |].
    intros reads H. cbn [f_rest] in H. specialize (HQ reads H). cbn.
    rewrite insert_insert_eq, vset_vouts, vset_vset, vouts_vouts. exact HQ.
Qed.

Lemma wp_grep fuel v fd x pattern (Q : prog unit -> uview -> Prop) :
  fds v !! fd = Some x -> f_reg x = true -> (length (f_rest x) < fuel)%nat -> text (f_rest x) ->
  Q (Ret tt) (vouts (grep_out pattern (f_rest x)) [] (vset_fds (<[fd := emptied x]> (fds v)) v)) -> wp v (grep_fd fuel pattern fd) Q.
Proof.
  intros Hx Hr Hf [H1 H2] HQ. eapply wp_grep_loop; [done..| cbn; unfold bufsize; lia |]. intros reads Hreads.
  rewrite (grep_loop_full pattern reads [] (f_rest x) (split_lines (f_rest x)).1 (split_lines (f_rest x)).2); [done | apply split_lines_spec | | done..].
  split; [constructor | cbn; unfold bufsize; lia].
Qed.

(** ** [ls] *)

Lemma wp_stat v p (Q : prog (option Fs.stat) -> uview -> Prop) :
  (size (fds v) < max_fds)%nat -> Q (Ret (fst <$> files v p)) v -> wp v (ulib_stat p) Q.
Proof.
  intros Hsz HQ. unfold ulib_stat. apply wp_bind. destruct (files v p) as [[st c]|] eqn:Ef.
  - eapply wp_open_some; [done..|]. intros fd Hfd Hn. rewrite (proj2 (Z.ltb_ge _ _)) by lia.
    apply wp_bind. eapply wp_fstat; [apply lookup_insert_eq | exact Ef |].
    apply wp_bind. eapply wp_close; [apply lookup_insert_eq|]. cbn [fds vset_fds].
    rewrite delete_insert_id by done. rewrite vset_vset, vset_fds_self. by apply wp_ret.
  - apply wp_open_none; [done|]. intros fd Hfd. rewrite (proj2 (Z.ltb_lt _ _)) by lia. by apply wp_ret.
Qed.

Lemma wp_ls_line v path st (Q : prog unit -> uview -> Prop) :
  Q (Ret tt) (vouts (ls_out path st) [] v) -> wp v (ls_line path st) Q.
Proof. intros HQ. apply wp_out. exact HQ. Qed.

Lemma dir_out_cons f path de rest : length de = 16%nat -> dir_out f path (de ++ rest) = entry_out f path de ++ dir_out f path rest.
Proof.
  intros Hde. unfold dir_out. assert (length (de ++ rest) / 16 = Datatypes.S (length rest / 16))%nat as ->.
  { rewrite length_app, Hde. replace (16 + length rest)%nat with (length rest + 1 * 16)%nat by lia. rewrite Nat.div_add by lia. lia. }
  cbn [dirents]. rewrite take_app_le, drop_app_ge, take_ge by lia. rewrite Hde, Nat.sub_diag, drop_0. done.
Qed.

Lemma dir_out_short f path c : (length c < 16)%nat -> dir_out f path c = [].
Proof. intros H. unfold dir_out. by rewrite Nat.div_small. Qed.

Lemma wp_ls_dir fuel v fd x path (Q : prog unit -> uview -> Prop) :
  fds v !! fd = Some x -> f_reg x = true -> (length (f_rest x) < fuel)%nat -> (size (fds v) < max_fds)%nat ->
  Q (Ret tt) (vouts (dir_out (files v) path (f_rest x)) [] (vset_fds (<[fd := emptied x]> (fds v)) v)) ->
  wp v (ls_dir fuel fd path) Q.
Proof.
  revert v x. induction fuel as [|f IH]; intros v x Hx Hr Hf Hsz HQ; [lia|]. cbn [ls_dir].
  apply wp_bind. eapply wp_read; [exact Hx | lia |]. intros de rest El _ _ Hl. specialize (Hl Hr).
  assert (forall y, size (<[fd := y]> (fds v)) = size (fds v)) as Hins by (intros y; by rewrite map_size_insert_Some).
  destruct (Nat.eqb_spec (length de) 16) as [E|E]; cbn [negb].
  - assert (length rest < f)%nat by (rewrite El, length_app in Hf; lia). rewrite El, dir_out_cons in HQ by done.
    set (v1 := vset_fds _ v). assert (forall a, Q (Ret tt) (vouts (a ++ dir_out (files v) path rest) [] (vset_fds (<[fd := emptied x]> (fds v)) v)) ->
      wp (vouts a [] v1) (ls_dir f fd path) Q) as Hnext.
    { intros a Ha. eapply IH; [apply lookup_insert_eq | done | done | by cbn; rewrite Hins |]. unfold v1. cbn.
      rewrite insert_insert_eq, vset_vouts, vset_vset, vouts_vouts. exact Ha. }
    unfold entry_out in HQ. destruct (get16 de 0 =? 0).
    + rewrite <-(vouts_nil v1). by apply Hnext.
    + fold (dirent_name de). apply wp_bind, wp_stat; [by cbn; rewrite Hins|]. cbn [files vset_fds v1].
      apply wp_bind. destruct (files v (path ++ [47] ++ dirent_name de)) as [[st c]|]; cbn [fmap option_fmap option_map fst].
      * apply wp_ls_line, Hnext, HQ.
      * unfold uprintln. change (codes "ls: cannot stat %s" ++ [10]) with (codes "ls: cannot stat " ++ codes "%s" ++ [10]).
        rewrite printf_name by (repeat constructor; done). apply wp_out, Hnext, HQ.
  - apply wp_ret. assert (length de < 16 /\ rest = [])%nat as [Hs ->].
    { rewrite Hl, length_take in E. assert (length (f_rest x) < 16)%nat by lia. assert (length (de ++ rest) = length de) as Hlen.
      { rewrite <-El, Hl, length_take. lia. } rewrite length_app in Hlen. split; [rewrite Hl, length_take; lia | apply nil_length_inv; lia]. }
    rewrite El, app_nil_r, dir_out_short, vouts_nil in HQ by done. exact HQ.
Qed.

Lemma wp_ls fuel v path (Q : prog unit -> uview -> Prop) :
  (size (fds v) + 1 < max_fds)%nat -> (forall st c, files v path = Some (st, c) -> length c < fuel)%nat ->
  Q (Ret tt) (vouts (ls_outs (files v) path).1 (ls_outs (files v) path).2 v) -> wp v (ls fuel path) Q.
Proof.
  intros Hsz Hf HQ. unfold ls. apply wp_bind. unfold ls_outs in HQ. destruct (files v path) as [[st c]|] eqn:Ef; cbn [fst snd] in HQ.
  - eapply wp_open_some; [done | lia |]. intros fd Hfd Hn. rewrite (proj2 (Z.ltb_ge _ _)) by lia.
    apply wp_bind. eapply wp_fstat; [apply lookup_insert_eq | exact Ef |]. apply wp_bind.
    assert (forall a y, Q (Ret tt) (vouts a [] v) ->
      wp (vouts a [] (vset_fds (<[fd := y]> (fds v)) v)) (sys (fun s => (tt, u_close fd s))) Q) as Hclose.
    { intros a y Ha. eapply wp_close; [cbn; apply lookup_insert_eq|]. cbn [fds vouts vset_fds].
      rewrite delete_insert_id by done. rewrite vset_vouts, vset_vset, vset_fds_self. exact Ha. }
    destruct (st_type st =? T_FILE); [apply wp_ls_line, Hclose, HQ|].
    destruct (st_type st =? T_DIR) eqn:E1; [|apply wp_ret; rewrite <-(vouts_nil (vset_fds _ _)); by apply Hclose].
    change DIRSIZ with 14. destruct (Z.leb_spec (Z.of_nat (length path)) 496).
    + rewrite (proj2 (Z.ltb_ge _ _)) by lia. apply Z.eqb_eq in E1.
      eapply wp_ls_dir; [apply lookup_insert_eq | cbn; by rewrite E1 | cbn; by eapply Hf | |].
      { cbn. rewrite map_size_insert_None by done. lia. }
      cbn [fds vset_fds]. rewrite insert_insert_eq, vset_vset. apply Hclose, HQ.
    + rewrite (proj2 (Z.ltb_lt _ _)) by lia. apply wp_out, Hclose, HQ.
  - apply wp_open_none; [done|]. intros fd Hfd. rewrite (proj2 (Z.ltb_lt _ _)) by lia. unfold uprintln.
    change (codes "ls: cannot open %s" ++ [10]) with (codes "ls: cannot open " ++ codes "%s" ++ [10]).
    rewrite printf_name by (repeat constructor; done). apply wp_err, HQ.
Qed.

Lemma wp_ls_each fuel v names (Q : prog unit -> uview -> Prop) :
  (size (fds v) + 1 < max_fds)%nat -> Forall (fun p => forall st c, files v p = Some (st, c) -> (length c < fuel)%nat) names ->
  Q Exit (vouts (names ≫= fun p => (ls_outs (files v) p).1) (names ≫= fun p => (ls_outs (files v) p).2) v) ->
  wp v (ls_each fuel names) Q.
Proof.
  revert v. induction names as [|p names IH]; intros v Hsz Hf HQ; cbn [ls_each].
  - apply wp_exit. cbn in HQ. by rewrite vouts_nil in HQ.
  - apply Forall_cons in Hf as [Hp Hf]. apply wp_bind, wp_ls; [done..|]. apply IH; [done..|]. by rewrite vouts_vouts.
Qed.

(** ** [echo] and [gets] *)

Lemma wp_echo v args (Q : prog unit -> uview -> Prop) : Q Exit (vouts (echo_out args) [] v) -> wp v (echo_loop args) Q.
Proof.
  revert v. induction args as [|a args IH]; intros v HQ; cbn [echo_loop echo_out] in *.
  - apply wp_exit. by rewrite vouts_nil in HQ.
  - apply wp_bind, wp_out, IH. rewrite vouts_vouts.
    assert (forall l, printf (arg_word [AStr a; AStr l]) (arg_str [AStr a; AStr l]) (codes "%s%s") = a ++ l) as ->
      by (intros l; change (a ++ l ++ [] = a ++ l); by rewrite app_nil_r).
    rewrite <-app_assoc. by destruct args.
Qed.

Lemma wp_gets_loop n v x buf (Q : prog (list Z) -> uview -> Prop) :
  fds v !! 0 = Some x ->
  Q (Ret (buf ++ (first_line n (f_rest x)).1))
    (vset_fds (<[0 := mkUfd (f_path x) (first_line n (f_rest x)).2 (f_reg x)]> (fds v)) v) -> wp v (gets_loop n buf) Q.
Proof.
  assert (forall v x, fds v !! 0 = Some x -> vset_fds (<[0 := mkUfd (f_path x) (f_rest x) (f_reg x)]> (fds v)) v = v) as Hid.
  { intros v' [a b c] Hx. cbn. by rewrite insert_id, vset_fds_self. }
  revert v x buf. induction n as [|n IH]; intros v x buf Hx HQ; cbn [gets_loop].
  - apply wp_ret. cbn in HQ. by rewrite app_nil_r, Hid in HQ.
  - apply wp_bind. eapply wp_read; [exact Hx | lia |]. intros l rest El Hlen H0 _. destruct l as [|c [|d l]]; [| |cbn in Hlen; lia].
    + apply wp_ret. rewrite H0 in * by done. cbn [app] in El. rewrite El in HQ. cbn in HQ. by rewrite app_nil_r in HQ.
    + rewrite El in HQ. cbn [app first_line] in HQ. destruct ((c =? 10) || (c =? 13)); [by apply wp_ret|].
      eapply IH; [apply lookup_insert_eq|]. cbn [f_rest f_path f_reg]. destruct (first_line n rest). cbn [fst snd] in *.
      rewrite <-app_assoc. cbn. rewrite insert_insert_eq, vset_vset. exact HQ.
Qed.
End Programs.

(** ** The shell *)

(** A line that fits the buffer with its newline *)
Definition cmd_line (l : list Z) : Prop := Forall (fun c => c <> 0 /\ c <> 10 /\ c <> 13) l /\ (length l <= 98)%nat.

Definition line_event (l : list Z) : uevent :=
  if bool_decide (take 3 l = codes "cd ") then Cd (drop 3 l) else Ran (l ++ [10]).

Lemma first_line_line n l rest : cmd_line l -> (length l < n)%nat -> first_line n (l ++ 10 :: rest) = (l ++ [10], rest).
Proof.
  intros [H _]. revert n. induction H as [|c l (_ & H10 & H13) _ IH]; intros [|n] Hn; cbn [length] in Hn; try lia; cbn [app first_line]; [done|].
  rewrite (proj2 (Z.eqb_neq _ _) H10), (proj2 (Z.eqb_neq _ _) H13). cbn [orb]. by rewrite IH by lia.
Qed.

Lemma cut0_line l : Forall (fun c => c <> 0) l -> cut0 l = l.
Proof. induction 1 as [|c l Hc _ IH]; [done|]. cbn [cut0]. by rewrite (proj2 (Z.eqb_neq _ _) Hc), IH. Qed.

(** A line starts with the three characters as much as the line with its newline. *)
Lemma cd_prefix l : cmd_line l -> bool_decide (take 3 (l ++ [10]) = codes "cd ") = bool_decide (take 3 l = codes "cd ").
Proof.
  intros [H _]. apply bool_decide_ext. destruct l as [|a [|b [|c l]]]; try done.
Qed.

Section Shell.
Context {S : Type} {ux : Unix S} {laws : UnixLaws S} {pr : Procs S} {plaws : ProcsLaws S}.

Lemma wp_getcmd v x (Q : prog (option (list Z)) -> uview -> Prop) :
  fds v !! 0 = Some x ->
  Q (Ret (match cut0 (first_line 99 (f_rest x)).1 with [] => None | buf => Some buf end))
    (vouts [] (codes "$ ") (vset_fds (<[0 := mkUfd (f_path x) (first_line 99 (f_rest x)).2 (f_reg x)]> (fds v)) v)) ->
  wp v (getcmd 100) Q.
Proof.
  intros Hx HQ. unfold getcmd. apply wp_bind. unfold uprintf. apply wp_err. apply wp_bind. unfold gets. change (Z.to_nat (100 - 1)) with 99%nat.
  eapply wp_gets_loop; [exact Hx|]. cbn [app]. destruct (cut0 _); apply wp_ret; exact HQ.
Qed.

(** The loop does one thing for each line, in order, and exits at the end of the
    input. *)
Lemma wp_sh_loop fuel v x ls (Q : prog unit -> uview -> Prop) :
  fds v !! 0 = Some x -> f_rest x = unlines ls -> Forall cmd_line ls -> (length ls < fuel)%nat ->
  (forall v', events v' = events v ++ map line_event ls -> fds v' = <[0 := emptied x]> (fds v) -> Q Exit v') -> wp v (sh_loop fuel) Q.
Proof.
  revert fuel v x. induction ls as [|l ls IH]; intros [|f] v x Hx Hr Hls Hf HQ; cbn [length] in Hf; try lia; cbn [sh_loop].
  - apply wp_bind. eapply wp_getcmd; [exact Hx|]. rewrite Hr. cbn. apply wp_exit, HQ; [by rewrite app_nil_r | done].
  - apply Forall_cons in Hls as [Hl Hls]. apply wp_bind. eapply wp_getcmd; [exact Hx|].
    rewrite Hr, unlines_cons, first_line_line by (done || destruct Hl; lia). cbn [fst snd].
    rewrite cut0_line by (apply Forall_app; split; [eapply Forall_impl; [apply Hl|]; by intros c [] | by repeat constructor]).
    destruct (l ++ [10]) as [|c buf] eqn:Eb; [by destruct l|]. rewrite <-Eb, cd_prefix by done. clear c buf Eb.
    set (v1 := vouts _ _ _). set (x1 := mkUfd (f_path x) (unlines ls) (f_reg x)).
    assert (fds v1 !! 0 = Some x1) as Hx1 by apply lookup_insert_eq.
    assert (forall v2 e, fds v2 = fds v1 -> events v2 = events v1 ++ [e] -> line_event l = e -> wp v2 (sh_loop f) Q) as Hnext.
    { intros v2 e Hfd He Hle. eapply (IH f v2 x1); [by rewrite Hfd | done | done | lia |]. intros v' Hv' Hfds'. apply HQ.
      - rewrite Hv', He, <-Hle. cbn [map]. by rewrite <-app_assoc.
      - rewrite Hfds', Hfd. cbn. by rewrite insert_insert_eq. }
    unfold line_event in Hnext. case_bool_decide as Hcd.
    + rewrite length_app. cbn [length]. replace (length l + 1 - 1)%nat with (length l) by lia. rewrite take_app_length.
      apply wp_bind. intros s Hs. destruct (chdir_law (drop 3 l) s) as (r & s' & g & E & Hv). unfold sys. rewrite E. cbn [fst snd].
      rewrite Hv, Hs. apply wp_bind. destruct (r <? 0); [apply wp_err | apply wp_ret]; eapply Hnext; done.
    + apply wp_bind. unfold fork1. apply wp_bind. intros s Hs. destruct (fork_law s) as (pid & s' & E & Hpid & Hv). unfold sys at 1 2. rewrite E. cbn [fst snd].
      rewrite Hv, Hs, (proj2 (Z.eqb_neq _ _)) by lia. apply wp_ret, wp_bind.
      intros s2 Hs2. destruct (wait_law (l ++ [10]) s2) as (o1 & o2 & g & Ew). cbn [sys fst snd]. rewrite Ew, Hs2. eapply Hnext; done.
Qed.

(** The three descriptors are open already: the console is opened once more and
    closed. *)
Lemma wp_open_console fuel v st c (Q : prog unit -> uview -> Prop) :
  files v (codes "console") = Some (st, c) -> st_type st = T_DEV -> (size (fds v) < max_fds)%nat ->
  (forall fd, 0 <= fd < 3 -> is_Some (fds v !! fd)) -> Q (Ret tt) v -> wp v (open_console (Datatypes.S fuel)) Q.
Proof.
  intros Hf Hst Hsz Hstd HQ. cbn [open_console]. apply wp_bind.
  assert (wp v (sys (u_open (codes "console") 0)) (fun r v1 => match r with
    | Ret fd => wp v1 (if 0 <=? fd then if 3 <=? fd then sys (fun s => (tt, u_close fd s)) else open_console fuel else mret tt) Q
    | Exit => Q Exit v1 | Running => Q Running v1 end)) as H.
  { eapply wp_open_some; [done..|]. intros fd Hfd Hn. rewrite (proj2 (Z.leb_le _ _)) by lia.
    destruct (decide (fd < 3)) as [H3|H3]; [destruct (Hstd fd) as [y Hy]; [lia | congruence]|]. rewrite (proj2 (Z.leb_le _ _)) by lia.
    eapply wp_close; [apply lookup_insert_eq|]. cbn [fds vset_fds]. rewrite delete_insert_id by done. by rewrite vset_vset, vset_fds_self. }
  intros s Hs. specialize (H s Hs). unfold sys in *. rewrite (open_rw_law _ s st c); [exact H | by rewrite Hs | done].
Qed.

(** The shell on lines of at most 98 characters: each line is run once, in order,
    [cd] in the shell itself and every other line in a child, until the end of
    the input. *)
Lemma shell_runs_lines fuel s x st c ls :
  files (view s) (codes "console") = Some (st, c) -> st_type st = T_DEV -> (size (fds (view s)) < max_fds)%nat ->
  (forall fd, 0 <= fd < 3 -> is_Some (fds (view s) !! fd)) -> fds (view s) !! 0 = Some x ->
  f_rest x = unlines ls -> Forall cmd_line ls -> (length ls < fuel)%nat ->
  exists s', sh_main fuel s = (Exit, s') /\ events (view s') = events (view s) ++ map line_event ls.
Proof.
  intros Hf Hst Hsz Hstd Hx Hr Hls Hfuel.
  assert (wp (view s) (sh_main fuel) (fun r v' => r = Exit /\ events v' = events (view s) ++ map line_event ls)) as H.
  { unfold sh_main. apply wp_bind. destruct fuel as [|f]; [lia|]. eapply wp_open_console; [done..|].
    eapply wp_sh_loop; [done..|]. done. }
  destruct (H s eq_refl) as [H1 H2]. exists (sh_main fuel s).2. split; [by rewrite <-H1, <-surjective_pairing | done].
Qed.

(** Without a newline at its end, the line [cd ab] changes to the directory a. *)
Lemma cd_loses_character s x fuel :
  fds (view s) !! 0 = Some x -> f_rest x = codes "cd ab" -> (1 < fuel)%nat ->
  exists s', sh_loop fuel s = (Exit, s') /\ events (view s') = events (view s) ++ [Cd (codes "a")].
Proof.
  intros Hx Hr Hf. assert (wp (view s) (sh_loop fuel) (fun r v' => r = Exit /\ events v' = events (view s) ++ [Cd (codes "a")])) as H.
  { destruct fuel as [|f]; [lia|]. cbn [sh_loop]. apply wp_bind. eapply wp_getcmd; [exact Hx|]. rewrite Hr.
    change (match cut0 (first_line 99 (codes "cd ab")).1 with [] => None | z :: l => Some (z :: l) end) with (Some (codes "cd ab")).
    change (first_line 99 (codes "cd ab")).2 with (@nil Z). cbn iota.
    rewrite bool_decide_eq_true_2 by done. change (drop 3 (take (length (codes "cd ab") - 1) (codes "cd ab"))) with (codes "a").
    apply wp_bind. intros s1 Hs1. destruct (chdir_law (codes "a") s1) as (r & s' & g & E & Hv). unfold sys. rewrite E. cbn [fst snd].
    rewrite Hv, Hs1. apply wp_bind.
    assert (forall v2, fds v2 !! 0 = Some (emptied x) -> events v2 = events (view s) ++ [Cd (codes "a")] ->
      wp v2 (sh_loop f) (fun r v' => r = Exit /\ events v' = events (view s) ++ [Cd (codes "a")])) as Hlast.
    { intros v2 H0 He. eapply (wp_sh_loop _ v2 _ []); [exact H0 | done | constructor | cbn; lia |]. intros v' Hv' _. split; [done|].
      by rewrite Hv', app_nil_r. }
    destruct (r <? 0); [apply wp_err | apply wp_ret]; (apply Hlast; [apply lookup_insert_eq | done]). }
  destruct (H s eq_refl) as [H1 H2]. exists (sh_loop fuel s).2. split; [by rewrite <-H1, <-surjective_pairing | done].
Qed.
End Shell.

(** ** A system in memory *)

(** The state is the view itself; a descriptor is the lowest free one of 16.
    Calls that change names fail. *)
Definition free_fd (m : gmap Z ufd) : option Z := find (fun i => bool_decide (m !! i = None)) (seqZ 0 16).

Lemma free_fd_some m : (size m < max_fds)%nat -> exists fd, free_fd m = Some fd /\ 0 <= fd /\ m !! fd = None.
Proof.
  intros H. unfold free_fd. destruct (find _ _) as [fd|] eqn:E.
  - apply find_some in E as [Hin Hfd]. apply bool_decide_eq_true in Hfd. apply list_elem_of_In, elem_of_seqZ in Hin. exists fd. split_and!; [done | lia | done].
  - exfalso. assert (list_to_set (seqZ 0 16) ⊆ dom m) as Hsub.
    { intros i Hi. apply elem_of_list_to_set in Hi. apply list_elem_of_In in Hi. pose proof (find_none _ _ E i Hi) as Hn.
      apply bool_decide_eq_false in Hn. apply elem_of_dom. destruct (m !! i); [eauto | done]. }
    apply subseteq_size in Hsub. rewrite size_list_to_set, length_seqZ, size_dom in Hsub by apply NoDup_seqZ.
    unfold max_fds in H. change (Z.to_nat 16) with 16%nat in Hsub. lia.
Qed.

#[export] Instance mem_unix : Unix uview := {
  u_open p _ v := match files v p with
    | None => (-1, v)
    | Some (st, c) => match free_fd (fds v) with None => (-1, v) | Some fd => (fd, vset_fds (<[fd := opened_as p st c]> (fds v)) v) end
    end;
  u_read fd n v := match fds v !! fd with
    | None => (None, v)
    | Some x => (Some (take n (f_rest x)), vset_fds (<[fd := mkUfd (f_path x) (drop (length (take n (f_rest x))) (f_rest x)) (f_reg x)]> (fds v)) v)
    end;
  u_write fd l v := (Z.of_nat (length l), vput fd l v);
  u_close fd v := vset_fds (delete fd (fds v)) v;
  u_fstat fd v := (match fds v !! fd with None => None | Some x => fst <$> files v (f_path x) end, v);
  u_link _ _ v := (-1, v); u_unlink _ v := (-1, v); u_mkdir _ v := (-1, v); u_kill _ v := (-1, v)
}.

#[export] Program Instance mem_laws : UnixLaws uview := { view v := v }.
Next Obligation.
  intros p v. cbn. destruct (files v p) as [[st c]|].
  - intros H. destruct (free_fd_some _ H) as (fd & -> & Hfd & Hn). eauto 10.
  - exists (-1), v. split_and!; [done | lia | done].
Qed.
Next Obligation.
  intros fd n v x Hx Hn. cbn. rewrite Hx. eexists _, _. split; [reflexivity|]. split_and!; [| | | done | done].
  - rewrite length_take. destruct (Nat.min_spec n (length (f_rest x))) as [[_ ->]|[? ->]]; [done | by rewrite !take_ge by lia].
  - rewrite length_take. lia.
  - intros H. apply (f_equal length) in H. rewrite length_take in H. apply nil_length_inv. cbn in H. lia.
Qed.
Next Obligation. intros fd l v _. cbn. eauto. Qed.
Next Obligation. done. Qed.
Next Obligation. intros fd v x st c Hx Hf. cbn. rewrite Hx, Hf. eauto. Qed.

(** Its processes: the directory changes, and a child does nothing. *)
Definition vevent (e : uevent) (v : uview) : uview := mkView (fds v) (out1 v) (out2 v) (files v) (events v ++ [e]).

#[export] Instance mem_procs : Procs uview := {
  u_chdir p v := (0, vevent (Cd p) v); u_fork v := (1, v); u_wait line v := vevent (Ran line) v
}.

#[export] Program Instance mem_procs_laws : ProcsLaws uview.
Next Obligation. done. Qed.
Next Obligation. intros p v. cbn. eauto. Qed.
Next Obligation. intros v. cbn. exists 1, v. done. Qed.
Next Obligation. intros line v. cbn. eauto. Qed.

(** ** Properties *)

Definition exits {S} {ux : Unix S} {laws : UnixLaws S} (m : U S unit) (s : S) (a b : list Z) : Prop :=
  exists s', m s = (Exit, s') /\ view s' = vouts a b (view s).

Lemma exits_wp {S} {ux : Unix S} {laws : UnixLaws S} (m : U S unit) s a b :
  wp (view s) m (fun r v' => r = Exit /\ v' = vouts a b (view s)) -> exits m s a b.
Proof. intros H. destruct (H s eq_refl) as [H1 H2]. exists (m s).2. split; [by rewrite <-H1, <-surjective_pairing | done]. Qed.

(** C30: The small programs print what they are for.  Run on any number of names
    they end with [exit], with every descriptor they opened closed again:
    [cat] has written the contents of the files in order, [wc] a line with the
    numbers of lines, words and characters of each, [grep] the lines that match
    of each (for text with lines of at most 1022 characters), all three up to
    the first file that does not open, with a message for that one; [ls] has
    written a line for each file, one for each entry of each directory that is
    in use, and a message for what it could not open, and goes on; [echo] has
    written its arguments.  [read] may return less than asked for on a device,
    and no run takes more turns of a loop than there are bytes in the file. *)
Theorem programs_print {S} {ux : Unix S} {laws : UnixLaws S} fuel (s : S) name pattern p names :
  let f := files (view s) in
  let argv := name :: p :: names in
  (size (fds (view s)) + 1 < max_fds)%nat ->
  Forall (fun q => forall st c, f q = Some (st, c) -> (length c < fuel)%nat /\ Z.of_nat (length c) < 2 ^ 31) (p :: names) ->
  exits (cat_main fuel argv) s (files_out (codes "cat: cannot open ") (fun _ c => c) f (p :: names)) [] /\
  exits (wc_main fuel argv) s (files_out (codes "wc: cannot open ") wc_out f (p :: names)) [] /\
  (Forall (fun q => forall st c, f q = Some (st, c) -> st_type st <> T_DEV /\ text c) (p :: names) ->
   exits (grep_main fuel (name :: pattern :: p :: names)) s
     (files_out (codes "grep: cannot open ") (fun _ => grep_out pattern) f (p :: names)) []) /\
  exits (ls_main fuel argv) s ((p :: names) ≫= fun q => (ls_outs f q).1) ((p :: names) ≫= fun q => (ls_outs f q).2) /\
  exits (echo_main argv) s (echo_out (p :: names)) [].
Proof.
  intros f argv Hsz Hok. split_and!.
  - apply exits_wp. apply (wp_each_file _ _ (codes "cat: cannot open ") (fun _ c => c) (fun st c => (length c < fuel)%nat));
      [done | repeat constructor; done | | lia | | done].
    + intros v fd q st c Q Hx Hc HQ. by eapply wp_cat.
    + eapply Forall_impl; [exact Hok|]. intros q Hq st c Hf. by apply (Hq st c).
  - apply exits_wp. apply (wp_each_file _ _ (codes "wc: cannot open ") wc_out (fun st c => (length c < fuel)%nat /\ Z.of_nat (length c) < 2 ^ 31));
      [done | repeat constructor; done | | lia | done | done].
    intros v fd q st c Q Hx [Hc Hc'] HQ. by eapply wp_wc.
  - intros Htext. apply exits_wp.
    apply (wp_each_file _ _ (codes "grep: cannot open ") (fun _ => grep_out pattern) (fun st c => (length c < fuel)%nat /\ st_type st <> T_DEV /\ text c));
      [done | repeat constructor; done | | lia | | done].
    + intros v fd q st c Q Hx (Hc & Ht & Hc') HQ. eapply wp_grep; [done | | done | done | done].
      cbn. by rewrite (proj2 (Z.eqb_neq _ _) Ht).
    + eapply Forall_impl; [apply Forall_and; split; [exact Hok | exact Htext]|]. intros q [H1 H2] st c Hf.
      split; [by apply (H1 st c) | by apply H2].
  - apply exits_wp, wp_ls_each; [done | | done]. eapply Forall_impl; [exact Hok|]. intros q Hq st c Hf. by apply (Hq st c).
  - apply exits_wp, wp_echo. done.
Qed.

(** A file of two lines, the directory it is in and an unused record *)
Definition demo_text : list Z := codes "hi you" ++ [10] ++ codes "me" ++ [10].
Definition demo_records : list Z := [2; 0] ++ codes "a" ++ replicate 13 0 ++ replicate 16 0.
Definition demo_view : uview :=
  mkView {[0 := mkUfd [] [] false; 1 := mkUfd [] [] false; 2 := mkUfd [] [] false]} [] []
    (fun p => if bool_decide (p = codes "a") || bool_decide (p = codes "./a") then Some (mkStat 2 1 2 1 10, demo_text)
              else if bool_decide (p = codes ".") then Some (mkStat 1 1 1 1 32, demo_records) else None) [].

Lemma demo_room : (size (fds demo_view) + 1 < max_fds)%nat.
Proof. change (4 < 16)%nat. lia. Qed.

Lemma demo_text_ok : text demo_text.
Proof. unfold text, short_line, is_line. apply (bool_decide_unpack _). vm_compute. exact I. Qed.

Lemma demo_sizes q st c : files demo_view q = Some (st, c) -> (length c < 40)%nat /\ Z.of_nat (length c) < 2 ^ 31.
Proof. cbn. intros H. repeat case_match; simplify_eq; split; cbn; lia. Qed.

Lemma programs_print_witness :
  let line := codes "a              2 2 10" ++ [10] in
  exits (cat_main 40 [codes "cat"; codes "a"; codes "x"; codes "a"]) demo_view (demo_text ++ codes "cat: cannot open x" ++ [10]) [] /\
  exits (grep_main 40 [codes "grep"; codes "^.e$"; codes "a"; codes "x"]) demo_view (codes "me" ++ [10] ++ codes "grep: cannot open x" ++ [10]) [] /\
  exits (wc_main 40 [codes "wc"; codes "a"]) demo_view (codes "2 3 10 a" ++ [10]) [] /\
  exits (ls_main 40 [codes "ls"; codes "a"; codes "x"; codes "."]) demo_view (line ++ line) (codes "ls: cannot open x" ++ [10]).
Proof.
  assert (forall l, Forall (fun q => forall st c, files demo_view q = Some (st, c) -> (length c < 40)%nat /\ Z.of_nat (length c) < 2 ^ 31) l)
    as Hok by (intros l; apply Forall_forall; intros q _; apply demo_sizes).
  split_and!.
  - exact (proj1 (programs_print 40 demo_view (codes "cat") [] (codes "a") [codes "x"; codes "a"] demo_room (Hok _))).
  - refine (proj1 (proj2 (proj2 (programs_print 40 demo_view (codes "grep") (codes "^.e$") (codes "a") [codes "x"] demo_room (Hok _)))) _).
    apply Forall_cons; split; [|apply Forall_cons; split; [done | by apply Forall_nil]]; intros st c [= <- <-]; split; [done | apply demo_text_ok].
  - exact (proj1 (proj2 (programs_print 40 demo_view (codes "wc") [] (codes "a") [] demo_room (Hok _)))).
  - exact (proj1 (proj2 (proj2 (proj2 (programs_print 40 demo_view (codes "ls") [] (codes "a") [codes "x"; codes "."] demo_room (Hok _)))))).
Defined.

(** The shell on two lines in this system *)
Example shell_runs_lines_demo :
  let console := mkUfd (codes "console") (codes "cd d" ++ [10] ++ codes "ls" ++ [10]) false in
  let v := mkView {[0 := console; 1 := console; 2 := console]} [] [] (fun p => if bool_decide (p = codes "console") then Some (mkStat 3 1 5 1 0, []) else None) [] in
  exists v', sh_main 5 v = (Exit, v') /\ events v' = [Cd (codes "d"); Ran (codes "ls" ++ [10])].
Proof.
  intros console v. refine (shell_runs_lines 5 v console (mkStat 3 1 5 1 0) [] [codes "cd d"; codes "ls"] _ _ _ _ _ _ _ _); try reflexivity.
  - change (3 < 16)%nat. lia.
  - intros fd Hfd. assert (fd = 0 \/ fd = 1 \/ fd = 2) as [-> | [-> | ->]] by lia; eexists; reflexivity.
  - unfold cmd_line. apply (bool_decide_unpack _). vm_compute. exact I.
  - cbn. lia.
Qed.
